(* ===== verification/_CoqProject ===== *)
-Q . S2P
Prelude.v
RustStr.v
Utf8.v
Allowlist.v
TlsSni.v
Stream.v
NetHttp.v
Internal.v
Dns.v
Anomaly.v
SquadToken.v
Ingress.v
Upstream.v
EgressProxy.v
IdentityHttp.v
IdentityRules.v
IdentityProxy.v
NetAdmin.v
McpGateway.v
PodSystem.v
PortForward.v
Collections.v
F64.v
Json.v
Crd.v
Lifecycle.v
PodSpec.v
Storage.v
VmSupervisor.v
Firewall.v
LlmBudget.v
OpenBao.v
Auth.v
Routes.v
Approvals.v
Shell.v
Exec.v
ExecStream.v
ApiMcp.v
GuestBridge.v
Rootfs.v
ImageBuilder.v
BuilderVm.v
GuestInit.v
Provision.v
Eviction.v
VmResources.v
MicroVm.v
BuildJob.v
PodTemplate.v
Credentials.v
Cli.v
CliMcp.v
GuestServices.v
ApiRouter.v
KvmPlugin.v
PodAccess.v
PodPorts.v
SessionArchive.v
Startup.v
VmStart.v
BuildRun.v
CliRun.v
ControllerRun.v
ServerInstall.v
