(* ===== verification/Prelude.v ===== *)
(** * Atelier: a verification of the platform of Workshops

    Atelier runs coding agents in microVMs ("Workshops").  Everything an agent's
    microVM can reach goes through a few small programs of its pod, and this
    library models those programs and proves what makes them a boundary; the
    supervisor of the microVM, for which a suspended Workshop is resumed as it was;
    the controller and the API server, which act on Workshops for their users; and
    the programs that build a guest's image and run inside of it.

    ** The program and its model

    A guest's connection arrives at net-proxy ([crates/net-proxy]), which reads
    the destination it asks for, decides, and either refuses, relays to a trusted
    component of the pod, or relays to the outside, through identity-proxy
    ([crates/identity-proxy]) when there is one.  identity-proxy sets credentials
    on the requests its rules name.  The agent may widen the policy through the
    tools of mcp-gateway ([crates/mcp-gateway]), which call net-proxy's
    administration server.  Workshops of one campaign reach each other through
    the ingress of their net-proxies with signed tokens ([crates/common]).
    vm-supervisor ([crates/vm-supervisor], with [crates/firecracker]) sets up the
    microVM's link and its packet filter, so that net-proxy is all it reaches, cuts
    it when net-proxy asks for a lockdown, and publishes suspensions, which it also
    keeps in an object store ([crates/common]).  The controller
    ([crates/controller]) turns a Workshop's specification into that pod, drives
    it through its phases, and provisions its roles and secrets in OpenBao.  Users
    act through the API server ([crates/api-server]): routes and tools over the
    Workshops of their groups, credentials, commands in the guest, its terminal and
    editor, approvals and budgets.  The image of a guest is built by
    [crates/image-builder] in a microVM of its own ([crates/builder-vm-init]), and
    [crates/guest-init] is the first process of a guest without systemd.  Nodes offer
    [/dev/kvm] through [crates/kvm-device-plugin], and users have a command line
    ([crates/cli]).

    - [Prelude]: byte strings, results ([Ok], [Err], [Panic]), indexing and slicing
      with Rust's panics, tactics, hints and generic lemmas.
    - [RustStr], [Utf8], [Stream]: what the sources use of Rust's standard library:
      [str] operations, UTF-8 validity, buffered line reading.
    - [Allowlist] (allowlist.rs), [TlsSni] (tls_sni.rs), [NetHttp] (http.rs),
      [Internal] (internal.rs), [Dns] (dns.rs), [Anomaly] (anomaly.rs),
      [Upstream] (upstream.rs), [Ingress] (ingress.rs), [EgressProxy] (proxy.rs),
      [NetAdmin] (admin.rs, metadata.rs, session_auth.rs, ssh_authorized_key.rs,
      the reload task and the configuration of main.rs) and [PortForward]
      (forward.rs, portforward.rs): net-proxy, one file per module.
    - [SquadToken]: crates/common/src/squad_token.rs.
    - [IdentityHttp] (http.rs), [IdentityRules] (rules.rs, secrets.rs) and
      [IdentityProxy] (proxy.rs): identity-proxy.
    - [McpGateway]: crates/mcp-gateway/src/gateway.rs.
    - [PodSystem]: the pod as a transition system over the state these share.
    - [Json]: JSON values and the merge patches the API server applies (the class
      [MergePatch], with the algorithm of RFC 7386 as an instance).
    - [Lifecycle]: the phases of crates/controller/src/reconcile.rs, the status of
      crates/common/src/crd.rs, the probe of guest_probe.rs, what image-builder
      writes; a transition system where their reads and writes interleave.
    - [PodSpec]: what [ensure_parent_pod] hands to the pod's programs, composed with
      what [Internal], [Ingress], [NetAdmin] and [Allowlist] read back.
    - [Storage]: crates/common/src/storage.rs, over the class [ObjectStore].
    - [VmSupervisor]: crates/vm-supervisor/src/main.rs, suspensions as sequences of
      file and object operations that can stop anywhere, and the control loop.
    - [Firewall]: crates/firecracker/src/network.rs, the functions as the [iptables]
      commands they run, over the class [Netfilter].
    - [Collections], [F64]: hash maps whose order is arbitrary, and the floating-point
      numbers of budgets and clocks.
    - [Crd]: the specification of crates/common/src/crd.rs and its JSON; [OpenBao]:
      openbao_client.rs, session_auth.rs and credentials.rs, over the class [KvV2].
    - [Auth], [Routes] (over the class [KubeApi]), [Approvals] (approvals.rs,
      chatops.rs), [LlmBudget], [Shell] and [Exec] (run.rs), [ExecStream] (exec.rs),
      [ApiMcp] (mcp_server.rs), [GuestBridge] (vscode.rs, terminal.rs,
      portforward.rs, session_recorder.rs): the API server.
    - [Provision]: openbao.rs, litellm.rs and git_identity.rs of the controller and the
      end of a Workshop, over the class [BaoAdmin]; [Eviction]: eviction.rs, with the
      algorithm of the script of its Job.
    - [Rootfs], [ImageBuilder], [GuestServices] and [BuilderVm]: crates/image-builder, with
      crates/builder-vm-init; [GuestInit]: crates/guest-init.
    - [VmResources]: the quantities of a specification (in [f64]), the environment of
      vm-supervisor, what it reads there, and the growth of the disk
      (crates/firecracker/src/rootfs.rs); [MicroVm]: crates/firecracker/src/vm.rs, over the
      class [Vmm].
    - [BuildJob], [PodTemplate], [PodAccess]: the Job of the image build, the whole pod with
      its rules of injection, and the mounts, capabilities and devices of their containers.
    - [PodPorts]: the addresses every program of the pod binds, with [fn main] of net-proxy;
      [Startup]: [fn main] of the controller and of the API server.
    - [ApiRouter]: the route table of the API server with its layer, and the whole handler of
      a command; [SessionArchive]: the recording of a terminal and its archive.
    - [Cli], [CliMcp], [CliRun]: crates/cli, its parts, its MCP server and installer, and
      [fn main] over every command, with [ServerInstall], the probes, commands and files of
      its installer; [KvmPlugin]: crates/kvm-device-plugin.
    - [VmStart]: [fn main] of vm-supervisor, from the link to its end, and the console of a
      microVM; [BuildRun]: [fn run] of image-builder, from the environment of the Job to the
      status of the Workshop; [ControllerRun]: [fn run] and [fn reconcile] of the controller,
      over the class [Finalizer] and a cache that lags behind the cluster.

    A routine is a function from what it reads to its result and, for a connection
    handler, the ordered list of its effects ([Upstream.event]): dials, writes,
    relays, recorded refusals.  What the code does not decide is an argument: the
    network ([Upstream.network]: the n-th dial to an endpoint is refused, or
    accepted with what the peer sends), the clock, the environment, hang-ups and
    timeouts, OpenBao, the keyed hash.  What is relied on of an argument is a named
    hypothesis or class ([SquadToken.HexMac]) with an instance.

    ** What the theorems show

    - Mediation ([EgressProxy], [IdentityProxy], [PodSystem], [Dns]): every
      connection and every relayed DNS query is one the policy grants, whatever the
      guest sends, through both proxies, and in every state the pod can reach.
    - Confinement of secrets: squad tokens go first and only to squad targets
      ([EgressProxy]), the ingress lets nothing through without one ([Ingress]),
      and credentials are set only on requests their rule names, change nothing
      else of them, and influence nothing else ([IdentityProxy]).
    - The link ([Firewall], [PodPorts]): once the commands have succeeded, a packet of the
      microVM is never forwarded; a new connection is let in exactly when it is meant for
      one of net-proxy's servers, which then alone answers it; after a lockdown
      nothing enters; and no microVM runs before the filter is set or after it is taken
      away, a Workshop's ([VmStart]) or a build's ([BuildRun]).
    - The controller ([PodSpec], [Lifecycle]): the pod enforces the specification it was
      built from; a built image is never lost to a concurrent write; phases are
      announced when they are true, and suspension and resumption end; the microVM, the
      build and the keys of a Workshop are those of its specification ([VmResources],
      [BuildJob], [PodTemplate]), the devices are those of two containers only
      ([PodAccess]), and its role does not outlive it ([ControllerRun]).
    - Suspensions ([VmSupervisor], [Storage]): interrupted anywhere, the publications
      leave one whole suspension or none; uploads are atomic, a file comes back from
      the object store to the byte, deletions stay in their directory; a resumed microVM is
      the one that was suspended ([MicroVm]).
    - The API server: a token is verified with a published key ([Auth]); what a user
      changes is his groups' and nothing else, and a patch changes its field and no
      other ([Routes], [ApiMcp]); a credential reaches the agent's requests and
      what the policies of OpenBao grant is exact ([Routes], [OpenBao], [Provision]);
      decisions are final ([Approvals]); a report is the sum of its entries
      ([LlmBudget]); a command is run as it was given, its output delivered once and
      in order ([Shell], [Exec], [ExecStream], [ApiRouter]); the guest is reached by the
      members of its group only ([GuestBridge]); no route of a Workshop is open, and the
      requests of the command line arrive at their handlers ([ApiRouter], [Cli]) with
      the token of their context ([CliRun]); an archive is what was recorded ([SessionArchive]).
    - Images and guests: what a repository says cannot run commands ([ImageBuilder]),
      links are followed as the guest follows them ([Rootfs]), the services of a guest
      listen where its specification says ([GuestServices]), the builder builds what
      is asked for ([BuilderVm]), a build publishes what it checked or nothing ([BuildRun]),
      the session is not root and exactly the
      stale orphans are killed ([GuestInit]), and the cache evicts exactly its
      policy ([Eviction]).
    - Exactness of the relays: heads, bodies and requests of keep-alive connections
      are neither lost, repeated nor altered, across reconnections ([NetHttp],
      [EgressProxy], [IdentityProxy], [PortForward]).
    - Functional behaviour of the parts: matching, reload, SNI extraction, alias
      resolution, DNS answers, the anomaly window, tokens, refresh rounds.
    - No panics, and exactly when the one that exists happens ([Dns]).
    - Divergences between the code and its intent, each as a lemma on a concrete
      input, next to the component.

    ** Bounds and fuel

    A loop that reads a stream takes a fuel argument; its caller gives the length
    of the stream plus one, every round consumes a byte, and running out would be a
    [Panic], which the totality lemmas exclude.  Machine integers are [Z] with
    their bounds and wrap-around written out ([u16] ports, [u64] lengths and
    expiries, the [u8] cast of a channel).  Writes that fail end a handler early, so
    that its effects are then a prefix of the modelled ones.

    ** Not modelled

    Task spawning, logging and metrics; TLS, SSH, HMAC, base64 and the parsers of
    libraries, JWT verification, zstd, [iptables], Kubernetes, OpenBao, LiteLLM,
    PostgreSQL, the S3 service and the hypervisor, which are arguments or classes with
    laws; the tools image-builder runs (git, crane, tar, mke2fs, envbuilder), which are
    arguments of its run; the restoration of a snapshot in memory ([Vm::restore], which
    nothing calls); the watch of the cluster beyond the order of its versions, which is
    kube-rs; of the command line, the parsing of its arguments (clap) and what k3s, kubectl
    and helm make of the installation of a server; the dashboard and the Python engine, which
    are other programs. *)

From Stdlib Require Export ZArith Lia ZifyBool ZifyNat.
From stdpp Require Export base gmap list option strings numbers sets.

#[global] Open Scope Z_scope.
#[global] Set Default Proof Using "Type".

(** ** Bytes and byte strings *)

(** A Rust [u8] is a [Z] in [0 .. 255]; a [&\[u8\]] or [Vec<u8>] is a list of
    them.  A Rust [str] or [String] is its UTF-8 byte sequence, which is also
    what [as_bytes] and [into_bytes] give. *)
Abbreviation bytes := (list Z).

Definition is_byte (b : Z) : Prop := 0 <= b < 256.

(** Literals: [B "GET"] is the byte string of an ASCII literal. *)
Fixpoint B (s : string) : bytes :=
  match s with
  | EmptyString => []
  | String a r => Z.of_N (Ascii.N_of_ascii a) :: B r
  end.

(** Byte-string equality as a boolean, Rust's [==] on [str] and slices. *)
Definition beq (a b : bytes) : bool := bool_decide (a = b).

(** ** Results *)

(** [res A] is the outcome of a fallible routine: a value, an error (Rust's
    [anyhow::Result] error, with the text of its message less the formatted
    arguments), or a panic of the task that runs it (a slice out of range, an
    arithmetic overflow). *)
Inductive res (A : Type) : Type :=
| Ok (a : A)
| Err (msg : string)
| Panic.
Arguments Ok {A} a.
Arguments Err {A} msg.
Arguments Panic {A}.

#[global] Instance res_ret : MRet res := fun A a => Ok a.
#[global] Instance res_bind : MBind res := fun A B f m =>
  match m with Ok a => f a | Err e => Err e | Panic => Panic end.
#[global] Instance res_fmap : FMap res := fun A B f m =>
  match m with Ok a => Ok (f a) | Err e => Err e | Panic => Panic end.

(** Rust's [ok_or] / [context] on an [Option]. *)
Definition ok_or {A} (o : option A) (msg : string) : res A :=
  match o with Some a => Ok a | None => Err msg end.

(** [m] did not panic. *)
Definition no_panic {A} (m : res A) : Prop := m <> Panic.

(** [Result::ok]. *)
Definition res_ok {A} (m : res A) : option A :=
  match m with Ok a => Some a | _ => None end.

Lemma no_panic_bind {A C} (m : res A) (f : A -> res C) :
  no_panic m -> (forall a, m = Ok a -> no_panic (f a)) -> no_panic (m ≫= f).
Proof. destruct m; cbn; auto; intros H1 H2; done. Qed.

(** ** Shared tactics and hints *)

Create HintDb atelier.
Create Rewrite HintDb atelier.

(** Splits every [match]/[if] of the goal whose scrutinee is not a variable
    under a binder, keeping the equation. *)
Ltac case_all :=
  repeat match goal with
         | |- context [match ?x with _ => _ end] => destruct x eqn:?
         end.

Ltac case_all_in H :=
  repeat match type of H with
         | context [match ?x with _ => _ end] => destruct x eqn:?
         end.

(** Turns boolean facts of the context and the goal into propositions. *)
Ltac bool_prop :=
  unfold beq in *;
  repeat match goal with
         | H : bool_decide _ = true |- _ => apply bool_decide_eq_true in H
         | H : bool_decide _ = false |- _ => apply bool_decide_eq_false in H
         | H : (_ && _)%bool = true |- _ => apply andb_true_iff in H as [? ?]
         | H : (_ || _)%bool = false |- _ => apply orb_false_iff in H as [? ?]
         | H : negb _ = true |- _ => apply negb_true_iff in H
         | H : negb _ = false |- _ => apply negb_false_iff in H
         end.

(** ** Generic lemmas *)

Lemma beq_true a b : beq a b = true <-> a = b.
Proof. apply bool_decide_eq_true. Qed.

Lemma beq_false a b : beq a b = false <-> a <> b.
Proof. apply bool_decide_eq_false. Qed.

Lemma beq_refl a : beq a a = true.
Proof. by apply beq_true. Qed.

#[export] Hint Resolve beq_refl : atelier.

(** [find] for lists, Rust's [Iterator::find]. *)
Fixpoint find_first {A} (p : A -> bool) (l : list A) : option A :=
  match l with
  | [] => None
  | x :: r => if p x then Some x else find_first p r
  end.

Lemma find_first_Some {A} (p : A -> bool) l x :
  find_first p l = Some x ->
  exists l1 l2, l = l1 ++ x :: l2 /\ p x = true /\ forall y, y ∈ l1 -> p y = false.
Proof.
  induction l as [|a l IH]; cbn; [done|]. destruct (p a) eqn:E.
  - intros [= ->]. exists [], l. set_solver.
  - intros (l1 & l2 & -> & Hp & Hall)%IH. exists (a :: l1), l2.
    split_and!; [done|done|]. intros y [->|?]%elem_of_cons; auto.
Qed.

Lemma find_first_None {A} (p : A -> bool) l :
  find_first p l = None <-> forall x, x ∈ l -> p x = false.
Proof.
  induction l as [|a l IH]; cbn.
  - split; [set_solver|done].
  - destruct (p a) eqn:E.
    + split; [done|]. intros H. rewrite H in E; [done|set_solver].
    + rewrite IH. split; intros H x; [intros [->|?]%elem_of_cons; auto|].
      intros ?. apply H. set_solver.
Qed.

Lemma existsb_spec {A} (p : A -> bool) l :
  existsb p l = true <-> exists x, x ∈ l /\ p x = true.
Proof.
  rewrite existsb_exists. split; intros (x & ? & ?); exists x;
    by rewrite ?list_elem_of_In in *.
Qed.

Lemma existsb_false {A} (p : A -> bool) l :
  existsb p l = false <-> forall x, x ∈ l -> p x = false.
Proof.
  rewrite <- not_true_iff_false, existsb_spec. split.
  - intros H x Hx. apply not_true_iff_false. intros Hp. apply H; eauto.
  - intros H (x & Hx & Hp). rewrite (H x Hx) in Hp. done.
Qed.

Lemma list_filter_all {A} (P : A -> Prop) `{!forall x, Decision (P x)} (l : list A) :
  (forall x, x ∈ l -> P x) -> filter P l = l.
Proof.
  induction l as [|x l IH]; intros Hl; [done|]. rewrite filter_cons, decide_True by set_solver.
  f_equal. apply IH. set_solver.
Qed.

Lemma Forall_list_filter {A} (P Q : A -> Prop) `{!forall x, Decision (Q x)} (l : list A) :
  Forall P l -> Forall P (filter Q l).
Proof. rewrite !Forall_forall. setoid_rewrite list_elem_of_filter. naive_solver. Qed.

(** ** Slices *)

(** [s\[i\]]: panics out of range. *)
Definition index {A} (s : list A) (i : nat) : res A :=
  match s !! i with Some x => Ok x | None => Panic end.

(** [s.get(a..b)]: [None] when [a > b] or [b > s.len()]. *)
Definition get_range {A} (s : list A) (a b : nat) : option (list A) :=
  if bool_decide (a <= b /\ b <= length s)%nat then Some (take (b - a) (drop a s)) else None.

(** [&s\[a..b\]]: panics out of range. *)
Definition slice {A} (s : list A) (a b : nat) : res (list A) :=
  match get_range s a b with Some r => Ok r | None => Panic end.

(** [u16::from_be_bytes] and [u16::to_be_bytes]. *)
Definition be16 (hi lo : Z) : Z := Z.lor (Z.shiftl hi 8) lo.
Definition to_be16 (n : Z) : bytes := [Z.shiftr n 8 mod 256; n mod 256].

Lemma index_lt {A} (s : list A) i : (i < length s)%nat -> exists x, index s i = Ok x.
Proof. intros H. unfold index. destruct (lookup_lt_is_Some_2 s i H) as [x ->]. eauto. Qed.

Lemma index_app_l {A} (s t : list A) i x : index s i = Ok x -> index (s ++ t) i = Ok x.
Proof.
  unfold index. destruct (s !! i) eqn:E; [|done]. by rewrite (lookup_app_l_Some _ _ _ _ E).
Qed.

Lemma get_range_Some {A} (s : list A) a b r :
  get_range s a b = Some r -> (a <= b <= length s)%nat /\ r = take (b - a) (drop a s).
Proof. unfold get_range. case_bool_decide; naive_solver. Qed.

Lemma get_range_length {A} (s : list A) a b r :
  get_range s a b = Some r -> length r = (b - a)%nat.
Proof. intros [? ->]%get_range_Some. rewrite length_take, length_drop. lia. Qed.

Lemma get_range_app_l {A} (s t : list A) a b r :
  get_range s a b = Some r -> get_range (s ++ t) a b = Some r.
Proof.
  intros [H ->]%get_range_Some. unfold get_range. rewrite length_app.
  rewrite bool_decide_eq_true_2 by lia. f_equal.
  rewrite drop_app_le by lia. rewrite take_app_le; [done|]. rewrite length_drop. lia.
Qed.

Lemma get_range_mid {A} (x y z : list A) :
  get_range (x ++ y ++ z) (length x) (length x + length y) = Some y.
Proof.
  unfold get_range. rewrite !length_app, bool_decide_eq_true_2 by lia.
  rewrite drop_app_length. f_equal.
  replace (length x + length y - length x)%nat with (length y) by lia.
  apply take_app_length.
Qed.

Lemma land_shiftl_byte hi lo : is_byte lo -> Z.land (Z.shiftl hi 8) lo = 0.
Proof.
  unfold is_byte. intros H. apply Z.bits_inj'. intros n Hn.
  rewrite Z.land_spec, Z.bits_0. destruct (Z.lt_ge_cases n 8) as [Hl|Hl].
  - by rewrite Z.shiftl_spec_low.
  - destruct (Z.eq_dec lo 0) as [->|]; [by rewrite Z.bits_0, andb_false_r|].
    rewrite (Z.bits_above_log2 lo n), andb_false_r; [done|lia|].
    apply Z.lt_le_trans with 8; [|done]. apply Z.log2_lt_pow2; lia.
Qed.

Lemma be16_eq hi lo : is_byte lo -> be16 hi lo = hi * 256 + lo.
Proof.
  intros H. pose proof (land_shiftl_byte hi lo H) as Hl. unfold be16.
  rewrite <- Z.lxor_lor, <- Z.add_nocarry_lxor by done.
  by rewrite Z.shiftl_mul_pow2 by lia.
Qed.

Lemma be16_to_be16 n :
  0 <= n < 65536 -> be16 (Z.shiftr n 8 mod 256) (n mod 256) = n.
Proof.
  intros H. rewrite be16_eq by (unfold is_byte; pose proof (Z.mod_pos_bound n 256); lia).
  rewrite Z.shiftr_div_pow2 by lia. change (2 ^ 8) with 256.
  rewrite (Z.mod_small (n / 256)); [pose proof (Z.div_mod n 256); lia|].
  split; [apply Z.div_pos; lia|apply Z.div_lt_upper_bound; lia].
Qed.

(** Accesses into a list given by its pieces. *)
Lemma index_at {A} (l x y : list A) (b : A) n :
  l = x ++ b :: y -> n = length x -> index l n = Ok b.
Proof. intros -> ->. unfold index. by rewrite list_lookup_middle. Qed.

Lemma get_range_at {A} (l x y z : list A) a b :
  l = x ++ y ++ z -> a = length x -> b = (a + length y)%nat -> get_range l a b = Some y.
Proof. intros -> -> ->. apply get_range_mid. Qed.

Lemma index_shift {A} (x y : list A) n : index (x ++ y) (length x + n) = index y n.
Proof. unfold index. by rewrite lookup_app_r, Nat.add_comm, Nat.add_sub by lia. Qed.

Lemma get_range_shift {A} (x y : list A) a b :
  get_range (x ++ y) (length x + a) (length x + b) = get_range y a b.
Proof.
  unfold get_range. rewrite length_app.
  rewrite (bool_decide_ext _ (a <= b /\ b <= length y)%nat) by lia.
  case_bool_decide; [|done]. rewrite drop_app_add. do 2 f_equal. lia.
Qed.

Lemma slice_at {A} (l x y z : list A) a b :
  l = x ++ y ++ z -> a = length x -> b = (a + length y)%nat -> slice l a b = Ok y.
Proof. intros. unfold slice. by erewrite get_range_at. Qed.

Lemma slice_app_l {A} (s t r : list A) a b : slice s a b = Ok r -> slice (s ++ t) a b = Ok r.
Proof.
  unfold slice. destruct (get_range s a b) eqn:E; [|done].
  by rewrite (get_range_app_l _ _ _ _ _ E).
Qed.
