(* ===== verification/RustStr.v ===== *)
(** * The Rust standard library's string routines, on UTF-8 byte strings

    What the crates use of [str], [String], [char] and the integer parsers:
    case folding, prefix and suffix tests, splitting, trimming (with Unicode's
    [White_Space] characters, as [str::trim] does), [lines],
    [split_whitespace], [parse::<uN>] and decimal printing.  A separator is
    always an ASCII character in these crates, so splitting on its byte is
    splitting on the character. *)

From S2P Require Import Prelude.

(** ** ASCII case *)

Definition is_ascii_upper (b : Z) : bool := (65 <=? b) && (b <=? 90).
Definition is_ascii_digit (b : Z) : bool := (48 <=? b) && (b <=? 57).

Definition lower_byte (b : Z) : Z := if is_ascii_upper b then b + 32 else b.

(** [str::to_ascii_lowercase]. *)
Definition to_ascii_lowercase (s : bytes) : bytes := lower_byte <$> s.

(** [str::eq_ignore_ascii_case]. *)
Definition eq_ignore_ascii_case (a b : bytes) : bool :=
  beq (to_ascii_lowercase a) (to_ascii_lowercase b).

(** ** Prefixes, suffixes, substrings *)

(** [str::strip_prefix]. *)
Fixpoint strip_prefix (p s : bytes) : option bytes :=
  match p, s with
  | [], _ => Some s
  | x :: p', y :: s' => if x =? y then strip_prefix p' s' else None
  | _ :: _, [] => None
  end.

Definition starts_with (s p : bytes) : bool := bool_decide (is_Some (strip_prefix p s)).
Definition ends_with (s q : bytes) : bool := starts_with (rev s) (rev q).

(** [str::contains] with a string pattern. *)
Fixpoint contains (s p : bytes) : bool :=
  starts_with s p || match s with [] => false | _ :: r => contains r p end.

(** [str::find] with an ASCII character: the byte index. *)
Fixpoint find_byte (c : Z) (s : bytes) : option nat :=
  match s with
  | [] => None
  | b :: r => if b =? c then Some O else S <$> find_byte c r
  end.

(** ** Splitting *)

(** [str::split_once]. *)
Fixpoint split_once (c : Z) (s : bytes) : option (bytes * bytes) :=
  match s with
  | [] => None
  | b :: r =>
      if b =? c then Some ([], r)
      else match split_once c r with
           | Some (x, y) => Some (b :: x, y)
           | None => None
           end
  end.

(** [str::rsplit_once]. *)
Definition rsplit_once (c : Z) (s : bytes) : option (bytes * bytes) :=
  match split_once c (rev s) with
  | Some (x, y) => Some (rev y, rev x)
  | None => None
  end.

(** [str::split] with a predicate on (ASCII) characters. *)
Fixpoint split_by (p : Z -> bool) (s : bytes) : list bytes :=
  match s with
  | [] => [[]]
  | b :: r =>
      if p b then [] :: split_by p r
      else match split_by p r with
           | h :: t => (b :: h) :: t
           | [] => [[b]]
           end
  end.
Definition split (c : Z) : bytes -> list bytes := split_by (Z.eqb c).

(** [str::splitn]. *)
Fixpoint splitn (n : nat) (c : Z) (s : bytes) : list bytes :=
  match n with
  | O => []
  | S O => [s]
  | S n' => match split_once c s with
            | Some (x, y) => x :: splitn n' c y
            | None => [s]
            end
  end.

(** [[T]::join]. *)
Fixpoint join (sep : bytes) (l : list bytes) : bytes :=
  match l with
  | [] => []
  | [x] => x
  | x :: r => x ++ sep ++ join sep r
  end.

(** ** White space *)

(** The UTF-8 encodings of Unicode's [White_Space] characters. *)
Definition white_space : list bytes :=
  [[9]; [10]; [11]; [12]; [13]; [32]; [194; 133]; [194; 160]; [225; 154; 128];
   [226; 128; 128]; [226; 128; 129]; [226; 128; 130]; [226; 128; 131];
   [226; 128; 132]; [226; 128; 133]; [226; 128; 134]; [226; 128; 135];
   [226; 128; 136]; [226; 128; 137]; [226; 128; 138]; [226; 128; 168];
   [226; 128; 169]; [226; 128; 175]; [226; 129; 159]; [227; 128; 128]].

(** What is left after one of [pats] at the head of [s]. *)
Fixpoint strip_any (pats : list bytes) (s : bytes) : option bytes :=
  match pats with
  | [] => None
  | p :: ps => match strip_prefix p s with
               | Some r => Some r
               | None => strip_any ps s
               end
  end.

(** Strips [pats] as long as one matches; every pattern is non-empty, so
    [length s] rounds are enough. *)
Fixpoint strip_all (fuel : nat) (pats : list bytes) (s : bytes) : bytes :=
  match fuel with
  | O => s
  | S f => match strip_any pats s with
           | Some r => strip_all f pats r
           | None => s
           end
  end.

Definition trim_start (s : bytes) : bytes := strip_all (length s) white_space s.
Definition trim_end (s : bytes) : bytes :=
  rev (strip_all (length s) ((fun p => rev p) <$> white_space) (rev s)).
(** [str::trim]. *)
Definition trim (s : bytes) : bytes := trim_end (trim_start s).

(** [trim_start_matches] / [trim_end_matches] with a set of ASCII characters. *)
Fixpoint drop_while (p : Z -> bool) (s : bytes) : bytes :=
  match s with
  | [] => []
  | b :: r => if p b then drop_while p r else s
  end.
Definition trim_end_matches (p : Z -> bool) (s : bytes) : bytes :=
  rev (drop_while p (rev s)).

Definition is_empty (s : bytes) : bool := match s with [] => true | _ => false end.

(** ** Lines *)

(** [str::lines]: lines end with [\n] or [\r\n]; a last line with no [\n] keeps
    its [\r], and a final empty line is not a line. *)
Definition strip_cr (line : bytes) : bytes :=
  match rev line with
  | 13 :: r => rev r
  | _ => line
  end.
Fixpoint lines_of (ls : list bytes) : list bytes :=
  match ls with
  | [] => []
  | [x] => if is_empty x then [] else [x]
  | x :: r => strip_cr x :: lines_of r
  end.
Definition lines (s : bytes) : list bytes := lines_of (split 10 s).

(** [str::split_whitespace]. *)
Fixpoint words (fuel : nat) (cur s : bytes) : list bytes :=
  match fuel with
  | O => []
  | S f =>
      match strip_any white_space s with
      | Some r => if is_empty cur then words f [] r else rev cur :: words f [] r
      | None => match s with
                | [] => if is_empty cur then [] else [rev cur]
                | b :: r => words f (b :: cur) r
                end
      end
  end.
Definition split_whitespace (s : bytes) : list bytes := words (S (length s)) [] s.

(** ** Integers *)

Definition digit_val (radix b : Z) : option Z :=
  let d := if is_ascii_digit b then b - 48
           else if (97 <=? b) && (b <=? 122) then b - 87
           else if (65 <=? b) && (b <=? 90) then b - 55
           else radix in
  if d <? radix then Some d else None.

(** Digits read left to right; fails on a bad digit or above [max]. *)
Fixpoint digits (radix max acc : Z) (s : bytes) : option Z :=
  match s with
  | [] => Some acc
  | b :: r =>
      d ← digit_val radix b;
      let acc' := acc * radix + d in
      if acc' <=? max then digits radix max acc' r else None
  end.

(** [uN::from_str_radix] (and [str::parse] at radix 10): an optional [+], then
    at least one digit. *)
Definition from_str_radix (radix max : Z) (s : bytes) : option Z :=
  match s with
  | [] => None
  | 43 :: [] => None
  | 43 :: r => digits radix max 0 r
  | _ => digits radix max 0 s
  end.

Definition U8_MAX : Z := 255.
Definition U16_MAX : Z := 65535.
Definition U32_MAX : Z := 4294967295.
Definition U64_MAX : Z := 18446744073709551615.

Definition parse_u16 : bytes -> option Z := from_str_radix 10 U16_MAX.
Definition parse_u64 : bytes -> option Z := from_str_radix 10 U64_MAX.

(** [to_string] of an unsigned integer: decimal, no leading zero.  [fuel] is a
    bound on the number of digits; 20 is enough for a [u64]. *)
Fixpoint dec_digits (fuel : nat) (n : Z) : bytes :=
  match fuel with
  | O => []
  | S f => if n <? 10 then [48 + n] else dec_digits f (n / 10) ++ [48 + n mod 10]
  end.
Definition dec (n : Z) : bytes := dec_digits 20 n.

#[global] Arguments to_ascii_lowercase : simpl never.
#[global] Arguments eq_ignore_ascii_case : simpl never.
#[global] Arguments trim : simpl never.
#[global] Arguments from_str_radix : simpl never.
#[global] Arguments dec : simpl never.
#[global] Arguments splitn : simpl never.
#[global] Arguments trim_end : simpl never.
#[global] Arguments trim_end_matches : simpl never.
#[global] Arguments is_empty : simpl nomatch.

(** ** Lemmas: case folding *)

Lemma lower_byte_idem b : lower_byte (lower_byte b) = lower_byte b.
Proof. unfold lower_byte, is_ascii_upper. repeat case_match; lia. Qed.

Lemma to_ascii_lowercase_idem s :
  to_ascii_lowercase (to_ascii_lowercase s) = to_ascii_lowercase s.
Proof.
  unfold to_ascii_lowercase. rewrite <- list_fmap_compose.
  apply list_fmap_ext. intros ? x ?. apply lower_byte_idem.
Qed.

Lemma to_ascii_lowercase_cons b s :
  to_ascii_lowercase (b :: s) = lower_byte b :: to_ascii_lowercase s.
Proof. done. Qed.

Lemma to_ascii_lowercase_app a b :
  to_ascii_lowercase (a ++ b) = to_ascii_lowercase a ++ to_ascii_lowercase b.
Proof. apply fmap_app. Qed.

Lemma eq_ignore_refl a : eq_ignore_ascii_case a a = true.
Proof. apply beq_refl. Qed.

Lemma eq_ignore_sym a b : eq_ignore_ascii_case a b = eq_ignore_ascii_case b a.
Proof. apply bool_decide_ext. naive_solver. Qed.

Lemma eq_ignore_true a b :
  eq_ignore_ascii_case a b = true <-> to_ascii_lowercase a = to_ascii_lowercase b.
Proof. apply beq_true. Qed.

Lemma eq_ignore_lower_l a b :
  eq_ignore_ascii_case (to_ascii_lowercase a) b = eq_ignore_ascii_case a b.
Proof. unfold eq_ignore_ascii_case. by rewrite to_ascii_lowercase_idem. Qed.

#[export] Hint Resolve eq_ignore_refl : atelier.
#[export] Hint Rewrite to_ascii_lowercase_idem to_ascii_lowercase_app
  eq_ignore_lower_l : atelier.

(** ** Lemmas: prefixes and suffixes *)

Lemma strip_prefix_Some p s r : strip_prefix p s = Some r <-> s = p ++ r.
Proof.
  revert s; induction p as [|x p IH]; intros s; cbn.
  - naive_solver.
  - destruct s as [|y s]; [naive_solver|]. destruct (x =? y) eqn:E.
    + apply Z.eqb_eq in E as ->. rewrite IH. naive_solver.
    + apply Z.eqb_neq in E. naive_solver.
Qed.

Lemma strip_prefix_app p r : strip_prefix p (p ++ r) = Some r.
Proof. by apply strip_prefix_Some. Qed.

Lemma starts_with_true s p : starts_with s p = true <-> exists r, s = p ++ r.
Proof.
  unfold starts_with. rewrite bool_decide_eq_true. split.
  - intros [r H]. exists r. by apply strip_prefix_Some.
  - intros [r ->]. exists r. apply strip_prefix_app.
Qed.

Lemma ends_with_true s q : ends_with s q = true <-> exists p, s = p ++ q.
Proof.
  unfold ends_with. rewrite starts_with_true. split.
  - intros [r H]. exists (rev r). apply (f_equal (@rev Z)) in H.
    by rewrite rev_involutive, rev_app_distr, rev_involutive in H.
  - intros [p ->]. exists (rev p). apply rev_app_distr.
Qed.

Lemma strip_prefix_length p s r :
  strip_prefix p s = Some r -> length s = (length p + length r)%nat.
Proof. intros ->%strip_prefix_Some. apply length_app. Qed.

Lemma trim_end_matches_id p s : (forall b, last s = Some b -> p b = false) -> trim_end_matches p s = s.
Proof.
  intros H. unfold trim_end_matches. destruct (rev s) as [|b r] eqn:E.
  - cbn. apply (f_equal (@rev Z)) in E. rewrite rev_involutive in E. by subst.
  - cbn. assert (Hs : s = rev r ++ [b]) by (apply (f_equal (@rev Z)) in E; rewrite rev_involutive in E; exact E).
    rewrite H by (rewrite Hs; apply last_snoc). by rewrite <- E, rev_involutive.
Qed.
Lemma trim_end_matches_app p s t : Forall (fun b => p b = true) t -> trim_end_matches p (s ++ t) = trim_end_matches p s.
Proof.
  intros H. unfold trim_end_matches. f_equal. rewrite rev_app_distr. assert (H' : Forall (fun b => p b = true) (rev t)) by (by apply Stdlib.Lists.List.Forall_rev).
  induction H' as [|b r Hb _ IH]; [done|]. cbn. by rewrite Hb.
Qed.

(** ** Lemmas: splitting *)

Lemma split_once_app c x y : c ∉ x -> split_once c (x ++ c :: y) = Some (x, y).
Proof.
  induction x as [|b x IH]; cbn; intros H; [by rewrite Z.eqb_refl|].
  rewrite (proj2 (Z.eqb_neq b c)) by set_solver. rewrite IH; [done|set_solver].
Qed.

Lemma split_once_Some c s x y :
  split_once c s = Some (x, y) <-> s = x ++ c :: y /\ c ∉ x.
Proof.
  split; [|intros [-> ?]; by apply split_once_app].
  revert x; induction s as [|b s IH]; intros x; cbn; [done|].
  destruct (b =? c) eqn:E.
  - apply Z.eqb_eq in E as ->. intros [= <- <-]. set_solver.
  - apply Z.eqb_neq in E. destruct (split_once c s) as [[x' y']|]; [|done].
    intros [= <- <-]. destruct (IH x' eq_refl) as [-> ?]. set_solver.
Qed.

Lemma split_once_None c s : split_once c s = None <-> c ∉ s.
Proof.
  induction s as [|b s IH]; cbn; [set_solver|].
  destruct (b =? c) eqn:E; [apply Z.eqb_eq in E; set_solver|].
  apply Z.eqb_neq in E.
  destruct (split_once c s) as [[??]|]; [|set_solver].
  split; [done|]. intros H. exfalso. destruct IH as [_ IH].
  discriminate IH. set_solver.
Qed.

Lemma rsplit_once_Some c s x y :
  rsplit_once c s = Some (x, y) <-> s = x ++ c :: y /\ c ∉ y.
Proof.
  unfold rsplit_once. split.
  - destruct (split_once c (rev s)) as [[a b]|] eqn:E; [|done].
    intros [= <- <-]. apply split_once_Some in E as [E Hn].
    apply (f_equal (@rev Z)) in E. rewrite rev_involutive, rev_app_distr in E.
    cbn in E. rewrite <- app_assoc in E. split; [done|].
    by rewrite list_elem_of_In, <- in_rev, <- list_elem_of_In.
  - intros [-> Hn]. rewrite rev_app_distr. cbn. rewrite <- app_assoc. cbn.
    rewrite split_once_app; [by rewrite !rev_involutive|].
    by rewrite list_elem_of_In, <- in_rev, <- list_elem_of_In.
Qed.

Lemma rsplit_once_None c s : rsplit_once c s = None <-> c ∉ s.
Proof.
  unfold rsplit_once. destruct (split_once c (rev s)) as [[a b]|] eqn:E.
  - apply split_once_Some in E as [E _]. split; [done|]. intros H. exfalso.
    apply H. rewrite list_elem_of_In, in_rev, E. apply in_elt.
  - apply split_once_None in E. split; [|done]. intros _.
    by rewrite list_elem_of_In, in_rev, <- list_elem_of_In.
Qed.

Lemma split_by_nonempty p s : split_by p s <> [].
Proof. destruct s; cbn; repeat case_match; done. Qed.

Lemma split_by_none p s : (forall b, b ∈ s -> p b = false) -> split_by p s = [s].
Proof.
  induction s as [|b s IH]; intros H; cbn; [done|].
  rewrite H by set_solver. rewrite IH; [done|]. set_solver.
Qed.

Lemma split_by_sep p a c s :
  (forall b, b ∈ a -> p b = false) -> p c = true ->
  split_by p (a ++ c :: s) = a :: split_by p s.
Proof.
  induction a as [|b a IH]; intros H Hc; cbn; [by rewrite Hc|].
  rewrite H by set_solver. rewrite IH; [done| |done]. set_solver.
Qed.

(** The pieces [split] gives hold no separator, and joining them gives the
    string back. *)
Lemma split_pieces c s x : x ∈ split c s -> c ∉ x.
Proof.
  unfold split. revert x; induction s as [|b s IH]; cbn; intros x.
  - intros ->%list_elem_of_singleton. set_solver.
  - destruct (c =? b) eqn:E.
    + intros [->|?]%elem_of_cons; [set_solver|auto].
    + apply Z.eqb_neq in E. destruct (split_by _ s) as [|h t].
      * intros ->%list_elem_of_singleton. set_solver.
      * intros [->|?]%elem_of_cons; [|set_solver].
        assert (c ∉ h) by (apply IH; set_solver). set_solver.
Qed.

Lemma join_split c s : join [c] (split c s) = s.
Proof.
  unfold split. induction s as [|b s IH]; cbn; [done|].
  pose proof (split_by_nonempty (Z.eqb c) s) as Hn.
  destruct (c =? b) eqn:E.
  - apply Z.eqb_eq in E as ->. cbn. destruct (split_by _ s); [done|].
    by rewrite IH.
  - destruct (split_by _ s) as [|h [|h' t]]; cbn in *; congruence.
Qed.

Lemma split_join c l :
  l <> [] -> (forall x, x ∈ l -> c ∉ x) -> split c (join [c] l) = l.
Proof.
  unfold split. induction l as [|x [|y l] IH]; intros Hn H; [done| |].
  - cbn. apply split_by_none. intros b Hb. apply Z.eqb_neq. set_solver.
  - change (join [c] (x :: y :: l)) with (x ++ c :: join [c] (y :: l)).
    rewrite split_by_sep.
    + f_equal. apply IH; [done|]. set_solver.
    + intros b Hb. apply Z.eqb_neq. set_solver.
    + lia.
Qed.

Lemma split_app_sep c a b : split c (a ++ c :: b) = split c a ++ split c b.
Proof.
  unfold split. induction a as [|x a IH]; cbn [app split_by].
  - by rewrite Z.eqb_refl.
  - rewrite IH. destruct (c =? x); [done|]. pose proof (split_by_nonempty (Z.eqb c) a). by destruct (split_by (Z.eqb c) a).
Qed.

(** Lines before a newline. *)
Lemma lines_of_app l1 l2 : l2 <> [] -> lines_of (l1 ++ l2) = (strip_cr <$> l1) ++ lines_of l2.
Proof.
  intros H. induction l1 as [|x l1 IH]; [done|]. cbn [app lines_of fmap list_fmap].
  change (list_fmap _ _ strip_cr l1) with (strip_cr <$> l1). rewrite IH. destruct (l1 ++ l2) eqn:E; [|done].
  by apply app_eq_nil in E as [_ ->].
Qed.

Lemma lines_newline a b : lines (a ++ 10 :: b) = (strip_cr <$> split 10 a) ++ lines b.
Proof. unfold lines. rewrite split_app_sep. apply lines_of_app, split_by_nonempty. Qed.

Lemma lines_end a : lines (a ++ [10]) = strip_cr <$> split 10 a.
Proof. rewrite lines_newline. apply app_nil_r. Qed.

(** [strip_cr] drops at most a final carriage return. *)
Lemma strip_cr_snoc s c : strip_cr (s ++ [c]) = if c =? 13 then s else s ++ [c].
Proof.
  unfold strip_cr. rewrite rev_app_distr. cbn [rev app]. destruct (Z.eqb_spec c 13) as [->|H]; [by rewrite rev_involutive|].
  repeat (case_match; try done).
Qed.

Lemma strip_cr_prefix s : exists r, s = strip_cr s ++ r.
Proof.
  destruct s as [|c s _] using rev_ind; [by exists []|]. rewrite strip_cr_snoc.
  destruct (c =? 13); [by eexists|]. exists []. by rewrite app_nil_r.
Qed.

Lemma strip_cr_keeps a c r : c <> 13 -> exists r', strip_cr (a ++ c :: r) = a ++ c :: r'.
Proof.
  intros Hc. destruct r as [|x r _] using rev_ind.
  - exists []. rewrite strip_cr_snoc. by rewrite (proj2 (Z.eqb_neq c 13) Hc).
  - replace (a ++ c :: r ++ [x]) with ((a ++ c :: r) ++ [x]) by (by rewrite <- app_assoc). rewrite strip_cr_snoc.
    destruct (x =? 13); [by eexists|]. exists (r ++ [x]). by rewrite <- app_assoc.
Qed.

Lemma lines_of_pieces ls l : l ∈ lines_of ls -> exists x, x ∈ ls /\ (l = x \/ l = strip_cr x).
Proof.
  induction ls as [|x [|y ls] IH]; cbn [lines_of]; [set_solver| |].
  - destruct (is_empty x); [set_solver|]. intros ->%list_elem_of_singleton. exists x. split; [set_solver|by left].
  - intros [->|H]%elem_of_cons; [exists x; split; [set_solver|by right]|]. destruct (IH H) as (z & Hz & Hl). exists z. split; [set_solver|done].
Qed.

Lemma lines_no_newline s l : l ∈ lines s -> 10 ∉ l.
Proof.
  intros (x & Hx%split_pieces & [->| ->])%lines_of_pieces; [done|]. destruct (strip_cr_prefix x) as [r Hr]. rewrite Hr in Hx. set_solver.
Qed.

(** ** Lemmas: decimal integers *)

Lemma digits_app radix max acc a b :
  digits radix max acc (a ++ b) = (n ← digits radix max acc a; digits radix max n b).
Proof.
  revert acc; induction a as [|x a IH]; intros acc; cbn; [done|].
  destruct (digit_val radix x); cbn; [|done]. by case_match.
Qed.

Lemma digit_val_dec d : 0 <= d < 10 -> digit_val 10 (48 + d) = Some d.
Proof.
  intros. unfold digit_val, is_ascii_digit.
  rewrite (proj2 (Z.leb_le 48 _)), (proj2 (Z.leb_le _ 57)) by lia. cbn.
  rewrite (proj2 (Z.ltb_lt _ _)) by lia. f_equal; lia.
Qed.

Lemma digits_dec fuel max n :
  0 <= n <= max -> n < 10 ^ Z.of_nat fuel -> (0 < fuel)%nat ->
  digits 10 max 0 (dec_digits fuel n) = Some n.
Proof.
  revert n; induction fuel as [|f IH]; intros n Hn Hlt Hf; [lia|].
  cbn [dec_digits]. destruct (n <? 10) eqn:E.
  - apply Z.ltb_lt in E. cbn [digits]. rewrite digit_val_dec by lia. cbn.
    rewrite (proj2 (Z.leb_le _ _)) by lia. done.
  - apply Z.ltb_ge in E. rewrite Nat2Z.inj_succ, Z.pow_succ_r in Hlt by lia.
    assert (n = 10 * (n / 10) + n mod 10) by (apply Z.div_mod; lia).
    pose proof (Z.mod_pos_bound n 10). rewrite digits_app, IH.
    + cbn. rewrite digit_val_dec by lia. cbn.
      rewrite (proj2 (Z.leb_le _ _)) by lia. f_equal; lia.
    + split; [apply Z.div_pos; lia|]. etrans; [|apply Hn].
      apply Z.div_le_upper_bound; lia.
    + apply Z.div_lt_upper_bound; lia.
    + destruct f; [|lia]. cbn in Hlt. lia.
Qed.

Lemma dec_digits_all fuel n b :
  0 <= n -> b ∈ dec_digits fuel n -> 48 <= b <= 57.
Proof.
  revert n; induction fuel as [|f IH]; intros n Hn; cbn; [set_solver|].
  destruct (n <? 10) eqn:E.
  - apply Z.ltb_lt in E. intros ->%list_elem_of_singleton. lia.
  - intros [?|H]%elem_of_app.
    + eapply IH; [|done]. apply Z.div_pos; lia.
    + apply list_elem_of_singleton in H as ->.
      pose proof (Z.mod_pos_bound n 10). lia.
Qed.

Lemma dec_digits_nonempty fuel n : (0 < fuel)%nat -> dec_digits fuel n <> [].
Proof.
  destruct fuel; [lia|]. cbn. intros _. case_match; [done|].
  intros Hn. by apply app_eq_nil in Hn as [_ ?].
Qed.

(** Parsing a printed [u64] gives it back. *)
Lemma parse_dec max n :
  0 <= n <= max -> max <= U64_MAX -> from_str_radix 10 max (dec n) = Some n.
Proof.
  intros Hn Hm. assert (Hd : digits 10 max 0 (dec n) = Some n).
  { apply digits_dec; [done| |lia]. unfold U64_MAX in Hm. change (10 ^ Z.of_nat 20) with 100000000000000000000. lia. }
  pose proof (dec_digits_all 20 n) as Hall. fold (dec n) in Hall.
  pose proof (dec_digits_nonempty 20 n) as Hne. fold (dec n) in Hne.
  destruct (dec n) as [|b r]; [destruct Hne; [lia|done]|].
  assert (48 <= b <= 57) by (apply Hall; [lia|set_solver]).
  unfold from_str_radix. repeat case_match; simplify_eq; try lia; done.
Qed.

Lemma dec_no_sep n c : 0 <= n -> (c < 48 \/ 57 < c) -> c ∉ dec n.
Proof. intros Hn Hc Hin. apply dec_digits_all in Hin; [lia|done]. Qed.

Lemma digit_val_bound radix b d : digit_val radix b = Some d -> 0 <= d < radix.
Proof.
  unfold digit_val, is_ascii_digit. intros H.
  repeat case_match; simplify_eq; bool_prop; lia.
Qed.

Lemma digits_bound radix max acc s n :
  0 <= acc <= max -> digits radix max acc s = Some n -> 0 <= n <= max.
Proof.
  revert acc; induction s as [|b s IH]; intros acc Hacc; cbn; [by intros [= ->]|].
  destruct (digit_val radix b) as [d|] eqn:E; cbn; [|done].
  apply digit_val_bound in E. case_match eqn:E2; [|done]. apply IH. nia.
Qed.

Lemma from_str_radix_bound radix max s n :
  0 <= max -> from_str_radix radix max s = Some n -> 0 <= n <= max.
Proof.
  intros. unfold from_str_radix in *.
  repeat case_match; try done; (eapply digits_bound; [|done]); lia.
Qed.

(** ** Lemmas: trimming *)

Lemma strip_any_Some pats s r :
  strip_any pats s = Some r -> exists p, p ∈ pats /\ s = p ++ r.
Proof.
  induction pats as [|p pats IH]; cbn; [done|].
  destruct (strip_prefix p s) eqn:E.
  - intros [= ->]. apply strip_prefix_Some in E. exists p. set_solver.
  - intros (q & ? & ?)%IH. exists q. set_solver.
Qed.

Lemma strip_any_None pats s :
  strip_any pats s = None <-> forall p r, p ∈ pats -> s <> p ++ r.
Proof.
  induction pats as [|p pats IH]; cbn; [set_solver|].
  destruct (strip_prefix p s) as [r|] eqn:E.
  - split; [done|]. intros H. apply strip_prefix_Some in E. exfalso.
    apply (H p r); set_solver.
  - rewrite IH. split; [|set_solver].
    intros H q r [->|?]%elem_of_cons; [|by apply H].
    intros ->. by rewrite strip_prefix_app in E.
Qed.

(** With [length s] rounds, stripping goes on until no pattern is left. *)
Lemma strip_all_done fuel pats s :
  (length s <= fuel)%nat -> Forall (fun p => p <> []) pats ->
  strip_any pats (strip_all fuel pats s) = None.
Proof.
  intros Hf Hp. revert s Hf; induction fuel as [|f IH]; intros s Hf; cbn [strip_all].
  - destruct s; cbn in Hf; [|lia]. apply strip_any_None. intros p r Hin H.
    rewrite Forall_forall in Hp. specialize (Hp p Hin). by destruct p.
  - destruct (strip_any pats s) as [r|] eqn:E; [|done].
    apply strip_any_Some in E as (p & Hin & ->). apply IH.
    rewrite Forall_forall in Hp. specialize (Hp p Hin).
    rewrite length_app in Hf. destruct p; [done|]. cbn in Hf. lia.
Qed.

Lemma strip_all_none fuel pats s : strip_any pats s = None -> strip_all fuel pats s = s.
Proof. destruct fuel; cbn; [done|]. by intros ->. Qed.

Lemma strip_all_inv fuel pats s :
  exists l, Forall (fun p => p ∈ pats) l /\ s = concat l ++ strip_all fuel pats s.
Proof.
  revert s; induction fuel as [|f IH]; intros s; cbn; [by exists []|].
  destruct (strip_any pats s) as [r|] eqn:E; [|by exists []].
  apply strip_any_Some in E as (p & Hin & ->). destruct (IH r) as (l & Hl & Hr).
  exists (p :: l). split; [by constructor|]. cbn. rewrite <- app_assoc. congruence.
Qed.

Abbreviation rev_space := ((fun p : bytes => rev p) <$> white_space).

Lemma white_space_nonempty : Forall (fun p => p <> []) rev_space.
Proof. by repeat (constructor; [done|]). Qed.

(** [s] does not end with a white-space character. *)
Definition trimmed (s : bytes) : Prop := strip_any rev_space (rev s) = None.

Lemma trim_end_trimmed s : trimmed (trim_end s).
Proof.
  unfold trimmed, trim_end. rewrite rev_involutive. apply strip_all_done.
  - by rewrite length_rev.
  - apply white_space_nonempty.
Qed.

Lemma trim_end_id s : trimmed s -> trim_end s = s.
Proof. unfold trimmed, trim_end. intros. rewrite strip_all_none by done. apply rev_involutive. Qed.

Lemma trim_end_inv s :
  exists l, Forall (fun w => w ∈ white_space) l /\ s = trim_end s ++ concat l.
Proof.
  unfold trim_end. destruct (strip_all_inv (length s) rev_space (rev s)) as (l & Hl & Hs).
  exists (rev ((fun p => rev p) <$> l)). split.
  - apply Forall_rev, Forall_fmap. eapply Forall_impl; [done|]. intros p Hp.
    apply list_elem_of_fmap in Hp as (w & -> & Hw). unfold compose. by rewrite rev_involutive.
  - apply (f_equal (fun x => rev x)) in Hs. rewrite rev_involutive, rev_app_distr in Hs.
    rewrite Hs at 1. f_equal. clear. induction l as [|p l IH]; cbn; [done|].
    rewrite rev_app_distr, IH, concat_app. cbn. by rewrite app_nil_r.
Qed.

(** An ASCII white-space byte at the end is trimmed. *)
Lemma trim_end_snoc s c : [c] ∈ white_space -> c < 128 -> trim_end (s ++ [c]) = trim_end s.
Proof.
  intros Hc Hlt. unfold trim_end. rewrite rev_app_distr, length_app, Nat.add_comm. cbn [rev app].
  cbn [length Nat.add strip_all]. enough (strip_any rev_space (c :: rev s) = Some (rev s)) as -> by done.
  apply list_elem_of_In in Hc. vm_compute in Hc.
  repeat (destruct Hc as [Hc|Hc]; [first [discriminate Hc|injection Hc as <-; reflexivity]|]).
  done.
Qed.

Lemma trimmed_no_suffix s : trimmed s <-> forall p w, w ∈ white_space -> s <> p ++ w.
Proof.
  unfold trimmed. rewrite strip_any_None. split.
  - intros H p w Hw ->. apply (H (rev w) (rev p)); [|apply rev_app_distr].
    apply list_elem_of_fmap. eauto.
  - intros H q r (w & -> & Hw)%list_elem_of_fmap Heq.
    apply (H (rev r) w Hw). apply (f_equal (fun x => rev x)) in Heq.
    by rewrite rev_involutive, rev_app_distr, rev_involutive in Heq.
Qed.

Lemma white_space_space w : w ∈ white_space -> 32 ∈ w -> w = [32].
Proof.
  assert (H : Forall (fun w => 32 ∈ w -> w = [32]) white_space)
    by (apply (bool_decide_unpack _); by vm_compute).
  rewrite Forall_forall in H. apply H.
Qed.

(** Whether a string that ends in a space and a non-empty word is trimmed
    depends on the word only. *)
Lemma trimmed_last_word a b v :
  v <> [] -> trimmed (a ++ 32 :: v) -> trimmed (b ++ 32 :: v).
Proof.
  rewrite !trimmed_no_suffix. intros Hv Ha p w Hw Heq.
  change (b ++ 32 :: v) with (b ++ [32] ++ v) in Heq. rewrite app_assoc in Heq.
  apply app_eq_inv in Heq as [(k & Hk & ->)|(k & -> & ->)].
  - destruct (rev k) as [|c k'] eqn:Ek.
    + apply (f_equal (fun x => rev x)) in Ek. rewrite rev_involutive in Ek. cbn in Ek. subst k.
      by apply (Ha (a ++ [32]) v Hw); rewrite <- app_assoc.
    + apply (f_equal (fun x => rev x)) in Ek. rewrite rev_involutive in Ek. cbn in Ek. subst k.
      rewrite app_assoc in Hk. apply app_inj_tail in Hk as [_ <-].
      apply white_space_space in Hw; [|set_solver].
      apply (f_equal length) in Hw. rewrite !length_app in Hw. destruct v; cbn in Hw; [done|lia].
  - apply (Ha (a ++ 32 :: k) w Hw). by rewrite <- app_assoc.
Qed.

(** ** Words *)

(** No white-space character starts in [w]. *)
Definition spaceless (w : bytes) : Prop := forall p x q, w = p ++ x ++ q -> x ∉ white_space.
Definition spacelessb (w : bytes) : bool := forallb (fun x => negb (contains w x)) white_space.

Lemma contains_app p x q : contains (p ++ x ++ q) x = true.
Proof.
  assert (H : starts_with (x ++ q) x = true) by (apply starts_with_true; by eexists).
  induction p as [|b p IH]; cbn [app contains].
  - destruct (x ++ q); cbn [contains]; by rewrite H.
  - by rewrite IH, orb_true_r.
Qed.

Lemma spacelessb_spec w : spacelessb w = true -> spaceless w.
Proof.
  unfold spacelessb. rewrite forallb_forall. intros H p x q -> Hx.
  apply list_elem_of_In, H in Hx. by rewrite contains_app in Hx.
Qed.

Lemma spaceless_tail b w : spaceless (b :: w) -> spaceless w.
Proof. intros H p x q ->. by apply (H (b :: p) x q). Qed.

Lemma spaceless_app a b : spaceless (a ++ b) -> spaceless b.
Proof. intros H p x q ->. by apply (H (a ++ p) x q); rewrite <- app_assoc. Qed.

(** No white space starts inside a word that a space or the end follows. *)
Lemma strip_any_word b w rest :
  spaceless (b :: w) -> rest = [] \/ (exists r, rest = 32 :: r) -> strip_any white_space ((b :: w) ++ rest) = None.
Proof.
  intros Hw Hrest. apply strip_any_None. intros p r Hp Heq.
  apply app_eq_inv in Heq as [(k & Hk & ->)|(k & -> & Hk)]; [by apply (Hw [] p k)|].
  destruct k as [|c k].
  - rewrite app_nil_r in Hp. apply (Hw [] (b :: w) []); [by rewrite app_nil_r|done].
  - destruct Hrest as [->|[x ->]]; [done|]. injection Hk as <- _. apply white_space_space in Hp; [|set_solver].
    apply (f_equal length) in Hp. rewrite length_app in Hp. cbn in Hp. lia.
Qed.

Lemma words_mono f g cur s : (length s < f)%nat -> (length s < g)%nat -> words f cur s = words g cur s.
Proof.
  assert (Hne : Forall (fun p : bytes => p <> []) white_space) by (by repeat constructor). rewrite Forall_forall in Hne.
  revert g cur s. induction f as [|f IH]; intros [|g] cur s Hf Hg; try lia. cbn [words].
  destruct (strip_any white_space s) as [r|] eqn:E.
  - apply strip_any_Some in E as (p & Hp%Hne & ->). rewrite length_app in *. destruct p; [done|]. cbn [length] in *.
    by rewrite (IH g []) by lia.
  - destruct s as [|b s]; [done|]. cbn [length] in *. apply IH; lia.
Qed.

Lemma words_word f cur w rest : spaceless w -> rest = [] \/ (exists r, rest = 32 :: r) ->
  words (length w + f) cur (w ++ rest) = words f (rev w ++ cur) rest.
Proof.
  intros Hw Hrest. revert cur. induction w as [|b w IH]; intros cur; [done|].
  cbn [length Nat.add words]. rewrite strip_any_word by done. cbn [app].
  rewrite IH by (by eapply spaceless_tail). cbn [rev]. by rewrite <- app_assoc.
Qed.

Lemma split_whitespace_last w : spaceless w -> w <> [] -> split_whitespace w = [w].
Proof.
  intros Hw Hne. unfold split_whitespace. rewrite <- Nat.add_1_r. rewrite <- (app_nil_r w) at 2.
  rewrite words_word by (first [done|by left]). cbn. rewrite app_nil_r, rev_involutive.
  destruct (rev w) eqn:E; [|done]. apply (f_equal (fun x => rev x)) in E. by rewrite rev_involutive in E.
Qed.

Lemma split_whitespace_cons w r : spaceless w -> w <> [] -> split_whitespace (w ++ 32 :: r) = w :: split_whitespace r.
Proof.
  intros Hw Hne. unfold split_whitespace. rewrite length_app. cbn [length].
  replace (S (length w + S (length r)))%nat with (length w + S (S (length r)))%nat by lia.
  rewrite words_word by (first [done|right; by eexists]). rewrite app_nil_r.
  cbn [words]. change (strip_any white_space (32 :: r)) with (Some r).
  destruct (is_empty (rev w)) eqn:E; [|by rewrite rev_involutive].
  destruct (rev w) eqn:E'; [|done]. apply (f_equal (fun x => rev x)) in E'. by rewrite rev_involutive in E'.
Qed.

(** Words joined by spaces, then anything after a space. *)
Lemma split_whitespace_join ws r :
  Forall (fun w => spaceless w /\ w <> []) ws -> ws <> [] -> split_whitespace (join [32] ws ++ 32 :: r) = ws ++ split_whitespace r.
Proof.
  induction 1 as [|w ws [Hw Hne] Hws IH]; [done|]. intros _. destruct ws as [|w' ws].
  - cbn [join]. by rewrite split_whitespace_cons.
  - cbn [join]. rewrite <- !app_assoc. cbn [app]. rewrite split_whitespace_cons by done. f_equal. by apply IH.
Qed.
