(* ===== verification/Utf8.v ===== *)
(** * UTF-8 validation and lossy decoding

    Rust's [str::from_utf8] (used by [read_line] and by the SNI parser) and
    [String::from_utf8_lossy] (used by the DNS parser and [to_origin_form]),
    on the byte ranges of the Unicode standard's table of well-formed byte
    sequences. *)

From S2P Require Import Prelude RustStr.

Definition in_range (lo hi b : Z) : bool := (lo <=? b) && (b <=? hi).
Definition cont (b : Z) : bool := in_range 128 191 b.

(** The byte at [i], or 0 past the end, which continues no sequence. *)
Definition at_ (s : bytes) (i : nat) : Z := default 0 (s !! i).

(** One character at the head of a non-empty [s]: [(true, n)] when its first
    [n] bytes are a well-formed character, [(false, n)] when they are a maximal
    ill-formed prefix. *)
Definition utf8_char (s : bytes) : bool * nat :=
  let b0 := at_ s 0 in let b1 := at_ s 1 in
  let b2 := at_ s 2 in let b3 := at_ s 3 in
  if b0 <? 128 then (true, 1%nat)
  else if in_range 194 223 b0 then
    if cont b1 then (true, 2%nat) else (false, 1%nat)
  else if in_range 224 239 b0 then
    let ok1 := if b0 =? 224 then in_range 160 191 b1
               else if b0 =? 237 then in_range 128 159 b1 else cont b1 in
    if negb ok1 then (false, 1%nat)
    else if cont b2 then (true, 3%nat) else (false, 2%nat)
  else if in_range 240 244 b0 then
    let ok1 := if b0 =? 240 then in_range 144 191 b1
               else if b0 =? 244 then in_range 128 143 b1 else cont b1 in
    if negb ok1 then (false, 1%nat)
    else if negb (cont b2) then (false, 2%nat)
    else if cont b3 then (true, 4%nat) else (false, 3%nat)
  else (false, 1%nat).

(** Every step consumes at least one byte: [length s] rounds are enough. *)
Fixpoint utf8_valid_fuel (fuel : nat) (s : bytes) : bool :=
  match fuel, s with
  | _, [] => true
  | O, _ => false
  | S f, _ => let '(ok, n) := utf8_char s in ok && utf8_valid_fuel f (drop n s)
  end.
Definition utf8_valid (s : bytes) : bool := utf8_valid_fuel (length s) s.

(** [str::from_utf8]. *)
Definition from_utf8 (s : bytes) : option bytes :=
  if utf8_valid s then Some s else None.

(** U+FFFD. *)
Definition replacement : bytes := [239; 191; 189].

Fixpoint utf8_lossy_fuel (fuel : nat) (s : bytes) : bytes :=
  match fuel, s with
  | _, [] => []
  | O, _ => []
  | S f, _ => let '(ok, n) := utf8_char s in
              (if ok then take n s else replacement) ++ utf8_lossy_fuel f (drop n s)
  end.
(** [String::from_utf8_lossy]. *)
Definition from_utf8_lossy (s : bytes) : bytes := utf8_lossy_fuel (length s) s.

Lemma utf8_char_pos s : (1 <= (utf8_char s).2)%nat.
Proof. unfold utf8_char. repeat case_match; cbn; lia. Qed.

Lemma utf8_valid_lossy_fuel fuel s :
  utf8_valid_fuel fuel s = true -> utf8_lossy_fuel fuel s = s.
Proof.
  revert s; induction fuel as [|f IH]; intros [|b s]; cbn; try done.
  destruct (utf8_char _) as [[] n] eqn:E; [|done]. cbn.
  intros ?%IH. rewrite H. apply take_drop.
Qed.

(** Lossy decoding changes nothing of well-formed input. *)
Lemma from_utf8_lossy_valid s : utf8_valid s = true -> from_utf8_lossy s = s.
Proof. apply utf8_valid_lossy_fuel. Qed.

Definition is_ascii (s : bytes) : Prop := Forall (fun b => 0 <= b < 128) s.

Lemma utf8_char_ascii b s : 0 <= b < 128 -> utf8_char (b :: s) = (true, 1%nat).
Proof. intros H. unfold utf8_char, at_. cbn. by rewrite (proj2 (Z.ltb_lt b 128)) by lia. Qed.

Lemma utf8_valid_ascii s : is_ascii s -> utf8_valid s = true.
Proof.
  unfold utf8_valid. induction 1 as [|b s Hb Hs IH]; [done|].
  cbn [length utf8_valid_fuel]. rewrite utf8_char_ascii by done. cbn. by rewrite drop_0.
Qed.

#[export] Hint Resolve utf8_valid_ascii from_utf8_lossy_valid : atelier.

(** ** Where validation stops *)

(** [Utf8Error]: the length of the valid prefix ([valid_up_to]), and whether what follows
    is a character cut by the end of the input ([error_len] is [None]). *)
Definition incomplete_char (s : bytes) : bool :=
  let '(ok, n) := utf8_char s in negb ok && (n =? length s)%nat && in_range 194 244 (at_ s 0).

Fixpoint utf8_error_fuel (fuel : nat) (s : bytes) : option (nat * bool) :=
  match fuel, s with
  | _, [] => None
  | O, _ => None
  | S f, _ => let '(ok, n) := utf8_char s in
              if ok then prod_map (Nat.add n) id <$> utf8_error_fuel f (drop n s)
              else Some (O, incomplete_char s)
  end.
Definition utf8_error (s : bytes) : option (nat * bool) := utf8_error_fuel (length s) s.

Lemma utf8_char_length s n : s <> [] -> utf8_char s = (true, n) -> (n <= length s)%nat.
Proof.
  intros Hs. unfold utf8_char, at_.
  destruct s as [|b0 [|b1 [|b2 [|b3 s]]]]; [done|..]; cbn [lookup list_lookup default length];
    cbn; repeat case_match; intros; simplify_eq; lia.
Qed.

(** A character needs only its own bytes. *)
Lemma utf8_char_ext p q n :
  (forall i, (i < n)%nat -> at_ q i = at_ p i) -> utf8_char p = (true, n) -> utf8_char q = (true, n).
Proof.
  intros Hat H. pose proof (utf8_char_pos p) as Hpos. rewrite H in Hpos. cbn in Hpos. revert H. unfold utf8_char.
  rewrite (Hat O) by lia. destruct (at_ p 0 <? 128); [done|].
  destruct (in_range 194 223 (at_ p 0)).
  { destruct (cont (at_ p 1)) eqn:E; [|done]. intros [= <-]. rewrite (Hat 1%nat) by lia. by rewrite E. }
  destruct (in_range 224 239 (at_ p 0)).
  { destruct (negb _) eqn:E1; [done|]. destruct (cont (at_ p 2)) eqn:E2; [|done]. intros [= <-].
    rewrite (Hat 1%nat), (Hat 2%nat) by lia. by rewrite E1, E2. }
  destruct (in_range 240 244 (at_ p 0)); [|done].
  destruct (negb (if at_ p 0 =? 240 then _ else _)) eqn:E1; [done|]. destruct (negb (cont (at_ p 2))) eqn:E2; [done|].
  destruct (cont (at_ p 3)) eqn:E3; [|done]. intros [= <-].
  rewrite (Hat 1%nat), (Hat 2%nat), (Hat 3%nat) by lia. by rewrite E1, E2, E3.
Qed.

Lemma utf8_char_app s t n : s <> [] -> utf8_char s = (true, n) -> utf8_char (s ++ t) = (true, n).
Proof.
  intros Hs H. pose proof (utf8_char_length s n Hs H) as Hl. apply (utf8_char_ext s); [|done].
  intros i Hi. unfold at_. by rewrite lookup_app_l by lia.
Qed.

Lemma utf8_char_take s n j : utf8_char s = (true, n) -> (n <= j)%nat -> utf8_char (take j s) = (true, n).
Proof.
  intros H Hj. apply (utf8_char_ext s); [|done]. intros i Hi. unfold at_. by rewrite lookup_take_lt by lia.
Qed.

(** A non-empty prefix of a string that starts with a character holds that character, or
    is a cut character. *)
Lemma utf8_char_prefix p t n :
  p <> [] -> utf8_char (p ++ t) = (true, n) ->
  (utf8_char p = (true, n) /\ (n <= length p)%nat) \/ ((utf8_char p).1 = false /\ incomplete_char p = true).
Proof.
  intros Hp. unfold incomplete_char, utf8_char.
  assert (H0 : at_ (p ++ t) 0 = at_ p 0) by (destruct p; done). rewrite H0.
  assert (Hl1 : (1 <= length p)%nat) by (destruct p; cbn; [done|lia]).
  assert (Hat : forall i, (i < length p)%nat -> at_ (p ++ t) i = at_ p i).
  { intros i Hi. unfold at_. by rewrite lookup_app_l. }
  assert (Hout : forall i, (length p <= i)%nat -> at_ p i = 0).
  { intros i Hi. unfold at_. by rewrite lookup_ge_None_2. }
  destruct (at_ p 0 <? 128) eqn:Ea; [intros [= <-]; left; by split|].
  destruct (in_range 194 223 (at_ p 0)) eqn:Eb.
  { destruct (cont (at_ (p ++ t) 1)) eqn:E; [|done]. intros [= <-].
    destruct (decide (2 <= length p)%nat) as [Hl|Hl].
    - left. rewrite <- (Hat 1%nat) by lia. by rewrite E.
    - right. rewrite (Hout 1%nat) by lia. cbn. split; [done|].
      replace (length p) with 1%nat by lia. cbn. unfold in_range in *. lia. }
  destruct (in_range 224 239 (at_ p 0)) eqn:Ec.
  { destruct (negb _) eqn:E1; [done|]. destruct (cont (at_ (p ++ t) 2)) eqn:E2; [|done]. intros [= <-].
    destruct (decide (2 <= length p)%nat) as [Hl|Hl].
    - rewrite (Hat 1%nat) in E1 by lia. rewrite E1.
      destruct (decide (3 <= length p)%nat) as [Hl'|Hl'].
      + left. rewrite <- (Hat 2%nat) by lia. by rewrite E2.
      + right. rewrite (Hout 2%nat) by lia. cbn. split; [done|].
        replace (length p) with 2%nat by lia. cbn. unfold in_range in *. lia.
    - right. rewrite (Hout 1%nat) by lia.
      assert (E0 : negb (if at_ p 0 =? 224 then in_range 160 191 0 else if at_ p 0 =? 237 then in_range 128 159 0 else cont 0) = true)
        by (repeat case_match; done). rewrite E0. cbn. split; [done|].
      replace (length p) with 1%nat by lia. cbn. unfold in_range in *. lia. }
  destruct (in_range 240 244 (at_ p 0)) eqn:Ed; [|done].
  destruct (negb (if at_ p 0 =? 240 then _ else _)) eqn:E1; [done|]. destruct (negb (cont (at_ (p ++ t) 2))) eqn:E2; [done|].
  destruct (cont (at_ (p ++ t) 3)) eqn:E3; [|done]. intros [= <-].
  destruct (decide (2 <= length p)%nat) as [Hl|Hl].
  - rewrite (Hat 1%nat) in E1 by lia. rewrite E1.
    destruct (decide (3 <= length p)%nat) as [Hl'|Hl'].
    + rewrite (Hat 2%nat) in E2 by lia. rewrite E2.
      destruct (decide (4 <= length p)%nat) as [Hl''|Hl''].
      * left. rewrite <- (Hat 3%nat) by lia. by rewrite E3.
      * right. rewrite (Hout 3%nat) by lia. cbn. split; [done|].
        replace (length p) with 3%nat by lia. cbn. unfold in_range in *. lia.
    + right. rewrite (Hout 2%nat) by lia. cbn. split; [done|].
      replace (length p) with 2%nat by lia. cbn. unfold in_range in *. lia.
  - right. rewrite (Hout 1%nat) by lia.
    assert (E0 : negb (if at_ p 0 =? 240 then in_range 144 191 0 else if at_ p 0 =? 244 then in_range 128 143 0 else cont 0) = true)
      by (repeat case_match; done). rewrite E0. cbn. split; [done|].
    replace (length p) with 1%nat by lia. cbn. unfold in_range in *. lia.
Qed.

(** Validity, one character at a time. *)
Lemma utf8_valid_fuel_mono f f' s :
  (length s <= f)%nat -> (length s <= f')%nat -> utf8_valid_fuel f s = utf8_valid_fuel f' s.
Proof.
  revert f' s. induction f as [|f IH]; intros f' s H1 H2.
  - destruct s; [by destruct f'|cbn in *; lia].
  - destruct s as [|b s]; [by destruct f'|]. destruct f' as [|f']; [cbn in *; lia|]. cbn [utf8_valid_fuel].
    pose proof (utf8_char_pos (b :: s)) as Hp. destruct (utf8_char (b :: s)) as [ok n]. cbn in Hp. f_equal.
    apply IH; rewrite length_drop; cbn in *; lia.
Qed.

Lemma utf8_valid_step s :
  s <> [] -> utf8_valid s = (utf8_char s).1 && utf8_valid (drop (utf8_char s).2 s).
Proof.
  intros Hs. unfold utf8_valid. destruct s as [|b s]; [done|]. cbn [length utf8_valid_fuel].
  pose proof (utf8_char_pos (b :: s)) as Hp. destruct (utf8_char (b :: s)) as [ok n]. cbn in Hp. f_equal.
  apply utf8_valid_fuel_mono; rewrite length_drop; cbn; lia.
Qed.

Lemma utf8_valid_app a b : utf8_valid a = true -> utf8_valid (a ++ b) = utf8_valid b.
Proof.
  remember (length a) as n eqn:Hn. revert a Hn. induction n as [n IH] using lt_wf_ind. intros a -> Ha.
  destruct (decide (a = [])) as [->|Hne]; [done|]. rewrite utf8_valid_step in Ha by done.
  rewrite utf8_valid_step by (by destruct a). destruct (utf8_char a) as [ok k] eqn:E. cbn [fst snd] in Ha.
  apply andb_true_iff in Ha as [-> Ha]. pose proof (utf8_char_length a k Hne E).
  pose proof (utf8_char_pos a). rewrite E in *. cbn in *. rewrite (utf8_char_app a b k Hne E). cbn [fst snd andb].
  rewrite drop_app_le by done. apply (IH (length (drop k a))); [rewrite length_drop; lia|done|done].
Qed.

Lemma utf8_error_step s :
  s <> [] -> utf8_error s =
  let '(ok, n) := utf8_char s in
  if ok then prod_map (Nat.add n) id <$> utf8_error (drop n s) else Some (O, incomplete_char s).
Proof.
  intros Hs. assert (Hmono : forall f f' s, (length s <= f)%nat -> (length s <= f')%nat -> utf8_error_fuel f s = utf8_error_fuel f' s).
  { clear. intros f. induction f as [|f IH]; intros f' s H1 H2.
    - destruct s; [by destruct f'|cbn in *; lia].
    - destruct s as [|b s]; [by destruct f'|]. destruct f' as [|f']; [cbn in *; lia|]. cbn [utf8_error_fuel].
      pose proof (utf8_char_pos (b :: s)) as Hp. destruct (utf8_char (b :: s)) as [[] n]; [|done]. cbn in Hp. f_equal.
      apply IH; rewrite length_drop; cbn in *; lia. }
  unfold utf8_error. destruct s as [|b s]; [done|]. cbn [length utf8_error_fuel].
  pose proof (utf8_char_pos (b :: s)) as Hp. destruct (utf8_char (b :: s)) as [[] n]; [|done]. cbn in Hp. f_equal.
  apply Hmono; rewrite length_drop; cbn; lia.
Qed.

(** A prefix of a valid string is valid, or stops at a cut character after a valid
    prefix. *)
Lemma utf8_prefix_error p t :
  utf8_valid (p ++ t) = true ->
  match utf8_error p with
  | None => utf8_valid p = true
  | Some (k, cut) => cut = true /\ (k <= length p)%nat /\ utf8_valid (take k p) = true
  end.
Proof.
  remember (length p) as n eqn:Hn. revert p t Hn. induction n as [n IH] using lt_wf_ind. intros p t -> Hv.
  destruct (decide (p = [])) as [->|Hne]; [done|].
  assert (Hne' : p ++ t <> []) by (by destruct p). rewrite utf8_valid_step in Hv by done.
  destruct (utf8_char (p ++ t)) as [ok k] eqn:E. cbn [fst snd] in Hv. apply andb_true_iff in Hv as [-> Hv].
  rewrite utf8_error_step by done.
  destruct (utf8_char_prefix p t k Hne E) as [[E' Hk]|[E' Hinc]].
  - rewrite E'. pose proof (utf8_char_pos p) as Hpos. rewrite E' in Hpos. cbn in Hpos.
    rewrite drop_app_le in Hv by done.
    specialize (IH (length (drop k p)) ltac:(rewrite length_drop; lia) (drop k p) t eq_refl Hv).
    destruct (utf8_error (drop k p)) as [[k' cut]|]; cbn.
    + destruct IH as (-> & Hk' & Hv'). rewrite length_drop in Hk'. split_and!; [done|lia|].
      rewrite utf8_valid_step by (destruct p; [done|]; destruct k; [lia|]; done).
      rewrite (utf8_char_take p k (k + k') E') by lia. cbn [fst snd andb]. replace (drop k (take (k + k') p)) with (take k' (drop k p)); [done|].
      rewrite skipn_firstn_comm. do 2 f_equal; lia.
    + rewrite utf8_valid_step by done. rewrite E'. done.
  - destruct (utf8_char p) as [ok' n'] eqn:Ep. cbn in E'. subst ok'. split_and!; [done|lia|done].
Qed.
