(* ===== verification/Allowlist.v ===== *)
(** * The egress allowlist

    [crates/net-proxy/src/allowlist.rs]: matching a destination host against
    the entries of a Workshop's egress allowlist (exact name, [*.domain],
    [*]), reading the egress file, and the merge done when the file changes.
    Entries and hosts are byte strings. *)

From S2P Require Import Prelude RustStr.

(** [fn normalize]. *)
Definition normalize (host : bytes) : bytes :=
  to_ascii_lowercase (trim_end_matches (Z.eqb 46) (trim host)).

(** [fn matches_entry]; [host] is already normalised. *)
Definition matches_entry (host entry : bytes) : bool :=
  let entry := normalize entry in
  if is_empty entry then false
  else if beq entry (B "*") then true
  else match strip_prefix (B "*.") entry with
       | Some suffix => ends_with host (B "." ++ suffix)
       | None => beq host entry
       end.

(** [fn is_allowed]. *)
Definition is_allowed (host : bytes) (allowlist : list bytes) : bool :=
  let host := normalize host in
  existsb (matches_entry host) allowlist.

(** [fn parse_file]. *)
Definition parse_file (content : bytes) : list bytes :=
  filter (fun line => is_empty line = false) (trim <$> lines content).

Definition mem_ignore_case (l : list bytes) (e : bytes) : bool :=
  existsb (fun f => eq_ignore_ascii_case f e) l.

(** [fn merge_reload]: the body of its loop over [current], then the loop. *)
Definition merge_step (previous_file merged : list bytes) (entry : bytes) : list bytes :=
  let from_file := mem_ignore_case previous_file entry in
  let already := mem_ignore_case merged entry in
  if negb from_file && negb already then merged ++ [entry] else merged.

Definition merge_reload (current previous_file new_file : list bytes) : list bytes :=
  fold_left (merge_step previous_file) current new_file.

(** ** Specification of matching *)

(** What the comment at the head of the module promises for an entry [e], on
    normalised names. *)
Inductive entry_matches (h : bytes) : bytes -> Prop :=
| match_any : entry_matches h (B "*")
| match_sub p suffix :
    h = p ++ B "." ++ suffix -> entry_matches h (B "*." ++ suffix)
| match_exact :
    h <> [] -> strip_prefix (B "*.") h = None -> entry_matches h h.

Lemma entry_matches_inv h e :
  entry_matches h e ->
  e = B "*" \/
  (exists p suffix, e = B "*." ++ suffix /\ h = p ++ B "." ++ suffix) \/
  (e = h /\ h <> [] /\ strip_prefix (B "*.") h = None).
Proof. destruct 1; naive_solver. Qed.

Lemma matches_entry_spec h e :
  matches_entry h e = true <-> entry_matches h (normalize e).
Proof.
  unfold matches_entry. generalize (normalize e) as n; clear e; intros n.
  destruct n as [|b n]; cbn [is_empty].
  { split; [done|]. intros H%entry_matches_inv. naive_solver. }
  destruct (beq (b :: n) (B "*")) eqn:Es.
  { apply beq_true in Es as ->. split; [constructor|done]. }
  apply beq_false in Es.
  destruct (strip_prefix (B "*.") (b :: n)) as [suffix|] eqn:E.
  - apply strip_prefix_Some in E. rewrite ends_with_true. split.
    + intros [p ->]. rewrite E. by econstructor.
    + intros [H|[(p & s & H & ->)|(<- & _ & H)]]%entry_matches_inv; [done| |].
      * rewrite E in H. apply app_inv_head in H as ->. by exists p.
      * by rewrite E, strip_prefix_app in H.
  - rewrite beq_true. split.
    + intros ->. by constructor.
    + intros [H|[(p & s & H & ->)|(<- & _ & H)]]%entry_matches_inv; try done.
      by rewrite H, strip_prefix_app in E.
Qed.

Lemma is_allowed_true host l :
  is_allowed host l = true <->
  exists e, e ∈ l /\ entry_matches (normalize host) (normalize e).
Proof.
  unfold is_allowed. rewrite existsb_spec.
  setoid_rewrite matches_entry_spec. done.
Qed.

(** ** Matching ignores the case of hosts and entries *)

(** A pattern none of whose bytes is an ASCII letter. *)
Definition caseless (p : bytes) : Prop :=
  Forall (fun x => lower_byte x = x /\ ~ (97 <= x <= 122)) p.

Lemma caseless_eqb x y :
  lower_byte x = x -> ~ (97 <= x <= 122) -> (x =? lower_byte y) = (x =? y).
Proof.
  unfold lower_byte, is_ascii_upper. intros Hx Hn.
  destruct ((65 <=? y) && (y <=? 90))%bool eqn:E; [|done]. bool_prop.
  destruct (x =? y) eqn:E2; [|apply Z.eqb_neq in E2].
  - apply Z.eqb_eq in E2 as ->. case_match; bool_prop; lia.
  - apply Z.eqb_neq. case_match; bool_prop; lia.
Qed.

Lemma strip_prefix_lower p s :
  caseless p ->
  strip_prefix p (to_ascii_lowercase s) = to_ascii_lowercase <$> strip_prefix p s.
Proof.
  intros Hp. revert s; induction Hp as [|x p [Hx Hn] Hp IH]; intros s; [done|].
  destruct s as [|y s]; [done|]. rewrite to_ascii_lowercase_cons. cbn.
  rewrite caseless_eqb by done. by case_match.
Qed.

Lemma strip_any_lower pats s :
  Forall caseless pats ->
  strip_any pats (to_ascii_lowercase s) = to_ascii_lowercase <$> strip_any pats s.
Proof.
  induction 1 as [|p pats Hp Hps IH]; cbn; [done|].
  rewrite strip_prefix_lower by done. by destruct (strip_prefix p s).
Qed.

Lemma strip_all_lower fuel pats s :
  Forall caseless pats ->
  strip_all fuel pats (to_ascii_lowercase s) = to_ascii_lowercase (strip_all fuel pats s).
Proof.
  intros Hp. revert s; induction fuel as [|f IH]; intros s; cbn; [done|].
  rewrite strip_any_lower by done. destruct (strip_any pats s); cbn; auto.
Qed.

Lemma white_space_caseless : Forall caseless white_space.
Proof. unfold caseless. by apply (bool_decide_unpack (Forall (Forall _) _)); vm_compute. Qed.

Lemma caseless_rev p : caseless p -> caseless (rev p).
Proof. apply Forall_rev. Qed.

Lemma to_ascii_lowercase_rev s : to_ascii_lowercase (rev s) = rev (to_ascii_lowercase s).
Proof. apply map_rev. Qed.

Lemma length_lower s : length (to_ascii_lowercase s) = length s.
Proof. apply length_fmap. Qed.

Lemma trim_lower s : trim (to_ascii_lowercase s) = to_ascii_lowercase (trim s).
Proof.
  unfold trim, trim_end, trim_start.
  rewrite !length_lower, strip_all_lower by apply white_space_caseless.
  rewrite <- to_ascii_lowercase_rev, length_lower, strip_all_lower.
  - symmetry. apply to_ascii_lowercase_rev.
  - apply Forall_fmap. eapply Forall_impl; [apply white_space_caseless|].
    intros p Hp. by apply caseless_rev.
Qed.

Lemma drop_dots_lower s :
  drop_while (Z.eqb 46) (to_ascii_lowercase s) = to_ascii_lowercase (drop_while (Z.eqb 46) s).
Proof.
  induction s as [|b s IH]; [done|]. rewrite to_ascii_lowercase_cons. cbn [drop_while].
  rewrite caseless_eqb by (first [reflexivity | lia]).
  by destruct (46 =? b).
Qed.

Lemma normalize_lower s : normalize (to_ascii_lowercase s) = normalize s.
Proof.
  unfold normalize, trim_end_matches.
  rewrite trim_lower, <- to_ascii_lowercase_rev, drop_dots_lower,
    <- to_ascii_lowercase_rev. apply to_ascii_lowercase_idem.
Qed.

Lemma normalize_eq_ignore a b : eq_ignore_ascii_case a b = true -> normalize a = normalize b.
Proof.
  intros H%eq_ignore_true. by rewrite <- (normalize_lower a), H, normalize_lower.
Qed.

(** ** The merge *)

Lemma mem_ignore_case_true l e :
  mem_ignore_case l e = true <-> exists f, f ∈ l /\ eq_ignore_ascii_case f e = true.
Proof. apply existsb_spec. Qed.

Lemma mem_ignore_case_in l e : e ∈ l -> mem_ignore_case l e = true.
Proof. intros. apply mem_ignore_case_true. eauto with atelier. Qed.

Lemma mem_ignore_case_app l1 l2 e :
  mem_ignore_case (l1 ++ l2) e = mem_ignore_case l1 e || mem_ignore_case l2 e.
Proof. apply existsb_app. Qed.

Lemma mem_ignore_case_eq l e f :
  eq_ignore_ascii_case e f = true -> mem_ignore_case l e = mem_ignore_case l f.
Proof.
  intros H%eq_ignore_true. unfold mem_ignore_case, eq_ignore_ascii_case. by rewrite H.
Qed.

Lemma mem_ignore_case_single e x : mem_ignore_case [e] x = eq_ignore_ascii_case e x.
Proof. apply orb_false_r. Qed.

Lemma merge_step_mem prev merged e x :
  mem_ignore_case (merge_step prev merged e) x =
  mem_ignore_case merged x ||
  (eq_ignore_ascii_case e x && negb (mem_ignore_case prev x)).
Proof.
  unfold merge_step. destruct (eq_ignore_ascii_case e x) eqn:Ee.
  - rewrite !(mem_ignore_case_eq _ _ _ Ee).
    destruct (mem_ignore_case prev x), (mem_ignore_case merged x) eqn:Em;
      cbn [negb andb orb];
      by rewrite ?mem_ignore_case_app, ?Em, ?mem_ignore_case_single, ?Ee.
  - case_match; rewrite ?mem_ignore_case_app, ?mem_ignore_case_single, ?Ee;
      by rewrite ?orb_false_r.
Qed.

(** The names of the merged list, up to case: those of the new file, and those
    of the current list that were not in the previous file. *)
Lemma merge_reload_mem cur prev new x :
  mem_ignore_case (merge_reload cur prev new) x =
  mem_ignore_case new x || (mem_ignore_case cur x && negb (mem_ignore_case prev x)).
Proof.
  unfold merge_reload. revert new; induction cur as [|e cur IH]; intros new;
    cbn [fold_left].
  - by rewrite orb_false_r.
  - rewrite IH, merge_step_mem. change (e :: cur) with ([e] ++ cur).
    rewrite mem_ignore_case_app,
      mem_ignore_case_single.
    destruct (mem_ignore_case new x), (eq_ignore_ascii_case e x),
      (mem_ignore_case prev x), (mem_ignore_case cur x); done.
Qed.

Lemma is_allowed_mem host l l' :
  (forall x, mem_ignore_case l x = true -> mem_ignore_case l' x = true) ->
  is_allowed host l = true -> is_allowed host l' = true.
Proof.
  intros Hl (e & He & Hm)%is_allowed_true. apply is_allowed_true.
  apply mem_ignore_case_in, Hl, mem_ignore_case_true in He as (f & Hf & Heq).
  exists f. split; [done|]. by rewrite (normalize_eq_ignore _ _ Heq).
Qed.

(** ** Claims *)

(** [is_allowed] accepts a host exactly when some entry of the allowlist
    matches it in the sense the module documents: the entry is [*], or it is
    [*.d] and the host is a proper sub-domain of [d], or it is the host itself
    (names trimmed, without trailing dots and in lower case). *)
Theorem is_allowed_spec host l :
  is_allowed host l = true <->
  exists e, e ∈ l /\ entry_matches (normalize host) (normalize e).
Proof. apply is_allowed_true. Qed.

(** After a reload of the egress file, a host is allowed exactly when the
    new file allows it, or an entry of the list in memory that was not in the
    previous file (a hot addition) does; in particular what only an entry
    withdrawn from the file allowed is no longer allowed. *)
Theorem reload_allows host cur prev new :
  is_allowed host (merge_reload cur prev new) = true <->
  is_allowed host new = true \/
  exists e, e ∈ cur /\ mem_ignore_case prev e = false /\ is_allowed host [e] = true.
Proof.
  split.
  - intros (e & He & Hm)%is_allowed_true.
    apply mem_ignore_case_in in He. rewrite merge_reload_mem in He.
    apply orb_true_iff in He as [(f & Hf & Heq)%mem_ignore_case_true|[Hc Hp]%andb_true_iff].
    + left. apply is_allowed_true. exists f. by rewrite (normalize_eq_ignore _ _ Heq).
    + apply mem_ignore_case_true in Hc as (f & Hf & Heq). right. exists f.
      rewrite negb_true_iff, <- (mem_ignore_case_eq _ _ _ Heq) in Hp.
      split_and!; [done|done|]. apply is_allowed_true. exists f.
      rewrite (normalize_eq_ignore _ _ Heq). set_solver.
  - intros [H|(e & He & Hp & H)]; (eapply is_allowed_mem; [|done]); intros x Hx.
    + by rewrite merge_reload_mem, Hx.
    + rewrite mem_ignore_case_single in Hx. rewrite merge_reload_mem.
      rewrite <- !(mem_ignore_case_eq _ _ _ Hx), Hp, (mem_ignore_case_in cur e He).
      apply orb_true_r.
Qed.
