(* ===== verification/TlsSni.v ===== *)
(** * SNI extraction from a TLS ClientHello

    [crates/net-proxy/src/tls_sni.rs]: [parse_sni] reads the record header, the
    handshake header and the ClientHello body by position, walks the
    extensions to [server_name] and returns the first [host_name] of its list.
    Rust's [None] is [Err] here (with the reason), an out-of-range index is
    [Panic]; the loops' fuel also ends in [Panic], so that absence of panics
    covers termination too. *)

From S2P Require Import Prelude RustStr Utf8.

(** A [u16] read as [usize]. *)
Definition be16_nat (hi lo : Z) : nat := Z.to_nat (be16 hi lo).

(** [u32::from_be_bytes(\[0, a, b, c\]) as usize]. *)
Definition be24_nat (a b c : Z) : nat := Z.to_nat (be16 (be16 a b) c).

(** The [while] loop of [parse_server_name_extension], from position [pos]. *)
Fixpoint server_name_loop (fuel : nat) (l : bytes) (pos : nat) : res bytes :=
  match fuel with
  | O => Panic
  | S f =>
      if (pos + 3 <=? length l)%nat then
        name_type ← index l pos;
        n1 ← index l (pos + 1);
        n2 ← index l (pos + 2);
        let name_len := be16_nat n1 n2 in
        let pos := (pos + 3)%nat in
        name ← ok_or (get_range l pos (pos + name_len)) "nom tronque";
        let pos := (pos + name_len)%nat in
        if name_type =? 0 then ok_or (from_utf8 name) "nom non UTF-8"
        else server_name_loop f l pos
      else Err "aucun host_name"
  end.

(** [fn parse_server_name_extension]. *)
Definition parse_server_name_extension (data : bytes) : res bytes :=
  b0 ← ok_or (data !! 0%nat) "liste vide";
  b1 ← ok_or (data !! 1%nat) "liste vide";
  let list_len := be16_nat b0 b1 in
  l ← ok_or (get_range data 2 (2 + list_len)) "liste tronquee";
  server_name_loop (S (length l)) l 0.

(** The [while] loop of [parse_sni] over the extensions. *)
Fixpoint extensions_loop (fuel : nat) (extensions : bytes) (epos : nat) : res bytes :=
  match fuel with
  | O => Panic
  | S f =>
      if (epos + 4 <=? length extensions)%nat then
        t1 ← index extensions epos;
        t2 ← index extensions (epos + 1);
        let ext_type := be16 t1 t2 in
        l1 ← index extensions (epos + 2);
        l2 ← index extensions (epos + 3);
        let ext_len := be16_nat l1 l2 in
        let epos := (epos + 4)%nat in
        ext_data ← ok_or (get_range extensions epos (epos + ext_len)) "extension tronquee";
        if ext_type =? 0 then parse_server_name_extension ext_data
        else extensions_loop f extensions (epos + ext_len)
      else Err "pas d'extension server_name"
  end.

(** The part of [parse_sni] that reads the ClientHello body [hs]. *)
Definition parse_client_hello (hs : bytes) : res bytes :=
  let pos := 34%nat in
  if (length hs <? pos + 1)%nat then Err "tronque" else
  session_id_len ← index hs pos;
  let pos := (pos + (1 + Z.to_nat session_id_len))%nat in
  if (length hs <? pos + 2)%nat then Err "tronque" else
  c1 ← index hs pos;
  c2 ← index hs (pos + 1);
  let pos := (pos + (2 + be16_nat c1 c2))%nat in
  if (length hs <? pos + 1)%nat then Err "tronque" else
  compression_len ← index hs pos;
  let pos := (pos + (1 + Z.to_nat compression_len))%nat in
  if (length hs <? pos + 2)%nat then Err "pas d'extensions" else
  e1 ← index hs pos;
  e2 ← index hs (pos + 1);
  let extensions_len := be16_nat e1 e2 in
  let pos := (pos + 2)%nat in
  extensions ← ok_or (get_range hs pos (pos + extensions_len)) "extensions tronquees";
  extensions_loop (S (length extensions)) extensions 0.

(** [fn parse_sni]. *)
Definition parse_sni (buf : bytes) : res bytes :=
  if (length buf <? 5)%nat then Err "trop court" else
  b0 ← index buf 0;
  if negb (b0 =? 22) then Err "pas un Handshake" else
  r1 ← index buf 3;
  r2 ← index buf 4;
  let record_end := (5 + be16_nat r1 r2)%nat in
  if (length buf <? record_end)%nat then Err "enregistrement incomplet" else
  body ← slice buf 5 record_end;
  if (length body <? 4)%nat then Err "pas un ClientHello" else
  h0 ← index body 0;
  if negb (h0 =? 1) then Err "pas un ClientHello" else
  h1 ← index body 1;
  h2 ← index body 2;
  h3 ← index body 3;
  let hs_len := be24_nat h1 h2 h3 in
  if (length body <? 4 + hs_len)%nat then Err "handshake incomplet" else
  hs ← slice body 4 (4 + hs_len);
  parse_client_hello hs.

(** [fn is_incomplete]. *)
Definition is_incomplete (buf : bytes) : res bool :=
  if (length buf <? 5)%nat then Ok true else
  b0 ← index buf 0;
  if negb (b0 =? 22) then Ok false else
  r1 ← index buf 3;
  r2 ← index buf 4;
  Ok (length buf <? 5 + be16_nat r1 r2)%nat.

(** ** No panic *)

Lemma index_no_panic {A} (s : list A) i : (i < length s)%nat -> no_panic (index s i).
Proof. intros [x H]%index_lt. by rewrite H. Qed.

Lemma slice_no_panic {A} (s : list A) a b :
  (a <= b <= length s)%nat -> no_panic (slice s a b).
Proof. intros H. unfold slice, get_range. by rewrite bool_decide_eq_true_2. Qed.

Lemma slice_length {A} (s r : list A) a b : slice s a b = Ok r -> length r = (b - a)%nat.
Proof.
  unfold slice. destruct (get_range s a b) eqn:E; [|done].
  intros [= <-]. by eapply get_range_length.
Qed.

Lemma ok_or_no_panic {A} (o : option A) m : no_panic (ok_or o m).
Proof. by destruct o. Qed.

(** Steps through a routine written with [index], [slice], [ok_or] and tests on
    lengths, discharging each access by the tests passed so far. *)
Ltac no_panic_step :=
  match goal with
  | |- no_panic (if ?c then _ else _) => destruct c eqn:?
  | |- no_panic (Err _) => done
  | |- no_panic (Ok _) => done
  | |- no_panic (ok_or _ _) => apply ok_or_no_panic
  | |- no_panic (index _ _) => apply index_no_panic; lia
  | |- no_panic (slice _ _ _) => apply slice_no_panic; lia
  | |- no_panic (mbind _ _) =>
      apply no_panic_bind; [|let H := fresh in intros ? H; try apply slice_length in H]
  end.

Lemma server_name_loop_no_panic fuel l pos :
  (0 < fuel)%nat -> (length l < fuel + pos)%nat -> no_panic (server_name_loop fuel l pos).
Proof.
  revert pos; induction fuel as [|f IH]; intros pos H0 Hf; cbn [server_name_loop]; [lia|].
  repeat no_panic_step. apply IH; lia.
Qed.

Lemma parse_server_name_extension_no_panic data :
  no_panic (parse_server_name_extension data).
Proof.
  unfold parse_server_name_extension. repeat no_panic_step.
  apply server_name_loop_no_panic; lia.
Qed.

Lemma extensions_loop_no_panic fuel l pos :
  (0 < fuel)%nat -> (length l < fuel + pos)%nat -> no_panic (extensions_loop fuel l pos).
Proof.
  revert pos; induction fuel as [|f IH]; intros pos H0 Hf; cbn [extensions_loop]; [lia|].
  repeat no_panic_step; [apply parse_server_name_extension_no_panic|apply IH; lia].
Qed.

Lemma parse_client_hello_no_panic hs : no_panic (parse_client_hello hs).
Proof.
  unfold parse_client_hello. repeat no_panic_step. apply extensions_loop_no_panic; lia.
Qed.

Lemma parse_sni_total buf : no_panic (parse_sni buf).
Proof. unfold parse_sni. repeat no_panic_step. apply parse_client_hello_no_panic. Qed.

Lemma is_incomplete_total buf : exists b, is_incomplete buf = Ok b.
Proof.
  unfold is_incomplete. destruct (length buf <? 5)%nat eqn:E; [eauto|].
  destruct (index_lt buf 0) as [b0 ->]; [lia|]. cbn. case_match; [eauto|].
  destruct (index_lt buf 3) as [r1 ->]; [lia|].
  destruct (index_lt buf 4) as [r2 ->]; [lia|]. cbn. eauto.
Qed.

(** ** Growing buffers *)

Lemma parse_sni_app buf rest s : parse_sni buf = Ok s -> parse_sni (buf ++ rest) = Ok s.
Proof.
  unfold parse_sni. destruct (length buf <? 5)%nat eqn:E; [done|].
  rewrite (proj2 (Nat.ltb_ge (length (buf ++ rest)) 5)) by (rewrite length_app; lia).
  destruct (index buf 0) as [b0| |] eqn:E0; cbn [mbind res_bind]; try done.
  rewrite (index_app_l _ rest _ _ E0). cbn [mbind res_bind]. destruct (negb _); [done|].
  destruct (index buf 3) as [b3| |] eqn:E3; cbn [mbind res_bind]; try done.
  rewrite (index_app_l _ rest _ _ E3). cbn [mbind res_bind].
  destruct (index buf 4) as [b4| |] eqn:E4; cbn [mbind res_bind]; try done.
  rewrite (index_app_l _ rest _ _ E4). cbn [mbind res_bind].
  destruct (length buf <? 5 + _)%nat eqn:E5; [done|].
  rewrite (proj2 (Nat.ltb_ge (length (buf ++ rest)) _)) by (rewrite length_app; lia).
  destruct (slice buf 5 _) as [body| |] eqn:E6; cbn [mbind res_bind]; try done.
  by rewrite (slice_app_l _ rest _ _ _ E6).
Qed.

Lemma parse_sni_complete buf s : parse_sni buf = Ok s -> is_incomplete buf = Ok false.
Proof.
  unfold parse_sni, is_incomplete. destruct (length buf <? 5)%nat; [done|].
  destruct (index buf 0) as [b0| |]; cbn [mbind res_bind]; try done. destruct (negb _); [done|].
  destruct (index buf 3) as [b3| |]; cbn [mbind res_bind]; try done.
  destruct (index buf 4) as [b4| |]; cbn [mbind res_bind]; try done.
  by destruct (length buf <? 5 + _)%nat.
Qed.

(** ** The wire format *)

(** A ClientHello as RFC 8446 lays it out, with its extensions as (type, data)
    pairs; [encode_record] is the TLS record that carries it. *)
Record client_hello := ClientHello {
  ch_version : bytes;
  ch_random : bytes;
  ch_session_id : bytes;
  ch_cipher_suites : bytes;
  ch_compression : bytes;
  ch_extensions : list (Z * bytes) }.

Definition len16 (l : bytes) : bytes := to_be16 (Z.of_nat (length l)).

Definition encode_extension (e : Z * bytes) : bytes := to_be16 e.1 ++ len16 e.2 ++ e.2.
Definition encode_extensions (es : list (Z * bytes)) : bytes :=
  concat (encode_extension <$> es).

Definition encode_hello (ch : client_hello) : bytes :=
  ch_version ch ++ ch_random ch ++
  [Z.of_nat (length (ch_session_id ch))] ++ ch_session_id ch ++
  len16 (ch_cipher_suites ch) ++ ch_cipher_suites ch ++
  [Z.of_nat (length (ch_compression ch))] ++ ch_compression ch ++
  len16 (encode_extensions (ch_extensions ch)) ++ encode_extensions (ch_extensions ch).

Definition to_be24 (n : Z) : bytes := [Z.shiftr n 16 mod 256; Z.shiftr n 8 mod 256; n mod 256].

Definition encode_handshake (ch : client_hello) : bytes :=
  [1] ++ to_be24 (Z.of_nat (length (encode_hello ch))) ++ encode_hello ch.

Definition encode_record (ch : client_hello) : bytes :=
  [22; 3; 1] ++ len16 (encode_handshake ch) ++ encode_handshake ch.

(** The data of a [server_name] extension that names one host. *)
Definition server_name_data (sni : bytes) : bytes :=
  let entry := [0] ++ len16 sni ++ sni in len16 entry ++ entry.

Definition wf_extension (e : Z * bytes) : Prop :=
  0 <= e.1 < 65536 /\ Z.of_nat (length e.2) < 65536.

(** Lengths fit their fields. *)
Record wf_hello (ch : client_hello) : Prop := {
  wf_version : length (ch_version ch) = 2%nat;
  wf_random : length (ch_random ch) = 32%nat;
  wf_session_id : Z.of_nat (length (ch_session_id ch)) < 256;
  wf_ciphers : Z.of_nat (length (ch_cipher_suites ch)) < 65536;
  wf_compression : Z.of_nat (length (ch_compression ch)) < 256;
  wf_extensions : Forall wf_extension (ch_extensions ch);
  wf_record : Z.of_nat (length (encode_handshake ch)) < 65536 }.

Lemma be16_nat_len n : Z.of_nat n < 65536 ->
  be16_nat (Z.shiftr (Z.of_nat n) 8 mod 256) (Z.of_nat n mod 256) = n.
Proof. intros. unfold be16_nat. rewrite be16_to_be16 by lia. lia. Qed.

Lemma be24_nat_len n : Z.of_nat n < 65536 ->
  be24_nat (Z.shiftr (Z.of_nat n) 16 mod 256) (Z.shiftr (Z.of_nat n) 8 mod 256)
    (Z.of_nat n mod 256) = n.
Proof.
  intros. unfold be24_nat. rewrite (Z.shiftr_div_pow2 _ 16) by lia.
  rewrite (Z.div_small _ (2 ^ 16)) by lia. unfold be16 at 2. rewrite Z.mod_0_l by lia.
  rewrite Z.shiftl_0_l, Z.lor_0_l. fold (be16_nat (Z.shiftr (Z.of_nat n) 8 mod 256) (Z.of_nat n mod 256)).
  by apply be16_nat_len.
Qed.

Lemma server_name_data_parse sni :
  Z.of_nat (length sni) + 3 < 65536 -> utf8_valid sni = true ->
  parse_server_name_extension (server_name_data sni) = Ok sni.
Proof.
  intros Hl Hu. unfold parse_server_name_extension, server_name_data, len16.
  set (entry := [0] ++ to_be16 (Z.of_nat (length sni)) ++ sni).
  assert (He : length entry = (length sni + 3)%nat) by (cbn; lia).
  cbn [to_be16 app lookup list_lookup ok_or mbind res_bind].
  rewrite be16_nat_len by lia.
  rewrite (get_range_at _ (to_be16 (Z.of_nat (length entry))) entry [])
    by (cbn [length to_be16]; rewrite ?app_nil_r; done || lia).
  cbn [ok_or mbind res_bind server_name_loop].
  rewrite (proj2 (Nat.leb_le _ _)) by lia. subst entry.
  cbn [to_be16 app index lookup list_lookup mbind res_bind Nat.add].
  rewrite be16_nat_len by lia.
  rewrite (get_range_at _ (0 :: to_be16 (Z.of_nat (length sni))) sni []) by
    (cbn [length to_be16 app]; rewrite ?app_nil_r; done || lia).
  cbn [ok_or mbind res_bind Z.eqb]. unfold from_utf8. by rewrite Hu.
Qed.

Lemma extensions_loop_shift fuel x y p :
  extensions_loop fuel (x ++ y) (length x + p) = extensions_loop fuel y p.
Proof.
  revert p; induction fuel as [|f IH]; intros p; cbn [extensions_loop]; [done|].
  rewrite length_app.
  rewrite (Bool.eq_true_iff_eq (length x + p + 4 <=? length x + length y)%nat
             (p + 4 <=? length y)%nat) by lia.
  destruct (p + 4 <=? length y)%nat; [|done].
  rewrite <- !(Nat.add_assoc (length x)), !index_shift.
  destruct (index y p); cbn [mbind res_bind]; [|done..].
  destruct (index y (p + 1)); cbn [mbind res_bind]; [|done..].
  destruct (index y (p + 2)); cbn [mbind res_bind]; [|done..].
  destruct (index y (p + 3)); cbn [mbind res_bind]; [|done..].
  rewrite <- !(Nat.add_assoc (length x)), get_range_shift.
  destruct (get_range y _ _); cbn [ok_or mbind res_bind]; [|done].
  case_match; [done|]. apply IH.
Qed.

Lemma extensions_loop_cons fuel t d y :
  wf_extension (t, d) ->
  extensions_loop (S fuel) (encode_extension (t, d) ++ y) 0 =
  if t =? 0 then parse_server_name_extension d else extensions_loop fuel y 0.
Proof.
  intros [Ht Hd]. cbn [fst snd] in *. unfold encode_extension, len16.
  cbn [extensions_loop fst snd].
  rewrite (proj2 (Nat.leb_le _ _)) by (cbn [to_be16 app length Nat.add]; lia).
  cbn [to_be16 app index lookup list_lookup mbind res_bind Nat.add].
  rewrite be16_to_be16 by lia. rewrite be16_nat_len by lia.
  rewrite (get_range_at _ (to_be16 t ++ to_be16 (Z.of_nat (length d))) d y) by done.
  cbn [ok_or mbind res_bind]. destruct (t =? 0); [done|].
  rewrite <- (extensions_loop_shift fuel (to_be16 t ++ to_be16 (Z.of_nat (length d)) ++ d) y 0).
  f_equal. cbn. lia.
Qed.

Lemma extensions_loop_encode es sni pre post fuel :
  Forall wf_extension es ->
  es = pre ++ (0, server_name_data sni) :: post ->
  Forall (fun e => e.1 <> 0) pre ->
  Z.of_nat (length sni) + 3 < 65536 -> utf8_valid sni = true ->
  (length pre < fuel)%nat ->
  extensions_loop fuel (encode_extensions es) 0 = Ok sni.
Proof.
  intros Hwf -> Hpre Hl Hu. revert fuel.
  induction Hpre as [|[t d] pre Ht Hpre IH]; intros [|f] Hf; try (cbn in Hf; lia);
    apply Forall_cons in Hwf as [Hw Hwf]; cbn [encode_extensions fmap list_fmap concat app];
    rewrite extensions_loop_cons by done.
  - rewrite Z.eqb_refl. by apply server_name_data_parse.
  - cbn in Ht. rewrite (proj2 (Z.eqb_neq t 0)) by done. apply IH; [done|cbn in Hf; lia].
Qed.

Lemma length_encode_extensions es : (length es <= length (encode_extensions es))%nat.
Proof.
  induction es as [|e es IH]; cbn [encode_extensions fmap list_fmap concat length]; [lia|].
  rewrite length_app. unfold encode_extensions in IH. cbn [encode_extension length to_be16 app].
  rewrite !length_app. cbn. lia.
Qed.

(** Solves the side conditions of [index_at] and [get_range_at] on an encoded
    message: the decomposition, then the position. *)
Ltac pieces :=
  first [ rewrite ?length_app; cbn [length to_be16 app]; lia
        | rewrite <- ?app_assoc; cbn [to_be16 app]; rewrite ?app_nil_r; reflexivity ].

Lemma parse_client_hello_encode ch :
  wf_hello ch ->
  parse_client_hello (encode_hello ch) =
  extensions_loop (S (length (encode_extensions (ch_extensions ch))))
    (encode_extensions (ch_extensions ch)) 0.
Proof.
  intros [Hv Hr Hs Hc Hk He Hlen]. unfold parse_client_hello.
  assert (Hx : Z.of_nat (length (encode_extensions (ch_extensions ch))) < 65536).
  { unfold encode_handshake, encode_hello in Hlen. rewrite !length_app in Hlen. lia. }
  destruct ch as [v r s c k es].
  cbn [ch_version ch_random ch_session_id ch_cipher_suites ch_compression ch_extensions] in *.
  unfold encode_hello, len16; cbn [ch_version ch_random ch_session_id ch_cipher_suites
    ch_compression ch_extensions]. set (x := encode_extensions es) in *.
  set (hs := v ++ r ++ _).
  assert (Hhs : length hs = (34 + 1 + length s + 2 + length c + 1 + length k + 2 + length x)%nat)
    by (subst hs; rewrite !length_app; cbn [length to_be16 app]; lia).
  set (p1 := v ++ r ++ [Z.of_nat (length s)] ++ s).
  set (p2 := p1 ++ to_be16 (Z.of_nat (length c)) ++ c).
  set (p3 := p2 ++ [Z.of_nat (length k)] ++ k).
  rewrite (proj2 (Nat.ltb_ge (length hs) _)) by lia.
  erewrite (index_at hs (v ++ r)) by (subst hs; pieces).
  cbn [mbind res_bind]. rewrite Nat2Z.id.
  rewrite (proj2 (Nat.ltb_ge (length hs) _)) by lia.
  erewrite (index_at hs p1 _ _ (34 + (1 + length s))) by (subst hs p1; pieces).
  cbn [mbind res_bind]. erewrite (index_at hs (p1 ++ [_])) by (subst hs p1; pieces).
  cbn [mbind res_bind]. rewrite be16_nat_len by lia.
  rewrite (proj2 (Nat.ltb_ge (length hs) _)) by lia.
  erewrite (index_at hs p2 _ _ (34 + (1 + length s) + (2 + length c))) by (subst hs p2 p1; pieces).
  cbn [mbind res_bind]. rewrite Nat2Z.id.
  rewrite (proj2 (Nat.ltb_ge (length hs) _)) by lia.
  erewrite (index_at hs p3 _ _ (34 + (1 + length s) + (2 + length c) + (1 + length k))) by (subst hs p3 p2 p1; pieces).
  cbn [mbind res_bind]. erewrite (index_at hs (p3 ++ [_])) by (subst hs p3 p2 p1; pieces).
  cbn [mbind res_bind]. rewrite be16_nat_len by lia.
  rewrite (get_range_at hs (p3 ++ to_be16 (Z.of_nat (length x))) x [])
    by (subst hs p3 p2 p1; pieces).
  done.
Qed.

Lemma parse_sni_encode ch :
  wf_hello ch -> parse_sni (encode_record ch) = parse_client_hello (encode_hello ch).
Proof.
  intros Hwf. pose proof (wf_record ch Hwf) as Hlen. unfold parse_sni, encode_record, len16.
  set (h := encode_handshake ch) in *. set (hs := encode_hello ch) in *.
  assert (Hh : length h = (4 + length hs)%nat) by (subst h; unfold encode_handshake; pieces).
  set (buf := [22; 3; 1] ++ to_be16 (Z.of_nat (length h)) ++ h).
  assert (Hb : length buf = (5 + length h)%nat) by (subst buf; pieces).
  rewrite (proj2 (Nat.ltb_ge (length buf) _)) by lia.
  subst buf. cbn [to_be16 app index lookup list_lookup mbind res_bind Z.eqb Pos.eqb negb].
  rewrite be16_nat_len by lia. rewrite (proj2 (Nat.ltb_ge _ _)) by (cbn [length]; lia).
  rewrite (slice_at _ (22 :: 3 :: 1 :: to_be16 (Z.of_nat (length h))) h []) by pieces.
  cbn [mbind res_bind]. rewrite (proj2 (Nat.ltb_ge (length h) _)) by lia.
  subst h. unfold encode_handshake. fold hs.
  cbn [to_be24 app index lookup list_lookup mbind res_bind Z.eqb Pos.eqb negb].
  rewrite be24_nat_len by lia. rewrite (proj2 (Nat.ltb_ge _ _)) by (cbn [length]; lia).
  rewrite (slice_at _ (1 :: to_be24 (Z.of_nat (length hs))) hs []) by pieces. done.
Qed.

Lemma parse_sni_record ch pre post sni :
  wf_hello ch ->
  ch_extensions ch = pre ++ (0, server_name_data sni) :: post ->
  Forall (fun e => e.1 <> 0) pre ->
  utf8_valid sni = true ->
  parse_sni (encode_record ch) = Ok sni.
Proof.
  intros Hwf Hes Hpre Hu.
  rewrite parse_sni_encode, parse_client_hello_encode by done.
  pose proof (wf_extensions ch Hwf) as He.
  assert (Hs : wf_extension (0, server_name_data sni))
    by (rewrite Hes in He; by apply Forall_app in He as [_ [? ?]%Forall_cons]).
  destruct Hs as [_ Hs]. cbn [snd server_name_data len16 to_be16 app length] in Hs.
  eapply extensions_loop_encode; [done|done|done|lia|done|].
  pose proof (length_encode_extensions (ch_extensions ch)) as Hle.
  rewrite Hes, length_app in Hle. rewrite <- Hes in Hle. cbn in Hle. lia.
Qed.

(** Peeking a part of the record never looks like the end of it. *)
Lemma record_prefix_incomplete ch n :
  wf_hello ch -> (n < length (encode_record ch))%nat ->
  is_incomplete (take n (encode_record ch)) = Ok true.
Proof.
  intros Hwf. pose proof (wf_record ch Hwf) as Hlen. unfold is_incomplete, encode_record, len16.
  set (h := encode_handshake ch) in *. intros Hn.
  destruct (length _ <? 5)%nat eqn:E; [done|]. apply Nat.ltb_ge in E.
  rewrite length_take in *. cbn [to_be16 app] in *.
  do 5 (destruct n as [|n]; [lia|]).
  cbn [firstn index lookup list_lookup mbind res_bind Z.eqb Pos.eqb negb] in *.
  rewrite be16_nat_len by lia. cbn [length] in *. f_equal. apply Nat.ltb_lt. lia.
Qed.

(** ** Claims *)

(** [parse_sni] never panics (no index out of range) and always returns,
    whatever bytes the guest sends; and [is_incomplete] always answers. *)
Theorem parse_sni_no_panic buf :
  no_panic (parse_sni buf) /\ exists b, is_incomplete buf = Ok b.
Proof. split; [apply parse_sni_total|apply is_incomplete_total]. Qed.

(** For every well-formed ClientHello whose first [server_name] extension
    names the UTF-8 host [sni], [parse_sni] of its TLS record returns exactly
    [sni], whatever bytes follow the record in the buffer. *)
Theorem parse_sni_roundtrip ch pre post sni rest :
  wf_hello ch ->
  ch_extensions ch = pre ++ (0, server_name_data sni) :: post ->
  Forall (fun e => e.1 <> 0) pre ->
  utf8_valid sni = true ->
  parse_sni (encode_record ch ++ rest) = Ok sni.
Proof.
  intros Hwf Hes Hpre Hu. apply parse_sni_app. by eapply parse_sni_record.
Qed.

Definition sample_hello : client_hello :=
  ClientHello [3; 3] (replicate 32 0) [] [0; 47] [0]
    [(10, [0; 29]); (0, server_name_data (B "example.com"))].

Lemma parse_sni_roundtrip_witness :
  parse_sni (encode_record sample_hello ++ B "x") = Ok (B "example.com").
Proof.
  apply (parse_sni_roundtrip sample_hello [(10, [0; 29])] [] (B "example.com") (B "x")).
  - constructor; try by vm_compute. repeat constructor; vm_compute; done.
  - reflexivity.
  - repeat constructor. vm_compute. discriminate.
  - reflexivity.
Defined.

(** The answer of [parse_sni] does not change when more bytes of the
    connection are peeked, and a buffer it reads a name from is never reported
    incomplete: retrying only when [is_incomplete] loses no name. *)
Theorem parse_sni_stable buf rest s :
  parse_sni buf = Ok s ->
  parse_sni (buf ++ rest) = Ok s /\ is_incomplete buf = Ok false.
Proof. intros H. split; [by apply parse_sni_app|by eapply parse_sni_complete]. Qed.

Lemma parse_sni_stable_witness :
  parse_sni (encode_record sample_hello ++ B "more") = Ok (B "example.com") /\
  is_incomplete (encode_record sample_hello) = Ok false.
Proof. apply (parse_sni_stable (encode_record sample_hello)). vm_compute. reflexivity. Defined.
