(* ===== verification/Stream.v ===== *)
(** * Byte streams

    A connection's incoming bytes as a finite list that ends at the peer's
    close: [AsyncBufReadExt::read_line] (bytes up to and including a line feed,
    or to the end of the stream, rejected when they are not UTF-8) and
    [AsyncReadExt::take] + [io::copy].  Time and partial arrival are not part
    of this model: what a routine would wait for, it has. *)

From S2P Require Import Prelude RustStr Utf8.

(** Bytes up to and including the first [\n]. *)
Fixpoint until_nl (s : bytes) : bytes * bytes :=
  match s with
  | [] => ([], [])
  | b :: r => if b =? 10 then ([b], r) else let '(l, t) := until_nl r in (b :: l, t)
  end.

(** [read_line]: the line (empty at end of stream) and the rest. *)
Definition read_line (s : bytes) : res (bytes * bytes) :=
  let '(l, r) := until_nl s in
  if utf8_valid l then Ok (l, r) else Err "stream did not contain valid UTF-8".

(** [io::copy(&mut reader.take(n), w)]: at most [n] bytes. *)
Definition take_copy (n : Z) (s : bytes) : bytes * bytes :=
  let k := Z.to_nat (Z.min n (Z.of_nat (length s))) in (take k s, drop k s).

Lemma until_nl_app s : (until_nl s).1 ++ (until_nl s).2 = s.
Proof.
  induction s as [|b s IH]; cbn; [done|]. destruct (b =? 10); [done|].
  destruct (until_nl s); cbn in *. by rewrite IH.
Qed.

Lemma until_nl_line l r : 10 ∉ l -> until_nl (l ++ 10 :: r) = (l ++ [10], r).
Proof.
  induction l as [|b l IH]; cbn; intros H; [done|].
  rewrite (proj2 (Z.eqb_neq b 10)) by set_solver. rewrite IH by set_solver. done.
Qed.

Lemma until_nl_inv s l r :
  until_nl s = (l, r) ->
  (exists x, l = x ++ [10] /\ (10 ∉ x)) \/ ((10 ∉ l) /\ r = []).
Proof.
  revert l; induction s as [|b s IH]; cbn; intros l.
  - intros [= <- <-]. set_solver.
  - destruct (b =? 10) eqn:E.
    + apply Z.eqb_eq in E as ->. intros [= <- <-]. left. exists []. set_solver.
    + apply Z.eqb_neq in E. destruct (until_nl s) as [l' r']. intros [= <- <-].
      destruct (IH l' eq_refl) as [(x & -> & Hx)|[Hl ->]]; [left|right; set_solver].
      exists (b :: x). set_solver.
Qed.

Lemma read_line_ok s l r : read_line s = Ok (l, r) -> until_nl s = (l, r) /\ utf8_valid l = true.
Proof. unfold read_line. destruct (until_nl s). case_match; naive_solver. Qed.

Lemma read_line_app s l r : read_line s = Ok (l, r) -> s = l ++ r.
Proof.
  intros [H _]%read_line_ok. rewrite <- (until_nl_app s), H. done.
Qed.

Lemma read_line_nl l r :
  10 ∉ l -> utf8_valid (l ++ [10]) = true -> read_line (l ++ 10 :: r) = Ok (l ++ [10], r).
Proof. intros H Hu. unfold read_line. by rewrite until_nl_line, Hu. Qed.

Lemma read_line_shorter s l r :
  read_line s = Ok (l, r) -> l <> [] -> (length r < length s)%nat.
Proof.
  intros ->%read_line_app Hl. rewrite length_app. destruct l; [done|]. cbn. lia.
Qed.

(** ** UTF-8 and ASCII separators *)

Lemma utf8_char_bound s : s <> [] -> (utf8_char s).1 = true -> ((utf8_char s).2 <= length s)%nat.
Proof.
  destruct s as [|b0 [|b1 [|b2 [|b3 s]]]]; [done|..]; intros _;
    unfold utf8_char, at_; cbn [lookup list_lookup default length];
    repeat case_match; cbn [fst snd]; try done; try lia;
    unfold cont, in_range in *; bool_prop; lia.
Qed.

(** A byte that is no continuation byte ends the character before it. *)
Lemma utf8_char_cut a c b :
  cont c = false -> a <> [] -> utf8_char (a ++ c :: b) = utf8_char a.
Proof.
  intros Hc Ha.
  destruct a as [|b0 [|b1 [|b2 [|b3 a]]]]; [done|..];
    unfold utf8_char, at_; cbn [lookup list_lookup default app];
    unfold cont, in_range in *; [..|done];
    repeat case_match; try done; exfalso; cbn in *; lia.
Qed.

Lemma utf8_valid_cut_len n a c b :
  cont c = false -> (length a <= n)%nat ->
  utf8_valid (a ++ c :: b) = utf8_valid a && utf8_valid (c :: b).
Proof.
  intros Hc. revert a; induction n as [|n IH]; intros a Ha;
    (destruct (decide (a = [])) as [->|Hne]; [done|]).
  - destruct a; cbn in *; [done|lia].
  - rewrite (utf8_valid_step (a ++ c :: b)) by (by destruct a).
    rewrite (utf8_valid_step a) by done. rewrite utf8_char_cut by done.
    pose proof (utf8_char_bound a Hne) as Hb. pose proof (utf8_char_pos a) as Hp.
    destruct (utf8_char a) as [[] k]; cbn [fst snd] in *; [|done]. specialize (Hb eq_refl).
    rewrite drop_app_le by done. cbn [andb]. apply IH. rewrite length_drop. lia.
Qed.

(** A byte string cut before a byte that is no continuation byte is
    well-formed when both parts are. *)
Lemma utf8_valid_cut a c b :
  cont c = false -> utf8_valid (a ++ c :: b) = utf8_valid a && utf8_valid (c :: b).
Proof. intros. by apply (utf8_valid_cut_len (length a)). Qed.

Lemma utf8_valid_cons c b : 0 <= c < 128 -> utf8_valid (c :: b) = utf8_valid b.
Proof.
  intros. rewrite utf8_valid_step by done. rewrite utf8_char_ascii by done.
  cbn. by rewrite drop_0.
Qed.

Lemma cont_ascii c : 0 <= c < 128 -> cont c = false.
Proof. unfold cont, in_range. lia. Qed.

Lemma utf8_valid_cut_ascii a c b :
  0 <= c < 128 -> utf8_valid (a ++ c :: b) = utf8_valid a && utf8_valid b.
Proof. intros. by rewrite utf8_valid_cut, utf8_valid_cons by auto using cont_ascii. Qed.

(** ** Trimming keeps well-formed strings well-formed *)

Lemma white_space_head w : w ∈ white_space -> exists c r, w = c :: r /\ cont c = false.
Proof.
  assert (H : Forall (fun w => exists c r, w = c :: r /\ cont c = false) white_space)
    by (repeat constructor; by eauto).
  rewrite Forall_forall in H. apply H.
Qed.

Lemma utf8_valid_trim_end s : utf8_valid s = true -> utf8_valid (trim_end s) = true.
Proof.
  destruct (trim_end_inv s) as (l & Hl & Hs). rewrite Hs at 1. clear Hs.
  generalize (trim_end s); intros t. revert t.
  induction Hl as [|w l Hw Hl IH]; intros t; cbn [concat]; [by rewrite app_nil_r|].
  rewrite (app_assoc t w). intros H%IH. revert H.
  destruct (white_space_head w Hw) as (c & r & -> & Hc).
  rewrite utf8_valid_cut by done. by intros [? _]%andb_true_iff.
Qed.
(** [s] does not start with a white-space character. *)
Definition trimmed_start (s : bytes) : Prop := strip_any white_space s = None.

Lemma white_space_patterns : Forall (fun p => p <> []) white_space.
Proof. by repeat (constructor; [done|]). Qed.

Lemma trim_start_trimmed s : trimmed_start (trim_start s).
Proof. apply strip_all_done; [done|apply white_space_patterns]. Qed.

Lemma trim_end_trimmed_start s : trimmed_start s -> trimmed_start (trim_end s).
Proof.
  unfold trimmed_start. rewrite !strip_any_None. destruct (trim_end_inv s) as (l & _ & Hs).
  intros H p r Hp Heq. apply (H p (r ++ concat l) Hp). rewrite Hs at 1. rewrite Heq.
  by rewrite app_assoc.
Qed.

Lemma trim_both s : trimmed_start (trim s) /\ trimmed (trim s).
Proof.
  split; [apply trim_end_trimmed_start, trim_start_trimmed|apply trim_end_trimmed].
Qed.

Lemma trim_id s : trimmed_start s -> trimmed s -> trim s = s.
Proof.
  intros H1 H2. unfold trim, trim_start. rewrite strip_all_none by done. by apply trim_end_id.
Qed.

Lemma trim_space s : trimmed_start s -> trimmed s -> trim (32 :: s) = s.
Proof.
  intros H1 H2. unfold trim, trim_start.
  change (strip_all (length (32 :: s)) white_space (32 :: s)) with
    (strip_all (length s) white_space s).
  rewrite strip_all_none by done. by apply trim_end_id.
Qed.

Lemma trim_trim s : trim (trim s) = trim s.
Proof. apply trim_id; apply trim_both. Qed.

Lemma elem_of_trim b s : b ∈ trim s -> b ∈ s.
Proof.
  unfold trim, trim_start. intros Hb. destruct (trim_end_inv (strip_all (length s) white_space s)) as (l & _ & Hl).
  destruct (strip_all_inv (length s) white_space s) as (l' & _ & Hl').
  rewrite Hl', Hl. set_solver.
Qed.

Lemma utf8_valid_space w s : w ∈ white_space -> utf8_valid (w ++ s) = utf8_valid s.
Proof.
  intros Hw%list_elem_of_In. vm_compute in Hw.
  repeat (destruct Hw as [<-|Hw]; [rewrite utf8_valid_step by done; reflexivity|]). done.
Qed.

Lemma utf8_valid_trim s : utf8_valid s = true -> utf8_valid (trim s) = true.
Proof.
  intros H. apply utf8_valid_trim_end. unfold trim_start.
  destruct (strip_all_inv (length s) white_space s) as (l & Hl & Hs). rewrite Hs in H. clear Hs.
  revert H; generalize (strip_all (length s) white_space s); intros r H.
  induction Hl as [|w l Hw _ IH]; [done|]. cbn [concat] in H.
  rewrite <- app_assoc, utf8_valid_space in H by done. auto.
Qed.
