(* ===== verification/NetHttp.v ===== *)
(** * The egress proxy's HTTP/1.x reader

    [crates/net-proxy/src/http.rs]: the request head (request line and
    headers), the destination it designates, the framing of its body, the copy
    of that body, and the rewriting of an absolute-form request into origin
    form.  The header loop is shared with identity-proxy's reader
    ([crates/identity-proxy/src/http.rs]), which repeats it. *)

From S2P Require Import Prelude RustStr Utf8 Stream.

Definition is_crlf (b : Z) : bool := (b =? 13) || (b =? 10).

Abbreviation header_list := (list (bytes * bytes)).

(** [RequestHead::header] and [headers_of]: the first header of that name. *)
Definition find_header (headers : header_list) (name : bytes) : option bytes :=
  snd <$> find_first (fun '(k, _) => eq_ignore_ascii_case k name) headers.

(** One header line: [split_once(':')], both sides trimmed; a line with no
    colon is ignored. *)
Definition header_of_line (trimmed : bytes) : header_list :=
  match split_once 58 trimmed with
  | Some (name, value) => [(trim name, trim value)]
  | None => []
  end.

(** The header loop of [read_request_head]: headers, their raw bytes (blank line
    included) and the rest of the stream.  Every round consumes a line, so
    [length s] rounds are enough; running out of them would be a [Panic]. *)
Fixpoint read_headers (fuel : nat) (msg : string) (s : bytes)
  : res (header_list * bytes * bytes) :=
  match fuel with
  | O => Panic
  | S f =>
      '(header_line, s) ← read_line s;
      if is_empty header_line then Err msg
      else
        let trimmed := trim_end_matches is_crlf header_line in
        if is_empty trimmed then Ok ([], header_line, s)
        else
          '(hs, raw, rest) ← read_headers f msg s;
          Ok (header_of_line trimmed ++ hs, header_line ++ raw, rest)
  end.

Record RequestHead := mkHead {
  method : bytes;
  target : bytes;
  raw : bytes;
  headers : header_list }.

Definition header (h : RequestHead) (name : bytes) : option bytes := find_header (headers h) name.

(** [fn read_request_head]: [None] when the client closed before sending
    anything. *)
Definition read_request_head (s : bytes) : res (option (RequestHead * bytes)) :=
  '(line, s) ← read_line s;
  if is_empty line then Ok None
  else
    let parts := splitn 3 32 (trim_end line) in
    let method := default [] (parts !! 0%nat) in
    target ← ok_or (parts !! 1%nat) "ligne de requete sans cible (request-target)";
    if is_empty method then Err "ligne de requete vide ou malformee"
    else
      '(hs, raw_headers, rest) ←
        read_headers (S (length s)) "connexion fermee avant la fin des en-tetes" s;
      Ok (Some (mkHead method target (line ++ raw_headers) hs, rest)).

(** [fn split_host_port]. *)
Definition split_host_port (authority : bytes) (default_port : Z) : res (bytes * Z) :=
  if is_empty authority then Err "autorite vide"
  else match rsplit_once 58 authority with
       | Some (host, port) =>
           if negb (is_empty host) && forallb is_ascii_digit port then
             port ← ok_or (parse_u16 port) "port invalide";
             Ok (host, port)
           else Ok (authority, default_port)
       | None => Ok (authority, default_port)
       end.

(** [target.strip_prefix("http://").or_else(strip_prefix("https://"))]. *)
Definition absolute_rest (target : bytes) : option bytes :=
  match strip_prefix (B "http://") target with
  | Some rest => Some rest
  | None => strip_prefix (B "https://") target
  end.

Definition is_slash_or_query (b : Z) : bool := (b =? 47) || (b =? 63).

(** [fn destination]. *)
Definition destination (h : RequestHead) : res (bytes * Z) :=
  if eq_ignore_ascii_case (method h) (B "CONNECT") then split_host_port (target h) 443
  else match absolute_rest (target h) with
       | Some rest =>
           let authority := default rest (split_by is_slash_or_query rest !! 0%nat) in
           split_host_port authority 80
       | None =>
           host_header ← ok_or (header h (B "Host"))
             "requete HTTP en forme origine sans en-tete Host";
           split_host_port host_header 80
       end.

(** [enum BodyFraming]. *)
Inductive BodyFraming :=
| FNone
| FLength (len : Z)
| FChunked.

(** [fn body_framing]. *)
Definition body_framing (h : RequestHead) : BodyFraming :=
  let chunked := match header h (B "Transfer-Encoding") with
                 | Some v => contains (to_ascii_lowercase v) (B "chunked")
                 | None => false
                 end in
  if chunked then FChunked
  else match (v ← header h (B "Content-Length"); parse_u64 (trim v)) with
       | Some len => if 0 <? len then FLength len else FNone
       | None => FNone
       end.

(** The size announced by a chunk's size line, extensions ([;...]) left out. *)
Definition chunk_size (size_line : bytes) : option Z :=
  let size_token := default [] (split 59 (trim_end size_line) !! 0%nat) in
  from_str_radix 16 U64_MAX (trim size_token).

(** The chunked branch of [copy_body]: the bytes written and how it ends (the
    rest of the stream, or an error after those bytes were written).  Every
    round consumes a size line, so [length s] rounds are enough. *)
Fixpoint copy_chunks (fuel : nat) (s : bytes) : bytes * res bytes :=
  match fuel with
  | O => ([], Panic)
  | S f =>
      match read_line s with
      | Ok (size_line, s) =>
          if is_empty size_line then ([], Err "connexion fermee au milieu d'un corps chunked")
          else
            match chunk_size size_line with
            | None => (size_line, Err "taille de chunk illisible")
            | Some size =>
                let '(data, s) := if 0 <? size then take_copy size s else ([], s) in
                match read_line s with
                | Ok (crlf, s) =>
                    let w := size_line ++ data ++ crlf in
                    if size =? 0 then (w, Ok s)
                    else let '(w', r) := copy_chunks f s in (w ++ w', r)
                | Err e => (size_line ++ data, Err e)
                | Panic => (size_line ++ data, Panic)
                end
            end
      | Err e => ([], Err e)
      | Panic => ([], Panic)
      end
  end.

(** [fn copy_body]. *)
Definition copy_body (s : bytes) (framing : BodyFraming) : bytes * res bytes :=
  match framing with
  | FNone => ([], Ok s)
  | FLength len =>
      let '(w, s) := take_copy len s in
      if Z.of_nat (length w) =? len then (w, Ok s) else (w, Err "corps tronque")
  | FChunked => copy_chunks (S (length s)) s
  end.

(** The path [to_origin_form] keeps of what follows the scheme. *)
Definition origin_path (rest : bytes) : bytes :=
  match find_byte 47 rest with
  | Some idx => drop idx rest
  | None => B "/"
  end.

(** [fn to_origin_form]. *)
Definition to_origin_form (h : RequestHead) : bytes :=
  match absolute_rest (target h) with
  | None => raw h
  | Some rest =>
      let path := origin_path rest in
      let first_line_end := match find_byte 10 (raw h) with
                            | Some i => S i
                            | None => O
                            end in
      let first_line := from_utf8_lossy (take first_line_end (raw h)) in
      let version := default (B "HTTP/1.1") (splitn 3 32 (trim_end first_line) !! 2%nat) in
      method h ++ B " " ++ path ++ B " " ++ version ++ [13; 10] ++
      drop first_line_end (raw h)
  end.

(** ** Reading a head consumes exactly its bytes *)

Lemma read_headers_app fuel msg s hs rw rest :
  read_headers fuel msg s = Ok (hs, rw, rest) -> s = rw ++ rest.
Proof.
  revert s hs rw; induction fuel as [|f IH]; intros s hs rw; cbn [read_headers]; [done|].
  destruct (read_line s) as [[l s']| |] eqn:El; cbn; [|done..].
  apply read_line_app in El as ->. destruct (is_empty l); [done|].
  destruct (is_empty _); [by intros [= <- <- <-]|].
  destruct (read_headers f msg s') as [[[hs' rw'] rest']| |] eqn:Er; cbn; [|done..].
  intros [= <- <- <-]. apply IH in Er as ->. by rewrite app_assoc.
Qed.

Lemma read_headers_total fuel msg s :
  (length s < fuel)%nat -> no_panic (read_headers fuel msg s).
Proof.
  revert s; induction fuel as [|f IH]; intros s Hf; cbn [read_headers]; [lia|].
  unfold read_line. pose proof (until_nl_app s) as Hs.
  destruct (until_nl s) as [l s']; cbn in Hs. destruct (utf8_valid l); cbn; [|done].
  destruct l as [|b l]; cbn [is_empty]; [done|]. destruct (is_empty _); [done|].
  apply no_panic_bind.
  - apply IH. apply (f_equal length) in Hs. rewrite length_app in Hs. cbn in Hs. lia.
  - intros [[??]?] _. done.
Qed.

Lemma read_request_head_total s : no_panic (read_request_head s).
Proof.
  unfold read_request_head, read_line.
  destruct (until_nl s) as [l s']. destruct (utf8_valid l); cbn [ok_or mbind res_bind]; [|done].
  destruct (is_empty l); [done|]. destruct (splitn 3 32 (trim_end l) !! 1%nat); cbn [ok_or mbind res_bind]; [|done].
  case_match; [done|]. apply no_panic_bind; [apply read_headers_total; lia|].
  intros [[??]?] _. done.
Qed.

(** Everything [read_request_head] reads of a request that it accepts. *)
Lemma read_request_head_inv s h rest :
  read_request_head s = Ok (Some (h, rest)) ->
  exists x rw,
    (10 ∉ x) /\ utf8_valid (x ++ [10]) = true /\ s = x ++ 10 :: rw ++ rest /\
    raw h = (x ++ [10]) ++ rw /\ method h <> [] /\
    let parts := splitn 3 32 (trim_end x) in
    parts !! 0%nat = Some (method h) /\ parts !! 1%nat = Some (target h) /\
    read_headers (S (length (rw ++ rest))) "connexion fermee avant la fin des en-tetes"
      (rw ++ rest) = Ok (headers h, rw, rest).
Proof.
  unfold read_request_head. destruct (read_line s) as [[l s']| |] eqn:El; cbn [ok_or mbind res_bind]; [|done..].
  apply read_line_ok in El as [El Hu]. pose proof (until_nl_app s) as Hs.
  rewrite El in Hs; cbn in Hs. destruct (is_empty l); [done|].
  destruct (splitn 3 32 (trim_end l) !! 1%nat) as [tg|] eqn:Et; cbn [ok_or mbind res_bind]; [|done].
  destruct (is_empty (default _ _)) eqn:Em; [done|].
  destruct (read_headers _ _ s') as [[[hs rw] rest']| |] eqn:Er; cbn [ok_or mbind res_bind]; [|done..].
  intros [= <- <-]. pose proof (read_headers_app _ _ _ _ _ _ Er) as ->.
  destruct (until_nl_inv _ _ _ El) as [(x & -> & Hx)|[_ Hnil]].
  - rewrite trim_end_snoc in Et, Em by (apply (bool_decide_unpack _); by vm_compute) || lia.
    exists x, rw. cbn [raw method target headers]. rewrite trim_end_snoc by
      (apply (bool_decide_unpack _); by vm_compute) || lia.
    rewrite <- app_assoc in Hs. split_and!; try done.
    + by destruct (splitn 3 32 (trim_end x) !! 0%nat) as [[]|].
    + by destruct (splitn 3 32 (trim_end x) !! 0%nat).
  - rewrite Hnil in Er. done.
Qed.

(** ** Rewriting in origin form *)

Lemma splitn3 m t v :
  32 ∉ m -> 32 ∉ t -> splitn 3 32 (m ++ 32 :: t ++ 32 :: v) = [m; t; v].
Proof. intros Hm Ht. unfold splitn. by rewrite !split_once_app. Qed.

(** The shapes of a request line with at least two parts. *)
Lemma splitn3_inv x m t :
  splitn 3 32 x !! 0%nat = Some m -> splitn 3 32 x !! 1%nat = Some t ->
  (32 ∉ m) /\ (32 ∉ t) /\
  (x = m ++ 32 :: t /\ splitn 3 32 x !! 2%nat = None \/
   exists v, x = m ++ 32 :: t ++ 32 :: v /\ splitn 3 32 x !! 2%nat = Some v).
Proof.
  unfold splitn. destruct (split_once 32 x) as [[a b]|] eqn:E1; [|done].
  apply split_once_Some in E1 as [-> Ha].
  destruct (split_once 32 b) as [[c d]|] eqn:E2; cbn; intros [= <-] [= <-].
  - apply split_once_Some in E2 as [-> Hc]. eauto 10.
  - apply split_once_None in E2. auto.
Qed.

Lemma find_byte_app_last x r : 10 ∉ x -> find_byte 10 (x ++ 10 :: r) = Some (length x).
Proof.
  induction x as [|b x IH]; cbn; intros H; [done|].
  rewrite (proj2 (Z.eqb_neq b 10)) by set_solver. by rewrite IH by set_solver.
Qed.

Lemma find_byte_Some c s i : find_byte c s = Some i -> drop i s = c :: drop (S i) s.
Proof.
  revert i; induction s as [|b s IH]; intros i; cbn [find_byte]; [done|].
  destruct (b =? c) eqn:E; [apply Z.eqb_eq in E as ->; by intros [= <-]|].
  destruct (find_byte c s) as [k|]; cbn; [|done]. intros [= <-]. by apply IH.
Qed.

Lemma origin_path_cases rest :
  (exists p q, rest = p ++ 47 :: q /\ origin_path rest = 47 :: q) \/ origin_path rest = [47].
Proof.
  unfold origin_path. destruct (find_byte 47 rest) as [i|] eqn:E; [left|by right].
  apply find_byte_Some in E. exists (take i rest), (drop (S i) rest).
  rewrite <- E. by rewrite take_drop.
Qed.

Lemma absolute_rest_suffix t rest : absolute_rest t = Some rest ->
  exists p, is_ascii p /\ t = p ++ rest.
Proof.
  unfold absolute_rest. destruct (strip_prefix (B "http://") t) eqn:E.
  - intros [= ->]. apply strip_prefix_Some in E. eexists; split; [|done].
    by repeat (constructor; [cbn; lia|]).
  - intros H%strip_prefix_Some. eexists; split; [|done].
    by repeat (constructor; [cbn; lia|]).
Qed.

(** The version [to_origin_form] keeps: the third part of the request line. *)
Definition request_version (line : bytes) : bytes :=
  default (B "HTTP/1.1") (splitn 3 32 (trim_end line) !! 2%nat).

Definition origin_line (h : RequestHead) (rest line : bytes) : bytes :=
  method h ++ 32 :: origin_path rest ++ 32 :: request_version line.

Lemma to_origin_form_line h x rw rest :
  10 ∉ x -> utf8_valid (x ++ [10]) = true -> raw h = (x ++ [10]) ++ rw ->
  absolute_rest (target h) = Some rest ->
  to_origin_form h = origin_line h rest x ++ [13; 10] ++ rw.
Proof.
  intros Hx Hu Hr Ha. unfold to_origin_form. rewrite Ha, Hr.
  replace (find_byte 10 ((x ++ [10]) ++ rw)) with (Some (length x))
    by (rewrite <- app_assoc; symmetry; by apply find_byte_app_last).
  replace (S (length x)) with (length (x ++ [10])) by (rewrite length_app; cbn; lia).
  rewrite take_app_length, drop_app_length, from_utf8_lossy_valid by done.
  rewrite trim_end_snoc by (apply (bool_decide_unpack _); by vm_compute) || lia.
  unfold origin_line. rewrite <- !app_assoc. cbn [app]. by rewrite <- !app_assoc.
Qed.

Lemma last_word_http a : trimmed (a ++ 32 :: B "HTTP/1.1").
Proof. unfold trimmed. rewrite rev_app_distr. reflexivity. Qed.

(** The rewritten request line, read back. *)
Lemma origin_line_parts h rest x :
  splitn 3 32 (trim_end x) !! 0%nat = Some (method h) ->
  splitn 3 32 (trim_end x) !! 1%nat = Some (target h) ->
  absolute_rest (target h) = Some rest ->
  splitn 3 32 (trim_end (origin_line h rest x)) =
    [method h; origin_path rest; request_version x].
Proof.
  intros Hm Ht Ha. destruct (splitn3_inv _ _ _ Hm Ht) as (H1 & H2 & Hv).
  assert (Hp : 32 ∉ origin_path rest).
  { destruct (absolute_rest_suffix _ _ Ha) as (p & _ & Hs). rewrite Hs in H2.
    destruct (origin_path_cases rest) as [(a & q & Hr & ->)| ->]; [|set_solver].
    rewrite Hr in H2. set_solver. }
  unfold origin_line. rewrite trim_end_id; [by apply splitn3|].
  unfold request_version. destruct Hv as [[_ ->]|(v & Hx & ->)]; cbn [from_option]; unfold id.
  - change (?a ++ 32 :: ?b ++ ?c) with (a ++ (32 :: b) ++ c). rewrite app_assoc.
    apply last_word_http.
  - change (?a ++ 32 :: ?b ++ ?c) with (a ++ (32 :: b) ++ c). rewrite app_assoc.
    pose proof (trim_end_trimmed x) as Htr. rewrite Hx in Htr.
    change (?a ++ 32 :: ?b ++ ?c) with (a ++ (32 :: b) ++ c) in Htr. rewrite app_assoc in Htr.
    eapply trimmed_last_word; [|done]. intros ->.
    rewrite trimmed_no_suffix in Htr.
    eapply (Htr _ [32]); [|reflexivity]. apply (bool_decide_unpack _). by vm_compute.
Qed.

Lemma elem_of_trim_end b x : b ∈ trim_end x -> b ∈ x.
Proof. destruct (trim_end_inv x) as (l & _ & Hs). rewrite Hs at 2. set_solver. Qed.

(** The parts of a well-formed line that hold no line feed. *)
Definition clean (s : bytes) : Prop := (10 ∉ s) /\ utf8_valid s = true.

Lemma clean_cut a c b : 0 <= c < 128 -> c <> 10 -> clean (a ++ c :: b) <-> clean a /\ clean b.
Proof.
  intros Hc Hn. unfold clean. rewrite utf8_valid_cut_ascii, andb_true_iff by done. set_solver.
Qed.

Lemma origin_line_clean h rest x :
  10 ∉ x -> utf8_valid (x ++ [10]) = true ->
  splitn 3 32 (trim_end x) !! 0%nat = Some (method h) ->
  splitn 3 32 (trim_end x) !! 1%nat = Some (target h) ->
  absolute_rest (target h) = Some rest -> clean (origin_line h rest x).
Proof.
  intros Hx Hu Hm Ht Ha. destruct (splitn3_inv _ _ _ Hm Ht) as (H1 & H2 & Hv).
  rewrite utf8_valid_cut_ascii, andb_true_r in Hu by lia.
  assert (Hc : clean (trim_end x)).
  { split; [by intros ?%elem_of_trim_end|by apply utf8_valid_trim_end]. }
  assert (clean (method h) /\ clean (target h) /\ clean (request_version x)) as (? & Htg & ?).
  { unfold request_version. destruct Hv as [[Hv ->]|(v & Hv & ->)]; rewrite Hv in Hc.
    - apply clean_cut in Hc as [? ?]; [|lia..]. split_and!; try done.
      split; [|by vm_compute]. apply (bool_decide_unpack _). by vm_compute.
    - apply clean_cut in Hc as [? [? ?]%clean_cut]; try lia. done. }
  assert (clean (origin_path rest)).
  { destruct (absolute_rest_suffix _ _ Ha) as (p & _ & Hs). rewrite Hs in Htg.
    destruct (origin_path_cases rest) as [(a & q & Hr & ->)| ->].
    - rewrite Hr, app_assoc in Htg. apply clean_cut in Htg as [_ ?]; [|lia..].
      apply (clean_cut []); [lia..|]. split; [|done]. split; [set_solver|done].
    - split; [set_solver|by vm_compute]. }
  unfold origin_line. apply clean_cut; [lia..|]. split; [done|].
  apply clean_cut; [lia..|]. done.
Qed.

(** Rewriting keeps the method and the headers of a request, makes its target the
    path, and leaves what follows the head in place. *)
Lemma to_origin_form_reparse s h rest authority :
  read_request_head s = Ok (Some (h, rest)) ->
  absolute_rest (target h) = Some authority ->
  read_request_head (to_origin_form h ++ rest) =
  Ok (Some (mkHead (method h) (origin_path authority) (to_origin_form h) (headers h), rest)).
Proof.
  intros (x & rw & Hx & Hu & -> & Hr & Hmne & Hm & Ht & Hh)%read_request_head_inv Ha.
  rewrite (to_origin_form_line _ _ _ _ Hx Hu Hr Ha).
  destruct (origin_line_clean _ _ _ Hx Hu Hm Ht Ha) as [Hnl Hul].
  set (ol := origin_line h authority x) in *.
  replace ((ol ++ [13; 10] ++ rw) ++ rest) with ((ol ++ [13]) ++ 10 :: rw ++ rest)
    by (by simplify_list_eq).
  unfold read_request_head. rewrite read_line_nl.
  2: set_solver.
  2: rewrite utf8_valid_cut_ascii, andb_true_r, utf8_valid_cut_ascii by lia; by rewrite Hul.
  cbn [mbind res_bind].
  replace (is_empty ((ol ++ [13]) ++ [10])) with false by (by destruct ol).
  rewrite !trim_end_snoc by (apply (bool_decide_unpack _); by vm_compute) || lia.
  pose proof (origin_line_parts h authority x Hm Ht Ha) as Hol. fold ol in Hol. rewrite !Hol.
  cbn [lookup list_lookup from_option ok_or mbind res_bind]. unfold id.
  destruct (method h) as [|mb m] eqn:Em; [done|]. cbn [is_empty]. rewrite Hh.
  cbn [mbind res_bind]. by rewrite <- !app_assoc.
Qed.

(** ** Copying a body *)

Lemma take_copy_app n s : (take_copy n s).1 ++ (take_copy n s).2 = s.
Proof. apply take_drop. Qed.

Lemma take_copy_exact d s : take_copy (Z.of_nat (length d)) (d ++ s) = (d, s).
Proof.
  unfold take_copy. rewrite Z.min_l by (rewrite length_app; lia).
  by rewrite Nat2Z.id, take_app_length, drop_app_length.
Qed.

Lemma copy_chunks_app fuel s w rest : copy_chunks fuel s = (w, Ok rest) -> s = w ++ rest.
Proof.
  revert s w; induction fuel as [|f IH]; intros s w; cbn [copy_chunks]; [done|].
  destruct (read_line s) as [[l s1]| |] eqn:E1; [|done..]. apply read_line_app in E1 as ->.
  destruct (is_empty l); [done|]. destruct (chunk_size l) as [n|]; [|done].
  assert (Hs : let '(d, s2) := if 0 <? n then take_copy n s1 else ([], s1) in s1 = d ++ s2).
  { destruct (0 <? n); [|done]. pose proof (take_copy_app n s1). by destruct (take_copy n s1). }
  destruct (if 0 <? n then _ else _) as [d s2]. subst s1.
  destruct (read_line s2) as [[c s3]| |] eqn:E2; [|done..]. apply read_line_app in E2 as ->.
  destruct (n =? 0).
  - intros [= <- <-]. by rewrite <- !app_assoc.
  - destruct (copy_chunks f s3) as [w' [r| |]] eqn:E3; [|done..]. intros [= <- <-].
    apply IH in E3 as ->. by rewrite <- !app_assoc.
Qed.

Lemma copy_chunks_total fuel s : (length s < fuel)%nat -> no_panic (copy_chunks fuel s).2.
Proof.
  revert s; induction fuel as [|f IH]; intros s Hf; cbn [copy_chunks]; [lia|].
  destruct (read_line s) as [[l s1]| |] eqn:E1; [|done|].
  2: { unfold read_line in E1. destruct (until_nl s). by destruct (utf8_valid _). }
  apply read_line_app in E1. destruct l as [|b l]; cbn [is_empty]; [done|].
  destruct (chunk_size (b :: l)) as [n|]; [|done].
  assert (Hs : let '(d, s2) := if 0 <? n then take_copy n s1 else ([], s1) in
               (length s2 <= length s1)%nat).
  { destruct (0 <? n); [|done]. unfold take_copy. rewrite length_drop. lia. }
  destruct (if 0 <? n then _ else _) as [d s2].
  destruct (read_line s2) as [[c s3]| |] eqn:E2; [|done|].
  2: { unfold read_line in E2. destruct (until_nl s2). by destruct (utf8_valid _). }
  destruct (n =? 0); [done|]. specialize (IH s3).
  destruct (copy_chunks f s3) as [w' r]. apply IH. apply read_line_app in E2.
  apply (f_equal length) in E1, E2. rewrite length_app in E1, E2. cbn in E1. lia.
Qed.

Lemma copy_body_total s framing : no_panic (copy_body s framing).2.
Proof.
  destruct framing; cbn [copy_body snd]; [done| |apply copy_chunks_total; lia].
  destruct (take_copy len s). by case_match.
Qed.

(** A chunked body: each chunk is its size line (without its line end) and its
    data; [t0] is the size line of the last, empty chunk. *)
Definition encode_chunk (c : bytes * bytes) : bytes := (c.1 ++ [13; 10]) ++ c.2 ++ [13; 10].
Definition encode_chunked (cs : list (bytes * bytes)) (t0 : bytes) : bytes :=
  concat (encode_chunk <$> cs) ++ encode_chunk (t0, []).

Definition wf_size_line (t : bytes) (n : Z) : Prop :=
  clean t /\ chunk_size (t ++ [13; 10]) = Some n.
Definition wf_chunk (c : bytes * bytes) : Prop :=
  wf_size_line c.1 (Z.of_nat (length c.2)) /\ c.2 <> [].

Lemma read_line_crlf t s : clean t -> read_line (t ++ 13 :: 10 :: s) = Ok (t ++ [13; 10], s).
Proof.
  intros [Hn Hu]. change (t ++ 13 :: 10 :: s) with (t ++ [13] ++ 10 :: s).
  rewrite app_assoc, read_line_nl.
  - by rewrite <- app_assoc.
  - set_solver.
  - rewrite utf8_valid_cut_ascii, andb_true_r, utf8_valid_cut_ascii by lia. by rewrite Hu.
Qed.

Lemma copy_chunks_cons fuel t d s :
  wf_size_line t (Z.of_nat (length d)) ->
  copy_chunks (S fuel) (encode_chunk (t, d) ++ s) =
  if Z.of_nat (length d) =? 0 then (encode_chunk (t, d), Ok s)
  else let '(w, r) := copy_chunks fuel s in (encode_chunk (t, d) ++ w, r).
Proof.
  intros [Hc Hs]. unfold encode_chunk; cbn [fst snd]. rewrite <- !app_assoc.
  cbn [app copy_chunks]. rewrite read_line_crlf by done.
  replace (is_empty (t ++ [13; 10])) with false by (by destruct t). rewrite Hs.
  replace (if 0 <? Z.of_nat (length d) then _ else _) with (d, 13 :: 10 :: s)
    by (destruct d; [done|by rewrite <- take_copy_exact]).
  cbn beta iota. change (13 :: 10 :: s) with ([] ++ 13 :: 10 :: s) at 1.
  rewrite read_line_crlf by (split; [set_solver|done]). cbn [app].
  destruct (_ =? 0); [by rewrite <- !app_assoc|].
  destruct (copy_chunks fuel s). by simplify_list_eq.
Qed.

Lemma copy_chunks_encode fuel cs t0 s :
  Forall wf_chunk cs -> wf_size_line t0 0 -> (length cs < fuel)%nat ->
  copy_chunks fuel (encode_chunked cs t0 ++ s) = (encode_chunked cs t0, Ok s).
Proof.
  intros Hcs H0. unfold encode_chunked. revert fuel.
  induction Hcs as [|[t d] cs [Hw Hne] Hcs IH]; intros [|f] Hf; cbn [length] in Hf; try lia;
    cbn [fmap list_fmap concat app].
  - by rewrite (copy_chunks_cons f t0 []).
  - rewrite <- !app_assoc, copy_chunks_cons by done.
    cbn [snd] in Hne. rewrite (proj2 (Z.eqb_neq _ 0)) by (by destruct d; cbn).
    rewrite (app_assoc (concat _)), IH by lia. done.
Qed.

Lemma length_concat_chunks cs : (length cs <= length (concat (encode_chunk <$> cs)))%nat.
Proof.
  induction cs as [|c cs IH]; [done|]. rewrite fmap_cons. cbn [concat length].
  rewrite length_app. unfold encode_chunk at 1. rewrite !length_app. cbn [length]. lia.
Qed.

(** ** Destinations *)

Lemma split_host_port_bound a d host port :
  0 <= d <= U16_MAX -> split_host_port a d = Ok (host, port) ->
  0 <= port <= U16_MAX /\ host <> [].
Proof.
  unfold split_host_port. intros Hd. destruct a as [|b a]; [done|]. cbn [is_empty].
  destruct (rsplit_once 58 (b :: a)) as [[h p]|] eqn:E; [|by intros [= <- <-]].
  destruct (negb (is_empty h) && forallb is_ascii_digit p) eqn:E2; [|by intros [= <- <-]].
  unfold parse_u16. destruct (from_str_radix 10 U16_MAX p) as [n|] eqn:E3; cbn; [|done].
  intros [= <- <-]. split; [by eapply from_str_radix_bound|]. by destruct h.
Qed.

Lemma split_host_port_render a d host port d' :
  0 <= d <= U16_MAX -> split_host_port a d = Ok (host, port) ->
  split_host_port (host ++ 58 :: dec port) d' = Ok (host, port).
Proof.
  intros Hd H. apply split_host_port_bound in H as [Hb Hne]; [|done].
  unfold split_host_port. replace (is_empty (host ++ _)) with false by (by destruct host).
  replace (rsplit_once 58 (host ++ 58 :: dec port)) with (Some (host, dec port)).
  2: { symmetry. apply rsplit_once_Some. split; [done|]. apply dec_no_sep; lia. }
  replace (is_empty host) with false by (by destruct host). cbn [negb andb].
  replace (forallb is_ascii_digit (dec port)) with true.
  2: { symmetry. apply forallb_forall. intros x Hx%list_elem_of_In.
       apply dec_digits_all in Hx; [|lia]. unfold is_ascii_digit. lia. }
  unfold parse_u16. rewrite parse_dec by (unfold U16_MAX, U64_MAX in *; lia). done.
Qed.

(** The host is a part of the authority. *)
Lemma split_host_port_part a d host port :
  split_host_port a d = Ok (host, port) -> exists r, a = host ++ r.
Proof.
  unfold split_host_port. destruct (is_empty a); [done|].
  destruct (rsplit_once 58 a) as [[h p]|] eqn:E; [|intros [= <- _]; exists []; by rewrite app_nil_r].
  apply rsplit_once_Some in E as [-> _].
  destruct (negb (is_empty h) && forallb is_ascii_digit p).
  - destruct (parse_u16 p); cbn; [|done]. intros [= <- _]. eauto.
  - intros [= <- _]. exists []. by rewrite app_nil_r.
Qed.

Lemma read_request_head_raw s h rest : read_request_head s = Ok (Some (h, rest)) -> s = raw h ++ rest.
Proof. intros (x & rw & _ & _ & -> & -> & _)%read_request_head_inv. by simplify_list_eq. Qed.

Lemma read_request_head_nonempty s h rest :
  read_request_head s = Ok (Some (h, rest)) -> (length rest < length s)%nat.
Proof.
  intros (x & rw & _ & _ & -> & _)%read_request_head_inv. rewrite !length_app. cbn.
  rewrite length_app. lia.
Qed.

Lemma read_request_head_eof s : read_request_head s = Ok None -> s = [].
Proof.
  unfold read_request_head.
  destruct (read_line s) as [[l s']| |] eqn:El; cbn [mbind res_bind]; [|done..].
  apply read_line_ok in El as [El _]. destruct l as [|b l]; cbn [is_empty].
  - intros _. destruct s as [|c s]; [done|]. cbn in El.
    destruct (c =? 10); [done|]. by destruct (until_nl s).
  - destruct (splitn 3 32 _ !! 1%nat); cbn [ok_or mbind res_bind]; [|done].
    case_match; [done|]. by destruct (read_headers _ _ s') as [[[??]?]| |].
Qed.

Lemma copy_body_app s framing w rest : copy_body s framing = (w, Ok rest) -> s = w ++ rest.
Proof.
  destruct framing as [|n|]; cbn [copy_body].
  - by intros [= <- <-].
  - pose proof (take_copy_app n s) as Hs. destruct (take_copy n s) as [w' rest'].
    destruct (_ =? n); [|done]. by intros [= <- <-].
  - apply copy_chunks_app.
Qed.

(** ** Claims *)

(** Reading a request head always returns (an error at worst), and when it
    yields a head, the head's raw bytes followed by the rest are the stream
    itself: replaying [raw] sends exactly what was read, and the reader stands
    right after the blank line. *)
Theorem read_request_head_lossless s :
  match read_request_head s with
  | Ok (Some (h, rest)) => s = raw h ++ rest
  | Ok None => s = []
  | Err _ => True
  | Panic => False
  end.
Proof.
  pose proof (read_request_head_total s) as Ht.
  destruct (read_request_head s) as [[[h rest]|]|e|] eqn:E; [| |done|by apply Ht].
  - by apply read_request_head_raw.
  - by apply read_request_head_eof.
Qed.

(** Rewriting an absolute-form request into origin form changes the target to
    its path and nothing else: read back, the rewritten bytes give the same
    method, the same headers and the same position in the stream. *)
Theorem to_origin_form_preserves s h rest authority :
  read_request_head s = Ok (Some (h, rest)) ->
  absolute_rest (target h) = Some authority ->
  read_request_head (to_origin_form h ++ rest) =
  Ok (Some (mkHead (method h) (origin_path authority) (to_origin_form h) (headers h), rest)).
Proof. apply to_origin_form_reparse. Qed.

Definition sample_request : bytes :=
  B "GET http://llm-proxy/v1/models HTTP/1.1" ++ [13; 10] ++ B "Host: llm-proxy" ++
  [13; 10; 13; 10].
Definition sample_head : RequestHead :=
  mkHead (B "GET") (B "http://llm-proxy/v1/models") sample_request [(B "Host", B "llm-proxy")].

Lemma to_origin_form_preserves_witness :
  read_request_head (to_origin_form sample_head ++ B "body") =
  Ok (Some (mkHead (B "GET") (B "/v1/models") (to_origin_form sample_head)
              [(B "Host", B "llm-proxy")], B "body")).
Proof.
  apply (to_origin_form_preserves (sample_request ++ B "body") sample_head (B "body")
           (B "llm-proxy/v1/models")); vm_compute; reflexivity.
Defined.

(** [copy_body] always returns, and what it wrote followed by what it left
    is what it was given; with a [Content-Length] it wrote exactly that many
    bytes. *)
Theorem copy_body_exact s framing :
  match copy_body s framing with
  | (w, Ok rest) =>
      s = w ++ rest /\ forall n, framing = FLength n -> Z.of_nat (length w) = n
  | (_, Err _) => True
  | (_, Panic) => False
  end.
Proof.
  pose proof (copy_body_total s framing) as Ht.
  destruct (copy_body s framing) as [w [rest| |]] eqn:E; [|done|by apply Ht].
  split; [by eapply copy_body_app|]. intros n ->. revert E. cbn [copy_body].
  destruct (take_copy n s) as [w' rest']. destruct (_ =? n) eqn:E; [|done]. intros [= <- _]. lia.
Qed.

(** A chunked body (any size lines, extensions included, then a last chunk
    with no trailer) is copied byte for byte and the reader is left exactly at
    the next request. *)
Theorem copy_chunked_boundary cs t0 next :
  Forall wf_chunk cs -> wf_size_line t0 0 ->
  copy_body (encode_chunked cs t0 ++ next) FChunked = (encode_chunked cs t0, Ok next).
Proof.
  intros. apply copy_chunks_encode; [done|done|].
  unfold encode_chunked. rewrite !length_app. pose proof (length_concat_chunks cs). lia.
Qed.

Lemma copy_chunked_boundary_witness :
  copy_body (encode_chunked [(B "5;ext=1", B "hello")] (B "0") ++ B "GET /") FChunked =
  (encode_chunked [(B "5;ext=1", B "hello")] (B "0"), Ok (B "GET /")).
Proof.
  apply (copy_chunked_boundary [(B "5;ext=1", B "hello")] (B "0") (B "GET /")).
  - constructor; [|constructor]. split; [split; [split|]|]; try (vm_compute; reflexivity).
    + apply (bool_decide_unpack _). vm_compute. exact I.
    + discriminate.
  - split; [split|]; try (vm_compute; reflexivity).
    apply (bool_decide_unpack _). vm_compute. exact I.
Defined.

(** With trailer fields after the last chunk, the copy stops after the first
    line that follows it: the other trailer lines are left in the stream, where
    the next request line is expected. *)
Lemma copy_body_trailers_desync :
  copy_body (B "0" ++ [13; 10] ++ B "X-Sum: 1" ++ [13; 10; 13; 10] ++ B "GET /") FChunked =
  (B "0" ++ [13; 10] ++ B "X-Sum: 1" ++ [13; 10], Ok ([13; 10] ++ B "GET /")).
Proof. vm_compute. reflexivity. Qed.

(** For a target with a query and no path, the authority stops at [?] but the
    path is searched from the first [/], inside the query. *)
Lemma origin_path_query :
  let h := mkHead (B "GET") (B "http://llm-proxy?next=/admin") [] [] in
  destination h = Ok (B "llm-proxy", 80) /\
  origin_path (B "llm-proxy?next=/admin") = B "/admin".
Proof. split; vm_compute; reflexivity. Qed.
