(* ===== verification/Internal.v ===== *)
(** * Internal aliases

    [crates/net-proxy/src/internal.rs]: the names of trusted components of the
    pod (identity-proxy, mcp-gateway, registry, llm-proxy, the git alias), the
    simulators' aliases and the inter-Workshop (squad) targets, their
    configuration from the environment and their resolution.  The three
    [HashMap]s are finite maps from byte strings; the environment is an
    argument. *)

From S2P Require Import Prelude RustStr.

Abbreviation addr := (bytes * Z)%type.
Abbreviation alias_map := (gmap bytes addr).

Definition IDENTITY_PROXY_ALIAS := B "identity-proxy".
Definition MCP_GATEWAY_ALIAS := B "mcp-gateway".
Definition REGISTRY_ALIAS := B "registry".
Definition LLM_PROXY_ALIAS := B "llm-proxy".
(** [atelier_common::GIT_ALIAS_HOST]. *)
Definition GIT_ALIAS := B "git.atelier.internal".
Definition SIMULATOR_ALIAS_SUFFIX := B ".atelier.internal".

Record InternalRoutes := mkRoutes {
  routes : alias_map;
  simulators : alias_map;
  squad : alias_map }.

(** [InternalRoutes::default()]. *)
Definition no_routes : InternalRoutes := mkRoutes ∅ ∅ ∅.

(** [fn parse_addr]. *)
Definition parse_addr (a : bytes) : res addr :=
  '(host, port) ← ok_or (rsplit_once 58 a) "adresse invalide, attendu host:port";
  port ← ok_or (parse_u16 port) "port invalide";
  Ok (host, port).

(** [Option::filter(|s| !s.trim().is_empty())]. *)
Definition non_blank (o : option bytes) : option bytes :=
  match o with Some s => if is_empty (trim s) then None else Some s | None => None end.

(** The entries of a comma-separated variable, trimmed, empty ones dropped. *)
Definition csv (raw : bytes) : list bytes :=
  filter (fun s => is_empty s = false) (trim <$> split 44 raw).

(** One [if let Some(addr) = ... { routes.insert(alias, parse_addr(&addr)?) }]. *)
Definition parse_one_route (alias : bytes) (a : option bytes) (m : alias_map) : res alias_map :=
  match non_blank a with
  | Some a => target ← parse_addr a; Ok (<[alias := target]> m)
  | None => Ok m
  end.

(** [fn parse]. *)
Definition parse_routes (identity_proxy mcp_gateway registry llm_proxy git_alias : option bytes)
  : res InternalRoutes :=
  m ← parse_one_route IDENTITY_PROXY_ALIAS identity_proxy ∅;
  m ← parse_one_route MCP_GATEWAY_ALIAS mcp_gateway m;
  m ← parse_one_route REGISTRY_ALIAS registry m;
  m ← parse_one_route LLM_PROXY_ALIAS llm_proxy m;
  m ← parse_one_route GIT_ALIAS git_alias m;
  Ok (mkRoutes m ∅ ∅).

(** The loops of [add_squad_targets] and [add_simulators]. *)
Fixpoint add_squad_entries (entries : list bytes) (m : alias_map) : res alias_map :=
  match entries with
  | [] => Ok m
  | entry :: r =>
      '(alias, a) ← ok_or (split_once 61 entry)
        "cible inter-Workshop invalide, attendu alias=host:port";
      target ← parse_addr a;
      add_squad_entries r (<[to_ascii_lowercase alias := target]> m)
  end.

Fixpoint add_simulator_entries (entries : list bytes) (m : alias_map) : res alias_map :=
  match entries with
  | [] => Ok m
  | entry :: r =>
      '(name, a) ← ok_or (split_once 61 entry)
        "entree de simulateur invalide, attendu nom=host:port";
      let alias := to_ascii_lowercase name ++ SIMULATOR_ALIAS_SUFFIX in
      target ← parse_addr a;
      add_simulator_entries r (<[alias := target]> m)
  end.

(** [fn add_squad_targets], [fn add_simulators]. *)
Definition add_squad_targets (r : InternalRoutes) (raw : bytes) : res InternalRoutes :=
  m ← add_squad_entries (csv raw) (squad r);
  Ok (mkRoutes (routes r) (simulators r) m).
Definition add_simulators (r : InternalRoutes) (raw : bytes) : res InternalRoutes :=
  m ← add_simulator_entries (csv raw) (simulators r);
  Ok (mkRoutes (routes r) m (squad r)).

(** [fn from_env]; [env] is [std::env::var(_).ok()]. *)
Definition routes_from_env (env : string -> option bytes) : res InternalRoutes :=
  r ← parse_routes (env "ATELIER_IDENTITY_PROXY_ADDR") (env "ATELIER_MCP_GATEWAY_ADDR")
        (env "ATELIER_REGISTRY_ALIAS_ADDR") (env "ATELIER_LLM_PROXY_ADDR")
        (env "ATELIER_GIT_ALIAS_ADDR");
  r ← match env "ATELIER_SIMULATORS" with
      | Some raw => add_simulators r raw
      | None => Ok r
      end;
  match env "ATELIER_ALLOWED_INTERNAL_TARGETS" with
  | Some raw => add_squad_targets r raw
  | None => Ok r
  end.

(** [fn resolve]: the search through [routes] compares without case. *)
Definition resolve (r : InternalRoutes) (host : bytes) : option addr :=
  let host := to_ascii_lowercase host in
  match find_first (fun '(alias, _) => eq_ignore_ascii_case alias host) (map_to_list (routes r)) with
  | Some (_, a) => Some a
  | None => match simulators r !! host with
            | Some a => Some a
            | None => squad r !! host
            end
  end.

(** [fn resolve_squad]. *)
Definition resolve_squad (r : InternalRoutes) (host : bytes) : option addr :=
  squad r !! to_ascii_lowercase host.

(** ** Resolution is one lookup *)

(** The fixed aliases are in lower case. *)
Definition lower_keys (m : alias_map) : Prop :=
  forall k, is_Some (m !! k) -> to_ascii_lowercase k = k.

Lemma lower_keys_insert (m : alias_map) k a :
  to_ascii_lowercase k = k -> lower_keys m -> lower_keys (<[k := a]> m).
Proof. intros Hk Hm j. rewrite lookup_insert. case_decide; [by subst|apply Hm]. Qed.

Lemma find_lower (m : alias_map) host :
  lower_keys m ->
  (snd <$> find_first (fun '(alias, _) => eq_ignore_ascii_case alias (to_ascii_lowercase host))
             (map_to_list m)) = m !! to_ascii_lowercase host.
Proof.
  intros Hm. destruct (find_first _ _) as [[k a]|] eqn:E; cbn.
  - apply find_first_Some in E as (l1 & l2 & Hl & Hk & _).
    assert (Hlk : m !! k = Some a) by (apply elem_of_map_to_list; rewrite Hl; set_solver).
    apply eq_ignore_true in Hk. rewrite to_ascii_lowercase_idem in Hk.
    rewrite <- Hk, Hm by eauto. done.
  - symmetry. apply eq_None_not_Some. intros [a Ha].
    rewrite find_first_None in E. specialize (E (to_ascii_lowercase host, a)).
    cbn in E. rewrite eq_ignore_refl in E. discriminate E. by apply elem_of_map_to_list.
Qed.

Lemma resolve_lookup r host :
  lower_keys (routes r) ->
  resolve r host = (routes r ∪ (simulators r ∪ squad r)) !! to_ascii_lowercase host.
Proof.
  intros Hr. unfold resolve. rewrite !lookup_union, <- (find_lower _ host Hr).
  by destruct (find_first _ _) as [[k a]|], (simulators r !! to_ascii_lowercase host),
    (squad r !! to_ascii_lowercase host).
Qed.

Lemma parse_one_route_lower alias a m m' :
  to_ascii_lowercase alias = alias -> lower_keys m ->
  parse_one_route alias a m = Ok m' -> lower_keys m'.
Proof.
  unfold parse_one_route. intros Ha Hm. destruct (non_blank a); [|by intros [= <-]].
  destruct (parse_addr _); cbn [mbind res_bind]; [|done..]. intros [= <-]. by apply lower_keys_insert.
Qed.

Lemma parse_routes_lower a b c d e r :
  parse_routes a b c d e = Ok r -> lower_keys (routes r).
Proof.
  unfold parse_routes.
  destruct (parse_one_route IDENTITY_PROXY_ALIAS a ∅) as [m1| |] eqn:E1; cbn [mbind res_bind]; [|done..].
  destruct (parse_one_route MCP_GATEWAY_ALIAS b m1) as [m2| |] eqn:E2; cbn [mbind res_bind]; [|done..].
  destruct (parse_one_route REGISTRY_ALIAS c m2) as [m3| |] eqn:E3; cbn [mbind res_bind]; [|done..].
  destruct (parse_one_route LLM_PROXY_ALIAS d m3) as [m4| |] eqn:E4; cbn [mbind res_bind]; [|done..].
  destruct (parse_one_route GIT_ALIAS e m4) as [m5| |] eqn:E5; cbn [mbind res_bind]; [|done..].
  intros [= <-]; cbn.
  do 5 (eapply parse_one_route_lower; [| |eassumption]; [by vm_compute|]).
  intros k [? H]. by rewrite lookup_empty in H.
Qed.

Lemma routes_from_env_lower env r : routes_from_env env = Ok r -> lower_keys (routes r).
Proof.
  unfold routes_from_env. destruct (parse_routes _ _ _ _ _) as [r0| |] eqn:E; cbn [mbind res_bind]; [|done..].
  apply parse_routes_lower in E.
  assert (Hs : forall r1, match env "ATELIER_SIMULATORS" with
    Some raw => add_simulators r0 raw | None => Ok r0 end = Ok r1 -> routes r1 = routes r0).
  { intros r1. destruct (env "ATELIER_SIMULATORS"); [|by intros [= <-]]. unfold add_simulators.
    destruct (add_simulator_entries _ _); cbn [mbind res_bind]; [|done..]. by intros [= <-]. }
  destruct (match env "ATELIER_SIMULATORS" with Some _ => _ | None => _ end) as [r1| |];
    cbn [mbind res_bind]; [|done..]. specialize (Hs r1 eq_refl). rewrite <- Hs in E.
  destruct (env "ATELIER_ALLOWED_INTERNAL_TARGETS"); [|by intros [= <-]].
  unfold add_squad_targets. destruct (add_squad_entries _ _); cbn [mbind res_bind]; [|done..]. by intros [= <-].
Qed.

(** ** Claims *)

(** With the routes the environment configures, resolving a host is a single
    lookup of its lower-case name, where a fixed alias wins over a simulator and
    a simulator over a squad target: no wildcard, no dependence on the map's
    iteration order. *)
Theorem resolve_spec env r host :
  routes_from_env env = Ok r ->
  resolve r host = (routes r ∪ (simulators r ∪ squad r)) !! to_ascii_lowercase host.
Proof. intros H. by apply resolve_lookup, (routes_from_env_lower env). Qed.

Definition sample_env (name : string) : option bytes :=
  if decide (name = "ATELIER_LLM_PROXY_ADDR") then Some (B "10.0.0.1:4000")
  else if decide (name = "ATELIER_SIMULATORS") then Some (B "Postgres=127.0.0.1:5432, ")
  else None.

Lemma resolve_spec_witness :
  exists r, routes_from_env sample_env = Ok r /\
  resolve r (B "LLM-proxy") =
  (routes r ∪ (simulators r ∪ squad r)) !! to_ascii_lowercase (B "LLM-proxy").
Proof.
  eexists. split; [vm_compute; reflexivity|].
  apply (resolve_spec sample_env). vm_compute. reflexivity.
Defined.
