(* ===== verification/Dns.v ===== *)
(** * The DNS proxy

    [crates/net-proxy/src/dns.rs]: the question parser, the filtering decision
    ([handle_query]), the synthetic answers (refusal and internal alias), and
    the TCP framing loop.  The upstream resolver is an argument: it maps the
    relayed message to its response, or to [None] when it fails or times out.
    A query handler returns the response, if any, with the list of messages
    relayed to the upstream. *)

From S2P Require Import Prelude RustStr Utf8 Allowlist Internal.

Definition MAX_MESSAGE_SIZE : nat := 4096.
Definition QTYPE_ANY : Z := 255.
Definition QTYPE_AXFR : Z := 252.
Definition QTYPE_IXFR : Z := 251.
Definition FORBIDDEN_QTYPES : list Z := [QTYPE_ANY; QTYPE_AXFR; QTYPE_IXFR].
Definition QTYPE_A : Z := 1.

Record Question := mkQuestion {
  q_name : bytes;
  q_type : Z;
  q_wire_len : nat }.

(** The label loop of [parse_question] from [offset]: the labels read (in lower
    case) and the offset after the terminating zero.  A round consumes at least
    one byte; running out of rounds would be a [Panic]. *)
Fixpoint read_labels (fuel : nat) (message : bytes) (offset : nat) : res (list bytes * nat) :=
  match fuel with
  | O => Panic
  | S f =>
      len ← ok_or (message !! offset) "QNAME tronque (longueur de label manquante)";
      let offset := (offset + 1)%nat in
      if len =? 0 then Ok ([], offset)
      else if negb (Z.land len 192 =? 0) then
        Err "compression DNS inattendue dans la section Question"
      else
        let n := Z.to_nat len in
        label ← ok_or (get_range message offset (offset + n)) "QNAME tronque (label incomplet)";
        '(labels, offset) ← read_labels f message (offset + n);
        Ok (to_ascii_lowercase (from_utf8_lossy label) :: labels, offset)
  end.

(** [fn parse_question]. *)
Definition parse_question (message : bytes) : res Question :=
  if (length message <? 12)%nat then Err "message DNS trop court pour un en-tete valide" else
  c1 ← index message 4;
  c2 ← index message 5;
  if negb (be16 c1 c2 =? 1) then Err "QDCOUNT inattendu" else
  '(labels, offset) ← read_labels (S (length message)) message 12;
  if bool_decide (labels = []) then Err "QNAME vide" else
  qtype_bytes ← ok_or (get_range message offset (offset + 2)) "QTYPE tronque";
  t1 ← index qtype_bytes 0;
  t2 ← index qtype_bytes 1;
  Ok (mkQuestion (join (B ".") labels) (be16 t1 t2) (offset + 4 - 12)).

(** [fn refusal]. *)
Definition refusal (message : bytes) : bytes :=
  if (4 <=? length message)%nat then
    <[3%nat := 5]> (alter (fun b => Z.lor b 128) 2%nat message)
  else message.

(** [response\[6..8\].copy_from_slice(&n.to_be_bytes())]. *)
Definition set_ancount (n : Z) (response : bytes) : bytes :=
  <[7%nat := n mod 256]> (<[6%nat := Z.shiftr n 8 mod 256]> response).

(** [fn alias_answer]; [ip] is the four octets. *)
Definition alias_answer (message : bytes) (q : Question) (ip : bytes) : res bytes :=
  let question_end := (12 + q_wire_len q)%nat in
  response ← slice message 0 question_end;
  let response := alter (fun b => Z.lor b 132) 2%nat response in
  let response := <[3%nat := 128]> response in
  if negb (q_type q =? QTYPE_A) then Ok (set_ancount 0 response)
  else
    let response := set_ancount 1 response in
    Ok (response ++ [192; 12] ++ to_be16 QTYPE_A ++ to_be16 1 ++ [0; 0; 0; 30] ++
        to_be16 4 ++ ip).

Section handler.
Context (query_upstream : bytes -> option bytes).

(** [fn handle_query]: the response, and what was sent to the upstream. *)
Definition handle_query (message : bytes) (allowlist : list bytes) (r : InternalRoutes)
    (alias_ip : bytes) : res (option bytes * list bytes) :=
  match parse_question message with
  | Err _ => Ok (None, [])
  | Panic => Panic
  | Ok q =>
      if bool_decide (q_type q ∈ FORBIDDEN_QTYPES) then Ok (Some (refusal message), [])
      else if bool_decide (is_Some (resolve r (q_name q))) then
        answer ← alias_answer message q alias_ip; Ok (Some answer, [])
      else if negb (is_allowed (q_name q) allowlist) then Ok (Some (refusal message), [])
      else Ok (query_upstream message, [message])
  end.

(** One datagram of [run_udp]: the receive buffer holds [MAX_MESSAGE_SIZE]
    bytes; a [None] is answered with nothing. *)
Definition udp_datagram (datagram : bytes) (allowlist : list bytes) (r : InternalRoutes)
    (alias_ip : bytes) : res (option bytes * list bytes) :=
  handle_query (take MAX_MESSAGE_SIZE datagram) allowlist r alias_ip.

(** [fn handle_tcp_connection]: the bytes written back, the messages relayed to
    the upstream, and how the connection ends.  [fuel] bounds the number of
    messages; each takes at least its two length bytes. *)
Fixpoint handle_tcp (fuel : nat) (stream : bytes) (allowlist : list bytes)
    (r : InternalRoutes) (alias_ip : bytes) : bytes * list bytes * res unit :=
  match fuel with
  | O => ([], [], Panic)
  | S f =>
      match stream with
      | l1 :: l2 :: rest =>
          let len := Z.to_nat (be16 l1 l2) in
          match get_range rest 0 len with
          | None => ([], [], Err "fin de flux prematuree")
          | Some message =>
              match handle_query message allowlist r alias_ip with
              | Ok (response, sent) =>
                  let response := default (refusal message) response in
                  let '(out, sent', status) :=
                    handle_tcp f (drop len rest) allowlist r alias_ip in
                  (to_be16 (Z.of_nat (length response)) ++ response ++ out,
                   sent ++ sent', status)
              | Err e => ([], [], Err e)
              | Panic => ([], [], Panic)
              end
          end
      | _ => ([], [], Ok tt)
      end
  end.
End handler.

(** [fn default_upstream]: the content of [/etc/resolv.conf], when readable. *)
Definition default_upstream (contents : option bytes) : bytes :=
  let nameserver line :=
    match strip_prefix (B "nameserver") line with
    | Some ip => let ip := trim ip in if is_empty ip then None else Some ip
    | None => None
    end in
  match contents with
  | Some c => match head (omap nameserver (lines c)) with
              | Some ip => ip ++ B ":53"
              | None => B "1.1.1.1:53"
              end
  | None => B "1.1.1.1:53"
  end.

(** ** The question parser *)

Lemma read_labels_total fuel m o :
  (length m < fuel + o)%nat -> (0 < fuel)%nat -> no_panic (read_labels fuel m o).
Proof.
  revert o; induction fuel as [|f IH]; intros o Hf H0; cbn [read_labels]; [lia|].
  destruct (m !! o) as [len|] eqn:E; cbn [ok_or mbind res_bind]; [|done].
  apply lookup_lt_Some in E. destruct (len =? 0); [done|]. destruct (negb _); [done|].
  destruct (get_range m _ _) as [l|] eqn:E2; cbn [ok_or mbind res_bind]; [|done].
  apply no_panic_bind; [|by intros [??]]. apply get_range_Some in E2 as [? _].
  apply IH; lia.
Qed.

Lemma read_labels_offset fuel m o labels o' :
  read_labels fuel m o = Ok (labels, o') -> (o < o' <= length m)%nat.
Proof.
  revert o labels; induction fuel as [|f IH]; intros o labels; cbn [read_labels]; [done|].
  destruct (m !! o) as [len|] eqn:E; cbn [ok_or mbind res_bind]; [|done].
  apply lookup_lt_Some in E. destruct (len =? 0); [intros [= <- <-]; lia|].
  destruct (negb _); [done|].
  destruct (get_range m _ _) as [l|] eqn:E2; cbn [ok_or mbind res_bind]; [|done].
  destruct (read_labels f m _) as [[ls o2]| |] eqn:E3; cbn; [|done..].
  intros [= <- <-]. apply IH in E3. lia.
Qed.

Lemma parse_question_total m : no_panic (parse_question m).
Proof.
  unfold parse_question. destruct (length m <? 12)%nat eqn:E; [done|].
  destruct (index_lt m 4) as [c1 ->]; [lia|]. destruct (index_lt m 5) as [c2 ->]; [lia|].
  cbn [mbind res_bind]. destruct (negb _); [done|].
  apply no_panic_bind; [apply read_labels_total; lia|]. intros [ls o] _.
  case_bool_decide; [done|].
  destruct (get_range m o (o + 2)) as [tb|] eqn:E2; cbn [ok_or mbind res_bind]; [|done].
  apply get_range_length in E2.
  destruct (index_lt tb 0) as [t1 ->]; [lia|]. destruct (index_lt tb 1) as [t2 ->]; [lia|].
  done.
Qed.

(** A parsed question lies in the message, up to and including its type; its
    class may be missing. *)
Lemma parse_question_bounds m q :
  parse_question m = Ok q ->
  (12 <= length m)%nat /\ (5 <= q_wire_len q)%nat /\ (10 + q_wire_len q <= length m)%nat.
Proof.
  unfold parse_question. destruct (length m <? 12)%nat eqn:E; [done|].
  destruct (index m 4) as [c1| |]; cbn [mbind res_bind]; [|done..].
  destruct (index m 5) as [c2| |]; cbn [mbind res_bind]; [|done..]. destruct (negb _); [done|].
  destruct (read_labels _ m 12) as [[ls o]| |] eqn:El; cbn [mbind res_bind]; [|done..].
  apply read_labels_offset in El. case_bool_decide; [done|].
  destruct (get_range m o (o + 2)) as [tb|] eqn:E2; cbn [ok_or mbind res_bind]; [|done].
  apply get_range_Some in E2 as [E2 _].
  destruct (index tb 0); cbn [mbind res_bind]; [|done..].
  destruct (index tb 1); cbn [mbind res_bind]; [|done..].
  intros [= <-]; cbn [q_wire_len]. lia.
Qed.

(** ** Encoding a query *)

Definition encode_label (l : bytes) : bytes := Z.of_nat (length l) :: l.
Definition encode_qname (labels : list bytes) : bytes := concat (encode_label <$> labels) ++ [0].

(** A query with one question: a 12-byte header with QDCOUNT 1, the question,
    and whatever follows it. *)
Definition encode_query (hdr : bytes) (labels : list bytes) (qtype qclass : Z) (rest : bytes)
  : bytes :=
  hdr ++ encode_qname labels ++ to_be16 qtype ++ to_be16 qclass ++ rest.

Definition wf_label (l : bytes) : Prop := l <> [] /\ (length l < 64)%nat.
Definition wf_header (hdr : bytes) : Prop :=
  length hdr = 12%nat /\ hdr !! 4%nat = Some 0 /\ hdr !! 5%nat = Some 1.

Definition label_text (l : bytes) : bytes := to_ascii_lowercase (from_utf8_lossy l).

Lemma land_label n : 0 <= n < 64 -> Z.land n 192 = 0.
Proof.
  intros H. assert (Hall : Forall (fun k => Z.land k 192 = 0) (seqZ 0 64))
    by (apply (bool_decide_unpack _); by vm_compute).
  rewrite Forall_forall in Hall. apply Hall, elem_of_seqZ. lia.
Qed.

Lemma read_labels_encode fuel pre labels rest :
  Forall wf_label labels -> (length labels < fuel)%nat ->
  read_labels fuel (pre ++ encode_qname labels ++ rest) (length pre) =
  Ok (label_text <$> labels, (length pre + length (encode_qname labels))%nat).
Proof.
  intros Hl. revert fuel pre; unfold encode_qname.
  induction Hl as [|l labels [Hne Hlt] Hl IH]; intros [|f] pre Hf; cbn [length] in Hf; try lia;
    cbn [read_labels].
  - cbn [fmap list_fmap concat app]. rewrite list_lookup_middle by done.
    cbn [ok_or mbind res_bind]. done.
  - rewrite fmap_cons. cbn [concat encode_label app]. rewrite <- !app_assoc. cbn [app].
    rewrite list_lookup_middle by done. cbn [ok_or mbind res_bind].
    rewrite (proj2 (Z.eqb_neq _ 0)) by (by destruct l; cbn).
    rewrite land_label by lia. cbn [Z.eqb negb]. rewrite Nat2Z.id.
    rewrite (get_range_at _ (pre ++ [Z.of_nat (length l)]) l
      (concat (encode_label <$> labels) ++ [0] ++ rest))
      by (rewrite ?length_app, <- ?app_assoc; cbn [length app]; done || lia).
    cbn [ok_or mbind res_bind].
    specialize (IH f (pre ++ Z.of_nat (length l) :: l)).
    rewrite <- !app_assoc in IH. cbn [app] in IH.
    replace (length pre + 1 + length l)%nat
      with (length (pre ++ Z.of_nat (length l) :: l)) by (rewrite length_app; cbn; lia).
    rewrite IH by lia. cbn [mbind res_bind]. do 2 f_equal.
    rewrite !length_app. cbn [length]. rewrite !length_app. cbn. lia.
Qed.

Lemma length_encode_qname labels : (length labels < length (encode_qname labels))%nat.
Proof.
  unfold encode_qname. rewrite length_app. cbn [length].
  induction labels as [|l labels IH]; [cbn; lia|].
  rewrite fmap_cons. cbn [concat length encode_label app]. rewrite length_app. lia.
Qed.

Lemma parse_question_wire hdr labels qtype rest :
  wf_header hdr -> Forall wf_label labels -> labels <> [] -> 0 <= qtype < 65536 ->
  parse_question (hdr ++ encode_qname labels ++ to_be16 qtype ++ rest) =
  Ok (mkQuestion (join (B ".") (label_text <$> labels)) qtype (length (encode_qname labels) + 4)).
Proof.
  intros (Hlen & H4 & H5) Hl Hne Hq. unfold parse_question.
  set (tail := to_be16 qtype ++ rest).
  set (m := hdr ++ encode_qname labels ++ tail).
  assert (Hm : length m = (12 + length (encode_qname labels) + length tail)%nat)
    by (subst m; rewrite !length_app; lia).
  rewrite (proj2 (Nat.ltb_ge (length m) 12)) by lia.
  subst m. rewrite (index_app_l hdr _ 4 0) by (unfold index; by rewrite H4).
  rewrite (index_app_l hdr _ 5 1) by (unfold index; by rewrite H5). cbn [mbind res_bind].
  change (be16 0 1 =? 1) with true. cbn [negb].
  replace 12%nat with (length hdr).
  rewrite read_labels_encode by (done || pose proof (length_encode_qname labels); lia).
  cbn [mbind res_bind]. rewrite bool_decide_eq_false_2 by (by destruct labels).
  rewrite (get_range_at _ (hdr ++ encode_qname labels) (to_be16 qtype) rest)
    by (rewrite ?length_app, <- ?app_assoc; subst tail; done || cbn; lia).
  cbn [ok_or to_be16 index lookup list_lookup mbind res_bind]. rewrite be16_to_be16 by lia.
  do 2 f_equal. lia.
Qed.

Lemma parse_question_encode hdr labels qtype qclass rest :
  wf_header hdr -> Forall wf_label labels -> labels <> [] -> 0 <= qtype < 65536 ->
  parse_question (encode_query hdr labels qtype qclass rest) =
  Ok (mkQuestion (join (B ".") (label_text <$> labels)) qtype (length (encode_qname labels) + 4)).
Proof. apply parse_question_wire. Qed.

(** ** Decoding: what the parser accepts is the encoding of one question *)

Lemma land_192 n : is_byte n -> Z.land n 192 = 0 -> n < 64.
Proof.
  intros H. assert (Hall : Forall (fun k => Z.land k 192 = 0 -> k < 64) (seqZ 0 256)).
  { apply Forall_forall. intros k Hk. apply elem_of_seqZ in Hk. intros Hz.
    destruct (Z.lt_ge_cases k 64); [done|]. exfalso.
    assert (Hb : Z.testbit k 6 = true \/ Z.testbit k 7 = true).
    { rewrite !Z.testbit_true by lia. change (2 ^ 6) with 64. change (2 ^ 7) with 128.
      assert (k / 64 = 1 \/ k / 64 = 2 \/ k / 64 = 3) as [E|[E|E]].
      { assert (1 <= k / 64) by (apply Z.div_le_lower_bound; lia).
        assert (k / 64 < 4) by (apply Z.div_lt_upper_bound; lia). lia. }
      - left. by rewrite E.
      - right. replace 128 with (64 * 2) by lia. by rewrite <- Z.div_div, E by lia.
      - left. by rewrite E. }
    destruct Hb as [Hb|Hb];
      [apply (f_equal (fun z => Z.testbit z 6)) in Hz|apply (f_equal (fun z => Z.testbit z 7)) in Hz];
      rewrite Z.land_spec, Hb, Z.bits_0 in Hz; by vm_compute in Hz. }
  rewrite Forall_forall in Hall. apply Hall, elem_of_seqZ. unfold is_byte in H. lia.
Qed.

Lemma read_labels_decode fuel m o ls o' :
  Forall is_byte m -> read_labels fuel m o = Ok (ls, o') ->
  exists labels rest, drop o m = encode_qname labels ++ rest /\ ls = label_text <$> labels /\
    Forall wf_label labels /\ o' = (o + length (encode_qname labels))%nat.
Proof.
  intros Hm. revert o ls; induction fuel as [|f IH]; intros o ls; cbn [read_labels]; [done|].
  destruct (m !! o) as [len|] eqn:E; cbn [ok_or mbind res_bind]; [|done].
  pose proof (Forall_lookup_1 _ _ _ _ Hm E) as Hb. apply drop_S in E.
  destruct (Z.eqb_spec len 0) as [->|H0].
  { intros [= <- <-]. exists [], (drop (S o) m). split_and!; [done|done|constructor|cbn; lia]. }
  destruct (Z.eqb_spec (Z.land len 192) 0) as [Hl|]; [|done]. cbn [negb]. apply land_192 in Hl; [|done].
  destruct (get_range m _ _) as [l|] eqn:E2; cbn [ok_or mbind res_bind]; [|done].
  pose proof (get_range_length _ _ _ _ E2) as Hlen. apply get_range_Some in E2 as [Hr El].
  destruct (read_labels f m _) as [[ls' o2]| |] eqn:E3; cbn [mbind res_bind]; [|done..].
  intros [= <- <-]. destruct (IH _ _ E3) as (labels & rest & Hd & -> & Hw & ->).
  unfold is_byte in Hb. exists (l :: labels), rest. split_and!.
  - rewrite E. unfold encode_qname in *. rewrite fmap_cons. cbn [concat].
    assert (Hz : encode_label l = len :: l) by (unfold encode_label; f_equal; lia). rewrite Hz. cbn [app].
    f_equal. rewrite <- !app_assoc. rewrite <- app_assoc in Hd. rewrite <- Hd, El.
    rewrite <- (take_drop (Z.to_nat len) (drop (S o) m)) at 1. replace (o + 1)%nat with (S o) by lia.
    f_equal; [f_equal; lia|]. by rewrite drop_drop.
  - done.
  - constructor; [|done]. split; [destruct l; cbn in *; [lia|done]|lia].
  - unfold encode_qname. rewrite fmap_cons. cbn [concat]. rewrite !length_app. cbn [encode_label length]. lia.
Qed.

(** The message [m] asks one question, as the format of DNS has it: twelve bytes of header
    with [QDCOUNT] 1, the labels, each of 1 to 63 bytes after its length, a zero, and the
    type. *)
Definition asks_one (m : bytes) (labels : list bytes) (qtype : Z) : Prop :=
  exists hdr rest, wf_header hdr /\ Forall wf_label labels /\ labels <> [] /\ 0 <= qtype < 65536 /\
    m = hdr ++ encode_qname labels ++ to_be16 qtype ++ rest.

Lemma to_be16_be16 a b : is_byte a -> is_byte b -> to_be16 (be16 a b) = [a; b].
Proof.
  intros Ha Hb. unfold is_byte in *. rewrite be16_eq by done. unfold to_be16. rewrite Z.shiftr_div_pow2 by lia.
  change (2 ^ 8) with 256. f_equal; [|f_equal; symmetry; apply (Z.mod_unique _ _ a); lia].
  rewrite <- (Z.div_unique (a * 256 + b) 256 a b), Z.mod_small by lia. done.
Qed.

Lemma parse_question_decode m q :
  Forall is_byte m -> parse_question m = Ok q ->
  exists labels, asks_one m labels (q_type q) /\ q_name q = join (B ".") (label_text <$> labels).
Proof.
  intros Hm. unfold parse_question. destruct (length m <? 12)%nat eqn:E12; [done|].
  unfold index. destruct (m !! 4%nat) as [c1|] eqn:E4; cbn [mbind res_bind]; [|done].
  destruct (m !! 5%nat) as [c2|] eqn:E5; cbn [mbind res_bind]; [|done].
  destruct (Z.eqb_spec (be16 c1 c2) 1) as [Hc|]; [|done]. cbn [negb].
  destruct (read_labels _ m 12) as [[ls o]| |] eqn:El; cbn [mbind res_bind]; [|done..].
  destruct (read_labels_decode _ _ _ _ _ Hm El) as (labels & rest & Hd & -> & Hw & ->).
  case_bool_decide as Hne; [done|].
  destruct (get_range m _ _) as [tb|] eqn:E2; cbn [ok_or mbind res_bind]; [|done].
  pose proof (get_range_length _ _ _ _ E2) as Htl. apply get_range_Some in E2 as [Hr Et].
  rewrite <- drop_drop, Hd, drop_app_length in Et.
  destruct tb as [|t1 [|t2 [|]]]; cbn [length] in Htl; try lia. cbn [lookup list_lookup mbind res_bind].
  intros [= <-]. cbn [q_type q_name]. exists labels. split; [|done].
  replace (12 + length (encode_qname labels) + 2 - (12 + length (encode_qname labels)))%nat with 2%nat in Et by lia.
  destruct rest as [|x [|y rest]]; [done|done|]. injection Et as -> ->.
  pose proof (Forall_drop _ 12 _ Hm) as Hdb. rewrite Hd in Hdb. apply Forall_app in Hdb as [_ Hdb].
  apply Forall_cons in Hdb as [Hx Hdb]. apply Forall_cons in Hdb as [Hy _].
  assert (Hc1 : is_byte c1) by (by eapply Forall_lookup_1). assert (Hc2 : is_byte c2) by (by eapply Forall_lookup_1).
  rewrite be16_eq in Hc by done. unfold is_byte in *.
  exists (take 12 m), rest. split_and!; [split_and!|done|by intros ->|rewrite be16_eq by done; lia|rewrite be16_eq by done; lia|].
  - rewrite length_take. lia.
  - rewrite lookup_take_lt, E4 by lia. f_equal. lia.
  - rewrite lookup_take_lt, E5 by lia. f_equal. lia.
  - rewrite to_be16_be16 by done. cbn [app]. rewrite <- Hd. by rewrite take_drop.
Qed.

(** ** What reaches the upstream *)

(** A message may be relayed: it asks one question, of none of the types 251 (IXFR), 252
    (AXFR) and 255 (ANY), whose name is no internal alias and is allow-listed. *)
Definition relayable (l : list bytes) (r : InternalRoutes) (m : bytes) : Prop :=
  exists labels qtype, asks_one m labels qtype /\ qtype <> 251 /\ qtype <> 252 /\ qtype <> 255 /\
    let name := join (B ".") (label_text <$> labels) in
    resolve r name = None /\ is_allowed name l = true.

Lemma forbidden_types t : t ∉ FORBIDDEN_QTYPES <-> t <> 251 /\ t <> 252 /\ t <> 255.
Proof. unfold FORBIDDEN_QTYPES, QTYPE_ANY, QTYPE_AXFR, QTYPE_IXFR. set_solver. Qed.

(** A handled message is relayed, as it is and once, exactly when it may be. *)
Lemma handle_query_relayed up m l r ip resp sent :
  Forall is_byte m -> handle_query up m l r ip = Ok (resp, sent) ->
  relayable l r m /\ sent = [m] /\ resp = up m \/ ~ relayable l r m /\ sent = [].
Proof.
  intros Hm Hh.
  assert (Hrel : relayable l r m -> sent = [m] /\ resp = up m).
  { intros (labels & t & (hdr & rest & Hw & Hl & Hne & Ht & ->) & H1 & H2 & H3 & Hres & Hal).
    unfold handle_query in Hh. rewrite parse_question_wire in Hh by done. cbn [q_type q_name] in Hh.
    rewrite bool_decide_eq_false_2 in Hh by (by apply forbidden_types).
    rewrite Hres, bool_decide_eq_false_2, Hal in Hh by (by intros [? ?]). by injection Hh as <- <-. }
  destruct (decide (sent = [])) as [->|Hs]; [right; split; [by intros [? _]%Hrel|done]|left].
  cut (relayable l r m); [intros Hr; split; [done|by apply Hrel]|].
  unfold handle_query in Hh. destruct (parse_question m) as [q|e|] eqn:Eq; [|by simplify_eq|done].
  destruct (parse_question_decode m q Hm Eq) as (labels & Ha & Hn).
  case_bool_decide as Hf; [by simplify_eq|]. case_bool_decide as Hr.
  { destruct (alias_answer m q ip); cbn in Hh; by simplify_eq. }
  destruct (is_allowed (q_name q) l) eqn:Hal; [|by simplify_eq/=].
  apply forbidden_types in Hf as (? & ? & ?). apply eq_None_not_Some in Hr. rewrite Hn in Hr, Hal.
  exists labels, (q_type q). by split_and!.
Qed.

Lemma handle_tcp_relayed up fuel s l r ip :
  Forall is_byte s -> Forall (relayable l r) (handle_tcp up fuel s l r ip).1.2.
Proof.
  revert s; induction fuel as [|f IH]; intros s Hs; cbn [handle_tcp]; [constructor|].
  destruct s as [|l1 [|l2 rest]]; [constructor..|].
  do 2 (apply Forall_cons in Hs as [_ Hs]).
  destruct (get_range _ _ _) as [m|] eqn:Eg; [|constructor]. apply get_range_Some in Eg as [_ ->].
  destruct (handle_query _ _ _ _ _) as [[resp sent]| |] eqn:E; [|constructor..].
  apply handle_query_relayed in E; [|by apply Forall_take, Forall_drop].
  specialize (IH (drop (Z.to_nat (be16 l1 l2)) rest) (Forall_drop _ _ _ Hs)).
  destruct (handle_tcp up f _ l r ip) as [[out sent'] st]. cbn [fst snd] in *. apply Forall_app. split; [|done].
  destruct E as [(? & -> & _)|[_ ->]]; [by constructor|constructor].
Qed.

Lemma handle_query_no_err up m l r ip e : handle_query up m l r ip <> Err e.
Proof.
  unfold handle_query. destruct (parse_question m); [|done..].
  case_bool_decide; [done|]. case_bool_decide; [|by case_match].
  unfold alias_answer, slice. destruct (get_range _ _ _); cbn; [|done].
  by destruct (negb _).
Qed.

(** ** The synthetic answers *)

Lemma refusal_spec m :
  (4 <= length m)%nat ->
  length (refusal m) = length m /\
  (forall i, i <> 2%nat -> i <> 3%nat -> refusal m !! i = m !! i) /\
  refusal m !! 2%nat = (fun b => Z.lor b 128) <$> m !! 2%nat /\
  refusal m !! 3%nat = Some 5.
Proof.
  intros H. unfold refusal. rewrite (proj2 (Nat.leb_le _ _)) by lia.
  rewrite length_insert, length_alter. split_and!; [done| | |].
  - intros i H2 H3. rewrite list_lookup_insert_ne, list_lookup_alter_ne by done. done.
  - rewrite list_lookup_insert_ne by done. apply list_lookup_alter_eq.
  - apply list_lookup_insert_eq. rewrite length_alter. lia.
Qed.

(** The answer record of [alias_answer]: a pointer to the name, A, IN, TTL 30,
    and the address. *)
Definition answer_record (ip : bytes) : bytes :=
  [192; 12] ++ to_be16 QTYPE_A ++ to_be16 1 ++ [0; 0; 0; 30] ++ to_be16 4 ++ ip.

(** The header of the answer: QR and AA set, RA with NOERROR, ANCOUNT. *)
Definition answer_header (hdr : bytes) (ancount : Z) : bytes :=
  set_ancount ancount (<[3%nat := 128]> (alter (fun b => Z.lor b 132) 2%nat hdr)).

Lemma answer_header_app hdr y n :
  length hdr = 12%nat -> answer_header (hdr ++ y) n = answer_header hdr n ++ y.
Proof.
  intros H. unfold answer_header, set_ancount.
  rewrite alter_app_l, !insert_app_l; rewrite ?length_insert, ?length_alter; lia || done.
Qed.

Lemma alias_answer_encode hdr labels qtype qclass rest ip :
  wf_header hdr ->
  alias_answer (encode_query hdr labels qtype qclass rest)
    (mkQuestion (join (B ".") (label_text <$> labels)) qtype
       (length (encode_qname labels) + 4)) ip =
  Ok (answer_header hdr (if qtype =? QTYPE_A then 1 else 0) ++
      encode_qname labels ++ to_be16 qtype ++ to_be16 qclass ++
      (if qtype =? QTYPE_A then answer_record ip else [])).
Proof.
  intros (Hlen & _). unfold alias_answer, encode_query. cbn [q_type q_wire_len].
  set (q := encode_qname labels ++ to_be16 qtype ++ to_be16 qclass).
  rewrite (slice_at _ [] (hdr ++ q) rest); [|subst q; by rewrite <- !app_assoc|done|].
  2: { subst q. rewrite !length_app. cbn. lia. }
  cbn [mbind res_bind]. fold (answer_header (hdr ++ q) 0). fold (answer_header (hdr ++ q) 1).
  rewrite !answer_header_app by done. subst q.
  destruct (qtype =? QTYPE_A); cbn [negb]; by rewrite <- ?app_assoc, ?app_nil_r.
Qed.

(** ** Claims *)

(** C39: over UDP a datagram is relayed to the upstream resolver exactly when it asks one
    question (twelve bytes of header that announce one question, and the labels and the type
    of it), of a type other than IXFR, AXFR and ANY, for a name that the allowlist accepts
    and that is no internal alias: it is then sent once, as it is, and the answer is the
    upstream's; nothing else is sent.  Over a whole TCP connection every message relayed is
    such a question.  No other name reaches the outside through DNS, and no second question
    behind an allowed one. *)
Theorem dns_upstream_mediated up l r ip datagram fuel stream :
  Forall is_byte datagram -> Forall is_byte stream ->
  (forall resp sent, udp_datagram up datagram l r ip = Ok (resp, sent) ->
     let m := take MAX_MESSAGE_SIZE datagram in
     relayable l r m /\ sent = [m] /\ resp = up m \/ ~ relayable l r m /\ sent = []) /\
  Forall (relayable l r) (handle_tcp up fuel stream l r ip).1.2.
Proof.
  intros Hd Hs. split; [|by apply handle_tcp_relayed]. intros resp sent.
  apply handle_query_relayed. by apply Forall_take.
Qed.

Lemma dns_upstream_mediated_witness :
  let m := encode_query [18; 52; 1; 0; 0; 1; 0; 0; 0; 0; 0; 0] [B "github"; B "com"] 1 1 [] in
  let r := no_routes in
  (relayable [B "github.com"] r m /\ [m] = [m] /\ @None bytes = None \/ ~ relayable [B "github.com"] r m /\ [m] = []).
Proof.
  intros m r.
  refine (proj1 (dns_upstream_mediated (fun _ => None) [B "github.com"] r [169; 254; 0; 1] m 0 [] _ _) None [m] _).
  - apply (bool_decide_unpack _). vm_compute. exact I.
  - constructor.
  - vm_compute. reflexivity.
Defined.

(** A query for a forbidden type, or for a name that is neither an alias nor
    allowed, is answered locally with REFUSED: same length, same bytes but QR
    set and the fourth byte equal to RCODE 5, and nothing sent upstream. *)
Theorem dns_refused up m l r ip q :
  parse_question m = Ok q ->
  q_type q ∈ FORBIDDEN_QTYPES \/
    (resolve r (q_name q) = None /\ is_allowed (q_name q) l = false) ->
  exists resp, handle_query up m l r ip = Ok (Some resp, []) /\
    length resp = length m /\ resp !! 3%nat = Some 5 /\
    resp !! 2%nat = (fun b => Z.lor b 128) <$> m !! 2%nat /\
    (forall i, i <> 2%nat -> i <> 3%nat -> resp !! i = m !! i).
Proof.
  intros Hq Hden. exists (refusal m). destruct (parse_question_bounds m q Hq) as [Hl _].
  destruct (refusal_spec m) as (? & ? & ? & ?); [lia|].
  split_and!; [|done..]. unfold handle_query. rewrite Hq.
  case_bool_decide; [done|]. destruct Hden as [|[-> ->]]; [done|].
  by rewrite bool_decide_eq_false_2 by (by intros [? ?]).
Qed.

Definition sample_header : bytes := [18; 52; 1; 0; 0; 1; 0; 0; 0; 0; 0; 0].
Definition sample_query : bytes :=
  encode_query sample_header [B "evil"; B "example"] 1 1 [].

Lemma dns_refused_witness :
  exists resp, handle_query (fun _ => None) sample_query [B "github.com"] no_routes [169; 254; 0; 1]
    = Ok (Some resp, []) /\
    length resp = length sample_query /\ resp !! 3%nat = Some 5 /\
    resp !! 2%nat = (fun b => Z.lor b 128) <$> sample_query !! 2%nat /\
    (forall i, i <> 2%nat -> i <> 3%nat -> resp !! i = sample_query !! i).
Proof.
  apply (dns_refused (fun _ => None) sample_query [B "github.com"] no_routes [169; 254; 0; 1]
           (mkQuestion (B "evil.example") 1 18)); [vm_compute; reflexivity|].
  right. split; vm_compute; reflexivity.
Defined.

(** [handle_query] panics exactly when the name is an internal alias of a
    permitted type and the message stops before its QCLASS: the answer then
    copies a question that is not all there. *)
Theorem dns_panics_iff up m l r ip :
  handle_query up m l r ip = Panic <->
  exists q, parse_question m = Ok q /\ (q_type q ∉ FORBIDDEN_QTYPES) /\
    is_Some (resolve r (q_name q)) /\ (length m < 12 + q_wire_len q)%nat.
Proof.
  unfold handle_query. pose proof (parse_question_total m) as Ht.
  destruct (parse_question m) as [q|e|] eqn:Eq; [|naive_solver|by destruct Ht].
  case_bool_decide as Hf; [naive_solver|]. case_bool_decide as Hr.
  - unfold alias_answer, slice, get_range. case_bool_decide as Hb; cbn [mbind res_bind].
    + destruct (negb _); split; try done; intros (q' & [= <-] & ?); lia.
    + split; [|done]. intros _. exists q. split_and!; try done. lia.
  - split; [by case_match|]. naive_solver.
Qed.

(** A complete query for an internal alias is answered without the upstream
    whatever the allowlist: the question is copied back, with one A record for
    the alias address when type A was asked, and no record (NOERROR) for any
    other permitted type. *)
Theorem dns_alias_answered up hdr labels qtype qclass rest l r ip :
  wf_header hdr -> Forall wf_label labels -> labels <> [] -> 0 <= qtype < 65536 ->
  qtype ∉ FORBIDDEN_QTYPES ->
  is_Some (resolve r (join (B ".") (label_text <$> labels))) ->
  handle_query up (encode_query hdr labels qtype qclass rest) l r ip =
  Ok (Some (answer_header hdr (if qtype =? QTYPE_A then 1 else 0) ++
            encode_qname labels ++ to_be16 qtype ++ to_be16 qclass ++
            (if qtype =? QTYPE_A then answer_record ip else [])), []).
Proof.
  intros Hh Hl Hne Hq Hf Hr. unfold handle_query.
  rewrite parse_question_encode by done. cbn [q_type q_name].
  rewrite bool_decide_eq_false_2, bool_decide_eq_true_2 by done.
  by rewrite alias_answer_encode.
Qed.

Definition sample_routes : InternalRoutes :=
  mkRoutes {[ B "llm-proxy" := (B "10.0.0.1", 4000) ]} ∅ ∅.

Lemma dns_alias_answered_witness :
  handle_query (fun _ => None) (encode_query sample_header [B "LLM-proxy"] 28 1 [7]) []
    sample_routes [169; 254; 0; 1] =
  Ok (Some (answer_header sample_header 0 ++ encode_qname [B "LLM-proxy"] ++ to_be16 28 ++
            to_be16 1 ++ []), []).
Proof.
  apply (dns_alias_answered (fun _ => None) sample_header [B "LLM-proxy"] 28 1 [7] []
           sample_routes [169; 254; 0; 1]).
  - split_and!; reflexivity.
  - constructor; [|constructor]. split; [discriminate|cbn; lia].
  - discriminate.
  - lia.
  - apply (bool_decide_unpack _). vm_compute. exact I.
  - apply (bool_decide_unpack _). vm_compute. exact I.
Defined.
