(* ===== verification/Anomaly.v ===== *)
(** * Anomaly detection on refused egress

    [crates/net-proxy/src/anomaly.rs]: a sliding window over the instants of
    refused egress attempts, and a lockdown request to vm-supervisor sent at
    most once.  Instants are integers (nanoseconds of the monotonic clock);
    the detached notification task is an entry of the list of requests. *)

From stdpp Require Import sorting.
From S2P Require Import Prelude RustStr Internal.

Definition DEFAULT_THRESHOLD : Z := 20.
Definition DEFAULT_WINDOW_SECS : Z := 30.
Definition NANOS : Z := 1000000000.

Record AnomalyDetector := mkDetector {
  denials : list Z;
  threshold : Z;
  window : Z;
  supervisor_addr : option bytes;
  triggered : bool }.

(** [fn from_env]: [usize] and [u64] are 64 bits wide. *)
Definition detector_from_env (env : string -> option bytes) : AnomalyDetector :=
  let threshold := default DEFAULT_THRESHOLD
    (env "ATELIER_ANOMALY_THRESHOLD" ≫= parse_u64) in
  let secs := default DEFAULT_WINDOW_SECS
    (env "ATELIER_ANOMALY_WINDOW_SECS" ≫= parse_u64) in
  mkDetector [] threshold (secs * NANOS) (non_blank (env "ATELIER_VM_CONTROL_ADDR")) false.

(** [Instant::duration_since] saturates at zero. *)
Definition duration_since (now t : Z) : Z := Z.max 0 (now - t).

Definition set_denials (d : AnomalyDetector) (l : list Z) : AnomalyDetector :=
  mkDetector l (threshold d) (window d) (supervisor_addr d) (triggered d).
Definition set_triggered (d : AnomalyDetector) : AnomalyDetector :=
  mkDetector (denials d) (threshold d) (window d) (supervisor_addr d) true.

(** The first critical section of [record_denial] (under [denials]): expire the
    front of the queue, push [now], compare with the threshold. *)
Definition count_denial (d : AnomalyDetector) (now : Z) : AnomalyDetector * bool :=
  let kept := drop_while (fun t => window d <? duration_since now t) (denials d) in
  let l := kept ++ [now] in
  (set_denials d l, threshold d <=? Z.of_nat (length l)).

(** The second one (under [triggered]): whether this task sends the request. *)
Definition claim_trigger (d : AnomalyDetector) : AnomalyDetector * bool :=
  if triggered d then (d, false) else (set_triggered d, true).

(** [fn record_denial], run to its end by one task: the new state and the
    lockdown requests sent (to [http://<addr>/lockdown]). *)
Definition record_denial (d : AnomalyDetector) (now : Z) : AnomalyDetector * list bytes :=
  match supervisor_addr d with
  | None => (d, [])
  | Some a =>
      let '(d, over_threshold) := count_denial d now in
      if negb over_threshold then (d, [])
      else
        let '(d, mine) := claim_trigger d in
        (d, if mine then [B "http://" ++ a ++ B "/lockdown"] else [])
  end.

(** A sequence of refusals handled one after the other. *)
Fixpoint record_all (d : AnomalyDetector) (ts : list Z) : AnomalyDetector * list bytes :=
  match ts with
  | [] => (d, [])
  | t :: r =>
      let '(d, out) := record_denial d t in
      let '(d, out') := record_all d r in
      (d, out ++ out')
  end.

(** ** The queue holds the refusals of the window *)

(** The refusals of [hist] that are within the window at [now]. *)
Definition within (w now : Z) (hist : list Z) : list Z := filter (fun t => now - t <= w) hist.

Lemma drop_while_sorted w now l :
  0 <= w -> StronglySorted Z.le l -> (forall t, t ∈ l -> t <= now) ->
  drop_while (fun t => w <? duration_since now t) l = within w now l.
Proof.
  intros Hw. unfold within, duration_since.
  induction 1 as [|t l Hs IH Hle]; intros Hn; cbn [drop_while]; [done|].
  rewrite filter_cons. assert (t <= now) by (apply Hn; set_solver).
  destruct (w <? Z.max 0 (now - t)) eqn:E.
  - rewrite decide_False by lia. apply IH. set_solver.
  - rewrite decide_True by lia. f_equal. symmetry. apply list_filter_all.
    intros x Hx. rewrite Forall_forall in Hle. apply Hle in Hx. lia.
Qed.

Lemma within_narrow w last now hist :
  last <= now -> within w now (within w last hist) = within w now hist.
Proof.
  intros H. unfold within. rewrite list_filter_filter. apply list_filter_iff. intros t. lia.
Qed.

Lemma StronglySorted_filter_le (P : Z -> Prop) `{!forall x, Decision (P x)} l :
  StronglySorted Z.le l -> StronglySorted Z.le (filter P l).
Proof.
  induction 1 as [|t l Hs IH Hle]; [constructor|]. rewrite filter_cons.
  case_decide; [|done]. constructor; [done|]. rewrite Forall_forall in *.
  intros x [_ ?]%list_elem_of_filter. auto.
Qed.

Lemma count_denial_window d now hist last :
  0 <= window d -> denials d = within (window d) last hist ->
  StronglySorted Z.le (hist ++ [now]) -> last <= now ->
  denials (count_denial d now).1 = within (window d) now (hist ++ [now]) /\
  (count_denial d now).2 =
    (threshold d <=? Z.of_nat (length (within (window d) now (hist ++ [now])))).
Proof.
  intros Hw Hd Hs Hlast.
  assert (Hk : drop_while (fun t => window d <? duration_since now t) (denials d) =
               within (window d) now hist).
  { rewrite Hd, drop_while_sorted; [by apply within_narrow|done| |].
    - eapply StronglySorted_filter_le, StronglySorted_app_1_l; done.
    - intros t [_ Ht]%list_elem_of_filter.
      eapply StronglySorted_app_1_elem_of; [done|done|set_solver]. }
  unfold count_denial; cbn [fst snd denials set_denials]. rewrite Hk.
  unfold within. rewrite filter_app, filter_cons, decide_True by lia. done.
Qed.

(** ** The lockdown request *)

Definition lockdown_url (a : bytes) : bytes := B "http://" ++ a ++ B "/lockdown".

(** What a task sends is decided by the passage of [triggered] to true. *)
Lemma record_denial_out d now a :
  supervisor_addr d = Some a ->
  let '(d', out) := record_denial d now in
  supervisor_addr d' = Some a /\ window d' = window d /\ threshold d' = threshold d /\
  (triggered d = true -> triggered d' = true) /\
  out = if triggered d' && negb (triggered d) then [lockdown_url a] else [].
Proof.
  intros Ha. unfold record_denial, claim_trigger. rewrite Ha. cbn [count_denial].
  destruct (negb _); cbn [set_denials triggered].
  - by destruct (triggered d) eqn:E; rewrite ?E.
  - by destruct (triggered d) eqn:E; cbn; rewrite ?E.
Qed.

Lemma record_all_out d ts a :
  supervisor_addr d = Some a ->
  let '(d', out) := record_all d ts in
  (triggered d = true -> triggered d' = true) /\
  out = if triggered d' && negb (triggered d) then [lockdown_url a] else [].
Proof.
  revert d; induction ts as [|t ts IH]; intros d Ha; cbn [record_all].
  - split; [done|]. by destruct (triggered d).
  - pose proof (record_denial_out d t a Ha) as H1. destruct (record_denial d t) as [d1 out1].
    destruct H1 as (Ha1 & _ & _ & Hm1 & ->). specialize (IH d1 Ha1).
    destruct (record_all d1 ts) as [d2 out2]. destruct IH as [Hm2 ->].
    destruct (triggered d), (triggered d1), (triggered d2); try naive_solver;
      specialize (Hm2 eq_refl); done.
Qed.

(** Some refusal of [ts], after the refusals [hist], finds [threshold] refusals
    in the window that ends with it. *)
Definition burst (w th : Z) (hist ts : list Z) : Prop :=
  exists pre t post, ts = pre ++ t :: post /\
    th <= Z.of_nat (length (within w t (hist ++ pre ++ [t]))).

Lemma burst_nil w th hist : ~ burst w th hist [].
Proof. intros (pre & t & post & H & _). by destruct pre. Qed.

Lemma burst_cons w th hist t ts :
  burst w th hist (t :: ts) <->
  th <= Z.of_nat (length (within w t (hist ++ [t]))) \/ burst w th (hist ++ [t]) ts.
Proof.
  split.
  - intros ([|x pre] & t' & post & [= <- ->] & H); [by left|right].
    exists pre, t', post. split; [done|]. by rewrite <- app_assoc.
  - intros [H|(pre & t' & post & -> & H)].
    + by exists [], t, ts.
    + exists (t :: pre), t', post. split; [done|]. by rewrite <- app_assoc in H.
Qed.

Lemma record_all_triggered d a hist ts last :
  supervisor_addr d = Some a -> 0 <= window d ->
  denials d = within (window d) last hist ->
  StronglySorted Z.le (hist ++ ts) -> (forall t, t ∈ ts -> last <= t) ->
  triggered (record_all d ts).1 = true <->
  triggered d = true \/ burst (window d) (threshold d) hist ts.
Proof.
  revert d hist last; induction ts as [|t ts IH]; intros d hist last Ha Hw Hd Hs Hl.
  - cbn. pose proof (burst_nil (window d) (threshold d) hist). naive_solver.
  - cbn [record_all]. rewrite burst_cons.
    change (t :: ts) with ([t] ++ ts) in Hs. rewrite app_assoc in Hs.
    assert (Hlt : last <= t) by (apply Hl; set_solver).
    destruct (count_denial_window d t hist last Hw Hd) as [Hd' Hc];
      [by eapply StronglySorted_app_1_l|done|].
    assert (Hts : forall x, x ∈ ts -> t <= x).
    { intros x Hx. eapply StronglySorted_app_1_elem_of; [exact Hs|set_solver|done]. }
    unfold record_denial, claim_trigger. rewrite Ha.
    destruct (count_denial d t) as [d1 over] eqn:E1. cbn [fst snd] in Hd', Hc.
    unfold count_denial in E1. injection E1 as E1 _.
    destruct (negb over) eqn:Eo.
    + specialize (IH d1 (hist ++ [t]) t). subst d1. cbn [set_denials supervisor_addr window
        threshold triggered denials] in *. destruct (record_all _ ts) as [d2 o2]. cbn [fst] in *.
      rewrite IH by done. assert (over = false) as -> by (by destruct over). lia || naive_solver lia.
    + specialize (IH (if triggered d1 then d1 else set_triggered d1) (hist ++ [t]) t).
      assert (over = true) as -> by (by destruct over).
      assert (Ht1 : triggered (if triggered d1 then d1 else set_triggered d1) = true)
        by (by destruct (triggered d1) eqn:E; rewrite ?E).
      replace (if triggered d1 then (d1, false) else (set_triggered d1, true)) with
        (if triggered d1 then d1 else set_triggered d1, negb (triggered d1))
        by (by destruct (triggered d1)).
      destruct (record_all _ ts) as [d2 o2]. cbn [fst] in *.
      assert (triggered d2 = true) as ->.
      { apply IH; [by subst d1; destruct (triggered _)..|done|done|by left]. }
      split; [|done]. intros _. right. left. lia.
Qed.

Lemma record_all_lockdown d a ts :
  supervisor_addr d = Some a -> 0 <= window d -> denials d = [] -> triggered d = false ->
  StronglySorted Z.le ts ->
  (burst (window d) (threshold d) [] ts /\ (record_all d ts).2 = [lockdown_url a]) \/
  (~ burst (window d) (threshold d) [] ts /\ (record_all d ts).2 = []).
Proof.
  intros Ha Hw Hd Ht Hs.
  assert (Hiff : triggered (record_all d ts).1 = true <->
                 triggered d = true \/ burst (window d) (threshold d) [] ts).
  { destruct ts as [|t ts].
    - cbn. pose proof (burst_nil (window d) (threshold d) []). naive_solver.
    - apply (record_all_triggered d a [] (t :: ts) t); try done.
      apply StronglySorted_inv in Hs as [_ Hall]. intros x [->|Hx]%elem_of_cons; [lia|].
      rewrite Forall_forall in Hall. auto. }
  pose proof (record_all_out d ts a Ha) as Ho.
  destruct (record_all d ts) as [d' out]. destruct Ho as [_ ->]. cbn [fst snd] in *.
  rewrite Ht in *. destruct (triggered d'); cbn [andb negb]; [left|right]; (split; [|done]).
  - by destruct (proj1 Hiff eq_refl).
  - intros Hb. pose proof (proj2 Hiff (or_intror Hb)). done.
Qed.

(** ** Concurrent tasks *)

(** Connections are handled by concurrent tasks, and the two critical sections of
    [record_denial] are separate: a task that found the threshold reached may be
    overtaken before it takes [triggered].  [over] counts the tasks in between. *)
Record conf := mkConf { c_det : AnomalyDetector; c_over : nat; c_sent : list bytes }.

Inductive astep (a : bytes) : conf -> conf -> Prop :=
| as_count d over sent now :
    supervisor_addr d = Some a ->
    astep a (mkConf d over sent)
      (mkConf (count_denial d now).1
         (if (count_denial d now).2 then S over else over) sent)
| as_claim d over sent :
    astep a (mkConf d (S over) sent)
      (mkConf (claim_trigger d).1 over
         (sent ++ if (claim_trigger d).2 then [lockdown_url a] else [])).

(** The requests sent so far, as a function of [triggered]. *)
Definition sent_inv (a : bytes) (c : conf) : Prop :=
  c_sent c = if triggered (c_det c) then [lockdown_url a] else [].

Lemma astep_inv a c c' : astep a c c' -> sent_inv a c -> sent_inv a c'.
Proof.
  destruct 1 as [d over sent now Ha|d over sent]; unfold sent_inv; cbn; [done|].
  intros ->. unfold claim_trigger. by destruct (triggered d) eqn:E; cbn; rewrite ?E.
Qed.

(** ** Claims *)

(** Run over any non-decreasing sequence of refusal instants, the detector
    requests the lockdown exactly when some refusal is at least the
    [threshold]-th of the last [window], and requests it once. *)
Theorem anomaly_lockdown_iff d a ts :
  supervisor_addr d = Some a -> 0 <= window d -> denials d = [] -> triggered d = false ->
  StronglySorted Z.le ts ->
  (burst (window d) (threshold d) [] ts /\ (record_all d ts).2 = [lockdown_url a]) \/
  (~ burst (window d) (threshold d) [] ts /\ (record_all d ts).2 = []).
Proof. apply record_all_lockdown. Qed.

Definition sample_detector : AnomalyDetector := mkDetector [] 3 40 (Some (B "127.0.0.1:1")) false.

Lemma anomaly_lockdown_iff_witness :
  (burst 40 3 [] [0; 25; 30; 60] /\
   (record_all sample_detector [0; 25; 30; 60]).2 = [lockdown_url (B "127.0.0.1:1")]) \/
  (~ burst 40 3 [] [0; 25; 30; 60] /\ (record_all sample_detector [0; 25; 30; 60]).2 = []).
Proof.
  apply (anomaly_lockdown_iff sample_detector (B "127.0.0.1:1") [0; 25; 30; 60]);
    try reflexivity; [cbn; lia|]. repeat constructor; lia.
Defined.

(** Under every interleaving of the critical sections of concurrent tasks,
    at most one lockdown request is sent, and one has been sent exactly when
    [triggered] is set: the refusals the lockdown itself causes never send
    another. *)
Theorem anomaly_lockdown_once a c c' :
  rtc (astep a) c c' -> c_sent c = [] -> triggered (c_det c) = false ->
  (length (c_sent c') <= 1)%nat /\
  (c_sent c' = [lockdown_url a] <-> triggered (c_det c') = true).
Proof.
  intros Hr H1 H2. assert (Hi : sent_inv a c') .
  { assert (H : sent_inv a c) by (unfold sent_inv; by rewrite H1, H2). clear H1 H2.
    induction Hr as [|c1 c2 c3 Hstep _ IH]; [done|]. eauto using astep_inv. }
  unfold sent_inv in Hi. rewrite Hi. by destruct (triggered (c_det c')); cbn; split; auto.
Qed.

Lemma anomaly_lockdown_once_witness :
  let d := mkDetector [] 1 40 (Some (B "h")) false in
  exists c', rtc (astep (B "h")) (mkConf d 0 []) c' /\ c_over c' = 0%nat /\
    (length (c_sent c') <= 1)%nat /\
    (c_sent c' = [lockdown_url (B "h")] <-> triggered (c_det c') = true).
Proof.
  intros d.
  set (c2 := mkConf (set_denials d [5; 6]) 2 []).
  set (c' := mkConf (set_triggered (set_denials d [5; 6])) 0 [lockdown_url (B "h")]).
  assert (Hr : rtc (astep (B "h")) (mkConf d 0 []) c').
  { eapply rtc_l; [apply (as_count (B "h") d 0 [] 5); reflexivity|].
    eapply rtc_l; [apply (as_count (B "h") (set_denials d [5]) 1 [] 6); reflexivity|].
    eapply rtc_l; [apply (as_claim (B "h") (set_denials d [5; 6]) 1 [])|].
    eapply rtc_l; [apply (as_claim (B "h") (set_triggered (set_denials d [5; 6])) 0)|].
    apply rtc_refl. }
  exists c'. split; [exact Hr|]. split; [reflexivity|].
  apply (anomaly_lockdown_once (B "h") (mkConf d 0 []) c' Hr); reflexivity.
Defined.
