(* ===== verification/SquadToken.v ===== *)
(** * Squad tokens

    [crates/common/src/squad_token.rs]: minting and verifying the token that
    opens an inter-Workshop connection, [name|expiry|signature].  The keyed hash
    (HMAC-SHA256 in hexadecimal, from the [hmac], [sha2] and [hex] crates) is an
    argument [mac_hex key message]; what is relied on of it is the class
    [HexMac].  The clock is an argument. *)

From S2P Require Import Prelude RustStr.

Definition DEFAULT_TTL_SECS : Z := 15 * 60.

(** [hex::encode] of a 32-byte digest: 64 lower-case hexadecimal digits. *)
Definition is_hex_digit (b : Z) : Prop := 48 <= b <= 57 \/ 97 <= b <= 102.

Class HexMac (mac_hex : bytes -> bytes -> bytes) : Prop := {
  mac_hex_digits k m : Forall is_hex_digit (mac_hex k m);
  mac_hex_length k m : length (mac_hex k m) = 64%nat }.

(** [fn constant_time_eq]. *)
Definition constant_time_eq (a b : bytes) : bool :=
  if negb (length a =? length b)%nat then false
  else fold_left (fun acc '(x, y) => Z.lor acc (Z.lxor x y)) (zip a b) 0 =? 0.

Section token.
Context (mac_hex : bytes -> bytes -> bytes).

(** [fn derive_campaign_key]. *)
Definition derive_campaign_key (signing_key campaign_id : bytes) : bytes :=
  mac_hex signing_key campaign_id.

(** The signed text, and [fn sign]. *)
Definition signed_text (workshop_name : bytes) (expiry : Z) : bytes :=
  workshop_name ++ B "|" ++ dec expiry.
Definition sign (campaign_key workshop_name : bytes) (expiry : Z) : bytes :=
  mac_hex campaign_key (signed_text workshop_name expiry).

(** [fn mint]; the sum is a [u64]'s. *)
Definition mint (campaign_key workshop_name : bytes) (ttl_secs now : Z) : bytes :=
  let expiry := (now + ttl_secs) mod (U64_MAX + 1) in
  workshop_name ++ B "|" ++ dec expiry ++ B "|" ++ sign campaign_key workshop_name expiry.

(** [fn verify]. *)
Definition verify (campaign_key token : bytes) (now : Z) : res bytes :=
  let parts := splitn 3 124 token in
  match parts !! 0%nat, parts !! 1%nat, parts !! 2%nat with
  | Some workshop_name, Some expiry_str, Some signature =>
      expiry ← ok_or (parse_u64 expiry_str) "expiration non numerique dans le jeton";
      let expected := sign campaign_key workshop_name expiry in
      if negb (constant_time_eq expected signature) then Err "signature invalide"
      else if expiry <? now then Err "jeton expire"
      else Ok workshop_name
  | _, _, _ => Err "format de jeton invalide, attendu nom|expiration|signature"
  end.
End token.

(** ** Constant-time comparison is equality *)

Lemma fold_lor_zero l acc :
  fold_left (fun acc '(x, y) => Z.lor acc (Z.lxor x y)) l acc = 0 <->
  acc = 0 /\ Forall (fun '(x, y) => x = y) l.
Proof.
  revert acc; induction l as [|[x y] l IH]; intros acc; cbn.
  - split; [|naive_solver]. intros ->. by split.
  - rewrite IH, Z.lor_eq_0_iff, Z.lxor_eq_0_iff, Forall_cons. naive_solver.
Qed.

Lemma zip_equal (a b : bytes) :
  length a = length b -> Forall (fun '(x, y) => x = y) (zip a b) <-> a = b.
Proof.
  revert b; induction a as [|x a IH]; intros [|y b] H; cbn in *; try done.
  rewrite Forall_cons, IH by lia. naive_solver.
Qed.

Lemma constant_time_eq_true a b : constant_time_eq a b = true <-> a = b.
Proof.
  unfold constant_time_eq. destruct (length a =? length b)%nat eqn:E; cbn [negb].
  - apply Nat.eqb_eq in E. rewrite Z.eqb_eq, fold_lor_zero, zip_equal by done. naive_solver.
  - apply Nat.eqb_neq in E. split; [done|]. intros ->. done.
Qed.

(** ** What a token is *)

Lemma splitn3_bar_inv token x y z :
  splitn 3 124 token !! 0%nat = Some x -> splitn 3 124 token !! 1%nat = Some y ->
  splitn 3 124 token !! 2%nat = Some z ->
  token = x ++ B "|" ++ y ++ B "|" ++ z /\ (124 ∉ x) /\ (124 ∉ y).
Proof.
  unfold splitn. destruct (split_once 124 token) as [[a b]|] eqn:E1; [|done].
  apply split_once_Some in E1 as [-> Ha].
  destruct (split_once 124 b) as [[c d]|] eqn:E2; cbn; intros [= <-] [= <-] [= <-].
  apply split_once_Some in E2 as [-> Hc]. done.
Qed.

Lemma splitn3_bar x y z :
  124 ∉ x -> 124 ∉ y -> splitn 3 124 (x ++ B "|" ++ y ++ B "|" ++ z) = [x; y; z].
Proof.
  intros Hx Hy. unfold splitn. cbn [B app]. by rewrite !split_once_app by done.
Qed.

Lemma verify_inv mac k token now name :
  verify mac k token now = Ok name <->
  exists expiry_str expiry,
    token = name ++ B "|" ++ expiry_str ++ B "|" ++ sign mac k name expiry /\
    (124 ∉ name) /\ (124 ∉ expiry_str) /\ parse_u64 expiry_str = Some expiry /\ now <= expiry.
Proof.
  split.
  - unfold verify. destruct (splitn 3 124 token !! 0%nat) as [x|] eqn:E0; [|done].
    destruct (splitn 3 124 token !! 1%nat) as [y|] eqn:E1; [|done].
    destruct (splitn 3 124 token !! 2%nat) as [z|] eqn:E2; [|done].
    destruct (splitn3_bar_inv _ _ _ _ E0 E1 E2) as (-> & Hx & Hy).
    destruct (parse_u64 y) as [e|] eqn:Ee; cbn [ok_or mbind res_bind]; [|done].
    destruct (constant_time_eq _ z) eqn:Ec; cbn [negb]; [|done].
    apply constant_time_eq_true in Ec as <-. destruct (e <? now) eqn:En; [done|].
    intros [= <-]. exists y, e. split_and!; try done. lia.
  - intros (y & e & -> & Hx & Hy & He & Hn). unfold verify. rewrite splitn3_bar by done.
    cbn [lookup list_lookup]. rewrite He. cbn [ok_or mbind res_bind].
    rewrite (proj2 (constant_time_eq_true _ _)) by done. cbn [negb].
    by rewrite (proj2 (Z.ltb_ge e now)) by lia.
Qed.

Lemma verify_other mac k k' name ttl now now' :
  124 ∉ name -> 0 <= now -> 0 <= ttl -> now + ttl <= U64_MAX ->
  verify mac k' (mint mac k name ttl now) now' =
  if bool_decide (sign mac k' name (now + ttl) = sign mac k name (now + ttl))
  then if now + ttl <? now' then Err "jeton expire" else Ok name
  else Err "signature invalide".
Proof.
  intros Hn Hnow Httl Hmax. unfold mint, verify.
  rewrite Z.mod_small by (unfold U64_MAX in *; lia).
  rewrite splitn3_bar by (done || apply dec_no_sep; lia). cbn [lookup list_lookup].
  unfold parse_u64. rewrite parse_dec by lia. cbn [ok_or mbind res_bind].
  destruct (constant_time_eq _ _) eqn:E; cbn [negb].
  - apply constant_time_eq_true in E. by rewrite bool_decide_true.
  - rewrite bool_decide_false; [done|]. intros Hs%constant_time_eq_true. by rewrite Hs in E.
Qed.
Lemma verify_mint mac k name ttl now now' :
  124 ∉ name -> 0 <= now -> 0 <= ttl -> now + ttl <= U64_MAX ->
  verify mac k (mint mac k name ttl now) now' =
  if now + ttl <? now' then Err "jeton expire" else Ok name.
Proof. intros. by rewrite verify_other, bool_decide_true by done. Qed.

(** Two different (name, expiry) pairs never share a signed text. *)
Lemma signed_text_inj n1 e1 n2 e2 :
  124 ∉ n1 -> 124 ∉ n2 -> 0 <= e1 <= U64_MAX -> 0 <= e2 <= U64_MAX ->
  signed_text n1 e1 = signed_text n2 e2 -> n1 = n2 /\ e1 = e2.
Proof.
  intros H1 H2 He1 He2. unfold signed_text. cbn [B app]. intros H.
  apply (f_equal (split_once 124)) in H. rewrite !split_once_app in H by done.
  injection H as -> Hd. split; [done|].
  apply (f_equal (from_str_radix 10 U64_MAX)) in Hd. rewrite !parse_dec in Hd by lia. congruence.
Qed.

(** A minted token is one line of text. *)
Lemma mint_one_line mac `{!HexMac mac} k name ttl now :
  10 ∉ name -> 0 <= now -> 0 <= ttl -> now + ttl <= U64_MAX -> 10 ∉ mint mac k name ttl now.
Proof.
  intros Hn Hnow Httl Hmax. unfold mint. rewrite Z.mod_small by (unfold U64_MAX in *; lia).
  rewrite !not_elem_of_app. split_and!; try done; try (cbn [B]; set_solver).
  - apply dec_no_sep; lia.
  - intros Hin. pose proof (mac_hex_digits k (signed_text name (now + ttl))) as Hall.
    rewrite Forall_forall in Hall. apply Hall in Hin. unfold is_hex_digit in Hin. lia.
Qed.

Lemma hex_ascii (s : bytes) : Forall is_hex_digit s -> Forall (fun b => 0 <= b < 128) s.
Proof. intros H. eapply Forall_impl; [exact H|]. unfold is_hex_digit. intros; cbn; lia. Qed.

(** ** Claims *)

(** [verify] accepts a token exactly when it is [name|e|s] where [e] reads as
    a [u64] not in the past and [s] is the signature, under this key, of [name]
    and that expiry: nothing but knowledge of the key opens a connection, and
    the name returned is the signed one. *)
Theorem verify_spec mac k token now name :
  verify mac k token now = Ok name <->
  exists expiry_str expiry,
    token = name ++ B "|" ++ expiry_str ++ B "|" ++ sign mac k name expiry /\
    (124 ∉ name) /\ (124 ∉ expiry_str) /\ parse_u64 expiry_str = Some expiry /\ now <= expiry.
Proof. apply verify_inv. Qed.

(** A minted token verifies under the same key, with the name it was minted
    for, up to and including its expiry instant, and is rejected as expired
    after it. *)
Theorem mint_verify mac k name ttl now now' :
  124 ∉ name -> 0 <= now -> 0 <= ttl -> now + ttl <= U64_MAX ->
  verify mac k (mint mac k name ttl now) now' =
  if now + ttl <? now' then Err "jeton expire" else Ok name.
Proof. apply verify_mint. Qed.

(** A keyed "hash" with the shape of HMAC-SHA256's hexadecimal digest. *)
Definition toy_mac (k m : bytes) : bytes := replicate 64 (48 + Z.of_nat (length k + length m) mod 10).

#[export] Instance toy_mac_hex : HexMac toy_mac.
Proof.
  split; intros k m; [|by apply length_replicate].
  apply Forall_replicate. left. pose proof (Z.mod_pos_bound (Z.of_nat (length k + length m)) 10). lia.
Qed.

Lemma mint_verify_witness :
  verify toy_mac (B "key") (mint toy_mac (B "key") (B "ws-backend") DEFAULT_TTL_SECS 1700000000)
    1700000900 = Ok (B "ws-backend").
Proof.
  apply (mint_verify toy_mac (B "key") (B "ws-backend") DEFAULT_TTL_SECS 1700000000 1700000900);
    try (vm_compute; discriminate).
  apply (bool_decide_unpack _). vm_compute. exact I.
Defined.
