(* ===== verification/Ingress.v ===== *)
(** * Inter-Workshop ingress

    [crates/net-proxy/src/ingress.rs]: the exported services' configuration and
    the relay of one accepted connection, which demands a squad token as its
    first line when a key is configured.  The guest listener is an argument
    (whether it accepts the connection); what reaches it is a list of events. *)

From S2P Require Import Prelude RustStr Utf8 Stream Internal SquadToken.

(** [fn spawn_from_env]: the (name, port) relays started for the variable. *)
Definition exported_service (entry : bytes) : option (bytes * Z) :=
  match split_once 61 entry with
  | Some (name, port) => match parse_u16 port with Some p => Some (name, p) | None => None end
  | None => None
  end.
Definition exported_services (raw : option bytes) : list (bytes * Z) :=
  match raw with
  | Some raw => omap exported_service (csv raw)
  | None => []
  end.

(** What a relay does towards the guest. *)
Inductive guest_event :=
| GuestConnect (vm_addr : bytes) (port : Z)
| GuestBytes (data : bytes).

Section relay.
Context (mac_hex : bytes -> bytes -> bytes).

(** The token check of [relay_one]: the sender's Workshop and the bytes that
    follow the token line.  [in_time] says whether the line came before
    [TOKEN_READ_TIMEOUT]. *)
Definition check_token (key : bytes) (in_time : bool) (client : bytes) (now : Z)
  : res (bytes * bytes) :=
  if negb in_time then Err "timeout en attente du jeton d'escouade"
  else
    '(line, rest) ← read_line client;
    if is_empty line then Err "connexion fermee avant reception du jeton d'escouade"
    else match verify mac_hex key (trim_end line) now with
         | Ok workshop_name => Ok (workshop_name, rest)
         | Err _ => Err "jeton d'escouade invalide"
         | Panic => Panic
         end.

(** [fn relay_one]: the events towards the guest, and how it ends. *)
Definition relay_one (squad_key : option bytes) (in_time guest_up : bool)
    (vm_addr : bytes) (port : Z) (client : bytes) (now : Z) : list guest_event * res unit :=
  let authenticated :=
    match squad_key with
    | Some key => '(_, rest) ← check_token key in_time client now; Ok rest
    | None => Ok client
    end in
  match authenticated with
  | Ok rest =>
      if guest_up then ([GuestConnect vm_addr port; GuestBytes rest], Ok tt)
      else ([], Err "connexion au guest refusee")
  | Err e => ([], Err e)
  | Panic => ([], Panic)
  end.
End relay.

(** What the sender ([tunnel_inner], [forward_rewriting_with_preamble]) writes
    before any relayed byte. *)
Definition preamble_bytes (preamble : option bytes) : bytes :=
  match preamble with Some token => token ++ [10] | None => [] end.

Lemma white_space_last :
  Forall (fun w => match rev w with b :: _ => ~ is_hex_digit b | [] => True end) white_space.
Proof. unfold is_hex_digit. repeat (constructor; [vm_compute; intuition congruence|]). constructor. Qed.

Lemma mint_trimmed mac `{!HexMac mac} k name ttl now : trimmed (mint mac k name ttl now).
Proof.
  unfold mint. set (e := (now + ttl) mod (U64_MAX + 1)).
  pose proof (mac_hex_digits k (signed_text name e)) as Hd.
  pose proof (mac_hex_length k (signed_text name e)) as Hl.
  fold (sign mac k name e) in Hd, Hl.
  destruct (sign mac k name e) as [|c s _] using rev_ind; [done|].
  apply Forall_app in Hd as [_ [Hc _]%Forall_cons].
  apply trimmed_no_suffix. intros p w Hw Heq.
  destruct w as [|b w' _] using rev_ind.
  - revert Hw. rewrite list_elem_of_In. cbn. intros Hw. repeat destruct Hw as [?|Hw]; done.
  - rewrite !app_assoc in Heq. apply app_inj_tail in Heq as [_ <-].
    pose proof white_space_last as Hlast. rewrite Forall_forall in Hlast.
    specialize (Hlast _ Hw). rewrite rev_app_distr in Hlast. by apply Hlast.
Qed.

Lemma mint_utf8 mac `{!HexMac mac} k name ttl now :
  utf8_valid name = true -> 0 <= now -> 0 <= ttl -> now + ttl <= U64_MAX ->
  utf8_valid (mint mac k name ttl now ++ [10]) = true.
Proof.
  intros Hn Hnow Httl Hmax. unfold mint. rewrite Z.mod_small by (unfold U64_MAX in *; lia).
  rewrite (utf8_valid_cut_ascii _ 10 []) by lia. cbn [B app].
  rewrite (utf8_valid_cut_ascii name 124), Hn by lia.
  rewrite (utf8_valid_cut_ascii (dec _) 124) by lia.
  rewrite (utf8_valid_ascii (dec _)), (utf8_valid_ascii (sign _ _ _ _)); [done| |].
  - unfold sign. apply hex_ascii, mac_hex_digits.
  - apply Forall_forall. intros b Hb. apply dec_digits_all in Hb; lia.
Qed.

Lemma check_token_mint mac `{!HexMac mac} k k' name ttl now now' payload :
  utf8_valid name = true -> 124 ∉ name -> 10 ∉ name ->
  0 <= now -> 0 <= ttl -> now + ttl <= U64_MAX ->
  check_token mac k' true (preamble_bytes (Some (mint mac k name ttl now)) ++ payload) now' =
  if bool_decide (sign mac k' name (now + ttl) = sign mac k name (now + ttl)) && (now' <=? now + ttl)
  then Ok (name, payload) else Err "jeton d'escouade invalide".
Proof.
  intros Hu Hb Hnl Hnow Httl Hmax. unfold check_token, preamble_bytes. cbn [negb].
  rewrite <- app_assoc. cbn [app].
  rewrite read_line_nl by (auto using mint_one_line, mint_utf8). cbn [mbind res_bind].
  replace (is_empty _) with false by (by destruct (mint mac k name ttl now)).
  rewrite trim_end_snoc by (apply (bool_decide_unpack _); by vm_compute) || lia.
  rewrite trim_end_id by apply mint_trimmed, _.
  rewrite verify_other by done. case_bool_decide; cbn [andb]; [|done].
  by rewrite Z.leb_antisym; destruct (now + ttl <? now').
Qed.

(** ** Claims *)

(** With a squad key, the guest is connected to only when the first line of
    the connection carries a token that verifies, and then receives exactly the
    bytes after that line: no byte, and no part of the token, reaches the guest
    of an unauthenticated connection. *)
Theorem ingress_authenticated mac key in_time up vm port client now :
  match relay_one mac (Some key) in_time up vm port client now with
  | (ev, Ok _) =>
      exists line rest name,
        in_time = true /\ client = line ++ rest /\
        verify mac key (trim_end line) now = Ok name /\
        ev = [GuestConnect vm port; GuestBytes rest]
  | (ev, _) => ev = []
  end.
Proof.
  unfold relay_one, check_token. destruct in_time; cbn [negb]; [|done].
  destruct (read_line client) as [[line rest]| |] eqn:E; cbn [mbind res_bind]; [|done..].
  apply read_line_app in E. destruct (is_empty line); cbn; [done|].
  destruct (verify _ _ _ _) as [name| |] eqn:Ev; cbn; [|done..].
  destruct up; [|done]. exists line, rest, name. done.
Qed.

(** C29: what one net-proxy sends to another's ingress, the token it minted with the key of
    its campaign, a line feed, then the relayed bytes.  A receiver with a key takes it exactly
    when the line comes in time, the token has not expired, and the key gives the same
    signature, as the key of the same campaign does: its guest then receives the relayed bytes
    unchanged, and otherwise nothing at all.  A receiver without a campaign checks nothing, and
    its guest receives the line of the token before the relayed bytes. *)
Theorem squad_end_to_end mac `{!HexMac mac} k receiver name ttl now now' in_time vm port payload :
  utf8_valid name = true -> 124 ∉ name -> 10 ∉ name ->
  0 <= now -> 0 <= ttl -> now + ttl <= U64_MAX ->
  let token := mint mac k name ttl now in
  let relayed := relay_one mac receiver in_time true vm port (preamble_bytes (Some token) ++ payload) now' in
  match receiver with
  | Some k' =>
      if in_time && bool_decide (sign mac k' name (now + ttl) = sign mac k name (now + ttl)) && (now' <=? now + ttl)
      then relayed = ([GuestConnect vm port; GuestBytes payload], Ok tt)
      else exists e, relayed = ([], Err e)
  | None => relayed = ([GuestConnect vm port; GuestBytes (token ++ [10] ++ payload)], Ok tt)
  end.
Proof.
  intros Hu Hb Hn H0 Ht Hm token relayed.
  assert (Hline : preamble_bytes (Some token) ++ payload = token ++ [10] ++ payload) by (symmetry; apply app_assoc).
  unfold relayed, relay_one. destruct receiver as [k'|]; [|by rewrite Hline].
  destruct in_time; cbn [andb]; [|by eexists].
  unfold token. rewrite (check_token_mint mac k k' name) by done. by destruct (bool_decide _ && _); [|eexists].
Qed.

(** Two Workshops of one campaign; a key of another; and a receiver that has none. *)
Lemma squad_end_to_end_witness :
  let sent := preamble_bytes (Some (mint toy_mac (B "key") (B "ws-a") 900 1700000000)) ++ B "hello" in
  let relayed receiver := relay_one toy_mac receiver true true (B "127.0.0.1") 8080 sent 1700000010 in
  relayed (Some (B "key")) = ([GuestConnect (B "127.0.0.1") 8080; GuestBytes (B "hello")], Ok tt) /\
  (exists e, relayed (Some (B "other campaign")) = ([], Err e)) /\
  relayed None = ([GuestConnect (B "127.0.0.1") 8080; GuestBytes sent], Ok tt).
Proof.
  intros sent relayed.
  assert (H124 : 124 ∉ B "ws-a") by (apply (bool_decide_unpack _); vm_compute; exact I).
  assert (H10 : 10 ∉ B "ws-a") by (apply (bool_decide_unpack _); vm_compute; exact I).
  pose proof (fun receiver => squad_end_to_end toy_mac (B "key") receiver (B "ws-a") 900 1700000000 1700000010 true (B "127.0.0.1") 8080 (B "hello")
    eq_refl H124 H10 ltac:(lia) ltac:(lia) ltac:(vm_compute; discriminate)) as H.
  split_and!; [exact (H (Some (B "key")))|exact (H (Some (B "other campaign")))|exact (H None)].
Defined.
