(* ===== verification/Upstream.v ===== *)
(** * Outgoing connections and the parent proxy

    [crates/net-proxy/src/upstream.rs]: the parent proxy's configuration, the
    choice between a direct connection and the parent proxy, and the [CONNECT]
    handshake with it.  The network is an argument: a dialled endpoint either
    refuses, or accepts and sends back its bytes in chunks, one per read. *)

From S2P Require Import Prelude RustStr Utf8 Stream Allowlist Internal.

Record UpstreamProxy := mkUpstream {
  up_addr : bytes;
  up_auth : option bytes }.

(** [UpstreamProxy::from_env]; [base64] is the [base64] crate's standard
    encoding. *)
Definition upstream_from_env (base64 : bytes -> bytes) (env : string -> option bytes)
  : option UpstreamProxy :=
  a ← env "ATELIER_UPSTREAM_PROXY";
  let a := trim a in
  if is_empty a then None
  else
    let auth := (fun creds => B "Basic " ++ base64 (trim creds)) <$>
                  non_blank (env "ATELIER_UPSTREAM_PROXY_AUTH") in
    Some (mkUpstream a auth).

(** [fn host], [fn port]. *)
Definition up_host (p : UpstreamProxy) : bytes :=
  match rsplit_once 58 (up_addr p) with Some (h, _) => h | None => up_addr p end.
Definition up_port (p : UpstreamProxy) : Z :=
  default 0 (match rsplit_once 58 (up_addr p) with
             | Some (_, q) => parse_u16 q
             | None => None
             end).

(** [fn no_proxy_from_env]. *)
Definition no_proxy_from_env (env : string -> option bytes) : list bytes :=
  csv (default [] (env "ATELIER_NO_PROXY")).

(** ** The network *)

(** What [TcpStream::connect] is given: a (host, port) pair or an address text. *)
Inductive endpoint :=
| EHostPort (host : bytes) (port : Z)
| EAddr (a : bytes).

(** The effects of a connection handler, in order. *)
Inductive event :=
| Dial (e : endpoint)          (* a connection attempt *)
| SendUp (data : bytes)        (* bytes written on the outgoing connection *)
| SendClient (data : bytes)    (* bytes written back to the client *)
| Relay (rest : bytes)         (* bidirectional copy, from these client bytes on *)
| Denied (host : bytes).       (* the refusal is recorded for anomaly detection *)

(** ** The CONNECT handshake *)

Definition connect_request (p : UpstreamProxy) (host : bytes) (port : Z) : bytes :=
  let hp := host ++ B ":" ++ dec port in
  B "CONNECT " ++ hp ++ B " HTTP/1.1" ++ [13; 10] ++ B "Host: " ++ hp ++ [13; 10] ++
  match up_auth p with
  | Some auth => B "Proxy-Authorization: " ++ auth ++ [13; 10]
  | None => []
  end ++ B "Proxy-Connection: keep-alive" ++ [13; 10; 13; 10].

(** A [BufReader]: the bytes buffered, and the chunks the socket still has. *)
Record breader := mkReader { buffered : bytes; pending : list bytes }.

(** [read_line] on a [BufReader]: reads chunks until a line feed is buffered. *)
Fixpoint buf_line (buf : bytes) (chunks : list bytes) : res (bytes * breader) :=
  if bool_decide (10 ∈ buf) then
    '(l, r) ← read_line buf; Ok (l, mkReader r chunks)
  else match chunks with
       | c :: cs => buf_line (buf ++ c) cs
       | [] => '(l, _) ← read_line buf; Ok (l, mkReader [] [])
       end.
Definition reader_line (r : breader) : res (bytes * breader) := buf_line (buffered r) (pending r).

(** The header loop of the reply: lines up to one that is exactly CRLF. *)
Fixpoint skip_headers (fuel : nat) (r : breader) : res breader :=
  match fuel with
  | O => Panic
  | S f =>
      '(line, r) ← reader_line r;
      if is_empty line then
        Err "proxy parent a ferme la connexion avant la fin de la reponse CONNECT"
      else if beq line [13; 10] then Ok r else skip_headers f r
  end.

Definition reader_size (r : breader) : nat :=
  (length (buffered r) + length (concat (pending r)) + length (pending r))%nat.

(** The reply part of [connect_via_upstream]: the status line, the headers, then
    [into_inner], which keeps the socket and drops the buffer. *)
Definition connect_reply (chunks : list bytes) : res (list bytes) :=
  let r := mkReader [] chunks in
  '(status_line, r) ← reader_line r;
  let ok := match split_whitespace status_line !! 1%nat with
            | Some code => starts_with code (B "2")
            | None => false
            end in
  if negb ok then Err "proxy parent a refuse le CONNECT"
  else r ← skip_headers (S (reader_size r)) r; Ok (pending r).

(** ** Connecting *)

(** The network: the [n]-th dial to [e] is refused ([None]) or accepted, with
    the chunks the peer will send. *)
Abbreviation network := (nat -> endpoint -> option (list bytes)).

(** [upstream::connect]: the events of the attempt and, on success, what the
    peer will send. *)
Definition connect (net : network) (n : nat) (host : bytes) (port : Z)
    (upstream : option UpstreamProxy) (no_proxy : list bytes)
  : list event * option (list bytes) :=
  let direct := ([Dial (EHostPort host port)], net n (EHostPort host port)) in
  match upstream with
  | Some p =>
      if negb (is_allowed host no_proxy) then
        let dial := Dial (EAddr (up_addr p)) in
        match net n (EAddr (up_addr p)) with
        | Some chunks => ([dial; SendUp (connect_request p host port)],
                          res_ok (connect_reply chunks))
        | None => ([dial], None)
        end
      else direct
  | None => direct
  end.

(** Where [connect] dials. *)
Definition next_hop (host : bytes) (port : Z) (upstream : option UpstreamProxy)
    (no_proxy : list bytes) : endpoint :=
  match upstream with
  | Some p => if is_allowed host no_proxy then EHostPort host port else EAddr (up_addr p)
  | None => EHostPort host port
  end.

Lemma connect_dials net n host port up np e :
  Dial e ∈ (connect net n host port up np).1 -> e = next_hop host port up np.
Proof.
  unfold connect, next_hop. destruct up as [p|]; [|set_solver].
  destruct (is_allowed host np); cbn [negb]; [set_solver|].
  destruct (net n _); set_solver.
Qed.

(** A connection opens with its dial and writes nothing before it. *)
Lemma connect_events net n host port up np :
  exists tl, (connect net n host port up np).1 = Dial (next_hop host port up np) :: tl /\
    forall ev, ev ∈ tl -> exists p, up = Some p /\ ev = SendUp (connect_request p host port).
Proof.
  unfold connect, next_hop. destruct up as [p|]; [|exists []; set_solver].
  destruct (is_allowed host np); cbn [negb]; [exists []; set_solver|].
  destruct (net n _); eexists; (split; [reflexivity|]); set_solver.
Qed.

Lemma buf_line_suffix buf chunks l r :
  buf_line buf chunks = Ok (l, r) -> exists used, chunks = used ++ pending r.
Proof.
  revert buf; induction chunks as [|c cs IH]; intros buf; cbn [buf_line].
  - case_bool_decide; destruct (read_line buf) as [[??]| |]; cbn; try done;
      intros [= <- <-]; by exists [].
  - case_bool_decide; [|intros [used ->]%IH; by exists (c :: used)].
    destruct (read_line buf) as [[??]| |]; cbn; try done. intros [= <- <-]. by exists [].
Qed.

Lemma skip_headers_suffix fuel r r' :
  skip_headers fuel r = Ok r' -> exists used, pending r = used ++ pending r'.
Proof.
  revert r; induction fuel as [|f IH]; intros r; cbn [skip_headers]; [done|].
  destruct (reader_line r) as [[l r1]| |] eqn:E; cbn [mbind res_bind]; try done.
  apply buf_line_suffix in E as [u1 ->]. destruct (is_empty l); [done|].
  destruct (beq l _); [intros [= <-]; by exists u1|].
  intros [u2 ->]%IH. exists (u1 ++ u2). by rewrite app_assoc.
Qed.

(** After the handshake the tunnel carries on with whole chunks the socket had
    not delivered yet. *)
Lemma connect_reply_suffix chunks rest :
  connect_reply chunks = Ok rest -> exists used, chunks = used ++ rest.
Proof.
  unfold connect_reply. destruct (reader_line _) as [[l r1]| |] eqn:E; cbn [mbind res_bind]; try done.
  apply buf_line_suffix in E as [u1 Hu]. cbn in Hu. destruct (negb _); [done|].
  destruct (skip_headers _ _) as [r2| |] eqn:E2; cbn; try done. intros [= <-].
  apply skip_headers_suffix in E2 as [u2 Hu2]. exists (u1 ++ u2).
  by rewrite <- app_assoc, <- Hu2.
Qed.

(** Bytes of the destination that arrive in the same chunk as the end of the
    parent proxy's reply stay in the dropped buffer: a server that speaks first
    loses its greeting. *)
Lemma connect_reply_drops_early_bytes :
  connect_reply [B "HTTP/1.1 200 OK" ++ [13; 10; 13; 10] ++ B "SSH-2.0"; B "tail"] =
    Ok [B "tail"] /\
  connect_reply [B "HTTP/1.1 200 OK" ++ [13; 10; 13; 10]; B "SSH-2.0"; B "tail"] =
    Ok [B "SSH-2.0"; B "tail"].
Proof. split; vm_compute; reflexivity. Qed.
