(* ===== verification/EgressProxy.v ===== *)
(** * The egress proxy

    [crates/net-proxy/src/proxy.rs]: what happens to a connection of the guest,
    explicit proxying ([handle_connection]) and transparent TLS
    ([handle_transparent_tls_connection]).  A handler maps the bytes the client
    sends to the ordered list of its effects (dials, writes, relays, recorded
    refusals) and its result.  The network, the moments the destination hangs
    up, and the clock are arguments.  A write that fails ends the handler early
    with an error, so the trace is then a prefix of the one computed here. *)

From Stdlib Require Import Sorted.
From S2P Require Import Prelude RustStr Utf8 Stream Allowlist TlsSni NetHttp Internal Anomaly.
From S2P Require Import SquadToken Ingress Upstream.

Definition SNI_PEEK_ATTEMPTS : nat := 20.
Definition SNI_BUFFER : nat := 4096.

Definition crlf : bytes := [13; 10].

Definition FORBIDDEN_RESPONSE : bytes :=
  B "HTTP/1.1 403 Forbidden" ++ crlf ++ B "Content-Length: 0" ++ crlf ++
  B "Connection: close" ++ crlf ++ crlf.
Definition BAD_GATEWAY_RESPONSE : bytes :=
  B "HTTP/1.1 502 Bad Gateway" ++ crlf ++ B "Content-Length: 0" ++ crlf ++
  B "Connection: close" ++ crlf ++ crlf.
Definition CONNECT_ACK : bytes := B "HTTP/1.1 200 Connection Established" ++ crlf ++ crlf.

(** [struct EgressConfig]; the shared [allowlist] and [simulator] are the values
    the handler reads under their locks. *)
Record EgressConfig := mkConfig {
  allowlist : list bytes;
  upstream : option UpstreamProxy;
  no_proxy : list bytes;
  internal : InternalRoutes;
  identity_proxy : option UpstreamProxy;
  simulator : option addr;
  anomaly : option AnomalyDetector;
  squad_token_key : option bytes;
  workshop_name : bytes }.

Definition is_connect (h : RequestHead) : bool := eq_ignore_ascii_case (method h) (B "CONNECT").

(** The squad token line, when there is one. *)
Definition send_preamble (preamble : option bytes) : list event :=
  match preamble with Some _ => [SendUp (preamble_bytes preamble)] | None => [] end.

(** The [anomaly.record_denial] call. *)
Definition deny (c : EgressConfig) (host : bytes) : list event :=
  match anomaly c with Some _ => [Denied host] | None => [] end.

Section proxy.
Context (mac_hex : bytes -> bytes -> bytes).
Context (net : network).
(** Whether the destination has hung up when round [i] of the rewriting relay
    looks ([downstream.is_finished()]). *)
Context (hung : nat -> bool).

(** ** Tunnels *)

(** [fn tunnel_inner]; [s] is what the client sends after the request head. *)
Definition tunnel_inner (s host : bytes) (port : Z) (up : option UpstreamProxy)
    (np : list bytes) (send_connect_ack : bool) (preamble : option bytes) : list event :=
  let '(evs, conn) := connect net 0 host port up np in
  match conn with
  | None => evs ++ (if send_connect_ack then [SendClient BAD_GATEWAY_RESPONSE] else [])
  | Some _ =>
      evs ++ send_preamble preamble ++
      (if send_connect_ack then [SendClient CONNECT_ACK] else []) ++ [Relay s]
  end.

(** [fn tunnel], [fn tunnel_with_preamble], [fn tunnel_transparent]. *)
Definition tunnel (s host : bytes) (port : Z) up np : list event :=
  tunnel_inner s host port up np true None.
Definition tunnel_with_preamble (s host : bytes) (port : Z) (preamble : option bytes)
  : list event :=
  tunnel_inner s host port None [] true preamble.
Definition tunnel_transparent (s host : bytes) (port : Z) up np : list event :=
  tunnel_inner s host port up np false None.

(** ** Plain HTTP *)

(** [fn forward]. *)
Definition forward (s request_bytes host : bytes) (port : Z) up np : list event :=
  let '(evs, conn) := connect net 0 host port up np in
  match conn with
  | None => evs ++ [SendClient BAD_GATEWAY_RESPONSE]
  | Some _ => evs ++ [SendUp request_bytes; Relay s]
  end.

(** [match pending.take() { ... }]: the head already read, or the next one. *)
Definition next_request (pending : option RequestHead) (s : bytes)
  : res (option (RequestHead * bytes)) :=
  match pending with Some h => Ok (Some (h, s)) | None => read_request_head s end.

(** A (re)connection of the rewriting relay, and whether it succeeded. *)
Definition redial (n : nat) (host : bytes) (port : Z) (preamble : option bytes)
  : list event * bool :=
  let '(evs, conn) := connect net n host port None [] in
  match conn with
  | None => (evs ++ [SendClient BAD_GATEWAY_RESPONSE], false)
  | Some _ => (evs ++ send_preamble preamble, true)
  end.

(** The [while let Some(current)] loop of [forward_rewriting_with_preamble]:
    round [i], [n] connections dialled so far.  Every round after the first
    reads a head, so [length s] rounds are enough; running out of them would
    be a [Panic]. *)
Fixpoint rewrite_loop (fuel i n : nat) (host : bytes) (port : Z) (preamble : option bytes)
    (pending : option RequestHead) (s : bytes) : list event * res unit :=
  match fuel with
  | O => ([], Panic)
  | S f =>
      match next_request pending s with
      | Err e => ([], Err e)
      | Panic => ([], Panic)
      | Ok None => ([], Ok tt)
      | Ok (Some (current, s)) =>
          let '(evs, live) :=
            if hung i then redial n host port preamble else ([], true) in
          if negb live then (evs, Ok tt)
          else
            let '(body, r) := copy_body s (body_framing current) in
            let evs := evs ++ [SendUp (to_origin_form current); SendUp body] in
            match r with
            | Ok rest =>
                let n := if hung i then S n else n in
                let '(evs', r) := rewrite_loop f (S i) n host port preamble None rest in
                (evs ++ evs', r)
            | Err e => (evs, Err e)
            | Panic => (evs, Panic)
            end
      end
  end.

(** [fn forward_rewriting_with_preamble] and [fn forward_rewriting]. *)
Definition forward_rewriting_with_preamble (s : bytes) (first : RequestHead) (host : bytes)
    (port : Z) (preamble : option bytes) : list event * res unit :=
  let '(evs, live) := redial 0 host port preamble in
  if negb live then (evs, Ok tt)
  else
    let '(evs', r) := rewrite_loop (S (S (length s))) 0 1 host port preamble (Some first) s in
    (evs ++ evs', r).
Definition forward_rewriting (s : bytes) (first : RequestHead) (host : bytes) (port : Z) :=
  forward_rewriting_with_preamble s first host port None.

(** ** The explicit proxy *)

(** The proxy an authorised [CONNECT] or TLS connection goes through. *)
Definition egress_hop (c : EgressConfig) : option UpstreamProxy * list bytes :=
  match identity_proxy c with
  | Some ip => (Some ip, [])
  | None => (upstream c, no_proxy c)
  end.

(** [fn handle_connection]; [now] is the clock when a token is minted. *)
Definition handle_connection (c : EgressConfig) (now : Z) (s : bytes) : list event * res unit :=
  match read_request_head s with
  | Err e => ([], Err e)
  | Panic => ([], Panic)
  | Ok None => ([], Ok tt)
  | Ok (Some (head, s)) =>
  match destination head with
  | Panic => ([], Panic)
  | Err _ => ([SendClient FORBIDDEN_RESPONSE], Ok tt)
  | Ok (host, port) =>
  match resolve_squad (internal c) host with
  | Some (target_host, target_port) =>
      let preamble :=
        (fun key => mint mac_hex key (workshop_name c) DEFAULT_TTL_SECS now) <$>
          squad_token_key c in
      if is_connect head then (tunnel_with_preamble s target_host target_port preamble, Ok tt)
      else forward_rewriting_with_preamble s head target_host target_port preamble
  | None =>
  match resolve (internal c) host with
  | Some (target_host, target_port) =>
      if is_connect head then (tunnel s target_host target_port None [], Ok tt)
      else forward_rewriting s head target_host target_port
  | None =>
  match (if eq_ignore_ascii_case host (B "simulator") then simulator c else None) with
  | Some (target_host, target_port) =>
      if is_connect head then (tunnel s target_host target_port None [], Ok tt)
      else (forward s (to_origin_form head) target_host target_port None [], Ok tt)
  | None =>
      if negb (is_allowed host (allowlist c)) then
        (deny c host ++ [SendClient FORBIDDEN_RESPONSE], Ok tt)
      else if is_connect head then
        let '(hop, np) := egress_hop c in (tunnel s host port hop np, Ok tt)
      else match identity_proxy c with
           | Some ip => (forward s (raw head) (up_host ip) (up_port ip) None [], Ok tt)
           | None => (forward s (raw head) host port (upstream c) (no_proxy c), Ok tt)
           end
  end end end end end.

(** ** Transparent TLS *)

(** [fn peek_sni]: the outcome of each [peek] in turn, [None] for an I/O error;
    a [peek] sees the first bytes of the connection, up to the buffer. *)
Fixpoint peek_sni (attempts : nat) (peeks : list (option bytes)) : res (option bytes) :=
  match attempts, peeks with
  | S k, Some seen :: later =>
      let buf := take SNI_BUFFER seen in
      if is_empty buf then Ok None
      else match parse_sni buf with
           | Ok sni => Ok (Some sni)
           | Panic => Panic
           | Err _ =>
               incomplete ← is_incomplete buf;
               if (incomplete : bool) then peek_sni k later else Ok None
           end
  | _, _ => Ok None
  end.

(** [fn handle_transparent_tls_connection_on_port]; [s] is what the client
    sends, none of it consumed by the peeks. *)
Definition handle_transparent_tls_connection_on_port (c : EgressConfig) (port : Z)
    (peeks : list (option bytes)) (s : bytes) : list event * res unit :=
  match peek_sni SNI_PEEK_ATTEMPTS peeks with
  | Err e => ([], Err e)
  | Panic => ([], Panic)
  | Ok None => ([], Ok tt)
  | Ok (Some host) =>
      if negb (is_allowed host (allowlist c)) then (deny c host, Ok tt)
      else let '(hop, np) := egress_hop c in (tunnel_transparent s host port hop np, Ok tt)
  end.
Definition handle_transparent_tls_connection (c : EgressConfig) peeks s :=
  handle_transparent_tls_connection_on_port c 443 peeks s.
End proxy.
Arguments redial : simpl never.

(** ** Where a handler dials *)

Ltac elem_of_events :=
  repeat match goal with
         | H : _ ∈ _ ++ _ |- _ => apply elem_of_app in H as [H|H]
         | H : _ ∈ _ :: _ |- _ => apply elem_of_cons in H as [H|H]
         | H : _ ∈ [] |- _ => by apply not_elem_of_nil in H
         end.

Lemma send_preamble_no_dial e p : Dial e ∉ send_preamble p.
Proof. destruct p; cbn; set_solver. Qed.

Lemma deny_no_dial c e h : Dial e ∉ deny c h.
Proof. unfold deny. destruct (anomaly c); set_solver. Qed.

Lemma tunnel_inner_dials net s host port up np ack p e :
  Dial e ∈ tunnel_inner net s host port up np ack p -> e = next_hop host port up np.
Proof.
  unfold tunnel_inner. pose proof (connect_dials net 0 host port up np e) as Hc.
  destruct (connect _ _ _ _ _ _) as [evs [chunks|]]; intros H;
    pose proof (send_preamble_no_dial e p); destruct ack; elem_of_events; auto; done.
Qed.

Lemma tunnel_inner_relays net s host port up np ack p data :
  Relay data ∈ tunnel_inner net s host port up np ack p -> data = s.
Proof.
  unfold tunnel_inner. pose proof (connect_events net 0 host port up np) as (tl & Htl & Hev).
  destruct (connect _ _ _ _ _ _) as [evs conn]. cbn in Htl. subst evs.
  assert (Hn : Relay data ∉ Dial (next_hop host port up np) :: tl).
  { intros [?|Hin]%elem_of_cons; [done|]. by apply Hev in Hin as (? & _ & ?). }
  destruct conn; intros H; destruct ack, p; cbn in H; elem_of_events; try done; try set_solver;
    congruence.
Qed.

Lemma forward_dials net s bs host port up np e :
  Dial e ∈ forward net s bs host port up np -> e = next_hop host port up np.
Proof.
  unfold forward. pose proof (connect_dials net 0 host port up np e) as Hc.
  destruct (connect _ _ _ _ _ _) as [evs [chunks|]]; intros H; elem_of_events; auto; done.
Qed.

Lemma redial_dials net n host port p e :
  Dial e ∈ (redial net n host port p).1 -> e = EHostPort host port.
Proof.
  unfold redial. pose proof (connect_dials net n host port None [] e) as Hc.
  destruct (connect _ _ _ _ _ _) as [evs [chunks|]]; intros H; cbn in *;
    pose proof (send_preamble_no_dial e p); elem_of_events; auto; done.
Qed.

Lemma rewrite_loop_dials net hung fuel i n host port p pend s e :
  Dial e ∈ (rewrite_loop net hung fuel i n host port p pend s).1 -> e = EHostPort host port.
Proof.
  revert i n pend s; induction fuel as [|f IH]; intros i n pend s; cbn [rewrite_loop fst];
    [intros H; elem_of_events|].
  destruct (next_request pend s) as [[[cur s']|]| |]; [|cbn; intros H; elem_of_events..].
  assert (Hd : Dial e ∈ (if hung i then redial net n host port p else ([], true)).1 ->
               e = EHostPort host port)
    by (destruct (hung i); [apply redial_dials|cbn; intros H; elem_of_events]).
  destruct (if hung i then _ else _) as [evs live]; cbn in *; destruct live; cbn in *; [|done].
  destruct (copy_body s' _) as [body [rest| |]].
  - specialize (IH (S i) (if hung i then S n else n) None rest).
    destruct (rewrite_loop _ _ _ _ _ _ _ _ _) as [evs' r]; cbn in *.
    intros H; elem_of_events; auto; done.
  - cbn. intros H; elem_of_events; auto; done.
  - cbn. intros H; elem_of_events; auto; done.
Qed.

Lemma forward_rewriting_dials net hung s h host port p e :
  Dial e ∈ (forward_rewriting_with_preamble net hung s h host port p).1 ->
  e = EHostPort host port.
Proof.
  unfold forward_rewriting_with_preamble.
  pose proof (redial_dials net 0 host port p e) as Hd.
  destruct (redial _ _ _ _ _) as [evs [|]]; cbn [fst negb] in *; [|done].
  pose proof (rewrite_loop_dials net hung (S (S (length s))) 0 1 host port p (Some h) s e) as Hl.
  destruct (rewrite_loop _ _ _ _ _ _ _ _ _) as [evs' r]; cbn [fst] in *.
  intros H; elem_of_events; auto.
Qed.

(** ** The egress policy *)

(** The endpoints a client that asks for [host:port] may be connected to. *)
Inductive authorised (c : EgressConfig) (connect : bool) (host : bytes) (port : Z)
  : endpoint -> Prop :=
| auth_squad h p : resolve_squad (internal c) host = Some (h, p) ->
    authorised c connect host port (EHostPort h p)
| auth_internal h p : resolve_squad (internal c) host = None ->
    resolve (internal c) host = Some (h, p) ->
    authorised c connect host port (EHostPort h p)
| auth_simulator h p : resolve (internal c) host = None ->
    eq_ignore_ascii_case host (B "simulator") = true -> simulator c = Some (h, p) ->
    authorised c connect host port (EHostPort h p)
| auth_identity_connect ip : connect = true -> is_allowed host (allowlist c) = true ->
    identity_proxy c = Some ip ->
    authorised c connect host port (EAddr (up_addr ip))
| auth_identity_plain ip : connect = false -> is_allowed host (allowlist c) = true ->
    identity_proxy c = Some ip ->
    authorised c connect host port (EHostPort (up_host ip) (up_port ip))
| auth_parent up : is_allowed host (allowlist c) = true -> identity_proxy c = None ->
    upstream c = Some up -> is_allowed host (no_proxy c) = false ->
    authorised c connect host port (EAddr (up_addr up))
| auth_direct : is_allowed host (allowlist c) = true -> identity_proxy c = None ->
    (upstream c = None \/ is_allowed host (no_proxy c) = true) ->
    authorised c connect host port (EHostPort host port).
#[export] Hint Constructors authorised : atelier.


Lemma next_hop_authorised c cn host port :
  is_allowed host (allowlist c) = true -> identity_proxy c = None ->
  authorised c cn host port (next_hop host port (upstream c) (no_proxy c)).
Proof.
  intros Ha Hi. unfold next_hop. destruct (upstream c) as [up|] eqn:E; [|auto with atelier].
  destruct (is_allowed host (no_proxy c)) eqn:En; eauto with atelier.
Qed.

Lemma egress_hop_authorised c host port :
  is_allowed host (allowlist c) = true ->
  authorised c true host port (next_hop host port (egress_hop c).1 (egress_hop c).2).
Proof.
  intros Ha. unfold egress_hop. destruct (identity_proxy c) as [ip|] eqn:E; cbn.
  - eauto with atelier.
  - by apply next_hop_authorised.
Qed.

Lemma handle_connection_dials mac net hung c now s e :
  Dial e ∈ (handle_connection mac net hung c now s).1 ->
  exists head rest host port,
    read_request_head s = Ok (Some (head, rest)) /\ destination head = Ok (host, port) /\
    authorised c (is_connect head) host port e.
Proof.
  unfold handle_connection.
  destruct (read_request_head s) as [[[head rest]|]| |]; [|cbn; intros H; elem_of_events..].
  destruct (destination head) as [[host port]| |] eqn:Ed; [|cbn; intros H; elem_of_events; done..].
  intros H. exists head, rest, host, port. split_and!; [done|done|]. revert H.
  destruct (resolve_squad _ host) as [[h p]|] eqn:Es.
  { destruct (is_connect head).
    - intros ->%tunnel_inner_dials. cbn [next_hop]. auto with atelier.
    - intros ->%forward_rewriting_dials. auto with atelier. }
  destruct (resolve _ host) as [[h p]|] eqn:Er.
  { destruct (is_connect head).
    - intros ->%tunnel_inner_dials. cbn [next_hop]. eauto with atelier.
    - intros ->%forward_rewriting_dials. eauto with atelier. }
  destruct (if eq_ignore_ascii_case host _ then _ else _) as [[h p]|] eqn:Esim.
  { destruct (eq_ignore_ascii_case host _) eqn:Eh; [|done]. destruct (is_connect head).
    - intros ->%tunnel_inner_dials. cbn [next_hop]. eauto with atelier.
    - intros ->%forward_dials. cbn [next_hop]. eauto with atelier. }
  destruct (is_allowed host (allowlist c)) eqn:Ea; cbn [negb].
  2: { cbn. intros H. elem_of_events; [|done]. by apply deny_no_dial in H. }
  destruct (is_connect head) eqn:Ec.
  { pose proof (egress_hop_authorised c host port Ea) as Hh.
    destruct (egress_hop c) as [hop np]. intros ->%tunnel_inner_dials. done. }
  destruct (identity_proxy c) as [ip|] eqn:Ei; intros ->%forward_dials; [cbn [next_hop]; eauto with atelier|].
  by apply next_hop_authorised.
Qed.

(** The endpoints named by the configuration, whatever the client asks for. *)
Definition configured (c : EgressConfig) (e : endpoint) : Prop :=
  (exists h p, e = EHostPort h p /\ exists alias,
     resolve_squad (internal c) alias = Some (h, p) \/ resolve (internal c) alias = Some (h, p)) \/
  (exists h p, e = EHostPort h p /\ simulator c = Some (h, p)) \/
  (exists ip, identity_proxy c = Some ip /\
     (e = EAddr (up_addr ip) \/ e = EHostPort (up_host ip) (up_port ip))).

(** ** Traces of a squad connection *)

(** The grammar of what is sent to a squad target: every connection that opens
    starts with the token line [t]. *)
Inductive squad_trace (e : endpoint) (t : bytes) : list event -> Prop :=
| squad_done : squad_trace e t []
| squad_failed : squad_trace e t [Dial e; SendClient BAD_GATEWAY_RESPONSE]
| squad_dial l : squad_trace e t l -> squad_trace e t (Dial e :: SendUp t :: l)
| squad_send d l : squad_trace e t l -> squad_trace e t (SendUp d :: l)
| squad_client d l : squad_trace e t l -> squad_trace e t (SendClient d :: l)
| squad_relay d l : squad_trace e t l -> squad_trace e t (Relay d :: l).
#[export] Hint Constructors squad_trace : atelier.

Lemma squad_trace_dials e t evs pre e' post :
  squad_trace e t evs -> evs = pre ++ Dial e' :: post ->
  e' = e /\ (post = [SendClient BAD_GATEWAY_RESPONSE] \/ exists post', post = SendUp t :: post').
Proof.
  intros H; revert pre; induction H; intros pre Heq;
    destruct pre as [|x1 [|x2 pre]]; simplify_list_eq; eauto.
  - destruct pre; simplify_list_eq.
  - apply (IHsquad_trace []). done.
  - by apply (IHsquad_trace (x2 :: pre)).
  - apply (IHsquad_trace []). done.
  - by apply (IHsquad_trace (x2 :: pre)).
  - apply (IHsquad_trace []). done.
  - by apply (IHsquad_trace (x2 :: pre)).
Qed.

Lemma rewrite_loop_squad net hung fuel i n host port t pend s :
  squad_trace (EHostPort host port) (preamble_bytes (Some t))
    (rewrite_loop net hung fuel i n host port (Some t) pend s).1.
Proof.
  revert i n pend s; induction fuel as [|f IH]; intros i n pend s; cbn [rewrite_loop fst];
    [constructor|].
  destruct (next_request pend s) as [[[cur s']|]| |]; [|constructor..].
  unfold redial, connect.
  destruct (hung i); [destruct (net n _)|]; cbn [negb]; [| cbn; auto with atelier|];
    (destruct (copy_body s' _) as [body [rest| |]]; [|cbn; auto with atelier..]);
    specialize (IH (S i)).
  - specialize (IH (S n) None rest).
    destruct (rewrite_loop _ _ _ _ _ _ _ _ _) as [evs' r]; cbn in *. auto 6 with atelier.
  - specialize (IH n None rest).
    destruct (rewrite_loop _ _ _ _ _ _ _ _ _) as [evs' r]; cbn in *. auto with atelier.
Qed.

Lemma forward_rewriting_squad net hung s h host port t :
  squad_trace (EHostPort host port) (preamble_bytes (Some t))
    (forward_rewriting_with_preamble net hung s h host port (Some t)).1.
Proof.
  unfold forward_rewriting_with_preamble, redial, connect.
  destruct (net 0%nat _); cbn [negb]; [|constructor].
  pose proof (rewrite_loop_squad net hung (S (S (length s))) 0 1 host port t (Some h) s) as Hl.
  destruct (rewrite_loop _ _ _ _ _ _ _ _ _) as [evs' r]. cbn [fst app send_preamble] in *.
  by constructor.
Qed.

Lemma tunnel_squad net s host port t :
  squad_trace (EHostPort host port) (preamble_bytes (Some t))
    (tunnel_with_preamble net s host port (Some t)).
Proof.
  unfold tunnel_with_preamble, tunnel_inner, connect.
  destruct (net 0%nat _); cbn; auto with atelier.
Qed.

(** ** The rewriting relay *)

(** What is written on the outgoing connections. *)
Definition sent (evs : list event) : bytes :=
  concat (omap (fun ev => match ev with SendUp d => Some d | _ => None end) evs).

Lemma sent_app a b : sent (a ++ b) = sent a ++ sent b.
Proof. unfold sent. by rewrite omap_app, concat_app. Qed.

(** The requests of a keep-alive connection, as the framing of each delimits
    them: [pipelined pending s reqs] when [s], after the head already read, is
    exactly the requests [reqs] and then the end of the stream. *)
Inductive pipelined : option RequestHead -> bytes -> list (RequestHead * bytes) -> Prop :=
| pipe_end : pipelined None [] []
| pipe_request pend s h s1 body rest reqs :
    next_request pend s = Ok (Some (h, s1)) ->
    copy_body s1 (body_framing h) = (body, Ok rest) ->
    pipelined None rest reqs ->
    pipelined pend s ((h, body) :: reqs).

Definition replayed (rq : RequestHead * bytes) : bytes := raw rq.1 ++ rq.2.
Definition rewritten (rq : RequestHead * bytes) : bytes := to_origin_form rq.1 ++ rq.2.

Lemma pipelined_lossless pend s reqs :
  pipelined pend s reqs ->
  from_option raw [] pend ++ s = concat (replayed <$> reqs).
Proof.
  induction 1 as [|pend s h s1 body rest reqs Hn Hb _ IH]; [done|]. cbn in *.
  apply copy_body_app in Hb as ->. unfold replayed at 1. cbn.
  destruct pend as [h'|]; cbn in *.
  - injection Hn as -> ->. rewrite <- IH. by rewrite <- !app_assoc.
  - apply read_request_head_raw in Hn as ->. rewrite <- IH. by rewrite <- !app_assoc.
Qed.

Lemma next_request_shorter s h s1 : next_request None s = Ok (Some (h, s1)) -> (length s1 < length s)%nat.
Proof. apply read_request_head_nonempty. Qed.

Lemma rewrite_loop_total net hung fuel i n host port p (pend : option RequestHead) s :
  (length s + (if pend is Some _ then 1 else 0) < fuel)%nat ->
  no_panic (rewrite_loop net hung fuel i n host port p pend s).2.
Proof.
  revert i n pend s; induction fuel as [|f IH]; intros i n pend s Hf; [lia|]. cbn [rewrite_loop].
  destruct (next_request pend s) as [[[cur s1]|]| |] eqn:En; try done.
  2: { destruct pend; [done|]. by apply read_request_head_total in En. }
  destruct (if hung i then _ else _) as [evs live]. destruct live; cbn [negb]; [|done].
  pose proof (copy_body_total s1 (body_framing cur)) as Ht.
  destruct (copy_body s1 _) as [body [rest| |]] eqn:Eb; [|done|by destruct Ht].
  apply copy_body_app in Eb. apply (f_equal length) in Eb. rewrite length_app in Eb.
  specialize (IH (S i) (if hung i then S n else n) None rest).
  destruct (rewrite_loop _ _ f _ _ _ _ _ _) as [evs' r]; cbn in *. apply IH.
  destruct pend as [h|]; cbn in En; [injection En as -> ->; lia|].
  apply read_request_head_nonempty in En. lia.
Qed.

Lemma rewrite_loop_sent net hung fuel i n host port pend s :
  (forall m, net m (EHostPort host port) <> None) ->
  (rewrite_loop net hung fuel i n host port None pend s).2 = Ok tt ->
  exists reqs, pipelined pend s reqs /\
    sent (rewrite_loop net hung fuel i n host port None pend s).1 = concat (rewritten <$> reqs).
Proof.
  intros Hnet. revert i n pend s; induction fuel as [|f IH]; intros i n pend s; [done|].
  cbn [rewrite_loop].
  destruct (next_request pend s) as [[[cur s1]|]| |] eqn:En; try done.
  2: { intros _. exists []. destruct pend; [done|].
       apply read_request_head_eof in En as ->. by split; [constructor|]. }
  assert (Hd : exists evs, (if hung i then redial net n host port None else ([], true)) =
                           (evs, true) /\ sent evs = []).
  { destruct (hung i); [|by exists []]. unfold redial, connect.
    destruct (net n _) eqn:E; [|by apply Hnet in E]. by eexists. }
  destruct Hd as (evs & -> & Hs). cbn [negb].
  destruct (copy_body s1 _) as [body [rest| |]] eqn:Eb; [|done..].
  specialize (IH (S i) (if hung i then S n else n) None rest).
  destruct (rewrite_loop _ _ f _ _ _ _ _ _) as [evs' r]; cbn [fst snd] in *. intros ->.
  destruct (IH eq_refl) as (reqs & Hp & Hc). exists ((cur, body) :: reqs).
  split; [by econstructor|].
  rewrite !sent_app, Hs, Hc. cbn. unfold rewritten at 2, sent. cbn.
  by rewrite <- !app_assoc.
Qed.

(** ** Transparent TLS *)

Lemma peek_sni_prefix k s ns host :
  peek_sni k ((fun n => Some (take n s)) <$> ns) = Ok (Some host) -> parse_sni s = Ok host.
Proof.
  revert k; induction ns as [|n ns IH]; intros [|k]; try done. cbn [fmap list_fmap peek_sni].
  rewrite take_take. destruct (is_empty _); [done|].
  destruct (parse_sni (take _ s)) as [sni| |] eqn:E; [|cbn|done].
  - intros [= <-]. apply (parse_sni_app _ (drop (Nat.min SNI_BUFFER n) s)) in E.
    by rewrite take_drop in E.
  - destruct (is_incomplete _) as [[|]| |]; cbn; try done. apply IH.
Qed.

Lemma peek_sni_total k peeks : no_panic (peek_sni k peeks).
Proof.
  revert peeks; induction k as [|k IH]; intros [|[seen|] later]; try done. cbn [peek_sni].
  destruct (is_empty _); [done|]. pose proof (parse_sni_total (take SNI_BUFFER seen)) as Ht.
  destruct (parse_sni _); [done| |by destruct Ht].
  pose proof (is_incomplete_total (take SNI_BUFFER seen)) as [b Hb]. rewrite Hb.
  destruct b; cbn; [apply IH|done].
Qed.

Lemma peek_sni_reads ch pre post sni rest short big later k :
  wf_hello ch -> ch_extensions ch = pre ++ (0, server_name_data sni) :: post ->
  Forall (fun e => e.1 <> 0) pre -> utf8_valid sni = true ->
  (length (encode_record ch) <= SNI_BUFFER)%nat ->
  Forall (fun n => (0 < n < length (encode_record ch))%nat) short ->
  (length (encode_record ch) <= big)%nat -> (length short < k)%nat ->
  peek_sni k ((fun n => Some (take n (encode_record ch ++ rest))) <$> short ++ big :: later) =
  Ok (Some sni).
Proof.
  intros Hwf Hes Hpre Hu Hfit Hshort Hbig Hk.
  pose proof (parse_sni_record ch pre post sni Hwf Hes Hpre Hu) as Hrec.
  revert k Hk; induction Hshort as [|n short Hn _ IH]; intros [|k] Hk; cbn in Hk; try lia;
    cbn [app fmap list_fmap peek_sni]; rewrite take_take.
  - rewrite take_app, take_ge by lia. rewrite (parse_sni_app _ _ _ Hrec).
    destruct (is_empty _) eqn:E; [|done].
    destruct (encode_record ch) eqn:Er; [done|done].
  - rewrite take_app, (proj2 (Nat.sub_0_le _ _)), take_0, app_nil_r by lia.
    set (b := take _ (encode_record ch)).
    assert (Hinc : is_incomplete b = Ok true) by (apply record_prefix_incomplete; [done|lia]).
    assert (is_empty b = false) as ->.
    { subst b. destruct (encode_record ch) eqn:Er; [by cbn in Hn; lia|].
      destruct (Nat.min SNI_BUFFER n) eqn:Em; [|done]. unfold SNI_BUFFER in *. lia. }
    destruct (parse_sni b) as [x| |] eqn:Ep.
    + apply parse_sni_complete in Ep. congruence.
    + rewrite Hinc. cbn. apply IH. lia.
    + by apply parse_sni_total in Ep.
Qed.

(** ** Refusals *)

(** The client asks for a host that is no alias and is not allow-listed. *)
Definition refused (c : EgressConfig) (s : bytes) : Prop :=
  exists head rest host port,
    read_request_head s = Ok (Some (head, rest)) /\ destination head = Ok (host, port) /\
    resolve_squad (internal c) host = None /\ resolve (internal c) host = None /\
    (eq_ignore_ascii_case host (B "simulator") = false \/ simulator c = None) /\
    is_allowed host (allowlist c) = false.

Lemma refused_trace mac net hung c now s d :
  anomaly c = Some d -> refused c s ->
  exists host, handle_connection mac net hung c now s =
    ([Denied host; SendClient FORBIDDEN_RESPONSE], Ok tt).
Proof.
  intros Hd (head & rest & host & port & Hh & Hdst & Hsq & Hr & Hsim & Ha). exists host.
  unfold handle_connection, deny. rewrite Hh, Hdst, Hsq, Hr, Ha, Hd.
  destruct Hsim as [-> | ->]; [done|]. by destruct (eq_ignore_ascii_case _ _).
Qed.

(** The instants of the [record_denial] calls of connections handled in turn,
    each with its instant. *)
Definition denial_times mac net hung (c : EgressConfig) (now : Z) (conns : list (Z * bytes))
  : list Z :=
  conns ≫= (fun '(t, s) =>
    omap (fun ev => match ev with Denied _ => Some t | _ => None end)
      (handle_connection mac net hung c now s).1).

Lemma denial_times_all mac net hung c now conns :
  Forall (fun s => exists host, handle_connection mac net hung c now s =
                     ([Denied host; SendClient FORBIDDEN_RESPONSE], Ok tt)) conns.*2 ->
  denial_times mac net hung c now conns = conns.*1.
Proof.
  unfold denial_times. induction conns as [|[t s] conns IH]; [done|].
  intros [[host Hh] Hr]%Forall_cons. cbn in Hh |- *. rewrite Hh. cbn. f_equal. by apply IH.
Qed.

(** A run of refusals inside one window is a burst. *)
Lemma burst_all w th ts t_end :
  ts <> [] -> Forall (fun t => t_end - w <= t <= t_end) ts ->
  th <= Z.of_nat (length ts) -> burst w th [] ts.
Proof.
  intros Hne Hwin Hth. destruct ts as [|t ts _] using rev_ind; [done|].
  exists ts, t, []. split; [done|]. cbn [app]. unfold within.
  rewrite list_filter_all; [done|]. intros x Hx. rewrite Forall_forall in Hwin.
  pose proof (Hwin x Hx). assert (Ht : t ∈ ts ++ [t]) by set_solver. pose proof (Hwin t Ht). lia.
Qed.

(** ** Claims *)

(** Egress mediation.  Whatever bytes a client sends, every connection the
    explicit proxy opens goes to an endpoint the policy grants for the host and
    port of the request: the squad or internal target of that alias, the
    simulator once enabled, or, only for an allow-listed host, identity-proxy
    when configured, else the parent proxy or the host itself. *)
Theorem egress_mediated mac net hung c now s e :
  Dial e ∈ (handle_connection mac net hung c now s).1 ->
  exists head rest host port,
    read_request_head s = Ok (Some (head, rest)) /\ destination head = Ok (host, port) /\
    authorised c (is_connect head) host port e.
Proof. apply handle_connection_dials. Qed.

Definition sample_config : EgressConfig :=
  mkConfig [B "*.example.org"] None [] (mkRoutes ∅ ∅ {[B "peer" := (B "10.0.0.7", 9000)]})
    (Some (mkUpstream (B "127.0.0.1:3129") None)) None
    (Some (mkDetector [] 3 40 None false)) (Some (B "key")) (B "ws-a").
Definition accept_all : network := fun _ _ => Some [].
Definition request_to (host : string) : bytes :=
  B "GET http://" ++ B host ++ B "/ HTTP/1.1" ++ crlf ++ crlf.

Lemma egress_mediated_witness :
  exists head rest host port,
    read_request_head (request_to "a.example.org") = Ok (Some (head, rest)) /\
    destination head = Ok (host, port) /\
    authorised sample_config (is_connect head) host port (EHostPort (B "127.0.0.1") 3129).
Proof.
  apply (egress_mediated toy_mac accept_all (fun _ => false) sample_config 0
           (request_to "a.example.org") (EHostPort (B "127.0.0.1") 3129)).
  apply list_elem_of_In. vm_compute. left. reflexivity.
Defined.

(** With identity-proxy configured the guest cannot choose where net-proxy
    connects: every connection goes to an internal target, the enabled
    simulator or identity-proxy, never to a host named by the client. *)
Theorem identity_proxy_confines mac net hung c now s ip e :
  identity_proxy c = Some ip ->
  Dial e ∈ (handle_connection mac net hung c now s).1 ->
  configured c e.
Proof.
  intros Hip (head & rest & host & port & _ & _ & Ha)%handle_connection_dials.
  unfold configured. destruct Ha; simplify_eq; eauto 12.
Qed.

Lemma identity_proxy_confines_witness : configured sample_config (EHostPort (B "127.0.0.1") 3129).
Proof.
  apply (identity_proxy_confines toy_mac accept_all (fun _ => false) sample_config 0
           (request_to "a.example.org") (mkUpstream (B "127.0.0.1:3129") None)).
  - reflexivity.
  - apply list_elem_of_In. vm_compute. left. reflexivity.
Defined.

(** A guest that scans.  A request for a host that is no alias and is not
    allow-listed is refused with exactly a recorded denial and a 403, with no
    connection opened; and a run of such requests inside the detection window,
    at least [threshold] of them, requests the lockdown of the VM, once. *)
Theorem scan_locked_down mac net hung c now d a conns t_end :
  anomaly c = Some d -> supervisor_addr d = Some a ->
  denials d = [] -> triggered d = false -> 0 <= window d ->
  StronglySorted Z.le conns.*1 -> Forall (fun t => t_end - window d <= t <= t_end) conns.*1 ->
  conns <> [] -> threshold d <= Z.of_nat (length conns) ->
  Forall (refused c) conns.*2 ->
  Forall (fun s => exists host, handle_connection mac net hung c now s =
                     ([Denied host; SendClient FORBIDDEN_RESPONSE], Ok tt)) conns.*2 /\
  (record_all d (denial_times mac net hung c now conns)).2 = [lockdown_url a].
Proof.
  intros Hc Ha Hd Ht Hw Hs Hwin Hne Hth Hr.
  assert (Hall : Forall (fun s => exists host, handle_connection mac net hung c now s =
                     ([Denied host; SendClient FORBIDDEN_RESPONSE], Ok tt)) conns.*2)
    by (eapply Forall_impl; [exact Hr|]; intros s; by apply refused_trace with (d := d)).
  split; [done|]. rewrite (denial_times_all _ _ _ _ _ _ Hall).
  destruct (record_all_lockdown d a conns.*1) as [[_ H]|[[] _]]; [done..|].
  apply burst_all with t_end; [by destruct conns|done|by rewrite length_fmap].
Qed.

Lemma scan_locked_down_witness :
  let d := mkDetector [] 2 40 (Some (B "127.0.0.1:1")) false in
  let c := mkConfig [B "*.example.org"] None [] no_routes None None (Some d) None [] in
  let conns := [(5, request_to "evil.com"); (9, request_to "worse.net")] in
  Forall (fun s => exists host, handle_connection toy_mac accept_all (fun _ => false) c 0 s =
                     ([Denied host; SendClient FORBIDDEN_RESPONSE], Ok tt)) conns.*2 /\
  (record_all d (denial_times toy_mac accept_all (fun _ => false) c 0 conns)).2 =
    [lockdown_url (B "127.0.0.1:1")].
Proof.
  intros d c conns.
  apply (scan_locked_down toy_mac accept_all (fun _ => false) c 0 d (B "127.0.0.1:1") conns 9);
    try reflexivity; try discriminate; try (vm_compute; discriminate).
  - cbn; repeat constructor; lia.
  - cbn; repeat constructor; lia.
  - repeat constructor; do 4 eexists; (split; [vm_compute; reflexivity|]);
      (split; [vm_compute; reflexivity|]); vm_compute; auto.
Defined.

(** Towards a squad target with a key configured, every connection that
    opens (the first one and every reconnection of a keep-alive relay, tunnel or
    plain HTTP) goes to that target and its first bytes are the token line
    minted for this Workshop; a dial that fails is followed by nothing but the
    502. *)
Theorem squad_token_first mac net hung c now s head rest host port h p key pre e post :
  read_request_head s = Ok (Some (head, rest)) -> destination head = Ok (host, port) ->
  resolve_squad (internal c) host = Some (h, p) -> squad_token_key c = Some key ->
  (handle_connection mac net hung c now s).1 = pre ++ Dial e :: post ->
  e = EHostPort h p /\
  (post = [SendClient BAD_GATEWAY_RESPONSE] \/
   exists post', post =
     SendUp (preamble_bytes (Some (mint mac key (workshop_name c) DEFAULT_TTL_SECS now))) :: post').
Proof.
  intros Hh Hd Hs Hk. unfold handle_connection. rewrite Hh, Hd, Hs, Hk. cbn [fmap option_fmap].
  apply squad_trace_dials. destruct (is_connect head).
  - apply tunnel_squad.
  - apply forward_rewriting_squad.
Qed.

Lemma squad_token_first_witness :
  let s := request_to "peer" in
  exists pre post,
    (handle_connection toy_mac accept_all (fun _ => false) sample_config 7 s).1 =
      pre ++ Dial (EHostPort (B "10.0.0.7") 9000) :: post /\
    (post = [SendClient BAD_GATEWAY_RESPONSE] \/
     exists post', post =
       SendUp (preamble_bytes (Some (mint toy_mac (B "key") (B "ws-a") DEFAULT_TTL_SECS 7))) :: post').
Proof.
  intros s. eexists [], _. split; [vm_compute; reflexivity|].
  eapply (squad_token_first toy_mac accept_all (fun _ => false) sample_config 7 s _ _
            (B "peer") 80 (B "10.0.0.7") 9000 (B "key") [] (EHostPort (B "10.0.0.7") 9000));
    vm_compute; reflexivity.
Defined.

(** The configuration with another squad key and Workshop name. *)
Definition with_squad_key (c : EgressConfig) (k : option bytes) (name : bytes) : EgressConfig :=
  mkConfig (allowlist c) (upstream c) (no_proxy c) (internal c) (identity_proxy c)
    (simulator c) (anomaly c) k name.

(** The squad key does not leak: for a request whose destination is no squad
    target (external hosts, identity-proxy, the simulators), nothing the handler
    does, on any connection, depends on the key, the Workshop's name or the hash
    function: no token or trace of one is sent there. *)
Theorem squad_key_confined mac mac' net hung c now now' s k name :
  (forall head rest host port,
     read_request_head s = Ok (Some (head, rest)) -> destination head = Ok (host, port) ->
     resolve_squad (internal c) host = None) ->
  handle_connection mac net hung c now s =
  handle_connection mac' net hung (with_squad_key c k name) now' s.
Proof.
  intros H. unfold handle_connection. cbn [internal with_squad_key].
  destruct (read_request_head s) as [[[head rest]|]| |] eqn:Eh; try done.
  destruct (destination head) as [[host port]| |] eqn:Ed; try done.
  by rewrite (H head rest host port).
Qed.

Lemma squad_key_confined_witness :
  let c := mkConfig [B "a.example.org"] None [] no_routes None None None (Some (B "key")) (B "ws") in
  handle_connection toy_mac accept_all (fun _ => false) c 1 (request_to "a.example.org") =
  handle_connection toy_mac accept_all (fun _ => false) (with_squad_key c None []) 2
    (request_to "a.example.org").
Proof.
  intros c. apply (squad_key_confined toy_mac toy_mac accept_all (fun _ => false) c 1 2
           (request_to "a.example.org") None []).
  intros head rest host port _ _. apply lookup_empty.
Defined.

(** Keep-alive relay to an internal alias.  If the destination accepts
    connections, a relay that ends normally has sent the client's requests, all
    of them, in order, each rewritten in origin form with its body unchanged,
    whenever and however often the destination hung up in between: nothing is
    lost, replayed or left in absolute form. *)
Theorem forward_rewriting_exact net hung s first host port :
  (forall n, net n (EHostPort host port) <> None) ->
  no_panic (forward_rewriting net hung s first host port).2 /\
  ((forward_rewriting net hung s first host port).2 = Ok tt ->
   exists reqs,
     pipelined (Some first) s reqs /\ raw first ++ s = concat (replayed <$> reqs) /\
     sent (forward_rewriting net hung s first host port).1 = concat (rewritten <$> reqs)).
Proof.
  intros Hnet. unfold forward_rewriting, forward_rewriting_with_preamble, redial, connect.
  destruct (net 0%nat _) eqn:E0; [|by apply Hnet in E0]. cbn [negb].
  pose proof (rewrite_loop_total net hung (S (S (length s))) 0 1 host port None (Some first) s) as Ht.
  pose proof (rewrite_loop_sent net hung (S (S (length s))) 0 1 host port (Some first) s Hnet) as Hs.
  destruct (rewrite_loop _ _ _ _ _ _ _ _ _) as [evs r]. cbn [fst snd] in *.
  split; [apply Ht; lia|]. intros ->. destruct (Hs eq_refl) as (reqs & Hp & Hc).
  exists reqs. split_and!; [done|by apply pipelined_lossless in Hp|]. by rewrite sent_app, Hc.
Qed.

Lemma forward_rewriting_exact_witness :
  let s := request_to "llm-proxy" in
  let first := mkHead (B "POST") (B "http://llm-proxy/v1") (B "raw") [(B "Content-Length", B "2")] in
  no_panic (forward_rewriting accept_all Nat.even (B "{}" ++ s) first (B "h") 1).2 /\
  ((forward_rewriting accept_all Nat.even (B "{}" ++ s) first (B "h") 1).2 = Ok tt ->
   exists reqs,
     pipelined (Some first) (B "{}" ++ s) reqs /\
     raw first ++ B "{}" ++ s = concat (replayed <$> reqs) /\
     sent (forward_rewriting accept_all Nat.even (B "{}" ++ s) first (B "h") 1).1 =
       concat (rewritten <$> reqs)).
Proof.
  intros s first. apply (forward_rewriting_exact accept_all Nat.even (B "{}" ++ s) first (B "h") 1).
  discriminate.
Defined.

(** C18: transparent TLS is mediated.  When a connection is opened for a client
    whose peeked bytes are prefixes of what it sends, the name read in the
    ClientHello that is relayed is allow-listed, the endpoint is the one the
    policy grants for that name, and the bytes relayed are all the client sent,
    the peeked ones included. *)
Theorem transparent_tls_mediated net c port ns s e :
  let evs := (handle_transparent_tls_connection_on_port net c port
                ((fun n => Some (take n s)) <$> ns) s).1 in
  Dial e ∈ evs ->
  exists host,
    parse_sni s = Ok host /\ is_allowed host (allowlist c) = true /\
    authorised c true host port e /\ forall data, Relay data ∈ evs -> data = s.
Proof.
  intros evs. subst evs. unfold handle_transparent_tls_connection_on_port.
  destruct (peek_sni _ _) as [[host|]| |] eqn:Ep; [|cbn; intros H; elem_of_events..].
  apply peek_sni_prefix in Ep. intros H. exists host. split; [done|]. revert H.
  destruct (is_allowed host (allowlist c)) eqn:Ea; cbn [negb].
  2: { cbn. intros H. by apply deny_no_dial in H. }
  pose proof (egress_hop_authorised c host port Ea) as Hh. destruct (egress_hop c) as [hop np].
  intros ->%tunnel_inner_dials. split_and!; [done|done|].
  intros data. cbn [fst]. apply tunnel_inner_relays.
Qed.

Lemma transparent_tls_mediated_witness :
  let c := mkConfig [B "example.com"] None [] no_routes None None None None [] in
  let s := encode_record sample_hello ++ B "x" in
  exists host,
    parse_sni s = Ok host /\ is_allowed host (allowlist c) = true /\
    authorised c true host 443 (EHostPort (B "example.com") 443) /\
    forall data, Relay data ∈ (handle_transparent_tls_connection_on_port accept_all c 443
                    ((fun n => Some (take n s)) <$> [4%nat; 9%nat; 100%nat]) s).1 -> data = s.
Proof.
  intros c s.
  apply (transparent_tls_mediated accept_all c 443 [4%nat; 9%nat; 100%nat] s
           (EHostPort (B "example.com") 443)).
  apply list_elem_of_In. vm_compute. left. reflexivity.
Defined.

(** Transparent TLS works.  A client whose well-formed ClientHello fits the
    peek buffer and arrives in pieces, complete within the allowed number of
    attempts, is served according to the name it carries: relayed through the
    configured hop if that name is allow-listed, refused (and the refusal
    recorded) otherwise. *)
Theorem transparent_tls_served net c port ch pre post sni rest short big later :
  wf_hello ch -> ch_extensions ch = pre ++ (0, server_name_data sni) :: post ->
  Forall (fun e => e.1 <> 0) pre -> utf8_valid sni = true ->
  (length (encode_record ch) <= SNI_BUFFER)%nat ->
  Forall (fun n => (0 < n < length (encode_record ch))%nat) short ->
  (length (encode_record ch) <= big)%nat -> (length short < SNI_PEEK_ATTEMPTS)%nat ->
  let s := encode_record ch ++ rest in
  handle_transparent_tls_connection_on_port net c port
    ((fun n => Some (take n s)) <$> short ++ big :: later) s =
  (if is_allowed sni (allowlist c)
   then tunnel_transparent net s sni port (egress_hop c).1 (egress_hop c).2
   else deny c sni, Ok tt).
Proof.
  intros Hwf Hes Hpre Hu Hfit Hshort Hbig Hk s.
  unfold handle_transparent_tls_connection_on_port. subst s.
  rewrite (peek_sni_reads ch pre post sni rest short big later) by done.
  destruct (is_allowed sni (allowlist c)); cbn [negb]; [|done]. by destruct (egress_hop c).
Qed.

Lemma transparent_tls_served_witness :
  let c := mkConfig [B "example.com"] None [] no_routes None None None None [] in
  let s := encode_record sample_hello ++ B "x" in
  handle_transparent_tls_connection_on_port accept_all c 443
    ((fun n => Some (take n s)) <$> [4%nat; 9%nat] ++ 200%nat :: []) s =
  (if is_allowed (B "example.com") (allowlist c)
   then tunnel_transparent accept_all s (B "example.com") 443 (egress_hop c).1 (egress_hop c).2
   else deny c (B "example.com"), Ok tt).
Proof.
  intros c s.
  apply (transparent_tls_served accept_all c 443 sample_hello [(10, [0; 29])] []
           (B "example.com") (B "x") [4%nat; 9%nat] 200 []).
  - constructor; try by vm_compute. repeat constructor; vm_compute; done.
  - reflexivity.
  - repeat constructor. vm_compute. discriminate.
  - reflexivity.
  - apply (bool_decide_unpack _); vm_compute; exact I.
  - repeat constructor; apply (bool_decide_unpack _); vm_compute; exact I.
  - apply (bool_decide_unpack _); vm_compute; exact I.
  - apply (bool_decide_unpack _); vm_compute; exact I.
Defined.
