(* ===== verification/IdentityHttp.v ===== *)
(** * identity-proxy's HTTP/1.x reader and writer

    [crates/identity-proxy/src/http.rs]: heads of requests and responses, their
    serialisation with an injected header, and the copy of a body whose framing
    is known.  Names are those of the source; the routines it repeats verbatim
    from net-proxy's [http.rs] are that file's. *)

From S2P Require Import Prelude RustStr Utf8 Stream NetHttp.

Record RequestHead := mkHead {
  method : bytes;
  target : bytes;
  version : bytes;
  headers : header_list }.

Definition header (h : RequestHead) (name : bytes) : option bytes := find_header (headers h) name.

Definition crlf : bytes := [13; 10].

(** [fn render]. *)
Definition render_header (kv : bytes * bytes) : bytes := kv.1 ++ B ": " ++ kv.2 ++ crlf.
Definition render (h : RequestHead) (hs : header_list) : bytes :=
  method h ++ B " " ++ target h ++ B " " ++ version h ++ crlf ++
  concat (render_header <$> hs) ++ crlf.

(** [RequestHead::to_bytes]. *)
Definition to_bytes (h : RequestHead) : bytes := render h (headers h).

(** The header list of [with_injected_header]: [name] replaced or added last. *)
Definition inject (name value : bytes) (hs : header_list) : header_list :=
  filter (fun kv => eq_ignore_ascii_case kv.1 name = false) hs ++ [(name, value)].

(** [fn with_injected_header]. *)
Definition with_injected_header (h : RequestHead) (name value : bytes) : bytes :=
  render h (inject name value (headers h)).

(** [fn read_request_head]. *)
Definition read_request_head (s : bytes) : res (option (RequestHead * bytes)) :=
  '(line, s) ← read_line s;
  if is_empty line then Ok None
  else
    let parts := splitn 3 32 (trim_end line) in
    let method := default [] (parts !! 0%nat) in
    target ← ok_or (parts !! 1%nat) "ligne de requete sans cible (request-target)";
    let version := default (B "HTTP/1.1") (parts !! 2%nat) in
    if is_empty method then Err "ligne de requete vide ou malformee"
    else
      '(hs, _, rest) ←
        read_headers (S (length s)) "connexion fermee avant la fin des en-tetes" s;
      Ok (Some (mkHead method target version hs, rest)).

(** [fn destination]. *)
Definition destination (h : RequestHead) : res (bytes * Z) :=
  if eq_ignore_ascii_case (method h) (B "CONNECT") then split_host_port (target h) 443
  else match absolute_rest (target h) with
       | Some rest =>
           let authority := default rest (split_by is_slash_or_query rest !! 0%nat) in
           split_host_port authority 80
       | None =>
           host_header ← ok_or (header h (B "Host"))
             "requete HTTP en forme origine sans en-tete Host";
           split_host_port host_header 80
       end.

Record ResponseHead := mkResponse {
  status_line : bytes;
  resp_headers : header_list }.

(** [ResponseHead::to_bytes]. *)
Definition response_bytes (r : ResponseHead) : bytes :=
  status_line r ++ crlf ++ concat (render_header <$> resp_headers r) ++ crlf.

(** [fn read_response_head]. *)
Definition read_response_head (s : bytes) : res (option (ResponseHead * bytes)) :=
  '(line, s) ← read_line s;
  if is_empty line then Ok None
  else
    let status_line := trim_end_matches is_crlf line in
    if is_empty status_line then Err "ligne de statut vide"
    else
      '(hs, _, rest) ←
        read_headers (S (length s)) "connexion fermee avant la fin des en-tetes de reponse" s;
      Ok (Some (mkResponse status_line hs, rest)).

(** [fn content_length]. *)
Definition content_length (hs : header_list) : option Z :=
  v ← find_header hs (B "Content-Length"); parse_u64 (trim v).

(** [fn is_chunked]: the last item of the list decides. *)
Definition is_chunked (hs : header_list) : bool :=
  match find_header hs (B "Transfer-Encoding") with
  | Some v => match last (split 44 v) with
              | Some l => eq_ignore_ascii_case (trim l) (B "chunked")
              | None => false
              end
  | None => false
  end.

(** [fn copy_exact]: at most [len] bytes; a stream that ends early is no error. *)
Definition copy_exact (s : bytes) (len : Z) : bytes * bytes := take_copy len s.

(** The trailer loop of [copy_chunked_body]. *)
Fixpoint copy_trailers (fuel : nat) (s : bytes) : bytes * res bytes :=
  match fuel with
  | O => ([], Panic)
  | S f =>
      match read_line s with
      | Ok (trailer_line, s) =>
          if is_empty trailer_line then
            ([], Err "connexion fermee au milieu des en-tetes de fin (chunked)")
          else if is_empty (trim_end_matches is_crlf trailer_line) then (trailer_line, Ok s)
          else let '(w, r) := copy_trailers f s in (trailer_line ++ w, r)
      | Err e => ([], Err e)
      | Panic => ([], Panic)
      end
  end.

(** [fn copy_chunked_body]: what is written and how it ends. *)
Definition chunk_size (size_line : bytes) : option Z :=
  let size_str := trim (default [] (split 59 (trim size_line) !! 0%nat)) in
  from_str_radix 16 U64_MAX size_str.

Fixpoint copy_chunked_loop (fuel : nat) (s : bytes) : bytes * res bytes :=
  match fuel with
  | O => ([], Panic)
  | S f =>
      match read_line s with
      | Ok (size_line, s) =>
          if is_empty size_line then ([], Err "connexion fermee au milieu d'un corps chunked")
          else
            match chunk_size size_line with
            | None => (size_line, Err "taille de chunk invalide")
            | Some size =>
                if size =? 0 then
                  let '(w, r) := copy_trailers (S (length s)) s in (size_line ++ w, r)
                else
                  let '(data, s) := copy_exact s size in
                  match s with
                  | c1 :: c2 :: s =>
                      let '(w, r) := copy_chunked_loop f s in
                      (size_line ++ data ++ [c1; c2] ++ w, r)
                  | _ => (size_line ++ data, Err "early eof")
                  end
            end
      | Err e => ([], Err e)
      | Panic => ([], Panic)
      end
  end.
Definition copy_chunked_body (s : bytes) : bytes * res bytes := copy_chunked_loop (S (length s)) s.

(** ** Headers survive serialisation *)

(** A header the reader can produce: no line feed, no colon in the name, both
    sides trimmed and well-formed. *)
Definition wf_header (kv : bytes * bytes) : Prop :=
  clean kv.1 /\ clean kv.2 /\ (58 ∉ kv.1) /\
  trim kv.1 = kv.1 /\ trimmed_start kv.2 /\ trimmed kv.2.

Lemma clean_trim s : clean s -> clean (trim s).
Proof. intros [H1 H2]. split; [by intros ?%elem_of_trim|by apply utf8_valid_trim]. Qed.

Lemma drop_while_suffix p s : exists a, s = a ++ drop_while p s /\ Forall (fun b => p b = true) a.
Proof.
  induction s as [|b s (a & Hs & Ha)]; [by exists []|]. cbn. destruct (p b) eqn:E.
  - exists (b :: a). split; [by rewrite Hs at 1|by constructor].
  - by exists [].
Qed.

Lemma trim_end_matches_prefix p s :
  exists a, s = trim_end_matches p s ++ a /\ Forall (fun b => p b = true) a.
Proof.
  unfold trim_end_matches. destruct (drop_while_suffix p (rev s)) as (a & Hs & Ha).
  exists (rev a). split; [|by apply Forall_rev].
  rewrite <- rev_app_distr, <- Hs. by rewrite rev_involutive.
Qed.

Lemma clean_trim_crlf l : utf8_valid l = true -> (exists x, (10 ∉ x) /\ l = x ++ [10]) ->
  clean (trim_end_matches is_crlf l).
Proof.
  intros Hu (x & Hx & Hl).
  destruct (trim_end_matches_prefix is_crlf l) as (a & Hs & Ha). split.
  - destruct (rev a) as [|c r] eqn:Er.
    + apply (f_equal (fun y => rev y)) in Er. rewrite rev_involutive in Er. cbn in Er. subst a.
      rewrite app_nil_r in Hs. exfalso. revert Hs. rewrite Hl. unfold trim_end_matches.
      rewrite rev_app_distr. cbn [rev app drop_while is_crlf Z.eqb Pos.eqb orb]. intros Hs.
      apply (f_equal length) in Hs. rewrite length_rev, length_app in Hs.
      destruct (drop_while_suffix is_crlf (rev x)) as (b & Hb & _).
      apply (f_equal length) in Hb. rewrite length_app, length_rev in Hb. cbn in Hs. lia.
    + apply (f_equal (fun y => rev y)) in Er. rewrite rev_involutive in Er. cbn in Er. subst a.
      rewrite Hs, app_assoc in Hl. apply app_inj_tail in Hl as [Hl _]. set_solver.
  - rewrite Hs in Hu. revert Hu. destruct a as [|c r]; [by rewrite app_nil_r|].
    apply Forall_cons in Ha as [Hc _]. unfold is_crlf in Hc.
    rewrite utf8_valid_cut_ascii by lia. by intros [? _]%andb_true_iff.
Qed.

Lemma header_of_line_wf l : clean l -> Forall wf_header (header_of_line l).
Proof.
  intros Hc. unfold header_of_line. destruct (split_once 58 l) as [[k v]|] eqn:E; [|done].
  apply split_once_Some in E as [-> Hk]. apply clean_cut in Hc as [Hck Hcv]; [|lia..].
  constructor; [|done]. split_and!; cbn; auto using clean_trim, trim_trim.
  - by intros ?%elem_of_trim.
  - apply trim_both.
  - apply trim_both.
Qed.

Lemma read_headers_wf fuel msg s hs rw rest :
  read_headers fuel msg s = Ok (hs, rw, rest) -> Forall wf_header hs.
Proof.
  revert s hs rw rest; induction fuel as [|f IH]; intros s hs rw rest; cbn [read_headers]; [done|].
  destruct (read_line s) as [[l s']| |] eqn:El; cbn [mbind res_bind]; [|done..].
  apply read_line_ok in El as [El Hu]. destruct (is_empty l) eqn:Ee; [done|].
  destruct (is_empty (trim_end_matches is_crlf l)); [by intros [= <- <- <-]|].
  destruct (read_headers f msg s') as [[[hs' rw'] rest']| |] eqn:Er; cbn; [|done..].
  intros [= <- <- <-]. apply Forall_app. split; [|by eapply IH].
  apply header_of_line_wf, clean_trim_crlf; [done|].
  destruct (until_nl_inv _ _ _ El) as [(x & -> & Hx)|[_ ->]]; [by exists x|].
  by destruct f; cbn in Er.
Qed.

Lemma trim_end_matches_crlf s :
  (forall a c, s = a ++ [c] -> is_crlf c = false) -> trim_end_matches is_crlf (s ++ [13; 10]) = s.
Proof.
  intros H. unfold trim_end_matches. rewrite rev_app_distr.
  cbn [crlf rev app drop_while is_crlf Z.eqb Pos.eqb orb].
  destruct s as [|c s _] using rev_ind; [done|]. rewrite rev_app_distr. cbn [rev app drop_while].
  rewrite (H s c eq_refl). cbn. by rewrite rev_involutive.
Qed.

Lemma trimmed_last_crlf v a c : trimmed v -> v = a ++ [c] -> is_crlf c = false.
Proof.
  rewrite trimmed_no_suffix. intros H ->. unfold is_crlf.
  destruct (c =? 13) eqn:E1; [|destruct (c =? 10) eqn:E2; [|done]].
  - apply Z.eqb_eq in E1 as ->. exfalso. eapply (H a [13]); [|done].
    apply (bool_decide_unpack _). by vm_compute.
  - apply Z.eqb_eq in E2 as ->. exfalso. eapply (H a [10]); [|done].
    apply (bool_decide_unpack _). by vm_compute.
Qed.

Lemma header_line_last k v a c :
  trimmed v -> k ++ 58 :: 32 :: v = a ++ [c] -> is_crlf c = false.
Proof.
  intros Hv Heq. destruct v as [|b v _] using rev_ind.
  - change (k ++ [58; 32] = a ++ [c]) in Heq. change [58; 32] with ([58] ++ [32]) in Heq.
    rewrite app_assoc in Heq. by apply app_inj_tail in Heq as [_ <-].
  - change (k ++ 58 :: 32 :: v ++ [b]) with (k ++ (58 :: 32 :: v) ++ [b]) in Heq.
    rewrite app_assoc in Heq. apply app_inj_tail in Heq as [_ <-].
    by eapply trimmed_last_crlf.
Qed.

Lemma render_header_eq k v : render_header (k, v) = (k ++ 58 :: 32 :: v) ++ [13; 10].
Proof. unfold render_header. cbn. by rewrite <- app_assoc. Qed.

Lemma read_headers_render fuel msg hs rest :
  Forall wf_header hs -> (length hs < fuel)%nat ->
  read_headers fuel msg (concat (render_header <$> hs) ++ crlf ++ rest) =
  Ok (hs, concat (render_header <$> hs) ++ crlf, rest).
Proof.
  intros Hwf. revert fuel; induction Hwf as [|[k v] hs (Hk & Hv & Hcol & Htk & Hts & Htv) _ IH];
    intros [|f] Hf; cbn [length] in Hf; try lia; cbn [read_headers].
  - cbn [fmap list_fmap concat app crlf].
    change (13 :: 10 :: rest) with ([13] ++ 10 :: rest).
    rewrite read_line_nl by (set_solver || by vm_compute). done.
  - cbn [fmap list_fmap concat fst snd] in *. rewrite render_header_eq.
    set (line := k ++ 58 :: 32 :: v).
    assert (Hcl : clean line).
    { apply clean_cut; [lia..|]. split; [done|]. apply (clean_cut []); [lia..|]. split; [|done].
      split; [set_solver|done]. }
    rewrite <- !(app_assoc _ _ (crlf ++ rest)), <- app_assoc. cbn [app].
    rewrite read_line_crlf by done. cbn [mbind res_bind].
    replace (is_empty (line ++ [13; 10])) with false by (by destruct line).
    rewrite (trim_end_matches_crlf line) by (intros a c; by apply header_line_last).
    replace (is_empty line) with false by (subst line; by destruct k).
    rewrite IH by lia. cbn [mbind res_bind]. unfold header_of_line at 1. subst line.
    rewrite split_once_app by done. rewrite Htk, trim_space by done. cbn [app].
    by rewrite <- !(app_assoc _ _ crlf).
Qed.

(** ** Request heads survive serialisation *)

Definition request_line (h : RequestHead) : bytes := method h ++ 32 :: target h ++ 32 :: version h.

Definition wf_head (h : RequestHead) : Prop :=
  method h <> [] /\ (32 ∉ method h) /\ (32 ∉ target h) /\
  clean (request_line h) /\ trimmed (request_line h).

Lemma trimmed_not_space a v : trimmed (a ++ 32 :: v) -> v <> [].
Proof.
  intros Htr ->. rewrite trimmed_no_suffix in Htr.
  eapply (Htr _ [32]); [|reflexivity]. apply (bool_decide_unpack _). by vm_compute.
Qed.

Lemma request_line_wf x m t :
  clean x -> m <> [] -> splitn 3 32 (trim_end x) !! 0%nat = Some m ->
  splitn 3 32 (trim_end x) !! 1%nat = Some t ->
  forall hs, wf_head (mkHead m t (default (B "HTTP/1.1") (splitn 3 32 (trim_end x) !! 2%nat)) hs).
Proof.
  intros [Hx Hu] Hm H0 H1 hs. destruct (splitn3_inv _ _ _ H0 H1) as (Hm' & Ht' & Hv).
  assert (Hc : clean (trim_end x))
    by (split; [by intros ?%elem_of_trim_end|by apply utf8_valid_trim_end]).
  unfold wf_head, request_line. cbn [method target version].
  destruct Hv as [[Hx' ->]|(v & Hx' & ->)]; cbn [from_option]; unfold id.
  - rewrite Hx' in Hc. apply clean_cut in Hc as [Hcm Hct]; [|lia..]. split_and!; try done.
    + apply clean_cut; [lia..|]. split; [done|]. apply clean_cut; [lia..|]. split; [done|].
      split; [|by vm_compute]. apply (bool_decide_unpack _). by vm_compute.
    + change (m ++ 32 :: t ++ 32 :: B "HTTP/1.1") with (m ++ (32 :: t) ++ 32 :: B "HTTP/1.1").
      rewrite app_assoc. apply last_word_http.
  - pose proof (trim_end_trimmed x) as Htr. rewrite Hx' in Htr, Hc. done.
Qed.

Lemma id_read_request_head_inv s h rest :
  read_request_head s = Ok (Some (h, rest)) -> wf_head h /\ Forall wf_header (headers h).
Proof.
  unfold read_request_head. destruct (read_line s) as [[l s']| |] eqn:El; cbn [mbind res_bind]; [|done..].
  apply read_line_ok in El as [El Hu]. destruct (is_empty l); [done|].
  destruct (splitn 3 32 (trim_end l) !! 1%nat) as [tg|] eqn:Et; cbn [ok_or mbind res_bind]; [|done].
  destruct (is_empty (default _ _)) eqn:Em; [done|].
  destruct (read_headers _ _ s') as [[[hs rw] rest']| |] eqn:Er; cbn [mbind res_bind]; [|done..].
  intros [= <- <-]. split; [|by eapply read_headers_wf].
  destruct (until_nl_inv _ _ _ El) as [(x & -> & Hx)|[_ ->]]; [|done].
  rewrite trim_end_snoc in Et, Em |- * by (apply (bool_decide_unpack _); by vm_compute) || lia.
  destruct (splitn 3 32 (trim_end x) !! 0%nat) as [m|] eqn:E0; [|done].
  apply request_line_wf; try done.
  - split; [done|]. rewrite utf8_valid_cut_ascii, andb_true_r in Hu by lia. done.
  - by destruct m.
Qed.

Lemma length_render_headers hs : (length hs <= length (concat (render_header <$> hs)))%nat.
Proof.
  induction hs as [|[k v] hs IH]; [done|]. cbn [fmap list_fmap concat length].
  rewrite length_app, render_header_eq, !length_app. cbn. lia.
Qed.

Lemma read_request_head_render h hs rest :
  wf_head h -> Forall wf_header hs ->
  read_request_head (render h hs ++ rest) =
  Ok (Some (mkHead (method h) (target h) (version h) hs, rest)).
Proof.
  intros (Hm & Hms & Hts & Hc & Htr) Hhs. unfold read_request_head.
  assert (Hr : render h hs ++ rest =
    request_line h ++ 13 :: 10 :: concat (render_header <$> hs) ++ crlf ++ rest).
  { unfold render, request_line. cbn [B crlf app]. by simplify_list_eq. }
  rewrite Hr, read_line_crlf by done. cbn [mbind res_bind].
  replace (is_empty (request_line h ++ [13; 10])) with false
    by (unfold request_line; by destruct (method h)).
  change [13; 10] with ([13] ++ [10]). rewrite app_assoc.
  rewrite !trim_end_snoc by (apply (bool_decide_unpack _); by vm_compute) || lia.
  rewrite trim_end_id by done. unfold request_line. rewrite splitn3 by done.
  cbn [lookup list_lookup from_option ok_or mbind res_bind]. unfold id.
  destruct (method h) as [|b m]; [done|]. cbn [is_empty].
  rewrite read_headers_render; [done|done|].
  pose proof (length_render_headers hs). rewrite !length_app. lia.
Qed.

Lemma inject_wf name value hs :
  wf_header (name, value) -> Forall wf_header hs -> Forall wf_header (inject name value hs).
Proof.
  intros Hn Hhs. apply Forall_app. split; [|by constructor].
  apply Forall_forall. intros x [_ Hx]%list_elem_of_filter. rewrite Forall_forall in Hhs. auto.
Qed.

Lemma find_header_cons k v hs n :
  find_header ((k, v) :: hs) n = if eq_ignore_ascii_case k n then Some v else find_header hs n.
Proof. unfold find_header. cbn [find_first]. by destruct (eq_ignore_ascii_case k n). Qed.

Lemma find_header_inject name value hs n :
  find_header (inject name value hs) n =
  if eq_ignore_ascii_case name n then Some value else find_header hs n.
Proof.
  unfold inject. induction hs as [|[k v] hs IH]; [apply find_header_cons|].
  rewrite filter_cons. cbn [fst]. destruct (decide _) as [E|E]; cbn [app]; rewrite !find_header_cons.
  - destruct (eq_ignore_ascii_case name n) eqn:En; [|by rewrite IH].
    rewrite IH. destruct (eq_ignore_ascii_case k n) eqn:Ek; [|done].
    rewrite eq_ignore_true in *. exfalso. apply not_true_iff_false in E. apply E.
    rewrite eq_ignore_true. congruence.
  - rewrite IH. apply not_false_iff_true in E. destruct (eq_ignore_ascii_case name n) eqn:En; [done|].
    destruct (eq_ignore_ascii_case k n) eqn:Ek; [|done].
    apply not_true_iff_false in En. exfalso. apply En. rewrite eq_ignore_true in *. congruence.
Qed.

(** ** Copied bodies *)

Lemma copy_trailers_app fuel s w rest : copy_trailers fuel s = (w, Ok rest) -> s = w ++ rest.
Proof.
  revert s w; induction fuel as [|f IH]; intros s w; cbn [copy_trailers]; [done|].
  destruct (read_line s) as [[l s']| |] eqn:El; [|done..]. apply read_line_app in El as ->.
  destruct (is_empty l); [done|]. destruct (is_empty _); [by intros [= <- <-]|].
  destruct (copy_trailers f s') as [w' r] eqn:E. intros [= <- ->].
  apply IH in E as ->. by rewrite app_assoc.
Qed.

Lemma copy_trailers_total fuel s : (length s < fuel)%nat -> no_panic (copy_trailers fuel s).2.
Proof.
  revert s; induction fuel as [|f IH]; intros s Hf; [lia|]. cbn [copy_trailers].
  unfold read_line. pose proof (until_nl_app s) as Hs.
  destruct (until_nl s) as [l s']; cbn [fst snd] in Hs. destruct (utf8_valid l); [|done].
  destruct l as [|b l]; cbn [is_empty]; [done|]. destruct (is_empty _); [done|].
  specialize (IH s'). destruct (copy_trailers f s') as [w r]; cbn [snd] in *. apply IH.
  apply (f_equal length) in Hs. rewrite length_app in Hs. cbn in Hs. lia.
Qed.

Lemma copy_chunked_app fuel s w rest : copy_chunked_loop fuel s = (w, Ok rest) -> s = w ++ rest.
Proof.
  revert s w; induction fuel as [|f IH]; intros s w; cbn [copy_chunked_loop]; [done|].
  destruct (read_line s) as [[l s']| |] eqn:El; [|done..]. apply read_line_app in El as ->.
  destruct (is_empty l); [done|]. destruct (chunk_size l) as [size|]; [|done].
  destruct (size =? 0).
  - destruct (copy_trailers _ s') as [w' r] eqn:E. intros [= <- ->].
    apply copy_trailers_app in E as ->. by rewrite app_assoc.
  - unfold copy_exact. pose proof (take_copy_app size s') as Ht.
    destruct (take_copy size s') as [data s1]; cbn [fst snd] in Ht. subst s'.
    destruct s1 as [|c1 [|c2 s1]]; [done..|].
    destruct (copy_chunked_loop f s1) as [w' r] eqn:E. intros [= <- ->].
    apply IH in E as ->. by rewrite <- !app_assoc.
Qed.

Lemma copy_chunked_total fuel s : (length s < fuel)%nat -> no_panic (copy_chunked_loop fuel s).2.
Proof.
  revert s; induction fuel as [|f IH]; intros s Hf; [lia|]. cbn [copy_chunked_loop].
  unfold read_line. pose proof (until_nl_app s) as Hs.
  destruct (until_nl s) as [l s']; cbn [fst snd] in Hs. destruct (utf8_valid l); [|done].
  destruct l as [|b l]; cbn [is_empty]; [done|]. destruct (chunk_size _) as [size|]; [|done].
  apply (f_equal length) in Hs. rewrite length_app in Hs. cbn [length] in Hs.
  destruct (size =? 0).
  - pose proof (copy_trailers_total (S (length s')) s') as Ht.
    destruct (copy_trailers _ s') as [w r]; cbn [snd] in *. apply Ht. lia.
  - unfold copy_exact. pose proof (take_copy_app size s') as Ht.
    destruct (take_copy size s') as [data s1]; cbn [fst snd] in Ht. subst s'.
    destruct s1 as [|c1 [|c2 s1]]; [done..|]. specialize (IH s1).
    destruct (copy_chunked_loop f s1) as [w r]; cbn [snd] in *. apply IH.
    rewrite length_app in Hs. cbn [length] in Hs. lia.
Qed.

Lemma id_read_request_head_total s : no_panic (read_request_head s).
Proof.
  unfold read_request_head, read_line.
  destruct (until_nl s) as [l s']. destruct (utf8_valid l); cbn [ok_or mbind res_bind]; [|done].
  destruct (is_empty l); [done|]. destruct (splitn 3 32 (trim_end l) !! 1%nat); cbn [ok_or mbind res_bind]; [|done].
  case_match; [done|]. apply no_panic_bind; [apply read_headers_total; lia|].
  intros [[??]?] _. done.
Qed.

Lemma read_request_head_shorter s h rest :
  read_request_head s = Ok (Some (h, rest)) -> (length rest < length s)%nat.
Proof.
  unfold read_request_head. destruct (read_line s) as [[l s']| |] eqn:El; cbn [mbind res_bind]; [|done..].
  apply read_line_app in El as ->. destruct l as [|b l]; [done|]. cbn [is_empty].
  destruct (_ !! 1%nat); cbn [ok_or mbind res_bind]; [|done]. destruct (is_empty _); [done|].
  destruct (read_headers _ _ s') as [[[hs rw] rest']| |] eqn:Er; cbn [mbind res_bind]; [|done..].
  intros [= _ <-]. apply read_headers_app in Er as ->. rewrite length_app. cbn.
  rewrite length_app. lia.
Qed.

(** ** Claims *)

(** A credential is set as a header and changes nothing else.  Read back,
    the bytes sent for a request have the same method, target and version, and
    the injected header with exactly the credential, whatever the client put
    there; every other header keeps its value. *)
Theorem credential_injected s h rest name value :
  read_request_head s = Ok (Some (h, rest)) -> wf_header (name, value) ->
  exists hs,
    read_request_head (with_injected_header h name value ++ rest) =
      Ok (Some (mkHead (method h) (target h) (version h) hs, rest)) /\
    find_header hs name = Some value /\
    forall n, eq_ignore_ascii_case name n = false -> find_header hs n = find_header (headers h) n.
Proof.
  intros [Hh Hhs]%id_read_request_head_inv Hw. exists (inject name value (headers h)).
  split_and!.
  - apply read_request_head_render; [done|]. by apply inject_wf.
  - by rewrite find_header_inject, eq_ignore_refl.
  - intros n Hn. by rewrite find_header_inject, Hn.
Qed.

Definition sample_request : bytes :=
  B "GET http://git/r HTTP/1.1" ++ [13; 10] ++ B "Authorization: none" ++ [13; 10] ++
  B "Host: git" ++ [13; 10; 13; 10].
Definition sample_head : RequestHead :=
  mkHead (B "GET") (B "http://git/r") (B "HTTP/1.1")
    [(B "Authorization", B "none"); (B "Host", B "git")].

Lemma credential_injected_witness :
  exists hs,
    read_request_head (with_injected_header sample_head (B "authorization") (B "token x") ++ []) =
      Ok (Some (mkHead (B "GET") (B "http://git/r") (B "HTTP/1.1") hs, [])) /\
    find_header hs (B "authorization") = Some (B "token x") /\
    forall n, eq_ignore_ascii_case (B "authorization") n = false ->
      find_header hs n = find_header (headers sample_head) n.
Proof.
  apply (credential_injected sample_request sample_head [] (B "authorization") (B "token x")).
  - vm_compute. reflexivity.
  - unfold wf_header, clean. cbn [fst snd].
    split_and!; try (vm_compute; reflexivity); apply (bool_decide_unpack _); vm_compute; exact I.
Defined.
