(* ===== verification/IdentityRules.v ===== *)
(** * identity-proxy's injection rules and secret cache

    [crates/identity-proxy/src/rules.rs] and [secrets.rs]: which header to set,
    from which secret, for which host, and the background task that reloads the
    rules and reads the secrets.  The rules' JSON parser ([serde_json]) and the
    OpenBao client are arguments. *)

From S2P Require Import Prelude RustStr Allowlist.

(** [struct IdentityInjectionRule]. *)
Record InjectionRule := mkRule {
  r_host : bytes;
  r_header : bytes;
  r_prefix : bytes;
  r_secret_path : bytes;
  r_field : bytes }.

#[global] Instance rule_eq_dec : EqDecision InjectionRule.
Proof. solve_decision. Defined.

(** [fn secret_cache_key]. *)
Definition secret_cache_key (r : InjectionRule) : bytes := r_secret_path r ++ B "#" ++ r_field r.

(** [fn host_matches]. *)
Definition host_matches (pattern host : bytes) : bool :=
  match strip_prefix (B "*.") pattern with
  | Some suffix => ends_with host suffix && (length suffix <? length host)%nat
  | None => eq_ignore_ascii_case pattern host
  end.

(** [fn matching]. *)
Definition matching (rules : list InjectionRule) (host : bytes) : option InjectionRule :=
  find_first (fun rule => host_matches (r_host rule) host) rules.

(** The outcome of reading the rules' file. *)
Inductive file_read :=
| FileContent (raw : bytes)
| FileMissing
| FileError.

Section rules.
(** [serde_json::from_str] at [Vec<InjectionRule>]. *)
Context (from_json : bytes -> option (list InjectionRule)).

(** [fn parse]. *)
Definition parse (raw : bytes) : res (list InjectionRule) :=
  if is_empty (trim raw) then Ok []
  else ok_or (from_json raw) "regles d'injection invalides".

(** [fn from_env] and [fn load]; [env] is the variables' values, [read] the
    file's. *)
Definition from_env (env : string -> option bytes) : res (list InjectionRule) :=
  parse (default [] (env "ATELIER_IDENTITY_INJECTION_RULES")).
Definition load (env : string -> option bytes) (read : bytes -> file_read)
  : res (option (list InjectionRule)) :=
  match env "ATELIER_IDENTITY_INJECTION_RULES_FILE" with
  | Some ((_ :: _) as path) =>
      match read path with
      | FileContent raw => rules ← parse raw; Ok (Some rules)
      | FileMissing => Ok None
      | FileError => Err "lecture"
      end
  | _ => rules ← from_env env; Ok (Some rules)
  end.
End rules.

(** ** The refresh task *)

Abbreviation secret_map := (gmap bytes bytes).

(** OpenBao as the client sees it during one round: the outcome of the login,
    and of each field read with the token. *)
Record openbao := mkBao {
  bao_login : option bytes;
  bao_read_field : bytes -> bytes -> bytes -> option bytes }.

(** The loop of [refresh_once]. *)
Fixpoint read_secrets (bao : openbao) (token : bytes) (rules : list InjectionRule)
    (values : secret_map) : secret_map :=
  match rules with
  | [] => values
  | rule :: r =>
      let values := match bao_read_field bao token (r_secret_path rule) (r_field rule) with
                    | Some value => <[secret_cache_key rule := value]> values
                    | None => values
                    end in
      read_secrets bao token r values
  end.

(** [fn refresh_once]. *)
Definition refresh_once (bao : openbao) (rules : list InjectionRule) : option secret_map :=
  token ← bao_login bao; Some (read_secrets bao token rules ∅).

(** The shared state: the rules and the cache. *)
Record shared := mkShared { sh_rules : list InjectionRule; sh_cache : secret_map }.

(** One round of [refresh_loop]: [loaded] is the outcome of [rules::load]. *)
Definition refresh_rules (loaded : res (option (list InjectionRule)))
    (current : list InjectionRule) : list InjectionRule :=
  match loaded with
  | Ok (Some fresh) => if bool_decide (current = fresh) then current else fresh
  | _ => current
  end.
Definition refresh_round (loaded : res (option (list InjectionRule))) (bao : openbao)
    (st : shared) : shared :=
  let snapshot := refresh_rules loaded (sh_rules st) in
  if (match snapshot with [] => true | _ => false end) then mkShared snapshot (sh_cache st)
  else match refresh_once bao snapshot with
       | Some values => mkShared snapshot values
       | None => mkShared snapshot (sh_cache st)
       end.

(** ** The cache holds what was read *)

Lemma read_secrets_lookup bao token rules values key :
  read_secrets bao token rules values !! key =
  match find_first (fun r => bool_decide (secret_cache_key r = key) &&
                     bool_decide (is_Some (bao_read_field bao token (r_secret_path r) (r_field r))))
          (rev rules) with
  | Some r => bao_read_field bao token (r_secret_path r) (r_field r)
  | None => values !! key
  end.
Proof.
  revert values; induction rules as [|rule rules IH]; intros values; [done|]. cbn [read_secrets rev].
  rewrite IH. clear IH.
  set (p := fun r => _). induction (rev rules) as [|r rs IH]; cbn [app find_first].
  - unfold p. destruct (bao_read_field bao token _ _) as [v|] eqn:Er.
    + destruct (decide (secret_cache_key rule = key)) as [<-|Hne].
      * rewrite !bool_decide_true by eauto. cbn. by rewrite lookup_insert_eq.
      * rewrite (bool_decide_false (secret_cache_key rule = key)) by done. cbn.
        by rewrite lookup_insert_ne.
    + rewrite (bool_decide_false (is_Some None)) by (by intros [? ?]). by rewrite andb_false_r.
  - by destruct (p r).
Qed.

(** Keys name the secret: two rules with the same key designate the same secret
    when neither path has a ['#']. *)
Lemma secret_cache_key_inj r1 r2 :
  35 ∉ r_secret_path r1 -> 35 ∉ r_secret_path r2 ->
  secret_cache_key r1 = secret_cache_key r2 ->
  r_secret_path r1 = r_secret_path r2 /\ r_field r1 = r_field r2.
Proof.
  unfold secret_cache_key. change (B "#") with [35]. cbn [app]. intros H1 H2 Heq.
  pose proof (split_once_app 35 _ (r_field r1) H1) as E1.
  rewrite Heq, split_once_app in E1 by done. by injection E1 as <- <-.
Qed.

Lemma refresh_lookup bao token rules rule :
  rule ∈ rules -> Forall (fun r => 35 ∉ r_secret_path r) rules ->
  read_secrets bao token rules ∅ !! secret_cache_key rule =
  bao_read_field bao token (r_secret_path rule) (r_field rule).
Proof.
  intros Hin Hall. rewrite read_secrets_lookup.
  rewrite Forall_forall in Hall.
  destruct (find_first _ _) as [r|] eqn:E.
  - apply find_first_Some in E as (l1 & l2 & Hr & Hp & _). bool_prop.
    assert (Hr' : r ∈ rules)
      by (apply list_elem_of_In, in_rev; rewrite Hr; apply in_or_app; right; by left).
    by destruct (secret_cache_key_inj r rule) as [-> ->]; auto.
  - rewrite lookup_empty. rewrite find_first_None in E.
    specialize (E rule). destruct (bao_read_field _ _ _ _) as [v|] eqn:Er; [|done].
    rewrite !bool_decide_true in E by eauto. cbn in E.
    assert (true = false); [|done]. apply E.
    apply list_elem_of_In. rewrite <- in_rev. by apply list_elem_of_In.
Qed.

Lemma read_secrets_keys bao token rules values key :
  is_Some (read_secrets bao token rules values !! key) ->
  is_Some (values !! key) \/ exists r, r ∈ rules /\ key = secret_cache_key r.
Proof.
  rewrite read_secrets_lookup. destruct (find_first _ _) as [r|] eqn:E; [|auto]. intros _. right.
  apply find_first_Some in E as (l1 & l2 & Hr & Hp & _). bool_prop. exists r. split; [|done].
  apply list_elem_of_In, in_rev. rewrite Hr. apply in_or_app. right. by left.
Qed.

Lemma refresh_rules_eq loaded current :
  refresh_rules loaded current = match loaded with Ok (Some fresh) => fresh | _ => current end.
Proof. destruct loaded as [[fresh|]| |]; cbn; [|done..]. by case_bool_decide. Qed.

(** What a pattern accepts: any host that ends with the text after ["*."] and is
    longer, whether or not a dot stands before it, or the host itself. *)
Lemma host_matches_spec pattern host :
  host_matches pattern host = true <->
  match strip_prefix (B "*.") pattern with
  | Some suffix => exists a, a <> [] /\ host = a ++ suffix
  | None => eq_ignore_ascii_case pattern host = true
  end.
Proof.
  unfold host_matches. destruct (strip_prefix _ _) as [suffix|]; [|done].
  rewrite andb_true_iff, ends_with_true. split.
  - intros [(a & ->) Hl]. exists a. split; [|done]. intros ->.
    cbn [app] in Hl. by rewrite Nat.ltb_irrefl in Hl.
  - intros (a & Ha & ->). split; [eauto|]. rewrite length_app. apply Nat.ltb_lt.
    destruct a; [done|]. cbn. lia.
Qed.

(** The wildcard is looser than the egress allowlist's, which the source says it
    mirrors: a rule for ["*.example.org"] matches ["evilexample.org"], and does
    not match ["a.EXAMPLE.org"]. *)
Lemma host_matches_diverges :
  host_matches (B "*.example.org") (B "evilexample.org") = true /\
  matches_entry (normalize (B "evilexample.org")) (B "*.example.org") = false /\
  host_matches (B "*.example.org") (B "a.EXAMPLE.org") = false /\
  matches_entry (normalize (B "a.EXAMPLE.org")) (B "*.example.org") = true.
Proof. split_and!; vm_compute; reflexivity. Qed.

(** ** Claims *)

(** One refresh round.  The rules are the freshly loaded ones, or the
    current ones when the file is missing or unreadable; when OpenBao accepts the
    login, every current rule's cache entry is the value just read (absent if
    unreadable), so that a rule added since the last round is active at once, and
    no entry of a withdrawn rule is left; when the login fails the cache is
    kept. *)
Theorem refresh_round_spec loaded bao st :
  let st' := refresh_round loaded bao st in
  sh_rules st' = match loaded with Ok (Some fresh) => fresh | _ => sh_rules st end /\
  (bao_login bao = None \/ sh_rules st' = [] -> sh_cache st' = sh_cache st) /\
  (forall token, bao_login bao = Some token -> sh_rules st' <> [] ->
     Forall (fun r => 35 ∉ r_secret_path r) (sh_rules st') ->
     (forall r, r ∈ sh_rules st' ->
        sh_cache st' !! secret_cache_key r =
        bao_read_field bao token (r_secret_path r) (r_field r)) /\
     (forall key, is_Some (sh_cache st' !! key) ->
        exists r, r ∈ sh_rules st' /\ key = secret_cache_key r)).
Proof.
  intros st'. subst st'. unfold refresh_round, refresh_once. rewrite refresh_rules_eq.
  destruct (match loaded with Ok (Some _) => _ | _ => _ end) as [|r rs] eqn:Er; cbn [sh_rules sh_cache].
  { split_and!; [by rewrite <- Er|done|done]. }
  destruct (bao_login bao) as [token|]; cbn [mbind option_bind sh_rules sh_cache].
  2: { split_and!; [by rewrite <- Er|done|done]. }
  split_and!; [by rewrite <- Er|by intros [?|?]|]. intros token' [= <-] _ Hall. split.
  - intros r' Hr'. by apply refresh_lookup.
  - intros key [[? H]|H]%read_secrets_keys; [by rewrite lookup_empty in H|done].
Qed.
