(* ===== verification/IdentityProxy.v ===== *)
(** * identity-proxy

    [crates/identity-proxy/src/proxy.rs]: the proxy that sets a credential on the
    plain HTTP requests for the hosts its rules name.  A handler maps the bytes
    net-proxy sends to the ordered list of its effects.  The network, what the
    probe of an idle connection finds, and the cache of secrets at each round are
    arguments. *)

From S2P Require Import Prelude RustStr Utf8 Stream Allowlist NetHttp Internal Upstream EgressProxy.
From S2P Require Import SquadToken IdentityHttp IdentityRules.

(** [struct ProxyConfig]: the rules as read for this connection, the secrets as
    read at each round. *)
Record ProxyConfig := mkProxy {
  rules : list InjectionRule;
  secrets : nat -> secret_map }.

(** What [try_read] with a one-byte buffer finds on the idle connection: it is
    closed, nothing is there, or a byte is, which is then lost; [buffered] bytes
    were already in the [BufReader]. *)
Inductive probe :=
| PClosed
| PIdle
| PByte (buffered : nat).

Definition eat (u : bytes) (k : nat) : bytes := take k u ++ drop (S k) u.

(** [fn relay_body]: the bytes copied and how it ends. *)
Definition relay_body (s : bytes) (hs : header_list) : bytes * res bytes :=
  match content_length hs with
  | Some len =>
      if 0 <? len then let '(w, rest) := copy_exact s len in (w, Ok rest) else ([], Ok s)
  | None => if is_chunked hs then copy_chunked_body s else ([], Ok s)
  end.

(** The bytes a request is sent as at round [i]. *)
Definition request_bytes (c : ProxyConfig) (rule : option InjectionRule) (i : nat)
    (h : RequestHead) : bytes :=
  match rule with
  | Some rule =>
      match secrets c i !! secret_cache_key rule with
      | Some value => with_injected_header h (r_header rule) (r_prefix rule ++ value)
      | None => to_bytes h
      end
  | None => to_bytes h
  end.

Section identity.
Context (net : network).
Context (probes : nat -> probe).

(** The response part of a round: what is sent to the client, and the
    destination's stream after it if the connection goes on. *)
Definition relay_response (s u : bytes) : list event * option bytes :=
  match read_response_head u with
  | Ok (Some (rh, u)) =>
      let hd := SendClient (response_bytes rh) in
      match content_length (resp_headers rh), is_chunked (resp_headers rh) with
      | Some len, _ =>
          if len =? 0 then ([hd], Some u)
          else let '(w, u) := copy_exact u len in ([hd; SendClient w], Some u)
      | None, true =>
          let '(w, r) := copy_chunked_body u in ([hd; SendClient w], res_ok r)
      | None, false => ([hd; Relay s], None)
      end
  | _ => ([], None)
  end.

(** The loop of [forward]: round [i], [n] connections dialled so far, [u] what
    the destination still sends on the current one.  Every round after the
    first reads a head, so [length s] rounds are enough. *)
Fixpoint forward_loop (fuel i n : nat) (c : ProxyConfig) (rule : option InjectionRule)
    (host : bytes) (port : Z) (h : RequestHead) (s u : bytes) : list event * res unit :=
  match fuel with
  | O => ([], Panic)
  | S f =>
      let '(evs, conn) :=
        match probes i with
        | PClosed =>
            match net n (EHostPort host port) with
            | Some chunks => ([Dial (EHostPort host port)], Some (concat chunks))
            | None => ([Dial (EHostPort host port); SendClient BAD_GATEWAY_RESPONSE], None)
            end
        | PIdle => ([], Some u)
        | PByte k => ([], Some (eat u k))
        end in
      match conn with
      | None => (evs, Ok tt)
      | Some u =>
          let '(body, r) := relay_body s (headers h) in
          let evs := evs ++ [SendUp (request_bytes c rule i h); SendUp body] in
          match r with
          | Err _ => (evs, Ok tt)
          | Panic => (evs, Panic)
          | Ok s =>
              let '(revs, conn) := relay_response s u in
              let evs := evs ++ revs in
              match conn with
              | None => (evs, Ok tt)
              | Some u =>
                  match read_request_head s with
                  | Ok (Some (next, s)) =>
                      let n := match probes i with PClosed => S n | _ => n end in
                      let '(evs', r) := forward_loop f (S i) n c rule host port next s u in
                      (evs ++ evs', r)
                  | Panic => (evs, Panic)
                  | _ => (evs, Ok tt)
                  end
              end
          end
      end
  end.

(** [fn forward]. *)
Definition forward (c : ProxyConfig) (s : bytes) (h : RequestHead)
    (rule : option InjectionRule) (host : bytes) (port : Z) : list event * res unit :=
  let dial := Dial (EHostPort host port) in
  match net 0%nat (EHostPort host port) with
  | None => ([dial; SendClient BAD_GATEWAY_RESPONSE], Ok tt)
  | Some chunks =>
      let '(evs, r) := forward_loop (S (length s)) 0 1 c rule host port h s (concat chunks) in
      (dial :: evs, r)
  end.

(** [fn tunnel]. *)
Definition tunnel (s host : bytes) (port : Z) : list event :=
  let dial := Dial (EHostPort host port) in
  match net 0%nat (EHostPort host port) with
  | None => [dial; SendClient BAD_GATEWAY_RESPONSE]
  | Some _ => [dial; SendClient CONNECT_ACK; Relay s]
  end.

(** [fn handle_connection]. *)
Definition handle_connection (c : ProxyConfig) (s : bytes) : list event * res unit :=
  match read_request_head s with
  | Err e => ([], Err e)
  | Panic => ([], Panic)
  | Ok None => ([], Ok tt)
  | Ok (Some (h, s)) =>
      match destination h with
      | Panic => ([], Panic)
      | Err _ => ([SendClient BAD_GATEWAY_RESPONSE], Ok tt)
      | Ok (host, port) =>
          let rule := matching (rules c) host in
          if eq_ignore_ascii_case (method h) (B "CONNECT") then (tunnel s host port, Ok tt)
          else forward c s h rule host port
      end
  end.
End identity.

(** ** The loop *)

Lemma forward_loop_dials net probes fuel i n c rule host port h s u e :
  Dial e ∈ (forward_loop net probes fuel i n c rule host port h s u).1 -> e = EHostPort host port.
Proof.
  revert i n h s u; induction fuel as [|f IH]; intros i n h s u; cbn [forward_loop fst];
    [intros H; elem_of_events|].
  destruct (match probes i with PClosed => _ | PIdle => _ | PByte _ => _ end) as [evs conn] eqn:Ep.
  assert (Hevs : Dial e ∈ evs -> e = EHostPort host port).
  { destruct (probes i); [destruct (net n _)|..]; injection Ep as <- <-;
      intros H; elem_of_events; congruence. }
  destruct conn as [u1|]; [|done].
  destruct (relay_body s (headers h)) as [body [s1| |]];
    [|cbn; intros H; elem_of_events; (auto || congruence)..].
  destruct (relay_response s1 u1) as [revs conn] eqn:Er.
  assert (Hr : Dial e ∉ revs).
  { revert Er. unfold relay_response.
    repeat case_match; intros [= <- <-] Hin; elem_of_events; congruence. }
  destruct conn as [u2|]; [|cbn; intros H; elem_of_events; (auto || congruence)].
  destruct (read_request_head s1) as [[[next s2]|]| |];
    try (cbn; intros H; elem_of_events; auto; congruence).
  specialize (IH (S i) (match probes i with PClosed => S n | _ => n end) next s2 u2).
  destruct (forward_loop _ _ _ _ _ _ _ _ _ _ _ _) as [evs' r]. cbn [fst] in *.
  intros H; elem_of_events; auto; congruence.
Qed.

Lemma id_forward_dials net probes c s h rule host port e :
  Dial e ∈ (forward net probes c s h rule host port).1 -> e = EHostPort host port.
Proof.
  unfold forward. destruct (net 0%nat _); [|cbn; intros H; elem_of_events; congruence].
  pose proof (forward_loop_dials net probes (S (length s)) 0 1 c rule host port h s (concat l) e) as Hd.
  destruct (forward_loop _ _ _ _ _ _ _ _ _ _ _ _) as [evs r]. cbn [fst] in *.
  intros H; elem_of_events; auto; congruence.
Qed.

Lemma id_handle_connection_dials net probes c s e :
  Dial e ∈ (handle_connection net probes c s).1 ->
  exists h rest host port, read_request_head s = Ok (Some (h, rest)) /\
    destination h = Ok (host, port) /\ e = EHostPort host port.
Proof.
  unfold handle_connection.
  destruct (read_request_head s) as [[[h rest]|]| |]; [|cbn; intros H; elem_of_events..].
  destruct (destination h) as [[host port]| |] eqn:Ed; [|cbn; intros H; elem_of_events; done..].
  intros H. exists h, rest, host, port. split_and!; [done..|]. revert H.
  destruct (eq_ignore_ascii_case _ _); [|apply id_forward_dials].
  unfold tunnel. cbn [fst]. destruct (net 0%nat _); intros H; elem_of_events; congruence.
Qed.

(** The secrets matter only through the entry of the rule that applies. *)
Lemma forward_loop_secrets net probes fuel i n c c' rule host port h s u :
  (forall r, rule = Some r -> forall j, secrets c j !! secret_cache_key r = secrets c' j !! secret_cache_key r) ->
  forward_loop net probes fuel i n c rule host port h s u =
  forward_loop net probes fuel i n c' rule host port h s u.
Proof.
  intros Hs. assert (Hb : forall i h, request_bytes c rule i h = request_bytes c' rule i h).
  { intros j h'. unfold request_bytes. destruct rule as [r|]; [|done]. by rewrite (Hs r). }
  revert i n h s u; induction fuel as [|f IH]; intros i n h s u; [done|]. cbn [forward_loop].
  destruct (match probes i with PClosed => _ | PIdle => _ | PByte _ => _ end) as [evs [u1|]]; [|done].
  destruct (relay_body s (headers h)) as [body [s1| |]]; [|by rewrite Hb..].
  destruct (relay_response s1 u1) as [revs [u2|]]; [|by rewrite Hb].
  destruct (read_request_head s1) as [[[next s2]|]| |]; [|by rewrite Hb..].
  by rewrite IH, Hb.
Qed.

(** ** The two readers agree *)

Lemma read_heads_agree s h rest :
  NetHttp.read_request_head s = Ok (Some (h, rest)) ->
  exists v, read_request_head s =
    Ok (Some (mkHead (NetHttp.method h) (NetHttp.target h) v (NetHttp.headers h), rest)).
Proof.
  unfold NetHttp.read_request_head, read_request_head.
  destruct (read_line s) as [[l s']| |]; cbn [mbind res_bind]; [|done..].
  destruct (is_empty l); [done|].
  destruct (splitn 3 32 (trim_end l) !! 1%nat) as [tg|]; cbn [ok_or mbind res_bind]; [|done].
  destruct (is_empty (default _ _)); [done|].
  destruct (read_headers _ _ s') as [[[hs rw] rest']| |]; cbn [mbind res_bind]; [|done..].
  intros [= <- <-]. eauto.
Qed.

Lemma destinations_agree h v :
  destination (mkHead (NetHttp.method h) (NetHttp.target h) v (NetHttp.headers h)) =
  NetHttp.destination h.
Proof. done. Qed.

(** ** The chain from net-proxy *)

(** What the next hop of a net-proxy connection receives. *)
Definition upstream_bytes (evs : list event) : bytes :=
  concat (omap (fun ev => match ev with SendUp d | Relay d => Some d | _ => None end) evs).

Lemma upstream_bytes_app a b : upstream_bytes (a ++ b) = upstream_bytes a ++ upstream_bytes b.
Proof. unfold upstream_bytes. by rewrite omap_app, concat_app. Qed.

(** The first line of a [CONNECT] that net-proxy sends to a parent proxy decides
    the destination identity-proxy reads. *)
Lemma connect_request_destination p host port tl h rest :
  10 ∉ host -> 32 ∉ host -> 0 <= port ->
  read_request_head (connect_request p host port ++ tl) = Ok (Some (h, rest)) ->
  method h = B "CONNECT" /\ target h = host ++ 58 :: dec port.
Proof.
  intros Hnl Hsp Hp. unfold read_request_head.
  set (line := B "CONNECT" ++ 32 :: (host ++ 58 :: dec port) ++ 32 :: B "HTTP/1.1").
  assert (Hs : exists tl', connect_request p host port ++ tl = (line ++ [13]) ++ 10 :: tl').
  { unfold connect_request, line. eexists. cbn [B app]. simplify_list_eq. reflexivity. }
  destruct Hs as [tl' ->].
  assert (Hd : 10 ∉ dec port) by (apply dec_no_sep; lia).
  assert (Hd' : 32 ∉ dec port) by (apply dec_no_sep; lia).
  assert (Hl : 10 ∉ line ++ [13]).
  { subst line. rewrite !not_elem_of_app, !not_elem_of_cons, !not_elem_of_app, not_elem_of_cons.
    split_and!; try done; try (apply (bool_decide_unpack _); by vm_compute). }
  unfold read_line. rewrite until_nl_line by done.
  destruct (utf8_valid _); cbn [mbind res_bind]; [|done].
  replace (is_empty _) with false by done.
  rewrite !trim_end_snoc by (apply (bool_decide_unpack _); by vm_compute) || lia.
  rewrite trim_end_id.
  2: { subst line. change (B "CONNECT" ++ 32 :: (host ++ 58 :: dec port) ++ 32 :: B "HTTP/1.1")
         with (B "CONNECT" ++ (32 :: host ++ 58 :: dec port) ++ 32 :: B "HTTP/1.1").
       rewrite app_assoc. apply last_word_http. }
  subst line. rewrite splitn3.
  2: apply (bool_decide_unpack _); by vm_compute.
  2: set_solver.
  cbn [lookup list_lookup from_option ok_or mbind res_bind]. unfold id.
  change (is_empty (B "CONNECT")) with false.
  destruct (read_headers _ _ tl') as [[[hs rw] rest']| |]; cbn [mbind res_bind]; [|done..].
  by intros [= <- <-].
Qed.

Lemma connect_host_clean s head rest host port :
  NetHttp.read_request_head s = Ok (Some (head, rest)) -> is_connect head = true ->
  NetHttp.destination head = Ok (host, port) ->
  (10 ∉ host) /\ (32 ∉ host) /\ 0 <= port /\
  split_host_port (host ++ 58 :: dec port) 443 = Ok (host, port).
Proof.
  intros (x & rw & Hx & _ & _ & _ & _ & Hm & Ht & _)%NetHttp.read_request_head_inv Hc.
  unfold NetHttp.destination. unfold is_connect in Hc. rewrite Hc. intros Hd.
  destruct (split_host_port_part _ _ _ _ Hd) as [r Hr].
  destruct (splitn3_inv _ _ _ Hm Ht) as (_ & Hsp & Hv).
  assert (Hnl : 10 ∉ NetHttp.target head).
  { assert (Hx' : 10 ∉ trim_end x) by (by intros ?%elem_of_trim_end).
    destruct Hv as [[Hv _]|(v & Hv & _)]; rewrite Hv in Hx'; set_solver. }
  rewrite Hr in Hnl, Hsp. split_and!; [set_solver..| |].
  - apply split_host_port_bound in Hd as [? _]; unfold U16_MAX; lia.
  - eapply split_host_port_render; [|done]. unfold U16_MAX. lia.
Qed.

(** What identity-proxy receives of an authorised [CONNECT]. *)
Lemma tunnel_bytes net s host port ip :
  upstream_bytes (EgressProxy.tunnel net s host port (Some ip) []) = [] \/
  exists tl, upstream_bytes (EgressProxy.tunnel net s host port (Some ip) []) =
             connect_request ip host port ++ tl.
Proof.
  unfold EgressProxy.tunnel, tunnel_inner, connect. cbn [is_allowed existsb negb].
  destruct (net 0%nat _) as [chunks|]; [right|by left].
  destruct (res_ok _); rewrite !upstream_bytes_app; unfold upstream_bytes at 1; cbn [omap list_omap concat];
    rewrite app_nil_r; eauto.
Qed.

Lemma forward_bytes net s bs host port :
  upstream_bytes (EgressProxy.forward net s bs host port None []) = [] \/
  upstream_bytes (EgressProxy.forward net s bs host port None []) = bs ++ s.
Proof.
  unfold EgressProxy.forward, connect.
  destruct (net 0%nat _); [right|left]; unfold upstream_bytes; cbn; by rewrite ?app_nil_r.
Qed.

Lemma handle_connection_empty net probes c : (handle_connection net probes c []).1 = [].
Proof. done. Qed.

(** ** Every request of a connection is injected *)

(** The requests of a keep-alive connection that starts with the head [h] and
    goes on with the bytes [s], as their framing delimits them, up to some
    point. *)
Inductive requests : RequestHead -> bytes -> list (RequestHead * bytes) -> Prop :=
| req_last h s body r :
    relay_body s (headers h) = (body, r) -> requests h s [(h, body)]
| req_next h s body s1 next s2 reqs :
    relay_body s (headers h) = (body, Ok s1) -> read_request_head s1 = Ok (Some (next, s2)) ->
    requests next s2 reqs -> requests h s ((h, body) :: reqs).

Lemma relay_body_app s hs w rest : relay_body s hs = (w, Ok rest) -> s = w ++ rest.
Proof.
  unfold relay_body. destruct (content_length hs) as [len|].
  - destruct (0 <? len); [|by intros [= <- <-]]. unfold copy_exact.
    pose proof (take_copy_app len s). destruct (take_copy len s). by intros [= <- <-].
  - destruct (is_chunked hs); [apply copy_chunked_app|by intros [= <- <-]].
Qed.

Lemma relay_body_total s hs : no_panic (relay_body s hs).2.
Proof.
  unfold relay_body. destruct (content_length hs) as [len|].
  - destruct (0 <? len); [|done]. by destruct (copy_exact s len).
  - destruct (is_chunked hs); [|done]. apply copy_chunked_total. lia.
Qed.

Lemma forward_loop_total net probes fuel i n c rule host port h s u :
  (length s < fuel)%nat -> no_panic (forward_loop net probes fuel i n c rule host port h s u).2.
Proof.
  revert i n h s u; induction fuel as [|f IH]; intros i n h s u Hf; [lia|]. cbn [forward_loop].
  destruct (match probes i with PClosed => _ | PIdle => _ | PByte _ => _ end) as [evs [u1|]]; [|done].
  pose proof (relay_body_total s (headers h)) as Ht.
  destruct (relay_body s (headers h)) as [body [s1| |]] eqn:Eb; [|done|by destruct Ht].
  apply relay_body_app in Eb. apply (f_equal length) in Eb. rewrite length_app in Eb.
  destruct (relay_response s1 u1) as [revs [u2|]]; [|done].
  destruct (read_request_head s1) as [[[next s2]|]| |] eqn:En; [|done|done|].
  2: by apply id_read_request_head_total in En.
  apply read_request_head_shorter in En.
  specialize (IH (S i) (match probes i with PClosed => S n | _ => n end) next s2 u2).
  destruct (forward_loop _ _ f _ _ _ _ _ _ _ _ _) as [evs' r]. cbn [snd] in *. apply IH. lia.
Qed.

Lemma relay_response_sent s u : sent (relay_response s u).1 = [].
Proof. unfold relay_response. by repeat case_match. Qed.

Lemma forward_loop_sent net probes fuel i n c rule host port h s u :
  (forall m, net m (EHostPort host port) <> None) -> (length s < fuel)%nat ->
  exists reqs, requests h s reqs /\
    sent (forward_loop net probes fuel i n c rule host port h s u).1 =
    concat (imap (fun k rq => request_bytes c rule (i + k) rq.1 ++ rq.2) reqs).
Proof.
  intros Hnet. revert i n h s u; induction fuel as [|f IH]; intros i n h s u Hf; [lia|].
  cbn [forward_loop].
  assert (Hd : exists evs u1, sent evs = [] /\
    match probes i with
    | PClosed => match net n (EHostPort host port) with
                 | Some chunks => ([Dial (EHostPort host port)], Some (concat chunks))
                 | None => ([Dial (EHostPort host port); SendClient BAD_GATEWAY_RESPONSE], None)
                 end
    | PIdle => ([], Some u)
    | PByte k => ([], Some (eat u k))
    end = (evs, Some u1)).
  { destruct (probes i) as [| |k]; [|by exists [], u|by exists [], (eat u k)].
    destruct (net n _) as [l|] eqn:E; [|by apply Hnet in E].
    by exists [Dial (EHostPort host port)], (concat l). }
  destruct Hd as (evs & u1 & Hevs & ->).
  destruct (relay_body s (headers h)) as [body r] eqn:Eb.
  assert (Hone : sent (evs ++ [SendUp (request_bytes c rule i h); SendUp body]) =
                 request_bytes c rule (i + 0) h ++ body).
  { rewrite sent_app, Hevs. unfold sent. cbn. by rewrite app_nil_r, Nat.add_0_r. }
  assert (Hlast : exists reqs, requests h s reqs /\
            request_bytes c rule (i + 0) h ++ body =
            concat (imap (fun k rq => request_bytes c rule (i + k) rq.1 ++ rq.2) reqs)).
  { exists [(h, body)]. split; [by eapply req_last|]. cbn. by rewrite app_nil_r. }
  destruct r as [s1| |]; [|cbn [fst]; by rewrite Hone..].
  pose proof (relay_response_sent s1 u1) as Hrs.
  destruct (relay_response s1 u1) as [revs [u2|]]; cbn [fst] in *;
    [|by rewrite sent_app, Hone, Hrs, app_nil_r].
  destruct (read_request_head s1) as [[[next s2]|]| |] eqn:En;
    [|cbn [fst]; by rewrite sent_app, Hone, Hrs, app_nil_r..].
  pose proof (read_request_head_shorter _ _ _ En) as Hl. pose proof (relay_body_app _ _ _ _ Eb) as Hb.
  apply (f_equal length) in Hb. rewrite length_app in Hb.
  destruct (IH (S i) (match probes i with PClosed => S n | _ => n end) next s2 u2) as (reqs & Hr & Hs);
    [lia|].
  destruct (forward_loop _ _ f _ _ _ _ _ _ _ _ _) as [evs' r']. cbn [fst] in *.
  exists ((h, body) :: reqs). split; [by econstructor|].
  rewrite !sent_app in *. rewrite Hrs, app_nil_r, Hone, Hs. cbn [imap concat fst snd].
  f_equal. f_equal. apply imap_ext. intros k rq _. unfold compose. by rewrite Nat.add_succ_r.
Qed.

(** The names net-proxy forwards before the allowlist. *)
Definition pod_name (c : EgressConfig) (host : bytes) : bool :=
  bool_decide (is_Some (resolve_squad (internal c) host)) ||
  bool_decide (is_Some (resolve (internal c) host)) ||
  (eq_ignore_ascii_case host (B "simulator") && bool_decide (is_Some (simulator c))).

Lemma pod_name_false c host :
  pod_name c host = false ->
  resolve_squad (internal c) host = None /\ resolve (internal c) host = None /\
  (if eq_ignore_ascii_case host (B "simulator") then simulator c else None) = None.
Proof.
  unfold pod_name. intros [[H1 H2]%orb_false_iff H3]%orb_false_iff.
  apply bool_decide_eq_false in H1, H2. apply eq_None_not_Some in H1, H2.
  split_and!; [done..|]. destruct (eq_ignore_ascii_case _ _); [|done].
  apply bool_decide_eq_false in H3. by apply eq_None_not_Some.
Qed.

(** ** Claims *)

(** C19: credentials are confined.  What the proxy does, on every connection and
    towards the client, depends on the secret cache only through the entry of the
    rule that matches the destination of a plain HTTP request: with no matching
    rule, or for a [CONNECT], it does not depend on it at all. *)
Theorem credential_confined net probes c c' s :
  rules c = rules c' ->
  (forall h rest host port rule,
     read_request_head s = Ok (Some (h, rest)) -> destination h = Ok (host, port) ->
     eq_ignore_ascii_case (method h) (B "CONNECT") = false ->
     matching (rules c) host = Some rule ->
     forall i, secrets c i !! secret_cache_key rule = secrets c' i !! secret_cache_key rule) ->
  handle_connection net probes c s = handle_connection net probes c' s.
Proof.
  intros Hr Hs. unfold handle_connection.
  destruct (read_request_head s) as [[[h rest]|]| |] eqn:Eh; try done.
  destruct (destination h) as [[host port]| |] eqn:Ed; try done.
  rewrite <- Hr. destruct (eq_ignore_ascii_case _ _) eqn:Ec; [done|].
  unfold forward. destruct (net 0%nat _); [|done].
  rewrite (forward_loop_secrets _ _ _ _ _ c c'); [done|]. intros r Hm. by eapply Hs.
Qed.

(** C2: end to end, through both proxies.  When net-proxy chains to
    identity-proxy, whatever bytes the guest sends, a connection identity-proxy
    opens on reading what net-proxy sent is for one of two reasons: the guest's
    request named an allow-listed host that is no name of the pod, and the
    connection goes to that very host and port; or the request named one of the
    pod's own names (a target of the squad, an alias, the simulator), which
    net-proxy forwards before any allowlist.  The second case lets the guest
    choose the destination: [identity_alias_bypass]. *)
Theorem identity_chain_mediated mac net hung c now s ip net' probes ic e :
  identity_proxy c = Some ip ->
  Dial e ∈ (handle_connection net' probes ic
              (upstream_bytes (EgressProxy.handle_connection mac net hung c now s).1)).1 ->
  exists head rest host port,
    NetHttp.read_request_head s = Ok (Some (head, rest)) /\
    NetHttp.destination head = Ok (host, port) /\
    (if pod_name c host then True
     else is_allowed host (allowlist c) = true /\ e = EHostPort host port).
Proof.
  intros Hip. unfold EgressProxy.handle_connection.
  destruct (NetHttp.read_request_head s) as [[[head rest]|]| |] eqn:Eh;
    [|cbn; intros H; elem_of_events..].
  destruct (NetHttp.destination head) as [[host port]| |] eqn:Ed; [|cbn; intros H; elem_of_events..].
  destruct (pod_name c host) eqn:Ep;
    [intros _; exists head, rest, host, port; by rewrite Ep|].
  apply pod_name_false in Ep as Hn. destruct Hn as (-> & -> & ->).
  destruct (is_allowed host (allowlist c)) eqn:Ea; cbn [negb].
  2: { cbn [fst]. unfold deny. destruct (anomaly c); cbn; intros H; elem_of_events. }
  intros H. exists head, rest, host, port. rewrite Ep. split_and!; [done..|]. revert H.
  destruct (is_connect head) eqn:Ec.
  - unfold egress_hop. rewrite Hip. cbn [fst].
    destruct (connect_host_clean _ _ _ _ _ Eh Ec Ed) as (H1 & H2 & H3 & Hsp).
    destruct (tunnel_bytes net rest host port ip) as [-> | (tl & ->)];
      [rewrite handle_connection_empty; intros H; elem_of_events|].
    intros (h & rest' & host' & port' & Hr & Hd & ->)%id_handle_connection_dials.
    apply connect_request_destination in Hr as [Hm Ht]; [|done..].
    unfold destination in Hd. rewrite Hm, Ht in Hd. change (eq_ignore_ascii_case _ _) with true in Hd.
    cbn iota in Hd. congruence.
  - rewrite Hip. cbn [fst].
    destruct (forward_bytes net rest (raw head) (up_host ip) (up_port ip)) as [-> | ->];
      [rewrite handle_connection_empty; intros H; elem_of_events|].
    rewrite <- (read_request_head_raw _ _ _ Eh).
    intros (h & rest' & host' & port' & Hr & Hd & ->)%id_handle_connection_dials.
    apply read_heads_agree in Eh as [v Eh]. rewrite Eh in Hr. injection Hr as <- <-.
    rewrite destinations_agree, Ed in Hd. congruence.
Qed.

Lemma identity_chain_mediated_witness :
  let c := mkConfig [B "*.example.org"] None [] no_routes
             (Some (mkUpstream (B "127.0.0.1:3129") None)) None None None [] in
  exists head rest host port,
    NetHttp.read_request_head (request_to "a.example.org") = Ok (Some (head, rest)) /\
    NetHttp.destination head = Ok (host, port) /\
    (if pod_name c host then True
     else is_allowed host (allowlist c) = true /\
          EHostPort (B "a.example.org") 80 = EHostPort host port).
Proof.
  intros c.
  apply (identity_chain_mediated toy_mac accept_all (fun _ => false) c 0 (request_to "a.example.org")
           (mkUpstream (B "127.0.0.1:3129") None) accept_all (fun _ => PIdle)
           (mkProxy [] (fun _ => ∅)) (EHostPort (B "a.example.org") 80)).
  - reflexivity.
  - apply list_elem_of_In. vm_compute. left. reflexivity.
Defined.

(** The second case of [identity_chain_mediated] is open to any guest.  A request
    whose line names the alias [identity-proxy] is rewritten to origin form and
    forwarded without any allowlist; identity-proxy then takes the destination
    from the [Host] header, which the guest wrote: with an empty allowlist the
    pod connects to a host of the guest's choice. *)
Lemma identity_alias_bypass :
  let ip := mkUpstream (B "127.0.0.1:3129") None in
  let routes := mkRoutes {[ B "identity-proxy" := (B "127.0.0.1", 3129) ]} ∅ ∅ in
  let c := mkConfig [] None [] routes (Some ip) None None None [] in
  let s := B "GET http://identity-proxy/x HTTP/1.1" ++ crlf ++ B "Host: evil.com" ++ crlf ++ crlf in
  is_allowed (B "evil.com") (allowlist c) = false /\
  Dial (EHostPort (B "evil.com") 80) ∈
    (handle_connection accept_all (fun _ => PIdle) (mkProxy [] (fun _ => ∅))
       (upstream_bytes (EgressProxy.handle_connection toy_mac accept_all (fun _ => false) c 0 s).1)).1.
Proof. intros ip rt c s. split; [reflexivity|]. apply list_elem_of_In. vm_compute. left. reflexivity. Qed.

Lemma credential_confined_witness :
  let rule := mkRule (B "git") (B "Authorization") (B "token ") (B "pat") (B "value") in
  let c := mkProxy [rule] (fun _ => {[ B "pat#value" := B "x" ]}) in
  let c' := mkProxy [rule] (fun _ => ∅) in
  handle_connection accept_all (fun _ => PIdle) c (request_to "evil.com") =
  handle_connection accept_all (fun _ => PIdle) c' (request_to "evil.com").
Proof.
  intros rule c c'.
  apply (credential_confined accept_all (fun _ => PIdle) c c' (request_to "evil.com")); [reflexivity|].
  intros h rest host port r Hr. vm_compute in Hr. injection Hr as <- <-.
  intros Hd. vm_compute in Hd. injection Hd as <- <-. intros _ Hm. vm_compute in Hm. discriminate Hm.
Defined.

(** Every request of a keep-alive connection is injected.  If the destination
    accepts connections, the relay always ends, and what it sends is the
    connection's requests in order, from the first on and with none skipped, each
    with the credential current at its round and its body unchanged, across
    every reconnection. *)
Theorem forward_injects_all net probes c s h rule host port :
  (forall n, net n (EHostPort host port) <> None) ->
  no_panic (forward net probes c s h rule host port).2 /\
  exists reqs, requests h s reqs /\
    sent (forward net probes c s h rule host port).1 =
    concat (imap (fun i rq => request_bytes c rule i rq.1 ++ rq.2) reqs).
Proof.
  intros Hnet. unfold forward. destruct (net 0%nat _) as [chunks|] eqn:E0; [|by apply Hnet in E0].
  pose proof (forward_loop_total net probes (S (length s)) 0 1 c rule host port h s (concat chunks)) as Ht.
  destruct (forward_loop_sent net probes (S (length s)) 0 1 c rule host port h s (concat chunks) Hnet)
    as (reqs & Hr & Hs); [lia|].
  destruct (forward_loop _ _ _ _ _ _ _ _ _ _ _ _) as [evs r]. cbn [fst snd] in *.
  split; [apply Ht; lia|]. exists reqs. by split.
Qed.

Lemma forward_injects_all_witness :
  let rule := mkRule (B "git") (B "Authorization") (B "token ") (B "pat") (B "value") in
  let c := mkProxy [rule] (fun _ => {[ B "pat#value" := B "x" ]}) in
  no_panic (forward accept_all (fun _ => PIdle) c [] sample_head (Some rule) (B "git") 80).2 /\
  exists reqs, requests sample_head [] reqs /\
    sent (forward accept_all (fun _ => PIdle) c [] sample_head (Some rule) (B "git") 80).1 =
    concat (imap (fun i rq => request_bytes c (Some rule) i rq.1 ++ rq.2) reqs).
Proof.
  intros rule c.
  apply (forward_injects_all accept_all (fun _ => PIdle) c [] sample_head (Some rule) (B "git") 80).
  discriminate.
Defined.

(** ** Divergences *)

(** The response to a [HEAD] announces the length of a body it does not have: the
    relay takes that many bytes of the next response for it. *)
Lemma head_response_desync :
  let resp := B "HTTP/1.1 200 OK" ++ crlf ++ B "Content-Length: 8" ++ crlf ++ crlf in
  relay_response [] (resp ++ B "HTTP/1.1 204 No Content" ++ crlf ++ crlf) =
  ([SendClient resp; SendClient (B "HTTP/1.1")], Some (B " 204 No Content" ++ crlf ++ crlf)).
Proof. vm_compute. reflexivity. Qed.

(** The probe of an idle connection consumes the byte it finds: a destination that
    sends anything between two responses has its next response read from the
    second byte on. *)
Lemma probe_loses_byte :
  eat (B "HTTP/1.1 408 Request Timeout") 0 = B "TTP/1.1 408 Request Timeout".
Proof. reflexivity. Qed.
