(* ===== verification/NetAdmin.v ===== *)
(** * net-proxy's shared state: administration, reload, guest metadata

    [crates/net-proxy/src/admin.rs] (hot additions to the allowlist, activation
    of the simulator), the reload task, [parse_csv_env] and the shared
    configuration of [main.rs], and the values served to the guest
    ([metadata.rs], [session_auth.rs], [ssh_authorized_key.rs]).  Each operation
    holds its lock from its first read of the shared value to its last write, so
    it is one function of the state. *)

From S2P Require Import Prelude RustStr Allowlist NetHttp Internal Upstream Anomaly IdentityRules.
From S2P Require Import EgressProxy.

(** ** Administration *)

(** [struct AdminState]: the list and the simulator's route are shared with the
    proxy; [simulator_target] never changes. *)
Record AdminState := mkAdmin {
  ad_allowlist : list bytes;
  ad_simulator_target : option addr;
  ad_simulator : option addr }.

#[global] Instance admin_state_eq_dec : EqDecision AdminState.
Proof. solve_decision. Defined.

(** [fn add_host], with its answer. *)
Definition add_host (st : AdminState) (request_host : bytes) : AdminState * bytes :=
  let host := trim request_host in
  if is_empty host then (st, B "host vide, ignore")
  else if mem_ignore_case (ad_allowlist st) host then (st, B "deja present")
  else (mkAdmin (ad_allowlist st ++ [host]) (ad_simulator_target st) (ad_simulator st), B "ajoute").

(** [fn enable_simulator]. *)
Definition enable_simulator (st : AdminState) : AdminState * bytes :=
  match ad_simulator_target st with
  | None => (st, B "aucun simulateur configure pour ce Workshop")
  | Some target =>
      (mkAdmin (ad_allowlist st) (ad_simulator_target st) (Some target), B "simulateur active")
  end.

(** ** Startup configuration *)

(** [fn parse_csv_env]. *)
Definition parse_csv_env (env : string -> option bytes) (name : string) : list bytes :=
  csv (default [] (env name)).

(** [simulator_target] of [main]. *)
Definition simulator_target (env : string -> option bytes) : option addr :=
  a ← non_blank (env "ATELIER_SIMULATOR_ADDR");
  '(host, port) ← rsplit_once 58 a;
  port ← parse_u16 port;
  Some (host, port).

(** [identity_proxy] of [main]. *)
Definition identity_proxy_from_env (env : string -> option bytes) : option UpstreamProxy :=
  (fun a => mkUpstream a None) <$> non_blank (env "ATELIER_IDENTITY_PROXY_ADDR").

(** [EgressConfig] as [main] builds it, and the administration's state. *)
Definition egress_config (base64 : bytes -> bytes) (env : string -> option bytes)
  : res EgressConfig :=
  internal_routes ← routes_from_env env;
  Ok (mkConfig (parse_csv_env env "ATELIER_EGRESS_ALLOWLIST") (upstream_from_env base64 env)
        (no_proxy_from_env env) internal_routes (identity_proxy_from_env env) None
        (Some (detector_from_env env)) (non_blank (env "ATELIER_SQUAD_TOKEN_KEY"))
        (default [] (env "ATELIER_WORKSHOP_NAME"))).
Definition admin_state (c : EgressConfig) (env : string -> option bytes) : AdminState :=
  mkAdmin (allowlist c) (simulator_target env) (simulator c).

(** ** Reloading the allowlist *)

(** One round of [spawn_allowlist_reload]: [content] is the file's, [None] when it
    cannot be read.  The state is the list in memory and [previous_file]. *)
Definition reload_round (content : option bytes) (st : list bytes * list bytes)
  : list bytes * list bytes :=
  let '(current, previous_file) := st in
  match content with
  | None => st
  | Some content =>
      let new_file := parse_file content in
      if bool_decide (new_file = previous_file) then st
      else (merge_reload current previous_file new_file, new_file)
  end.

(** ** Values served to the guest *)

(** [session_auth::refresh_once] and [ssh_authorized_key::refresh_once]. *)
Definition refresh_session_auth (bao : openbao) : option bytes :=
  token ← bao_login bao; bao_read_field bao token (B "session_auth") (B "password").
Definition refresh_ssh_key (bao : openbao) : option bytes :=
  token ← bao_login bao; bao_read_field bao token (B "ssh_key") (B "publicKey").

(** One round of a [refresh_loop]: a failure keeps the known value. *)
Definition refresh_cache (fresh : option bytes) (cache : option bytes) : option bytes :=
  match fresh with Some v => Some v | None => cache end.

Record OrphanProcess := mkOrphan { o_pid : Z; o_command : bytes; o_age_secs : Z }.
Record HeartbeatReport := mkHeartbeat {
  uptime_secs : Z;
  zombies_reaped_total : Z;
  killed_stale_orphans : list OrphanProcess }.

Record MetadataState := mkMetadata {
  md_session_auth : option bytes;
  md_ssh_authorized_key : option bytes;
  md_last_heartbeat : option (Z * HeartbeatReport) }.

(** An answer: a status code and a body. *)
Record http_answer := mkAnswer { a_status : Z; a_body : bytes }.

(** [fn session_auth], [fn ssh_authorized_key]. *)
Definition serve_cached (cache : option bytes) : http_answer :=
  match cache with Some v => mkAnswer 200 v | None => mkAnswer 503 [] end.
Definition get_session_auth (st : MetadataState) : http_answer := serve_cached (md_session_auth st).
Definition get_ssh_authorized_key (st : MetadataState) : http_answer :=
  serve_cached (md_ssh_authorized_key st).

(** [{:03}] of a number below 1000. *)
Definition pad3 (n : Z) : bytes :=
  [48 + n / 100; 48 + (n / 10) mod 10; 48 + n mod 10].

(** [fn host_time]: [now] in milliseconds since the epoch. *)
Definition host_time (now_ms : Z) : bytes := dec (now_ms / 1000) ++ B "." ++ pad3 (now_ms mod 1000).

(** [fn heartbeat]: stamped on reception. *)
Definition heartbeat (st : MetadataState) (received_at : Z) (report : HeartbeatReport)
  : MetadataState * http_answer :=
  (mkMetadata (md_session_auth st) (md_ssh_authorized_key st) (Some (received_at, report)),
   mkAnswer 204 []).
