(* ===== verification/McpGateway.v ===== *)
(** * The agent's tools

    [crates/mcp-gateway/src/gateway.rs]: the MCP tools the agent may call, each
    enabled by [Workshop.spec.tools], and what they change: net-proxy's
    administration state, and the list of simulators of the Workshop resource.
    OpenBao, the reachability of the administration server and the Kubernetes
    API's answers are arguments. *)

From S2P Require Import Prelude RustStr Allowlist Internal IdentityRules NetAdmin.

#[local] Arguments mem_ignore_case : simpl never.
#[local] Arguments merge_reload : simpl never.
#[local] Arguments is_allowed : simpl never.

Definition CREDENTIAL_SECRET_PATH := B "mcp".

Inductive SimulatorType := Postgres | Localstack | Wiremock.

#[global] Instance simulator_type_eq_dec : EqDecision SimulatorType.
Proof. solve_decision. Defined.

(** [struct SimulatorSpec]; [env] in the order of the [BTreeMap]. *)
Record SimulatorSpec := mkSimulator {
  sim_name : bytes;
  sim_type : SimulatorType;
  sim_env : list (bytes * bytes) }.

(** [struct GatewayConfig], less the HTTP client; [g_workshops] says whether a
    Kubernetes client could be built. *)
Record GatewayConfig := mkGateway {
  enabled_tools : gset bytes;
  g_openbao : option openbao;
  g_admin_addr : option bytes;
  g_workshop_name : bytes;
  g_workshops : bool }.

(** The three kinds of [ErrorData] the tools return. *)
Inductive tool_error := InvalidRequest | InvalidParams | InternalError.
Abbreviation tool_result := (bytes + tool_error)%type.

(** [fn parse_simulator_type]. *)
Definition parse_simulator_type (raw : bytes) : option SimulatorType :=
  if beq raw (B "postgres") then Some Postgres
  else if beq raw (B "localstack") then Some Localstack
  else if beq raw (B "wiremock") then Some Wiremock
  else None.

(** [fn request_credential]. *)
Definition request_credential (c : GatewayConfig) (field : bytes) : tool_result :=
  if negb (bool_decide (B "identity" ∈ enabled_tools c)) then inr InvalidRequest
  else match g_openbao c with
       | None => inr InternalError
       | Some client =>
           match bao_login client with
           | None => inr InternalError
           | Some token =>
               match bao_read_field client token CREDENTIAL_SECRET_PATH field with
               | Some value => inl value
               | None => inr InternalError
               end
           end
       end.

(** [fn request_egress]; [reachable] says whether the administration server
    answers. *)
Definition request_egress (c : GatewayConfig) (reachable : bool) (st : AdminState) (host : bytes)
  : AdminState * tool_result :=
  if negb (bool_decide (B "egress" ∈ enabled_tools c)) then (st, inr InvalidRequest)
  else match g_admin_addr c with
       | None => (st, inr InternalError)
       | Some _ =>
           if negb reachable then (st, inr InternalError)
           else let '(st, answer) := add_host st host in (st, inl answer)
       end.

(** [fn enable_simulator]. *)
Definition tool_enable_simulator (c : GatewayConfig) (reachable : bool) (st : AdminState)
  : AdminState * tool_result :=
  if negb (bool_decide (B "enable_simulator" ∈ enabled_tools c)) then (st, inr InvalidRequest)
  else match g_admin_addr c with
       | None => (st, inr InternalError)
       | Some _ =>
           if negb reachable then (st, inr InternalError)
           else let '(st, answer) := enable_simulator st in (st, inl answer)
       end.

(** The first part of [fn request_simulator]: [inl] of an answer, or [inr] of the
    list to patch.  [current] is what [workshops.get] returned. *)
Definition plan_simulator (c : GatewayConfig) (current : option (list SimulatorSpec))
    (name type_ : bytes) (env : list (bytes * bytes)) : tool_result + list SimulatorSpec :=
  if negb (bool_decide (B "request_simulator" ∈ enabled_tools c)) then inl (inr InvalidRequest)
  else if negb (g_workshops c) then inl (inr InternalError)
  else match current with
       | None => inl (inr InternalError)
       | Some sims =>
           if existsb (fun s => beq (sim_name s) name) sims then
             inl (inl (B "Simulateur '" ++ name ++
                       B "' deja declare pour ce Workshop, aucune modification."))
           else match parse_simulator_type type_ with
                | None => inl (inr InvalidParams)
                | Some ty => inr (sims ++ [mkSimulator name ty env])
                end
       end.

Definition simulator_added (name : bytes) : bytes :=
  B "Simulateur '" ++ name ++
  B "' ajoute a Workshop.spec.simulators. Il sera joignable via '" ++ name ++
  B ".atelier.internal' apres le prochain cycle stop/resume de ce Workshop.".

(** The merge patch that ends [fn request_simulator]: it replaces the list.
    [accepted] is the API server's answer. *)
Definition apply_simulators (sims : list SimulatorSpec) (accepted : bool)
    (patch : list SimulatorSpec) (name : bytes) : list SimulatorSpec * tool_result :=
  if accepted then (patch, inl (simulator_added name)) else (sims, inr InternalError).

(** [fn request_simulator], with no other change of the resource between its
    [get] and its [patch]. *)
Definition request_simulator (c : GatewayConfig) (get_ok accepted : bool)
    (sims : list SimulatorSpec) (name type_ : bytes) (env : list (bytes * bytes))
  : list SimulatorSpec * tool_result :=
  match plan_simulator c (if get_ok then Some sims else None) name type_ env with
  | inl answer => (sims, answer)
  | inr patch => apply_simulators sims accepted patch name
  end.

(** ** Declared simulators *)

Definition unique_names (sims : list SimulatorSpec) : Prop := NoDup (sim_name <$> sims).

Lemma plan_simulator_patch c sims name type_ env patch :
  plan_simulator c (Some sims) name type_ env = inr patch ->
  exists ty, B "request_simulator" ∈ enabled_tools c /\ parse_simulator_type type_ = Some ty /\
    (name ∉ sim_name <$> sims) /\ patch = sims ++ [mkSimulator name ty env].
Proof.
  unfold plan_simulator. case_bool_decide; cbn [negb]; [|done].
  destruct (negb (g_workshops c)); [done|].
  destruct (existsb _ sims) eqn:E; [done|]. rewrite existsb_false in E.
  destruct (parse_simulator_type type_) as [ty|]; [|done]. intros [= <-]. exists ty.
  split_and!; [done..| |done]. intros (s & Hn & Hs)%list_elem_of_fmap.
  specialize (E s Hs). apply beq_false in E. congruence.
Qed.

(** ** Claims *)

(** [request_simulator] keeps the names of the declared simulators unique and
    only ever appends: it answers without a change when the name is declared, and
    otherwise adds exactly the simulator asked for, of a known type, and only if
    its tool is enabled. *)
Theorem request_simulator_unique c get_ok accepted sims name type_ env sims' answer :
  request_simulator c get_ok accepted sims name type_ env = (sims', answer) ->
  unique_names sims ->
  unique_names sims' /\
  (sims' = sims \/
   exists ty, B "request_simulator" ∈ enabled_tools c /\ parse_simulator_type type_ = Some ty /\
     sims' = sims ++ [mkSimulator name ty env] /\ answer = inl (simulator_added name)).
Proof.
  unfold request_simulator, apply_simulators, unique_names. intros H Hu.
  destruct (plan_simulator _ _ _ _ _) as [a|patch] eqn:E; [injection H as <- <-; auto|].
  destruct accepted; [|injection H as <- <-; auto].
  destruct get_ok; [|by revert E; unfold plan_simulator; repeat case_match].
  apply plan_simulator_patch in E as (ty & Ht & Hp & Hn & ->).
  assert (sims' = sims ++ [mkSimulator name ty env] /\ answer = inl (simulator_added name))
    as [-> ->] by (by split; congruence).
  split; [|right; by exists ty]. rewrite fmap_app. apply NoDup_app. split_and!; [done| |].
  - intros x Hx ->%list_elem_of_singleton. by apply Hn.
  - apply NoDup_singleton.
Qed.

Definition simulator_gateway : GatewayConfig :=
  mkGateway {[ B "request_simulator" ]} None None (B "ws") true.

Lemma request_simulator_unique_witness :
  let db := mkSimulator (B "db") Postgres [] in
  unique_names [db; mkSimulator (B "s3") Localstack []] /\
  ([db; mkSimulator (B "s3") Localstack []] = [db] \/
   exists ty, B "request_simulator" ∈ enabled_tools simulator_gateway /\
     parse_simulator_type (B "localstack") = Some ty /\
     [db; mkSimulator (B "s3") Localstack []] = [db] ++ [mkSimulator (B "s3") ty []] /\
     (inl (simulator_added (B "s3")) : tool_result) = inl (simulator_added (B "s3"))).
Proof.
  intros db.
  apply (request_simulator_unique simulator_gateway true true [db] (B "s3") (B "localstack") []).
  - vm_compute. reflexivity.
  - apply NoDup_singleton.
Defined.

(** Two calls that overlap: both read the list, then both patch.  Both answer that
    the simulator was added, and the first one's is lost, since the merge patch
    replaces the whole list and carries no resource version. *)
Lemma request_simulator_lost_update :
  let patch1 := [mkSimulator (B "a") Postgres []] in
  let patch2 := [mkSimulator (B "b") Postgres []] in
  plan_simulator simulator_gateway (Some []) (B "a") (B "postgres") [] = inr patch1 /\
  plan_simulator simulator_gateway (Some []) (B "b") (B "postgres") [] = inr patch2 /\
  let '(sims, answer1) := apply_simulators [] true patch1 (B "a") in
  let '(sims, answer2) := apply_simulators sims true patch2 (B "b") in
  answer1 = inl (simulator_added (B "a")) /\ answer2 = inl (simulator_added (B "b")) /\
  sims = patch2.
Proof. split; [vm_compute; reflexivity|]. split; [vm_compute; reflexivity|]. vm_compute. auto. Qed.

Definition sample_gateway : GatewayConfig :=
  mkGateway {[ B "egress" ]} None (Some (B "127.0.0.1:9001")) (B "ws") false.

(** An entry the agent adds with [request_egress] lets through every host it
    matches from then on, the call's answer says so, and no reload of a file that
    does not list it takes it away. *)
Theorem request_egress_effective g st host st' answer file contents h :
  request_egress g true st host = (st', inl answer) -> is_allowed h [trim host] = true ->
  mem_ignore_case file (trim host) = false ->
  Forall (fun content => mem_ignore_case (parse_file content) (trim host) = false) contents ->
  answer ∈ [B "ajoute"; B "deja present"] /\
  is_allowed h
    (fold_left (fun st content => reload_round (Some content) st) contents
       (ad_allowlist st', file)).1 = true.
Proof.
  intros H Hh Hf Hc.
  assert (Hne : trim host <> []) by (intros E; by rewrite E in Hh).
  assert (Hm : answer ∈ [B "ajoute"; B "deja present"] /\
               mem_ignore_case (ad_allowlist st') (trim host) = true).
  { revert H. unfold request_egress, add_host. case_bool_decide; cbn [negb]; [|done].
    destruct (g_admin_addr g); [|done].
    replace (is_empty (trim host)) with false by (by destruct (trim host)).
    destruct (mem_ignore_case (ad_allowlist st) (trim host)) eqn:Em;
      intros [= <- <-]; [by split; [set_solver|]|].
    split; [set_solver|]. cbn. by rewrite mem_ignore_case_app, mem_ignore_case_single,
      eq_ignore_refl, orb_true_r. }
  destruct Hm as [Ha Hm]. split; [done|]. clear H Ha. generalize (ad_allowlist st') file Hm Hf. clear Hm Hf.
  induction Hc as [|content contents Hc _ IH]; intros allow file' Hm Hf; cbn [fold_left].
  - eapply is_allowed_mem; [|exact Hh]. intros x. rewrite mem_ignore_case_single.
    intros Hx. cbn [fst]. by rewrite <- (mem_ignore_case_eq _ _ _ Hx).
  - unfold reload_round at 2. case_bool_decide; [by apply IH|]. apply IH; [|done].
    by rewrite merge_reload_mem, Hm, Hf, orb_true_r.
Qed.

Lemma request_egress_effective_witness :
  B "ajoute" ∈ [B "ajoute"; B "deja present"] /\
  is_allowed (B "files.pypi.org")
    (fold_left (fun st content => reload_round (Some content) st) [B "a.org"; B "b.org"]
       ([B "x.org"; B "*.pypi.org"], [B "x.org"])).1 = true.
Proof.
  apply (request_egress_effective sample_gateway (mkAdmin [B "x.org"] None None) (B " *.pypi.org")
           (mkAdmin [B "x.org"; B "*.pypi.org"] None None) (B "ajoute") [B "x.org"]
           [B "a.org"; B "b.org"] (B "files.pypi.org")); try (vm_compute; reflexivity).
  repeat constructor; vm_compute; reflexivity.
Defined.
