(* ===== verification/PodSystem.v ===== *)
(** * The pod as a system

    The components of one pod that share the egress policy: net-proxy's proxy
    and administration server, its reload task, and the agent's tools of
    mcp-gateway.  Every operation on the shared state is a step; the theorems
    bound what any sequence of steps lets the guest reach. *)

From S2P Require Import Prelude RustStr Allowlist NetHttp Internal Upstream EgressProxy.
From S2P Require Import IdentityRules NetAdmin McpGateway.

#[local] Arguments mem_ignore_case : simpl never.
#[local] Arguments merge_reload : simpl never.
#[local] Arguments is_allowed : simpl never.

(** The shared state, the file last read, and, as a ghost, the hosts the agent
    had added. *)
Record pod := mkPod {
  p_admin : AdminState;
  p_file : list bytes;
  p_added : list bytes }.

Inductive pod_step (g : GatewayConfig) : pod -> pod -> Prop :=
| pod_reload a target sim file added content allow' file' :
    reload_round content (a, file) = (allow', file') ->
    pod_step g (mkPod (mkAdmin a target sim) file added)
               (mkPod (mkAdmin allow' target sim) file' added)
| pod_request_egress st file added reachable host st' answer :
    request_egress g reachable st host = (st', inl answer) ->
    pod_step g (mkPod st file added)
               (mkPod st' file (if bool_decide (st' = st) then added else added ++ [trim host]))
| pod_request_egress_refused st file added reachable host st' e :
    request_egress g reachable st host = (st', inr e) ->
    pod_step g (mkPod st file added) (mkPod st' file added)
| pod_enable_simulator st file added reachable st' answer :
    tool_enable_simulator g reachable st = (st', answer) ->
    pod_step g (mkPod st file added) (mkPod st' file added).

(** The pod as [main] starts it: the list in memory is the variable's, and so is
    the reload task's [previous_file]. *)
Definition pod_init (env : string -> option bytes) : pod :=
  let l := parse_csv_env env "ATELIER_EGRESS_ALLOWLIST" in
  mkPod (mkAdmin l (simulator_target env) None) l [].

(** ** The invariant *)

Record pod_inv (g : GatewayConfig) (target : option addr) (p : pod) : Prop := {
  inv_origin x : mem_ignore_case (ad_allowlist (p_admin p)) x = true ->
    mem_ignore_case (p_file p) x = true \/ mem_ignore_case (p_added p) x = true;
  inv_file x : mem_ignore_case (p_file p) x = true ->
    mem_ignore_case (ad_allowlist (p_admin p)) x = true;
  inv_tool : B "egress" ∉ enabled_tools g -> p_added p = [];
  inv_target : ad_simulator_target (p_admin p) = target;
  inv_simulator : ad_simulator (p_admin p) = None \/
    (B "enable_simulator" ∈ enabled_tools g /\ ad_simulator (p_admin p) = target) }.

Lemma pod_init_inv g env : pod_inv g (simulator_target env) (pod_init env).
Proof. split; cbn; auto. Qed.

Lemma reload_inv g target a sim file added content allow' file' :
  reload_round content (a, file) = (allow', file') ->
  pod_inv g target (mkPod (mkAdmin a target sim) file added) ->
  pod_inv g target (mkPod (mkAdmin allow' target sim) file' added).
Proof.
  unfold reload_round. intros Hr Hi. destruct content as [content|]; [|by injection Hr as <- <-].
  case_bool_decide; injection Hr as <- <-; [done|]. destruct Hi as [Ho Hf Ht Hg Hs]. cbn in *.
  split; cbn; [|intros x Hx; by rewrite merge_reload_mem, Hx|done|done|done].
  intros x. rewrite merge_reload_mem, orb_true_iff, andb_true_iff, negb_true_iff.
  intros [?|[Hx Hn]]; [by left|]. destruct (Ho x Hx) as [Hx2|]; [congruence|by right].
Qed.

Lemma request_egress_inv g target st file added reachable host st' answer :
  request_egress g reachable st host = (st', inl answer) ->
  pod_inv g target (mkPod st file added) ->
  pod_inv g target
    (mkPod st' file (if bool_decide (st' = st) then added else added ++ [trim host])).
Proof.
  unfold request_egress, add_host. intros H [Ho Hf Ht Hg Hs]. cbn in *.
  case_bool_decide as Htool; cbn [negb] in H; [|done].
  destruct (g_admin_addr g); [|done]. destruct reachable; cbn [negb] in H; [|done].
  destruct (is_empty (trim host)); [injection H as <- <-; rewrite bool_decide_true by done; by split|].
  destruct (mem_ignore_case _ (trim host)) eqn:Em;
    [injection H as <- <-; rewrite bool_decide_true by done; by split|].
  injection H as <- <-. rewrite bool_decide_false.
  - split; cbn; [| |done|done|done]; intros x; rewrite !mem_ignore_case_app, !orb_true_iff.
    + intros [Hx|Hx]; [destruct (Ho x Hx)|]; auto.
    + intros Hx. auto.
  - destruct st as [al tg sm]. intros [= Hl]. apply (f_equal length) in Hl.
    rewrite length_app in Hl. cbn in Hl. lia.
Qed.

Lemma pod_step_inv g target p p' : pod_step g p p' -> pod_inv g target p -> pod_inv g target p'.
Proof.
  destruct 1 as [a t sim file added content allow' file' H|st file added reachable host st' answer H
                |st file added reachable host st' e H|st file added reachable st' answer H]; intros Hi.
  - pose proof (inv_target _ _ _ Hi) as Ht. cbn in Ht. subst t. by eapply reload_inv.
  - by eapply request_egress_inv.
  - enough (st' = st) as -> by done. revert H. unfold request_egress.
    repeat (case_match; [by intros [= <- _]|]). all: repeat case_match; by intros [= <- ?].
  - revert H. unfold tool_enable_simulator, enable_simulator.
    case_bool_decide as Htool; cbn [negb]; [|by intros [= <- <-]].
    destruct (g_admin_addr g); [|by intros [= <- <-]].
    destruct reachable; cbn [negb]; [|by intros [= <- <-]].
    destruct (ad_simulator_target st) eqn:Et; intros [= <- <-]; [|done].
    destruct Hi as [Ho Hf Ht Hg Hs]. cbn in *. split; cbn; try done.
    + by rewrite Et in Hg.
    + right. by rewrite Et in Hg.
Qed.

Lemma pod_reachable_inv g env p :
  rtc (pod_step g) (pod_init env) p -> pod_inv g (simulator_target env) p.
Proof.
  intros H. assert (Hi := pod_init_inv g env). revert Hi.
  induction H; eauto using pod_step_inv.
Qed.

(** The proxy's configuration with the shared values of the pod. *)
Definition with_pod (c : EgressConfig) (p : pod) : EgressConfig :=
  mkConfig (ad_allowlist (p_admin p)) (upstream c) (no_proxy c) (internal c) (identity_proxy c)
    (ad_simulator (p_admin p)) (anomaly c) (squad_token_key c) (workshop_name c).

Lemma pod_allowed_origin g target p host :
  pod_inv g target p -> is_allowed host (ad_allowlist (p_admin p)) = true ->
  is_allowed host (p_file p) = true \/
  (B "egress" ∈ enabled_tools g /\ exists x, x ∈ p_added p /\ is_allowed host [x] = true).
Proof.
  intros Hi (e & He & Hm)%is_allowed_true. apply mem_ignore_case_in in He.
  assert (Hsingle : forall x, eq_ignore_ascii_case x e = true -> is_allowed host [x] = true).
  { intros x Hx. apply is_allowed_true. exists x. rewrite (normalize_eq_ignore _ _ Hx). set_solver. }
  destruct (inv_origin _ _ _ Hi e He) as [(x & Hx & Heq)%mem_ignore_case_true
                                         |(x & Hx & Heq)%mem_ignore_case_true].
  - left. apply is_allowed_true. exists x. by rewrite (normalize_eq_ignore _ _ Heq).
  - right. split; [|by eauto]. destruct (decide (B "egress" ∈ enabled_tools g)) as [|Hn]; [done|].
    rewrite (inv_tool _ _ _ Hi Hn) in Hx. by apply not_elem_of_nil in Hx.
Qed.

(** Hosts of the file last read are always allowed. *)
Lemma pod_file_allowed g target p host :
  pod_inv g target p -> is_allowed host (p_file p) = true ->
  is_allowed host (ad_allowlist (p_admin p)) = true.
Proof. intros Hi. apply is_allowed_mem. apply (inv_file _ _ _ Hi). Qed.

(** ** Claims *)

(** C1: what the guest can ever reach.  In any state of the pod, after any
    sequence of reloads and tool calls, every connection the proxy opens for a
    guest's request goes to an internal target of that alias, to the simulator
    this pod was given if the tool [enable_simulator] is enabled, or is for a host
    allowed by the egress file last read, or by an entry the agent added with
    [request_egress], which needs the tool [egress]: with that tool disabled the
    file alone decides. *)
Theorem pod_egress_bounded g env p mac net hung c now s e :
  rtc (pod_step g) (pod_init env) p ->
  Dial e ∈ (handle_connection mac net hung (with_pod c p) now s).1 ->
  exists head rest host port,
    read_request_head s = Ok (Some (head, rest)) /\ destination head = Ok (host, port) /\
    ((exists h q, e = EHostPort h q /\
        (resolve_squad (internal c) host = Some (h, q) \/ resolve (internal c) host = Some (h, q))) \/
     (exists h q, e = EHostPort h q /\ B "enable_simulator" ∈ enabled_tools g /\
        simulator_target env = Some (h, q)) \/
     is_allowed host (p_file p) = true \/
     (B "egress" ∈ enabled_tools g /\ exists x, x ∈ p_added p /\ is_allowed host [x] = true)).
Proof.
  intros Hi%pod_reachable_inv (head & rest & host & port & Hh & Hd & Ha)%handle_connection_dials.
  exists head, rest, host, port. split_and!; [done..|].
  destruct Ha as [h q Hr|h q _ Hr|h q _ _ Hs|ip _ Hal|ip _ Hal|up Hal|Hal]; cbn [internal allowlist simulator with_pod] in *;
    [left; exists h, q; by auto|left; exists h, q; by auto| |
     right; right; by eapply pod_allowed_origin..].
  right. left. exists h, q. split; [done|]. destruct (inv_simulator _ _ _ Hi) as [H|[? H]];
    rewrite H in Hs; [done|done].
Qed.

Definition sample_pod_env (name : string) : option bytes :=
  if String.eqb name "ATELIER_EGRESS_ALLOWLIST" then Some (B "*.example.org") else None.
Definition sample_pod : pod :=
  mkPod (mkAdmin [B "*.example.org"; B "pypi.org"] None None) [B "*.example.org"] [B "pypi.org"].

Lemma sample_pod_reachable : rtc (pod_step sample_gateway) (pod_init sample_pod_env) sample_pod.
Proof.
  eapply rtc_l; [|apply rtc_refl].
  eapply (pod_request_egress _ (mkAdmin [B "*.example.org"] None None) [B "*.example.org"] [] true
            (B " pypi.org")).
  vm_compute. reflexivity.
Qed.

Lemma pod_egress_bounded_witness :
  exists head rest host port,
    read_request_head (request_to "pypi.org") = Ok (Some (head, rest)) /\
    destination head = Ok (host, port) /\
    ((exists h q, EHostPort (B "127.0.0.1") 3129 = EHostPort h q /\
        (resolve_squad (internal sample_config) host = Some (h, q) \/
         resolve (internal sample_config) host = Some (h, q))) \/
     (exists h q, EHostPort (B "127.0.0.1") 3129 = EHostPort h q /\
        B "enable_simulator" ∈ enabled_tools sample_gateway /\
        simulator_target sample_pod_env = Some (h, q)) \/
     is_allowed host (p_file sample_pod) = true \/
     (B "egress" ∈ enabled_tools sample_gateway /\
      exists x, x ∈ p_added sample_pod /\ is_allowed host [x] = true)).
Proof.
  apply (pod_egress_bounded sample_gateway sample_pod_env sample_pod SquadToken.toy_mac accept_all
           (fun _ => false) sample_config 0 (request_to "pypi.org") (EHostPort (B "127.0.0.1") 3129)).
  - apply sample_pod_reachable.
  - apply list_elem_of_In. vm_compute. left. reflexivity.
Defined.
