(* ===== verification/PortForward.v ===== *)
(** * Port-forward sessions

    [crates/net-proxy/src/forward.rs] and [portforward.rs]: the list of ports a
    client asks for, the two channels each port gets on the session's websocket,
    and the session: messages of the client routed to the port's connection, data
    of the microVM framed back.  Connections are opened by an argument. *)

From S2P Require Import Prelude RustStr Internal.

Definition MAX_PORTS_PER_SESSION : nat := 16.

Inductive Protocol := Tcp | Udp.
Record PortSpec := mkPort { protocol : Protocol; port : Z }.

(** [fn parse_one]. *)
Definition parse_one (entry : bytes) : res PortSpec :=
  '(protocol, port) ←
    match split_once 58 entry with
    | Some (proto, port) =>
        let p := to_ascii_lowercase proto in
        if beq p (B "tcp") then Ok (Tcp, port)
        else if beq p (B "udp") then Ok (Udp, port)
        else Err "protocole de port-forward inconnu"
    | None => Ok (Tcp, entry)
    end;
  port ← ok_or (parse_u16 port) "port invalide dans l'entree";
  Ok (mkPort protocol port).

(** [collect::<Result<_>>]: the first error, or all the values. *)
Fixpoint collect {A C} (f : A -> res C) (l : list A) : res (list C) :=
  match l with
  | [] => Ok []
  | x :: r => y ← f x; ys ← collect f r; Ok (y :: ys)
  end.

(** [fn parse_ports_query]. *)
Definition parse_ports_query (raw : bytes) : res (list PortSpec) :=
  specs ← collect parse_one (csv raw);
  match specs with
  | [] => Err "parametre 'ports' manquant ou vide"
  | _ =>
      if (MAX_PORTS_PER_SESSION <? length specs)%nat then Err "trop de ports demandes"
      else Ok specs
  end.

(** [fn channel_byte]: the cast to [u8] keeps the low byte. *)
Definition channel_byte (index : nat) (error : bool) : Z :=
  (Z.of_nat index * 2 + Z.b2z error) mod 256.

(** [fn framed]. *)
Definition framed (channel : Z) (payload : bytes) : bytes := channel :: payload.

(** [enum PortSink]: an open connection records what was written to it. *)
Inductive PortSink :=
| SinkTcp (written : bytes)
| SinkUdp (datagrams : list bytes)
| SinkFailed.

(** A message of the websocket. *)
Inductive message := Binary (data : bytes) | Other.

Section session.
(** Whether the connection to the port opens, and the error's text if not;
    whether a write to a TCP port succeeds, by index and payload. *)
Context (open : PortSpec -> option bytes).
Context (write_ok : nat -> bytes -> bool).

(** [fn open_port]: the sink, and the messages sent to the client. *)
Definition open_port (spec : PortSpec) (error_channel : Z) : PortSink * list bytes :=
  match open spec with
  | None => (match protocol spec with Tcp => SinkTcp [] | Udp => SinkUdp [] end, [])
  | Some err => (SinkFailed, [framed error_channel err])
  end.

(** [fn write_to_sink]. *)
Definition write_to_sink (index : nat) (sink : PortSink) (payload : bytes) : PortSink :=
  match sink with
  | SinkTcp w => if write_ok index payload then SinkTcp (w ++ payload) else SinkFailed
  | SinkUdp d => SinkUdp (d ++ [payload])
  | SinkFailed => SinkFailed
  end.

(** One message of the client in [run_session]. *)
Definition client_message (sinks : list PortSink) (msg : message) : list PortSink :=
  match msg with
  | Binary (channel :: payload) =>
      if negb (channel mod 2 =? 0) then sinks
      else
        let index := Z.to_nat (channel / 2) in
        match sinks !! index with
        | Some sink => <[index := write_to_sink index sink payload]> sinks
        | None => sinks
        end
  | _ => sinks
  end.

(** The start of [run_session]: one sink per port, in order. *)
Fixpoint open_ports (index : nat) (specs : list PortSpec) : list PortSink * list bytes :=
  match specs with
  | [] => ([], [])
  | spec :: r =>
      let '(sink, out) := open_port spec (channel_byte index true) in
      let '(sinks, out') := open_ports (S index) r in
      (sink :: sinks, out ++ out')
  end.

(** [fn run_session]: the sinks at the end, and the error messages sent. *)
Definition run_session (specs : list PortSpec) (msgs : list message)
  : list PortSink * list bytes :=
  let '(sinks, out) := open_ports 0 specs in
  (fold_left client_message msgs sinks, out).
End session.
Arguments channel_byte : simpl never.

(** What the payloads for port [i] are, in order. *)
Definition payloads_for (i : nat) (msgs : list message) : list bytes :=
  omap (fun msg => match msg with
                   | Binary (channel :: payload) =>
                       if channel =? channel_byte i false then Some payload else None
                   | _ => None
                   end) msgs.

Lemma channel_byte_small i error : (i < 128)%nat -> channel_byte i error = Z.of_nat i * 2 + Z.b2z error.
Proof. intros H. unfold channel_byte. apply Z.mod_small. destruct error; cbn; lia. Qed.

Lemma channel_byte_inj i j e f :
  (i < 128)%nat -> (j < 128)%nat -> channel_byte i e = channel_byte j f -> i = j /\ e = f.
Proof.
  intros Hi Hj. rewrite !channel_byte_small by done. destruct e, f; cbn; intros; split; lia || done.
Qed.

Lemma collect_length {A C} (f : A -> res C) l ys : collect f l = Ok ys -> length ys = length l.
Proof.
  revert ys; induction l as [|x l IH]; intros ys; cbn; [by intros [= <-]|].
  destruct (f x); cbn; [|done..]. destruct (collect f l) as [ys'| |]; cbn; [|done..].
  intros [= <-]. cbn. by rewrite (IH ys').
Qed.

Lemma collect_Forall {A C} (f : A -> res C) (P : C -> Prop) l ys :
  (forall x y, f x = Ok y -> P y) -> collect f l = Ok ys -> Forall P ys.
Proof.
  intros Hf. revert ys; induction l as [|x l IH]; intros ys; cbn; [by intros [= <-]|].
  destruct (f x) as [y| |] eqn:E; cbn; [|done..]. destruct (collect f l) as [ys'| |]; cbn; [|done..].
  intros [= <-]. constructor; [by eapply Hf|by apply IH].
Qed.

Lemma parse_one_port entry spec : parse_one entry = Ok spec -> 0 <= port spec <= U16_MAX.
Proof.
  unfold parse_one. set (m := match split_once 58 entry with Some _ => _ | None => _ end).
  destruct m as [[pr p]| |]; cbn; [|done..].
  unfold parse_u16. destruct (from_str_radix 10 U16_MAX p) as [n|] eqn:E; cbn; [|done].
  intros [= <-]. by eapply from_str_radix_bound.
Qed.

(** ** Routing *)

Definition sink_payloads (s : PortSink) (ps : list bytes) (index : nat) (write_ok : nat -> bytes -> bool)
  : PortSink := fold_left (write_to_sink write_ok index) ps s.

Lemma even_channel c : is_byte c -> negb (c mod 2 =? 0) = false -> c = channel_byte (Z.to_nat (c / 2)) false.
Proof.
  intros Hc H. apply negb_false_iff, Z.eqb_eq in H. unfold is_byte in Hc.
  assert (0 <= c / 2 < 128) by (split; [apply Z.div_pos|apply Z.div_lt_upper_bound]; lia).
  rewrite channel_byte_small by lia. cbn. pose proof (Z.div_mod c 2). lia.
Qed.

Definition byte_message (msg : message) : Prop :=
  match msg with Binary (c :: _) => is_byte c | _ => True end.

(** A message changes the sink of its own port and no other. *)
Lemma client_message_sink write_ok sinks msg i s :
  byte_message msg -> (length sinks <= 128)%nat -> sinks !! i = Some s ->
  client_message write_ok sinks msg !! i =
  Some (sink_payloads s (payloads_for i [msg]) i write_ok).
Proof.
  intros Hb Hl Hs. pose proof (lookup_lt_Some _ _ _ Hs) as Hi.
  destruct msg as [[|c payload]|]; cbn [client_message payloads_for omap list_omap]; [done| |done].
  cbn in Hb. destruct (negb (c mod 2 =? 0)) eqn:Ep.
  - destruct (c =? channel_byte i false) eqn:Ec; [|done]. apply Z.eqb_eq in Ec as ->.
    rewrite channel_byte_small in Ep by lia. cbn in Ep. rewrite Z.add_0_r, Z.mod_mul in Ep by lia. done.
  - pose proof (even_channel c Hb Ep) as Hc. set (j := Z.to_nat (c / 2)) in *.
    assert (Hj : (j < 128)%nat).
    { subst j. unfold is_byte in Hb. assert (c / 2 < 128) by (apply Z.div_lt_upper_bound; lia). lia. }
    destruct (decide (j = i)) as [->|Hne].
    + rewrite Hs, (proj2 (Z.eqb_eq _ _) Hc). by rewrite list_lookup_insert_eq.
    + replace (c =? channel_byte i false) with false.
      * destruct (sinks !! j); [by rewrite list_lookup_insert_ne|done].
      * symmetry. apply Z.eqb_neq. rewrite Hc. intros H.
        apply channel_byte_inj in H as [? _]; [done|done|lia].
Qed.

Lemma client_message_length write_ok sinks msg :
  length (client_message write_ok sinks msg) = length sinks.
Proof.
  destruct msg as [[|c payload]|]; cbn; [done| |done].
  destruct (negb _); [done|]. destruct (sinks !! _); [|done]. by rewrite length_insert.
Qed.

Lemma payloads_for_cons i msg msgs : payloads_for i (msg :: msgs) = payloads_for i [msg] ++ payloads_for i msgs.
Proof. apply (omap_app _ [msg] msgs). Qed.

Lemma session_routing write_ok msgs sinks i s :
  Forall byte_message msgs -> (length sinks <= 128)%nat -> sinks !! i = Some s ->
  fold_left (client_message write_ok) msgs sinks !! i =
  Some (sink_payloads s (payloads_for i msgs) i write_ok).
Proof.
  intros Hb. revert sinks s; induction Hb as [|msg msgs Hm _ IH]; intros sinks s Hl Hs; [done|].
  cbn [fold_left]. rewrite payloads_for_cons. unfold sink_payloads. rewrite fold_left_app.
  apply IH; [by rewrite client_message_length|]. by apply client_message_sink.
Qed.

Lemma open_ports_lookup open k specs i spec :
  specs !! i = Some spec ->
  (open_ports open k specs).1 !! i = Some (open_port open spec (channel_byte (k + i) true)).1.
Proof.
  revert k i; induction specs as [|sp specs IH]; intros k [|i]; cbn; try done.
  - intros [= ->]. destruct (open_port _ _ _) as [sink out] eqn:E.
    destruct (open_ports _ _ _). cbn. by rewrite Nat.add_0_r, E.
  - intros H. specialize (IH (S k) i H). destruct (open_port _ sp _).
    destruct (open_ports _ _ _). cbn in *. by rewrite Nat.add_succ_r.
Qed.

Lemma open_ports_length open k specs : length (open_ports open k specs).1 = length specs.
Proof.
  revert k; induction specs as [|sp specs IH]; intros k; cbn; [done|].
  specialize (IH (S k)). destruct (open_port _ _ _), (open_ports _ _ _). cbn in *. by rewrite IH.
Qed.

Lemma parse_ports_query_inv raw specs :
  parse_ports_query raw = Ok specs ->
  (0 < length specs <= MAX_PORTS_PER_SESSION)%nat /\ Forall (fun sp => 0 <= port sp <= U16_MAX) specs.
Proof.
  unfold parse_ports_query. destruct (collect parse_one (csv raw)) as [sp| |] eqn:E; cbn [mbind res_bind]; [|done..].
  destruct sp as [|s sp]; [done|]. destruct (Nat.ltb _ _) eqn:El; [done|].
  intros [= <-]. apply Nat.ltb_ge in El. split; [cbn in *; lia|].
  eapply collect_Forall; [|exact E]. apply parse_one_port.
Qed.

(** ** Claims *)

(** A port-forward session.  A query that parses asks for 1 to 16 ports, all
    valid port numbers; their data and error channels are distinct bytes; and
    whatever the client sends, port [i] receives exactly the payloads of the
    messages on its data channel, in order (an error, odd or unknown channel
    reaches no port). *)
Theorem portforward_routing raw specs open write_ok msgs i spec :
  parse_ports_query raw = Ok specs -> Forall byte_message msgs -> specs !! i = Some spec ->
  (length specs <= MAX_PORTS_PER_SESSION)%nat /\ 0 <= port spec <= U16_MAX /\
  (forall j e f, (j < length specs)%nat -> channel_byte i e = channel_byte j f -> i = j /\ e = f) /\
  (run_session open write_ok specs msgs).1 !! i =
    Some (sink_payloads (open_port open spec (channel_byte i true)).1
            (payloads_for i msgs) i write_ok).
Proof.
  intros [Hn Hp]%parse_ports_query_inv Hm Hi. pose proof (lookup_lt_Some _ _ _ Hi) as Hl.
  unfold MAX_PORTS_PER_SESSION in *. split_and!; [lia| | | |].
  1, 2: by apply (Forall_lookup_1 _ _ _ _ Hp Hi).
  - intros j e f Hj. apply channel_byte_inj; lia.
  - unfold run_session. pose proof (open_ports_lookup open 0 specs i spec Hi) as Ho.
    pose proof (open_ports_length open 0 specs) as Hol.
    destruct (open_ports open 0 specs) as [sinks out]. cbn [fst] in *.
    apply session_routing; [done|lia|done].
Qed.

Lemma portforward_routing_witness :
  let specs := [mkPort Tcp 8443; mkPort Udp 53] in
  let msgs := [Binary (2 :: B "q"); Binary (1 :: B "no"); Binary (0 :: B "x"); Other; Binary (0 :: B "y")] in
  (length specs <= MAX_PORTS_PER_SESSION)%nat /\ 0 <= 8443 <= U16_MAX /\
  (forall j e f, (j < length specs)%nat -> channel_byte 0 e = channel_byte j f -> 0%nat = j /\ e = f) /\
  (run_session (fun _ => None) (fun _ _ => true) specs msgs).1 !! 0%nat =
    Some (sink_payloads (SinkTcp []) (payloads_for 0 msgs) 0 (fun _ _ => true)).
Proof.
  intros specs msgs.
  apply (portforward_routing (B "8443, udp:53") specs (fun _ => None) (fun _ _ => true) msgs 0
           (mkPort Tcp 8443)).
  - vm_compute. reflexivity.
  - subst msgs. unfold byte_message, is_byte. repeat constructor; lia.
  - reflexivity.
Defined.
