(* ===== verification/Collections.v ===== *)
(** * Sorting and hash maps

    What the sources use of [slice::sort_by] and of [HashMap].  [sort_by] is a
    stable sort; it is written as the stable insertion sort, which computes the
    same list as any other stable sort when the comparison is a total preorder.
    A [HashMap] is a [gmap]; the order in which it is iterated is not specified, so
    it is an argument ([HashIter]). *)

From Stdlib Require Import Sorting.Sorted.
From S2P Require Import Prelude.

(** ** Comparisons *)

(** [Ordering::then]. *)
Definition cmp_then (a b : comparison) : comparison :=
  match a with Eq => b | _ => a end.

(** [Ord] of [str]: lexicographic on the bytes. *)
Fixpoint bytes_cmp (a b : bytes) : comparison :=
  match a, b with
  | [], [] => Eq
  | [], _ :: _ => Lt
  | _ :: _, [] => Gt
  | x :: a', y :: b' => cmp_then (Z.compare x y) (bytes_cmp a' b')
  end.

(** A comparison that is a total preorder on the elements satisfying [P]. *)
Class TotalCmp {A} (P : A -> Prop) (cmp : A -> A -> comparison) : Prop := {
  cmp_sym a b : P a -> P b -> cmp b a = CompOpp (cmp a b);
  cmp_trans a b c : P a -> P b -> P c -> cmp a b <> Gt -> cmp b c <> Gt -> cmp a c <> Gt }.

(** ** The sort *)

Section sort.
Context {A : Type} (cmp : A -> A -> comparison).

(** Inserts [x], which comes before the elements of [l] in the input: it goes
    before the elements it is equal to. *)
Fixpoint insert_by (x : A) (l : list A) : list A :=
  match l with
  | [] => [x]
  | y :: r => match cmp x y with Gt => y :: insert_by x r | _ => x :: l end
  end.

Fixpoint sort_by (l : list A) : list A :=
  match l with
  | [] => []
  | x :: r => insert_by x (sort_by r)
  end.

Definition cmp_le (a b : A) : Prop := cmp a b <> Gt.

Lemma insert_by_perm x l : insert_by x l ≡ₚ x :: l.
Proof.
  induction l as [|y l IH]; cbn; [done|]. destruct (cmp x y); try done.
  rewrite IH. apply Permutation_swap.
Qed.

Lemma sort_by_perm l : sort_by l ≡ₚ l.
Proof. induction l as [|x l IH]; cbn; [done|]. by rewrite insert_by_perm, IH. Qed.

Section laws.
Context (P : A -> Prop) `{!TotalCmp P cmp}.

Lemma insert_by_sorted x l :
  P x -> Forall P l -> StronglySorted cmp_le l -> StronglySorted cmp_le (insert_by x l).
Proof using TotalCmp0.
  intros Hx Hl Hs. induction Hs as [|y l Hs IH Hy]; cbn.
  - by repeat constructor.
  - apply Forall_cons in Hl as [Py Pl]. destruct (cmp x y) eqn:E.
    1,2: constructor; [by constructor|]; constructor; [unfold cmp_le; congruence|];
      rewrite Forall_forall in *; intros z Hz;
      apply (cmp_trans x y z); [done|done|by apply Pl|congruence|by apply Hy].
    constructor; [by apply IH|]. rewrite Forall_forall in *. intros z Hz.
    rewrite insert_by_perm in Hz. apply elem_of_cons in Hz as [->|Hz]; [|by apply Hy].
    unfold cmp_le. rewrite cmp_sym, E by done. done.
Qed.

Lemma sort_by_sorted l : Forall P l -> StronglySorted cmp_le (sort_by l).
Proof using TotalCmp0.
  induction l as [|x l IH]; intros Hl; cbn; [constructor|].
  apply Forall_cons in Hl as [Hx Hl]. apply insert_by_sorted; [done| |by apply IH].
  by rewrite sort_by_perm.
Qed.

(** Two sorted lists of the same elements are the same when equal elements of the
    order are equal. *)
Lemma sorted_perm_unique l1 l2 :
  Forall P l1 ->
  (forall a b, a ∈ l1 -> b ∈ l1 -> cmp a b = Eq -> a = b) ->
  StronglySorted cmp_le l1 -> StronglySorted cmp_le l2 -> l1 ≡ₚ l2 -> l1 = l2.
Proof using TotalCmp0.
  revert l2. induction l1 as [|x l1 IH]; intros l2 HP Hanti Hs1 Hs2 Hp.
  - by apply Permutation_nil in Hp as ->.
  - destruct l2 as [|y l2]; [by apply Permutation_sym, Permutation_nil in Hp|].
    assert (x = y) as ->.
    { assert (Hy : y ∈ x :: l1) by (rewrite Hp; set_solver).
      assert (Hx : x ∈ y :: l2) by (rewrite <- Hp; set_solver).
      apply elem_of_cons in Hy as [->|Hy]; [done|].
      apply elem_of_cons in Hx as [->|Hx]; [done|].
      inversion Hs1 as [|?? _ H1]; inversion Hs2 as [|?? _ H2]; subst.
      rewrite Forall_forall in H1, H2, HP. specialize (H1 y Hy). specialize (H2 x Hx).
      apply Hanti; [set_solver..|]. unfold cmp_le in *.
      rewrite (cmp_sym x y) in H2 by (apply HP; set_solver). by destruct (cmp x y). }
    f_equal. apply Forall_cons in HP as [_ HP].
    inversion Hs1; inversion Hs2; subst. apply IH; try done.
    + intros a b Ha Hb. apply Hanti; set_solver.
    + by apply Permutation_cons_inv in Hp.
Qed.

(** The result of a sort does not depend on the order of its input when only
    equal elements compare equal. *)
Lemma sort_by_perm_eq l1 l2 :
  Forall P l1 -> (forall a b, a ∈ l1 -> b ∈ l1 -> cmp a b = Eq -> a = b) ->
  l1 ≡ₚ l2 -> sort_by l1 = sort_by l2.
Proof using TotalCmp0.
  intros HP Hanti Hp. apply sorted_perm_unique.
  - by rewrite sort_by_perm.
  - intros a b. rewrite sort_by_perm. apply Hanti.
  - by apply sort_by_sorted.
  - apply sort_by_sorted. by rewrite <- Hp.
  - by rewrite !sort_by_perm.
Qed.
End laws.
End sort.

(** ** Laws of the comparisons *)

Lemma cmp_then_Eq a b : cmp_then a b = Eq <-> a = Eq /\ b = Eq.
Proof. destruct a; cbn; naive_solver. Qed.

Lemma bytes_cmp_Eq a b : bytes_cmp a b = Eq <-> a = b.
Proof.
  revert b; induction a as [|x a IH]; intros [|y b]; cbn; try done.
  rewrite cmp_then_Eq, Z.compare_eq_iff, IH. naive_solver.
Qed.

Lemma bytes_cmp_sym a b : bytes_cmp b a = CompOpp (bytes_cmp a b).
Proof.
  revert b; induction a as [|x a IH]; intros [|y b]; cbn; try done.
  rewrite (Z.compare_antisym x y), IH. by destruct (x ?= y).
Qed.

Lemma bytes_cmp_trans a b c :
  bytes_cmp a b <> Gt -> bytes_cmp b c <> Gt -> bytes_cmp a c <> Gt.
Proof.
  revert b c; induction a as [|x a IH]; intros [|y b] [|z c]; cbn; try done.
  destruct (Z.compare_spec x y), (Z.compare_spec y z), (Z.compare_spec x z); cbn;
    subst; try done; try lia. apply IH.
Qed.

#[export] Instance bytes_cmp_total {A} (f : A -> bytes) P :
  TotalCmp P (fun a b => bytes_cmp (f a) (f b)).
Proof. split; intros; [apply bytes_cmp_sym|]. eapply bytes_cmp_trans; eauto. Qed.

(** The lexicographic product of two total comparisons, as [Ordering::then]
    composes them, is total. *)
#[export] Instance cmp_then_total {A} (P : A -> Prop) c1 c2 :
  TotalCmp P c1 -> TotalCmp P c2 -> TotalCmp P (fun a b => cmp_then (c1 a b) (c2 a b)).
Proof.
  intros T1 T2. split.
  - intros a b Ha Hb. rewrite (cmp_sym a b (cmp := c1)), (cmp_sym a b (cmp := c2)) by done.
    by destruct (c1 a b).
  - intros a b c Ha Hb Hc. pose proof (cmp_trans (cmp := c1) a b c Ha Hb Hc) as H1.
    pose proof (cmp_trans (cmp := c1) c a b Hc Ha Hb) as H2.
    pose proof (cmp_trans (cmp := c1) b c a Hb Hc Ha) as H3.
    pose proof (cmp_trans (cmp := c2) a b c Ha Hb Hc) as H4.
    pose proof (cmp_sym (cmp := c1) a b Ha Hb). pose proof (cmp_sym (cmp := c1) b c Hb Hc).
    pose proof (cmp_sym (cmp := c1) a c Ha Hc).
    destruct (c1 a b), (c1 b c), (c1 a c), (c1 b a), (c1 c b), (c1 c a); cbn in *;
      try done; try tauto; naive_solver.
Qed.

(** ** Hash maps *)

(** The order in which a [HashMap] hands out its entries. *)
Class HashIter {V : Type} (iter : gmap bytes V -> list (bytes * V)) : Prop :=
  hash_iter_perm m : iter m ≡ₚ map_to_list m.

#[export] Instance map_to_list_iter {V} : HashIter (V := V) map_to_list.
Proof. by intros m. Qed.

(** A [BTreeMap<String, String>]: a map, iterated in the order of its keys. *)
Abbreviation btree := (gmap bytes bytes).
Definition btree_iter (m : btree) : list (bytes * bytes) :=
  sort_by (fun a b => bytes_cmp a.1 b.1) (map_to_list m).

Lemma btree_iter_perm m : btree_iter m ≡ₚ map_to_list m.
Proof. apply sort_by_perm. Qed.

(** Collected again, the entries are the map. *)
Lemma btree_iter_roundtrip m : (list_to_map (btree_iter m) : btree) = m.
Proof.
  transitivity (list_to_map (map_to_list m) : btree); [|apply list_to_map_to_list].
  apply list_to_map_proper; [|apply btree_iter_perm]. rewrite btree_iter_perm. apply NoDup_fst_map_to_list.
Qed.
