(* ===== verification/F64.v ===== *)
(** * Rust's [f64]

    IEEE 754 binary64, by the specification of floating-point arithmetic of Rocq's
    core library ([SpecFloat]): no primitive floats and no axioms, so a computation
    on [f64] is evaluated like any other.  [serde_json] only reads finite numbers;
    sums may overflow to an infinity, and an infinity minus an infinity is a NaN. *)

From Stdlib Require Import Floats.SpecFloat.
From S2P Require Import Prelude RustStr Collections.

Abbreviation f64 := spec_float.

#[global] Instance f64_eq_dec : EqDecision f64.
Proof. unfold EqDecision, Decision. decide equality; apply _ || (apply bool_dec || apply Pos.eq_dec || apply Z.eq_dec). Defined.

Definition f0 : f64 := S754_zero false.

(** [a + b], [a * b], [a / b]. *)
Definition fadd : f64 -> f64 -> f64 := SFadd 53 1024.
Definition fmul : f64 -> f64 -> f64 := SFmul 53 1024.
Definition fdiv : f64 -> f64 -> f64 := SFdiv 53 1024.

(** [PartialOrd::partial_cmp]. *)
Definition partial_cmp : f64 -> f64 -> option comparison := SFcompare.
(** [a < b]. *)
Definition flt : f64 -> f64 -> bool := SFltb.

Definition is_nan (a : f64) : bool := match a with S754_nan => true | _ => false end.

(** [f64::min]: the other operand when one is NaN. *)
Definition fmin (a b : f64) : f64 :=
  if is_nan a then b else if is_nan b then a else if flt b a then b else a.

(** The conversion of an integer, rounded to nearest, as a literal or [as f64]. *)
Definition f64_of_Z (n : Z) : f64 := binary_normalize 53 1024 n 0 false.

(** A sum as a loop [acc += x] computes it. *)
Definition fsum (acc : f64) (l : list f64) : f64 := foldl fadd acc l.

(** Not NaN and not below zero: what amounts of money are. *)
Definition fnonneg (a : f64) : bool :=
  match a with
  | S754_zero _ | S754_infinity false | S754_finite false _ _ => true
  | _ => false
  end.

(** ** The order *)

(** [SFcompare] is the lexicographic order on this key. *)
Definition fkey (a : f64) : Z * Z * Z :=
  match a with
  | S754_nan => (0, 0, 0)
  | S754_zero _ => (0, 0, 0)
  | S754_infinity s => (if s then -2 else 2, 0, 0)
  | S754_finite false m e => (1, e, Zpos m)
  | S754_finite true m e => (-1, - e, - Zpos m)
  end.

Definition key_cmp (a b : Z * Z * Z) : comparison :=
  cmp_then (a.1.1 ?= b.1.1) (cmp_then (a.1.2 ?= b.1.2) (a.2 ?= b.2)).

Lemma Z_opp_compare a b : (- a ?= - b) = CompOpp (a ?= b).
Proof. rewrite <- Z.compare_antisym. destruct (Z.compare_spec (-a) (-b)), (Z.compare_spec b a); (done || lia). Qed.

Lemma partial_cmp_key a b :
  is_nan a = false -> is_nan b = false -> partial_cmp a b = Some (key_cmp (fkey a) (fkey b)).
Proof.
  intros Ha Hb. unfold partial_cmp, key_cmp.
  destruct a as [[]|[]| |[] m e], b as [[]|[]| |[] m' e']; cbn [fkey fst snd SFcompare]; try done.
  - rewrite Z_opp_compare, Z_opp_compare. cbn [Z.compare Pos.compare Pos.compare_cont cmp_then].
    unfold Pos.compare. by destruct (e ?= e'), (Pos.compare_cont Eq m m').
  - cbn [Z.compare Pos.compare Pos.compare_cont cmp_then]. by destruct (e ?= e').
Qed.

Lemma partial_cmp_nan a b :
  partial_cmp a b = None <-> is_nan a = true \/ is_nan b = true.
Proof. destruct a, b; cbn; naive_solver. Qed.

Lemma key_cmp_sym a b : key_cmp b a = CompOpp (key_cmp a b).
Proof.
  unfold key_cmp. rewrite (Z.compare_antisym a.1.1), (Z.compare_antisym a.1.2), (Z.compare_antisym a.2).
  by destruct (a.1.1 ?= _), (a.1.2 ?= _).
Qed.

Lemma key_cmp_trans a b c : key_cmp a b <> Gt -> key_cmp b c <> Gt -> key_cmp a c <> Gt.
Proof.
  destruct a as [[a1 a2] a3], b as [[b1 b2] b3], c as [[c1 c2] c3]. unfold key_cmp; cbn [fst snd].
  destruct (Z.compare_spec a1 b1), (Z.compare_spec b1 c1), (Z.compare_spec a1 c1); cbn; try done; try lia;
  destruct (Z.compare_spec a2 b2), (Z.compare_spec b2 c2), (Z.compare_spec a2 c2); cbn; try done; try lia;
  destruct (Z.compare_spec a3 b3), (Z.compare_spec b3 c3), (Z.compare_spec a3 c3); cbn; (done || lia).
Qed.

(** [a.partial_cmp(&b).unwrap_or(Equal)], as the sources sort amounts. *)
Definition cmp_or_equal (a b : f64) : comparison := default Eq (partial_cmp a b).

Lemma cmp_or_equal_key a b :
  is_nan a = false -> is_nan b = false -> cmp_or_equal a b = key_cmp (fkey a) (fkey b).
Proof. intros Ha Hb. unfold cmp_or_equal. by rewrite partial_cmp_key. Qed.

(** Away from NaN, decreasing amounts are a total preorder. *)
#[export] Instance decreasing_total {A} (f : A -> f64) :
  TotalCmp (fun a => is_nan (f a) = false) (fun a b => cmp_or_equal (f b) (f a)).
Proof.
  split; intros.
  - rewrite !cmp_or_equal_key by done. apply key_cmp_sym.
  - rewrite !cmp_or_equal_key in * by done. eauto using key_cmp_trans.
Qed.

(** ** Signs *)

Section signs.
Context (prec emax : Z).

Lemma iter_pos_inv {A} (f : A -> A) (P : A -> Prop) n x :
  (forall y, P y -> P (f y)) -> P x -> P (SpecFloat.iter_pos f n x).
Proof. intros Hf. revert x. induction n; cbn; auto. Qed.

Lemma shr_nonneg mrs e n : 0 <= shr_m mrs -> 0 <= shr_m (shr mrs e n).1.
Proof.
  intros H. destruct n; cbn; try done. apply (iter_pos_inv _ (fun r => 0 <= shr_m r)); [|done].
  intros [m r s] Hm. cbn in *. destruct m as [|[]|[]]; cbn; lia.
Qed.

Lemma shr_fexp_nonneg m e l : 0 <= m -> 0 <= shr_m (shr_fexp prec emax m e l).1.
Proof.
  intros H. unfold shr_fexp. apply shr_nonneg. by destruct l as [|[]].
Qed.

Lemma round_nonneg m l : 0 <= m -> 0 <= round_nearest_even m l.
Proof. intros H. destruct l as [|[]]; cbn; try lia. destruct (Z.even m); lia. Qed.

Lemma binary_round_aux_sign sx m e l :
  0 <= m -> exists r, binary_round_aux prec emax sx m e l = r /\
    (r = S754_zero sx \/ r = S754_infinity sx \/ exists m' e', r = S754_finite sx m' e').
Proof.
  intros Hm. eexists. split; [reflexivity|]. unfold binary_round_aux.
  pose proof (shr_fexp_nonneg m e l Hm) as H1. destruct (shr_fexp _ _ m e l) as [r1 e1].
  pose proof (shr_fexp_nonneg _ e1 loc_Exact (round_nonneg _ (loc_of_shr_record r1) H1)) as H2.
  destruct (shr_fexp _ _ (round_nearest_even _ _) e1 loc_Exact) as [r2 e2]. cbn [fst] in H2.
  destruct (shr_m r2); [naive_solver| |lia]. case_match; eauto.
Qed.
End signs.

Lemma fadd_nonneg a b : fnonneg a = true -> fnonneg b = true -> fnonneg (fadd a b) = true.
Proof.
  unfold fadd. destruct a as [[]|[]| |[] m e], b as [[]|[]| |[] m' e']; cbn -[SFadd]; try done.
  intros _ _. unfold SFadd, cond_Zopp.
  generalize (fst (shl_align m e (Z.min e e'))) (fst (shl_align m' e' (Z.min e e'))).
  intros p q. change (Zpos p + Zpos q) with (Zpos (p + q)). unfold binary_normalize, binary_round.
  destruct (shl_align (p + q) _ _) as [mz ez] eqn:Es.
  destruct (binary_round_aux_sign 53 1024 false (Zpos mz) ez loc_Exact) as (r & -> & H); [lia|].
  by destruct H as [->|[->|(? & ? & ->)]].
Qed.

Lemma fsum_nonneg acc l :
  fnonneg acc = true -> Forall (fun x => fnonneg x = true) l -> fnonneg (fsum acc l) = true.
Proof.
  intros Ha Hl. revert acc Ha. induction Hl as [|x l Hx _ IH]; intros acc Ha; cbn; [done|].
  apply IH. by apply fadd_nonneg.
Qed.

Lemma fnonneg_not_nan a : fnonneg a = true -> is_nan a = false.
Proof. by destruct a. Qed.

Lemma fsum_app acc l1 l2 : fsum acc (l1 ++ l2) = fsum (fsum acc l1) l2.
Proof. apply foldl_app. Qed.

(** [fmin] is a lower bound, and one of its arguments. *)
Definition fle (a b : f64) : Prop := exists c, partial_cmp a b = Some c /\ c <> Gt.

Lemma fle_refl a : is_nan a = false -> fle a a.
Proof.
  intros Ha. exists (key_cmp (fkey a) (fkey a)). split; [by apply partial_cmp_key|].
  pose proof (key_cmp_sym (fkey a) (fkey a)). by destruct (key_cmp _ _).
Qed.

Lemma fle_trans a b c : fle a b -> fle b c -> fle a c.
Proof.
  intros (x & Hx & Nx) (y & Hy & Ny).
  assert (is_nan a = false /\ is_nan b = false /\ is_nan c = false) as (Ha & Hb & Hc)
    by (destruct a, b, c; done).
  rewrite partial_cmp_key in Hx, Hy by done. simplify_eq.
  exists (key_cmp (fkey a) (fkey c)). split; [by apply partial_cmp_key|].
  by eapply key_cmp_trans.
Qed.

Lemma fmin_le a b :
  is_nan a = false -> is_nan b = false -> fle (fmin a b) a /\ fle (fmin a b) b.
Proof.
  intros Ha Hb. unfold fmin, flt, SFltb. rewrite Ha, Hb.
  pose proof (partial_cmp_key b a Hb Ha) as H1. pose proof (partial_cmp_key a b Ha Hb) as H2.
  pose proof (key_cmp_sym (fkey a) (fkey b)) as Hs. unfold partial_cmp in *. rewrite H1.
  destruct (key_cmp (fkey b) (fkey a)) eqn:E; (split; [try by apply fle_refl|try by apply fle_refl]).
  - exists Eq. by destruct (key_cmp (fkey a) (fkey b)).
  - by exists Lt.
  - exists Lt. by destruct (key_cmp (fkey a) (fkey b)).
Qed.

Lemma fmin_or a b : fmin a b = a \/ fmin a b = b.
Proof. unfold fmin. repeat case_match; auto. Qed.

(** ** Conversions *)

Definition fsub : f64 -> f64 -> f64 := SFsub 53 1024.
(** [f64::max], [f64::abs], [is_finite]. *)
Definition fmax (a b : f64) : f64 :=
  if is_nan a then b else if is_nan b then a else if flt a b then b else a.
Definition fabs (a : f64) : f64 := SFabs a.
Definition is_finite (a : f64) : bool := match a with S754_zero _ | S754_finite _ _ _ => true | _ => false end.

(** [trunc]'s value, for a finite number: towards zero. *)
Definition trunc_Z (a : f64) : Z :=
  match a with
  | S754_finite s m e =>
      let n := if 0 <=? e then Z.shiftl (Zpos m) e else Z.shiftr (Zpos m) (- e) in if s then - n else n
  | _ => 0
  end.
(** [a as u64]: towards zero, saturating, 0 for a NaN. *)
Definition as_u64 (a : f64) : Z :=
  match a with
  | S754_infinity false => U64_MAX
  | S754_infinity true | S754_nan => 0
  | _ => Z.max 0 (Z.min U64_MAX (trunc_Z a))
  end.

(** The number nearest to [m * 10 ^ e]. *)
Definition f64_of_decimal (neg : bool) (m e : Z) : f64 :=
  match m with
  | Zpos p =>
      if 0 <=? e then binary_normalize 53 1024 (if neg then - (m * 10 ^ e) else m * 10 ^ e) 0 neg
      else match 10 ^ (- e) with
           | Zpos d => let '(q, e', l) := SFdiv_core_binary 53 1024 (Zpos p) 0 (Zpos d) 0 in binary_round_aux 53 1024 neg q e' l
           | _ => S754_nan
           end
  | _ => S754_zero neg
  end.

(** [str::parse::<f64>]: a sign, then [inf], [infinity] or [nan] in any case, or digits with
    a point and an exponent. *)
Fixpoint span_digits (s : bytes) : bytes * bytes :=
  match s with
  | b :: r => if is_ascii_digit b then prod_map (cons b) id (span_digits r) else ([], s)
  | [] => ([], [])
  end.
Definition digits_Z (s : bytes) : Z := foldl (fun n b => 10 * n + (b - 48)) 0 s.
Definition sign_of (s : bytes) : bool * bytes :=
  match s with
  | c :: r => if c =? 45 then (true, r) else if c =? 43 then (false, r) else (false, s)
  | [] => (false, [])
  end.
Definition parse_exponent (s : bytes) : option Z :=
  match s with
  | [] => Some 0
  | c :: r =>
      if (c =? 101) || (c =? 69) then
        let '(neg, r) := sign_of r in
        match span_digits r with
        | ((_ :: _) as ds, []) => Some (if neg then - digits_Z ds else digits_Z ds)
        | _ => None
        end
      else None
  end.
Definition parse_f64 (s : bytes) : option f64 :=
  let '(neg, r) := sign_of s in
  if eq_ignore_ascii_case r (B "inf") || eq_ignore_ascii_case r (B "infinity") then Some (S754_infinity neg)
  else if eq_ignore_ascii_case r (B "nan") then Some S754_nan
  else let '(int, r) := span_digits r in
       let '(frac, r) := match r with 46 :: r => span_digits r | _ => ([], r) end in
       if is_empty (int ++ frac) then None
       else e ← parse_exponent r; Some (f64_of_decimal neg (digits_Z (int ++ frac)) (e - Z.of_nat (length frac))).

Lemma span_digits_all ds r : Forall (fun b => 48 <= b <= 57) ds -> (forall b, head r = Some b -> is_ascii_digit b = false) ->
  span_digits (ds ++ r) = (ds, r).
Proof.
  intros Hd Hr. induction Hd as [|b ds Hb _ IH]; cbn [app span_digits].
  - destruct r as [|b r]; [done|]. cbn [span_digits]. by rewrite Hr.
  - unfold is_ascii_digit at 1. rewrite (proj2 (Z.leb_le 48 b)), (proj2 (Z.leb_le b 57)) by lia. cbn [andb]. by rewrite IH.
Qed.

Lemma digits_Z_snoc ds b : digits_Z (ds ++ [b]) = 10 * digits_Z ds + (b - 48).
Proof. unfold digits_Z. by rewrite foldl_app. Qed.

Lemma digits_Z_dec n : 0 <= n <= U64_MAX -> digits_Z (dec n) = n.
Proof.
  intros Hn. assert (Hlt : n < 10 ^ Z.of_nat 20).
  { unfold U64_MAX in Hn. change (10 ^ Z.of_nat 20) with 100000000000000000000. lia. }
  unfold dec. assert (H0 : 0 <= n) by lia. clear Hn. revert n H0 Hlt.
  generalize 20%nat. intros fuel. induction fuel as [|f IH]; intros n H0 Hlt; [cbn in *; lia|].
  cbn [dec_digits]. destruct (Z.ltb_spec n 10); [cbn; lia|].
  rewrite Nat2Z.inj_succ, Z.pow_succ_r in Hlt by lia. rewrite digits_Z_snoc, IH.
  - pose proof (Z.div_mod n 10). lia.
  - apply Z.div_pos; lia.
  - apply Z.div_lt_upper_bound; lia.
Qed.

Lemma dec_shape n : 0 <= n -> exists b r, dec n = b :: r /\ 48 <= b <= 57 /\ Forall (fun b => 48 <= b <= 57) (dec n).
Proof.
  intros Hn. assert (Hall : Forall (fun b => 48 <= b <= 57) (dec n)) by (apply Forall_forall; intros b; by apply dec_digits_all).
  pose proof (dec_digits_nonempty 20 n) as Hne. fold (dec n) in Hne.
  destruct (dec n) as [|b r]; [destruct Hne; [lia|done]|]. exists b, r. apply Forall_cons_1 in Hall as Hb. by destruct Hb.
Qed.

Lemma not_a_word n t w c : 0 <= n -> head w = Some c -> 97 <= c -> eq_ignore_ascii_case (dec n ++ t) w = false.
Proof.
  intros Hn Hc Hle. destruct (dec_shape n Hn) as (b & r & -> & Hb & _). destruct w as [|c' w]; [done|]. injection Hc as ->.
  apply not_true_iff_false. rewrite eq_ignore_true. cbn [app].
  rewrite !to_ascii_lowercase_cons. intros [= H _]. revert H. unfold lower_byte. repeat case_match; lia.
Qed.

Lemma sign_of_dec n t : 0 <= n -> sign_of (dec n ++ t) = (false, dec n ++ t).
Proof.
  intros Hn. destruct (dec_shape n Hn) as (b & r & -> & Hb & _). cbn [app sign_of].
  by rewrite (proj2 (Z.eqb_neq b 45)), (proj2 (Z.eqb_neq b 43)) by lia.
Qed.

Lemma dec_app_nonempty n t : 0 <= n -> is_empty (dec n ++ t) = false.
Proof. intros Hn. by destruct (dec_shape n Hn) as (b & r & -> & _). Qed.

(** A printed integer, with decimals or not, is read exactly. *)
Lemma parse_f64_decimal n frac : 0 <= n <= U64_MAX -> Forall (fun b => 48 <= b <= 57) frac ->
  parse_f64 (dec n ++ 46 :: frac) = Some (f64_of_decimal false (digits_Z (dec n ++ frac)) (- Z.of_nat (length frac))).
Proof.
  intros Hn Hf. destruct (dec_shape n) as (_ & _ & _ & _ & Hall); [lia|].
  unfold parse_f64. rewrite sign_of_dec by lia. rewrite (not_a_word n _ (B "inf") 105), (not_a_word n _ (B "infinity") 105), (not_a_word n _ (B "nan") 110) by (done || lia).
  cbn [orb]. rewrite span_digits_all by (done || by intros ? [= <-]). rewrite <- (app_nil_r frac) at 1.
  rewrite span_digits_all by done. rewrite dec_app_nonempty by lia. cbn [parse_exponent mbind option_bind]. by rewrite Z.sub_0_l.
Qed.

Lemma parse_f64_dec n : 0 <= n <= U64_MAX -> parse_f64 (dec n) = Some (f64_of_decimal false n 0).
Proof.
  intros Hn. destruct (dec_shape n) as (_ & _ & _ & _ & Hall); [lia|].
  rewrite <- (app_nil_r (dec n)).
  unfold parse_f64. rewrite sign_of_dec by lia. rewrite (not_a_word n _ (B "inf") 105), (not_a_word n _ (B "infinity") 105), (not_a_word n _ (B "nan") 110) by (done || lia).
  cbn [orb]. rewrite span_digits_all by done. cbv beta iota. rewrite dec_app_nonempty by lia.
  cbn [parse_exponent mbind option_bind length]. rewrite app_nil_r, digits_Z_dec by done. done.
Qed.

(** ** Exact integers *)

(** [a.round()] and [a.ceil()], as the integer of a finite number: a half goes away from
    zero, and a fraction up. *)
Definition round_Z (a : f64) : Z :=
  match a with
  | S754_finite s m e =>
      let n := if 0 <=? e then Z.shiftl (Zpos m) e else Z.shiftr (Zpos m + 2 ^ (- e - 1)) (- e) in if s then - n else n
  | _ => 0
  end.
Definition ceil_Z (a : f64) : Z :=
  match a with
  | S754_finite false m e => if 0 <=? e then Z.shiftl (Zpos m) e else - Z.shiftr (- Zpos m) (- e)
  | S754_finite true m e => - (if 0 <=? e then Z.shiftl (Zpos m) e else Z.shiftr (Zpos m) (- e))
  | _ => 0
  end.
(** The cast [as] of a number to an unsigned type, of a whole number: saturating, 0 for a NaN. *)
Definition saturate (max : Z) (a : f64) (n : Z) : Z :=
  match a with
  | S754_infinity false => max
  | S754_infinity true | S754_nan => 0
  | _ => Z.max 0 (Z.min max n)
  end.

Lemma saturate_bounds max a n : 0 <= max -> 0 <= saturate max a n <= max.
Proof. intros. destruct a as [| [] | |]; cbn; lia. Qed.

(** [m * 2 ^ e] is the integer [n]. *)
Definition represents (n m e : Z) : Prop := 0 < m /\ exists s, 0 <= s /\ 0 <= e + s /\ m * 2 ^ (e + s) = n * 2 ^ s.
Definition exact (a : f64) (n : Z) : Prop :=
  match a with
  | S754_zero _ => n = 0
  | S754_finite false m e => represents n (Zpos m) e
  | _ => False
  end.

Lemma represents_whole n m e : represents n m e -> 0 <= e -> m * 2 ^ e = n.
Proof.
  intros (_ & s & Hs & Hes & H) He. rewrite Z.pow_add_r in H by lia.
  apply (Z.mul_cancel_r _ _ (2 ^ s)); [apply Z.pow_nonzero; lia|]. by rewrite <- Z.mul_assoc.
Qed.
Lemma represents_scaled n m e : represents n m e -> e <= 0 -> m = n * 2 ^ (- e).
Proof.
  intros (_ & s & Hs & Hes & H) He. 
  apply (Z.mul_cancel_r _ _ (2 ^ (e + s))); [apply Z.pow_nonzero; lia|].
  rewrite H, <- Z.mul_assoc, <- Z.pow_add_r by lia. do 2 f_equal. lia.
Qed.
Lemma represents_mul n1 m1 e1 n2 m2 e2 : represents n1 m1 e1 -> represents n2 m2 e2 -> represents (n1 * n2) (m1 * m2) (e1 + e2).
Proof.
  intros (H1 & s1 & ? & ? & E1) (H2 & s2 & ? & ? & E2). split; [lia|]. exists (s1 + s2). split_and!; [lia|lia|].
  replace (e1 + e2 + (s1 + s2)) with ((e1 + s1) + (e2 + s2)) by lia.
  rewrite (Z.pow_add_r 2 (e1 + s1)), (Z.pow_add_r 2 s1) by lia.
  replace (m1 * m2 * (2 ^ (e1 + s1) * 2 ^ (e2 + s2))) with ((m1 * 2 ^ (e1 + s1)) * (m2 * 2 ^ (e2 + s2))) by ring.
  rewrite E1, E2. ring.
Qed.

Lemma exact_values a n : exact a n -> trunc_Z a = n /\ round_Z a = n /\ ceil_Z a = n.
Proof.
  destruct a as [| | |[] m e]; cbn [exact trunc_Z round_Z ceil_Z]; try done; try by intros ->. intros H.
  destruct (Z.leb_spec 0 e) as [He|He].
  { rewrite Z.shiftl_mul_pow2 by lia. apply represents_whole in H; [|lia]. by subst. }
  apply represents_scaled in H; [|lia]. rewrite H, !Z.shiftr_div_pow2 by lia.
  assert (Hp : 0 < 2 ^ (- e)) by (apply Z.pow_pos_nonneg; lia).
  rewrite <- Z.mul_opp_l, !Z.div_mul by lia. rewrite Z.add_comm, Z.div_add by lia.
  rewrite Z.div_small; [lia|]. split; [apply Z.pow_nonneg; lia|]. apply Z.pow_lt_mono_r; lia.
Qed.

Lemma exact_saturate max a n : exact a n -> 0 <= n -> saturate max a n = Z.min max n \/ max < 0.
Proof. destruct a as [| | |[]]; cbn; try done; lia. Qed.

Lemma digits2_log2 p : Zpos (digits2_pos p) = Z.log2 (Zpos p) + 1.
Proof.
  induction p as [p IH|p IH|]; cbn [digits2_pos]; [| |done]; rewrite Pos2Z.inj_succ, IH.
  - rewrite Pos2Z.inj_xI, Z.log2_succ_double by lia. lia.
  - rewrite Pos2Z.inj_xO, Z.log2_double by lia. lia.
Qed.

Lemma represents_digits n m e : 0 < n -> represents n m e -> Zdigits2 m + e = Z.log2 n + 1.
Proof.
  intros Hn (Hm & s & Hs & Hes & H). destruct m as [|m|m]; [lia| |lia]. cbn [Zdigits2]. rewrite digits2_log2.
  apply (f_equal Z.log2) in H. rewrite !Z.log2_mul_pow2 in H by lia. lia.
Qed.

Lemma shr_1_double m : 0 <= m -> shr_1 (Build_shr_record (2 * m) false false) = Build_shr_record m false false.
Proof. by destruct m. Qed.
Lemma iter_shr_exact p m : 0 <= m ->
  SpecFloat.iter_pos shr_1 p (Build_shr_record (m * 2 ^ Zpos p) false false) = Build_shr_record m false false.
Proof.
  revert m. induction p as [p IH|p IH|]; intros m Hm; cbn [SpecFloat.iter_pos].
  - replace (m * 2 ^ Zpos p~1) with (2 * (m * 2 ^ Zpos p * 2 ^ Zpos p)).
    2: { replace (Zpos p~1) with (Zpos p + Zpos p + 1) by lia. rewrite !Z.pow_add_r by lia. ring. }
    assert (0 <= 2 ^ Zpos p) by (apply Z.pow_nonneg; lia). rewrite shr_1_double by nia. rewrite IH by nia. by apply IH.
  - replace (m * 2 ^ Zpos p~0) with (m * 2 ^ Zpos p * 2 ^ Zpos p).
    2: { replace (Zpos p~0) with (Zpos p + Zpos p) by lia. rewrite Z.pow_add_r by lia. ring. }
    assert (0 <= 2 ^ Zpos p) by (apply Z.pow_nonneg; lia). rewrite IH by nia. by apply IH.
  - replace (m * 2 ^ 1) with (2 * m) by lia. by apply shr_1_double.
Qed.

(** A number that is [n / 2 ^ k]. *)
Definition dyadic (k : Z) (a : f64) (n : Z) : Prop :=
  match a with
  | S754_zero _ => n = 0
  | S754_finite false m e => represents n (Zpos m) (e + k)
  | _ => False
  end.

(** Aligning a number of 53 bits loses nothing. *)
Lemma shr_fexp_dyadic k n m e : 0 <= k <= 100 -> 0 < n < 2 ^ 53 -> represents n m (e + k) ->
  exists m' e', shr_fexp 53 1024 m e loc_Exact = (Build_shr_record m' false false, e') /\
    represents n m' (e' + k) /\ e' <= Z.max e 0.
Proof.
  intros Hk Hn H. unfold shr_fexp. pose proof (represents_digits n m (e + k) ltac:(lia) H) as HD.
  replace (Zdigits2 m + e) with (Z.log2 n + 1 - k) by lia. cbn [shr_record_of_loc].
  assert (Hd : 0 <= Z.log2 n < 53) by (split; [apply Z.log2_nonneg|apply Z.log2_lt_pow2; lia]).
  unfold fexp, SpecFloat.emin. set (t := Z.log2 n + 1 - k - 53). rewrite Z.max_l by lia.
  destruct (t - e) as [|j|j] eqn:Ek; cbn [shr]; [by exists m, e; split_and!; [..|lia]| |by exists m, e; split_and!; [..|lia]].
  assert (Hm : m = n * 2 ^ (- (t + k)) * 2 ^ Zpos j).
  { apply represents_scaled in H as ->; [|lia]. rewrite <- Z.mul_assoc, <- Z.pow_add_r by lia. do 2 f_equal. lia. }
  assert (0 < 2 ^ (- (t + k))) by (apply Z.pow_pos_nonneg; lia).
  exists (n * 2 ^ (- (t + k))), t. rewrite Hm, iter_shr_exact by nia. split_and!; [f_equal; lia| |lia].
  split; [nia|]. exists (- (t + k)). split_and!; [lia|lia|]. rewrite Z.add_opp_diag_r. lia.
Qed.

Lemma binary_round_dyadic k n m e : 0 <= k <= 100 -> 0 < n < 2 ^ 53 -> represents n m (e + k) -> e <= 900 ->
  dyadic k (binary_round_aux 53 1024 false m e loc_Exact) n.
Proof.
  intros Hk Hn H He. unfold binary_round_aux.
  destruct (shr_fexp_dyadic k n m e Hk Hn H) as (m1 & e1 & -> & H1 & He1). cbn [shr_m loc_of_shr_record round_nearest_even].
  destruct (shr_fexp_dyadic k n m1 e1 Hk Hn H1) as (m2 & e2 & -> & H2 & He2). cbn [shr_m].
  destruct H2 as [Hm2 H2']. destruct m2 as [|m2|]; [lia| |lia]. rewrite (proj2 (Z.leb_le e2 (1024 - 53))) by lia.
  by split.
Qed.

Lemma dyadic_exact a n : dyadic 0 a n <-> exact a n.
Proof. destruct a as [| | |[]]; cbn; rewrite ?Z.add_0_r; done. Qed.

Lemma binary_round_exact n m e : 0 < n < 2 ^ 53 -> represents n m e -> e <= 900 ->
  exact (binary_round_aux 53 1024 false m e loc_Exact) n.
Proof. intros Hn H He. apply dyadic_exact, binary_round_dyadic; [lia|done|by rewrite Z.add_0_r|done]. Qed.

Lemma iter_xO p k : Zpos (Pos.iter xO p k) = Zpos p * 2 ^ Zpos k.
Proof.
  induction k as [|k IH] using Pos.peano_ind; [cbn; lia|].
  rewrite Pos.iter_succ, Pos2Z.inj_xO, IH, Pos2Z.inj_succ, Z.pow_succ_r by lia. ring.
Qed.

Lemma f64_of_decimal_exact n : 0 <= n < 2 ^ 53 -> exact (f64_of_decimal false n 0) n.
Proof.
  intros Hn. unfold f64_of_decimal. destruct n as [|p|p]; [done| |lia]. change (0 <=? 0) with true. cbv iota.
  rewrite Z.mul_1_r. unfold binary_normalize, binary_round. rewrite Z.add_0_r, digits2_log2.
  assert (Hd : 0 <= Z.log2 (Zpos p) < 53) by (split; [apply Z.log2_nonneg|apply Z.log2_lt_pow2; lia]).
  unfold fexp, SpecFloat.emin. rewrite Z.max_l by lia. unfold shl_align.
  destruct (Z.log2 (Zpos p) + 1 - 53 - 0) as [|k|k] eqn:Ek; [|lia|].
  - apply binary_round_exact; [lia| |lia]. split; [lia|]. exists 0. lia.
  - apply binary_round_exact; [lia| |lia]. split; [lia|]. exists (Zpos k). split_and!; [lia|lia|].
    rewrite iter_xO. replace (Z.log2 (Zpos p) + 1 - 53 + Zpos k) with 0 by lia. ring.
Qed.

Lemma fmul_dyadic j a b n k : 0 <= j <= 100 -> exact a n -> dyadic j b k -> 0 <= n -> 0 < k -> n * k < 2 ^ 53 ->
  match a, b with S754_finite _ _ e, S754_finite _ _ e' => e + e' <= 900 | _, _ => True end ->
  dyadic j (fmul a b) (n * k).
Proof.
  unfold fmul. intros Hj. destruct a as [[]| | |[] m e], b as [| | |[] m' e']; cbn [exact dyadic SFmul]; try done; try lia; intros H H' Hn Hk Hlt He; subst; try lia.
  cbn [xorb]. apply binary_round_dyadic; [done| | |lia].
  - split; [|lia]. destruct H as (Hm & s & Hs & Hes & E). assert (0 < 2 ^ s) by (apply Z.pow_pos_nonneg; lia).
    assert (0 < 2 ^ (e + s)) by (apply Z.pow_pos_nonneg; lia). nia.
  - rewrite Pos2Z.inj_mul, <- Z.add_assoc. by apply represents_mul.
Qed.

(** A half of [2 ^ - k] is rounded away from zero. *)
Lemma dyadic_round k a n : 0 < k -> dyadic k a n -> 0 <= n -> round_Z a = (n + 2 ^ (k - 1)) / 2 ^ k.
Proof.
  intros Hk H Hn. assert (Hp : 0 < 2 ^ (k - 1)) by (apply Z.pow_pos_nonneg; lia).
  assert (Hk2 : 2 ^ k = 2 * 2 ^ (k - 1)) by (rewrite <- Z.pow_succ_r by lia; f_equal; lia).
  destruct a as [| | |[] m e]; cbn [dyadic round_Z] in *; try done.
  - subst n. rewrite Z.div_small; lia.
  - destruct (Z.leb_spec 0 e) as [He|He].
    + apply represents_whole in H; [|lia]. rewrite Z.pow_add_r in H by lia. rewrite Z.shiftl_mul_pow2 by lia.
      apply (Z.div_unique _ _ _ (2 ^ (k - 1))); lia.
    + rewrite Z.shiftr_div_pow2 by lia. destruct (Z.le_gt_cases (e + k) 0) as [Hs|Hs].
      * apply represents_scaled in H; [|lia]. set (t := - (e + k)) in *.
        assert (Ht : 0 < 2 ^ t) by (apply Z.pow_pos_nonneg; lia).
        replace (2 ^ (- e - 1)) with (2 ^ (k - 1) * 2 ^ t) by (rewrite <- Z.pow_add_r by lia; f_equal; lia).
        replace (2 ^ (- e)) with (2 ^ k * 2 ^ t) by (rewrite <- Z.pow_add_r by lia; f_equal; lia).
        rewrite H, <- Z.mul_add_distr_r, Z.div_mul_cancel_r; lia.
      * apply represents_whole in H; [|lia]. set (t := e + k) in *.
        assert (Ht : 0 < 2 ^ t) by (apply Z.pow_pos_nonneg; lia).
        replace (2 ^ (k - 1)) with (2 ^ (- e - 1) * 2 ^ t) by (rewrite <- Z.pow_add_r by lia; f_equal; lia).
        replace (2 ^ k) with (2 ^ (- e) * 2 ^ t) by (rewrite <- Z.pow_add_r by lia; f_equal; lia).
        assert (0 < 2 ^ (- e)) by (apply Z.pow_pos_nonneg; lia).
        rewrite <- H, <- Z.mul_add_distr_r, Z.div_mul_cancel_r; lia.
Qed.

Lemma dyadic_saturate max k a n m : dyadic k a n -> 0 <= m -> 0 <= max -> saturate max a m = Z.min max m.
Proof. destruct a as [| | |[]]; cbn; try done; lia. Qed.

(** ** Division, rounded up *)

Lemma shr_1_floor r : 0 <= shr_m r -> shr_m (shr_1 r) = shr_m r / 2.
Proof. destruct r as [m ? ?]. destruct m as [|[]|]; cbn; intros; lia. Qed.

Lemma iter_shr_floor p r : 0 <= shr_m r -> shr_m (SpecFloat.iter_pos shr_1 p r) = shr_m r / 2 ^ Zpos p.
Proof.
  revert r. induction p as [p IH|p IH|]; intros r Hr; cbn [SpecFloat.iter_pos].
  - assert (0 < 2 ^ Zpos p) by (apply Z.pow_pos_nonneg; lia).
    assert (H1 : 0 <= shr_m (shr_1 r)) by (rewrite shr_1_floor by done; apply Z.div_pos; lia).
    rewrite IH, (IH (shr_1 r) H1), shr_1_floor by (rewrite ?(IH (shr_1 r) H1); try apply Z.div_pos; lia).
    rewrite !Z.div_div by lia.
    f_equal. replace (Zpos p~1) with (1 + Zpos p + Zpos p) by lia. rewrite !Z.pow_add_r by lia. ring.
  - assert (0 < 2 ^ Zpos p) by (apply Z.pow_pos_nonneg; lia).
    rewrite IH, (IH r Hr) by (rewrite ?(IH r Hr); apply Z.div_pos; lia). rewrite !Z.div_div by lia.
    f_equal. replace (Zpos p~0) with (Zpos p + Zpos p) by lia. rewrite !Z.pow_add_r by lia. ring.
  - by rewrite shr_1_floor.
Qed.

(** Aligning a mantissa whose value is at most [2 ^ d] gives the quotient by a power of two,
    at an exponent that leaves 53 bits below [2 ^ d]. *)
Lemma shr_fexp_floor m e l d : 0 <= m -> e <= d - 52 -> -900 <= d -> m <= 2 ^ (d - e) ->
  exists mrs p, shr_fexp 53 1024 m e l = (mrs, e + p) /\ 0 <= p /\ e + p <= d - 52 /\ shr_m mrs = m / 2 ^ p.
Proof.
  intros Hm He Hd0 Hd. unfold shr_fexp.
  assert (Hl : shr_m (shr_record_of_loc m l) = m) by (by destruct l as [|[]]).
  assert (HD : Zdigits2 m + e <= d + 1).
  { destruct m as [|m|m]; [cbn; lia| |lia]. cbn [Zdigits2]. rewrite digits2_log2.
    apply Z.log2_le_mono in Hd. rewrite Z.log2_pow2 in Hd by lia. lia. }
  assert (Hf : fexp 53 1024 (Zdigits2 m + e) <= d - 52) by (unfold fexp, SpecFloat.emin; lia).
  destruct (fexp 53 1024 (Zdigits2 m + e) - e) as [|p|p] eqn:Ep; cbn [shr].
  - eexists _, 0. rewrite Z.add_0_r, Z.div_1_r. split_and!; [done|lia|lia|done].
  - eexists _, (Zpos p). split_and!; [done|lia|lia|]. by rewrite iter_shr_floor, Hl by (by rewrite Hl).
  - eexists _, 0. rewrite Z.add_0_r, Z.div_1_r. split_and!; [done|lia|lia|done].
Qed.

Lemma fmul_exact a b n k : exact a n -> exact b k -> 0 <= n -> 0 < k -> n * k < 2 ^ 53 ->
  match a, b with S754_finite _ _ e, S754_finite _ _ e' => e + e' <= 900 | _, _ => True end ->
  exact (fmul a b) (n * k).
Proof. intros Ha Hb Hn Hk Hlt He. apply dyadic_exact, fmul_dyadic; [lia|done|by apply dyadic_exact|done..]. Qed.

(** The rounding of the quotient [q] of [n * 2 ^ - e] by 1000 lies strictly above the integer
    part of [n / 1000] and not above the next integer. *)
Lemma round_between n c t q e l : 0 <= c < 2 ^ 23 -> 0 < t < 1000 -> n = 1000 * c + t -> e <= -30 ->
  q = n * 2 ^ (- e) / 1000 ->
  exists m e', binary_round_aux 53 1024 false q e l = S754_finite false m e' /\ e' < 0 /\
    c * 2 ^ (- e') < Zpos m <= (c + 1) * 2 ^ (- e').
Proof.
  intros Hc Ht Hn He Hq. set (K := 2 ^ (- e)) in *.
  assert (HK : 0 < K) by (apply Z.pow_pos_nonneg; lia).
  assert (Hfloor : forall k, 0 < k -> c * k + k / 1000 <= n * k / 1000 /\ n * k / 1000 + 1 <= (c + 1) * k).
  { intros k Hk. subst n. pose proof (Z.div_mod k 1000 ltac:(lia)) as Hk1. pose proof (Z.mod_pos_bound k 1000 ltac:(lia)).
    split; [apply Z.div_le_lower_bound; [lia|]; nia|].
    assert ((1000 * c + t) * k / 1000 < (c + 1) * k); [|lia]. apply Z.div_lt_upper_bound; [lia|]. nia. }
  unfold binary_round_aux. destruct (Hfloor K HK) as [Hq1 Hq2]. assert (0 <= K / 1000) by (apply Z.div_pos; lia).
  destruct (shr_fexp_floor q e l 23) as (r1 & p1 & -> & Hp1 & He1 & Hm1); [nia|lia|lia| |].
  { replace (23 - e) with (23 + - e) by lia. rewrite Z.pow_add_r by lia. fold K. nia. }
  set (K1 := 2 ^ (- (e + p1))). assert (HP1 : 0 < 2 ^ p1) by (apply Z.pow_pos_nonneg; lia).
  assert (HK1 : K = K1 * 2 ^ p1) by (unfold K, K1; rewrite <- Z.pow_add_r by lia; f_equal; lia).
  assert (HK1p : 0 < K1) by (apply Z.pow_pos_nonneg; lia).
  assert (Hm1' : shr_m r1 = n * K1 / 1000).
  { rewrite Hm1, Hq, HK1, Z.div_div, Z.mul_assoc, Z.div_mul_cancel_r by lia. done. }
  destruct (Hfloor K1 HK1p) as [H1 H2]. rewrite <- Hm1' in H1, H2.
  assert (Hr : shr_m r1 <= round_nearest_even (shr_m r1) (loc_of_shr_record r1) <= shr_m r1 + 1).
  { destruct (loc_of_shr_record r1) as [|[]]; cbn; [lia|destruct (Z.even _); lia|lia|lia]. }
  assert (0 <= K1 / 1000) by (apply Z.div_pos; lia).
  destruct (shr_fexp_floor (round_nearest_even (shr_m r1) (loc_of_shr_record r1)) (e + p1) loc_Exact 24)
    as (r2 & p2 & -> & Hp2 & He2 & Hm2); [nia|lia|lia| |].
  { replace (24 - (e + p1)) with (24 + - (e + p1)) by lia. rewrite Z.pow_add_r by lia. fold K1. nia. }
  set (K2 := 2 ^ (- (e + p1 + p2))). assert (HP2 : 0 < 2 ^ p2) by (apply Z.pow_pos_nonneg; lia).
  assert (HK2 : K1 = K2 * 2 ^ p2) by (unfold K2, K1; rewrite <- Z.pow_add_r by lia; f_equal; lia).
  assert (HK2b : 2 ^ 28 <= K2) by (apply Z.pow_le_mono_r; lia).
  assert (Hlow : c * K2 + 1 <= shr_m r2).
  { rewrite Hm2. apply Z.div_le_lower_bound; [lia|]. assert (2 ^ p2 <= K1 / 1000); [|nia].
    apply Z.div_le_lower_bound; [lia|]. nia. }
  assert (Hup : shr_m r2 <= (c + 1) * K2) by (rewrite Hm2; apply Z.div_le_upper_bound; nia).
  destruct (shr_m r2) as [|m|m]; [nia| |nia]. exists m, (e + p1 + p2).
  rewrite (proj2 (Z.leb_le _ (1024 - 53))) by lia. split_and!; [done|lia|fold K2; lia|fold K2; lia].
Qed.

(** A whole number below [2 ^ 32] divided by [1000.0] and rounded up. *)
Lemma fdiv_1000_ceil a n : exact a n -> 0 <= n < 2 ^ 32 ->
  is_finite (fdiv a (f64_of_Z 1000)) = true /\ ceil_Z (fdiv a (f64_of_Z 1000)) = (n + 999) / 1000.
Proof.
  assert (Hk : f64_of_Z 1000 = S754_finite false 8796093022208000 (-43)) by (vm_compute; reflexivity).
  rewrite Hk. intros Ha Hn. unfold fdiv. destruct a as [s| | |[] m e]; try done; [cbn in Ha; by subst n|].
  cbn [exact] in Ha. cbn [SFdiv xorb].
  assert (H0 : 0 < n).
  { destruct Ha as (? & s & ? & ? & E). assert (0 < 2 ^ s) by (apply Z.pow_pos_nonneg; lia).
    assert (0 < 2 ^ (e + s)) by (apply Z.pow_pos_nonneg; lia). nia. }
  assert (HD : Zdigits2 (Zpos m) + e <= 32).
  { rewrite (represents_digits n) by done. assert (Z.log2 n < 32) by (apply Z.log2_lt_pow2; lia). lia. }
  unfold SFdiv_core_binary. change (Zdigits2 8796093022208000) with 53.
  set (e' := Z.min (fexp 53 1024 (Zdigits2 (Zpos m) + e - (53 + -43))) (e - -43)).
  assert (He' : e' <= -30) by (unfold e', fexp, SpecFloat.emin; lia).
  assert (Hm' : match e - -43 - e' with Zpos _ => Z.shiftl (Zpos m) (e - -43 - e') | Z0 => Zpos m | Zneg _ => 0 end =
                n * 2 ^ (- e' + 43)).
  { assert (Hs : Zpos m * 2 ^ (e - -43 - e') = n * 2 ^ (- e' + 43)).
    { destruct (Z.le_gt_cases e 0) as [Hle|Hgt].
      - apply represents_scaled in Ha; [|done]. rewrite Ha, <- Z.mul_assoc, <- Z.pow_add_r by lia. do 2 f_equal. lia.
      - apply represents_whole in Ha; [|lia]. rewrite <- Ha, <- Z.mul_assoc, <- Z.pow_add_r by lia. do 2 f_equal. lia. }
    destruct (e - -43 - e') eqn:Es; [lia| |lia]. by rewrite Z.shiftl_mul_pow2 by lia. }
  rewrite Hm'. assert (HK : 0 < 2 ^ (- e')) by (apply Z.pow_pos_nonneg; lia).
  rewrite Z.pow_add_r, Z.mul_assoc by lia. change 8796093022208000 with (1000 * 2 ^ 43).
  pose proof (Z.div_eucl_eq (n * 2 ^ (- e') * 2 ^ 43) (1000 * 2 ^ 43) ltac:(lia)) as Hdiv.
  pose proof (Z.div_mul_cancel_r (n * 2 ^ (- e')) 1000 (2 ^ 43) ltac:(lia) ltac:(lia)) as Hquot.
  unfold Z.div at 1 in Hquot. destruct (Z.div_eucl (n * 2 ^ (- e') * 2 ^ 43) (1000 * 2 ^ 43)) as [q r].
  pose proof (Z.div_mod n 1000 ltac:(lia)) as Hdm. pose proof (Z.mod_pos_bound n 1000 ltac:(lia)) as Hmod.
  assert (Hup : (n + 999) / 1000 = if n mod 1000 =? 0 then n / 1000 else n / 1000 + 1).
  { destruct (Z.eqb_spec (n mod 1000) 0); symmetry; [apply (Z.div_unique _ _ _ 999)|apply (Z.div_unique _ _ _ (n mod 1000 - 1))]; lia. }
  rewrite Hup. clear Hup. destruct (Z.eqb_spec (n mod 1000) 0) as [Hz|Hz].
  - assert (Hq : q = n / 1000 * 2 ^ (- e')).
    { rewrite Hquot. rewrite Hdm at 1. rewrite Hz, Z.add_0_r, (Z.mul_comm 1000), <- Z.mul_assoc, (Z.mul_comm 1000), Z.mul_assoc.
      by apply Z.div_mul. }
    assert (r = 0) as -> by nia. unfold new_location, new_location_even. cbn [Z.even Z.mul Pos.mul Z.pow Z.eqb].
    assert (Hx : exact (binary_round_aux 53 1024 false q e' loc_Exact) (n / 1000)).
    { apply binary_round_exact; [lia| |lia]. split; [nia|]. exists (- e'). rewrite Z.add_opp_diag_r. split_and!; lia. }
    change (Z.even (1000 * 2 ^ 43)) with true. cbv iota. split; [by destruct (binary_round_aux _ _ _ _ _ _) as [| | |[]]|].
    by apply exact_values.
  - destruct (round_between n (n / 1000) (n mod 1000) q e' (new_location (1000 * 2 ^ 43) r)) as (m2 & e2 & -> & He2 & Hb);
      [lia|lia|lia|lia|done|]. split; [done|]. cbn [ceil_Z].
    rewrite (proj2 (Z.leb_gt 0 e2)) by lia. rewrite Z.shiftr_div_pow2 by lia.
    assert (0 < 2 ^ (- e2)) by (apply Z.pow_pos_nonneg; lia).
    rewrite <- (Z.div_unique (- Zpos m2) (2 ^ (- e2)) (- (n / 1000 + 1)) ((n / 1000 + 1) * 2 ^ (- e2) - Zpos m2)); lia.
Qed.
