(* ===== verification/Json.v ===== *)
(** * JSON values and merge patches

    What the sources use of [serde_json] values, and the merge patches (RFC 7386)
    with which the controller and image-builder write a Workshop's status.  The
    Kubernetes API server applies them: it is the class [MergePatch], whose laws are
    the RFC's, with the RFC's own algorithm as an instance. *)

From S2P Require Import Prelude Collections F64.

Inductive json :=
| JNull
| JBool (b : bool)
| JNum (n : Z)
| JFloat (f : f64)
| JStr (s : bytes)
| JArr (items : list json)
| JObj (fields : list (bytes * json)).

(** ** Fields *)

Fixpoint assoc {A} (k : bytes) (l : list (bytes * A)) : option A :=
  match l with
  | [] => None
  | (k', v) :: r => if beq k k' then Some v else assoc k r
  end.

Definition fields_of (j : json) : list (bytes * json) :=
  match j with JObj o => o | _ => [] end.

(** [Value::get] of an object's field. *)
Definition jget (k : bytes) (j : json) : option json := assoc k (fields_of j).

Definition get_str (k : bytes) (j : json) : option bytes :=
  match jget k j with Some (JStr s) => Some s | _ => None end.
Definition get_num (k : bytes) (j : json) : option Z :=
  match jget k j with Some (JNum n) => Some n | _ => None end.

(** An [Option] serialised as [null] when absent, and with
    [skip_serializing_if = "Option::is_none"]. *)
Definition opt_value {A} (f : A -> json) (o : option A) : json :=
  match o with Some a => f a | None => JNull end.
Definition skip_none {A} (k : bytes) (f : A -> json) (o : option A) : list (bytes * json) :=
  match o with Some a => [(k, f a)] | None => [] end.

(** ** Merge patches *)

Definition set_field (k : bytes) (v : json) (o : list (bytes * json)) : list (bytes * json) :=
  (k, v) :: base.filter (fun kv => kv.1 <> k) o.
Definition remove_field (k : bytes) (o : list (bytes * json)) : list (bytes * json) :=
  base.filter (fun kv => kv.1 <> k) o.

Fixpoint rfc_merge (patch target : json) {struct patch} : json :=
  match patch with
  | JObj kvs =>
      JObj ((fix go (kvs o : list (bytes * json)) {struct kvs} : list (bytes * json) :=
               match kvs with
               | [] => o
               | (k, v) :: r =>
                   go r (match v with
                         | JNull => remove_field k o
                         | _ => set_field k (rfc_merge v (default JNull (assoc k o))) o
                         end)
               end) kvs (fields_of target))
  | _ => patch
  end.

(** What a merge makes of one field. *)
Definition merged_field (merge : json -> json -> json) (p old : option json) : option json :=
  match p with
  | None => old
  | Some JNull => None
  | Some v => Some (merge v (default JNull old))
  end.

Class MergePatch := {
  merge_patch : json -> json -> json;
  merge_value patch target : (forall kvs, patch <> JObj kvs) -> merge_patch patch target = patch;
  merge_object kvs target k : NoDup kvs.*1 ->
    jget k (merge_patch (JObj kvs) target) = merged_field merge_patch (assoc k kvs) (jget k target) }.

Lemma assoc_filter_ne {A} k k' (o : list (bytes * A)) :
  k <> k' -> assoc k (base.filter (fun kv => kv.1 <> k') o) = assoc k o.
Proof.
  intros Hk. induction o as [|[x v] o IH]; [done|]. rewrite filter_cons. cbn [fst].
  destruct (decide (x <> k')) as [Hx|Hx]; cbn [assoc]; [by rewrite IH|].
  assert (x = k') as -> by (by destruct (decide (x = k'))).
  by rewrite (proj2 (beq_false k k') Hk).
Qed.

Lemma assoc_filter_eq {A} k (o : list (bytes * A)) : assoc k (base.filter (fun kv => kv.1 <> k) o) = None.
Proof.
  induction o as [|[x v] o IH]; [done|]. rewrite filter_cons. cbn [fst].
  destruct (decide (x <> k)) as [Hx|Hx]; cbn [assoc]; [|done].
  by rewrite (proj2 (beq_false k x)) by done.
Qed.

Lemma assoc_None {A} k (l : list (bytes * A)) : k ∉ l.*1 -> assoc k l = None.
Proof.
  induction l as [|[x v] l IH]; [done|]. cbn. intros [Hk Hl]%not_elem_of_cons.
  by rewrite (proj2 (beq_false k x) Hk), IH.
Qed.

#[global, refine] Instance rfc7386 : MergePatch := { merge_patch := rfc_merge }.
Proof.
  - intros patch target H. destruct patch; try done. by destruct (H fields).
  - intros kvs target k. unfold jget. cbn [rfc_merge fields_of]. generalize (fields_of target) as o.
    induction kvs as [|[x v] kvs IH]; intros o Hnd; cbn [assoc]; [done|].
    apply NoDup_cons in Hnd as [Hx Hnd]. cbn [fst] in Hx. rewrite IH by done.
    destruct (beq k x) eqn:E.
    + apply beq_true in E as ->. rewrite (assoc_None x kvs Hx).
      destruct v; cbn [merged_field]; unfold remove_field, set_field; try apply assoc_filter_eq;
        cbn [assoc]; by rewrite beq_refl.
    + apply beq_false in E. destruct v; cbn [merged_field];
        unfold remove_field, set_field; rewrite ?(assoc_filter_ne k x o E); try done;
        cbn [assoc]; by rewrite (proj2 (beq_false k x) E), (assoc_filter_ne k x o E).
Defined.

(** A string patched over anything replaces it. *)
Lemma merge_str `{MergePatch} s target : merge_patch (JStr s) target = JStr s.
Proof. by apply merge_value. Qed.
Lemma merge_num `{MergePatch} n target : merge_patch (JNum n) target = JNum n.
Proof. by apply merge_value. Qed.
