(* ===== verification/Crd.v ===== *)
(** * The resource

    [crates/common/src/crd.rs]: the specification of a Workshop, as every component reads
    and writes it, and its [serde] form.  [Serde] is what [#[derive(Serialize,
    Deserialize)]] makes of a type on JSON objects; the attributes of the source
    ([default], [skip_serializing_if], [rename]) are the combinators of this file. *)

From Stdlib Require Import Floats.SpecFloat.
From S2P Require Import Prelude RustStr Collections F64 Json IdentityRules McpGateway.

(** ** [serde] *)

Class Serde (A : Type) := { to_json : A -> json; of_json : json -> option A }.

(** On which values the round trip is exact. *)
Class SerdeOk (A : Type) `{!Serde A} (P : A -> Prop) : Prop := serde_ok a : P a -> of_json (to_json a) = Some a.

#[export] Instance serde_bool : Serde bool :=
  {| to_json := JBool; of_json j := match j with JBool b => Some b | _ => None end |}.
#[export] Instance serde_string : Serde bytes :=
  {| to_json := JStr; of_json j := match j with JStr s => Some s | _ => None end |}.
(** [u16]: a [Z] in its range. *)
Definition is_u16 (n : Z) : bool := (0 <=? n) && (n <? 65536).
Definition enc_u16 (n : Z) : json := JNum n.
Definition dec_u16 (j : json) : option Z := match j with JNum n => if is_u16 n then Some n else None | _ => None end.
(** [f64]: [serde_json] writes [null] for a number that is not finite, and reads integers. *)
Definition fin (f : f64) : bool := match f with S754_zero _ | S754_finite _ _ _ => true | _ => false end.
Definition enc_f64 (f : f64) : json := if fin f then JFloat f else JNull.
Definition dec_f64 (j : json) : option f64 :=
  match j with JFloat f => Some f | JNum n => Some (f64_of_Z n) | _ => None end.

Definition dec_list {A} (d : json -> option A) (j : json) : option (list A) :=
  match j with JArr l => mapM d l | _ => None end.
#[export] Instance serde_list {A} `{!Serde A} : Serde (list A) :=
  {| to_json l := JArr (to_json <$> l); of_json := dec_list of_json |}.
#[export] Instance serde_btree : Serde btree :=
  {| to_json m := JObj ((fun kv => (kv.1, JStr kv.2)) <$> btree_iter m);
     of_json j := match j with
              | JObj o => list_to_map <$> mapM (fun kv => (fun v => (kv.1, v)) <$> of_json kv.2) o
              | _ => None
              end |}.

(** Fields: required, with a default when absent, and an [Option] with [default]. *)
Definition field {A} (d : json -> option A) (k : string) (o : list (bytes * json)) : option A := assoc (B k) o ≫= d.
Definition field_or {A} (d : json -> option A) (a : A) (k : string) (o : list (bytes * json)) : option A :=
  match assoc (B k) o with Some j => d j | None => Some a end.
Definition field_opt {A} (d : json -> option A) (k : string) (o : list (bytes * json)) : option (option A) :=
  match assoc (B k) o with None | Some JNull => Some None | Some j => Some <$> d j end.
Definition fields (j : json) : option (list (bytes * json)) := match j with JObj o => Some o | _ => None end.

(** ** Types *)

(** [struct GuestServices], [enabled] and its [Default]. *)
Record GuestServices := mkServices { gs_terminal : bool; gs_ide : bool }.
Definition enabled : bool := true.
Definition default_services : GuestServices := mkServices true true.
#[export] Instance serde_services : Serde GuestServices :=
  {| to_json s := JObj [(B "terminal", to_json s.(gs_terminal)); (B "ide", to_json s.(gs_ide))];
     of_json j := o ← fields j; t ← field_or of_json enabled "terminal" o; i ← field_or of_json enabled "ide" o; Some (mkServices t i) |}.

(** [struct GuestPorts] and its constants. *)
Record GuestPorts := mkPorts { gp_ssh : Z; gp_terminal : option Z; gp_ide : option Z }.
Definition LEGACY : GuestPorts := mkPorts 2222 (Some 7681) (Some 8080).
Definition RESERVED_RANGE : Z * Z := (61000, 61099).
(** [GuestPorts::reserved]. *)
Definition reserved (services : GuestServices) : GuestPorts :=
  mkPorts 61022 (if services.(gs_terminal) then Some 61081 else None) (if services.(gs_ide) then Some 61080 else None).

Record ExportedService := mkExported { es_name : bytes; es_port : Z }.
#[export] Instance serde_exported : Serde ExportedService :=
  {| to_json s := JObj [(B "name", to_json s.(es_name)); (B "port", enc_u16 s.(es_port))];
     of_json j := o ← fields j; n ← field of_json "name" o; p ← field dec_u16 "port" o; Some (mkExported n p) |}.

(** [enum SimulatorType], in camel case, and [struct SimulatorSpec]. *)
Definition simulator_type_str (t : SimulatorType) : bytes :=
  match t with Postgres => B "postgres" | Localstack => B "localstack" | Wiremock => B "wiremock" end.
#[export] Instance serde_simulator_type : Serde SimulatorType :=
  {| to_json t := JStr (simulator_type_str t);
     of_json j := match j with
              | JStr s => find_first (fun t => beq (simulator_type_str t) s) [Postgres; Localstack; Wiremock]
              | _ => None
              end |}.
#[export] Instance serde_simulator : Serde SimulatorSpec :=
  {| to_json s := JObj [(B "name", to_json s.(sim_name)); (B "type", to_json s.(sim_type)); (B "env", to_json (list_to_map s.(sim_env) : btree))];
     of_json j := o ← fields j; n ← field of_json "name" o; t ← field of_json "type" o; e ← field_or of_json (∅ : btree) "env" o;
              Some (mkSimulator n t (btree_iter e)) |}.

(** [enum WorkshopDesiredState]. *)
Inductive WorkshopDesiredState := DesiredRunning | DesiredSuspended.
#[export] Instance desired_eq_dec : EqDecision WorkshopDesiredState.
Proof. solve_decision. Defined.
#[export] Instance serde_desired : Serde WorkshopDesiredState :=
  {| to_json d := JStr (match d with DesiredRunning => B "Running" | DesiredSuspended => B "Suspended" end);
     of_json j := match j with
              | JStr s => if beq s (B "Running") then Some DesiredRunning else if beq s (B "Suspended") then Some DesiredSuspended else None
              | _ => None
              end |}.

Record DevcontainerSource := mkSource { repo : bytes; revision : bytes; config_path : bytes; clone_workspace : bool }.
Definition default_true : bool := true.
Definition default_revision : bytes := B "HEAD".
Definition default_devcontainer_path : bytes := B ".devcontainer/devcontainer.json".
#[export] Instance serde_source : Serde DevcontainerSource :=
  {| to_json s := JObj [(B "repo", to_json s.(repo)); (B "revision", to_json s.(revision)); (B "configPath", to_json s.(config_path));
                    (B "cloneWorkspace", to_json s.(clone_workspace))];
     of_json j := o ← fields j; r ← field of_json "repo" o; v ← field_or of_json default_revision "revision" o;
              c ← field_or of_json default_devcontainer_path "configPath" o; w ← field_or of_json default_true "cloneWorkspace" o;
              Some (mkSource r v c w) |}.

(** [struct IdentityInjectionRule]. *)
Definition default_injection_field : bytes := B "value".
#[export] Instance serde_rule : Serde InjectionRule :=
  {| to_json r := JObj [(B "host", to_json r.(r_host)); (B "header", to_json r.(r_header)); (B "prefix", to_json r.(r_prefix));
                    (B "secretPath", to_json r.(r_secret_path)); (B "field", to_json r.(r_field))];
     of_json j := o ← fields j; h ← field of_json "host" o; d ← field of_json "header" o; p ← field_or of_json [] "prefix" o;
              s ← field of_json "secretPath" o; f ← field_or of_json default_injection_field "field" o; Some (mkRule h d p s f) |}.

Record WorkshopResources := mkResources { cpu : bytes; memory : bytes; disk : option bytes; max_llm_budget_usd : option f64 }.
#[export] Instance serde_resources : Serde WorkshopResources :=
  {| to_json r := JObj ([(B "cpu", to_json r.(cpu)); (B "memory", to_json r.(memory)); (B "disk", opt_value to_json r.(disk))]
                    ++ skip_none (B "maxLlmBudgetUsd") enc_f64 r.(max_llm_budget_usd));
     of_json j := o ← fields j; c ← field of_json "cpu" o; m ← field of_json "memory" o; d ← field_opt of_json "disk" o;
              b ← field_opt dec_f64 "maxLlmBudgetUsd" o; Some (mkResources c m d b) |}.

(** [struct SessionConfig]. *)
Record SessionConfig := mkConfig { remote_user : option bytes; workspace_folder : option bytes; container_env : btree }.
Definition skip_empty (k : bytes) (m : btree) : list (bytes * json) := if bool_decide (m = ∅) then [] else [(k, to_json m)].
#[export] Instance serde_session : Serde SessionConfig :=
  {| to_json s := JObj (skip_none (B "remoteUser") to_json s.(remote_user) ++ skip_none (B "workspaceFolder") to_json s.(workspace_folder)
                    ++ skip_empty (B "containerEnv") s.(container_env));
     of_json j := o ← fields j; u ← field_opt of_json "remoteUser" o; w ← field_opt of_json "workspaceFolder" o;
              e ← field_or of_json (∅ : btree) "containerEnv" o; Some (mkConfig u w e) |}.

(** [struct WorkshopSpec]. *)
Record WorkshopSpec := mkSpec {
  devcontainer : DevcontainerSource; resources : WorkshopResources; egress_allowlist : list bytes;
  build_egress_allowlist : option (list bytes); tools : list bytes;
  identity_injection_rules : list InjectionRule;
  owner_group : bytes; owner_subject : bytes; desired_state : WorkshopDesiredState;
  simulators : list SimulatorSpec; exported_services : list ExportedService; allowed_internal_targets : list bytes;
  campaign_id : option bytes; guest_services : GuestServices }.

Definition spec_fields (s : WorkshopSpec) : list (bytes * json) :=
  [(B "devcontainer", to_json s.(devcontainer)); (B "resources", to_json s.(resources)); (B "egressAllowlist", to_json s.(egress_allowlist))]
  ++ skip_none (B "buildEgressAllowlist") to_json s.(build_egress_allowlist)
  ++ [(B "tools", to_json s.(tools)); (B "identityInjectionRules", to_json s.(identity_injection_rules));
      (B "ownerGroup", to_json s.(owner_group)); (B "ownerSubject", to_json s.(owner_subject)); (B "desiredState", to_json s.(desired_state));
      (B "simulators", to_json s.(simulators)); (B "exportedServices", to_json s.(exported_services));
      (B "allowedInternalTargets", to_json s.(allowed_internal_targets)); (B "campaignId", opt_value to_json s.(campaign_id));
      (B "guestServices", to_json s.(guest_services))].
Definition spec_of (o : list (bytes * json)) : option WorkshopSpec :=
  d ← field of_json "devcontainer" o; r ← field of_json "resources" o; e ← field_or of_json [] "egressAllowlist" o;
  b ← field_opt of_json "buildEgressAllowlist" o; t ← field_or of_json [] "tools" o;
  i ← field_or of_json [] "identityInjectionRules" o; g ← field of_json "ownerGroup" o; u ← field of_json "ownerSubject" o;
  s ← field_or of_json DesiredRunning "desiredState" o; m ← field_or of_json [] "simulators" o;
  x ← field_or of_json [] "exportedServices" o; a ← field_or of_json [] "allowedInternalTargets" o;
  c ← field_opt of_json "campaignId" o; v ← field_or of_json default_services "guestServices" o;
  Some (mkSpec d r e b t i g u s m x a c v).
#[export] Instance serde_spec : Serde WorkshopSpec :=
  {| to_json s := JObj (spec_fields s); of_json j := fields j ≫= spec_of |}.

(** ** The round trip *)

(** Lookups of literal keys, by evaluation. *)
Ltac assoc_lit :=
  unfold field, field_or, field_opt; cbn [assoc app skip_none];
  repeat (match goal with
          | |- context [beq (B ?a) (B ?b)] =>
              let r := eval vm_compute in (beq (B a) (B b)) in
              change (beq (B a) (B b)) with r
          end; cbn [assoc app]).

#[export] Instance bool_ok : SerdeOk bool (fun _ => True).
Proof. by intros []. Qed.
#[export] Instance string_ok : SerdeOk bytes (fun _ => True).
Proof. done. Qed.

Lemma mapM_enc {A} `{!Serde A} (P : A -> Prop) `{!SerdeOk A P} l : Forall P l -> mapM of_json (to_json <$> l) = Some l.
Proof.
  induction 1 as [|a l Ha _ IH]; [done|]. cbn [fmap list_fmap mapM].
  rewrite (serde_ok (P := P) a Ha). cbn [mbind option_bind]. change (list_fmap _ _ to_json l) with (to_json <$> l). by rewrite IH.
Qed.
#[export] Instance list_ok {A} `{!Serde A} (P : A -> Prop) `{!SerdeOk A P} : SerdeOk (list A) (Forall P).
Proof. intros l Hl. cbn. by apply (mapM_enc P). Qed.

#[export] Instance btree_ok : SerdeOk btree (fun _ => True).
Proof.
  intros m _. cbn [to_json of_json serde_btree]. rewrite <- (btree_iter_roundtrip m) at 2.
  assert (H : forall l : list (bytes * bytes),
    mapM (fun kv => (fun v => (kv.1, v)) <$> of_json kv.2) ((fun kv => (kv.1, JStr kv.2)) <$> l) = Some l).
  { induction l as [|[k v] l IH]; [done|]. rewrite fmap_cons. simpl. simpl in IH. by rewrite IH. }
  by rewrite H.
Qed.

#[export] Instance services_ok : SerdeOk GuestServices (fun _ => True).
Proof. intros [[] []] _; reflexivity. Qed.
#[export] Instance desired_ok : SerdeOk WorkshopDesiredState (fun _ => True).
Proof. intros [] _; reflexivity. Qed.
#[export] Instance simulator_type_ok : SerdeOk SimulatorType (fun _ => True).
Proof. intros [] _; reflexivity. Qed.
#[export] Instance exported_ok : SerdeOk ExportedService (fun s => is_u16 s.(es_port) = true).
Proof.
  intros [n p] H. cbn [to_json of_json serde_exported fields mbind option_bind]. assoc_lit. cbn in *. by rewrite H.
Qed.
#[export] Instance source_ok : SerdeOk DevcontainerSource (fun _ => True).
Proof. intros [r v c w] _. cbn [to_json of_json serde_source fields mbind option_bind]. by assoc_lit. Qed.
#[export] Instance rule_ok : SerdeOk InjectionRule (fun _ => True).
Proof. intros [h d p s f] _. cbn [to_json of_json serde_rule fields mbind option_bind]. by assoc_lit. Qed.

(** The variables of a simulator are those of a map. *)
#[export] Instance simulator_ok : SerdeOk SimulatorSpec (fun s => btree_iter (list_to_map s.(sim_env)) = s.(sim_env)).
Proof.
  intros [n t e] H. cbn [to_json of_json serde_simulator fields mbind option_bind sim_name sim_type sim_env] in *. assoc_lit.
  cbn [mbind option_bind]. rewrite (serde_ok (A := bytes) (P := fun _ => True) n I). cbn [mbind option_bind].
  rewrite (serde_ok (A := SimulatorType) (P := fun _ => True) t I). cbn [mbind option_bind].
  rewrite (serde_ok (A := btree) (P := fun _ => True) (list_to_map e) I). cbn [mbind option_bind]. by rewrite H.
Qed.

Definition budget_ok (r : WorkshopResources) : Prop := match r.(max_llm_budget_usd) with Some f => fin f = true | None => True end.
#[export] Instance resources_ok : SerdeOk WorkshopResources budget_ok.
Proof.
  intros [c m d b] H. cbn [to_json of_json serde_resources fields mbind option_bind cpu memory disk max_llm_budget_usd] in *. unfold budget_ok in H.
  destruct d as [d|], b as [f|]; cbn [opt_value skip_none app to_json serde_string] in *; unfold enc_f64; rewrite ?H; by assoc_lit.
Qed.

#[export] Instance session_ok : SerdeOk SessionConfig (fun _ => True).
Proof.
  intros [u w e] _. cbn [to_json of_json serde_session fields mbind option_bind remote_user workspace_folder container_env].
  pose proof (serde_ok (A := btree) (P := fun _ => True) e I) as He. unfold skip_empty.
  destruct (decide (e = ∅)) as [->|Hne]; [rewrite bool_decide_eq_true_2 by done|rewrite bool_decide_eq_false_2 by done];
    destruct u, w; cbn [skip_none app]; assoc_lit; cbn [to_json of_json serde_string fmap option_fmap option_map mbind option_bind]; rewrite ?He; done.
Qed.

(** ** The whole specification *)

Definition spec_ok (s : WorkshopSpec) : Prop :=
  budget_ok s.(resources) /\ Forall (fun x => is_u16 x.(es_port) = true) s.(exported_services) /\
  Forall (fun x => btree_iter (list_to_map x.(sim_env)) = x.(sim_env)) s.(simulators).

Lemma all_true {A} (l : list A) : Forall (fun _ => True) l.
Proof. by apply Forall_true. Qed.

(** A field as it was written is read back; [spec_of] looks at fields only. *)
Lemma field_ok {A} `{!Serde A} (P : A -> Prop) `{!SerdeOk A P} k o a :
  assoc (B k) o = Some (to_json a) -> P a -> field of_json k o = Some a.
Proof. intros H Ha. unfold field. rewrite H. cbn. by apply (serde_ok (P := P)). Qed.
Lemma field_or_ok {A} `{!Serde A} (P : A -> Prop) `{!SerdeOk A P} k o a d :
  assoc (B k) o = Some (to_json a) -> P a -> field_or of_json d k o = Some a.
Proof. intros H Ha. unfold field_or. rewrite H. by apply (serde_ok (P := P)). Qed.
Lemma field_opt_ok {A} `{!Serde A} (P : A -> Prop) `{!SerdeOk A P} k o (a : option A) :
  (forall x : A, to_json x <> JNull) ->
  assoc (B k) o = Some (opt_value to_json a) \/ assoc (B k) o = to_json <$> a -> (forall x, a = Some x -> P x) -> field_opt of_json k o = Some a.
Proof.
  intros Hn H Ha. unfold field_opt. destruct a as [a|].
  - assert (assoc (B k) o = Some (to_json a)) as -> by (by destruct H).
    pose proof (serde_ok (P := P) a (Ha a eq_refl)) as He. pose proof (Hn a). destruct (to_json a); [done|by rewrite He..].
  - by destruct H as [->| ->].
Qed.

(** The lookup of a literal field of a specification. *)
Ltac spec_field :=
  unfold spec_fields; match goal with |- context [skip_none _ _ ?b] => destruct b end; by assoc_lit.

Ltac read_field Ho lem :=
  rewrite lem by first [rewrite Ho; spec_field | apply all_true | done]; cbn [mbind option_bind].

Lemma spec_of_ok s o : spec_ok s -> (forall k, assoc k o = assoc k (spec_fields s)) -> spec_of o = Some s.
Proof.
  intros (Hb & Hx & Hm) Ho. unfold spec_of.
  read_field Ho (field_ok (fun _ => True) "devcontainer" o s.(devcontainer)).
  read_field Ho (field_ok budget_ok "resources" o s.(resources)).
  read_field Ho (field_or_ok (Forall (fun _ => True)) "egressAllowlist" o s.(egress_allowlist)).
  rewrite (field_opt_ok (Forall (fun _ => True)) "buildEgressAllowlist" o s.(build_egress_allowlist));
    [|done|right; rewrite Ho; spec_field|intros; apply all_true]; cbn [mbind option_bind].
  read_field Ho (field_or_ok (Forall (fun _ => True)) "tools" o s.(tools)).
  read_field Ho (field_or_ok (Forall (fun _ => True)) "identityInjectionRules" o s.(identity_injection_rules)).
  read_field Ho (field_ok (fun _ => True) "ownerGroup" o s.(owner_group)).
  read_field Ho (field_ok (fun _ => True) "ownerSubject" o s.(owner_subject)).
  read_field Ho (field_or_ok (fun _ => True) "desiredState" o s.(desired_state)).
  read_field Ho (field_or_ok _ "simulators" o s.(simulators)).
  read_field Ho (field_or_ok _ "exportedServices" o s.(exported_services)).
  read_field Ho (field_or_ok (Forall (fun _ => True)) "allowedInternalTargets" o s.(allowed_internal_targets)).
  rewrite (field_opt_ok (fun _ => True) "campaignId" o s.(campaign_id));
    [|done|left; rewrite Ho; spec_field|done]; cbn [mbind option_bind].
  read_field Ho (field_or_ok (fun _ => True) "guestServices" o s.(guest_services)).
  by destruct s.
Qed.

(** The keys of a specification are distinct. *)
Lemma spec_fields_nodup s : NoDup (spec_fields s).*1.
Proof.
  unfold spec_fields. destruct (build_egress_allowlist s); cbn [skip_none app fmap list_fmap fst];
    apply (bool_decide_unpack _); vm_compute; exact I.
Qed.

(** The value of a field that is not an object replaces the old one when it is patched. *)
Lemma patch_field `{!MergePatch} k v o k' :
  v <> JNull -> (forall kvs, v <> JObj kvs) ->
  jget k' (merge_patch (JObj [(k, v)]) (JObj o)) = if beq k' k then Some v else assoc k' o.
Proof.
  intros Hn Hv. rewrite merge_object by (apply NoDup_singleton). cbn [assoc jget fields_of].
  destruct (beq k' k); [|done]. cbn [merged_field]. rewrite merge_value by done. by destruct v.
Qed.

(** Read from a request with the fields that are required only, a specification has the
    documented defaults. *)
Lemma minimal_spec r c m g u :
  of_json (JObj [(B "devcontainer", JObj [(B "repo", JStr r)]); (B "resources", JObj [(B "cpu", JStr c); (B "memory", JStr m)]);
             (B "ownerGroup", JStr g); (B "ownerSubject", JStr u)]) =
  Some (mkSpec (mkSource r (B "HEAD") (B ".devcontainer/devcontainer.json") true) (mkResources c m None None)
          [] None [] [] g u DesiredRunning [] [] [] None default_services).
Proof. reflexivity. Qed.

(** The ports of an image: in the reserved range, distinct, a service's present exactly when
    it was asked for. *)
Lemma reserved_ports services :
  let p := reserved services in let in_range n := RESERVED_RANGE.1 <= n <= RESERVED_RANGE.2 in
  in_range p.(gp_ssh) /\ (forall n, p.(gp_terminal) = Some n \/ p.(gp_ide) = Some n -> in_range n /\ n <> p.(gp_ssh)) /\
  (is_Some p.(gp_terminal) <-> services.(gs_terminal) = true) /\ (is_Some p.(gp_ide) <-> services.(gs_ide) = true) /\
  (forall n, p.(gp_terminal) = Some n -> p.(gp_ide) <> Some n).
Proof.
  destruct services as [[] []]; cbn; split_and!; try lia; try (by split; [intros [? ?]|]); naive_solver lia.
Qed.

(** A specification written to the cluster and read back is the same, whatever its
    fields: ports of 16 bits, a budget that is a number, the variables of simulators those
    of a map. *)
Theorem spec_roundtrip s : spec_ok s -> of_json (to_json s) = Some s.
Proof. intros H. cbn [to_json of_json serde_spec fields mbind option_bind]. by apply spec_of_ok. Qed.

Definition toy_full : WorkshopSpec :=
  mkSpec (mkSource (B "https://forge/a.git") (B "main") (B ".devcontainer.json") false)
    (mkResources (B "500m") (B "1Gi") (Some (B "10Gi")) (Some (f64_of_Z 3))) [B "github.com"] (Some []) [B "egress"]
    [mkRule (B "api") (B "Authorization") (B "Bearer ") (B "p") (B "value")] (B "g") (B "u") DesiredSuspended
    [mkSimulator (B "db") Postgres [(B "A", B "1"); (B "B", B "2")]] [mkExported (B "web") 8080] [] (Some (B "c"))
    (mkServices true false).

Lemma spec_roundtrip_witness : of_json (to_json toy_full) = Some toy_full.
Proof.
  apply (spec_roundtrip toy_full). split; [reflexivity|]. split; [by constructor|].
  constructor; [vm_compute; reflexivity|constructor].
Defined.
