(* ===== verification/Lifecycle.v ===== *)
(** * The life of a Workshop

    [crates/controller/src/reconcile.rs] (the phases: [apply], [ensure_suspended],
    [ensure_image_build_job], [ensure_parent_pod] from the creation of the pod on,
    [carry_forward_status], [update_status]), the status of
    [crates/common/src/crd.rs], what [crates/image-builder] writes to it, and the
    readiness probe of [crates/controller/src/guest_probe.rs].  A reconciliation
    reads the Workshop, acts on the cluster, and patches the status it computed:
    between the two, image-builder, the user and the kubelet go on. *)

From S2P Require Import Prelude RustStr Json Crd.

(** ** The status *)

Inductive WorkshopPhase :=
| Pending | BuildingImage | Provisioning | Running | Suspending | Suspended | Resuming
| Terminating | Failed.

#[global] Instance phase_eq_dec : EqDecision WorkshopPhase.
Proof. solve_decision. Defined.

Definition all_phases : list WorkshopPhase :=
  [Pending; BuildingImage; Provisioning; Running; Suspending; Suspended; Resuming; Terminating; Failed].
Definition phase_str (p : WorkshopPhase) : bytes :=
  match p with
  | Pending => B "Pending" | BuildingImage => B "BuildingImage" | Provisioning => B "Provisioning"
  | Running => B "Running" | Suspending => B "Suspending" | Suspended => B "Suspended"
  | Resuming => B "Resuming" | Terminating => B "Terminating" | Failed => B "Failed"
  end.
Definition phase_of_str (s : bytes) : option WorkshopPhase :=
  find_first (fun p => beq (phase_str p) s) all_phases.

Inductive WorkshopUpgradeState := NeedsRestartForUpgrade.

(** [struct WorkshopStatus]; [session] is the JSON of its [SessionConfig]. *)
Record WorkshopStatus := mkStatus {
  phase : WorkshopPhase;
  pod_name : option bytes;
  image_digest : option bytes;
  snapshot_digest : option bytes;
  upgrade_state : option WorkshopUpgradeState;
  guest_ports : option GuestPorts;
  session : option json;
  conditions : list (bytes * bytes) }.

(** [Serialize] of the status, with its [skip_serializing_if] attributes. *)
Definition ports_json (p : GuestPorts) : json :=
  JObj ([(B "ssh", JNum (gp_ssh p))] ++ skip_none (B "terminal") JNum (gp_terminal p) ++
        skip_none (B "ide") JNum (gp_ide p)).
Definition upgrade_json (u : WorkshopUpgradeState) : json := JStr (B "NeedsRestartForUpgrade").
Definition status_json (s : WorkshopStatus) : json :=
  JObj ([(B "phase", JStr (phase_str (phase s))); (B "podName", opt_value JStr (pod_name s))] ++
        skip_none (B "imageDigest") JStr (image_digest s) ++
        skip_none (B "snapshotDigest") JStr (snapshot_digest s) ++
        skip_none (B "upgradeState") upgrade_json (upgrade_state s) ++
        skip_none (B "guestPorts") ports_json (guest_ports s) ++
        skip_none (B "session") id (session s) ++
        [(B "conditions", JObj ((fun kv => (kv.1, JStr kv.2)) <$> conditions s))]).

(** [Deserialize], with its defaults; [None] for an object without a status. *)
Definition ports_of (j : json) : option GuestPorts :=
  ssh ← get_num (B "ssh") j; Some (mkPorts ssh (get_num (B "terminal") j) (get_num (B "ide") j)).
Definition status_of (j : json) : option WorkshopStatus :=
  p ← get_str (B "phase") j; ph ← phase_of_str p;
  Some (mkStatus ph (get_str (B "podName") j) (get_str (B "imageDigest") j)
    (get_str (B "snapshotDigest") j)
    (match get_str (B "upgradeState") j with Some _ => Some NeedsRestartForUpgrade | None => None end)
    (jget (B "guestPorts") j ≫= ports_of) (jget (B "session") j)
    (omap (fun kv => match kv.2 with JStr s => Some (kv.1, s) | _ => None end)
       (fields_of (default JNull (jget (B "conditions") j))))).

(** ** The cluster, for one Workshop *)

Record Pod := mkPodObject {
  deletion_timestamp : bool;
  pod_phase : option bytes;
  pod_ip : option bytes;
  template_hash : option bytes }.

Record Job := mkJob {
  job_conditions : list (bytes * bytes);   (* type, status *)
  job_succeeded : option Z }.

(** A pod of the build: name, exit code, message and end of its terminated containers. *)
Record Terminated := mkTerminated { exit_code : Z; t_message : option bytes; finished_at : option Z }.
Abbreviation BuildPod := (list (bytes * option Terminated)).

Record Workshop := mkWorkshop {
  w_name : bytes;
  desired_state : WorkshopDesiredState;
  w_status : option WorkshopStatus }.

(** ** The reconciliation *)

(** [fn carry_forward_status]. *)
Definition carry_forward_status (w : Workshop) (ph : WorkshopPhase) (digest : option bytes)
    : WorkshopStatus :=
  mkStatus ph (w_status w ≫= pod_name)
    (match digest with Some d => Some d | None => w_status w ≫= image_digest end)
    (w_status w ≫= snapshot_digest) (w_status w ≫= upgrade_state) (w_status w ≫= guest_ports)
    (w_status w ≫= session) [].

(** What a reconciliation does to the cluster. *)
Inductive kube_action :=
| CreatePod (p : Pod)
| DeletePod
| CreateJob
| GenerateBuildKey
| RevokeBuildKey.

(** vm-supervisor's answer to [POST /snapshot]. *)
Inductive snapshot_reply := NoReply | RefusedReply | UnreadableReply | DigestReply (d : option bytes).

(** [fn request_snapshot]. *)
Definition request_snapshot (p : Pod) (reply : snapshot_reply) : option bytes :=
  _ ← pod_ip p;
  match reply with DigestReply d => d | _ => None end.

(** [fn ensure_suspended]. *)
Definition ensure_suspended (w : Workshop) (existing_pod : option Pod) (reply : snapshot_reply)
    : list kube_action * WorkshopStatus :=
  let '(acts, ph, digest) :=
    match existing_pod with
    | Some p =>
        if deletion_timestamp p then ([], Suspending, w_status w ≫= snapshot_digest)
        else ([DeletePod], Suspending, request_snapshot p reply)
    | None => ([], Suspended, w_status w ≫= snapshot_digest)
    end in
  let s := carry_forward_status w ph (w_status w ≫= image_digest) in
  (acts, mkStatus (phase s) None (image_digest s) digest (upgrade_state s) (guest_ports s)
           (session s) (conditions s)).

(** [fn build_failure_message]: the latest of the failed builds that left a message;
    [max_by] keeps the last of equal ones. *)
Definition failure_of (p : BuildPod) : option (option Z * bytes) :=
  t ← assoc (B "image-builder") p ≫= id;
  if exit_code t =? 0 then None
  else m ← t_message t; if is_empty (trim m) then None else Some (finished_at t, trim m).
Definition later (a b : option Z) : bool :=
  match a, b with None, _ => true | Some x, Some y => x <=? y | Some _, None => false end.
Definition build_failure_message (pods : list BuildPod) : option bytes :=
  snd <$> foldl (fun best c => match best with
                               | Some b => if later b.1 c.1 then Some c else Some b
                               | None => Some c
                               end) None (omap failure_of pods).

Definition image_build_service_account (workshop_name : bytes) : bytes := workshop_name ++ B "-image-build".
Definition IMAGE_BUILD_CONDITION : bytes := B "ImageBuildFailed".

(** [fn ensure_image_build_job], its provisioning of volumes and roles left out:
    [litellm] when LiteLLM is configured, [pods] what the list of the build's pods
    answers.  A Job just created has no status. *)
Definition ensure_image_build_job (litellm : bool) (w : Workshop) (existing : option Job)
    (pods : option (list BuildPod)) : list kube_action * WorkshopStatus :=
  let creation :=
    match existing with
    | None => (if litellm then [GenerateBuildKey] else []) ++ [CreateJob]
    | Some _ => []
    end in
  let current := default (mkJob [] None) existing in
  let job_failed := existsb (fun c => beq c.1 (B "Failed") && beq c.2 (B "True")) (job_conditions current) in
  let job_succeeded := default 0 (job_succeeded current) >? 0 in
  let revoke := if litellm && (job_failed || job_succeeded) then [RevokeBuildKey] else [] in
  let s := carry_forward_status w (if job_failed then Failed else BuildingImage) None in
  let message :=
    default (B "le Job " ++ image_build_service_account (w_name w) ++
             B " a echoue sans message (voir ses journaux)") (pods ≫= build_failure_message) in
  (creation ++ revoke,
   mkStatus (phase s) (pod_name s) (image_digest s) (snapshot_digest s) (upgrade_state s) (guest_ports s)
     (session s) (if job_failed then [(IMAGE_BUILD_CONDITION, message)] else [])).

(** ** The readiness probe *)

Inductive Expect := SshBanner | HttpResponse.
Definition expect_request (e : Expect) : option bytes :=
  match e with
  | SshBanner => None
  | HttpResponse => Some (B "GET / HTTP/1.0" ++ [13; 10; 13; 10])
  end.
Definition expect_prefix (e : Expect) : bytes :=
  match e with SshBanner => B "SSH-" | HttpResponse => B "HTTP/" end.

(** The messages of the WebSocket until it ends, fails, or the timeout comes. *)
Inductive ws_message := WsBinary (data : bytes) | WsOther.

Fixpoint read_answer (e : Expect) (received : bytes) (msgs : list ws_message) : bool :=
  match msgs with
  | [] => false
  | WsOther :: r => read_answer e received r
  | WsBinary data :: r =>
      match data with
      | 0 :: payload =>
          let received := received ++ payload in
          if Nat.leb (length (expect_prefix e)) (length received)
          then starts_with received (expect_prefix e)
          else read_answer e received r
      | _ => false
      end
  end.

(** [fn guest_port_answers]: [None] when the WebSocket cannot be opened, and whether
    the request could be sent. *)
Definition guest_port_answers (e : Expect) (session : option (bool * list ws_message)) : bool :=
  match session with
  | None => false
  | Some (sent, msgs) =>
      match expect_request e with
      | Some _ => if sent then read_answer e [] msgs else false
      | None => read_answer e [] msgs
      end
  end.

(** ** The parent pod *)

(** What the guest answers: a session per port, and vm-supervisor's [/lockdown]. *)
Record probes := mkProbes {
  on_port : Z -> option (bool * list ws_message);
  locked : bool }.

Definition parent_pod_name (name : bytes) : bytes := name ++ B "-parent".
Definition workshop_ports (w : Workshop) : GuestPorts :=
  default LEGACY (w_status w ≫= guest_ports).

(** [terminal_ready && ...]: the two doors of the guest. *)
Definition doors_answer (g : GuestPorts) (pr : probes) : bool :=
  match gp_terminal g with
  | Some port => guest_port_answers HttpResponse (on_port pr port)
  | None => true
  end && guest_port_answers SshBanner (on_port pr (gp_ssh g)).

(** [fn ensure_parent_pod] from the creation of the pod on; [desired_hash] is the hash
    of the [PodSpec] this reconciliation builds.  A pod just created reports no
    phase and no address. *)
Definition ensure_parent_pod (w : Workshop) (digest : bytes) (resuming : bool) (desired_hash : bytes)
    (existing : option Pod) (pr : probes) : list kube_action * WorkshopStatus :=
  let created := mkPodObject false None None (Some desired_hash) in
  let acts := match existing with Some _ => [] | None => [CreatePod created] end in
  let current := default created existing in
  let upgrade :=
    h ← template_hash current;
    if beq h desired_hash then None else Some NeedsRestartForUpgrade in
  let pod_running := bool_decide (pod_phase current = Some (B "Running")) in
  let already_confirmed_running := bool_decide (phase <$> w_status w = Some Running) in
  let guest_ready :=
    pod_running && (already_confirmed_running ||
                    match pod_ip current with
                    | Some _ => doors_answer (workshop_ports w) pr
                    | None => false
                    end) in
  let ph := if guest_ready then Running else if resuming then Resuming else Provisioning in
  let s := carry_forward_status w ph (Some digest) in
  let lockdown := match pod_ip current with Some _ => locked pr | None => false end in
  (acts, mkStatus (phase s) (Some (parent_pod_name (w_name w))) (image_digest s) (snapshot_digest s)
           upgrade (guest_ports s) (session s)
           (if lockdown then [(B "SecurityLockdown", B "true")] else [])).

(** What the outside answers during one reconciliation. *)
Record answers := mkAnswers {
  a_litellm : bool;
  a_snapshot : snapshot_reply;
  a_build_pods : option (list BuildPod);
  a_hash : bytes;
  a_probes : probes }.

(** [fn apply]. *)
Definition apply (w : Workshop) (pod : option Pod) (job : option Job) (a : answers)
    : list kube_action * WorkshopStatus :=
  if decide (desired_state w = DesiredSuspended) then ensure_suspended w pod (a_snapshot a)
  else
    let was_suspended :=
      match default Pending (phase <$> w_status w) with Suspended | Suspending => true | _ => false end in
    match w_status w ≫= image_digest with
    | None => ensure_image_build_job (a_litellm a) w job (a_build_pods a)
    | Some digest => ensure_parent_pod w digest was_suspended (a_hash a) pod (a_probes a)
    end.

(** ** Writing the status *)

Section patches.
Context `{MergePatch}.

(** [fn update_status]: a merge patch of the status, [JNull] when there is none yet. *)
Definition update_status (s : WorkshopStatus) (stored : json) : json := merge_patch (status_json s) stored.

(** image-builder's [status_after_build], whose nulls erase what an earlier build left,
    patched into the status. *)
Definition status_after_build (digest : bytes) (p : GuestPorts) (remote_user workspace_folder : option bytes)
    (container_env : list (bytes * bytes)) : json :=
  JObj [(B "imageDigest", JStr digest);
        (B "session", JObj [(B "remoteUser", opt_value JStr remote_user);
                            (B "workspaceFolder", opt_value JStr workspace_folder);
                            (B "containerEnv",
                              if bool_decide (container_env = []) then JNull
                              else JObj ((fun kv => (kv.1, JStr kv.2)) <$> container_env))]);
        (B "guestPorts", JObj [(B "ssh", JNum (gp_ssh p)); (B "terminal", opt_value JNum (gp_terminal p));
                               (B "ide", opt_value JNum (gp_ide p))])].
End patches.

(** ** The system *)

(** One Workshop in its cluster: what is stored, the status a reconciliation has
    computed and not yet written, and the digests image-builder has published. *)
Record system := mkSystem {
  s_desired : WorkshopDesiredState;
  s_status : json;
  s_pod : option Pod;
  s_job : option Job;
  s_computed : option WorkshopStatus;
  s_published : list bytes }.

Definition act (sys : system) (a : kube_action) : system :=
  match a with
  | CreatePod p => mkSystem (s_desired sys) (s_status sys) (Some p) (s_job sys) (s_computed sys) (s_published sys)
  | DeletePod =>
      mkSystem (s_desired sys) (s_status sys)
        ((fun p => mkPodObject true (pod_phase p) (pod_ip p) (template_hash p)) <$> s_pod sys)
        (s_job sys) (s_computed sys) (s_published sys)
  | CreateJob =>
      mkSystem (s_desired sys) (s_status sys) (s_pod sys) (Some (mkJob [] None)) (s_computed sys) (s_published sys)
  | GenerateBuildKey | RevokeBuildKey => sys
  end.

Definition read_workshop (name : bytes) (sys : system) : Workshop :=
  mkWorkshop name (s_desired sys) (status_of (s_status sys)).

(** [fn reconcile], in its two halves. *)
Definition reconcile_apply (name : bytes) (a : answers) (sys : system) : system :=
  let '(acts, s) := apply (read_workshop name sys) (s_pod sys) (s_job sys) a in
  let sys' := foldl act sys acts in
  mkSystem (s_desired sys') (s_status sys') (s_pod sys') (s_job sys') (Some s) (s_published sys').
Definition reconcile_write `{MergePatch} (sys : system) : system :=
  match s_computed sys with
  | Some s => mkSystem (s_desired sys) (update_status s (s_status sys)) (s_pod sys) (s_job sys) None (s_published sys)
  | None => sys
  end.

(** The kubelet reports on the pod it has, or ends its deletion. *)
Definition kubelet_may (p p' : option Pod) : Prop :=
  match p, p' with
  | Some p, Some p' => deletion_timestamp p' = deletion_timestamp p /\ template_hash p' = template_hash p
  | Some _, None => True
  | None, p' => p' = None
  end.

Inductive system_step `{MergePatch} (name : bytes) : system -> system -> Prop :=
| step_user sys d :
    system_step name sys
      (mkSystem d (s_status sys) (s_pod sys) (s_job sys) (s_computed sys) (s_published sys))
| step_builder sys digest p user folder env :
    system_step name sys
      (mkSystem (s_desired sys) (merge_patch (status_after_build digest p user folder env) (s_status sys))
         (s_pod sys) (s_job sys) (s_computed sys) (s_published sys ++ [digest]))
| step_job sys j :
    system_step name sys
      (mkSystem (s_desired sys) (s_status sys) (s_pod sys) (Some j) (s_computed sys) (s_published sys))
| step_kubelet sys p :
    kubelet_may (s_pod sys) p ->
    system_step name sys
      (mkSystem (s_desired sys) (s_status sys) p (s_job sys) (s_computed sys) (s_published sys))
| step_apply sys a : s_computed sys = None -> system_step name sys (reconcile_apply name a sys)
| step_write sys : system_step name sys (reconcile_write sys).

Definition new_workshop : system := mkSystem DesiredRunning JNull None None None [].

(** ** Fields of a patched status *)

Lemma status_keys_nodup s : NoDup (fields_of (status_json s)).*1.
Proof.
  destruct s as [ph pn [d|] [sd|] [u|] [g|] [se|] cs]; cbn [status_json fields_of];
    apply (bool_decide_unpack _); vm_compute; exact I.
Qed.

Lemma update_field `{MergePatch} s stored k :
  jget k (update_status s stored) = merged_field merge_patch (jget k (status_json s)) (jget k stored).
Proof. unfold update_status. apply (merge_object (fields_of (status_json s))). apply status_keys_nodup. Qed.

(** The field [k] of a serialised status. *)
Ltac status_field :=
  intros; match goal with s : WorkshopStatus |- _ => destruct s as [? ? [?|] [?|] [[]|] [?|] [?|] ?] end;
  vm_compute; reflexivity.

Lemma field_image s : jget (B "imageDigest") (status_json s) = JStr <$> image_digest s.
Proof. status_field. Qed.
Lemma field_snapshot s : jget (B "snapshotDigest") (status_json s) = JStr <$> snapshot_digest s.
Proof. status_field. Qed.
Lemma field_upgrade s : jget (B "upgradeState") (status_json s) = upgrade_json <$> upgrade_state s.
Proof. status_field. Qed.
Lemma field_phase s : jget (B "phase") (status_json s) = Some (JStr (phase_str (phase s))).
Proof. status_field. Qed.
Lemma field_pod s : jget (B "podName") (status_json s) = Some (opt_value JStr (pod_name s)).
Proof. status_field. Qed.

Lemma phase_roundtrip p : phase_of_str (phase_str p) = Some p.
Proof. by destruct p. Qed.

Lemma update_image `{MergePatch} s j :
  get_str (B "imageDigest") (update_status s j) =
  match image_digest s with Some d => Some d | None => get_str (B "imageDigest") j end.
Proof.
  unfold get_str. rewrite update_field, field_image.
  destruct (image_digest s); cbn [fmap option_fmap option_map merged_field]; [by rewrite merge_str|done].
Qed.

Lemma update_snapshot `{MergePatch} s j :
  get_str (B "snapshotDigest") (update_status s j) =
  match snapshot_digest s with Some d => Some d | None => get_str (B "snapshotDigest") j end.
Proof.
  unfold get_str. rewrite update_field, field_snapshot.
  destruct (snapshot_digest s); cbn [fmap option_fmap option_map merged_field]; [by rewrite merge_str|done].
Qed.

Lemma update_phase `{MergePatch} s j :
  get_str (B "phase") (update_status s j) = Some (phase_str (phase s)).
Proof. unfold get_str. rewrite update_field, field_phase. cbn [merged_field]. by rewrite merge_str. Qed.

Lemma update_pod `{MergePatch} s j : get_str (B "podName") (update_status s j) = pod_name s.
Proof.
  unfold get_str. rewrite update_field, field_pod.
  destruct (pod_name s); cbn [opt_value merged_field]; [by rewrite merge_str|done].
Qed.

(** What a reader sees after a write. *)
Lemma status_of_update `{MergePatch} s j :
  exists st, status_of (update_status s j) = Some st /\ phase st = phase s /\ pod_name st = pod_name s /\
    image_digest st = match image_digest s with Some d => Some d | None => get_str (B "imageDigest") j end.
Proof.
  unfold status_of. rewrite update_phase. cbn [mbind option_bind]. rewrite phase_roundtrip.
  cbn [mbind option_bind]. eexists. split; [done|]. cbn [phase pod_name image_digest].
  by rewrite update_image, update_pod.
Qed.

Lemma build_keys_nodup digest p user folder env :
  NoDup (fields_of (status_after_build digest p user folder env)).*1.
Proof. apply (bool_decide_unpack _); vm_compute; exact I. Qed.

Lemma build_image `{MergePatch} digest p user folder env j :
  get_str (B "imageDigest") (merge_patch (status_after_build digest p user folder env) j) = Some digest.
Proof.
  unfold get_str, status_after_build. rewrite merge_object by apply (build_keys_nodup digest p user folder env).
  change (assoc _ _) with (Some (JStr digest)). cbn [merged_field]. by rewrite merge_str.
Qed.

(** ** What a reconciliation computes *)

Lemma status_of_image j : (status_of j ≫= image_digest) = None \/
  (status_of j ≫= image_digest) = get_str (B "imageDigest") j.
Proof.
  unfold status_of. destruct (get_str (B "phase") j) as [p|]; cbn [mbind option_bind]; [|by left].
  destruct (phase_of_str p); cbn [mbind option_bind]; [by right|by left].
Qed.

Lemma apply_image w pod job a : image_digest (apply w pod job a).2 = w_status w ≫= image_digest.
Proof.
  unfold apply. destruct (decide _).
  - unfold ensure_suspended. destruct pod as [p|]; [destruct (deletion_timestamp p)|]; cbn;
      by destruct (w_status w ≫= image_digest).
  - destruct (w_status w ≫= image_digest) eqn:E; cbn; [done|by rewrite E].
Qed.

Lemma act_keeps acts sys :
  s_desired (foldl act sys acts) = s_desired sys /\ s_status (foldl act sys acts) = s_status sys /\
  s_computed (foldl act sys acts) = s_computed sys /\ s_published (foldl act sys acts) = s_published sys.
Proof.
  revert sys. induction acts as [|a acts IH]; intros sys; [done|]. cbn [foldl].
  destruct (IH (act sys a)) as (-> & -> & -> & ->). by destruct a.
Qed.

Lemma reconcile_apply_stored name a sys :
  s_status (reconcile_apply name a sys) = s_status sys /\
  s_published (reconcile_apply name a sys) = s_published sys /\
  s_desired (reconcile_apply name a sys) = s_desired sys /\
  s_computed (reconcile_apply name a sys) =
    Some (apply (read_workshop name sys) (s_pod sys) (s_job sys) a).2.
Proof.
  unfold reconcile_apply. destruct (apply _ _ _ _) as [acts s]. cbn.
  by destruct (act_keeps acts sys) as (-> & -> & _ & ->).
Qed.

(** ** Digests *)

(** Every digest about comes from image-builder, and once it has published one there
    is one. *)
Record digests_inv (sys : system) : Prop := {
  di_origin d : get_str (B "imageDigest") (s_status sys) = Some d -> d ∈ s_published sys;
  di_present : s_published sys <> [] -> is_Some (get_str (B "imageDigest") (s_status sys));
  di_computed s d : s_computed sys = Some s -> image_digest s = Some d -> d ∈ s_published sys }.

Lemma system_step_digests `{MergePatch} name sys sys' :
  system_step name sys sys' -> digests_inv sys -> digests_inv sys'.
Proof.
  intros Hs [Ho Hp Hc]. destruct Hs as [sys d|sys digest p user folder env|sys j|sys p _|sys a Hn|sys].
  - by split.
  - split; cbn.
    + rewrite build_image. intros d [= <-]. set_solver.
    + rewrite build_image. eauto.
    + intros s d Hs Hd. apply elem_of_app. left. by eapply Hc.
  - by split.
  - by split.
  - destruct (reconcile_apply_stored name a sys) as (E1 & E2 & _ & E3).
    split; rewrite ?E1, ?E2, ?E3; [done..|]. intros s d [= <-]. rewrite apply_image. cbn.
    destruct (status_of_image (s_status sys)) as [-> | ->]; [done|]. apply Ho.
  - unfold reconcile_write. destruct (s_computed sys) as [s|] eqn:E; [|split; [done|done|by rewrite E]].
    split; cbn; [| |done]; rewrite update_image; destruct (image_digest s) as [d|] eqn:Ed; eauto.
    intros d' [= <-]. by eapply Hc.
Qed.

Lemma reachable_digests `{MergePatch} name sys :
  rtc (system_step name) new_workshop sys -> digests_inv sys.
Proof.
  intros Hr. assert (Hi : digests_inv new_workshop) by (split; by vm_compute). revert Hi.
  induction Hr; eauto using system_step_digests.
Qed.

(** ** Pods and phases *)

(** What a reconciliation does to the pod. *)
Definition reconciled_pod (w : Workshop) (hash : bytes) (p : option Pod) : option Pod :=
  match desired_state w, p with
  | DesiredSuspended, Some p => Some (mkPodObject true (pod_phase p) (pod_ip p) (template_hash p))
  | DesiredSuspended, None => None
  | DesiredRunning, Some p => Some p
  | DesiredRunning, None =>
      match w_status w ≫= image_digest with
      | Some _ => Some (mkPodObject false None None (Some hash))
      | None => None
      end
  end.

Lemma reconcile_apply_pod name a sys :
  s_pod (reconcile_apply name a sys) = reconciled_pod (read_workshop name sys) (a_hash a) (s_pod sys).
Proof.
  unfold reconcile_apply, apply, reconciled_pod.
  destruct (s_desired sys) eqn:Ed; cbn [desired_state read_workshop w_status].
  - rewrite decide_False by (by rewrite Ed). rewrite Ed.
    destruct (status_of (s_status sys) ≫= image_digest) as [d|].
    + unfold ensure_parent_pod. destruct (s_pod sys) as [p|] eqn:Ep; cbn; [by rewrite Ep|done].
    + unfold ensure_image_build_job.
      destruct (s_job sys), (a_litellm a); cbn [default app];
        destruct (existsb _ _), (_ >? _); cbn; by destruct (s_pod sys).
  - rewrite decide_True by done. rewrite Ed. unfold ensure_suspended.
    destruct (s_pod sys) as [p|] eqn:Ep; [|cbn; by rewrite Ep].
    destruct (deletion_timestamp p) eqn:Edel; cbn; rewrite Ep; [|done]. by destruct p; cbn in *; subst.
Qed.

(** ** Readiness *)

(** The bytes a guest sent on the data channel, up to the first frame of another one. *)
Fixpoint data_bytes (msgs : list ws_message) : bytes :=
  match msgs with
  | [] => []
  | WsOther :: r => data_bytes r
  | WsBinary (0 :: payload) :: r => payload ++ data_bytes r
  | WsBinary _ :: _ => []
  end.

Lemma starts_with_app_enough s t p :
  (length p <= length s)%nat -> starts_with (s ++ t) p = starts_with s p.
Proof.
  intros Hl. apply eq_bool_prop_intro. rewrite !Is_true_true, !starts_with_true. split.
  - intros [r Hr]. exists (drop (length p) s). apply (f_equal (take (length p))) in Hr.
    rewrite take_app_le, take_app_length in Hr by lia. rewrite <- Hr at 1. by rewrite take_drop.
  - intros [r ->]. exists (r ++ t). by rewrite app_assoc.
Qed.

Lemma starts_with_short s p : (length s < length p)%nat -> starts_with s p = false.
Proof.
  intros Hl. destruct (starts_with s p) eqn:E; [|done]. apply starts_with_true in E as [r ->].
  rewrite length_app in Hl. lia.
Qed.

Lemma read_answer_spec e acc msgs :
  (length acc < length (expect_prefix e))%nat ->
  read_answer e acc msgs = starts_with (acc ++ data_bytes msgs) (expect_prefix e).
Proof.
  revert acc. induction msgs as [|[data|] msgs IH]; intros acc Hl; cbn [read_answer data_bytes].
  - by rewrite app_nil_r, starts_with_short.
  - destruct data as [|[|c|c] payload]; cbv beta iota;
      [by rewrite app_nil_r, starts_with_short| |by rewrite app_nil_r, starts_with_short..].
    destruct (Nat.leb_spec (length (expect_prefix e)) (length (acc ++ payload))).
    + by rewrite app_assoc, (starts_with_app_enough (acc ++ payload)).
    + rewrite IH by done. by rewrite app_assoc.
  - by apply IH.
Qed.

(** A port answers when the guest sent, on its data channel, what the service says
    first. *)
Lemma guest_port_answers_true e ses :
  guest_port_answers e ses = true ->
  exists sent msgs r, ses = Some (sent, msgs) /\ data_bytes msgs = expect_prefix e ++ r.
Proof.
  unfold guest_port_answers. destruct ses as [[sent msgs]|]; [|done].
  intros Ha. assert (Hr : read_answer e [] msgs = true) by (destruct (expect_request e), sent; done).
  rewrite read_answer_spec in Hr by (by destruct e; cbn; lia).
  apply starts_with_true in Hr as [r Hr]. by exists sent, msgs, r.
Qed.

(** What [Running] says of the guest when it is announced: behind each of its doors, [sshd]'s
    and, where there is one, the terminal's, a server sent what such a server says first. *)
Definition door_answered (pr : probes) (port : Z) (e : Expect) : Prop :=
  exists sent msgs r, on_port pr port = Some (sent, msgs) /\ data_bytes msgs = expect_prefix e ++ r.
Definition guest_answered (w : Workshop) (pr : probes) : Prop :=
  door_answered pr (gp_ssh (workshop_ports w)) SshBanner /\
  forall port, gp_terminal (workshop_ports w) = Some port -> door_answered pr port HttpResponse.

Lemma apply_running w pod job a :
  phase (apply w pod job a).2 = Running ->
  desired_state w = DesiredRunning /\
  exists p, pod = Some p /\ pod_phase p = Some (B "Running") /\
    (phase <$> w_status w = Some Running \/ is_Some (pod_ip p) /\ guest_answered w (a_probes a)).
Proof.
  unfold apply. destruct (decide _) as [Hd|Hd].
  - unfold ensure_suspended. by destruct pod as [p|]; [destruct (deletion_timestamp p)|].
  - destruct (w_status w ≫= image_digest) as [d|].
    2: { cbn. by destruct (existsb _ _). }
    cbn. intros Hr. split; [by destruct (desired_state w)|].
    destruct pod as [p|]; cbn in Hr; [|rewrite bool_decide_false in Hr by done; cbn in Hr; by case_match].
    exists p. split; [done|].
    destruct (bool_decide (pod_phase p = _)) eqn:Ep; cbn in Hr; [|by case_match].
    apply bool_decide_eq_true in Ep. split; [done|].
    destruct (bool_decide (phase <$> w_status w = Some Running)) eqn:Er; cbn in Hr;
      [left; by apply bool_decide_eq_true in Er|right].
    destruct (pod_ip p) as [ip|]; [|by case_match].
    destruct (doors_answer (workshop_ports w) (a_probes a)) eqn:Edoors; [|by case_match].
    unfold doors_answer in Edoors. apply andb_true_iff in Edoors as [Ht Hs]. split; [done|].
    split; [by apply guest_port_answers_true|]. intros port Hport. rewrite Hport in Ht. by apply guest_port_answers_true.
Qed.

Lemma apply_suspended w pod job a :
  phase (apply w pod job a).2 = Suspended -> desired_state w = DesiredSuspended /\ pod = None.
Proof.
  unfold apply. destruct (decide _) as [Hd|Hd].
  - unfold ensure_suspended. by destruct pod as [p|]; [destruct (deletion_timestamp p)|].
  - destruct (w_status w ≫= image_digest) as [d|]; cbn; [|by destruct (existsb _ _)].
    repeat case_match; done.
Qed.

(** ** A whole reconciliation *)

Definition reconcile `{MergePatch} (name : bytes) (a : answers) (sys : system) : system :=
  reconcile_write (reconcile_apply name a sys).

Definition with_pod (p : option Pod) (sys : system) : system :=
  mkSystem (s_desired sys) (s_status sys) p (s_job sys) (s_computed sys) (s_published sys).
Definition with_desired (d : WorkshopDesiredState) (sys : system) : system :=
  mkSystem d (s_status sys) (s_pod sys) (s_job sys) (s_computed sys) (s_published sys).
(** The kubelet ends a pod whose deletion was asked for, and no other; it runs the one there
    is and reports the address it gave it. *)
Definition kubelet_ends (sys : system) : system :=
  with_pod (p ← s_pod sys; if deletion_timestamp p then None else Some p) sys.
Definition kubelet_runs (ip : bytes) (sys : system) : system :=
  with_pod ((fun p => mkPodObject (deletion_timestamp p) (Some (B "Running")) (Some ip) (template_hash p)) <$> s_pod sys) sys.
Lemma kubelet_allowed ip sys :
  kubelet_may (s_pod sys) (s_pod (kubelet_ends sys)) /\ kubelet_may (s_pod sys) (s_pod (kubelet_runs ip sys)).
Proof.
  unfold kubelet_may, kubelet_ends, kubelet_runs. cbn [with_pod s_pod]. destruct (s_pod sys) as [p|]; [|done].
  cbn [mbind option_bind fmap option_fmap option_map]. split; [by destruct (deletion_timestamp p) eqn:E|done].
Qed.

Lemma reconcile_eq `{MergePatch} name a sys :
  let s := (apply (read_workshop name sys) (s_pod sys) (s_job sys) a).2 in
  s_desired (reconcile name a sys) = s_desired sys /\
  s_status (reconcile name a sys) = update_status s (s_status sys) /\
  s_pod (reconcile name a sys) = reconciled_pod (read_workshop name sys) (a_hash a) (s_pod sys).
Proof.
  unfold reconcile, reconcile_write. destruct (reconcile_apply_stored name a sys) as (E1 & _ & E2 & E3).
  rewrite E3. cbn. by rewrite E1, E2, reconcile_apply_pod.
Qed.

(** After a write, a reader finds the phase, the pod's name and the digest. *)
Lemma reconcile_status `{MergePatch} name a sys d :
  (status_of (s_status sys) ≫= image_digest) = Some d ->
  let s := (apply (read_workshop name sys) (s_pod sys) (s_job sys) a).2 in
  exists st, status_of (s_status (reconcile name a sys)) = Some st /\ phase st = phase s /\
    pod_name st = pod_name s /\ image_digest st = Some d.
Proof.
  intros Hd s. destruct (reconcile_eq name a sys) as (_ & -> & _).
  destruct (status_of_update s (s_status sys)) as (st & Hst & Hp & Hn & Hi).
  exists st. split_and!; [done..|]. rewrite Hi. unfold s. rewrite apply_image. cbn. by rewrite Hd.
Qed.

(** ** Claims *)

(** A step in which image-builder publishes nothing. *)
Definition without_publication `{MergePatch} (name : bytes) (a b : system) : Prop :=
  system_step name a b /\ s_published b = s_published a.
(** What a publication leaves, when no reconciliation under way read another digest, stays. *)
Definition settled (digest : bytes) (sys : system) : Prop :=
  get_str (B "imageDigest") (s_status sys) = Some digest /\
  forall s d, s_computed sys = Some s -> image_digest s = Some d -> d = digest.
Definition publish `{MergePatch} digest p user folder env (sys : system) : system :=
  mkSystem (s_desired sys) (merge_patch (status_after_build digest p user folder env) (s_status sys))
    (s_pod sys) (s_job sys) (s_computed sys) (s_published sys ++ [digest]).

Lemma settled_step `{MergePatch} name digest sys sys' :
  without_publication name sys sys' -> settled digest sys -> settled digest sys'.
Proof.
  intros [Hs Hpub] [Hi Hc]. destruct Hs as [sys d|sys digest' p user folder env|sys j|sys p _|sys a Hn|sys]; try by split.
  - cbn in Hpub. apply (f_equal length) in Hpub. rewrite length_app in Hpub. cbn in Hpub. lia.
  - destruct (reconcile_apply_stored name a sys) as (E1 & _ & _ & E3). unfold settled. rewrite E1, E3. split; [done|].
    intros s d [= <-]. rewrite apply_image. cbn [read_workshop w_status].
    destruct (status_of_image (s_status sys)) as [-> | ->]; [done|]. rewrite Hi. by intros [= <-].
  - unfold reconcile_write. destruct (s_computed sys) as [s|] eqn:E; [|unfold settled; by rewrite E].
    split; cbn; [|done]. rewrite update_image. destruct (image_digest s) as [d|] eqn:Ed; [|done]. by rewrite (Hc s d eq_refl Ed).
Qed.

(** C25: the digests of built images.  However reconciliations, with the stale reads their
    writes carry, interleave with image-builder's publications, the user's changes and the
    cluster's, once image-builder has published a digest the stored status holds one it
    published, and none before; and a digest that is published when no reconciliation under
    way has read an earlier one is the stored one until the next publication.  (A
    reconciliation that has read an earlier one writes it back over: [publication_lost].) *)
Theorem image_digest_kept `{MergePatch} name sys :
  rtc (system_step name) new_workshop sys ->
  match s_published sys with
  | [] => get_str (B "imageDigest") (s_status sys) = None
  | _ => exists d, get_str (B "imageDigest") (s_status sys) = Some d /\ d ∈ s_published sys
  end /\
  forall digest p user folder env sys',
    (forall s d, s_computed sys = Some s -> image_digest s = Some d -> d = digest) ->
    rtc (without_publication name) (publish digest p user folder env sys) sys' ->
    get_str (B "imageDigest") (s_status sys') = Some digest.
Proof.
  intros [Ho Hp _]%reachable_digests. split.
  - destruct (s_published sys) as [|x l].
    + destruct (get_str _ _) as [d|]; [|done]. by destruct (not_elem_of_nil d (Ho d eq_refl)).
    + destruct (Hp ltac:(done)) as [d Hd]. exists d. split; [done|by apply Ho].
  - intros digest p user folder env sys' Hc Hr.
    assert (Hs : settled digest (publish digest p user folder env sys)) by (split; [apply build_image|done]).
    revert Hs. generalize (publish digest p user folder env sys) Hr. clear. induction 1 as [|a b c Hab _ IH]; [by intros [? _]|].
    intros Ha. by eapply IH, settled_step.
Qed.

Definition quiet : answers :=
  mkAnswers false NoReply None (B "h1") (mkProbes (fun _ => None) false).

(** A reconciliation read the Workshop before the build ended, and writes after. *)
Lemma image_digest_kept_witness :
  let sys0 := reconcile_apply (B "w") quiet new_workshop in
  let sys := reconcile_write (publish (B "sha256:1") LEGACY None None [] sys0) in
  rtc (system_step (B "w")) new_workshop sys0 /\ get_str (B "imageDigest") (s_status sys) = Some (B "sha256:1").
Proof.
  intros sys0 sys. assert (Hr : rtc (system_step (B "w")) new_workshop sys0) by (apply rtc_once; exact (step_apply (B "w") new_workshop quiet eq_refl)).
  split; [exact Hr|].
  apply (proj2 (image_digest_kept (B "w") sys0 Hr) (B "sha256:1") LEGACY None None [] sys).
  - intros s d Hs Hd. vm_compute in Hs. apply (inj Some) in Hs. rewrite <- Hs in Hd. discriminate Hd.
  - apply rtc_once. split; [apply step_write|reflexivity].
Defined.

(** Two publications around a reconciliation that read the first: its write brings the first
    back, and the second is stored nowhere. *)
Lemma publication_lost :
  let sys1 := publish (B "sha256:1") LEGACY None None [] (reconcile (B "w") quiet new_workshop) in
  let sys := reconcile_write (publish (B "sha256:2") LEGACY None None [] (reconcile_apply (B "w") quiet sys1)) in
  rtc (system_step (B "w")) new_workshop sys /\ get_str (B "imageDigest") (s_status sys) = Some (B "sha256:1").
Proof.
  intros sys1 sys. split; [|vm_compute; reflexivity].
  set (x0 := reconcile_apply (B "w") quiet new_workshop). set (x1 := reconcile_write x0). set (x2 := reconcile_apply (B "w") quiet sys1).
  apply (rtc_l _ _ x0); [exact (step_apply (B "w") new_workshop quiet eq_refl)|].
  apply (rtc_l _ _ x1); [exact (step_write (B "w") x0)|].
  apply (rtc_l _ _ sys1); [exact (step_builder (B "w") x1 (B "sha256:1") LEGACY None None [])|].
  apply (rtc_l _ _ x2); [refine (step_apply (B "w") sys1 quiet _); vm_compute; reflexivity|].
  apply (rtc_l _ _ (publish (B "sha256:2") LEGACY None None [] x2)); [exact (step_builder (B "w") x2 (B "sha256:2") LEGACY None None [])|].
  apply rtc_once. exact (step_write (B "w") (publish (B "sha256:2") LEGACY None None [] x2)).
Qed.

(** C30: what a reconciliation may do to the microVM's pod, and what its phases mean.
    While the Workshop is wanted running, a pod that exists is left as it is, and
    one is created only when there is none and the image is known; while it is
    wanted suspended none is created and the one there is deleted.  [Running] is said only
    of a pod that runs, and announced first only when that pod has an address and every door
    of the guest, [sshd] and the terminal where there is one, has answered from inside the
    guest; once announced it is said again, without asking the guest, as long as the pod
    runs.  [Suspended] is said only when there is no pod. *)
Theorem reconcile_pod_and_phase name a sys :
  let sys' := reconcile_apply name a sys in
  s_pod sys' = reconciled_pod (read_workshop name sys) (a_hash a) (s_pod sys) /\
  forall s, s_computed sys' = Some s ->
    (phase s = Running ->
       s_desired sys = DesiredRunning /\
       exists p, s_pod sys' = Some p /\ s_pod sys = Some p /\ pod_phase p = Some (B "Running") /\
         (phase <$> status_of (s_status sys) = Some Running \/
          is_Some (pod_ip p) /\ guest_answered (read_workshop name sys) (a_probes a))) /\
    (phase s = Suspended -> s_desired sys = DesiredSuspended /\ s_pod sys = None /\ s_pod sys' = None).
Proof.
  intros sys'. pose proof (reconcile_apply_pod name a sys) as Hpod. fold sys' in Hpod.
  split; [done|]. intros s. unfold sys'.
  destruct (reconcile_apply_stored name a sys) as (_ & _ & _ & ->). intros [= <-]. fold sys'. split.
  - intros [Hd (p & Hp & Hph & Hr)]%apply_running. cbn in Hd, Hr. split; [done|]. exists p.
    split_and!; [|done..]. rewrite Hpod. unfold reconciled_pod. cbn. by rewrite Hd, Hp.
  - intros [Hd Hp]%apply_suspended. cbn in Hd. split_and!; [done..|].
    rewrite Hpod. unfold reconciled_pod. cbn. by rewrite Hd, Hp.
Qed.

(** A suspended Workshop without a pod. *)
Lemma reconcile_suspended `{MergePatch} name a sys d :
  (status_of (s_status sys) ≫= image_digest) = Some d -> s_desired sys = DesiredSuspended ->
  s_pod sys = None ->
  s_pod (reconcile name a sys) = None /\
  exists st, status_of (s_status (reconcile name a sys)) = Some st /\ phase st = Suspended /\
    pod_name st = None /\ image_digest st = Some d.
Proof.
  intros Hd Hs Hp. destruct (reconcile_eq name a sys) as (_ & _ & ->).
  split; [unfold reconciled_pod; cbn; by rewrite Hs, Hp|].
  destruct (reconcile_status name a sys d Hd) as (st & Hst & Hph & Hn & Hi). exists st.
  split_and!; [done|rewrite Hph|rewrite Hn|done];
    unfold apply; cbn [desired_state read_workshop]; rewrite decide_True by done; by rewrite Hp.
Qed.

(** A Workshop with an image, wanted running. *)
Lemma reconcile_running `{MergePatch} name a sys st d :
  status_of (s_status sys) = Some st -> image_digest st = Some d -> s_desired sys = DesiredRunning ->
  let resuming := match phase st with Suspended | Suspending => true | _ => false end in
  let pod := default (mkPodObject false None None (Some (a_hash a))) (s_pod sys) in
  let s := (ensure_parent_pod (read_workshop name sys) d resuming (a_hash a) (s_pod sys) (a_probes a)).2 in
  s_pod (reconcile name a sys) = Some pod /\
  exists st', status_of (s_status (reconcile name a sys)) = Some st' /\ phase st' = phase s /\
    pod_name st' = Some (parent_pod_name name) /\ image_digest st' = Some d.
Proof.
  intros Hst Hi Hd resuming pod s.
  assert (Hread : (status_of (s_status sys) ≫= image_digest) = Some d) by (by rewrite Hst).
  destruct (reconcile_eq name a sys) as (_ & _ & ->). split.
  - unfold reconciled_pod, pod. cbn. rewrite Hd, Hread. by destruct (s_pod sys).
  - destruct (reconcile_status name a sys d Hread) as (st' & Hst' & Hph & Hn & Hi').
    assert (Happly : (apply (read_workshop name sys) (s_pod sys) (s_job sys) a).2 = s).
    { unfold apply. cbn [desired_state read_workshop w_status]. rewrite decide_False by (by rewrite Hd).
      rewrite Hread, Hst. done. }
    rewrite Happly in Hph, Hn. by exists st'.
Qed.

Lemma parent_pod_ready w d resuming hash p ip pr :
  pod_phase p = Some (B "Running") -> pod_ip p = Some ip -> doors_answer (workshop_ports w) pr = true ->
  phase (ensure_parent_pod w d resuming hash (Some p) pr).2 = Running.
Proof.
  intros Hrun Hip Hdoors. unfold ensure_parent_pod. cbn [default from_option id snd phase carry_forward_status].
  by rewrite Hip, Hdoors, bool_decide_true, orb_true_r by done.
Qed.

Lemma parent_pod_created w d resuming hash pr :
  phase (ensure_parent_pod w d resuming hash None pr).2 = if resuming then Resuming else Provisioning.
Proof. unfold ensure_parent_pod. cbn. by rewrite bool_decide_false. Qed.

Lemma resume_running `{MergePatch} name s3 st3 d a4 p ip :
  status_of (s_status s3) = Some st3 -> image_digest st3 = Some d -> s_desired s3 = DesiredRunning ->
  pod_phase p = Some (B "Running") -> pod_ip p = Some ip ->
  doors_answer (workshop_ports (read_workshop name s3)) (a_probes a4) = true ->
  let s4 := reconcile name a4 (with_pod (Some p) s3) in
  s_pod s4 = Some p /\
  exists st, status_of (s_status s4) = Some st /\ phase st = Running /\
    pod_name st = Some (parent_pod_name name) /\ image_digest st = Some d.
Proof.
  intros Hst3 Hi3 Hd3 Hrun Hip Hdoors s4.
  destruct (reconcile_running name a4 (with_pod (Some p) s3) st3 d)
    as (Hp4 & st4 & Hst4 & Hph4 & Hn4 & Hi4); [done..|].
  split; [done|]. exists st4. split_and!; [done| |done..]. rewrite Hph4.
  by apply (parent_pod_ready _ _ _ _ p ip).
Qed.

Lemma resume_created `{MergePatch} name s2 st2 d a3 :
  status_of (s_status s2) = Some st2 -> image_digest st2 = Some d -> phase st2 = Suspended ->
  s_pod s2 = None ->
  let s3 := reconcile name a3 (with_desired DesiredRunning s2) in
  s_desired s3 = DesiredRunning /\
  s_pod s3 = Some (mkPodObject false None None (Some (a_hash a3))) /\
  exists st, status_of (s_status s3) = Some st /\ phase st = Resuming /\ image_digest st = Some d.
Proof.
  intros Hst2 Hi2 Hph2 Hp2 s3.
  destruct (reconcile_running name a3 (with_desired DesiredRunning s2) st2 d)
    as (Hp3 & st3 & Hst3 & Hph3 & _ & Hi3); [done..|]. cbn [with_desired s_pod] in Hp3, Hph3.
  rewrite Hp2 in Hp3, Hph3. rewrite Hph2 in Hph3.
  destruct (reconcile_eq name a3 (with_desired DesiredRunning s2)) as (He & _).
  split_and!; [exact He|done|]. exists st3. split_and!; [done| |done]. by rewrite Hph3, parent_pod_created.
Qed.

(** C31: suspension and resumption end.  A Workshop with an image that is wanted suspended,
    whatever state it is in, has its pod marked for deletion by the next reconciliation, so that the kubelet
    ends it, and by the one after that is [Suspended] with no pod; wanted running again, it
    gets a pod made for it, the one of the template of the day, and is [Resuming]; once that
    pod runs and the guest's doors answer, it is [Running], with its image, and its pod
    untouched. *)
Theorem suspend_resume_cycle `{MergePatch} name sys d a1 a2 a3 a4 ip :
  (status_of (s_status sys) ≫= image_digest) = Some d ->
  s_desired sys = DesiredSuspended ->
  let s1 := kubelet_ends (reconcile name a1 sys) in
  let s2 := reconcile name a2 s1 in
  let s3 := reconcile name a3 (with_desired DesiredRunning s2) in
  let s4 := reconcile name a4 (kubelet_runs ip s3) in
  doors_answer (workshop_ports (read_workshop name s3)) (a_probes a4) = true ->
  (s_pod s2 = None /\
   exists st, status_of (s_status s2) = Some st /\ phase st = Suspended /\ pod_name st = None) /\
  (s_pod s3 = Some (mkPodObject false None None (Some (a_hash a3))) /\
   exists st, status_of (s_status s3) = Some st /\ phase st = Resuming) /\
  (s_pod s4 = Some (mkPodObject false (Some (B "Running")) (Some ip) (Some (a_hash a3))) /\
   exists st, status_of (s_status s4) = Some st /\ phase st = Running /\
     pod_name st = Some (parent_pod_name name) /\ image_digest st = Some d).
Proof.
  intros Hd Hs s1 s2 s3 s4 Hdoors.
  destruct (reconcile_status name a1 sys d Hd) as (st1 & Hst1 & _ & _ & Hi1).
  destruct (reconcile_eq name a1 sys) as (He & _ & Hpod).
  destruct (reconcile_suspended name a2 s1 d) as (Hp2 & st2 & Hst2 & Hph2 & Hn2 & Hi2).
  { cbn. by rewrite Hst1. }
  { cbn. by rewrite He. }
  { unfold s1, kubelet_ends. cbn [with_pod s_pod]. rewrite Hpod. unfold reconciled_pod. cbn [read_workshop desired_state].
    rewrite Hs. by destruct (s_pod sys). }
  destruct (resume_created name s2 st2 d a3 Hst2 Hi2 Hph2 Hp2) as (Hd3 & Hp3 & st3 & Hst3 & Hph3 & Hi3).
  split; [exact (conj Hp2 (ex_intro _ st2 (conj Hst2 (conj Hph2 Hn2))))|].
  split; [exact (conj Hp3 (ex_intro _ st3 (conj Hst3 Hph3)))|].
  unfold s4, kubelet_runs. fold s3 in Hp3. rewrite Hp3. cbn [fmap option_fmap option_map deletion_timestamp template_hash].
  exact (resume_running name s3 st3 d a4 (mkPodObject false (Some (B "Running")) (Some ip) (Some (a_hash a3))) ip Hst3 Hi3 Hd3 eq_refl eq_refl Hdoors).
Qed.

Definition ready : answers :=
  mkAnswers false (DigestReply (Some (B "sha256:s"))) None (B "h1")
    (mkProbes (fun port => if port =? 61022 then Some (true, [WsBinary (0 :: B "SSH-2.0")])
                           else Some (true, [WsBinary (0 :: B "HT"); WsOther; WsBinary (0 :: B "TP/1.1")])) false).
Definition built_workshop (d : WorkshopDesiredState) (p : option Pod) : system :=
  mkSystem d
    (update_status (mkStatus Running (Some (B "w-parent")) (Some (B "sha256:1")) None None
                      (Some (mkPorts 61022 (Some 61081) None)) None []) JNull)
    p (Some (mkJob [(B "Complete", B "True")] (Some 1))) None [B "sha256:1"].
Definition running_pod (hash : string) : Pod :=
  mkPodObject false (Some (B "Running")) (Some (B "10.0.0.7")) (Some (B hash)).

Lemma suspend_resume_cycle_witness :
  let sys := built_workshop DesiredSuspended (Some (running_pod "h0")) in
  let s2 := reconcile (B "w") quiet (kubelet_ends (reconcile (B "w") ready sys)) in
  let s3 := reconcile (B "w") ready (with_desired DesiredRunning s2) in
  let s4 := reconcile (B "w") ready (kubelet_runs (B "10.0.0.7") s3) in
  (exists st, status_of (s_status s2) = Some st /\ phase st = Suspended) /\
  (exists st, status_of (s_status s4) = Some st /\ phase st = Running).
Proof.
  intros sys s2 s3 s4.
  destruct (suspend_resume_cycle (B "w") sys (B "sha256:1") ready quiet ready ready (B "10.0.0.7")) as ((_ & st2 & Hs2 & Hp2 & _) & _ & _ & st4 & Hs4 & Hp4 & _);
    [vm_compute; reflexivity..|].
  split; [exact (ex_intro _ st2 (conj Hs2 Hp2))|exact (ex_intro _ st4 (conj Hs4 Hp4))].
Defined.

(** ** What a merge patch cannot erase *)

(** [ensure_suspended] drops the digest of the previous suspension when this one took
    no snapshot, but the serialised status then leaves the field out, and the merge
    keeps what was stored. *)
Lemma snapshot_digest_survives `{MergePatch} s stored d :
  snapshot_digest s = None -> get_str (B "snapshotDigest") stored = Some d ->
  get_str (B "snapshotDigest") (update_status s stored) = Some d.
Proof. intros Hs Hd. by rewrite update_snapshot, Hs. Qed.

(** Likewise the upgrade state: once [NeedsRestartForUpgrade] is stored, a pod created
    with the current template does not clear it. *)
Lemma upgrade_state_survives `{MergePatch} s stored v :
  upgrade_state s = None -> get_str (B "upgradeState") stored = Some v ->
  get_str (B "upgradeState") (update_status s stored) = Some v.
Proof.
  intros Hs Hv. unfold get_str in *. rewrite update_field, field_upgrade, Hs. cbn [fmap option_fmap option_map merged_field].
  exact Hv.
Qed.

(** And conditions: an empty map patches nothing, so that the reason of a failed build
    or [SecurityLockdown] stays for good. *)
Lemma condition_survives `{MergePatch} s stored k v :
  conditions s = [] -> get_str k (default JNull (jget (B "conditions") stored)) = Some v ->
  get_str k (default JNull (jget (B "conditions") (update_status s stored))) = Some v.
Proof.
  intros Hs Hv. rewrite update_field.
  assert (Hf : jget (B "conditions") (status_json s) = Some (JObj [])).
  { destruct s as [? ? [?|] [?|] [[]|] [?|] [?|] ?]; cbn in Hs; subst; vm_compute; reflexivity. }
  rewrite Hf. cbn [merged_field default from_option id]. unfold get_str in *. rewrite merge_object by constructor.
  exact Hv.
Qed.

(** A suspension that takes no snapshot, over one that did; and a resumption after an
    upgrade, whose new pod has the current template. *)
Lemma stale_status_example :
  let sys := built_workshop DesiredSuspended (Some (running_pod "h0")) in
  let s1 := reconcile (B "w") ready sys in
  let s2 := reconcile (B "w") quiet (with_pod (Some (running_pod "h0")) s1) in
  get_str (B "snapshotDigest") (s_status s1) = Some (B "sha256:s") /\
  snapshot_digest (apply (read_workshop (B "w") (with_pod (Some (running_pod "h0")) s1))
                     (Some (running_pod "h0")) None quiet).2 = None /\
  get_str (B "snapshotDigest") (s_status s2) = Some (B "sha256:s").
Proof. split; [vm_compute; reflexivity|]. split; vm_compute; reflexivity. Qed.

Lemma stale_upgrade_example :
  let sys := reconcile (B "w") ready (built_workshop DesiredRunning (Some (running_pod "h0"))) in
  let new := reconcile (B "w") ready (with_pod None sys) in
  get_str (B "upgradeState") (s_status sys) = Some (B "NeedsRestartForUpgrade") /\
  (template_hash <$> s_pod new) = Some (Some (a_hash ready)) /\
  get_str (B "upgradeState") (s_status new) = Some (B "NeedsRestartForUpgrade").
Proof. split; [vm_compute; reflexivity|]. split; vm_compute; reflexivity. Qed.

(** [Resuming] is announced by the first reconciliation after a suspension only: the
    next one, while the microVM is still being restored, says [Provisioning]. *)
Lemma resuming_then_provisioning :
  let sys := reconcile (B "w") quiet (with_pod None (built_workshop DesiredSuspended None)) in
  let s1 := reconcile (B "w") quiet (with_desired DesiredRunning sys) in
  let s2 := reconcile (B "w") quiet s1 in
  get_str (B "phase") (s_status s1) = Some (B "Resuming") /\
  get_str (B "phase") (s_status s2) = Some (B "Provisioning").
Proof. split; vm_compute; reflexivity. Qed.
