(* ===== verification/PodSpec.v ===== *)
(** * The pod the controller builds

    What [ensure_parent_pod] of [crates/controller/src/reconcile.rs] hands to the
    programs of a Workshop's pod: the environment of net-proxy and mcp-gateway, the
    egress file, the Services and the NetworkPolicy of a campaign.  The theorems
    compose it with what those programs read back ([Internal], [Ingress], [NetAdmin],
    [Allowlist]): the pod enforces the Workshop's specification.  The cluster's
    Services are an argument. *)

From S2P Require Import Prelude RustStr Allowlist Internal Ingress Upstream EgressProxy NetAdmin McpGateway.
From S2P Require Import SquadToken Json.

(** ** The specification *)

(** The fields of [struct WorkshopSpec] the pod depends on. *)
Record WorkshopSpec := mkSpec {
  ws_name : bytes;
  egress_allowlist : list bytes;
  tools : list bytes;
  ws_simulators : list SimulatorSpec;
  exported : list (bytes * Z);
  allowed_internal_targets : list bytes;
  campaign_id : option bytes;
  owner_group : bytes }.

(** What the controller's configuration and the cluster contribute: OpenBao's address
    for pods, LiteLLM's, whether the addresses of LiteLLM and of the Git forge were
    resolved, and the secret squad keys are derived from. *)
Record PodCtx := mkCtx {
  openbao_pod_addr : option bytes;
  llm_proxy_pod_addr : option bytes;
  llm_host_alias : bool;
  git_host_alias : bool;
  squad_token_signing_key : option bytes }.

(** A namespace's Services by name: the [clusterIP] of the one there is. *)
Abbreviation services := (bytes -> option (option bytes)).

Definition NET_PROXY_PORT : Z := 3128.
Definition NET_PROXY_TRANSPARENT_HTTP_PORT : Z := 3180.
Definition NET_PROXY_TRANSPARENT_TLS_PORT : Z := 3181.
Definition IDENTITY_PROXY_PORT : Z := 3129.
Definition MCP_GATEWAY_PORT : Z := 3130.
Definition NET_PROXY_ADMIN_PORT : Z := 9001.
Definition SIMULATOR_PORT : Z := 4566.
Definition POD_VM_CONTROL_PORT : Z := 8081.

(** [fn simulator_port]. *)
Definition simulator_port (t : SimulatorType) : Z :=
  match t with Postgres => 5432 | Localstack => 4566 | Wiremock => 8080 end.

Definition loopback (port : Z) : bytes := B "127.0.0.1:" ++ dec port.
Definition anywhere (port : Z) : bytes := B "0.0.0.0:" ++ dec port.

(** ** Inter-Workshop targets *)

(** [str::strip_suffix]. *)
Definition strip_suffix (q s : bytes) : option bytes :=
  (fun r => rev r) <$> strip_prefix (rev q) (rev s).

(** One round of [resolve_allowed_internal_targets]. *)
Definition resolve_target (svc : services) (target : bytes) : option bytes :=
  '(alias, port) ← rsplit_once 58 target;
  rest ← strip_suffix (B ".atelier.internal") alias;
  '(service_name, target_workshop) ← split_once 46 rest;
  cluster_ip ← svc (target_workshop ++ B "-" ++ service_name);
  ip ← cluster_ip;
  if beq ip (B "None") then None else Some (alias ++ B "=" ++ ip ++ B ":" ++ port).
Definition resolve_allowed_internal_targets (svc : services) (targets : list bytes) : bytes :=
  join [44] (omap (resolve_target svc) targets).

(** The Service of [ensure_exported_service]: name, selected Workshop and port. *)
Definition exported_service_object (workshop_name : bytes) (e : bytes * Z) : bytes * bytes * Z :=
  (workshop_name ++ B "-" ++ e.1, workshop_name, e.2).

(** ** Environments *)

Definition exported_services_env (spec : WorkshopSpec) : bytes :=
  join [44] ((fun e => e.1 ++ B "=" ++ dec e.2) <$> exported spec).
Definition simulators_env (spec : WorkshopSpec) : bytes :=
  join [44] ((fun s => sim_name s ++ B "=" ++ loopback (simulator_port (sim_type s))) <$> ws_simulators spec).

Definition when (b : bool) (name : string) (v : bytes) : list (string * bytes) :=
  if b then [(name, v)] else [].
Definition maybe (name : string) (o : option bytes) : list (string * bytes) :=
  match o with Some v => [(name, v)] | None => [] end.

(** The [env] of the container net-proxy; [key] is the squad key. *)
Definition net_proxy_env (spec : WorkshopSpec) (ctx : PodCtx) (svc : services) (key : option bytes)
    : list (string * bytes) :=
  let targets := resolve_allowed_internal_targets svc (allowed_internal_targets spec) in
  [("ATELIER_EGRESS_ALLOWLIST"%string, join [44] (egress_allowlist spec));
   ("ATELIER_NET_PROXY_LISTEN_ADDR"%string, anywhere NET_PROXY_PORT);
   ("ATELIER_NET_PROXY_TRANSPARENT_HTTP_ADDR"%string, anywhere NET_PROXY_TRANSPARENT_HTTP_PORT);
   ("ATELIER_NET_PROXY_TRANSPARENT_TLS_ADDR"%string, anywhere NET_PROXY_TRANSPARENT_TLS_PORT);
   ("ATELIER_VM_ADDR"%string, B "169.254.0.2");
   ("ATELIER_VM_CONTROL_ADDR"%string, loopback POD_VM_CONTROL_PORT);
   ("ATELIER_IDENTITY_PROXY_ADDR"%string, loopback IDENTITY_PROXY_PORT);
   ("ATELIER_MCP_GATEWAY_ADDR"%string, loopback MCP_GATEWAY_PORT);
   ("ATELIER_WORKSHOP_NAME"%string, ws_name spec)] ++
  when (bool_decide (B "enable_simulator" ∈ tools spec)) "ATELIER_SIMULATOR_ADDR" (loopback SIMULATOR_PORT) ++
  when (negb (bool_decide (length (ws_simulators spec) = 0%nat))) "ATELIER_SIMULATORS" (simulators_env spec) ++
  maybe "ATELIER_LLM_PROXY_ADDR"
    (if llm_host_alias ctx then Some (loopback IDENTITY_PROXY_PORT) else llm_proxy_pod_addr ctx) ++
  when (git_host_alias ctx) "ATELIER_GIT_ALIAS_ADDR" (loopback IDENTITY_PROXY_PORT) ++
  maybe "OPENBAO_ADDR" (openbao_pod_addr ctx) ++
  when (negb (bool_decide (exported spec = []))) "ATELIER_EXPORTED_SERVICES" (exported_services_env spec) ++
  when (negb (is_empty targets)) "ATELIER_ALLOWED_INTERNAL_TARGETS" targets ++
  [("ATELIER_EGRESS_ALLOWLIST_FILE"%string, B "/etc/atelier/egress/allowlist")] ++
  maybe "ATELIER_SQUAD_TOKEN_KEY" key.

(** The squad key of the pod: [campaign_id.zip(signing_key).map(derive_campaign_key)]. *)
Definition pod_squad_key (mac_hex : bytes -> bytes -> bytes) (spec : WorkshopSpec) (ctx : PodCtx)
    : option bytes :=
  c ← campaign_id spec; k ← squad_token_signing_key ctx; Some (derive_campaign_key mac_hex k c).

(** [std::env::var(_).ok()] in a container with these variables. *)
Definition env_of (l : list (string * bytes)) (name : string) : option bytes :=
  snd <$> find_first (fun kv => String.eqb kv.1 name) l.

(** The variable of mcp-gateway that names its tools, and the content of the egress
    ConfigMap ([ensure_egress_config_map]). *)
Definition tools_env (spec : WorkshopSpec) : bytes := join [44] (tools spec).
Definition egress_config_map_data (spec : WorkshopSpec) : bytes := join [10] (egress_allowlist spec).

(** ** The campaign's NetworkPolicy *)

Abbreviation labels := (list (bytes * bytes)).

(** The labels of the parent pod. *)
Definition pod_labels (spec : WorkshopSpec) : labels :=
  [(B "atelier.dev/workshop", ws_name spec)] ++
  match campaign_id spec with
  | Some c => [(B "atelier.dev/campaign-id", c); (B "atelier.dev/owner-group", owner_group spec)]
  | None => []
  end.

(** [fn campaign_network_policy]: the selector of the pods it is for, and the one of the
    peers whose connections it lets in. *)
Definition campaign_network_policy (spec : WorkshopSpec) : option (labels * labels) :=
  c ← campaign_id spec;
  Some ([(B "atelier.dev/workshop", ws_name spec)],
        [(B "atelier.dev/campaign-id", c); (B "atelier.dev/owner-group", owner_group spec)]).

(** A [matchLabels] selector. *)
Definition selects (sel : labels) (l : labels) : bool :=
  forallb (fun kv => bool_decide (assoc kv.1 l = Some kv.2)) sel.

(** ** Lists in variables and files *)

(** Printable ASCII, with no space. *)
Definition printable (x : bytes) : Prop := Forall (fun b => 33 <= b < 127) x.

Lemma white_space_bytes w b : w ∈ white_space -> b ∈ w -> ~ 33 <= b < 127.
Proof.
  assert (Hw : Forall (fun w => Forall (fun b => ~ 33 <= b < 127) w) white_space).
  { apply (bool_decide_unpack _). vm_compute. exact I. }
  rewrite Forall_forall in Hw. intros H Hb. specialize (Hw w H). rewrite Forall_forall in Hw. auto.
Qed.

Lemma printable_starts pats x :
  (forall q, q ∈ pats -> q <> [] /\ forall b, b ∈ q -> ~ 33 <= b < 127) -> printable x ->
  strip_any pats x = None.
Proof.
  intros Hp Hx. apply strip_any_None. intros q r Hq ->. destruct (Hp q Hq) as [Hne Hb].
  destruct q as [|b q]; [done|]. apply Forall_cons in Hx as [Hx _]. apply (Hb b); [set_solver|done].
Qed.

Lemma printable_trim x : printable x -> trim x = x.
Proof.
  intros Hx. assert (Hne : Forall (fun w : bytes => w <> []) white_space) by (by repeat constructor).
  rewrite Forall_forall in Hne.
  assert (Hs : trim_start x = x).
  { unfold trim_start. apply strip_all_none, printable_starts; [|done].
    intros q Hq. split; [auto|]. intros b. by apply white_space_bytes. }
  unfold trim. rewrite Hs. apply trim_end_id. unfold trimmed. apply printable_starts.
  - intros q (w & -> & Hw)%list_elem_of_fmap. split.
    + intros Hr. apply (Hne w Hw). apply (f_equal (fun l => rev l)) in Hr. by rewrite rev_involutive in Hr.
    + intros b Hb. apply (white_space_bytes w b Hw). rewrite list_elem_of_In in *. by apply in_rev.
  - unfold printable in *. by apply Forall_rev.
Qed.

(** An entry of a list kept in a variable or in a file. *)
Definition entry_ok (x : bytes) : Prop := printable x /\ (44 ∉ x) /\ x <> [].

Lemma printable_no_newline x : printable x -> 10 ∉ x.
Proof. intros Hx Hin. unfold printable in Hx. rewrite Forall_forall in Hx. specialize (Hx 10 Hin). lia. Qed.

Lemma entries_kept l : Forall entry_ok l -> filter (fun s => is_empty s = false) (trim <$> l) = l.
Proof.
  induction 1 as [|x l (Hp & _ & Hne) _ IH]; [done|]. cbn [fmap list_fmap].
  rewrite printable_trim by done. rewrite filter_cons, decide_True by (by destruct x).
  by rewrite IH.
Qed.

Lemma csv_join l : Forall entry_ok l -> csv (join [44] l) = l.
Proof.
  intros Hl. unfold csv. destruct l as [|x l]; [done|]. rewrite split_join; [by apply entries_kept|done|].
  intros y Hy. rewrite Forall_forall in Hl. by apply Hl.
Qed.

Lemma strip_cr_printable x : printable x -> strip_cr x = x.
Proof.
  intros Hx. unfold strip_cr. destruct (rev x) as [|b r] eqn:E; [done|].
  assert (Hb : 33 <= b < 127).
  { unfold printable in Hx. rewrite Forall_forall in Hx. apply Hx. apply list_elem_of_In, in_rev.
    rewrite E. by left. }
  destruct b as [|b|b]; try lia. do 4 (destruct b as [b|b|]; try done; try lia).
Qed.

Lemma parse_file_join l : Forall entry_ok l -> parse_file (join [10] l) = l.
Proof.
  intros Hl. unfold parse_file, lines. destruct l as [|x l]; [done|].
  rewrite split_join; [|done|].
  - enough (Hlines : forall l, Forall entry_ok l -> lines_of l = l) by (rewrite Hlines by done; by apply entries_kept).
    clear. intros l. induction 1 as [|x l (Hp & _ & Hne) Hl IH]; [done|]. cbn [lines_of].
    destruct l as [|y l]; [by destruct x|]. by rewrite IH, strip_cr_printable.
  - intros y Hy. rewrite Forall_forall in Hl. apply printable_no_newline. by apply Hl.
Qed.

(** ** Environments *)

Lemma env_of_app a b n :
  env_of (a ++ b) n = match env_of a n with Some v => Some v | None => env_of b n end.
Proof.
  unfold env_of. induction a as [|[k v] a IH]; [done|]. cbn. by destruct (String.eqb k n).
Qed.

Lemma env_of_when c k v n : env_of (when c k v) n = if c && String.eqb k n then Some v else None.
Proof. destruct c; cbn; [|done]. unfold env_of. cbn. by destruct (String.eqb k n). Qed.

Lemma env_of_maybe k o n : env_of (maybe k o) n = if String.eqb k n then o else None.
Proof. destruct o; unfold env_of; cbn; by destruct (String.eqb k n). Qed.

(** Looks a variable up in [net_proxy_env]. *)
Ltac env_lookup :=
  unfold net_proxy_env; rewrite !env_of_app, ?env_of_when, ?env_of_maybe;
  cbn [env_of find_first String.eqb Ascii.eqb Bool.eqb fst snd fmap option_fmap option_map andb];
  rewrite ?andb_false_r, ?andb_true_r.

(** ** Entries *)

Lemma printable_app a b : printable (a ++ b) <-> printable a /\ printable b.
Proof. apply Forall_app. Qed.

Lemma printable_dec n : 0 <= n -> printable (dec n).
Proof. intros Hn. apply Forall_forall. intros b Hb. apply dec_digits_all in Hb; [lia|done]. Qed.

(** A name that stands before [=]: a Kubernetes name, for instance. *)
Definition name_ok (x : bytes) : Prop := printable x /\ (44 ∉ x) /\ (61 ∉ x) /\ x <> [].
Definition port_ok (p : Z) : Prop := 0 <= p <= U16_MAX.

Lemma exported_entry_ok name port : name_ok name -> port_ok port -> entry_ok (name ++ B "=" ++ dec port).
Proof.
  intros (Hp & Hc & He & Hne) [Hport _]. split_and!.
  - rewrite !printable_app. split_and!; [done| |by apply printable_dec].
    apply (bool_decide_unpack _). vm_compute. exact I.
  - rewrite !not_elem_of_app. split_and!; [done|by vm_compute; set_solver|]. apply dec_no_sep; lia.
  - by destruct name.
Qed.

Lemma exported_entry_read name port :
  name_ok name -> port_ok port -> exported_service (name ++ B "=" ++ dec port) = Some (name, port).
Proof.
  intros (_ & _ & He & _) Hport. unfold exported_service. change (B "=" ++ dec port) with (61 :: dec port).
  rewrite split_once_app by done. unfold parse_u16. by rewrite parse_dec by (unfold port_ok, U16_MAX, U64_MAX in *; lia).
Qed.

Lemma exported_read l :
  Forall (fun e => name_ok e.1 /\ port_ok e.2) l ->
  omap exported_service (csv (join [44] ((fun e => e.1 ++ B "=" ++ dec e.2) <$> l))) = l.
Proof.
  intros Hl. rewrite csv_join.
  - induction Hl as [|[n p] l [Hn Hp] _ IH]; [done|]. cbn [fmap list_fmap omap list_omap fst snd].
    rewrite exported_entry_read by done. f_equal. exact IH.
  - apply Forall_fmap. eapply Forall_impl; [exact Hl|]. intros e [Hn Hp]. by apply exported_entry_ok.
Qed.

(** What [add_squad_entries] and [add_simulator_entries] make of entries that parse. *)
Definition reads_as (entry alias : bytes) (a : addr) : Prop :=
  exists raw, split_once 61 entry = Some (alias, raw) /\ parse_addr raw = Ok a.

Lemma reads_as_eq entry alias a alias' a' :
  reads_as entry alias a -> reads_as entry alias' a' -> alias = alias' /\ a = a'.
Proof.
  intros (r & H1 & H2) (r' & H1' & H2'). rewrite H1 in H1'. injection H1' as <- <-.
  rewrite H2 in H2'. by injection H2' as <-.
Qed.

(** The value a list of pairs gives a key when the last one wins: [P x a] says
    that [x] gives [a]. *)
Definition last_named {A} (P : A -> addr -> Prop) (l : list A) (o : option addr) : Prop :=
  match o with
  | Some a => exists l1 x l2, l = l1 ++ x :: l2 /\ P x a /\ Forall (fun y => forall b, ~ P y b) l2
  | None => Forall (fun y => forall b, ~ P y b) l
  end.

Lemma last_named_omap {A C} (f : A -> option C) (P : C -> addr -> Prop) (Q : A -> addr -> Prop) l o :
  (forall x, x ∈ l -> match f x with Some e => forall a, P e a <-> Q x a | None => forall a, ~ Q x a end) ->
  last_named P (omap f l) o -> last_named Q l o.
Proof.
  assert (Hnone : forall l, (forall x, x ∈ l ->
            match f x with Some e => forall a, P e a <-> Q x a | None => forall a, ~ Q x a end) ->
          Forall (fun y => forall b, ~ P y b) (omap f l) -> Forall (fun y => forall b, ~ Q y b) l).
  { intros l0 Hl Hf. rewrite Forall_forall in Hf. apply Forall_forall. intros x Hx b HQ. specialize (Hl x Hx).
    destruct (f x) as [e|] eqn:E; [|by apply (Hl b)]. apply (Hf e) with b; [|by apply Hl].
    apply list_elem_of_omap. eauto. }
  intros Hl. destruct o as [a|]; cbn; [|by apply Hnone].
  intros (l1 & e & l2 & Heq & HP & H2). revert l1 Heq. induction l as [|x l IH]; intros l1 Heq.
  { by destruct l1. }
  cbn [omap list_omap] in Heq.
  destruct (f x) as [e'|] eqn:E; [destruct l1 as [|e1 l1]; injection Heq as -> Heq|].
  - exists [], x, l. split_and!; [done|..].
    + specialize (Hl x ltac:(set_solver)). rewrite E in Hl. by apply Hl.
    + apply Hnone; [intros y Hy; apply Hl; set_solver|]. by rewrite Heq.
  - destruct (IH ltac:(intros y Hy; apply Hl; set_solver) l1 Heq) as (k1 & y & k2 & -> & ?).
    by exists (x :: k1), y, k2.
  - destruct (IH ltac:(intros y Hy; apply Hl; set_solver) l1 Heq) as (k1 & y & k2 & -> & ?).
    by exists (x :: k1), y, k2.
Qed.

Lemma last_named_insert {A} (P : A -> bytes -> addr -> Prop) (x : A) (k0 : bytes) (a0 : addr) (l : list A) (m : alias_map)
    (o : option addr) (k : bytes) :
  (forall k a, P x k a <-> k = k0 /\ a = a0) ->
  (exists o', last_named (fun y => P y k) l o' /\
     o = match o' with Some a => Some a | None => <[k0 := a0]> m !! k end) ->
  exists o', last_named (fun y => P y k) (x :: l) o' /\
     o = match o' with Some a => Some a | None => m !! k end.
Proof.
  intros Hx ([a|] & Hn & ->).
  - exists (Some a). split; [|done]. destruct Hn as (l1 & y & l2 & -> & ? & ?). by exists (x :: l1), y, l2.
  - destruct (decide (k = k0)) as [->|Hk].
    + exists (Some a0). rewrite lookup_insert_eq. split; [|done]. exists [], x, l. split_and!; [done|by apply Hx|done].
    + exists None. rewrite lookup_insert_ne by done. split; [|done]. constructor; [|done].
      intros b [Hk' _]%Hx. done.
Qed.

Lemma squad_entries_read l m :
  (forall e, e ∈ l -> exists alias a, reads_as e alias a) ->
  exists m', add_squad_entries l m = Ok m' /\
    forall k, exists o, last_named (fun e a => exists alias, reads_as e alias a /\ k = to_ascii_lowercase alias) l o /\
      m' !! k = match o with Some a => Some a | None => m !! k end.
Proof.
  revert m. induction l as [|e l IH]; intros m Hl; cbn [add_squad_entries].
  { exists m. split; [done|]. intros k. exists None. split; [constructor|done]. }
  destruct (Hl e) as (alias & a & raw & Hs & Ha); [set_solver|]. rewrite Hs. cbn [ok_or mbind res_bind].
  rewrite Ha. cbn [mbind res_bind].
  destruct (IH (<[to_ascii_lowercase alias := a]> m)) as (m' & Hm' & Hk); [set_solver|].
  exists m'. split; [done|]. intros k.
  apply (last_named_insert (fun e k a => exists alias, reads_as e alias a /\ k = to_ascii_lowercase alias)
    e (to_ascii_lowercase alias) a); [|apply Hk].
  intros k' a'. split; [|intros [-> ->]; exists alias; split; [by exists raw|done]].
  intros (al & Hr & ->). destruct (reads_as_eq _ _ _ alias a Hr) as [-> ->]; [by exists raw|done].
Qed.

Lemma simulator_entries_read l m :
  (forall e, e ∈ l -> exists alias a, reads_as e alias a) ->
  exists m', add_simulator_entries l m = Ok m' /\
    forall k, exists o, last_named (fun e a => exists name, reads_as e name a /\
        k = to_ascii_lowercase name ++ SIMULATOR_ALIAS_SUFFIX) l o /\
      m' !! k = match o with Some a => Some a | None => m !! k end.
Proof.
  revert m. induction l as [|e l IH]; intros m Hl; cbn [add_simulator_entries].
  { exists m. split; [done|]. intros k. exists None. split; [constructor|done]. }
  destruct (Hl e) as (alias & a & raw & Hs & Ha); [set_solver|]. rewrite Hs. cbn [ok_or mbind res_bind].
  rewrite Ha. cbn [mbind res_bind].
  destruct (IH (<[to_ascii_lowercase alias ++ SIMULATOR_ALIAS_SUFFIX := a]> m)) as (m' & Hm' & Hk); [set_solver|].
  exists m'. split; [done|]. intros k.
  apply (last_named_insert (fun e k a => exists name, reads_as e name a /\
    k = to_ascii_lowercase name ++ SIMULATOR_ALIAS_SUFFIX) e (to_ascii_lowercase alias ++ SIMULATOR_ALIAS_SUFFIX) a);
    [|apply Hk].
  intros k' a'. split; [|intros [-> ->]; exists alias; split; [by exists raw|done]].
  intros (al & Hr & ->). destruct (reads_as_eq _ _ _ alias a Hr) as [-> ->]; [by exists raw|done].
Qed.

Lemma parse_addr_render host port p :
  58 ∉ port -> parse_u16 port = Some p -> parse_addr (host ++ 58 :: port) = Ok (host, p).
Proof.
  intros Hc Hp. unfold parse_addr. rewrite (proj2 (rsplit_once_Some 58 _ host port)) by done.
  cbn [ok_or mbind res_bind]. by rewrite Hp.
Qed.

(** ** Targets *)

(** [t] is the target [alias:port], of the service and Workshop [alias] names, whose
    Service has the address of [a] (a Service without one shows [None]). *)
Definition names_target (svc : services) (t alias : bytes) (a : addr) : Prop :=
  exists port service workshop, t = alias ++ 58 :: port /\
    alias = service ++ B "." ++ workshop ++ B ".atelier.internal" /\ (46 ∉ service) /\
    svc (workshop ++ B "-" ++ service) = Some (Some a.1) /\ a.1 <> B "None" /\
    58 ∉ port /\ parse_u16 port = Some a.2.

(** A target whose port is one, in printable characters; and a cluster's addresses. *)
Definition target_ok (t : bytes) : Prop :=
  printable t /\ (44 ∉ t) /\ (61 ∉ t) /\
  forall alias port, rsplit_once 58 t = Some (alias, port) -> is_Some (parse_u16 port).
Definition services_ok (svc : services) : Prop :=
  forall n ip, svc n = Some (Some ip) -> printable ip /\ (44 ∉ ip).

Lemma strip_suffix_Some q x r : strip_suffix q x = Some r -> x = r ++ q.
Proof.
  unfold strip_suffix. destruct (strip_prefix (rev q) (rev x)) as [y|] eqn:E; [|done]. intros [= <-].
  apply strip_prefix_Some, (f_equal (fun l => rev l)) in E.
  by rewrite rev_involutive, rev_app_distr, rev_involutive in E.
Qed.

Lemma resolve_target_read svc t e :
  target_ok t -> services_ok svc -> resolve_target svc t = Some e ->
  entry_ok e /\ exists alias a, reads_as e alias a /\ names_target svc t alias a.
Proof.
  intros (Hp & Hc & He & Hport) Hsvc. unfold resolve_target.
  destruct (rsplit_once 58 t) as [[alias port]|] eqn:Er; cbn [mbind option_bind]; [|done].
  destruct (Hport alias port eq_refl) as [p Hpp]. apply rsplit_once_Some in Er as [-> Hcol].
  destruct (strip_suffix _ alias) as [rest|] eqn:Es; cbn [mbind option_bind]; [|done].
  apply strip_suffix_Some in Es.
  destruct (split_once 46 rest) as [[service workshop]|] eqn:Ed; cbn [mbind option_bind]; [|done].
  apply split_once_Some in Ed as [-> Hdot].
  destruct (svc (workshop ++ B "-" ++ service)) as [[ip|]|] eqn:Ev; cbn [mbind option_bind]; [|done..].
  destruct (beq ip (B "None")) eqn:Enone; [done|]. apply beq_false in Enone. intros Heq. apply (inj Some) in Heq. subst e.
  destruct (Hsvc _ _ Ev) as [Hip Hic]. apply printable_app in Hp as [Hpa Hpport].
  rewrite not_elem_of_app in Hc, He. split.
  - split_and!.
    + rewrite !printable_app. apply (printable_app [58] port) in Hpport as [_ Hpport].
      split_and!; [exact Hpa| |exact Hip| |exact Hpport]; apply (bool_decide_unpack _); vm_compute; exact I.
    + rewrite !not_elem_of_app. destruct Hc as [Hc1 Hc2]. apply not_elem_of_cons in Hc2 as [_ Hc2].
      split_and!; [done|vm_compute; set_solver|done|vm_compute; set_solver|done].
    + intros Hn%(f_equal length). rewrite !length_app in Hn. cbn in Hn. lia.
  - exists alias, (ip, p). split.
    + exists (ip ++ 58 :: port). split; [|by apply parse_addr_render].
      change (alias ++ B "=" ++ ip ++ B ":" ++ port) with (alias ++ 61 :: ip ++ 58 :: port).
      apply split_once_app. apply He.
    + exists port, service, workshop. split_and!; [done| |done|done|done|done|done].
      rewrite Es. by rewrite <- app_assoc.
Qed.

Lemma strip_suffix_app q r : strip_suffix q (r ++ q) = Some r.
Proof.
  unfold strip_suffix. rewrite rev_app_distr, strip_prefix_app. cbn [fmap option_fmap option_map].
  by rewrite rev_involutive.
Qed.

(** A target that names a Service with an address is resolved, to one entry. *)
Lemma names_target_resolves svc t alias a :
  names_target svc t alias a ->
  exists port, rsplit_once 58 t = Some (alias, port) /\ parse_u16 port = Some a.2 /\
    resolve_target svc t = Some (alias ++ B "=" ++ a.1 ++ B ":" ++ port).
Proof.
  intros (port & service & workshop & -> & -> & Hd & Hv & Hn & Hc & Hp). exists port.
  assert (Hr : rsplit_once 58 ((service ++ B "." ++ workshop ++ B ".atelier.internal") ++ 58 :: port) =
               Some (service ++ B "." ++ workshop ++ B ".atelier.internal", port)) by by apply rsplit_once_Some.
  split_and!; [done|done|]. unfold resolve_target. rewrite Hr. cbn [mbind option_bind].
  replace (strip_suffix _ (service ++ B "." ++ workshop ++ B ".atelier.internal"))
    with (Some (service ++ B "." ++ workshop)) by (rewrite !app_assoc; symmetry; apply strip_suffix_app).
  cbn [mbind option_bind]. change (B "." ++ workshop) with (46 :: workshop).
  rewrite split_once_app by done. cbn [mbind option_bind]. rewrite Hv. cbn [mbind option_bind].
  destruct (beq a.1 (B "None")) eqn:E; [by apply beq_true in E|done].
Qed.

Lemma names_target_eq svc t alias a alias' a' :
  names_target svc t alias a -> names_target svc t alias' a' -> alias = alias' /\ a = a'.
Proof.
  intros H H'. destruct (names_target_resolves _ _ _ _ H) as (p & Hs & Hp & Hr),
    (names_target_resolves _ _ _ _ H') as (p' & Hs' & Hp' & Hr').
  rewrite Hs in Hs'. injection Hs' as <- <-. split; [done|]. rewrite Hr in Hr'.
  apply (inj Some), (inj (app alias)), (inj (app (B "="))) in Hr'.
  apply app_inv_tail in Hr'. rewrite Hp in Hp'. destruct a, a'; cbn in *; congruence.
Qed.

(** What a target resolves to is what it names. *)
Lemma resolve_target_exact svc t k :
  target_ok t -> services_ok svc ->
  match resolve_target svc t with
  | Some e => forall a, (exists alias, reads_as e alias a /\ k = to_ascii_lowercase alias) <->
                        (exists alias, names_target svc t alias a /\ k = to_ascii_lowercase alias)
  | None => forall a, ~ exists alias, names_target svc t alias a /\ k = to_ascii_lowercase alias
  end.
Proof.
  intros Ht Hs. destruct (resolve_target svc t) as [e|] eqn:E.
  - destruct (resolve_target_read _ _ _ Ht Hs E) as (_ & alias & a & Hr & Hn). intros b. split.
    + intros (al & Hr' & ->). destruct (reads_as_eq _ _ _ _ _ Hr Hr') as [<- <-]. eauto.
    + intros (al & Hn' & ->). destruct (names_target_eq _ _ _ _ _ _ Hn Hn') as [<- <-]. eauto.
  - intros a (alias & Hn & _). destruct (names_target_resolves _ _ _ _ Hn) as (p & _ & _ & Hr). congruence.
Qed.

(** ** Claims *)

(** A specification whose entries are printable, with valid ports. *)
Record spec_ok (spec : WorkshopSpec) (ctx : PodCtx) (svc : services) : Prop := {
  so_egress : Forall entry_ok (egress_allowlist spec);
  so_exported : Forall (fun e => name_ok e.1 /\ port_ok e.2) (exported spec);
  so_simulators : Forall (fun s => name_ok (sim_name s)) (ws_simulators spec);
  so_targets : Forall target_ok (allowed_internal_targets spec);
  so_services : services_ok svc;
  so_llm a : llm_proxy_pod_addr ctx = Some a -> exists x, parse_addr a = Ok x }.

Lemma simulator_entry_read s :
  name_ok (sim_name s) ->
  let e := sim_name s ++ B "=" ++ loopback (simulator_port (sim_type s)) in
  entry_ok e /\ reads_as e (sim_name s) (B "127.0.0.1", simulator_port (sim_type s)).
Proof.
  intros (Hp & Hc & He & Hne) e. split.
  - split_and!.
    + unfold e. rewrite !printable_app. split_and!; [done|..]; [|destruct (sim_type s)];
        apply (bool_decide_unpack _); vm_compute; exact I.
    + unfold e. rewrite !not_elem_of_app. split_and!; [done|..]; [|destruct (sim_type s)];
        apply (bool_decide_unpack _); vm_compute; exact I.
    + unfold e. by destruct (sim_name s).
  - exists (loopback (simulator_port (sim_type s))). split.
    + unfold e. change (B "=" ++ loopback _) with (61 :: loopback (simulator_port (sim_type s))).
      by apply split_once_app.
    + by destruct (sim_type s).
Qed.

Lemma parse_loopback p : port_ok p -> parse_addr (loopback p) = Ok (B "127.0.0.1", p).
Proof.
  intros Hp. change (loopback p) with (B "127.0.0.1" ++ 58 :: dec p). apply parse_addr_render.
  - apply dec_no_sep; unfold port_ok in Hp; lia.
  - unfold parse_u16. by rewrite parse_dec by (unfold port_ok, U16_MAX, U64_MAX in *; lia).
Qed.

Lemma parse_one_route_ok alias o m :
  (forall a, o = Some a -> exists x, parse_addr a = Ok x) -> exists m', parse_one_route alias o m = Ok m'.
Proof.
  intros Ho. unfold parse_one_route, non_blank. destruct o as [a|]; [|eauto].
  destruct (is_empty (trim a)); [eauto|]. destruct (Ho a eq_refl) as [x ->]. cbn. eauto.
Qed.

Lemma parse_routes_ok i g r l t :
  (forall a, i = Some a -> exists x, parse_addr a = Ok x) ->
  (forall a, g = Some a -> exists x, parse_addr a = Ok x) ->
  (forall a, r = Some a -> exists x, parse_addr a = Ok x) ->
  (forall a, l = Some a -> exists x, parse_addr a = Ok x) ->
  (forall a, t = Some a -> exists x, parse_addr a = Ok x) ->
  exists m, parse_routes i g r l t = Ok (mkRoutes m ∅ ∅).
Proof.
  intros Hi Hg Hr Hl Ht. unfold parse_routes.
  destruct (parse_one_route_ok IDENTITY_PROXY_ALIAS _ ∅ Hi) as [m1 ->]. cbn [mbind res_bind].
  destruct (parse_one_route_ok MCP_GATEWAY_ALIAS _ m1 Hg) as [m2 ->]. cbn [mbind res_bind].
  destruct (parse_one_route_ok REGISTRY_ALIAS _ m2 Hr) as [m3 ->]. cbn [mbind res_bind].
  destruct (parse_one_route_ok LLM_PROXY_ALIAS _ m3 Hl) as [m4 ->]. cbn [mbind res_bind].
  destruct (parse_one_route_ok GIT_ALIAS _ m4 Ht) as [m5 ->]. cbn. eauto.
Qed.

(** ** The routes of the pod *)

Section pod.
Context (spec : WorkshopSpec) (ctx : PodCtx) (svc : services) (key : option bytes).

Let env := env_of (net_proxy_env spec ctx svc key).
Let targets := resolve_allowed_internal_targets svc (allowed_internal_targets spec).

Lemma env_egress : env "ATELIER_EGRESS_ALLOWLIST" = Some (join [44] (egress_allowlist spec)).
Proof. unfold env. env_lookup. done. Qed.
Lemma env_exported :
  env "ATELIER_EXPORTED_SERVICES" =
  if bool_decide (exported spec = []) then None else Some (exported_services_env spec).
Proof. unfold env. env_lookup. by destruct (bool_decide (exported spec = [])). Qed.
Lemma env_targets :
  env "ATELIER_ALLOWED_INTERNAL_TARGETS" = if is_empty targets then None else Some targets.
Proof. unfold env. env_lookup. fold targets. by destruct (is_empty targets). Qed.
Lemma env_simulators :
  env "ATELIER_SIMULATORS" =
  if bool_decide (length (ws_simulators spec) = 0%nat) then None else Some (simulators_env spec).
Proof. unfold env. env_lookup. by destruct (bool_decide (length _ = _)). Qed.
Lemma env_simulator :
  env "ATELIER_SIMULATOR_ADDR" =
  if bool_decide (B "enable_simulator" ∈ tools spec) then Some (loopback SIMULATOR_PORT) else None.
Proof. unfold env. env_lookup. by destruct (bool_decide (_ ∈ _)). Qed.
Lemma env_identity : env "ATELIER_IDENTITY_PROXY_ADDR" = Some (loopback IDENTITY_PROXY_PORT).
Proof. unfold env. env_lookup. done. Qed.
Lemma env_llm :
  env "ATELIER_LLM_PROXY_ADDR" =
  if llm_host_alias ctx then Some (loopback IDENTITY_PROXY_PORT) else llm_proxy_pod_addr ctx.
Proof. unfold env. env_lookup. by destruct (llm_host_alias ctx), (llm_proxy_pod_addr ctx). Qed.
Lemma env_gateway : env "ATELIER_MCP_GATEWAY_ADDR" = Some (loopback MCP_GATEWAY_PORT).
Proof. unfold env. env_lookup. done. Qed.
Lemma env_registry : env "ATELIER_REGISTRY_ALIAS_ADDR" = None.
Proof. unfold env. env_lookup. done. Qed.
Lemma env_git :
  env "ATELIER_GIT_ALIAS_ADDR" = if git_host_alias ctx then Some (loopback IDENTITY_PROXY_PORT) else None.
Proof. unfold env. env_lookup. by destruct (git_host_alias ctx). Qed.
Lemma env_key : env "ATELIER_SQUAD_TOKEN_KEY" = key.
Proof. unfold env. env_lookup. done. Qed.
Lemma env_name : env "ATELIER_WORKSHOP_NAME" = Some (ws_name spec).
Proof. unfold env. env_lookup. done. Qed.

(** What a simulator, and what a target, of the specification gives a name. *)
Definition simulator_gives (k : bytes) (s : SimulatorSpec) (a : addr) : Prop :=
  k = to_ascii_lowercase (sim_name s) ++ SIMULATOR_ALIAS_SUFFIX /\
  a = (B "127.0.0.1", simulator_port (sim_type s)).
Definition target_gives (k t : bytes) (a : addr) : Prop :=
  exists alias, names_target svc t alias a /\ k = to_ascii_lowercase alias.

Lemma simulators_read m :
  spec_ok spec ctx svc ->
  exists ms, match env "ATELIER_SIMULATORS" with
    | Some raw => add_simulators (mkRoutes m ∅ ∅) raw | None => Ok (mkRoutes m ∅ ∅) end = Ok (mkRoutes m ms ∅) /\
  forall k, last_named (simulator_gives k) (ws_simulators spec) (ms !! k).
Proof.
  intros Hok. rewrite env_simulators. case_bool_decide as Hz.
  { exists ∅. split; [done|]. intros k. destruct (ws_simulators spec); [constructor|done]. }
  pose proof (so_simulators _ _ _ Hok) as Hs. rewrite Forall_forall in Hs.
  unfold add_simulators, simulators_env. rewrite csv_join.
  2: { apply Forall_fmap, Forall_forall. intros s Hin. by apply simulator_entry_read, Hs. }
  cbn [simulators squad routes].
  set (entry s := sim_name s ++ B "=" ++ loopback (simulator_port (sim_type s))).
  destruct (simulator_entries_read (entry <$> ws_simulators spec) ∅) as (ms & -> & Hk).
  { intros e (s & -> & Hin)%list_elem_of_fmap. eexists _, _. by apply simulator_entry_read, Hs. }
  exists ms. split; [done|]. intros k. destruct (Hk k) as (o & Ho & ->).
  replace (match o with Some a => Some a | None => ∅ !! k end) with o by (by destruct o).
  rewrite list_fmap_alt in Ho. revert Ho. apply last_named_omap. intros s Hin. cbn. intros a.
  destruct (simulator_entry_read s (Hs s Hin)) as [_ Hr']. split.
  - intros (name & Hr & ->). by destruct (reads_as_eq _ _ _ _ _ Hr Hr') as [-> ->].
  - intros [-> ->]. eauto.
Qed.

Lemma squad_read m ms :
  spec_ok spec ctx svc ->
  exists mq, match env "ATELIER_ALLOWED_INTERNAL_TARGETS" with
    | Some raw => add_squad_targets (mkRoutes m ms ∅) raw | None => Ok (mkRoutes m ms ∅) end = Ok (mkRoutes m ms mq) /\
  forall k, last_named (target_gives k) (allowed_internal_targets spec) (mq !! k).
Proof.
  intros Hok. pose proof (so_targets _ _ _ Hok) as Ht. rewrite Forall_forall in Ht.
  pose proof (so_services _ _ _ Hok) as Hsv.
  assert (He : forall e, e ∈ omap (resolve_target svc) (allowed_internal_targets spec) ->
    entry_ok e /\ exists alias a, reads_as e alias a).
  { intros e (t & Hin & Hr)%list_elem_of_omap.
    destruct (resolve_target_read svc t e (Ht t Hin) Hsv Hr) as (Heok & alias & a & ? & ?). eauto. }
  assert (Hall : forall k o, last_named (fun e a => exists alias, reads_as e alias a /\ k = to_ascii_lowercase alias)
      (omap (resolve_target svc) (allowed_internal_targets spec)) o ->
    last_named (target_gives k) (allowed_internal_targets spec) o).
  { intros k o. apply last_named_omap. intros t Hin. by apply resolve_target_exact; [apply Ht|]. }
  assert (Hcsv : csv targets = omap (resolve_target svc) (allowed_internal_targets spec)).
  { unfold targets, resolve_allowed_internal_targets. apply csv_join. apply Forall_forall. intros e Hin. by apply He. }
  rewrite env_targets. destruct (is_empty targets) eqn:Eem.
  { exists ∅. split; [done|]. intros k. apply Hall. rewrite lookup_empty, <- Hcsv.
    destruct targets; [constructor|done]. }
  unfold add_squad_targets. rewrite Hcsv. cbn [simulators squad routes].
  destruct (squad_entries_read (omap (resolve_target svc) (allowed_internal_targets spec)) ∅) as (mq & -> & Hk).
  { intros e Hin. by apply He. }
  exists mq. split; [done|]. intros k. destruct (Hk k) as (o & Ho & ->). apply Hall. by destruct o.
Qed.

(** net-proxy reads its routes, and they are the specification's. *)
Lemma pod_routes :
  spec_ok spec ctx svc ->
  exists r, routes_from_env env = Ok r /\
    (forall k, last_named (target_gives k) (allowed_internal_targets spec) (squad r !! k)) /\
    (forall k, last_named (simulator_gives k) (ws_simulators spec) (simulators r !! k)).
Proof.
  intros Hok. unfold routes_from_env.
  assert (Hloop : forall p, port_ok p ->
    forall a, Some (loopback p) = Some a -> exists x, parse_addr a = Ok x).
  { intros p Hp a Ha. apply (inj Some) in Ha. subst a. eexists. by apply parse_loopback. }
  destruct (parse_routes_ok (env "ATELIER_IDENTITY_PROXY_ADDR") (env "ATELIER_MCP_GATEWAY_ADDR")
    (env "ATELIER_REGISTRY_ALIAS_ADDR") (env "ATELIER_LLM_PROXY_ADDR") (env "ATELIER_GIT_ALIAS_ADDR"))
    as [m ->].
  { rewrite env_identity. by apply Hloop. }
  { rewrite env_gateway. by apply Hloop. }
  { by rewrite env_registry. }
  { rewrite env_llm. destruct (llm_host_alias ctx); [|apply (so_llm _ _ _ Hok)].
    by apply Hloop. }
  { rewrite env_git. destruct (git_host_alias ctx); [|done]. by apply Hloop. }
  cbn [mbind res_bind].
  destruct (simulators_read m Hok) as (ms & -> & Hms). cbn [mbind res_bind].
  destruct (squad_read m ms Hok) as (mq & -> & Hmq). exists (mkRoutes m ms mq). by split_and!.
Qed.
End pod.

(** C3: the pod enforces the specification.  For a specification with printable entries
    and valid ports, net-proxy starts in the pod the controller builds, and reads
    back from its environment and its egress file exactly the egress allowlist and
    the exported services of the Workshop; it chains what leaves to identity-proxy;
    the simulator is there only for the tool.  Its inter-Workshop names are exactly
    those of the targets the specification lists whose Service has an address: a
    host resolves to the address and port of the last target of that name, up to
    case, and to nothing when no target names it; the names of the simulators
    likewise give the ports of the simulators of the specification. *)
Theorem pod_enforces_spec spec ctx svc key base64 :
  spec_ok spec ctx svc ->
  let env := env_of (net_proxy_env spec ctx svc key) in
  parse_file (egress_config_map_data spec) = egress_allowlist spec /\
  exported_services (env "ATELIER_EXPORTED_SERVICES"%string) = exported spec /\
  simulator_target env =
    (if bool_decide (B "enable_simulator" ∈ tools spec) then Some (B "127.0.0.1", SIMULATOR_PORT) else None) /\
  exists c, egress_config base64 env = Ok c /\
    allowlist c = egress_allowlist spec /\
    identity_proxy c = Some (mkUpstream (B "127.0.0.1:3129") None) /\
    squad_token_key c = non_blank key /\ workshop_name c = ws_name spec /\
    (forall host, last_named (target_gives svc (to_ascii_lowercase host))
       (allowed_internal_targets spec) (resolve_squad (internal c) host)) /\
    (forall host, last_named (simulator_gives host)
       (ws_simulators spec) (simulators (internal c) !! host)).
Proof.
  intros Hok env. pose proof Hok as [He Hx _ _ _ _]. split; [by apply parse_file_join|].
  split.
  { unfold env, exported_services. rewrite env_exported.
    case_bool_decide as Hn; [by rewrite Hn|]. by apply exported_read. }
  split.
  { unfold env, simulator_target. rewrite env_simulator. by case_bool_decide. }
  destruct (pod_routes spec ctx svc key Hok) as (r & Hr & Hsq & Hsim). fold env in Hr.
  unfold egress_config. rewrite Hr. cbn [mbind res_bind]. eexists. split; [reflexivity|].
  cbn [allowlist identity_proxy squad_token_key workshop_name internal].
  split_and!.
  - unfold parse_csv_env, env. rewrite env_egress. cbn [default from_option id]. by apply csv_join.
  - unfold identity_proxy_from_env, env. by rewrite env_identity.
  - unfold env. by rewrite env_key.
  - unfold env. by rewrite env_name.
  - intros host. apply Hsq.
  - exact Hsim.
Qed.

Definition sample_spec : WorkshopSpec :=
  mkSpec (B "front") [B "*.example.org"; B "pypi.org"] [B "egress"] [mkSimulator (B "db") Postgres []]
    [(B "web", 8080)] [B "api.back.atelier.internal:9000"] (Some (B "c1")) (B "team").
Definition sample_ctx : PodCtx := mkCtx None (Some (B "llm.default.svc:4000")) false true (Some (B "k")).
Definition sample_services : services := fun n =>
  if beq n (B "back-api") then Some (Some (B "10.96.0.9")) else None.

#[global] Instance printable_dec_inst x : Decision (printable x).
Proof. unfold printable. apply _. Defined.
#[global] Instance entry_ok_dec x : Decision (entry_ok x).
Proof. unfold entry_ok. apply _. Defined.
#[global] Instance name_ok_dec x : Decision (name_ok x).
Proof. unfold name_ok. apply _. Defined.
#[global] Instance port_ok_dec p : Decision (port_ok p).
Proof. unfold port_ok. apply _. Defined.

Lemma sample_spec_ok : spec_ok sample_spec sample_ctx sample_services.
Proof.
  split.
  - apply (bool_decide_unpack _). vm_compute. exact I.
  - apply (bool_decide_unpack _). vm_compute. exact I.
  - apply (bool_decide_unpack _). vm_compute. exact I.
  - constructor; [|constructor]. split_and!; [apply (bool_decide_unpack _); vm_compute; exact I..|].
    intros alias port Hr. vm_compute in Hr. injection Hr as <- <-. by eexists.
  - intros n ip. unfold sample_services. destruct (beq _ _); [|done]. intros Hip.
    apply (inj Some), (inj Some) in Hip. subst ip. split; apply (bool_decide_unpack _); vm_compute; exact I.
  - intros a Ha. apply (inj Some) in Ha. subst a. eexists. apply (parse_addr_render (B "llm.default.svc") (B "4000") 4000);
      [apply (bool_decide_unpack _); vm_compute; exact I|vm_compute; reflexivity].
Qed.

Lemma pod_enforces_spec_witness :
  let env := env_of (net_proxy_env sample_spec sample_ctx sample_services (Some (B "key"))) in
  exported_services (env "ATELIER_EXPORTED_SERVICES"%string) = [(B "web", 8080)] /\
  exists c, egress_config id env = Ok c /\ allowlist c = [B "*.example.org"; B "pypi.org"] /\
    resolve_squad (internal c) (B "api.back.atelier.internal") = Some (B "10.96.0.9", 9000).
Proof.
  destruct (pod_enforces_spec sample_spec sample_ctx sample_services (Some (B "key")) id sample_spec_ok)
    as (_ & Hx & _ & c & Hc & Ha & _ & _ & _ & Hsq & _).
  split; [exact Hx|]. exists c. split; [exact Hc|]. split; [exact Ha|].
  specialize (Hsq (B "api.back.atelier.internal")).
  assert (Hn : names_target sample_services (B "api.back.atelier.internal:9000")
                 (B "api.back.atelier.internal") (B "10.96.0.9", 9000)).
  { exists (B "9000"), (B "api"), (B "back"). split_and!; try reflexivity;
      apply (bool_decide_unpack _); vm_compute; exact I. }
  destruct (resolve_squad _ _) as [a|] eqn:E.
  - destruct Hsq as (l1 & t & l2 & Heq & (alias & Hn' & _) & _).
    assert (t = B "api.back.atelier.internal:9000") as -> by
      (apply list_elem_of_singleton; change [B "api.back.atelier.internal:9000"] with
         (allowed_internal_targets sample_spec); rewrite Heq; set_solver).
    destruct (names_target_eq _ _ _ _ _ _ Hn Hn') as [_ <-]. done.
  - exfalso. apply Forall_cons_1 in Hsq as [Hsq _]. eapply Hsq. eexists. split; [exact Hn|reflexivity].
Defined.

(** ** Campaigns *)

(** The policy of a Workshop's campaign is for its own pod, and lets in exactly the pods
    of the same campaign and group; a Workshop outside any campaign has none. *)
Lemma campaign_isolation w v :
  match campaign_network_policy w with
  | None => campaign_id w = None
  | Some (own, peers) =>
      (selects own (pod_labels v) = true <-> ws_name v = ws_name w) /\
      (selects peers (pod_labels v) = true <->
         campaign_id v = campaign_id w /\ owner_group v = owner_group w)
  end.
Proof.
  unfold campaign_network_policy. destruct (campaign_id w) as [c|] eqn:Ec; cbn [mbind option_bind]; [|done].
  unfold selects, pod_labels. split.
  - cbn [forallb fst snd assoc app]. rewrite beq_refl, andb_true_r, bool_decide_eq_true.
    split; [by intros Heq%(inj Some)|by intros ->].
  - destruct (campaign_id v) as [c'|]; cbn [forallb fst snd app].
    + change (assoc (B "atelier.dev/campaign-id") _) with (Some c').
      change (assoc (B "atelier.dev/owner-group") _) with (Some (owner_group v)).
      rewrite andb_true_r, andb_true_iff, !bool_decide_eq_true.
      split; intros [H1 H2]; [by apply (inj Some) in H2|by rewrite H1, H2].
    + change (assoc (B "atelier.dev/campaign-id") _) with (@None bytes).
      rewrite bool_decide_false by done. split; [done|by intros [? _]].
Qed.

(** ** Divergences *)

(** The name [<workshop>-<service>] of a Service is ambiguous: the service [b-c] of the
    Workshop [a] and the service [c] of the Workshop [a-b] are one object, whose
    selector is the last one written, and a target that names one of them resolves to
    it. *)
Lemma service_name_ambiguous :
  (exported_service_object (B "a") (B "b-c", 80)).1.1 = (exported_service_object (B "a-b") (B "c", 80)).1.1 /\
  let svc n := if beq n (B "a-b-c") then Some (Some (B "10.0.0.1")) else None in
  resolve_target svc (B "c.a-b.atelier.internal:80") = Some (B "c.a-b.atelier.internal=10.0.0.1:80") /\
  resolve_target svc (B "b-c.a.atelier.internal:80") = Some (B "b-c.a.atelier.internal=10.0.0.1:80").
Proof. split; [vm_compute; reflexivity|]. split; vm_compute; reflexivity. Qed.

(** The controller skips a malformed target, but does not look at its port: net-proxy
    then refuses its whole configuration and does not start. *)
Lemma bad_port_stops_net_proxy :
  let spec := mkSpec (B "front") [] [] [] [] [B "api.back.atelier.internal:http"] None (B "team") in
  exists e, egress_config id (env_of (net_proxy_env spec sample_ctx sample_services None)) = Err e.
Proof. eexists. vm_compute. reflexivity. Qed.
