(* ===== verification/Storage.v ===== *)
(** * The object store

    [crates/common/src/storage.rs]: uploads by parts, downloads into sparse files,
    the files of a suspension and the deletion of a Workshop's prefix.  The S3
    service, zstd and the file system are parameters: the service is the class
    [ObjectStore] with its documented behaviour as laws, compression a pair of
    stream transformers. *)

From S2P Require Import Prelude RustStr.

(** ** Configuration *)

(** [struct S3Config]. *)
Record S3Config := mkS3Config {
  endpoint : bytes;
  region : bytes;
  bucket_sessions : bytes;
  cfg_bucket_snapshots : bytes;
  bucket_image_cache : option bytes;
  force_path_style : bool;
  access_key_id : bytes;
  secret_access_key : bytes }.

(** [str::parse::<bool>]. *)
Definition parse_bool (s : bytes) : option bool :=
  if beq s (B "true") then Some true else if beq s (B "false") then Some false else None.

(** [fn config_from_env]. *)
Definition s3_config_from_env (env : string -> option bytes) : res (option S3Config) :=
  match env "S3_ENDPOINT"%string with
  | None => Ok None
  | Some endpoint =>
      region ← ok_or (env "S3_REGION"%string) "S3_ENDPOINT est defini mais S3_REGION est absent";
      sessions ← ok_or (env "S3_BUCKET_SESSIONS"%string)
        "S3_ENDPOINT est defini mais S3_BUCKET_SESSIONS est absent";
      snapshots ← ok_or (env "S3_BUCKET_SNAPSHOTS"%string)
        "S3_ENDPOINT est defini mais S3_BUCKET_SNAPSHOTS est absent";
      access ← ok_or (env "AWS_ACCESS_KEY_ID"%string)
        "S3_ENDPOINT est defini mais AWS_ACCESS_KEY_ID est absent";
      secret ← ok_or (env "AWS_SECRET_ACCESS_KEY"%string)
        "S3_ENDPOINT est defini mais AWS_SECRET_ACCESS_KEY est absent";
      style ← match env "S3_FORCE_PATH_STYLE"%string with
              | Some raw => ok_or (parse_bool raw) "S3_FORCE_PATH_STYLE doit valoir true ou false"
              | None => Ok false
              end;
      Ok (Some (mkS3Config endpoint region sessions snapshots (env "S3_BUCKET_IMAGE_CACHE"%string)
                  style access secret))
  end.

(** ** Readers *)

(** An [AsyncRead]: what each further [read] can deliver, [None] where it fails. *)
Abbreviation reader := (list (option bytes)).

Definition bytes_of (r : reader) : bytes := concat (default [] <$> r).

(** No [read] of [r] fails, and none returns 0 before the end. *)
Definition good (r : reader) : Prop := Forall (fun p => exists b, p = Some b /\ b <> []) r.
(** None returns 0 before the end. *)
Definition lively (r : reader) : Prop := Forall (fun p => p <> Some []) r.

Definition len (b : bytes) : Z := Z.of_nat (length b).

(** The inner loop of [copy_sparse] and [upload_multipart_parts]: [read] until the
    buffer is full or the stream ends. *)
Fixpoint fill (size : Z) (r : reader) : res (bytes * reader) :=
  if size <=? 0 then Ok ([], r) else
  match r with
  | [] => Ok ([], [])
  | None :: _ => Err "lecture du flux source"
  | Some p :: r' =>
      if is_empty p then Ok ([], r')
      else if len p <=? size then
        match fill (size - len p) r' with
        | Ok (x, r2) => Ok (p ++ x, r2)
        | Err e => Err e
        | Panic => Panic
        end
      else Ok (take (Z.to_nat size) p, Some (drop (Z.to_nat size) p) :: r')
  end.

(** Their outer loop: a block at a time, until an empty or a short one. *)
Fixpoint for_blocks {S} (fuel : nat) (size : Z) (act : bytes -> S -> res unit * S) (r : reader) (s : S)
    : res unit * S :=
  match fuel with
  | O => (Err "fuel", s)
  | Datatypes.S fuel =>
      match fill size r with
      | Ok ([], _) => (Ok tt, s)
      | Ok (buf, r') =>
          match act buf s with
          | (Ok _, s') => if len buf <? size then (Ok tt, s') else for_blocks fuel size act r' s'
          | (e, s') => (e, s')
          end
      | Err e => (Err e, s)
      | Panic => (Panic, s)
      end
  end.

(** As many rounds as bytes are enough. *)
Definition rounds (r : reader) : nat := S (length (bytes_of r)).

(** ** Sparse files *)

(** A [tokio::fs::File] open for writing: the bytes a reader sees, the cursor, and the
    writes that were made. *)
Record file := mkFile { f_bytes : bytes; f_pos : nat; f_writes : list bytes }.
Definition new_file : file := mkFile [] 0 [].

(** Writing past the end fills the gap with zeros. *)
Definition write_at (pos : nat) (data b : bytes) : bytes :=
  take pos (b ++ replicate (pos - length b) 0) ++ data ++ drop (pos + length data) b.
Definition write_all (data : bytes) (f : file) : file :=
  mkFile (write_at (f_pos f) data (f_bytes f)) (f_pos f + length data) (f_writes f ++ [data]).
Definition seek_current (n : nat) (f : file) : file := mkFile (f_bytes f) (f_pos f + n) (f_writes f).
Definition set_len (n : nat) (f : file) : file :=
  mkFile (take n (f_bytes f ++ replicate (n - length (f_bytes f)) 0)) (f_pos f) (f_writes f).

Definition all_zero (b : bytes) : bool := forallb (Z.eqb 0) b.

(** [fn copy_sparse]: [vec![0u8; 1024 * 1024]]. *)
Definition COPY_BLOCK : Z := 1024 * 1024.
Definition copy_block (buf : bytes) (st : file * nat) : res unit * (file * nat) :=
  let '(f, position) := st in
  (Ok tt, (if all_zero buf then seek_current (length buf) f else write_all buf f,
           (position + length buf)%nat)).
Definition copy_sparse (r : reader) (f : file) : res (nat * file) :=
  match for_blocks (rounds r) COPY_BLOCK copy_block r (f, 0%nat) with
  | (Ok _, (f, position)) => Ok (position, set_len position f)
  | (Err e, _) => Err e
  | (Panic, _) => Panic
  end.

(** ** Blocks *)

(** The stream cut into blocks: the reference for the loops. *)
Fixpoint chunks (fuel : nat) (size : nat) (d : bytes) : list bytes :=
  match fuel, d with
  | S fuel, _ :: _ => take size d :: chunks fuel size (drop size d)
  | _, _ => []
  end.
Definition blocks_of (size : Z) (d : bytes) : list bytes := chunks (length d) (Z.to_nat size) d.

(** Running [act] over a list of blocks. *)
Fixpoint fold_blocks {S} (act : bytes -> S -> res unit * S) (bs : list bytes) (s : S) : res unit * S :=
  match bs with
  | [] => (Ok tt, s)
  | b :: bs =>
      match act b s with
      | (Ok _, s') => fold_blocks act bs s'
      | (e, s') => (e, s')
      end
  end.

Lemma bytes_of_cons p r : bytes_of (p :: r) = default [] p ++ bytes_of r.
Proof. done. Qed.

Lemma len_pos b : b <> [] -> 0 < len b.
Proof. destruct b; [done|]. unfold len. cbn [length]. lia. Qed.

Lemma good_lively r : good r -> lively r.
Proof. intros H. eapply Forall_impl; [exact H|]. intros p (b & -> & Hb). congruence. Qed.

Lemma good_cons b r : b <> [] -> good r -> good (Some b :: r).
Proof. intros. constructor; [by exists b|done]. Qed.

Lemma fill_good size r :
  0 <= size -> good r ->
  exists r', fill size r = Ok (take (Z.to_nat size) (bytes_of r), r') /\ good r' /\
    bytes_of r' = drop (Z.to_nat size) (bytes_of r).
Proof.
  revert size. induction r as [|p r IH]; intros size Hs Hg; cbn [fill].
  - exists []. change (bytes_of []) with (@nil Z). rewrite take_nil, drop_nil. by destruct (size <=? 0).
  - apply Forall_cons in Hg as [(b & -> & Hb) Hg]. rewrite bytes_of_cons. cbn [default id from_option].
    destruct (Z.leb_spec size 0).
    { exists (Some b :: r). assert (size = 0) as -> by lia. cbn. split_and!; [done| |done].
      by apply good_cons. }
    pose proof (len_pos b Hb). destruct b as [|z b0] eqn:Eb; [done|]. rewrite <- Eb in *. clear Eb.
    replace (is_empty b) with false by (by destruct b). unfold len in *.
    destruct (Z.leb_spec (Z.of_nat (length b)) size).
    + destruct (IH (size - Z.of_nat (length b))) as (r' & -> & Hr' & Hd); [lia|done|].
      exists r'. rewrite Z2Nat.inj_sub, Nat2Z.id in * by lia.
      rewrite take_app_ge, drop_app_ge by lia. done.
    + exists (Some (drop (Z.to_nat size) b) :: r). rewrite take_app_le, drop_app_le by lia.
      split_and!; [done| |done]. constructor; [|done]. eexists. split; [done|].
      intros Hn%(f_equal length). rewrite length_drop in Hn. cbn in Hn. lia.
Qed.

Lemma for_blocks_good {S} fuel size act r (s : S) :
  0 < size -> good r -> (length (bytes_of r) < fuel)%nat ->
  for_blocks fuel size act r s = fold_blocks act (blocks_of size (bytes_of r)) s.
Proof.
  intros Hs. revert r s. unfold blocks_of.
  assert (Hfuel : forall r n s, good r -> (length (bytes_of r) < fuel)%nat ->
    (length (bytes_of r) <= n)%nat ->
    for_blocks fuel size act r s = fold_blocks act (chunks n (Z.to_nat size) (bytes_of r)) s);
    [|intros; by apply Hfuel].
  induction fuel as [|fuel IH]; intros r n s Hg Hf Hn; [lia|]. cbn [for_blocks].
  destruct (fill_good size r) as (r' & -> & Hg' & Hd); [lia|done|].
  destruct (bytes_of r) as [|z d] eqn:E; [by rewrite take_nil; destruct n|].
  destruct n as [|n]; [cbn in Hn; lia|]. cbn [chunks fold_blocks].
  rewrite <- E in *. destruct (take (Z.to_nat size) (bytes_of r)) as [|y buf] eqn:Et.
  { apply (f_equal length) in Et. rewrite length_take, E in Et. cbn in Et. lia. }
  rewrite <- Et. destruct (act _ s) as [[u|e|] s']; [|done..].
  assert (Hl : (length (bytes_of r) > 0)%nat) by (rewrite E; cbn; lia).
  rewrite <- Hd. destruct (Z.ltb_spec (len (take (Z.to_nat size) (bytes_of r))) size) as [Hlt|Hge].
  - unfold len in Hlt. rewrite length_take in Hlt. rewrite Hd, drop_ge by lia. by destruct n.
  - apply IH; [done|rewrite Hd, length_drop; lia..].
Qed.

(** A reader that fails makes the loop fail, whatever was read before. *)
Lemma fill_lively size r :
  0 <= size -> lively r ->
  (exists e, fill size r = Err e) \/
  exists b r', fill size r = Ok (b, r') /\ lively r' /\ bytes_of r = b ++ bytes_of r' /\
    len b <= size /\ (good r' -> good r) /\ (len b < size -> good r).
Proof.
  revert size. induction r as [|p r IH]; intros size Hs Hg; cbn [fill].
  - right. exists [], []. unfold len. destruct (size <=? 0) eqn:?; (split_and!; try done; cbn; lia || (intros; constructor)).
  - apply Forall_cons in Hg as [Hp Hg]. destruct (Z.leb_spec size 0).
    { right. exists [], (p :: r). unfold len. cbn [length app]. split_and!; try done; try lia. by constructor. }
    destruct p as [b|]; [|left; eauto]. assert (Hb : b <> []) by congruence.
    pose proof (len_pos b Hb). replace (is_empty b) with false by (by destruct b).
    unfold len in *. destruct (Z.leb_spec (Z.of_nat (length b)) size).
    + destruct (IH (size - Z.of_nat (length b))) as [[e ->]|(x & r' & -> & Hl & Hx & Hlen & Hg1 & Hg2)];
        [lia|done|left; eauto|].
      right. exists (b ++ x), r'. rewrite length_app, bytes_of_cons, Hx. cbn.
      split_and!; [done|done|by rewrite <- app_assoc|lia| |].
      * intros Hgr. apply good_cons; auto.
      * intros Hlt. apply good_cons; [done|]. apply Hg2. lia.
    + right. do 2 eexists. split; [done|]. rewrite !bytes_of_cons. cbn.
      split_and!.
      * constructor; [|done]. intros [= Hn%(f_equal length)]. rewrite length_drop in Hn. cbn in Hn. lia.
      * by rewrite app_assoc, take_drop.
      * rewrite length_take. lia.
      * intros [_ Hgr]%Forall_cons. by apply good_cons.
      * rewrite length_take. lia.
Qed.

Lemma for_blocks_Ok_good {S} fuel size act r (s s' : S) :
  0 < size -> lively r -> for_blocks fuel size act r s = (Ok tt, s') -> good r.
Proof.
  intros Hs. revert r s. induction fuel as [|fuel IH]; intros r s Hl; cbn [for_blocks]; [done|].
  destruct (fill_lively size r) as [[e ->]|(b & r' & -> & Hl' & Hb & Hlen & Hg1 & Hg2)]; [lia|done|done|].
  destruct b as [|z b]; [intros _; apply Hg2; unfold len; cbn; lia|].
  destruct (act (z :: b) s) as [[u|e|] s1]; [|done..].
  destruct (Z.ltb_spec (len (z :: b)) size); [intros _; by apply Hg2|]. intros H1.
  eapply Hg1, IH; eauto.
Qed.

Lemma chunks_concat n size d : (0 < size)%nat -> (length d <= n)%nat -> concat (chunks n size d) = d.
Proof.
  intros Hs. revert d. induction n as [|n IH]; intros [|z d] Hn; cbn [chunks length] in *; try done; [lia|].
  cbn [concat]. rewrite IH; [apply take_drop|]. rewrite length_drop. cbn. lia.
Qed.

Lemma blocks_concat size d : 0 < size -> concat (blocks_of size d) = d.
Proof. intros. apply chunks_concat; lia. Qed.

(** Every block but the last is full, and none is empty. *)
Lemma chunks_sizes n size d i b :
  (0 < size)%nat -> (length d <= n)%nat -> chunks n size d !! i = Some b ->
  (0 < length b <= size)%nat /\ ((S i < length (chunks n size d))%nat -> length b = size).
Proof.
  intros Hs. revert d i. induction n as [|n IH]; intros [|z d] i Hn; cbn [chunks length] in *; try done.
  destruct i as [|i]; cbn [lookup list_lookup].
  - intros [= <-]. rewrite length_take. cbn [length]. split; [lia|]. intros Hi.
    destruct (chunks n size (drop size (z :: d))) eqn:E; [cbn in Hi; lia|].
    destruct (drop size (z :: d)) eqn:Ed; [by destruct n|].
    apply (f_equal length) in Ed. rewrite length_drop in Ed. cbn [length] in Ed. lia.
  - intros Hb. apply IH in Hb as [H1 H2]; [|rewrite length_drop; cbn [length]; lia]. split; [done|].
    intros. apply H2. lia.
Qed.

(** ** Sparse copies *)

(** Where the loop of [copy_sparse] stands after the bytes [d]: the file, extended with
    zeros, holds them. *)
Definition copied (d : bytes) (ws : list bytes) (st : file * nat) : Prop :=
  let '(f, position) := st in
  position = length d /\ f_pos f = length d /\ f_writes f = ws /\
  (length (f_bytes f) <= length d)%nat /\ f_bytes f ++ replicate (length d - length (f_bytes f)) 0 = d.

Lemma all_zero_replicate b : all_zero b = true -> b = replicate (length b) 0.
Proof.
  unfold all_zero. rewrite forallb_forall. intros H. symmetry. apply replicate_as_Forall.
  split; [done|]. apply Forall_forall. intros x Hx%list_elem_of_In%H. lia.
Qed.

Lemma copy_block_copied d ws b st :
  copied d ws st ->
  exists st', copy_block b st = (Ok tt, st') /\
    copied (d ++ b) (if all_zero b then ws else ws ++ [b]) st'.
Proof.
  destruct st as [f position]. intros (-> & Hp & Hw & Hl & Hd). eexists. split; [done|].
  destruct (all_zero b) eqn:E; unfold copied; cbn [seek_current write_all f_bytes f_pos f_writes];
    rewrite length_app, Hp, Hw; split_and!; try done; try lia.
  - rewrite (all_zero_replicate b E) at 2. rewrite <- Hd at 2. rewrite <- app_assoc, <- replicate_add.
    do 2 f_equal. lia.
  - unfold write_at. rewrite Hd, firstn_all, drop_ge, !length_app by lia. cbn. lia.
  - unfold write_at. rewrite Hd, firstn_all, drop_ge, app_nil_r, length_app, Nat.sub_diag by lia.
    apply app_nil_r.
Qed.

Lemma fold_copied bs d ws st :
  copied d ws st ->
  exists st', fold_blocks copy_block bs st = (Ok tt, st') /\
    copied (d ++ concat bs) (ws ++ filter (fun b => all_zero b = false) bs) st'.
Proof.
  revert d ws st. induction bs as [|b bs IH]; intros d ws st Hc; cbn [fold_blocks concat].
  - exists st. by rewrite !app_nil_r.
  - destruct (copy_block_copied _ _ b _ Hc) as (st1 & -> & H1).
    destruct (IH _ _ _ H1) as (st2 & -> & H2). exists st2. split; [done|].
    rewrite <- app_assoc in H2. rewrite filter_cons. destruct (all_zero b).
    + done.
    + rewrite decide_True by done. by rewrite <- app_assoc in H2.
Qed.

Lemma set_len_copied d ws f n : copied d ws (f, n) -> f_bytes (set_len n f) = d.
Proof. intros (-> & _ & _ & Hl & Hd). cbn. rewrite Hd. apply firstn_all. Qed.

(** The whole stream ends up in the file, and only its blocks that are not all zeros
    were written. *)
Lemma copy_sparse_good r :
  good r ->
  exists f, copy_sparse r new_file = Ok (length (bytes_of r), f) /\ f_bytes f = bytes_of r /\
    f_writes f = filter (fun b => all_zero b = false) (blocks_of COPY_BLOCK (bytes_of r)).
Proof.
  intros Hg. unfold copy_sparse. rewrite for_blocks_good; [|done|done|unfold rounds; lia].
  destruct (fold_copied (blocks_of COPY_BLOCK (bytes_of r)) [] [] (new_file, 0%nat)) as ([f n] & -> & Hc);
    [by cbn|].
  rewrite blocks_concat in Hc by done. cbn [app] in Hc. exists (set_len n f). split_and!.
  - by destruct Hc as (-> & _).
  - by eapply set_len_copied.
  - cbn [set_len f_writes]. by destruct Hc as (_ & _ & -> & _).
Qed.

Lemma copy_sparse_Ok r f n f' : lively r -> copy_sparse r f = Ok (n, f') -> good r.
Proof.
  intros Hl. unfold copy_sparse.
  destruct (for_blocks _ _ _ _ _) as [[[]|e|] st] eqn:E; [|done..]. intros _.
  eapply for_blocks_Ok_good; [|done|exact E]. done.
Qed.

(** ** The service *)

(** Objects by bucket and key; [o'] is [o] with the object at [b], [k] replaced. *)
Abbreviation object_map := (bytes -> bytes -> option bytes).
Definition unchanged (o o' : object_map) : Prop := forall b k, o' b k = o b k.
Definition stored (o : object_map) (b k : bytes) (v : option bytes) (o' : object_map) : Prop :=
  forall b' k', o' b' k' = if bool_decide (b' = b /\ k' = k) then v else o b' k'.

(** The S3 calls the module makes.  [objects] and [parts] are what the service holds:
    the objects of each bucket, and the parts of each upload (number, ETag, body).
    [listed_after t k]: a listing that continues from the token [t] comes to [k].
    A call that fails may or may not have been carried out. *)
Class ObjectStore (S : Type) := {
  objects : S -> object_map;
  parts : S -> bytes -> Z -> option (bytes * bytes);
  listed_after : option bytes -> bytes -> Prop;
  create_multipart_upload : bytes -> bytes -> S -> res (option bytes) * S;
  upload_part : bytes -> bytes -> bytes -> Z -> bytes -> S -> res (option bytes) * S;
  complete_multipart_upload : bytes -> bytes -> bytes -> list (Z * bytes) -> S -> res unit * S;
  abort_multipart_upload : bytes -> bytes -> bytes -> S -> res unit * S;
  put_object : bytes -> bytes -> bytes -> S -> res unit * S;
  get_object : bytes -> bytes -> S -> res reader;
  s3_delete : bytes -> bytes -> S -> res unit * S;
  list_objects_v2 : bytes -> bytes -> option bytes -> S ->
    res (list (option bytes) * option bytes * option bool);

  create_law b k s : unchanged (objects s) (objects (create_multipart_upload b k s).2);
  upload_part_objects b k id n body s : unchanged (objects s) (objects (upload_part b k id n body s).2);
  upload_part_law b k id n body s s' tag :
    upload_part b k id n body s = (Ok (Some tag), s') ->
    parts s' id n = Some (tag, body) /\ forall n', n' <> n -> parts s' id n' = parts s id n';
  abort_law b k id s : unchanged (objects s) (objects (abort_multipart_upload b k id s).2);
  complete_law b k id l s x s' :
    complete_multipart_upload b k id l s = (x, s') ->
    (exists bodies, Forall2 (fun p body => parts s id p.1 = Some (p.2, body)) l bodies /\
       stored (objects s) b k (Some (concat bodies)) (objects s')) \/
    (x <> Ok tt /\ unchanged (objects s) (objects s'));
  put_law b k body s x s' :
    put_object b k body s = (x, s') ->
    stored (objects s) b k (Some body) (objects s') \/ (x <> Ok tt /\ unchanged (objects s) (objects s'));
  delete_law b k s x s' :
    s3_delete b k s = (x, s') ->
    stored (objects s) b k None (objects s') \/ (x <> Ok tt /\ unchanged (objects s) (objects s'));
  get_law b k s r :
    get_object b k s = Ok r -> lively r /\ (good r -> objects s b k = Some (bytes_of r));
  listed_first k : listed_after None k;
  list_law b prefix t s page next truncated :
    list_objects_v2 b prefix t s = Ok (page, next, truncated) ->
    (forall k, Some k ∈ page -> starts_with k prefix = true) /\
    (forall k, is_Some (objects s b k) -> starts_with k prefix = true -> listed_after t k ->
       Some k ∈ page \/
       (truncated = Some true /\ exists t', next = Some t' /\ listed_after (Some t') k)) }.

(** ** Uploads *)

(** [const MULTIPART_PART_SIZE]. *)
Definition MULTIPART_PART_SIZE : Z := 8 * 1024 * 1024.

Section store.
Context {St : Type} `{!ObjectStore St}.

(** One round of [upload_multipart_parts]: the service, the parts so far and the next
    part number. *)
Definition upload_block (bucket key upload_id : bytes) (buf : bytes)
    (st : St * list (Z * bytes) * Z) : res unit * (St * list (Z * bytes) * Z) :=
  let '(s, done_parts, part_number) := st in
  let '(x, s') := upload_part bucket key upload_id part_number buf s in
  match x with
  | Ok (Some e_tag) => (Ok tt, (s', done_parts ++ [(part_number, e_tag)], part_number + 1))
  | Ok None => (Err "reponse S3 sans ETag pour la part", (s', done_parts, part_number))
  | Err e => (Err e, (s', done_parts, part_number))
  | Panic => (Panic, (s', done_parts, part_number))
  end.

(** [fn upload_multipart_parts]. *)
Definition upload_multipart_parts (bucket key upload_id : bytes) (stream : reader) (s : St)
    : res (list (Z * bytes)) * St :=
  match for_blocks (rounds stream) MULTIPART_PART_SIZE (upload_block bucket key upload_id) stream
          (s, [], 1) with
  | (Ok _, (s', done_parts, _)) => (Ok done_parts, s')
  | (Err e, (s', _, _)) => (Err e, s')
  | (Panic, (s', _, _)) => (Panic, s')
  end.

(** [fn upload_stream]. *)
Definition upload_stream (bucket key : bytes) (stream : reader) (s : St) : res unit * St :=
  match create_multipart_upload bucket key s with
  | (Err e, s) => (Err e, s)
  | (Panic, s) => (Panic, s)
  | (Ok None, s) => (Err "reponse S3 sans upload_id pour le televersement multipart", s)
  | (Ok (Some upload_id), s) =>
      match upload_multipart_parts bucket key upload_id stream s with
      | (Err e, s) => (Err e, (abort_multipart_upload bucket key upload_id s).2)
      | (Panic, s) => (Panic, s)
      | (Ok [], s) =>
          match abort_multipart_upload bucket key upload_id s with
          | (Ok _, s) => put_object bucket key [] s
          | (e, s) => (e, s)
          end
      | (Ok done_parts, s) => complete_multipart_upload bucket key upload_id done_parts s
      end
  end.

(** [fn download_stream], [fn delete_object]. *)
Definition download_stream (bucket key : bytes) (s : St) : res reader := get_object bucket key s.
Definition delete_object (bucket key : bytes) (s : St) : res unit * St := s3_delete bucket key s.

End store.

(** ** Snapshots *)

(** The keys. *)
Definition COMPRESSED_SUFFIX : bytes := B ".zst".
Definition snapshot_key (prefix filename : bytes) : bytes := prefix ++ B "/" ++ filename.
Definition image_cache_key (digest : bytes) : bytes :=
  B "images/" ++ ((fun b => if b =? 58 then 95 else b) <$> digest) ++ B "/rootfs.ext4".
Definition session_archive_key (workshop_name session_id : bytes) : bytes :=
  B "workshops/" ++ workshop_name ++ B "/sessions/" ++ session_id ++ B ".zst".

(** [encoder] and [decoder] are async-compression's [ZstdEncoder] and [ZstdDecoder]
    over a stream; [bucket_snapshots] a field of the backend.  A local file is read
    as a stream, or cannot be opened. *)
Section snapshots.
Context {St : Type} `{!ObjectStore St}.
Context (encoder decoder : reader -> reader) (bucket_snapshots : bytes).

(** [fn upload_snapshot_file]. *)
Definition upload_snapshot_file (prefix filename : bytes) (opened : res reader) (s : St) : res unit * St :=
  let key := snapshot_key prefix (filename ++ COMPRESSED_SUFFIX) in
  match opened with
  | Ok r => upload_stream bucket_snapshots key (encoder r) s
  | Err e => (Err e, s)
  | Panic => (Panic, s)
  end.

(** [fn delete_snapshot_file]: the old form, then the compressed one. *)
Definition delete_snapshot_file (prefix filename : bytes) (s : St) : res unit * St :=
  match delete_object bucket_snapshots (snapshot_key prefix filename) s with
  | (Ok _, s) => delete_object bucket_snapshots (snapshot_key prefix (filename ++ COMPRESSED_SUFFIX)) s
  | (e, s) => (e, s)
  end.

(** [fn download_snapshot_to_file]: the destination file, created empty. *)
Definition download_snapshot_to_file (prefix filename : bytes) (s : St) : res file :=
  let compressed_key := snapshot_key prefix (filename ++ COMPRESSED_SUFFIX) in
  stream ← match download_stream bucket_snapshots compressed_key s with
           | Ok r => Ok (decoder r)
           | _ => download_stream bucket_snapshots (snapshot_key prefix filename) s
           end;
  '(_, f) ← copy_sparse stream new_file;
  Ok f.

(** [fn delete_snapshot_prefix]: one page, and the loop over the pages. *)
Fixpoint delete_page (keys : list (option bytes)) (deleted : nat) (s : St) : res nat * St :=
  match keys with
  | [] => (Ok deleted, s)
  | None :: r => delete_page r deleted s
  | Some key :: r =>
      match delete_object bucket_snapshots key s with
      | (Ok _, s) => delete_page r (S deleted) s
      | (Err e, s) => (Err e, s)
      | (Panic, s) => (Panic, s)
      end
  end.
Fixpoint delete_pages (fuel : nat) (list_prefix : bytes) (token : option bytes) (deleted : nat) (s : St)
    : res nat * St :=
  match fuel with
  | O => (Err "fuel", s)
  | S fuel =>
      match list_objects_v2 bucket_snapshots list_prefix token s with
      | Err e => (Err e, s)
      | Panic => (Panic, s)
      | Ok (page, next, truncated) =>
          match delete_page page deleted s with
          | (Ok deleted, s) =>
              match next with
              | Some next => if bool_decide (truncated = Some true)
                             then delete_pages fuel list_prefix (Some next) deleted s else (Ok deleted, s)
              | None => (Ok deleted, s)
              end
          | e => e
          end
      end
  end.
Definition list_prefix_of (prefix : bytes) : bytes := trim_end_matches (Z.eqb 47) prefix ++ B "/".
Definition delete_snapshot_prefix (fuel : nat) (prefix : bytes) (s : St) : res nat * St :=
  delete_pages fuel (list_prefix_of prefix) None 0 s.
End snapshots.

(** ** What uploads do *)

Lemma Forall2_functional {A C} (P : A -> C -> Prop) l xs ys :
  (forall a x y, P a x -> P a y -> x = y) -> Forall2 P l xs -> Forall2 P l ys -> xs = ys.
Proof.
  intros Hd Hx. revert ys. induction Hx as [|a x l xs Hax _ IH]; intros ys Hy; inversion Hy; subst; [done|].
  f_equal; eauto.
Qed.

Section uploads.
Context {St : Type} `{!ObjectStore St}.

Lemma unchanged_refl o : unchanged o o.
Proof. done. Qed.
Lemma unchanged_trans o o1 o2 : unchanged o o1 -> unchanged o1 o2 -> unchanged o o2.
Proof. intros H1 H2 b k. by rewrite H2, H1. Qed.
Lemma unchanged_stored o o1 o2 b k v : unchanged o o1 -> stored o1 b k v o2 -> stored o b k v o2.
Proof. intros H1 H2 b' k'. by rewrite H2, H1. Qed.

Lemma for_blocks_keeps {T} (P : T -> Prop) fuel size act r (s : T) :
  (forall b s, P s -> P (act b s).2) -> P s -> P (for_blocks fuel size act r s).2.
Proof.
  intros Hact. revert r s. induction fuel as [|fuel IH]; intros r s Hs; cbn [for_blocks]; [done|].
  destruct (fill size r) as [[[|z b] r']|e|]; [done| |done..].
  specialize (Hact (z :: b) s Hs). destruct (act (z :: b) s) as [[u|e|] s']; [|done..].
  destruct (_ <? _); [done|by apply IH].
Qed.

(** The parts uploaded so far are the blocks, under growing numbers. *)
Definition uploaded (upload_id : bytes) (o : object_map) (bodies : list bytes)
    (st : St * list (Z * bytes) * Z) : Prop :=
  let '(s, ps, n) := st in
  unchanged o (objects s) /\
  Forall2 (fun p body => parts s upload_id p.1 = Some (p.2, body) /\ p.1 < n) ps bodies.

Lemma upload_block_uploaded b k id o bodies buf st st' :
  uploaded id o bodies st -> upload_block b k id buf st = (Ok tt, st') ->
  uploaded id o (bodies ++ [buf]) st'.
Proof.
  destruct st as [[s ps] n]. intros [Ho Hf]. unfold upload_block.
  pose proof (upload_part_objects b k id n buf s) as Hu.
  destruct (upload_part b k id n buf s) as [[[tag|]|e|] s'] eqn:E; try done.
  apply upload_part_law in E as [Hn Hne]. intros [= <-]. split; [by eapply unchanged_trans|].
  apply Forall2_app; [|constructor; [split; [done|cbn; lia]|done]].
  eapply Forall2_impl; [exact Hf|]. intros p body [Hp Hlt]. rewrite Hne by lia. split; [done|lia].
Qed.

Lemma fold_uploaded b k id o bs bodies st st' :
  uploaded id o bodies st -> fold_blocks (upload_block b k id) bs st = (Ok tt, st') ->
  uploaded id o (bodies ++ bs) st'.
Proof.
  revert bodies st. induction bs as [|x bs IH]; intros bodies st Hu; cbn [fold_blocks].
  - intros [= <-]. by rewrite app_nil_r.
  - destruct (upload_block b k id x st) as [[[]|e|] st1] eqn:E; [|done..]. intros H1.
    rewrite (cons_middle x). rewrite app_assoc. eapply IH; [|exact H1]. by eapply upload_block_uploaded.
Qed.

Lemma upload_parts_effect b k id r s x s' :
  lively r -> upload_multipart_parts b k id r s = (x, s') ->
  unchanged (objects s) (objects s') /\
  forall ps, x = Ok ps -> good r /\
    Forall2 (fun p body => parts s' id p.1 = Some (p.2, body)) ps (blocks_of MULTIPART_PART_SIZE (bytes_of r)).
Proof.
  intros Hl. unfold upload_multipart_parts. destruct (for_blocks _ _ _ _ _) as [y [[s1 ps1] n1]] eqn:E.
  assert (Ho : unchanged (objects s) (objects s1)).
  { change s1 with ((s1, ps1, n1).1.1). change (s1, ps1, n1) with ((y, (s1, ps1, n1)).2). rewrite <- E.
    apply (for_blocks_keeps (fun st => unchanged (objects s) (objects st.1.1))); [|done].
    intros buf [[s2 ps2] n2] H2. unfold upload_block.
    pose proof (upload_part_objects b k id n2 buf s2) as Hu.
    destruct (upload_part b k id n2 buf s2) as [[[tag|]|e|] s3]; by eapply unchanged_trans. }
  destruct y as [[]|e|]; intros [= <- <-]; (split; [done|]); [|done..].
  intros ps [= <-]. assert (Hg : good r) by (eapply for_blocks_Ok_good; [|done|exact E]; done).
  split; [done|]. rewrite for_blocks_good in E; [|done|done|unfold rounds; lia].
  apply (fold_uploaded _ _ _ (objects s) _ []) in E; [|by split].
  destruct E as [_ Hf]. cbn [app] in Hf. eapply Forall2_impl; [exact Hf|]. by intros p body [? _].
Qed.

(** An upload stores the whole stream or leaves the store as it was. *)
Lemma upload_stream_effect b k r s x s' :
  lively r -> upload_stream b k r s = (x, s') ->
  (good r /\ stored (objects s) b k (Some (bytes_of r)) (objects s')) \/
  (x <> Ok tt /\ unchanged (objects s) (objects s')).
Proof.
  intros Hl. unfold upload_stream. pose proof (create_law b k s) as Hc.
  destruct (create_multipart_upload b k s) as [[[id|]|e|] s1]; cbn [snd] in Hc;
    [|intros [= <- <-]; by right..].
  destruct (upload_multipart_parts b k id r s1) as [y s2] eqn:E.
  apply (upload_parts_effect _ _ _ _ _ _ _ Hl) in E as [Hu Hps].
  pose proof (unchanged_trans _ _ _ Hc Hu) as Hcu. pose proof (abort_law b k id s2) as Ha.
  destruct y as [ps|e|]; [|intros [= <- <-]; right; split; [done|by eapply unchanged_trans]..|].
  2: { intros [= <- <-]. by right. }
  destruct (Hps ps eq_refl) as [Hg Hf]. destruct ps as [|p ps].
  - apply Forall2_nil_inv_l in Hf. pose proof (blocks_concat MULTIPART_PART_SIZE (bytes_of r)) as Hb.
    rewrite Hf in Hb. cbn in Hb. rewrite <- Hb by done.
    destruct (abort_multipart_upload b k id s2) as [[u|e|] s3]; cbn [snd] in Ha;
      [|intros [= <- <-]; right; split; [done|by eapply unchanged_trans]..].
    intros [Hp|[Hx Hp]]%put_law.
    + left. split; [done|]. eapply unchanged_stored, Hp. by eapply unchanged_trans.
    + right. split; [done|]. eapply unchanged_trans, Hp. by eapply unchanged_trans.
  - intros [(bodies & Hf' & Hp)|[Hx Hp]]%complete_law.
    + left. split; [done|]. eapply unchanged_stored; [exact Hcu|].
      rewrite <- (blocks_concat MULTIPART_PART_SIZE (bytes_of r)) by done.
      replace (blocks_of MULTIPART_PART_SIZE (bytes_of r)) with bodies; [done|].
      eapply Forall2_functional; [|exact Hf'|exact Hf]. cbn. intros. congruence.
    + right. split; [done|]. by eapply unchanged_trans.
Qed.
End uploads.

(** ** What deletions do *)

Section deletions.
Context {St : Type} `{!ObjectStore St} (bucket_snapshots : bytes).

Lemma delete_page_effect keys n s x s' :
  delete_page bucket_snapshots keys n s = (x, s') ->
  (forall b k, objects s' b k = objects s b k \/
     (objects s' b k = None /\ b = bucket_snapshots /\ Some k ∈ keys)) /\
  (forall m, x = Ok m -> forall k, Some k ∈ keys -> objects s' bucket_snapshots k = None).
Proof.
  revert n s. induction keys as [|[key|] keys IH]; intros n s; cbn [delete_page].
  - intros [= <- <-]. split; [by left|]. intros m _ k Hk. by apply elem_of_nil in Hk.
  - unfold delete_object. destruct (s3_delete bucket_snapshots key s) as [y s1] eqn:E.
    apply delete_law in E.
    assert (Hstep : forall b k, objects s1 b k = objects s b k \/
      (objects s1 b k = None /\ b = bucket_snapshots /\ k = key)).
    { intros b k. destruct E as [E|[_ E]]; rewrite (E b k); [|by left]. case_bool_decide; naive_solver. }
    destruct y as [u|e|].
    2,3: intros [= <- <-]; split; [|done]; intros b k;
      destruct (Hstep b k) as [?|(? & ? & ->)]; [by left|right; set_solver].
    intros H2. apply IH in H2 as [Hk Hok]. split.
    + intros b k. destruct (Hk b k) as [->|(? & ? & ?)]; [|right; set_solver].
      destruct (Hstep b k) as [?|(? & ? & ->)]; [by left|right; set_solver].
    + intros m -> k [[= ->]|Hin]%elem_of_cons; [|by eapply Hok].
      destruct (Hk bucket_snapshots key) as [->|(? & _)]; [|done].
      destruct E as [E|[E _]]; [|by destruct u]. rewrite (E bucket_snapshots key). by rewrite bool_decide_true.
  - intros H2. apply IH in H2 as [Hk Hok]. split.
    + intros b k. destruct (Hk b k) as [?|(? & ? & ?)]; [by left|right; set_solver].
    + intros m -> k [[=]|Hin]%elem_of_cons. by eapply Hok.
Qed.

(** The pages delete nothing but keys under the prefix, and everything under it when
    they come to the end. *)
Lemma delete_pages_effect fuel prefix t n s x s' :
  (forall k, is_Some (objects s bucket_snapshots k) -> starts_with k prefix = true -> listed_after t k) ->
  delete_pages bucket_snapshots fuel prefix t n s = (x, s') ->
  (forall b k, objects s' b k = objects s b k \/
     (objects s' b k = None /\ b = bucket_snapshots /\ starts_with k prefix = true)) /\
  (forall m, x = Ok m -> forall k, starts_with k prefix = true -> objects s' bucket_snapshots k = None).
Proof.
  revert t n s. induction fuel as [|fuel IH]; intros t n s Ht; cbn [delete_pages].
  { intros [= <- <-]. split; [by left|done]. }
  destruct (list_objects_v2 _ _ _ _) as [[[page next] tr]|e|] eqn:El;
    [|intros [= <- <-]; split; [by left|done]..].
  apply list_law in El as [Hpre Hall].
  destruct (delete_page bucket_snapshots page n s) as [y s1] eqn:Ed.
  apply delete_page_effect in Ed as [Hk Hdel].
  assert (Hk1 : forall b k, objects s1 b k = objects s b k \/
    (objects s1 b k = None /\ b = bucket_snapshots /\ starts_with k prefix = true)).
  { intros b k. destruct (Hk b k) as [?|(? & ? & ?)]; [by left|right; auto]. }
  destruct y as [m|e|]; [|intros [= <- <-]; split; [done|done]..].
  assert (Hrest : forall k, is_Some (objects s1 bucket_snapshots k) -> starts_with k prefix = true ->
    tr = Some true /\ exists t', next = Some t' /\ listed_after (Some t') k).
  { intros k Hs Hp. destruct (Hk1 bucket_snapshots k) as [Heq|(Hn & _)]; [|rewrite Hn in Hs; by destruct Hs].
    rewrite Heq in Hs. destruct (Hall k Hs Hp (Ht k Hs Hp)) as [Hin|?]; [|done].
    rewrite <- Heq, (Hdel m) in Hs by done. by destruct Hs. }
  assert (Hend : forall z s2, (Ok z, s1) = (x, s2) -> ~ (exists t', next = Some t' /\ tr = Some true) ->
    x = Ok z /\ s2 = s1 /\ forall k, starts_with k prefix = true -> objects s1 bucket_snapshots k = None).
  { intros z s2 [= <- <-] Hno. split_and!; [done..|]. intros k Hp.
    destruct (objects s1 bucket_snapshots k) eqn:Eo; [|done]. destruct (Hrest k) as (? & t' & ? & _); eauto.
    destruct Hno. eauto. }
  destruct next as [t'|].
  2: { intros H1. apply Hend in H1 as (-> & -> & H1); [|naive_solver]. split; [done|eauto]. }
  case_bool_decide as Htr.
  2: { intros H1. apply Hend in H1 as (-> & -> & H1); [|naive_solver]. split; [done|eauto]. }
  intros H1. apply IH in H1 as [H1 H2].
  - split; [|done]. intros b k. destruct (H1 b k) as [->|?]; [apply Hk1|by right].
  - intros k Hs Hp. destruct (Hrest k Hs Hp) as (_ & t2 & [= <-] & ?). done.
Qed.
End deletions.

(** ** A store in memory *)

Record memory_store := mkStore {
  ms_objects : gmap (bytes * bytes) bytes;
  ms_parts : gmap (bytes * Z) (bytes * bytes);
  ms_next : Z }.

Definition keys_under (bucket prefix : bytes) (s : memory_store) : list (option bytes) :=
  omap (fun kv => if bool_decide (kv.1.1 = bucket) && starts_with kv.1.2 prefix
                  then Some (Some kv.1.2) else None) (map_to_list (ms_objects s)).

Definition part_body (s : memory_store) (upload_id : bytes) (p : Z * bytes) : option bytes :=
  '(tag, body) ← ms_parts s !! (upload_id, p.1);
  if bool_decide (tag = p.2) then Some body else None.

Lemma insert_stored (m : gmap (bytes * bytes) bytes) b k v :
  stored (fun b k => m !! (b, k)) b k (Some v) (fun b' k' => <[(b, k) := v]> m !! (b', k')).
Proof.
  intros b' k'. case_bool_decide as Hd; [destruct Hd as [-> ->]; apply lookup_insert_eq|].
  apply lookup_insert_ne. naive_solver.
Qed.

Lemma delete_stored (m : gmap (bytes * bytes) bytes) b k :
  stored (fun b k => m !! (b, k)) b k None (fun b' k' => delete (b, k) m !! (b', k')).
Proof.
  intros b' k'. case_bool_decide as Hd; [destruct Hd as [-> ->]; apply lookup_delete_eq|].
  apply lookup_delete_ne. naive_solver.
Qed.

#[global, refine] Instance memory_object_store : ObjectStore memory_store := {
  objects s b k := ms_objects s !! (b, k);
  parts s id n := ms_parts s !! (id, n);
  listed_after _ _ := True;
  create_multipart_upload b k s :=
    (Ok (Some (dec (ms_next s))), mkStore (ms_objects s) (ms_parts s) (ms_next s + 1));
  upload_part b k id n body s :=
    (Ok (Some (dec n)), mkStore (ms_objects s) (<[(id, n) := (dec n, body)]> (ms_parts s)) (ms_next s));
  complete_multipart_upload b k id l s :=
    match mapM (part_body s id) l with
    | Some bodies =>
        (Ok tt, mkStore (<[(b, k) := concat bodies]> (ms_objects s)) (ms_parts s) (ms_next s))
    | None => (Err "InvalidPart", s)
    end;
  abort_multipart_upload b k id s := (Ok tt, s);
  put_object b k body s := (Ok tt, mkStore (<[(b, k) := body]> (ms_objects s)) (ms_parts s) (ms_next s));
  get_object b k s :=
    match ms_objects s !! (b, k) with
    | Some [] => Ok []
    | Some body => Ok [Some body]
    | None => Err "NoSuchKey"
    end;
  s3_delete b k s := (Ok tt, mkStore (delete (b, k) (ms_objects s)) (ms_parts s) (ms_next s));
  list_objects_v2 b prefix _ s := Ok (keys_under b prefix s, None, Some false) }.
Proof.
  - done.
  - done.
  - intros b k id n body s s' tag [= <- <-]. cbn. split; [apply lookup_insert_eq|].
    intros n' Hn. apply lookup_insert_ne. naive_solver.
  - done.
  - intros b k id l s x s'. destruct (mapM _ _) as [bodies|] eqn:E; intros [= <- <-]; [left|by right].
    exists bodies. split; [|apply insert_stored]. apply mapM_Some in E.
    eapply Forall2_impl; [exact E|]. intros [n tag] body. unfold part_body. cbn.
    destruct (ms_parts s !! (id, n)) as [[t bd]|]; cbn; [|done]. case_bool_decide; naive_solver.
  - intros b k body s x s' [= <- <-]. left. apply insert_stored.
  - intros b k s x s' [= <- <-]. left. apply delete_stored.
  - intros b k s r. destruct (ms_objects s !! (b, k)) as [[|z body]|] eqn:E; intros [= <-].
    + split; [constructor|done].
    + split; [by repeat constructor|]. cbn. by rewrite app_nil_r.
  - done.
  - intros b prefix t s page next tr [= <- <- <-]. split.
    + intros k Hk. unfold keys_under in Hk. apply list_elem_of_omap in Hk as ([[b' k'] v] & _ & Hk).
      cbn in Hk. destruct (bool_decide _ && _)%bool eqn:E; [|done]. injection Hk as <-.
      by apply andb_true_iff in E as [_ ->].
    + intros k [v Hv] Hp _. left. unfold keys_under. apply list_elem_of_omap.
      exists ((b, k), v). split; [by apply elem_of_map_to_list|]. cbn. by rewrite bool_decide_true, Hp.
Defined.

(** ** Claims *)

(** Uploads are atomic.  [upload_stream] reads a stream of any length, delivered in
    pieces of any size, in parts: when it succeeds the object is the stream, to
    the byte; when it fails, whatever failed (the stream, a part, the completion),
    the object is what it was or the whole stream, never a part of it; no other
    object changes. *)
Theorem upload_stream_atomic {St} `{!ObjectStore St} bucket key stream (s : St) :
  lively stream ->
  let '(x, s') := upload_stream bucket key stream s in
  (x = Ok tt -> good stream /\ objects s' bucket key = Some (bytes_of stream)) /\
  (objects s' bucket key = objects s bucket key \/
   good stream /\ objects s' bucket key = Some (bytes_of stream)) /\
  (forall b k, (b, k) <> (bucket, key) -> objects s' b k = objects s b k).
Proof.
  intros Hl. destruct (upload_stream bucket key stream s) as [x s'] eqn:E.
  apply upload_stream_effect in E as [[Hg Hs]|[Hx Hu]]; [| |done].
  - pose proof (Hs bucket key) as Hk. rewrite bool_decide_true in Hk by done.
    split_and!; [done|by right|]. intros b k Hne. rewrite (Hs b k), bool_decide_false; [done|]. by intros [-> ->].
  - split_and!; [done|by left|]. intros b k _. apply Hu.
Qed.

Definition empty_store : memory_store := mkStore ∅ ∅ 0.

Lemma upload_stream_atomic_witness :
  let '(x, s') := upload_stream (B "b") (B "k") [Some (B "ab"); Some (B "c")] empty_store in
  x = Ok tt /\ objects s' (B "b") (B "k") = Some (B "abc").
Proof.
  pose proof (upload_stream_atomic (B "b") (B "k") [Some (B "ab"); Some (B "c")] empty_store) as Hw.
  assert (Hx : (upload_stream (B "b") (B "k") [Some (B "ab"); Some (B "c")] empty_store).1 = Ok tt)
    by (vm_compute; reflexivity).
  destruct (upload_stream _ _ _ _) as [x s']. cbn in Hx. subst x. split; [done|].
  apply Hw; [by repeat constructor|done].
Defined.

(** A suspension's file survives S3.  A file uploaded by [upload_snapshot_file] and
    read back by [download_snapshot_to_file] once the service answers for its
    compressed object is the same file, to the byte, and only the blocks that are not
    all zeros were written to it. *)
Theorem snapshot_roundtrip {St} `{!ObjectStore St} encoder decoder bucket prefix filename r (s s' : St) r2 :
  (forall r r2, good r -> good r2 -> bytes_of r2 = bytes_of (encoder r) ->
     good (decoder r2) /\ bytes_of (decoder r2) = bytes_of r) ->
  (forall r, lively r -> lively (encoder r)) ->
  good r ->
  upload_snapshot_file encoder bucket prefix filename (Ok r) s = (Ok tt, s') ->
  get_object bucket (snapshot_key prefix (filename ++ COMPRESSED_SUFFIX)) s' = Ok r2 -> good r2 ->
  exists f, download_snapshot_to_file decoder bucket prefix filename s' = Ok f /\
    f_bytes f = bytes_of r /\
    f_writes f = filter (fun b => all_zero b = false) (blocks_of COPY_BLOCK (bytes_of r)).
Proof.
  intros Hzstd Henc Hg Hup Hget Hg2. unfold upload_snapshot_file in Hup.
  apply upload_stream_effect in Hup as [[_ Hs]|[Hx _]]; [|done|by apply Henc, good_lively].
  specialize (Hs bucket (snapshot_key prefix (filename ++ COMPRESSED_SUFFIX))).
  rewrite bool_decide_true in Hs by done.
  destruct (get_law _ _ _ _ Hget) as [_ Hr2]. rewrite (Hr2 Hg2) in Hs. injection Hs as Hs.
  destruct (Hzstd r r2 Hg Hg2 Hs) as [Hd Hb].
  unfold download_snapshot_to_file, download_stream. rewrite Hget. cbn [mbind res_bind].
  destruct (copy_sparse_good _ Hd) as (f & -> & Hf & Hw). cbn [mbind res_bind]. exists f.
  rewrite Hb in *. by split_and!.
Qed.

(** A codec that marks the stream with zstd's magic number. *)
Definition mark (r : reader) : reader := Some [40; 181; 47; 253] :: r.
Definition unmark (r : reader) : reader :=
  match drop 4 (bytes_of r) with [] => [] | d => [Some d] end.

Lemma unmark_mark r r2 :
  good r -> good r2 -> bytes_of r2 = bytes_of (mark r) ->
  good (unmark r2) /\ bytes_of (unmark r2) = bytes_of r.
Proof.
  intros _ _ Hb. unfold unmark. rewrite Hb. unfold mark. rewrite bytes_of_cons.
  cbn [default from_option id app]. change (drop 4 _) with (bytes_of r).
  destruct (bytes_of r) as [|z d]; [split; [constructor|done]|].
  split; [apply good_cons; [done|constructor]|]. cbn. by rewrite app_nil_r.
Qed.

Lemma snapshot_roundtrip_witness :
  let r := [Some [1; 2]; Some [0; 3]] in
  let up := upload_snapshot_file mark (B "snapshots") (B "ns/w") (B "snapshot.mem") (Ok r) empty_store in
  exists f, download_snapshot_to_file unmark (B "snapshots") (B "ns/w") (B "snapshot.mem") up.2 = Ok f /\
    f_bytes f = [1; 2; 0; 3] /\ f_writes f = [[1; 2; 0; 3]].
Proof.
  intros r up.
  apply (snapshot_roundtrip mark unmark (B "snapshots") (B "ns/w") (B "snapshot.mem") r empty_store up.2
    [Some ([40; 181; 47; 253] ++ [1; 2; 0; 3])]).
  - exact unmark_mark.
  - intros r0 Hr0. by constructor.
  - repeat (apply good_cons; [done|]). constructor.
  - vm_compute. reflexivity.
  - vm_compute. reflexivity.
  - apply good_cons; [done|constructor].
Defined.

(** The deletion of a Workshop's snapshots.  Whatever the pages the service lists
    and wherever it stops, [delete_snapshot_prefix] deletes nothing outside the
    directory it is given ([ns/w1] does not touch [ns/w10]), and when it succeeds
    nothing is left under it. *)
Theorem delete_prefix_exact {St} `{!ObjectStore St} bucket fuel prefix (s : St) :
  let '(x, s') := delete_snapshot_prefix bucket fuel prefix s in
  (forall b k, ~ (b = bucket /\ starts_with k (list_prefix_of prefix) = true) ->
     objects s' b k = objects s b k) /\
  (forall n, x = Ok n -> forall k, starts_with k (list_prefix_of prefix) = true -> objects s' bucket k = None).
Proof.
  destruct (delete_snapshot_prefix bucket fuel prefix s) as [x s'] eqn:E.
  unfold delete_snapshot_prefix in E. apply delete_pages_effect in E as [H1 H2].
  - split; [|done]. intros b k Hn. destruct (H1 b k) as [?|(_ & ? & ?)]; [done|]. by destruct Hn.
  - intros k _ _. apply listed_first.
Qed.

Lemma delete_prefix_exact_witness :
  let s := mkStore {[(B "s", B "ns/w1/a") := B "x"; (B "s", B "ns/w10/a") := B "y"]} ∅ 0 in
  let '(x, s') := delete_snapshot_prefix (B "s") 2 (B "ns/w1/") s in
  x = Ok 1%nat /\ objects s' (B "s") (B "ns/w1/a") = None /\ objects s' (B "s") (B "ns/w10/a") = Some (B "y").
Proof.
  intros s. pose proof (delete_prefix_exact (B "s") 2 (B "ns/w1/") s) as Hw.
  assert (Hx : (delete_snapshot_prefix (B "s") 2 (B "ns/w1/") s).1 = Ok 1%nat) by (vm_compute; reflexivity).
  destruct (delete_snapshot_prefix _ _ _ _) as [x s']. cbn in Hx. subst x. destruct Hw as [H1 H2].
  split_and!; [done|by apply (H2 1%nat)|]. rewrite H1; [vm_compute; reflexivity|].
  intros [_ Hp]. vm_compute in Hp. done.
Defined.
