(* ===== verification/VmSupervisor.v ===== *)
(** * vm-supervisor: snapshots and the control loop

    [crates/vm-supervisor/src/main.rs]: the publication of a snapshot's three
    files in the cache, their copy to S3 and back, the choice made at startup, and
    the loop that serves the control channel.  The cache directory and the bucket
    are finite maps; a sequence of file operations interrupted at any point (the
    pod is deleted) has run a prefix.  What the microVM and S3 answer are
    arguments. *)

From S2P Require Import Prelude RustStr.

(** ** The files *)

(** [struct SnapshotFiles], and the temporary names of [snapshot_and_publish]. *)
Inductive fname := FState | FMem | FDisk | TmpState | TmpMem | TmpDisk.

#[global] Instance fname_eq_dec : EqDecision fname.
Proof. solve_decision. Defined.
Definition fname_code (f : fname) : nat :=
  match f with FState => 0 | FMem => 1 | FDisk => 2 | TmpState => 3 | TmpMem => 4 | TmpDisk => 5 end.
#[global] Instance fname_countable : Countable fname.
Proof.
  apply (inj_countable' fname_code
    (fun n => match n with
              | 0 => FState | 1 => FMem | 2 => FDisk | 3 => TmpState | 4 => TmpMem | _ => TmpDisk
              end)%nat).
  by intros [].
Defined.

(** What a file holds: a part of a suspension, the whole of it or not. *)
Record content := mkContent { suspension : nat; whole : bool }.

Abbreviation dir := (gmap fname content).

(** File operations. *)
Inductive fs_op :=
| Write (f : fname) (c : content)
| Remove (f : fname)
| Rename (f g : fname).

Definition apply_op (d : dir) (op : fs_op) : dir :=
  match op with
  | Write f c => <[f := c]> d
  | Remove f => delete f d
  | Rename f g => match d !! f with Some c => <[g := c]> (delete f d) | None => d end
  end.
Definition run_ops (ops : list fs_op) (d : dir) : dir := fold_left apply_op ops d.

(** [fn complete], [fn without_disk]. *)
Definition complete (d : dir) : bool :=
  bool_decide (is_Some (d !! FState)) && bool_decide (is_Some (d !! FMem)) &&
  bool_decide (is_Some (d !! FDisk)).
Definition without_disk (d : dir) : bool :=
  bool_decide (is_Some (d !! FState)) && bool_decide (is_Some (d !! FMem)) &&
  negb (bool_decide (is_Some (d !! FDisk))).

(** [fn named]: the state first, the disk last. *)
Definition named : list fname := [FState; FMem; FDisk].

(** [fn remove]. *)
Definition remove_ops : list fs_op := Remove <$> named.

(** A copy: the file exists, incomplete, before it is whole. *)
Definition copy_ops (f : fname) (g : nat) : list fs_op :=
  [Write f (mkContent g false); Write f (mkContent g true)].

(** The file operations of [snapshot_and_publish] for suspension [g]. *)
Definition publish_ops (g : nat) : list fs_op :=
  copy_ops TmpDisk g ++ copy_ops TmpState g ++ copy_ops TmpMem g ++
  [Remove FState; Rename TmpDisk FDisk; Rename TmpMem FMem; Rename TmpState FState].

(** ** S3 *)

(** An object's key: the name, compressed ([.zst]) or in the old form.  An upload is one
    operation: it stores the whole file or nothing ([Storage.upload_stream_effect]). *)
Abbreviation bucket := (gmap (fname * bool) content).

Inductive s3_op :=
| DeleteObject (k : fname * bool)
| PutObject (k : fname * bool) (c : content).
Definition apply_s3 (b : bucket) (op : s3_op) : bucket :=
  match op with
  | DeleteObject k => delete k b
  | PutObject k c => <[k := c]> b
  end.
Definition run_s3 (ops : list s3_op) (b : bucket) : bucket := fold_left apply_s3 ops b.

(** How S3 answers the requests of one download: both, only the one for the old
    form (any error of the first leads to the second), or not to the end. *)
Inductive answers := Answers | FirstFails | AllFail.

(** What [download_snapshot_to_file] reads: the compressed form, else the old. *)
Definition s3_view (b : bucket) (a : answers) (f : fname) : option content :=
  match a with
  | Answers => match b !! (f, true) with Some c => Some c | None => b !! (f, false) end
  | FirstFails => b !! (f, false)
  | AllFail => None
  end.

(** [fn offload_snapshot]: [delete_snapshot_file] of the state, then the uploads,
    the state last.  It is called on whole published files of one suspension. *)
Definition offload_ops (g : nat) : list s3_op :=
  [DeleteObject (FState, false); DeleteObject (FState, true)] ++
  ((fun f => PutObject (f, true) (mkContent g true)) <$> drop 1 named ++ take 1 named).

(** [download_snapshot_to_file]: [File::create] at the destination, then the copy. *)
Definition download_ops (b : bucket) (a : answers) (f : fname) : option (list fs_op) :=
  c ← s3_view b a f; Some [Write f (mkContent (suspension c) false); Write f c].

(** The S3 fallback of [main]: downloads in the order of [named], stopping at the
    first that fails, everything removed in that case. *)
Fixpoint fallback_ops (b : bucket) (a : fname -> answers) (fs : list fname) : list fs_op :=
  match fs with
  | [] => []
  | f :: r =>
      match download_ops b (a f) f with
      | Some ops => ops ++ fallback_ops b a r
      | None => remove_ops
      end
  end.
Definition s3_fallback (b : bucket) (a : fname -> answers) (d : dir) : list fs_op :=
  if complete d then [] else fallback_ops b a named.

(** The [match] that boots the microVM. *)
Inductive startup := Restore (state mem disk : content) | ColdBoot.
Definition start_vm (d : dir) : startup :=
  match d !! FState, d !! FMem, d !! FDisk with
  | Some s, Some m, Some k => Restore s m k
  | _, _, _ => ColdBoot
  end.

(** ** The control loop *)

Inductive action :=
| FreezeEgress          (* network.lockdown_egress() *)
| Snapshot              (* snapshot_and_publish *)
| Respond (ok : bool)
| MarkLocked            (* locked_down.store(true) *)
| Shutdown
| Teardown.

#[global] Instance action_eq_dec : EqDecision action.
Proof. solve_decision. Defined.

(** What the loop waits for: a request, the end of the channel, or the poll of
    the microVM's state. *)
Inductive loop_input :=
| Request (lockdown snapshot_ok : bool)
| ChannelClosed
| Poll (running : option bool).

(** One round of the [select!]: the actions, and whether the loop goes on.  The
    actions after the loop ([shutdown], [teardown]) are part of the round that
    leaves it. *)
Definition loop_round (input : loop_input) : list action * bool :=
  match input with
  | Request lockdown snapshot_ok =>
      let acts := (if lockdown then [FreezeEgress] else []) ++ [Snapshot; Respond snapshot_ok] in
      if lockdown then (acts ++ [MarkLocked], true)
      else if snapshot_ok then (acts ++ [Shutdown; Teardown], false)
      else (acts, true)
  | ChannelClosed => ([Shutdown; Teardown], false)
  | Poll (Some true) => ([], true)
  | Poll _ => ([Shutdown; Teardown], false)
  end.
Fixpoint control_loop (inputs : list loop_input) : list action :=
  match inputs with
  | [] => []
  | i :: r => let '(acts, go_on) := loop_round i in acts ++ (if go_on then control_loop r else [])
  end.

(** ** Boot arguments *)

(** [fn prefix_to_netmask], as a [u32]; [u32::MAX << n] keeps 32 bits. *)
Definition prefix_to_netmask (prefix_len : Z) : Z :=
  if prefix_len =? 0 then 0 else Z.shiftl U32_MAX (32 - prefix_len) mod (U32_MAX + 1).

(** [Display] of an [Ipv4Addr] of four bytes, and [Ipv4Addr::from(u32)]. *)
Definition show_ip (ip : Z * Z * Z * Z) : bytes :=
  let '(a, b, c, d) := ip in dec a ++ B "." ++ dec b ++ B "." ++ dec c ++ B "." ++ dec d.
Definition ip_of_u32 (n : Z) : Z * Z * Z * Z :=
  (Z.shiftr n 24 mod 256, Z.shiftr n 16 mod 256, Z.shiftr n 8 mod 256, n mod 256).

(** [fn kernel_ip_boot_arg]. *)
Definition kernel_ip_boot_arg (guest_ip host_ip : Z * Z * Z * Z) (network_length : Z)
    (iface_id : bytes) : bytes :=
  B "ip=" ++ show_ip guest_ip ++ B "::" ++ show_ip host_ip ++ B ":" ++
  show_ip (ip_of_u32 (prefix_to_netmask network_length)) ++ B "::" ++ iface_id ++ B ":off".

(** ** Interrupted publications *)

(** The three files of one suspension, whole. *)
Definition one_suspension (s m k : content) : Prop :=
  exists g, s = mkContent g true /\ m = mkContent g true /\ k = mkContent g true.

(** Whatever [start_vm] would restore from [d] is one whole suspension. *)
Definition sound (d : dir) : Prop :=
  forall s m k, start_vm d = Restore s m k -> one_suspension s m k.
(** Likewise what a fallback would read from the bucket, S3 answering each request. *)
Definition sound_bucket (b : bucket) : Prop :=
  forall s m k, s3_view b Answers FState = Some s -> s3_view b Answers FMem = Some m ->
    s3_view b Answers FDisk = Some k -> one_suspension s m k.

Lemma sound_no_state d : d !! FState = None -> sound d.
Proof. intros H s m k. unfold start_vm. by rewrite H. Qed.

Lemma sound_same d d' :
  d' !! FState = d !! FState -> d' !! FMem = d !! FMem -> d' !! FDisk = d !! FDisk ->
  sound d -> sound d'.
Proof. unfold sound, start_vm. by intros -> -> ->. Qed.

(** Lookups in the directories the operations produce. *)
Ltac dir_lookup :=
  repeat (rewrite lookup_insert_eq || (rewrite lookup_insert_ne by done) ||
          rewrite lookup_delete_eq || (rewrite lookup_delete_ne by done)).

Lemma publish_tmp d g n :
  (n <= 6)%nat -> sound d -> sound (run_ops (take n (publish_ops g)) d).
Proof.
  intros Hn. do 7 (destruct n as [|n]; [apply sound_same; cbn; by dir_lookup|]). lia.
Qed.

Lemma publish_no_state d g n :
  (7 <= n <= 9)%nat -> run_ops (take n (publish_ops g)) d !! FState = None.
Proof.
  intros Hn. do 7 (destruct n as [|n]; [lia|]).
  do 3 (destruct n as [|n]; [cbn; by dir_lookup; repeat (case_match; dir_lookup)|]). lia.
Qed.

Lemma publish_all d g :
  let d' := run_ops (publish_ops g) d in
  d' !! FState = Some (mkContent g true) /\ d' !! FMem = Some (mkContent g true) /\
  d' !! FDisk = Some (mkContent g true).
Proof. cbn. dir_lookup. cbn. dir_lookup. cbn. dir_lookup. cbn. by dir_lookup. Qed.

Lemma sound_start d s m k :
  d !! FState = Some s -> d !! FMem = Some m -> d !! FDisk = Some k -> one_suspension s m k -> sound d.
Proof. intros Hs Hm Hk H s' m' k'. unfold start_vm. rewrite Hs, Hm, Hk. by intros [= <- <- <-]. Qed.

(** From the removal of the state on, what was there no longer matters. *)
Lemma publish_resets d g n : (6 < n)%nat -> sound (run_ops (take n (publish_ops g)) d).
Proof.
  intros Hn. destruct (decide (n <= 9)%nat); [apply sound_no_state, publish_no_state; lia|].
  rewrite take_ge by (cbn; lia). destruct (publish_all d g) as (Hs & Hm & Hk).
  eapply sound_start; [done..|]. by exists g.
Qed.
Lemma publish_sound d g n : sound d -> sound (run_ops (take n (publish_ops g)) d).
Proof.
  intros Hd. destruct (decide (n <= 6)%nat); [by apply publish_tmp|]. apply publish_resets. lia.
Qed.

Lemma offload_sound b g n : sound_bucket b -> sound_bucket (run_s3 (take n (offload_ops g)) b).
Proof.
  intros Hb. destruct n as [|n]; [done|].
  destruct n as [|n].
  { intros s m k. cbn. dir_lookup. intros Hs Hm Hk. apply Hb; [|done..]. unfold s3_view. by destruct (b !! (FState, true)). }
  do 3 (destruct n as [|n]; [intros s m k; cbn; by dir_lookup|]).
  rewrite take_ge by (cbn; lia). intros s m k. cbn. dir_lookup. intros [= <-] [= <-] [= <-]. by exists g.
Qed.

Lemma run_ops_app a b d : run_ops (a ++ b) d = run_ops b (run_ops a d).
Proof. apply fold_left_app. Qed.

Lemma removed_sound d : sound (run_ops remove_ops d).
Proof. apply sound_no_state. cbn. by dir_lookup. Qed.

(** A download that is not interrupted, and takes the old form of a file only when S3 has no
    other. *)
Definition answers_ok (b : bucket) (a : fname -> answers) : Prop := forall f, a f = FirstFails -> b !! (f, false) = None.
Lemma download_run b a f ops d :
  answers_ok b a -> download_ops b (a f) f = Some ops ->
  exists c, s3_view b Answers f = Some c /\ run_ops ops d = <[f := c]> d.
Proof.
  intros Ho. unfold download_ops. intros Hd.
  assert (Hv : exists c, s3_view b (a f) f = Some c /\ ops = [Write f (mkContent (suspension c) false); Write f c]).
  { destruct (s3_view b (a f) f) as [c|]; [|done]. exists c. split; [done|]. by injection Hd. }
  destruct Hv as (c & Hv & ->). exists c. split; [|apply insert_insert_eq].
  unfold s3_view in Hv. destruct (a f) eqn:Ea; [done| |done]. by rewrite (Ho f Ea) in Hv.
Qed.

Lemma fallback_sound b a d :
  sound_bucket b -> answers_ok b a -> (complete d = true -> sound d) -> sound (run_ops (s3_fallback b a d) d).
Proof.
  intros Hb Ho Hd. unfold s3_fallback. destruct (complete d); [by apply Hd|]. clear Hd.
  cbn [named fallback_ops].
  destruct (download_ops b (a FState) FState) as [o1|] eqn:E1; [|apply removed_sound].
  rewrite run_ops_app. apply (download_run _ _ _ _ d Ho) in E1 as (s & Hs & ->).
  destruct (download_ops b (a FMem) FMem) as [o2|] eqn:E2; [|apply removed_sound].
  rewrite run_ops_app. apply (download_run _ _ _ _ (<[FState := s]> d) Ho) in E2 as (m & Hm & ->).
  destruct (download_ops b (a FDisk) FDisk) as [o3|] eqn:E3; [|apply removed_sound].
  rewrite run_ops_app.
  apply (download_run _ _ _ _ (<[FMem := m]> (<[FState := s]> d)) Ho) in E3 as (k & Hk & ->).
  eapply sound_start; [cbn; by dir_lookup..|]. by apply (Hb s m k).
Qed.

(** The life of the store: publications, copies to S3 and startups, each interrupted
    anywhere.  The flag tells a cache that may hold a mixture: a fallback to S3 was
    interrupted in it, or was answered otherwise than [answers_ok], and neither a publication
    that got as far as removing the old state nor a whole fallback came after. *)
Inductive store_step : dir * bucket * bool -> dir * bucket * bool -> Prop :=
| store_publish d b x g n : store_step (d, b, x) (run_ops (take n (publish_ops g)) d, b, x && (n <=? 6)%nat)
| store_offload d b x g n :
    d !! FState = Some (mkContent g true) -> d !! FMem = Some (mkContent g true) ->
    d !! FDisk = Some (mkContent g true) ->
    store_step (d, b, x) (d, run_s3 (take n (offload_ops g)) b, x)
| store_startup d b x a : answers_ok b a -> store_step (d, b, x) (run_ops (s3_fallback b a d) d, b, x && complete d)
| store_startup_cut d b x a n :
    store_step (d, b, x) (run_ops (take n (s3_fallback b a d)) d, b, x || negb (complete d)).

Definition store_ok (st : dir * bucket * bool) : Prop := (st.2 = false -> sound st.1.1) /\ sound_bucket st.1.2.

Lemma store_step_sound st st' : store_step st st' -> store_ok st -> store_ok st'.
Proof.
  unfold store_ok. destruct 1 as [d b x g n|d b x g n _ _ _|d b x a Ha|d b x a n]; cbn [fst snd]; intros [Hd Hb]; (split; [|auto using offload_sound]).
  - intros Hx. destruct (Nat.leb_spec n 6); [apply publish_sound, Hd; by destruct x|by apply publish_resets].
  - done.
  - intros Hx. apply fallback_sound; [done..|]. intros Hc. apply Hd. rewrite Hc in Hx. by destruct x.
  - intros [-> Hc%negb_false_iff]%orb_false_iff. unfold s3_fallback. rewrite Hc, take_nil. by apply Hd.
Qed.

Lemma store_reachable_sound st st' : rtc store_step st st' -> store_ok st -> store_ok st'.
Proof. induction 1; eauto using store_step_sound. Qed.

(** ** Claims *)

(** C27: crash consistency of suspensions.  From a cache and a bucket that each hold one
    suspension or none (in the old form or not), through any history of publications, copies to
    S3 and startups, each interrupted at any file operation, a microVM is restored from the
    state, the memory and the disk of one and the same suspension, each of them whole, unless
    the flag is up: a fallback to S3 was itself interrupted in this cache, or had an old form
    for a file S3 failed to give ([fallback_interrupted], [fallback_old_form]).  Whatever
    happened before, a publication that is not interrupted is the one restored, a later
    publication that removed the old state leaves no mixture, and neither does a later
    fallback that S3 answers and that is not interrupted; and the copy in S3 is always of one
    suspension. *)
Theorem suspension_consistent d0 b0 d b x g n a :
  sound d0 -> sound_bucket b0 -> rtc store_step (d0, b0, false) (d, b, x) ->
  (forall s m k, x = false -> start_vm d = Restore s m k -> one_suspension s m k) /\
  start_vm (run_ops (publish_ops g) d) = Restore (mkContent g true) (mkContent g true) (mkContent g true) /\
  ((6 < n)%nat -> sound (run_ops (take n (publish_ops g)) d)) /\
  (complete d = false -> answers_ok b a -> sound (run_ops (s3_fallback b a d) d)) /\
  sound_bucket b.
Proof.
  intros H0 Hb0 Hr. destruct (store_reachable_sound _ _ Hr) as [Hd Hb]; [by split|]. cbn [fst snd] in *. split_and!; [| | | |done].
  - intros s m k Hx. by apply Hd.
  - unfold start_vm. by destruct (publish_all d g) as (-> & -> & ->).
  - apply publish_resets.
  - intros Hc Ha. apply fallback_sound; [done..|]. by rewrite Hc.
Qed.

(** A publication, its copy to S3, a publication interrupted while the files take their names,
    and a startup that an outage interrupts: the flag is up, and the next publication is
    restored all the same. *)
Lemma suspension_consistent_witness :
  let d := run_ops (take 8 (publish_ops 2)) (run_ops (publish_ops 1) ∅) in
  let b := run_s3 (offload_ops 1) ∅ in
  (forall s m k, start_vm d = Restore s m k -> one_suspension s m k) /\
  start_vm (run_ops (publish_ops 3) (run_ops (take 2 (s3_fallback b (fun _ => Answers) d)) d)) =
    Restore (mkContent 3 true) (mkContent 3 true) (mkContent 3 true) /\
  sound (run_ops (s3_fallback b (fun _ => Answers) d) d).
Proof.
  intros d b.
  assert (H1 : rtc store_step (∅, ∅, false) (d, b, false)).
  { eapply rtc_l; [apply (store_publish ∅ ∅ false 1 100)|].
    eapply rtc_l; [apply (store_offload _ ∅ false 1 100); vm_compute; reflexivity|].
    apply rtc_once. exact (store_publish (run_ops (publish_ops 1) ∅) b false 2 8). }
  assert (H2 : rtc store_step (∅, ∅, false) (run_ops (take 2 (s3_fallback b (fun _ => Answers) d)) d, b, true)).
  { eapply rtc_r; [exact H1|]. exact (store_startup_cut d b false (fun _ => Answers) 2). }
  assert (Hs : sound (∅ : dir)) by (by apply sound_no_state).
  assert (Hb : sound_bucket ∅) by (intros s m k; unfold s3_view; by rewrite !lookup_empty).
  destruct (suspension_consistent ∅ ∅ _ _ _ 3 0 (fun _ => Answers) Hs Hb H1) as (H & _ & _ & Hf & _).
  destruct (suspension_consistent ∅ ∅ _ _ _ 3 0 (fun _ => Answers) Hs Hb H2) as (_ & H' & _).
  split; [intros s m k; by apply H|]. split; [exact H'|]. by apply Hf; [vm_compute; reflexivity|].
Defined.

(** The S3 fallback writes at the final names, the state first, with [File::create]
    before the copy: interrupted during the last download, it leaves three files
    that the next startup takes for a snapshot, with a truncated disk; interrupted
    after the first one, beside what an interrupted publication left, it leaves the
    state of one suspension with the memory and the disk of another. *)
Lemma fallback_interrupted :
  let b := run_s3 (offload_ops 1) ∅ in
  start_vm (run_ops (take 5 (s3_fallback b (fun _ => Answers) ∅)) ∅) =
    Restore (mkContent 1 true) (mkContent 1 true) (mkContent 1 false) /\
  let d := run_ops (take 9 (publish_ops 2)) (run_ops (publish_ops 1) ∅) in
  start_vm d = ColdBoot /\
  start_vm (run_ops (take 2 (s3_fallback b (fun _ => Answers) d)) d) =
    Restore (mkContent 1 true) (mkContent 2 true) (mkContent 2 true).
Proof. split; [vm_compute; reflexivity|]. split; vm_compute; reflexivity. Qed.

(** [offload_snapshot] leaves the memory and the disk of the old form in place, and a
    download that cannot get the compressed object takes the old one whatever the
    error: with a bucket that still holds an uncompressed suspension, one failed
    request restores the state of one suspension with the memory of another. *)
Lemma fallback_old_form :
  let old := mkContent 1 true in
  let b := run_s3 (offload_ops 2) {[(FState, false) := old; (FMem, false) := old; (FDisk, false) := old]} in
  start_vm (run_ops (s3_fallback b (fun f => if decide (f = FMem) then FirstFails else Answers) ∅) ∅) =
    Restore (mkContent 2 true) (mkContent 1 true) (mkContent 2 true).
Proof. vm_compute. reflexivity. Qed.
