(* ===== verification/Firewall.v ===== *)
(** * The packet filter of the microVM's link

    [crates/firecracker/src/network.rs]: the TAP link of a microVM and the rules
    set on it, so that the only thing the guest can reach is net-proxy.  The
    functions are the sequences of [iptables] commands they run; [iptables] and the
    kernel's filter are a parameter, the class [Netfilter], whose laws are their
    documented behaviour (what a command does to a chain, first match wins). *)

From S2P Require Import Prelude RustStr VmSupervisor.

(** ** Commands *)

Inductive proto := PTcp | PUdp.
Inductive table := TFilter | TNat.

#[global] Instance proto_eq_dec : EqDecision proto.
Proof. solve_decision. Defined.
#[global] Instance table_eq_dec : EqDecision table.
Proof. solve_decision. Defined.

Inductive target :=
| Accept
| Drop
| Redirect (to_port : Z)
| Jump (chain : bytes).

#[global] Instance target_eq_dec : EqDecision target.
Proof. solve_decision. Defined.

(** A rule's matches ([-i], [-p], [-d], [--dport], [-m conntrack --ctstate
    ESTABLISHED,RELATED]) and target. *)
Record rule := mkRule {
  r_in : option bytes;
  r_proto : option proto;
  r_dst : option bytes;
  r_dport : option Z;
  r_established : bool;
  r_target : target }.

#[global] Instance rule_eq_dec : EqDecision rule.
Proof. solve_decision. Defined.

Inductive ipt :=
| NewChain (t : table) (c : bytes)
| Append (t : table) (c : bytes) (r : rule)
| InsertFirst (t : table) (c : bytes) (r : rule)
| DeleteRule (t : table) (c : bytes) (r : rule)
| Flush (t : table) (c : bytes)
| DeleteChain (t : table) (c : bytes).

(** The argument vectors of the source. *)
Definition opt_arg {A} (flag : string) (show : A -> bytes) (o : option A) : list bytes :=
  match o with Some a => [B flag; show a] | None => [] end.
Definition show_proto (p : proto) : bytes := match p with PTcp => B "tcp" | PUdp => B "udp" end.
Definition target_args (t : target) : list bytes :=
  match t with
  | Accept => [B "ACCEPT"]
  | Drop => [B "DROP"]
  | Redirect p => [B "REDIRECT"; B "--to-port"; dec p]
  | Jump c => [c]
  end.
Definition rule_args (r : rule) : list bytes :=
  opt_arg "-i" id (r_in r) ++ opt_arg "-p" show_proto (r_proto r) ++ opt_arg "-d" id (r_dst r) ++
  opt_arg "--dport" dec (r_dport r) ++
  (if r_established r then [B "-m"; B "conntrack"; B "--ctstate"; B "ESTABLISHED,RELATED"] else []) ++
  [B "-j"] ++ target_args (r_target r).
Definition table_args (t : table) : list bytes :=
  match t with TFilter => [] | TNat => [B "-t"; B "nat"] end.
Definition ipt_args (cmd : ipt) : list bytes :=
  match cmd with
  | NewChain t c => table_args t ++ [B "-N"; c]
  | Append t c r => table_args t ++ [B "-A"; c] ++ rule_args r
  | InsertFirst t c r => table_args t ++ [B "-I"; c; B "1"] ++ rule_args r
  | DeleteRule t c r => table_args t ++ [B "-D"; c] ++ rule_args r
  | Flush t c => table_args t ++ [B "-F"; c]
  | DeleteChain t c => table_args t ++ [B "-X"; c]
  end.

(** ** The functions of [NetworkSetup] *)

(** [struct NetworkSetup]. *)
Record NetworkSetup := mkNetwork {
  iface_id : bytes;
  tap_name : bytes;
  guest_mac : bytes;
  host_ip : Z * Z * Z * Z;
  guest_ip : Z * Z * Z * Z;
  network_length : Z }.

(** [format!("{:02x}", b)] of a byte. *)
Definition hex_digit (d : Z) : Z := if d <? 10 then 48 + d else 87 + d.
Definition hex02 (b : Z) : bytes := [hex_digit (b / 16); hex_digit (b mod 16)].

(** The [guest_mac] of [setup_link_local_tap]. *)
Definition guest_mac_of (subnet_index : Z) : bytes :=
  B "06:00:00:00:" ++ hex02 (Z.shiftr subnet_index 8 mod 256) ++ B ":" ++ hex02 (subnet_index mod 256).

(** [fn setup_link_local_tap]: the arguments of the [ip] commands it runs, and the
    network it describes.  [subnet index length] is [LinkLocalSubnet::new] of fctools
    with its first two host addresses and its [network_length]. *)
Definition setup_link_local_tap (subnet : Z -> Z -> option ((Z * Z * Z * Z) * (Z * Z * Z * Z) * Z))
    (tap : bytes) (subnet_index : Z) : option (list (list bytes) * NetworkSetup) :=
  if Nat.leb (length tap) 15 then
    '(host, guest, len) ← subnet subnet_index 30;
    Some ([[B "tuntap"; B "add"; tap; B "mode"; B "tap"];
           [B "addr"; B "add"; show_ip host ++ B "/" ++ dec len; B "dev"; tap];
           [B "link"; B "set"; tap; B "up"]],
          mkNetwork (B "eth0") tap (guest_mac_of subnet_index) host guest len)
  else None.

Definition iptables_chain_name (n : NetworkSetup) : bytes := B "atelier-vm-" ++ tap_name n.
Definition iptables_nat_chain_name (n : NetworkSetup) : bytes := B "atelier-vm-nat-" ++ tap_name n.

Definition INPUT : bytes := B "INPUT".
Definition FORWARD : bytes := B "FORWARD".
Definition PREROUTING : bytes := B "PREROUTING".

Definition from_tap (n : NetworkSetup) (t : target) : rule :=
  mkRule (Some (tap_name n)) None None None false t.
Definition accept_port (n : NetworkSetup) (p : proto) (port : Z) : rule :=
  mkRule None (Some p) (Some (show_ip (host_ip n))) (Some port) false Accept.
Definition established_rule : rule := mkRule None None None None true Accept.
Definition drop_all : rule := mkRule None None None None false Drop.
Definition redirect (p : proto) (dport to_port : Z) : rule :=
  mkRule None (Some p) None (Some dport) false (Redirect to_port).

(** The rules of the dedicated chain. *)
Definition chain_rules (n : NetworkSetup) (tcp_ports : list Z) : list rule :=
  [established_rule] ++ (accept_port n PTcp <$> tcp_ports) ++
  [accept_port n PUdp 53; accept_port n PTcp 53; drop_all].

(** [fn setup_dedicated_chain]. *)
Definition setup_dedicated_chain (n : NetworkSetup) (tcp_ports : list Z) : list ipt :=
  let chain := iptables_chain_name n in
  [NewChain TFilter chain] ++ (Append TFilter chain <$> chain_rules n tcp_ports) ++
  [Append TFilter INPUT (from_tap n (Jump chain)); Append TFilter FORWARD (from_tap n Drop)].

(** [fn restrict_to_net_proxy]. *)
Definition restrict_to_net_proxy (n : NetworkSetup) (net_proxy_port : Z) : list ipt :=
  setup_dedicated_chain n [net_proxy_port].

(** The ports [enable_transparent_gateway] accepts, and its redirections. *)
Definition gateway_ports (net_proxy_port http_port tls_port : Z) (metadata_port : option Z) : list Z :=
  [net_proxy_port; http_port; tls_port] ++ option_list metadata_port.
Definition nat_rules (http_port tls_port : Z) : list rule :=
  [redirect PTcp 80 http_port; redirect PTcp 443 tls_port; redirect PUdp 53 53; redirect PTcp 53 53].

(** [fn enable_transparent_gateway]. *)
Definition enable_transparent_gateway (n : NetworkSetup) (net_proxy_port http_port tls_port : Z)
    (metadata_port : option Z) : list ipt :=
  let nat_chain := iptables_nat_chain_name n in
  setup_dedicated_chain n (gateway_ports net_proxy_port http_port tls_port metadata_port) ++
  [NewChain TNat nat_chain] ++ (Append TNat nat_chain <$> nat_rules http_port tls_port) ++
  [Append TNat PREROUTING (from_tap n (Jump nat_chain))].

(** [fn lockdown_egress]. *)
Definition lockdown_egress (n : NetworkSetup) : list ipt :=
  [InsertFirst TFilter (iptables_chain_name n) drop_all].

(** [fn teardown], after the TAP's deletion; each command is best effort. *)
Definition teardown (n : NetworkSetup) : list ipt :=
  let chain := iptables_chain_name n in
  let nat_chain := iptables_nat_chain_name n in
  [DeleteRule TFilter INPUT (from_tap n (Jump chain)); DeleteRule TFilter FORWARD (from_tap n Drop);
   Flush TFilter chain; DeleteChain TFilter chain;
   DeleteRule TNat PREROUTING (from_tap n (Jump nat_chain)); Flush TNat nat_chain;
   DeleteChain TNat nat_chain].

(** ** The filter *)

(** A packet that arrives on an interface; [pk_established] is conntrack's view. *)
Record packet := mkPacket {
  pk_in : bytes;
  pk_proto : proto;
  pk_dst : bytes;
  pk_dport : Z;
  pk_established : bool }.

Definition opt_match {A} `{!EqDecision A} (o : option A) (a : A) : bool :=
  match o with Some x => bool_decide (x = a) | None => true end.
Definition matches (r : rule) (p : packet) : bool :=
  opt_match (r_in r) (pk_in p) && opt_match (r_proto r) (pk_proto p) &&
  opt_match (r_dst r) (pk_dst p) && opt_match (r_dport r) (pk_dport p) &&
  (negb (r_established r) || pk_established p).

(** The rules of every chain. *)
Abbreviation rulesets := (table -> bytes -> option (list rule)).

Definition set_chain (rs : rulesets) (t : table) (c : bytes) (l : option (list rule)) : rulesets :=
  fun t' c' => if bool_decide (t' = t /\ c' = c) then l else rs t' c'.

(** What a command that succeeds does, and when it can. *)
Fixpoint remove_first (r : rule) (l : list rule) : option (list rule) :=
  match l with
  | [] => None
  | x :: l => if bool_decide (x = r) then Some l else (x ::.) <$> remove_first r l
  end.
Definition effect (cmd : ipt) (rs : rulesets) : option rulesets :=
  match cmd with
  | NewChain t c => match rs t c with None => Some (set_chain rs t c (Some [])) | Some _ => None end
  | Append t c r => l ← rs t c; Some (set_chain rs t c (Some (l ++ [r])))
  | InsertFirst t c r => l ← rs t c; Some (set_chain rs t c (Some (r :: l)))
  | DeleteRule t c r => l ← rs t c; l' ← remove_first r l; Some (set_chain rs t c (Some l'))
  | Flush t c => _ ← rs t c; Some (set_chain rs t c (Some []))
  | DeleteChain t c => match rs t c with Some [] => Some (set_chain rs t c None) | _ => None end
  end.

(** The first rule that matches and decides; a jump to a chain that decides nothing
    returns to the next rule. *)
Fixpoint first_match (jump : bytes -> option target) (l : list rule) (p : packet) : option target :=
  match l with
  | [] => None
  | r :: l =>
      if matches r p then
        match r_target r with
        | Jump c => match jump c with Some v => Some v | None => first_match jump l p end
        | v => Some v
        end
      else first_match jump l p
  end.
Definition chain_verdict (jump : bytes -> option target) (rs : rulesets) (t : table) (c : bytes)
    (p : packet) : option target :=
  l ← rs t c; first_match jump l p.

(** The filter: its rules, what a run of [iptables] makes of it, and the verdict of a
    built-in chain.  The law on verdicts is for rules whose chains jump at most
    once, as the ones of this module. *)
Definition no_jump (l : list rule) : Prop := Forall (fun r => forall c, r_target r <> Jump c) l.

Class Netfilter (F : Type) := {
  nf_rules : F -> rulesets;
  nf_run : ipt -> F -> option F;
  nf_verdict : F -> table -> bytes -> packet -> option target;
  nf_run_effect cmd f f' : nf_run cmd f = Some f' ->
    exists rs, effect cmd (nf_rules f) = Some rs /\ forall t c, nf_rules f' t c = rs t c;
  nf_verdict_first f t c p :
    (forall l r c', nf_rules f t c = Some l -> r ∈ l -> r_target r = Jump c' ->
       exists l', nf_rules f t c' = Some l' /\ no_jump l') ->
    nf_verdict f t c p =
    chain_verdict (fun c' => chain_verdict (fun _ => None) (nf_rules f) t c' p) (nf_rules f) t c p }.

(** [run(...).await?] in sequence. *)
Definition run_all `{Netfilter F} (cmds : list ipt) (f : F) : option F :=
  foldl (fun f cmd => f ≫= nf_run cmd) (Some f) cmds.

(** [let _ = run(...).await], in sequence. *)
Definition run_best_effort `{Netfilter F} (cmds : list ipt) (f : F) : F :=
  foldl (fun f cmd => default f (nf_run cmd f)) f cmds.

(** What an action of vm-supervisor's loop does to the filter: a failed
    [lockdown_egress] is logged, the deletions of [teardown] are best effort. *)
Definition filter_action `{Netfilter F} (n : NetworkSetup) (f : F) (a : action) : F :=
  match a with
  | FreezeEgress => default f (run_all (lockdown_egress n) f)
  | Teardown => run_best_effort (teardown n) f
  | _ => f
  end.
Definition filter_actions `{Netfilter F} (n : NetworkSetup) (acts : list action) (f : F) : F :=
  foldl (filter_action n) f acts.

(** Rules kept as they are, run exactly: an instance. *)
#[global, refine] Instance exact_filter : Netfilter rulesets := {
  nf_rules f := f;
  nf_run cmd f := effect cmd f;
  nf_verdict f t c p := chain_verdict (fun c' => chain_verdict (fun _ => None) f t c' p) f t c p }.
Proof.
  - intros cmd f f' H. exists f'. by split.
  - done.
Defined.

(** ** Running the commands *)

(** Two descriptions of the chains that agree everywhere. *)
Definition agree (rs rs' : rulesets) : Prop := forall t c, rs t c = rs' t c.

Lemma set_chain_eq rs t c l : set_chain rs t c l t c = l.
Proof. unfold set_chain. by rewrite bool_decide_true. Qed.
Lemma set_chain_ne rs t c l t' c' : t' <> t \/ c' <> c -> set_chain rs t c l t' c' = rs t' c'.
Proof. intros H. unfold set_chain. rewrite bool_decide_false; [done|]. naive_solver. Qed.

Lemma set_chain_agree rs rs' t c l : agree rs rs' -> agree (set_chain rs t c l) (set_chain rs' t c l).
Proof. intros H t' c'. unfold set_chain. case_bool_decide; [done|apply H]. Qed.

Lemma effect_agree cmd rs rs' r : agree rs rs' -> effect cmd rs = Some r ->
  exists r', effect cmd rs' = Some r' /\ agree r r'.
Proof.
  intros Ha. destruct cmd as [t c|t c ru|t c ru|t c ru|t c|t c]; cbn [effect]; rewrite (Ha t c);
    destruct (rs' t c) as [l|]; cbn; try done.
  - intros [= <-]. eexists. split; [done|]. by apply set_chain_agree.
  - intros [= <-]. eexists. split; [done|]. by apply set_chain_agree.
  - intros [= <-]. eexists. split; [done|]. by apply set_chain_agree.
  - destruct (remove_first ru l); cbn; [|done]. intros [= <-]. eexists. split; [done|].
    by apply set_chain_agree.
  - intros [= <-]. eexists. split; [done|]. by apply set_chain_agree.
  - destruct l; [|done]. intros [= <-]. eexists. split; [done|]. by apply set_chain_agree.
Qed.

Definition effects (cmds : list ipt) (rs : rulesets) : option rulesets :=
  foldl (fun r cmd => r ≫= effect cmd) (Some rs) cmds.

Lemma effects_cons cmd cmds rs : effects (cmd :: cmds) rs = effect cmd rs ≫= effects cmds.
Proof.
  unfold effects. cbn. destruct (effect cmd rs) as [r|]; cbn; [done|].
  induction cmds as [|x cmds IH]; cbn; done.
Qed.

Lemma effects_app a b rs : effects (a ++ b) rs = effects a rs ≫= effects b.
Proof.
  revert rs; induction a as [|cmd a IH]; intros rs; [done|]. cbn [app]. rewrite !effects_cons.
  destruct (effect cmd rs); cbn; [apply IH|done].
Qed.

Lemma run_all_cons `{Netfilter F} cmd cmds f : run_all (cmd :: cmds) f = nf_run cmd f ≫= run_all cmds.
Proof.
  unfold run_all. cbn. destruct (nf_run cmd f) as [r|]; cbn; [done|].
  induction cmds as [|x cmds IH]; cbn; done.
Qed.

(** The filter follows the documented effect of the commands. *)
Lemma run_all_effects `{Netfilter F} cmds f f' rs :
  run_all cmds f = Some f' -> agree (nf_rules f) rs ->
  exists rs', effects cmds rs = Some rs' /\ agree (nf_rules f') rs'.
Proof.
  revert f rs; induction cmds as [|cmd cmds IH]; intros f rs.
  - intros [= ->]. eauto.
  - rewrite run_all_cons, effects_cons. destruct (nf_run cmd f) as [f1|] eqn:E; cbn; [|done].
    intros Hr Ha. destruct (nf_run_effect _ _ _ E) as (r1 & Hr1 & Hf1).
    destruct (effect_agree _ _ _ _ Ha Hr1) as (r2 & -> & Ha2). cbn.
    apply (IH f1); [done|]. intros t c. by rewrite Hf1.
Qed.

(** Appending a list of rules to a chain. *)
Lemma effects_append t c rules rs l :
  rs t c = Some l ->
  exists rs', effects (Append t c <$> rules) rs = Some rs' /\ rs' t c = Some (l ++ rules) /\
    forall t' c', t' <> t \/ c' <> c -> rs' t' c' = rs t' c'.
Proof.
  revert rs l; induction rules as [|r rules IH]; intros rs l Hl.
  - exists rs. by rewrite app_nil_r.
  - cbn [fmap list_fmap]. rewrite effects_cons. cbn [effect]. rewrite Hl. cbn.
    destruct (IH (set_chain rs t c (Some (l ++ [r]))) (l ++ [r])) as (rs' & He & Hc & Ho);
      [apply set_chain_eq|].
    exists rs'. split_and!; [done| |].
    + by rewrite Hc, <- app_assoc.
    + intros t' c' Hne. by rewrite Ho, set_chain_ne.
Qed.

(** A new chain filled with rules. *)
Lemma effects_chain t c rules rs rs' :
  effects (NewChain t c :: (Append t c <$> rules)) rs = Some rs' ->
  rs' t c = Some rules /\ forall t' c', t' <> t \/ c' <> c -> rs' t' c' = rs t' c'.
Proof.
  rewrite effects_cons. cbn [effect]. destruct (rs t c); [done|]. cbn.
  destruct (effects_append t c rules (set_chain rs t c (Some [])) []) as (r & -> & Hc & Ho);
    [apply set_chain_eq|].
  intros [= <-]. split; [done|]. intros t' c' Hne. by rewrite Ho, set_chain_ne.
Qed.

(** ** The rules in place *)

Definition builtin (t : table) (c : bytes) : Prop :=
  (t = TFilter /\ (c = INPUT \/ c = FORWARD)) \/ (t = TNat /\ c = PREROUTING).

(** No rule of the built-in chains concerns [tap] yet, and their jumps lead to plain
    chains. *)
Definition link_free (tap : bytes) (rs : rulesets) : Prop :=
  forall t c l r, builtin t c -> rs t c = Some l -> r ∈ l ->
    (forall p, pk_in p = tap -> matches r p = false) /\
    (forall c', r_target r = Jump c' -> ~ builtin t c' /\ exists l', rs t c' = Some l' /\ no_jump l').

(** What the gateway's commands leave in the chains they touch. *)
Record gateway_in_place (n : NetworkSetup) (chain nat : list rule)
    (before rs : rulesets) : Prop := {
  gw_fresh : before TFilter (iptables_chain_name n) = None;
  gw_chain : rs TFilter (iptables_chain_name n) = Some chain;
  gw_input : exists l, before TFilter INPUT = Some l /\
    rs TFilter INPUT = Some (l ++ [from_tap n (Jump (iptables_chain_name n))]);
  gw_forward : exists l, before TFilter FORWARD = Some l /\
    rs TFilter FORWARD = Some (l ++ [from_tap n Drop]);
  gw_nat : rs TNat (iptables_nat_chain_name n) = Some nat;
  gw_prerouting : exists l, before TNat PREROUTING = Some l /\
    rs TNat PREROUTING = Some (l ++ [from_tap n (Jump (iptables_nat_chain_name n))]);
  gw_other t c l : before t c = Some l -> ~ builtin t c -> rs t c = Some l }.

Lemma chain_not_builtin t n : ~ builtin t (iptables_chain_name n).
Proof. by intros [[_ [H|H]]|[_ H]]. Qed.
Lemma nat_chain_not_builtin t n : ~ builtin t (iptables_nat_chain_name n).
Proof. by intros [[_ [H|H]]|[_ H]]. Qed.

Lemma effects_append1 t c r rs rs' :
  effects [Append t c r] rs = Some rs' ->
  (exists l, rs t c = Some l /\ rs' t c = Some (l ++ [r])) /\
  forall t' c', t' <> t \/ c' <> c -> rs' t' c' = rs t' c'.
Proof.
  rewrite effects_cons. cbn [effect]. destruct (rs t c) as [l|] eqn:E; cbn; [|done].
  intros [= <-]. split; [exists l; by rewrite set_chain_eq|]. intros. by apply set_chain_ne.
Qed.

Lemma effects_new_chain t c rs rs' : effects [NewChain t c] rs = Some rs' -> rs t c = None.
Proof. rewrite effects_cons. cbn [effect]. by destruct (rs t c). Qed.

Lemma effects_prefix a b rs rs' : effects (a ++ b) rs = Some rs' ->
  exists r1, effects a rs = Some r1 /\ effects b r1 = Some rs'.
Proof. rewrite effects_app. destruct (effects a rs) as [r1|]; cbn; [|done]. eauto. Qed.

Lemma new_chain_absent t c cmds rs rs' : effects (NewChain t c :: cmds) rs = Some rs' -> rs t c = None.
Proof. rewrite effects_cons. cbn [effect]. by destruct (rs t c). Qed.

Lemma gateway_effects n np http tls md rs rs' :
  effects (enable_transparent_gateway n np http tls md) rs = Some rs' ->
  gateway_in_place n (chain_rules n (gateway_ports np http tls md)) (nat_rules http tls) rs rs'.
Proof.
  unfold enable_transparent_gateway, setup_dedicated_chain. rewrite <- !app_assoc.
  set (ch := iptables_chain_name n). set (nch := iptables_nat_chain_name n).
  intros H. cbn [app] in H. rewrite app_comm_cons in H.
  apply effects_prefix in H as (r1 & H1 & H).
  pose proof (new_chain_absent _ _ _ _ _ H1) as Habs. apply effects_chain in H1 as [Hc1 Ho1].
  apply (effects_prefix [_]) in H as (r2 & [[li [Hli Hin]] Ho2]%effects_append1 & H).
  apply (effects_prefix [_]) in H as (r3 & [[lf [Hlf Hfw]] Ho3]%effects_append1 & H).
  rewrite app_comm_cons in H. apply effects_prefix in H as (r4 & H4 & H).
  pose proof (new_chain_absent _ _ _ _ _ H4) as Habs4. apply effects_chain in H4 as [Hc4 Ho4].
  apply effects_append1 in H as [[lp [Hlp Hpr]] Ho5].
  assert (Hd : forall c c' : bytes, c <> c' -> forall t t' : table, t' <> t \/ c <> c') by auto.
  assert (Hft : forall c c' : bytes, TFilter <> TNat \/ c <> c') by auto.
  assert (Htf : forall c c' : bytes, TNat <> TFilter \/ c <> c') by auto.
  subst ch nch. split.
  - done.
  - by rewrite Ho5, Ho4, Ho3, Ho2, Hc1 by auto.
  - exists li. rewrite Ho1 in Hli by auto. split; [done|].
    by rewrite Ho5, Ho4, Ho3, Hin by (auto || (right; done)).
  - exists lf. rewrite Ho2, Ho1 in Hlf by (auto || (right; done)). split; [done|].
    by rewrite Ho5, Ho4, Hfw by auto.
  - by rewrite Ho5, Hc4 by (right; done).
  - exists lp. rewrite Ho4, Ho3, Ho2, Ho1 in Hlp by (auto || (right; done)). by split.
  - intros t c l Hl Hb.
    assert (Hnb : forall t0 c0, builtin t0 c0 -> t <> t0 \/ c <> c0).
    { intros t0 c0 H0. destruct (decide (t = t0)) as [->|]; [|by left]. right. by intros ->. }
    assert (Hn1 : t <> TFilter \/ c <> iptables_chain_name n).
    { destruct (decide (t = TFilter)) as [->|]; [|by left]. right. intros ->. congruence. }
    assert (Hn4 : t <> TNat \/ c <> iptables_nat_chain_name n).
    { destruct (decide (t = TNat)) as [->|]; [|by left]. right. intros ->.
      rewrite Ho3, Ho2, Ho1 in Habs4 by auto. congruence. }
    rewrite Ho5, Ho4, Ho3, Ho2, Ho1 by (done || (apply Hnb; unfold builtin; auto)). done.
Qed.

(** ** Verdicts *)

(** What the dedicated chain lets in: packets of connections already tracked, and
    the given TCP ports and DNS at the host's own address. *)
Definition admitted (n : NetworkSetup) (tcp_ports : list Z) (p : packet) : bool :=
  pk_established p ||
  (bool_decide (pk_dst p = show_ip (host_ip n)) &&
   match pk_proto p with
   | PTcp => bool_decide (pk_dport p ∈ tcp_ports ++ [53])
   | PUdp => bool_decide (pk_dport p = 53)
   end).

Lemma first_match_skip j l l' p :
  (forall r, r ∈ l -> matches r p = false) -> first_match j (l ++ l') p = first_match j l' p.
Proof.
  induction l as [|r l IH]; intros H; [done|]. cbn. rewrite H by set_solver. apply IH. set_solver.
Qed.

Lemma accept_port_matches n pr port p :
  matches (accept_port n pr port) p =
  bool_decide (pk_proto p = pr) && bool_decide (pk_dst p = show_ip (host_ip n)) &&
  bool_decide (pk_dport p = port).
Proof.
  unfold matches, accept_port. cbn. rewrite andb_true_r.
  f_equal; [f_equal|]; apply bool_decide_ext; naive_solver.
Qed.

Lemma chain_rules_verdict n tcp_ports j p :
  first_match j (chain_rules n tcp_ports) p =
  Some (if admitted n tcp_ports p then Accept else Drop).
Proof.
  unfold chain_rules, admitted. cbn [app first_match].
  replace (matches established_rule p) with (pk_established p) by done.
  destruct (pk_established p); [done|]. cbn [orb].
  induction tcp_ports as [|port ports IH]; cbn [fmap list_fmap app first_match].
  - rewrite !accept_port_matches. replace (matches drop_all p) with true by done.
    rewrite (bool_decide_ext (pk_dport p ∈ [53]) (pk_dport p = 53))
      by (by rewrite list_elem_of_singleton).
    by destruct (pk_proto p), (bool_decide (pk_dst p = _)), (bool_decide (pk_dport p = 53)).
  - rewrite accept_port_matches. cbn [r_target accept_port].
    rewrite (bool_decide_ext (pk_dport p ∈ port :: ports ++ [53])
      (pk_dport p = port \/ pk_dport p ∈ ports ++ [53])) by (by rewrite elem_of_cons).
    rewrite bool_decide_or. revert IH.
    by destruct (pk_proto p), (bool_decide (pk_dst p = _)), (bool_decide (pk_dport p = port)).
Qed.

Lemma chain_rules_no_jump n tcp_ports : no_jump (chain_rules n tcp_ports).
Proof.
  unfold no_jump, chain_rules. apply Forall_app. split; [by repeat constructor|].
  apply Forall_app. split; [|by repeat constructor]. apply Forall_fmap, Forall_true. done.
Qed.

Lemma from_tap_matches n t p : pk_in p = tap_name n -> matches (from_tap n t) p = true.
Proof. intros H. unfold matches, from_tap. cbn. by rewrite bool_decide_true. Qed.

Lemma nat_rules_no_jump http tls : no_jump (nat_rules http tls).
Proof. by repeat constructor. Qed.

(** Where the NAT rules send a packet. *)
Definition nat_target (http_port tls_port : Z) (p : packet) : option target :=
  match pk_proto p with
  | PTcp => if pk_dport p =? 80 then Some (Redirect http_port)
            else if pk_dport p =? 443 then Some (Redirect tls_port)
            else if pk_dport p =? 53 then Some (Redirect 53) else None
  | PUdp => if pk_dport p =? 53 then Some (Redirect 53) else None
  end.

Lemma redirect_matches pr dport to p :
  matches (redirect pr dport to) p = bool_decide (pk_proto p = pr) && (pk_dport p =? dport).
Proof.
  unfold matches, redirect. cbn. rewrite !andb_true_r. f_equal; [apply bool_decide_ext; naive_solver|].
  case_bool_decide; symmetry; [apply Z.eqb_eq|apply Z.eqb_neq]; congruence.
Qed.

Lemma nat_rules_verdict http tls j p :
  first_match j (nat_rules http tls) p = nat_target http tls p.
Proof.
  unfold nat_rules, nat_target. cbn [first_match]. rewrite !redirect_matches. cbn [r_target redirect].
  destruct (pk_proto p); cbn;
    destruct (pk_dport p =? 80); [done|destruct (pk_dport p =? 443); [done|]|..];
    by destruct (pk_dport p =? 53).
Qed.

(** The verdicts of the built-in chains once the gateway is in place. *)
Section verdicts.
Context `{Netfilter F} (n : NetworkSetup) (chain nat : list rule) (before : rulesets) (f : F).
Context (Hfree : link_free (tap_name n) before).
Context (Hchain : no_jump chain) (Hnat : no_jump nat).
Context (Hgw : gateway_in_place n chain nat before (nf_rules f)).

Lemma appended_verdict t c l r p :
  builtin t c -> before t c = Some l -> nf_rules f t c = Some (l ++ [r]) -> pk_in p = tap_name n ->
  (forall c', r_target r = Jump c' -> exists l', nf_rules f t c' = Some l' /\ no_jump l') ->
  nf_verdict f t c p =
  first_match (fun c' => chain_verdict (fun _ => None) (nf_rules f) t c' p) [r] p.
Proof using Hfree Hgw.
  intros Hb Hl Hr Hp Hj. rewrite nf_verdict_first.
  - unfold chain_verdict at 1. rewrite Hr. cbn [mbind option_bind]. apply first_match_skip.
    intros r' Hr'. by apply (Hfree t c l r' Hb Hl Hr').
  - intros l0 r0 c' Hl0. rewrite Hr in Hl0. injection Hl0 as <-.
    intros [Hin| ->%list_elem_of_singleton]%elem_of_app; [|apply Hj].
    intros Hc. destruct (Hfree t c l r0 Hb Hl Hin) as [_ Hold].
    destruct (Hold c' Hc) as (Hnb & l' & Hl' & Hno). exists l'. split; [|done].
    by apply (gw_other _ _ _ _ _ Hgw).
Qed.

Lemma input_verdict p : pk_in p = tap_name n ->
  nf_verdict f TFilter INPUT p = first_match (fun _ => None) chain p.
Proof using Hfree Hchain Hgw.
  intros Hp. destruct (gw_input _ _ _ _ _ Hgw) as (l & Hl & Hr).
  rewrite (appended_verdict _ _ _ _ _ (or_introl (conj eq_refl (or_introl eq_refl))) Hl Hr Hp).
  - cbn [first_match]. rewrite from_tap_matches by done. cbn [r_target from_tap].
    unfold chain_verdict. rewrite (gw_chain _ _ _ _ _ Hgw). cbn. by case_match.
  - cbn. intros c' [= <-]. exists chain. split; [apply (gw_chain _ _ _ _ _ Hgw)|done].
Qed.

Lemma forward_verdict p : pk_in p = tap_name n -> nf_verdict f TFilter FORWARD p = Some Drop.
Proof using Hfree Hgw.
  intros Hp. destruct (gw_forward _ _ _ _ _ Hgw) as (l & Hl & Hr).
  rewrite (appended_verdict _ _ _ _ _ (or_introl (conj eq_refl (or_intror eq_refl))) Hl Hr Hp).
  - cbn [first_match]. by rewrite from_tap_matches.
  - done.
Qed.

Lemma prerouting_verdict p : pk_in p = tap_name n ->
  nf_verdict f TNat PREROUTING p = first_match (fun _ => None) nat p.
Proof using Hfree Hnat Hgw.
  intros Hp. destruct (gw_prerouting _ _ _ _ _ Hgw) as (l & Hl & Hr).
  rewrite (appended_verdict _ _ _ _ _ (or_intror (conj eq_refl eq_refl)) Hl Hr Hp).
  - cbn [first_match]. rewrite from_tap_matches by done. cbn [r_target from_tap].
    unfold chain_verdict. rewrite (gw_nat _ _ _ _ _ Hgw). cbn. by case_match.
  - cbn. intros c' [= <-]. exists nat. split; [apply (gw_nat _ _ _ _ _ Hgw)|done].
Qed.
End verdicts.

Lemma gateway_run `{Netfilter F} n np http tls md f f' :
  run_all (enable_transparent_gateway n np http tls md) f = Some f' ->
  gateway_in_place n (chain_rules n (gateway_ports np http tls md)) (nat_rules http tls)
    (nf_rules f) (nf_rules f').
Proof.
  intros Hr. destruct (run_all_effects _ _ _ (nf_rules f) Hr) as (rs & He & Ha); [by intros t c|].
  destruct (gateway_effects _ _ _ _ _ _ _ He) as [H1 H2 H3 H4 H5 H6 H7].
  split; rewrite ?Ha; try done. intros t c l Hl Hb. rewrite Ha. by apply H7.
Qed.

(** ** Lockdown *)

Lemma lockdown_in_place `{Netfilter F} n chain nat before f f' :
  run_all (lockdown_egress n) f = Some f' ->
  gateway_in_place n chain nat before (nf_rules f) ->
  gateway_in_place n (drop_all :: chain) nat before (nf_rules f').
Proof.
  intros Hr [H1 H2 H3 H4 H5 H6 H7].
  destruct (run_all_effects _ _ _ (nf_rules f) Hr) as (rs & He & Ha); [by intros t c|].
  unfold lockdown_egress in He. rewrite effects_cons in He. cbn [effect] in He.
  rewrite H2 in He. cbn [mbind option_bind effects foldl] in He. injection He as <-.
  split; rewrite ?Ha, ?set_chain_eq, ?set_chain_ne by (by (left + right)); try done.
  intros t c l Hl Hb. rewrite Ha, set_chain_ne; [by apply H7|].
  destruct (decide (t = TFilter)) as [->|]; [|by left]. right. intros ->. congruence.
Qed.

(** The rounds that stay in the loop leave the gateway, with more [DROP]s ahead. *)
Definition stays (i : loop_input) : Prop := (loop_round i).2 = true.

Lemma control_loop_app a b : Forall stays a -> control_loop (a ++ b) = control_loop a ++ control_loop b.
Proof.
  unfold stays. induction 1 as [|i a Hi _ IH]; [done|]. cbn [app control_loop].
  destruct (loop_round i) as [acts go]. cbn in Hi. subst go. by rewrite IH, <- app_assoc.
Qed.

Lemma stays_running l : Forall stays l -> (Shutdown ∉ control_loop l) /\ (Teardown ∉ control_loop l).
Proof.
  unfold stays. induction 1 as [|i l Hi _ IH]; [split; apply not_elem_of_nil|]. cbn [control_loop].
  destruct i as [lk ok| |[[]|]]; cbn in *; try done.
  destruct lk; [set_solver|]. destruct ok; [done|]. set_solver.
Qed.

Lemma filter_actions_app `{Netfilter F} n a b f :
  filter_actions n (a ++ b) f = filter_actions n b (filter_actions n a f).
Proof. apply foldl_app. Qed.

Lemma actions_in_place `{Netfilter F} n acts chain nat before f :
  Teardown ∉ acts -> gateway_in_place n chain nat before (nf_rules f) ->
  exists k, gateway_in_place n (replicate k drop_all ++ chain) nat before
    (nf_rules (filter_actions n acts f)).
Proof.
  revert chain f; induction acts as [|a acts IH]; intros chain f Ht Hg; [by exists 0%nat|].
  apply not_elem_of_cons in Ht as [Ha Ht].
  change (filter_actions n (a :: acts) f) with (filter_actions n acts (filter_action n f a)).
  destruct (run_all (lockdown_egress n) f) as [f1|] eqn:E; [destruct (decide (a = FreezeEgress)) as [->|]|].
  - cbn [filter_action]. rewrite E. destruct (IH (drop_all :: chain) f1 Ht) as [k Hk].
    { by eapply lockdown_in_place. }
    exists (k + 1)%nat. rewrite replicate_add, <- app_assoc. apply Hk.
  - apply IH; [done|]. by destruct a.
  - apply IH; [done|]. destruct a; try done. cbn [filter_action]. by rewrite E.
Qed.

Lemma dropped_first k chain j p : first_match j (replicate k drop_all ++ drop_all :: chain) p = Some Drop.
Proof. by destruct k. Qed.

Lemma no_jump_drops k chain : no_jump chain -> no_jump (replicate k drop_all ++ chain).
Proof. intros Hc. apply Forall_app. split; [by apply Forall_replicate|done]. Qed.

(** ** Claims *)

(** A packet after [PREROUTING]: [REDIRECT] sends it to the address of the interface
    it came in by. *)
Definition rewritten (n : NetworkSetup) (v : option target) (p : packet) : packet :=
  match v with
  | Some (Redirect port) => mkPacket (pk_in p) (pk_proto p) (show_ip (host_ip n)) port (pk_established p)
  | _ => p
  end.

Lemma rewritten_in n v p : pk_in (rewritten n v p) = pk_in p.
Proof. by destruct v as [[]|]. Qed.

(** The HTTP and HTTPS connections of the guest are accepted, at net-proxy's
    transparent ports. *)
Lemma web_admitted n np http tls md p port :
  pk_proto p = PTcp -> (pk_dport p = 80 /\ port = http \/ pk_dport p = 443 /\ port = tls) ->
  nat_target http tls p = Some (Redirect port) /\
  admitted n (gateway_ports np http tls md) (rewritten n (nat_target http tls p) p) = true.
Proof.
  intros Hp Hd.
  assert (Hn : nat_target http tls p = Some (Redirect port)).
  { unfold nat_target. rewrite Hp. by destruct Hd as [[-> ->]|[-> ->]]. }
  split; [done|]. rewrite Hn. unfold admitted. cbn [rewritten pk_dst pk_proto pk_dport].
  rewrite Hp, (bool_decide_true (show_ip _ = _)) by done.
  rewrite bool_decide_true; [by rewrite orb_true_r|]. unfold gateway_ports. set_solver.
Qed.

(** The packet filter makes net-proxy the only thing the microVM reaches.  Once
    the commands of [enable_transparent_gateway] have succeeded, a packet from the
    microVM's link is never forwarded; it reaches the pod's own sockets only if it
    belongs to a tracked connection or goes, after the redirections, to the host's
    address at one of net-proxy's ports or DNS; a TCP connection to port 80 or 443
    of whatever address is accepted at net-proxy's transparent port. *)
Theorem gateway_confines `{Netfilter F} n np http tls md (f f' : F) p :
  link_free (tap_name n) (nf_rules f) ->
  run_all (enable_transparent_gateway n np http tls md) f = Some f' ->
  pk_in p = tap_name n ->
  let v := nf_verdict f' TNat PREROUTING p in
  let p' := rewritten n v p in
  v = nat_target http tls p /\
  nf_verdict f' TFilter FORWARD p' = Some Drop /\
  nf_verdict f' TFilter INPUT p' =
    Some (if admitted n (gateway_ports np http tls md) p' then Accept else Drop) /\
  (forall port, pk_proto p = PTcp ->
     (pk_dport p = 80 /\ port = http \/ pk_dport p = 443 /\ port = tls) ->
     pk_dst p' = show_ip (host_ip n) /\ pk_dport p' = port /\
     nf_verdict f' TFilter INPUT p' = Some Accept).
Proof.
  intros Hfree Hrun Hp v p'. pose proof (gateway_run _ _ _ _ _ _ _ Hrun) as Hg.
  pose proof (chain_rules_no_jump n (gateway_ports np http tls md)) as Hc.
  pose proof (nat_rules_no_jump http tls) as Hn.
  assert (Hv : v = nat_target http tls p).
  { unfold v. rewrite (prerouting_verdict _ _ _ _ _ Hfree Hn Hg) by done. apply nat_rules_verdict. }
  assert (Hp' : pk_in p' = tap_name n) by (unfold p'; by rewrite rewritten_in).
  assert (Hin : nf_verdict f' TFilter INPUT p' =
    Some (if admitted n (gateway_ports np http tls md) p' then Accept else Drop)).
  { rewrite (input_verdict _ _ _ _ _ Hfree Hc Hg) by done. apply chain_rules_verdict. }
  split_and!; [done|by apply (forward_verdict _ _ _ _ _ Hfree Hg)|done|].
  intros port Hpr Hd. destruct (web_admitted n np http tls md p port Hpr Hd) as [Hr Ha].
  rewrite Hin. unfold p'. rewrite Hv, Ha. by rewrite Hr.
Qed.

(** C15: a lockdown holds.  Once a lockdown request's freeze has succeeded, and as
    long as the control loop goes on (whatever other requests and polls come
    before and after), every packet from the microVM's link is dropped, those of
    connections already open included, and the request did not stop the microVM. *)
Theorem lockdown_holds `{Netfilter F} n np http tls md (f0 f f1 : F) pre ok post p :
  link_free (tap_name n) (nf_rules f0) ->
  run_all (enable_transparent_gateway n np http tls md) f0 = Some f ->
  Forall stays pre -> Forall stays post ->
  run_all (lockdown_egress n) (filter_actions n (control_loop pre) f) = Some f1 ->
  pk_in p = tap_name n ->
  let acts := control_loop (pre ++ Request true ok :: post) in
  let f' := filter_actions n acts f in
  nf_verdict f' TFilter INPUT p = Some Drop /\
  nf_verdict f' TFilter FORWARD p = Some Drop /\
  Shutdown ∉ acts.
Proof.
  intros Hfree Hrun Hpre Hpost Hlock Hp acts f'. pose proof (gateway_run _ _ _ _ _ _ _ Hrun) as Hg.
  destruct (stays_running _ Hpre) as [_ Ht], (stays_running _ Hpost) as [_ Ht'].
  destruct (actions_in_place n _ _ _ _ _ Ht Hg) as [k Hk].
  apply (lockdown_in_place _ _ _ _ _ _ Hlock) in Hk.
  assert (Hf : f' = filter_actions n (control_loop post) f1).
  { unfold f', acts. rewrite control_loop_app, filter_actions_app by done.
    cbn [control_loop loop_round]. rewrite filter_actions_app. f_equal.
    change (default (filter_actions n (control_loop pre) f)
      (run_all (lockdown_egress n) (filter_actions n (control_loop pre) f)) = f1). by rewrite Hlock. }
  destruct (actions_in_place n _ _ _ _ _ Ht' Hk) as [k' Hk'].
  rewrite <- Hf in Hk'. pose proof (chain_rules_no_jump n (gateway_ports np http tls md)) as Hc.
  split_and!; [|by apply (forward_verdict _ _ _ _ _ Hfree Hk')|].
  - rewrite (input_verdict _ _ _ _ _ Hfree) with (2 := Hk') by
      (done || (apply no_jump_drops; constructor; [done|by apply no_jump_drops])).
    apply dropped_first.
  - apply stays_running. apply Forall_app; split; [done|]. by constructor.
Qed.

(** A pod's filter with its built-in chains empty, and the link of vm-supervisor. *)
Definition pod_filter : rulesets := fun t c =>
  if bool_decide (t = TFilter /\ (c = INPUT \/ c = FORWARD) \/ t = TNat /\ c = PREROUTING)
  then Some [] else None.
Definition vm_network : NetworkSetup :=
  mkNetwork (B "eth0") (B "atelier-vm") (guest_mac_of 0) (169, 254, 0, 1) (169, 254, 0, 2) 30.

Lemma pod_filter_free tap : link_free tap pod_filter.
Proof.
  intros t c l r Hb. unfold pod_filter. rewrite bool_decide_true by done. intros [= <-].
  by intros ?%not_elem_of_nil.
Qed.

Definition gateway_filter : rulesets :=
  default pod_filter (run_all (enable_transparent_gateway vm_network 3128 3180 3181 (Some 3132)) pod_filter).

(** A new connection to an address of the Internet, one to a port of the pod that is
    not net-proxy's, and a packet of a tracked connection. *)
Definition web_packet : packet := mkPacket (B "atelier-vm") PTcp (B "93.184.216.34") 443 false.
Definition pod_packet : packet := mkPacket (B "atelier-vm") PTcp (B "169.254.0.1") 8081 false.
Definition old_packet : packet := mkPacket (B "atelier-vm") PTcp (B "169.254.0.1") 40000 true.

Lemma gateway_confines_witness :
  let f' := gateway_filter in
  nf_verdict f' TNat PREROUTING web_packet = Some (Redirect 3181) /\
  nf_verdict f' TFilter FORWARD (rewritten vm_network (nf_verdict f' TNat PREROUTING pod_packet) pod_packet)
    = Some Drop /\
  nf_verdict f' TFilter INPUT pod_packet = Some Drop.
Proof.
  intros f'.
  assert (Hr : run_all (enable_transparent_gateway vm_network 3128 3180 3181 (Some 3132)) pod_filter = Some f')
    by reflexivity.
  destruct (gateway_confines (H := exact_filter) vm_network 3128 3180 3181 (Some 3132) pod_filter f' web_packet
    (pod_filter_free _) Hr eq_refl) as (Hv & _).
  destruct (gateway_confines (H := exact_filter) vm_network 3128 3180 3181 (Some 3132) pod_filter f' pod_packet
    (pod_filter_free _) Hr eq_refl) as (_ & Hf & _).
  split_and!; [exact Hv|exact Hf|vm_compute; reflexivity].
Defined.

Lemma lockdown_holds_witness :
  let before := gateway_filter in
  let acts := control_loop ([Poll (Some true)] ++ Request true true :: [Request false false]) in
  let f' := filter_actions vm_network acts before in
  nf_verdict before TFilter INPUT old_packet = Some Accept /\
  nf_verdict f' TFilter INPUT old_packet = Some Drop /\
  nf_verdict f' TFilter FORWARD old_packet = Some Drop /\
  Shutdown ∉ acts.
Proof.
  split; [vm_compute; reflexivity|].
  apply (lockdown_holds (H := exact_filter) vm_network 3128 3180 3181 (Some 3132) pod_filter gateway_filter
    (default pod_filter (run_all (lockdown_egress vm_network) gateway_filter))
    [Poll (Some true)] true [Request false false] old_packet (pod_filter_free _));
    first [reflexivity | repeat constructor].
Defined.

(** Two indexes of 16 bits give two addresses. *)
Lemma hex02_inj a b : 0 <= a < 256 -> 0 <= b < 256 -> hex02 a = hex02 b -> a = b.
Proof.
  intros Ha Hb [= H1 H2].
  assert (Hd : forall x y, 0 <= x < 16 -> 0 <= y < 16 -> hex_digit x = hex_digit y -> x = y).
  { unfold hex_digit. intros x y Hx Hy. destruct (Z.ltb_spec x 10), (Z.ltb_spec y 10); lia. }
  apply Hd in H1; [|lia..]. apply Hd in H2; [|lia..]. lia.
Qed.

Lemma guest_mac_injective i j :
  0 <= i < 65536 -> 0 <= j < 65536 -> guest_mac_of i = guest_mac_of j -> i = j.
Proof.
  intros Hi Hj H. unfold guest_mac_of in H. apply app_inv_head in H.
  rewrite !Z.shiftr_div_pow2 in H by lia. change (2 ^ 8) with 256 in H.
  apply app_inj_1 in H as [H1 H2]; [|done]. apply app_inv_head in H2.
  apply hex02_inj in H1; [|lia..]. apply hex02_inj in H2; [|lia..]. lia.
Qed.
