(* ===== verification/LlmBudget.v ===== *)
(** * LLM spending

    [crates/api-server/src/llm_budget.rs]: the budget of a Workshop, the overview and
    the model mutations of the administration console, and the spend report.  LiteLLM,
    the HTTP client and the decoding of its answers are arguments: what a request
    returned once decoded ([None] when [.ok()?] gives up).  Amounts are [f64]
    ([F64]); the iteration order of a [HashMap] is an argument ([Collections]). *)

From Stdlib Require Import Sorting.Sorted.
From S2P Require Import Prelude RustStr Collections F64 Json.

(** ** The budget of a Workshop *)

(** [fn key_aliases]. *)
Definition key_aliases (workshop_name : bytes) : list bytes :=
  [B "atelier-wks-" ++ workshop_name; B "atelier-build-" ++ workshop_name].

Record LlmBudget := mkBudget {
  spend_usd : f64; max_budget_usd : option f64; key_count : nat }.

Record KeyInfo := mkKeyInfo { ki_spend : option f64; ki_max_budget : option f64 }.

(** One key of an answer: the body of the inner loop. *)
Definition add_key (b : LlmBudget) (key : KeyInfo) : LlmBudget :=
  mkBudget (fadd b.(spend_usd) (default f0 key.(ki_spend)))
    (match key.(ki_max_budget) with
     | Some budget =>
         Some (match b.(max_budget_usd) with Some current => fmin current budget | None => budget end)
     | None => b.(max_budget_usd)
     end)
    (S b.(key_count)).

(** [fn workshop_budget]; [key_list alias] is the answer of [/key/list]. *)
Fixpoint budget_loop (key_list : bytes -> option (list KeyInfo)) (aliases : list bytes)
    (b : LlmBudget) : option LlmBudget :=
  match aliases with
  | [] => Some b
  | alias :: r =>
      match key_list alias with
      | None => None
      | Some keys => budget_loop key_list r (foldl add_key b keys)
      end
  end.

Definition workshop_budget (key_list : bytes -> option (list KeyInfo)) (workshop_name : bytes) : option LlmBudget :=
  budget_loop key_list (key_aliases workshop_name) (mkBudget f0 None 0).

(** ** The administration console *)

Record LlmModel := mkModel {
  lm_id : option bytes; lm_name : bytes; lm_target : option bytes; lm_api_base : option bytes }.

Record LlmKey := mkLlmKey {
  lk_alias : bytes; lk_owner : option bytes; lk_spend_usd : f64;
  lk_max_budget_usd : option f64; lk_expires_at : option bytes; lk_expired : bool }.

Record LlmOverview := mkOverview {
  global_spend_usd : option f64; models : list LlmModel; keys : list LlmKey }.

Record AdminKeyInfo := mkAdminKey {
  ak_alias : option bytes; ak_spend : option f64; ak_max_budget : option f64;
  ak_expires : option bytes; ak_metadata : option json }.

Record ModelInfoEntry := mkModelEntry {
  me_model_name : option bytes; me_litellm_params : option json; me_model_info : option json }.

Definition get_bool (k : bytes) (j : json) : option bool :=
  match jget k j with Some (JBool b) => Some b | _ => None end.

(** The closure of [filter_map] over the models. *)
Definition model_of_entry (entry : ModelInfoEntry) : option LlmModel :=
  let params := default JNull entry.(me_litellm_params) in
  let info := default JNull entry.(me_model_info) in
  let is_db_model := bool_decide (get_bool (B "db_model") info = Some true) in
  match entry.(me_model_name) with
  | None => None
  | Some name =>
      Some (mkModel (if is_db_model then get_str (B "id") info else None) name
              (get_str (B "model") params) (get_str (B "api_base") params))
  end.

(** The closure of [filter_map] over the keys; [parse_rfc3339] is chrono's. *)
Definition key_of_info (parse_rfc3339 : bytes -> option Z) (now : Z) (key : AdminKeyInfo) : option LlmKey :=
  match key.(ak_alias) with
  | None => None
  | Some alias =>
      Some (mkLlmKey alias (key.(ak_metadata) ≫= get_str (B "owner"))
              (default f0 key.(ak_spend)) key.(ak_max_budget) key.(ak_expires)
              (match key.(ak_expires) ≫= parse_rfc3339 with Some d => d <? now | None => false end))
  end.

(** [bool]'s [Ord]. *)
Definition bool_cmp (a b : bool) : comparison :=
  match a, b with false, true => Lt | true, false => Gt | _, _ => Eq end.

Definition key_cmp_order (a b : LlmKey) : comparison :=
  cmp_then (bool_cmp a.(lk_expired) b.(lk_expired)) (cmp_or_equal b.(lk_spend_usd) a.(lk_spend_usd)).

(** [fn overview]: the three answers are fetched independently. *)
Definition overview (parse_rfc3339 : bytes -> option Z) (now : Z) (global : option (option f64))
    (model_info : option (list ModelInfoEntry)) (key_list : option (list AdminKeyInfo)) : LlmOverview :=
  mkOverview (match global with Some spend => spend | None => None end)
    (match model_info with Some data => omap model_of_entry data | None => [] end)
    (match key_list with
     | Some keys => sort_by key_cmp_order (omap (key_of_info parse_rfc3339 now) keys)
     | None => []
     end).

(** [fn model_payload]. *)
Definition model_payload (model_name target : bytes) (api_base api_key : option bytes) : json :=
  JObj [(B "model_name", JStr model_name);
        (B "litellm_params",
         JObj ([(B "model", JStr target)] ++ skip_none (B "api_base") JStr api_base
                ++ skip_none (B "api_key") JStr api_key))].

(** What the gateway answers to a mutation: nothing when it is unreachable, or a
    status and a body. *)
Definition gateway := bytes -> json -> option (Z * json).

Definition is_success (status : Z) : bool := (200 <=? status) && (status <? 300).

(** [fn post_model_mutation]. *)
Definition post_model_mutation (g : gateway) (path : bytes) (body : json) : res json :=
  match g path body with
  | None => Err "passerelle LiteLLM injoignable"
  | Some (status, answer) => if negb (is_success status) then Err "LiteLLM a repondu" else Ok answer
  end.

(** [fn create_model]: the answer is decoded into [model_info.id]. *)
Definition create_model (g : gateway) (model_name target : bytes) (api_base : option bytes) (api_key : bytes) : res bytes :=
  answer ← post_model_mutation g (B "/model/new") (model_payload model_name target api_base (Some api_key));
  ok_or (jget (B "model_info") answer ≫= get_str (B "id")) "reponse LiteLLM inattendue".

(** [fn update_model]. *)
Definition update_body (id model_name target : bytes) (api_base api_key : option bytes) : json :=
  JObj (fields_of (model_payload model_name target api_base api_key)
        ++ [(B "model_info", JObj [(B "id", JStr id)])]).
Definition update_model (g : gateway) (id model_name target : bytes) (api_base api_key : option bytes) : res unit :=
  _ ← post_model_mutation g (B "/model/update") (update_body id model_name target api_base api_key);
  Ok tt.

(** [fn delete_model]. *)
Definition delete_model (g : gateway) (id : bytes) : res unit :=
  _ ← post_model_mutation g (B "/model/delete") (JObj [(B "id", JStr id)]); Ok tt.

(** ** The spend report *)

Definition TEST_PRICING_MODELS : list bytes :=
  [B "openai/atelier-plan-test"; B "openai/atelier-budget-test"].

Record SpendLogEntry := mkEntry {
  se_spend : option f64; se_model : option bytes; se_start_time : option bytes; se_api_key : option bytes }.

Record SpendBucket := mkBucket { sb_label : bytes; sb_spend_usd : f64; sb_request_count : nat }.

Record SpendReport := mkReport {
  total_usd : f64; test_pricing_usd : f64; unattributed_usd : f64;
  by_day : list SpendBucket; by_group : list SpendBucket; by_model : list SpendBucket }.

Record KeyOwnership := mkOwnership {
  alias_by_token : gmap bytes bytes; group_by_alias : gmap bytes bytes; group_by_token : gmap bytes bytes }.

(** [fn group_of]. *)
Definition group_of (o : KeyOwnership) (token : option bytes) : option bytes :=
  match token with
  | None => None
  | Some token =>
      match o.(alias_by_token) !! token ≫= (fun alias => o.(group_by_alias) !! alias) with
      | Some g => Some g
      | None => o.(group_by_token) !! token
      end
  end.

Abbreviation slots := (gmap bytes (f64 * nat)).

(** [fn sorted_buckets]. *)
Definition bucket_cmp (a b : SpendBucket) : comparison :=
  cmp_then (cmp_or_equal b.(sb_spend_usd) a.(sb_spend_usd)) (bytes_cmp a.(sb_label) b.(sb_label)).
Definition buckets_of (iter : slots -> list (bytes * (f64 * nat))) (m : slots) : list SpendBucket :=
  (fun '(label, (spend_usd, request_count)) => mkBucket label spend_usd request_count) <$> iter m.
Definition sorted_buckets (iter : slots -> list (bytes * (f64 * nat))) (m : slots) : list SpendBucket :=
  sort_by bucket_cmp (buckets_of iter m).

(** [m.entry(label).or_default()], then [.0 += spend] and [.1 += 1]. *)
Definition bump (label : bytes) (spend : f64) (m : slots) : slots :=
  let '(s, n) := default (f0, 0%nat) (m !! label) in <[label := (fadd s spend, S n)]> m.

(** [str::get(..n)]: [None] past the end or inside a character. *)
Definition is_char_boundary (s : bytes) (i : nat) : bool :=
  match s !! i with
  | Some b => negb ((128 <=? b) && (b <? 192))
  | None => (i =? length s)%nat
  end.
Definition str_prefix (n : nat) (s : bytes) : option bytes :=
  if (n <=? length s)%nat && is_char_boundary s n then Some (take n s) else None.

Record Tally := mkTally {
  t_total : f64; t_test : f64; t_unattributed : f64; t_day : slots; t_group : slots; t_model : slots }.

Definition entry_spend (e : SpendLogEntry) : f64 := default f0 e.(se_spend).
Definition entry_model (e : SpendLogEntry) : bytes := default [] e.(se_model).
Definition is_test_model (model : bytes) : bool := existsb (beq model) TEST_PRICING_MODELS.
Definition entry_day (e : SpendLogEntry) : option bytes := e.(se_start_time) ≫= str_prefix 10.

(** The body of the loop of [fn aggregate]. *)
Definition aggregate_entry (o : KeyOwnership) (t : Tally) (entry : SpendLogEntry) : Tally :=
  let spend := entry_spend entry in
  let model := entry_model entry in
  if is_test_model model then
    mkTally t.(t_total) (fadd t.(t_test) spend) t.(t_unattributed) t.(t_day) t.(t_group) t.(t_model)
  else
    let '(unattributed, by_group) :=
      match group_of o entry.(se_api_key) with
      | Some group => (t.(t_unattributed), bump group spend t.(t_group))
      | None => (fadd t.(t_unattributed) spend, t.(t_group))
      end in
    let by_day := match entry_day entry with Some day => bump day spend t.(t_day) | None => t.(t_day) end in
    let by_model := if negb (is_empty model) then bump model spend t.(t_model) else t.(t_model) in
    mkTally (fadd t.(t_total) spend) t.(t_test) unattributed by_day by_group by_model.

(** [fn aggregate]. *)
Definition aggregate (iter : slots -> list (bytes * (f64 * nat))) (entries : list SpendLogEntry)
    (o : KeyOwnership) : SpendReport :=
  let t := foldl (aggregate_entry o) (mkTally f0 f0 f0 ∅ ∅ ∅) entries in
  let by_day := sort_by (fun a b => bytes_cmp a.(sb_label) b.(sb_label)) (sorted_buckets iter t.(t_day)) in
  mkReport t.(t_total) t.(t_test) t.(t_unattributed) by_day
    (sorted_buckets iter t.(t_group)) (sorted_buckets iter t.(t_model)).

Record TokenKeyInfo := mkTokenKey { tk_token : option bytes; tk_alias : option bytes; tk_metadata : option json }.

(** [fn key_ownership_from_litellm]. *)
Definition ownership_entry (m : gmap bytes bytes * gmap bytes bytes) (key : TokenKeyInfo) : gmap bytes bytes * gmap bytes bytes :=
  match key.(tk_token) with
  | None => m
  | Some token =>
      let groups := match key.(tk_metadata) ≫= get_str (B "owner") with
                    | Some owner => <[token := owner]> m.2
                    | None => m.2
                    end in
      (match key.(tk_alias) with Some alias => <[token := alias]> m.1 | None => m.1 end, groups)
  end.
Definition key_ownership_from_litellm (key_list : option (list TokenKeyInfo)) : gmap bytes bytes * gmap bytes bytes :=
  match key_list with
  | None => (∅, ∅)
  | Some l => foldl ownership_entry (∅, ∅) l
  end.

(** [fn spend_report]. *)
Definition spend_report (iter : slots -> list (bytes * (f64 * nat))) (logs : option (list SpendLogEntry))
    (o : KeyOwnership) : option SpendReport :=
  match logs with None => None | Some entries => Some (aggregate iter entries o) end.

(** ** The budget: sums and the lowest ceiling *)

Lemma foldl_add_key b ks :
  foldl add_key b ks =
  mkBudget (fsum b.(spend_usd) ((fun k => default f0 k.(ki_spend)) <$> ks))
    (foldl (fun acc x => Some (match acc with Some c => fmin c x | None => x end)) b.(max_budget_usd)
       (omap ki_max_budget ks))
    (b.(key_count) + length ks)%nat.
Proof.
  revert b; induction ks as [|k ks IH]; intros b; cbn [foldl].
  - destruct b; cbn. f_equal. lia.
  - rewrite IH. unfold add_key. cbn [spend_usd max_budget_usd key_count fmap list_fmap omap list_omap length fsum foldl].
    f_equal; [|lia]. by destruct (ki_max_budget k).
Qed.

Lemma budget_loop_app key_list aliases b ks :
  mapM key_list aliases = Some ks -> budget_loop key_list aliases b = Some (foldl add_key b (concat ks)).
Proof.
  revert b ks; induction aliases as [|a l IH]; intros b ks; cbn.
  - by intros [= <-].
  - destruct (key_list a) as [k|]; cbn; [|done]. destruct (mapM key_list l) as [r|] eqn:E; cbn; [|done].
    intros [= <-]. cbn. rewrite foldl_app. by apply IH.
Qed.

Lemma budget_loop_None key_list aliases b :
  mapM key_list aliases = None -> budget_loop key_list aliases b = None.
Proof.
  revert b; induction aliases as [|a l IH]; intros b; cbn; [done|].
  destruct (key_list a) as [k|]; cbn; [|done]. destruct (mapM key_list l) eqn:E; cbn; [done|].
  intros _. by apply IH.
Qed.

(** The lowest ceiling, over the ceilings present. *)
Lemma lowest_ceiling l acc :
  Forall (fun x => is_nan x = false) l -> (forall a, acc = Some a -> is_nan a = false) ->
  let r := foldl (fun acc x => Some (match acc with Some c => fmin c x | None => x end)) acc l in
  (r = None <-> acc = None /\ l = []) /\
  (forall m, r = Some m -> (m ∈ l \/ acc = Some m) /\ is_nan m = false /\
     (forall x, x ∈ l -> fle m x) /\ (forall a, acc = Some a -> fle m a)).
Proof.
  intros Hl. revert acc. induction Hl as [|x l Hx Hl IH]; intros acc Ha; cbn [foldl].
  - split; [naive_solver|]. intros m ->. split_and!; [by right|by apply Ha|set_solver|].
    intros a [= <-]. apply fle_refl. by apply Ha.
  - destruct (IH (Some (match acc with Some c => fmin c x | None => x end))) as [H1 H2].
    { intros a [= <-]. destruct acc as [c|]; [|done].
      destruct (fmin_or c x) as [->| ->]; [by apply Ha|done]. }
    split; [naive_solver|]. intros m Hm. destruct (H2 m Hm) as (Hin & Hnan & Hlow & Hacc).
    specialize (Hacc _ eq_refl). destruct acc as [c|].
    + destruct (fmin_le c x (Ha c eq_refl) Hx) as [Hc1 Hc2]. split_and!; [|done| |].
      * destruct Hin as [?|[= <-]]; [set_solver|].
        destruct (fmin_or c x) as [->| ->]; [by right|set_solver].
      * intros y [->|Hy]%elem_of_cons; [eauto using fle_trans|by apply Hlow].
      * intros a [= <-]. eauto using fle_trans.
    + split_and!; [|done| |done].
      * destruct Hin as [?|[= <-]]; set_solver.
      * intros y [->|Hy]%elem_of_cons; [done|by apply Hlow].
Qed.

(** ** The report: a reference definition *)

(** The entries that count, and how they are labelled. *)
Definition is_real (e : SpendLogEntry) : bool := negb (is_test_model (entry_model e)).
Definition entry_group (o : KeyOwnership) (e : SpendLogEntry) : option bytes := group_of o e.(se_api_key).
Definition entry_model_label (e : SpendLogEntry) : option bytes :=
  if is_empty (entry_model e) then None else Some (entry_model e).

(** The entries with a label, and the bucket they make. *)
Definition labelled (lab : SpendLogEntry -> option bytes) (l : bytes) (es : list SpendLogEntry) : list SpendLogEntry :=
  base.filter (fun e => lab e = Some l) es.
Definition amounts (es : list SpendLogEntry) : list f64 := entry_spend <$> es.
Definition bucket_for (lab : SpendLogEntry -> option bytes) (es : list SpendLogEntry) (l : bytes) : SpendBucket :=
  mkBucket l (fsum f0 (amounts (labelled lab l es))) (length (labelled lab l es)).

(** [bs] holds, once each, the buckets of the labels that occur in [es]. *)
Definition buckets_exact (lab : SpendLogEntry -> option bytes) (es : list SpendLogEntry) (bs : list SpendBucket) : Prop :=
  NoDup (sb_label <$> bs) /\
  forall b, b ∈ bs <-> labelled lab b.(sb_label) es <> [] /\ b = bucket_for lab es b.(sb_label).

Definition tally (lab : SpendLogEntry -> option bytes) (m : slots) (es : list SpendLogEntry) : slots :=
  foldl (fun m e => match lab e with Some l => bump l (entry_spend e) m | None => m end) m es.

Definition real_entries (es : list SpendLogEntry) : list SpendLogEntry := base.filter (fun e => is_real e = true) es.
Definition test_entries (es : list SpendLogEntry) : list SpendLogEntry := base.filter (fun e => is_real e = false) es.
Definition unclaimed (o : KeyOwnership) (es : list SpendLogEntry) : list SpendLogEntry :=
  base.filter (fun e => entry_group o e = None) es.

Lemma labelled_cons lab l e es :
  labelled lab l (e :: es) = if decide (lab e = Some l) then e :: labelled lab l es else labelled lab l es.
Proof. unfold labelled. by rewrite filter_cons. Qed.

(** One pass of the loop keeps six independent accounts. *)
Lemma aggregate_loop o es t :
  foldl (aggregate_entry o) t es =
  mkTally (fsum t.(t_total) (amounts (real_entries es)))
    (fsum t.(t_test) (amounts (test_entries es)))
    (fsum t.(t_unattributed) (amounts (unclaimed o (real_entries es))))
    (tally entry_day t.(t_day) (real_entries es))
    (tally (entry_group o) t.(t_group) (real_entries es))
    (tally entry_model_label t.(t_model) (real_entries es)).
Proof.
  revert t. induction es as [|e es IH]; intros t; [by destruct t|].
  cbn [foldl]. rewrite IH. clear IH. unfold real_entries, test_entries. rewrite !filter_cons.
  unfold aggregate_entry, is_real. destruct (is_test_model (entry_model e)) eqn:Et; cbn [negb decide].
  - rewrite (decide_False (P := false = true)), (decide_True (P := false = false)) by done. done.
  - rewrite (decide_True (P := true = true)), (decide_False (P := true = false)) by done.
    unfold unclaimed. rewrite filter_cons. unfold entry_group.
    destruct (group_of o (se_api_key e)) as [g|] eqn:Eg;
      [rewrite decide_False by done|rewrite decide_True by done];
      cbn [t_total t_test t_unattributed t_day t_group t_model];
      unfold tally; cbn [foldl]; rewrite Eg; unfold entry_model_label;
      f_equal; by destruct (is_empty (entry_model e)).
Qed.

Lemma bump_lookup l l' x m :
  bump l x m !! l' =
  if decide (l = l') then Some (fadd (default (f0, 0%nat) (m !! l)).1 x, S (default (f0, 0%nat) (m !! l)).2) else m !! l'.
Proof.
  unfold bump. destruct (default _ _) as [s n]. cbn [fst snd].
  case_decide; subst; [by rewrite lookup_insert_eq|by rewrite lookup_insert_ne].
Qed.

Lemma tally_lookup lab es m l :
  tally lab m es !! l =
  match labelled lab l es with
  | [] => m !! l
  | fs => Some (fsum (default (f0, 0%nat) (m !! l)).1 (amounts fs),
                ((default (f0, 0%nat) (m !! l)).2 + length fs)%nat)
  end.
Proof.
  revert m. induction es as [|e es IH]; intros m; [done|].
  change (tally lab m (e :: es)) with
    (tally lab (match lab e with Some l => bump l (entry_spend e) m | None => m end) es).
  rewrite IH, labelled_cons. destruct (lab e) as [l'|] eqn:El.
  - rewrite bump_lookup. destruct (decide (l' = l)) as [->|Hne].
    + rewrite decide_True by done. cbn [default fst snd].
      destruct (labelled lab l es) as [|f fs]; cbn; do 2 f_equal; lia.
    + by rewrite decide_False by congruence.
  - by rewrite decide_False by done.
Qed.

Lemma buckets_of_exact iter `{!HashIter iter} lab es :
  buckets_exact lab es (buckets_of iter (tally lab ∅ es)).
Proof.
  unfold buckets_of. split.
  - rewrite <- list_fmap_compose.
    rewrite (list_fmap_ext _ fst) by (intros ? [? [? ?]] ?; done).
    rewrite hash_iter_perm. apply NoDup_fst_map_to_list.
  - intros [l s n]. cbn [sb_label]. rewrite list_elem_of_fmap. setoid_rewrite hash_iter_perm.
    pose proof (tally_lookup lab es ∅ l) as Hl. rewrite lookup_empty in Hl. cbn [default fst snd id] in Hl.
    split.
    + intros ((l' & s' & n') & [= -> -> ->] & Hin%elem_of_map_to_list). rewrite Hin in Hl.
      unfold bucket_for. destruct (labelled lab l' es) eqn:E; [done|]. split; [done|].
      rewrite ?E. apply (inj Some) in Hl. by injection Hl as -> ->.
    + intros [Hne [= -> ->]]. eexists (l, (_, _)). split; [reflexivity|].
      apply elem_of_map_to_list. rewrite Hl. by destruct (labelled lab l es).
Qed.

Lemma buckets_exact_perm lab es bs bs' :
  bs ≡ₚ bs' -> buckets_exact lab es bs -> buckets_exact lab es bs'.
Proof. intros Hp [H1 H2]. split; [by rewrite <- Hp|]. intros b. rewrite <- Hp. apply H2. Qed.

Lemma buckets_exact_same_perm lab es bs bs' :
  buckets_exact lab es bs -> buckets_exact lab es bs' -> bs ≡ₚ bs'.
Proof.
  intros [H1 H2] [H1' H2']. apply NoDup_Permutation.
  - by eapply NoDup_fmap_1.
  - by eapply NoDup_fmap_1.
  - intros b. by rewrite H2, H2'.
Qed.

(** Amounts that are neither negative nor NaN sum to such amounts. *)
Definition money (es : list SpendLogEntry) : Prop := Forall (fun e => fnonneg (entry_spend e) = true) es.

Lemma bucket_not_nan lab es bs :
  money es -> buckets_exact lab es bs -> Forall (fun b => is_nan b.(sb_spend_usd) = false) bs.
Proof.
  intros Hm [_ Hb]. rewrite Forall_forall. intros b Hin. apply Hb in Hin as [_ ->].
  cbn [bucket_for sb_spend_usd]. apply fnonneg_not_nan, fsum_nonneg; [done|].
  unfold amounts. rewrite Forall_fmap. unfold labelled. by apply Forall_list_filter.
Qed.

#[export] Instance bucket_cmp_total :
  TotalCmp (fun b => is_nan b.(sb_spend_usd) = false) bucket_cmp.
Proof. unfold bucket_cmp. apply cmp_then_total; [apply decreasing_total|apply bytes_cmp_total]. Qed.

Lemma bucket_cmp_Eq lab es bs a b :
  buckets_exact lab es bs -> a ∈ bs -> b ∈ bs -> bytes_cmp a.(sb_label) b.(sb_label) = Eq -> a = b.
Proof.
  intros [_ H2] Ha Hb Hl%bytes_cmp_Eq. apply H2 in Ha as [_ Ha]. apply H2 in Hb as [_ Hb].
  by rewrite Ha, Hb, Hl.
Qed.

Lemma real_money es : money es -> money (real_entries es).
Proof. apply Forall_list_filter. Qed.

Lemma sorted_buckets_exact iter `{!HashIter iter} lab es :
  buckets_exact lab es (sorted_buckets iter (tally lab ∅ es)).
Proof.
  eapply buckets_exact_perm; [symmetry; apply sort_by_perm|]. by apply buckets_of_exact.
Qed.

(** The order of a [HashMap] does not show in the buckets. *)
Lemma sorted_buckets_iter iter1 iter2 `{!HashIter iter1} `{!HashIter iter2} lab es :
  money es -> sorted_buckets iter1 (tally lab ∅ es) = sorted_buckets iter2 (tally lab ∅ es).
Proof.
  intros Hm. pose proof (buckets_of_exact iter1 lab es) as H1.
  pose proof (buckets_of_exact iter2 lab es) as H2.
  apply (sort_by_perm_eq bucket_cmp (fun b => is_nan b.(sb_spend_usd) = false)); [by eapply bucket_not_nan| |by eapply buckets_exact_same_perm].
  intros a b Ha Hb [_ Heq]%cmp_then_Eq. exact (bucket_cmp_Eq _ _ _ _ _ H1 Ha Hb Heq).
Qed.

Lemma aggregate_unfold iter es o :
  aggregate iter es o =
  mkReport (fsum f0 (amounts (real_entries es))) (fsum f0 (amounts (test_entries es)))
    (fsum f0 (amounts (unclaimed o (real_entries es))))
    (sort_by (fun a b => bytes_cmp a.(sb_label) b.(sb_label))
       (sorted_buckets iter (tally entry_day ∅ (real_entries es))))
    (sorted_buckets iter (tally (entry_group o) ∅ (real_entries es)))
    (sorted_buckets iter (tally entry_model_label ∅ (real_entries es))).
Proof. unfold aggregate. by rewrite aggregate_loop. Qed.

(** Requests are neither lost nor counted twice: the sizes of the slots. *)
Definition slot_count (m : slots) : nat := sum_list ((fun kv => kv.2.2) <$> map_to_list m).

Lemma slot_count_insert l v m :
  slot_count (<[l := v]> m) = (v.2 + slot_count (delete l m))%nat.
Proof.
  unfold slot_count. rewrite <- insert_delete_eq.
  by rewrite map_to_list_insert by apply lookup_delete_eq.
Qed.

Lemma slot_count_delete l v m :
  m !! l = Some v -> slot_count m = (v.2 + slot_count (delete l m))%nat.
Proof. intros H. unfold slot_count at 1. by rewrite <- (map_to_list_delete m l v H). Qed.

Lemma slot_count_bump l x m : slot_count (bump l x m) = S (slot_count m).
Proof.
  unfold bump. destruct (m !! l) as [[s n]|] eqn:E; cbn [default id].
  - rewrite slot_count_insert, (slot_count_delete l (s, n) m E). done.
  - by rewrite slot_count_insert, delete_id by done.
Qed.

Lemma slot_count_tally lab es m :
  (slot_count (tally lab m es) + length (base.filter (fun e => lab e = None) es))%nat =
  (slot_count m + length es)%nat.
Proof.
  revert m. induction es as [|e es IH]; intros m; [done|].
  change (tally lab m (e :: es)) with
    (tally lab (match lab e with Some l => bump l (entry_spend e) m | None => m end) es).
  rewrite filter_cons. destruct (lab e) as [l|] eqn:El.
  - rewrite decide_False by done. rewrite IH, slot_count_bump. cbn. lia.
  - rewrite decide_True by done. cbn [length]. specialize (IH m). lia.
Qed.

Definition request_count (bs : list SpendBucket) : nat := sum_list (sb_request_count <$> bs).

Lemma request_count_sorted iter `{!HashIter iter} m :
  request_count (sorted_buckets iter m) = slot_count m.
Proof.
  unfold request_count, sorted_buckets. rewrite sort_by_perm. unfold buckets_of, slot_count.
  rewrite <- list_fmap_compose, hash_iter_perm. f_equal. by apply list_fmap_ext; intros ? [? [? ?]].
Qed.

(** ** Claims *)

(** Who a request is charged to, of the three tables of ownership: the group of the
    Workshop whose living key made it, or failing that the group recorded with the key
    itself. *)
Definition charged_to (o : KeyOwnership) (e : SpendLogEntry) (g : option bytes) : Prop :=
  match e.(se_api_key) with
  | None => g = None
  | Some token =>
      (exists alias group, o.(alias_by_token) !! token = Some alias /\ o.(group_by_alias) !! alias = Some group /\ g = Some group) \/
      (forall alias, o.(alias_by_token) !! token = Some alias -> o.(group_by_alias) !! alias = None) /\
      g = o.(group_by_token) !! token
  end.

Lemma entry_group_charged o e : charged_to o e (entry_group o e).
Proof.
  unfold charged_to, entry_group, group_of. destruct (se_api_key e) as [t|]; [|done].
  destruct (alias_by_token o !! t) as [a|]; cbn [mbind option_bind]; [|by right].
  destruct (group_by_alias o !! a) as [g|] eqn:E; [left; by exists a, g|]. right. split; [|done]. by intros ? [= <-].
Qed.

(** The day of a request: the first ten bytes of its time, when they are whole characters. *)
Lemma entry_day_spec e d :
  entry_day e = Some d <->
  exists rest, e.(se_start_time) = Some (d ++ rest) /\ length d = 10%nat /\
    match rest with b :: _ => ~ 128 <= b < 192 | [] => True end.
Proof.
  unfold entry_day, str_prefix, is_char_boundary. split.
  - destruct (se_start_time e) as [t|]; cbn [mbind option_bind]; [|done].
    destruct (Nat.leb_spec 10 (length t)) as [Hl|]; cbn [andb]; [|done].
    destruct (match t !! 10%nat with Some b => _ | None => _ end) eqn:E; [|done]. intros [= <-].
    exists (drop 10 t). rewrite take_drop, length_take. split_and!; [done|lia|].
    destruct (t !! 10%nat) as [b|] eqn:E10; [|by rewrite drop_ge by (by apply lookup_ge_None)].
    rewrite (drop_S _ _ _ E10). apply negb_true_iff in E. lia.
  - intros (rest & -> & Hd & Hr). cbn [mbind option_bind]. rewrite length_app, (proj2 (Nat.leb_le _ _)) by lia. cbn [andb].
    rewrite lookup_app_r by lia. rewrite Hd, Nat.sub_diag. rewrite <- Hd, take_app_length.
    destruct rest as [|b rest]; cbn [lookup list_lookup].
    + by rewrite Nat.add_0_r, (proj2 (Nat.eqb_eq _ _)).
    + rewrite (proj2 (negb_true_iff _)); [done|lia].
Qed.

(** The dearest first and, of equal amounts, by label. *)
Definition dearest_first (a b : SpendBucket) : Prop :=
  flt a.(sb_spend_usd) b.(sb_spend_usd) = false /\
  (flt b.(sb_spend_usd) a.(sb_spend_usd) = false -> bytes_cmp a.(sb_label) b.(sb_label) <> Gt).

Lemma bucket_cmp_dearest a b :
  is_nan a.(sb_spend_usd) = false -> is_nan b.(sb_spend_usd) = false ->
  bucket_cmp a b <> Gt -> dearest_first a b.
Proof.
  intros Ha Hb. unfold bucket_cmp, dearest_first, cmp_or_equal, flt, SpecFloat.SFltb.
  pose proof (partial_cmp_key _ _ Ha Hb) as H1. pose proof (partial_cmp_key _ _ Hb Ha) as H2.
  unfold partial_cmp in *. rewrite H1, H2, (key_cmp_sym (fkey (sb_spend_usd b)) (fkey (sb_spend_usd a))).
  cbn [default from_option id].
  destruct (key_cmp (fkey (sb_spend_usd b)) (fkey (sb_spend_usd a))); cbn; by split.
Qed.

Lemma sorted_dearest bs :
  Forall (fun b => is_nan b.(sb_spend_usd) = false) bs ->
  StronglySorted (fun a b => bucket_cmp a b <> Gt) bs -> StronglySorted dearest_first bs.
Proof.
  induction 2 as [|a bs Hs IH Ha]; [constructor|]. apply Forall_cons in H as [H1 H2]. constructor; [by apply IH|].
  rewrite Forall_forall in *. intros b Hb. apply bucket_cmp_dearest; [done|by apply H2|by apply Ha].
Qed.

(** C24: what the spend report shows is exactly the reference, for amounts that are no NaN
    and not negative.  The totals are the sums, in the order of the log, of the real
    entries, of the test-priced ones and of those charged to no group; each breakdown holds,
    once each, the buckets of the labels that occur; a day is the first ten characters of the
    time, and a request is charged to the group of the Workshop whose living key made it,
    failing that to the group recorded with the key.  Days are in increasing order, groups
    and models with the dearest first, then by label.  Every real entry is counted once in the groups or is
    charged to none. *)
Theorem aggregate_spec iter `{!HashIter iter} es o :
  money es ->
  let r := aggregate iter es o in
  let real := real_entries es in
  r.(total_usd) = fsum f0 (amounts real) /\
  r.(test_pricing_usd) = fsum f0 (amounts (test_entries es)) /\
  (exists group, (forall e, charged_to o e (group e)) /\
     buckets_exact group real r.(by_group) /\
     r.(unattributed_usd) = fsum f0 (amounts (base.filter (fun e => group e = None) real)) /\
     (request_count r.(by_group) + length (base.filter (fun e => group e = None) real))%nat = length real) /\
  (exists day, (forall e d, day e = Some d <->
       exists rest, e.(se_start_time) = Some (d ++ rest) /\ length d = 10%nat /\
         match rest with b :: _ => ~ 128 <= b < 192 | [] => True end) /\
     buckets_exact day real r.(by_day)) /\
  buckets_exact (fun e => match e.(se_model) with Some (c :: m) => Some (c :: m) | _ => None end) real r.(by_model) /\
  StronglySorted (fun a b => bytes_cmp a.(sb_label) b.(sb_label) <> Gt) r.(by_day) /\
  StronglySorted dearest_first r.(by_group) /\
  StronglySorted dearest_first r.(by_model).
Proof.
  intros Hm r real. subst r real. rewrite aggregate_unfold. cbn [total_usd test_pricing_usd unattributed_usd by_day by_group by_model].
  pose proof (real_money es Hm) as Hr.
  pose proof (fun lab => buckets_of_exact iter lab (real_entries es)) as Hx.
  assert (Hs : forall lab, StronglySorted dearest_first (sorted_buckets iter (tally lab ∅ (real_entries es)))).
  { intros lab. apply sorted_dearest; [eapply bucket_not_nan; [done|by apply sorted_buckets_exact]|].
    apply (sort_by_sorted bucket_cmp (fun b => is_nan b.(sb_spend_usd) = false)).
    by eapply bucket_not_nan. }
  split_and!; try done.
  - exists (entry_group o). split_and!; [apply entry_group_charged|by apply sorted_buckets_exact|done|].
    rewrite request_count_sorted by done.
    pose proof (slot_count_tally (entry_group o) (real_entries es) ∅) as H.
    unfold slot_count in H at 2. by rewrite map_to_list_empty in H.
  - exists entry_day. split; [apply entry_day_spec|].
    eapply buckets_exact_perm; [symmetry; apply sort_by_perm|]. by apply sorted_buckets_exact.
  - assert (Hl : forall es bs, buckets_exact entry_model_label es bs -> buckets_exact
        (fun e => match e.(se_model) with Some (c :: m) => Some (c :: m) | _ => None end) es bs).
    { intros es0 bs [H1 H2]. split; [done|]. intros b. rewrite H2. unfold bucket_for.
      replace (labelled entry_model_label (sb_label b) es0) with
        (labelled (fun e => match e.(se_model) with Some (c :: m) => Some (c :: m) | _ => None end) (sb_label b) es0); [done|].
      apply list_filter_iff. intros e. unfold entry_model_label, entry_model. by destruct (se_model e) as [[]|]. }
    apply Hl. by apply sorted_buckets_exact.
  - apply (sort_by_sorted _ (fun _ => True)). by apply Forall_true.
Qed.

(** The report is a function of the log and of the ownership alone, whatever
    order the hash maps are iterated in. *)
Theorem aggregate_deterministic iter1 iter2 `{!HashIter iter1} `{!HashIter iter2} es o :
  money es -> aggregate iter1 es o = aggregate iter2 es o.
Proof.
  intros Hm%real_money. rewrite !aggregate_unfold.
  by rewrite !(sorted_buckets_iter iter1 iter2) by done.
Qed.

(** The budget of a Workshop is [None] exactly when the gateway fails for one of
    its two keys; otherwise the spend is the sum over all their entries, the count is
    their number, there is a ceiling when some entry has one, and it is one of them and
    the lowest. *)
Theorem workshop_budget_spec key_list name :
  (workshop_budget key_list name = None <->
   exists a, a ∈ key_aliases name /\ key_list a = None) /\
  (forall b ks, workshop_budget key_list name = Some b ->
     mapM key_list (key_aliases name) = Some ks ->
     Forall (fun x => is_nan x = false) (omap ki_max_budget (concat ks)) ->
     b.(spend_usd) = fsum f0 ((fun k => default f0 k.(ki_spend)) <$> concat ks) /\
     b.(key_count) = length (concat ks) /\
     (b.(max_budget_usd) = None <-> omap ki_max_budget (concat ks) = []) /\
     forall m, b.(max_budget_usd) = Some m ->
       m ∈ omap ki_max_budget (concat ks) /\
       forall x, x ∈ omap ki_max_budget (concat ks) -> fle m x).
Proof.
  unfold workshop_budget. split.
  - destruct (mapM key_list (key_aliases name)) as [ks|] eqn:E.
    + rewrite (budget_loop_app _ _ _ _ E). split; [done|]. intros (a & Ha & Hn).
      exfalso. apply mapM_Some_1 in E. destruct (list_elem_of_lookup_1 _ _ Ha) as [i Hi].
      destruct (Forall2_lookup_l _ _ _ _ _ E Hi) as (k & _ & Hk). congruence.
    + rewrite budget_loop_None by done. split; [|done]. intros _.
      apply mapM_None, Exists_exists in E. naive_solver.
  - intros b ks Hb Hks Hn. rewrite (budget_loop_app _ _ _ _ Hks) in Hb. apply (inj Some) in Hb as <-.
    rewrite foldl_add_key. cbn [spend_usd max_budget_usd key_count].
    destruct (lowest_ceiling _ None Hn) as [H1 H2]; [done|]. split_and!; [done|done|naive_solver|].
    intros m Hm. destruct (H2 m Hm) as ([?|?] & _ & ? & _); done.
Qed.

(** ** Witnesses *)

(** The log of the unit tests: a test-priced request, one of a living Workshop, one of
    a deleted one, one of the shared token. *)
Definition cents (n : Z) : f64 := fdiv (f64_of_Z n) (f64_of_Z 100).
Definition sample_log : list SpendLogEntry :=
  [mkEntry (Some (cents 1500)) (Some (B "openai/atelier-budget-test")) (Some (B "2026-08-31T10:00:00Z")) None;
   mkEntry (Some (cents 50)) (Some (B "deepseek/deepseek-chat")) (Some (B "2026-08-31T10:00:00Z")) (Some (B "hash-a"));
   mkEntry (Some (cents 75)) (Some (B "deepseek/deepseek-chat")) (Some (B "2026-08-30T10:00:00Z")) (Some (B "hash-c"));
   mkEntry (Some (cents 100)) (Some (B "modele-b")) (Some (B "2026-08-29")) None].
Definition sample_ownership : KeyOwnership :=
  mkOwnership {[B "hash-a" := B "atelier-wks-demo"]} {[B "atelier-wks-demo" := B "equipe-a"]}
    {[B "hash-c" := B "equipe-disparue"; B "hash-a" := B "ancienne"]}.

Example sample_report :
  aggregate map_to_list sample_log sample_ownership =
  mkReport (cents 225) (cents 1500) (cents 100)
    [mkBucket (B "2026-08-29") (cents 100) 1; mkBucket (B "2026-08-30") (cents 75) 1; mkBucket (B "2026-08-31") (cents 50) 1]
    [mkBucket (B "equipe-disparue") (cents 75) 1; mkBucket (B "equipe-a") (cents 50) 1]
    [mkBucket (B "deepseek/deepseek-chat") (cents 125) 2; mkBucket (B "modele-b") (cents 100) 1].
Proof. vm_compute. reflexivity. Qed.

Lemma sample_money : money sample_log.
Proof. unfold money, sample_log. repeat (apply Forall_cons; split; [vm_compute; reflexivity|]). constructor. Qed.

Lemma aggregate_spec_witness :
  (aggregate map_to_list sample_log sample_ownership).(total_usd) = fsum f0 (amounts (real_entries sample_log)) /\
  StronglySorted dearest_first (aggregate map_to_list sample_log sample_ownership).(by_group).
Proof.
  destruct (aggregate_spec map_to_list sample_log sample_ownership sample_money) as (H1 & _ & _ & _ & _ & _ & H2 & _).
  exact (conj H1 H2).
Defined.

Definition reverse_iter (m : slots) : list (bytes * (f64 * nat)) := rev (map_to_list m).
#[export] Instance reverse_iter_hash : HashIter reverse_iter.
Proof. intros m. unfold reverse_iter. symmetry. apply Permutation_rev. Qed.

Lemma aggregate_deterministic_witness :
  aggregate map_to_list sample_log sample_ownership = aggregate reverse_iter sample_log sample_ownership.
Proof. exact (aggregate_deterministic map_to_list reverse_iter sample_log sample_ownership sample_money). Defined.

Definition sample_keys (alias : bytes) : option (list KeyInfo) :=
  Some (if beq alias (B "atelier-wks-demo") then [mkKeyInfo (Some (cents 50)) (Some (cents 500)); mkKeyInfo None (Some (cents 200))]
        else [mkKeyInfo (Some (cents 25)) None]).

Lemma workshop_budget_witness :
  workshop_budget sample_keys (B "demo") = Some (mkBudget (cents 75) (Some (cents 200)) 3) /\
  fle (cents 200) (cents 500).
Proof.
  split; [vm_compute; reflexivity|].
  destruct (workshop_budget_spec sample_keys (B "demo")) as [_ H].
  destruct (H (mkBudget (cents 75) (Some (cents 200)) 3) _ ltac:(vm_compute; reflexivity) ltac:(vm_compute; reflexivity)
              ltac:(repeat constructor)) as (_ & _ & _ & Hm).
  apply (Hm (cents 200) eq_refl). apply list_elem_of_In. vm_compute. left. reflexivity.
Defined.
