(* ===== verification/OpenBao.v ===== *)
(** * The OpenBao client and its users in the API server

    [crates/common/src/openbao_client.rs], [crates/api-server/src/session_auth.rs] and
    [credentials.rs].  OpenBao is a server reached over HTTP: a state type and a
    function from requests to answers ([server]); what is relied on of its KV v2
    store is the class [KvV2], with an instance.  A request that is not answered, an
    error status and an answer that is not JSON are all modelled. *)

From S2P Require Import Prelude RustStr Json LlmBudget IdentityRules.

(** ** Requests *)

Inductive http_method := HGet | HPost | HPut | HDelete.

Record bao_request := mkReq {
  br_method : http_method; br_path : bytes; br_token : option bytes; br_body : option json }.

(** What a request is answered: nothing, or a status and a body ([None] when it is not
    JSON), and the state the server is left in. *)
Definition server (S : Type) := S -> bao_request -> S * option (Z * option json).

(** [Value]'s [Index]: [Null] for what is not there. *)
Definition jidx (j : json) (k : bytes) : json := default JNull (jget k j).
Definition as_str (j : json) : option bytes := match j with JStr s => Some s | _ => None end.

(** [struct OpenBaoClient], less the address, which every path is relative to. *)
Record OpenBaoClient := mkClient { oc_workshop_name : bytes; oc_role : bytes; oc_sa_token_path : bytes }.

(** [fn from_env_with_role] and [fn from_env]. *)
Definition DEFAULT_SA_TOKEN_PATH : bytes := B "/var/run/secrets/kubernetes.io/serviceaccount/token".
Definition from_env_with_role (env : string -> option bytes) (workshop_name role : bytes) : OpenBaoClient :=
  mkClient workshop_name role (default DEFAULT_SA_TOKEN_PATH (env "ATELIER_K8S_SA_TOKEN_PATH"%string)).
Definition client_from_env (env : string -> option bytes) (workshop_name : bytes) : OpenBaoClient :=
  from_env_with_role env workshop_name (B "workshop-" ++ workshop_name).

Definition data_path (workshop_name secret_path : bytes) : bytes :=
  B "/v1/secret/data/workshops/" ++ workshop_name ++ B "/" ++ secret_path.
Definition metadata_path (workshop_name secret_path : bytes) : bytes :=
  B "/v1/secret/metadata/workshops/" ++ workshop_name ++ B "/" ++ secret_path.

(** [.send().await.context(..)?.error_for_status().context(..)?]. *)
Definition sent_ok (answer : option (Z * option json)) (unreachable refused : string) : res (option json) :=
  match answer with
  | None => Err unreachable
  | Some (status, body) => if 400 <=? status then Err refused else Ok body
  end.

Section client.
Context {S : Type} (tr : server S).
(** [tokio::fs::read_to_string]. *)
Context (read_file : bytes -> option bytes).

(** [fn login]. *)
Definition login (c : OpenBaoClient) (s : S) : S * res bytes :=
  match read_file c.(oc_sa_token_path) with
  | None => (s, Err "lecture du token ServiceAccount")
  | Some jwt =>
      let '(s, answer) := tr s (mkReq HPost (B "/v1/auth/kubernetes/login") None
        (Some (JObj [(B "jwt", JStr (trim jwt)); (B "role", JStr c.(oc_role))]))) in
      (s, body ← sent_ok answer "requete de login OpenBao" "login OpenBao refuse";
          response ← ok_or body "reponse de login OpenBao invalide";
          ok_or (as_str (jidx (jidx response (B "auth")) (B "client_token")))
            "client_token absent de la reponse de login OpenBao")
  end.

(** [fn read_field_for] and [fn read_field]. *)
Definition read_field_for (s : S) (client_token workshop_name secret_path field : bytes) : S * res bytes :=
  let '(s, answer) := tr s (mkReq HGet (data_path workshop_name secret_path) (Some client_token) None) in
  (s, body ← sent_ok answer "requete de lecture de secret OpenBao" "lecture de secret OpenBao refusee";
      response ← ok_or body "reponse de lecture OpenBao invalide";
      ok_or (as_str (jidx (jidx (jidx response (B "data")) (B "data")) field)) "champ absent du secret").
Definition read_field (c : OpenBaoClient) (s : S) (client_token secret_path field : bytes) : S * res bytes :=
  read_field_for s client_token c.(oc_workshop_name) secret_path field.

(** [fn write_fields_for] and [fn write_field_for]; a repeated field keeps its last
    value, as in the map the body is built from. *)
Definition fields_map (fields : list (bytes * bytes)) : gmap bytes bytes := list_to_map (rev fields).
Definition fields_json (m : gmap bytes bytes) : json := JObj (prod_map id JStr <$> map_to_list m).
Definition write_fields_for (s : S) (client_token workshop_name secret_path : bytes)
    (fields : list (bytes * bytes)) : S * res unit :=
  let '(s, answer) := tr s (mkReq HPost (data_path workshop_name secret_path) (Some client_token)
    (Some (JObj [(B "data", fields_json (fields_map fields))]))) in
  (s, _ ← sent_ok answer "requete d'ecriture de secret OpenBao" "ecriture de secret OpenBao refusee"; Ok tt).
Definition write_field_for (s : S) (client_token workshop_name secret_path field value : bytes) : S * res unit :=
  write_fields_for s client_token workshop_name secret_path [(field, value)].

(** [fn delete_secret_for]. *)
Definition delete_secret_for (s : S) (client_token workshop_name secret_path : bytes) : S * res unit :=
  let '(s, answer) := tr s (mkReq HDelete (metadata_path workshop_name secret_path) (Some client_token) None) in
  (s, _ ← sent_ok answer "requete de suppression de secret OpenBao" "suppression de secret OpenBao refusee"; Ok tt).

(** ** The session client of the API server *)

Definition API_SERVER_OPENBAO_ROLE : bytes := B "atelier-api-server".
(** [TOKEN_TTL_MARGIN], in seconds; the role's tokens live fifteen minutes. *)
Definition TOKEN_TTL_MARGIN : Z := 12 * 60.

(** [struct SessionAuthClient]: the cached token with the instant it was obtained, and
    the cookies of code-server by Workshop. *)
Record SessionAuthClient := mkSession {
  sc_client : OpenBaoClient; cached_token : option (bytes * Z); code_server_cookies : gmap bytes bytes }.

Definition session_from_env (env : string -> option bytes) : SessionAuthClient :=
  mkSession (from_env_with_role env [] API_SERVER_OPENBAO_ROLE) None ∅.

Definition code_server_cookie (c : SessionAuthClient) (workshop_name : bytes) : option bytes :=
  c.(code_server_cookies) !! workshop_name.
Definition store_code_server_cookie (c : SessionAuthClient) (workshop_name cookie : bytes) : SessionAuthClient :=
  mkSession c.(sc_client) c.(cached_token) (<[workshop_name := cookie]> c.(code_server_cookies)).
Definition forget_code_server_cookie (c : SessionAuthClient) (workshop_name : bytes) : SessionAuthClient :=
  mkSession c.(sc_client) c.(cached_token) (delete workshop_name c.(code_server_cookies)).

(** [fn client_token]; [now] is [Instant::now()]. *)
Definition client_token (c : SessionAuthClient) (s : S) (force_refresh : bool) (now : Z)
  : S * SessionAuthClient * res bytes :=
  let cached := if force_refresh then None
                else match c.(cached_token) with
                     | Some (token, obtained_at) =>
                         if now - obtained_at <? TOKEN_TTL_MARGIN then Some token else None
                     | None => None
                     end in
  match cached with
  | Some token => (s, c, Ok token)
  | None =>
      match login c.(sc_client) s with
      | (s, Ok token) => (s, mkSession c.(sc_client) (Some (token, now)) c.(code_server_cookies), Ok token)
      | (s, r) => (s, c, r)
      end
  end.

(** [fn read_secret_field]; [now] and [now'] are the instants of the two logins. *)
Definition read_secret_field (c : SessionAuthClient) (s : S) (workshop_name secret_path field : bytes) (now now' : Z)
  : S * SessionAuthClient * option bytes :=
  match client_token c s false now with
  | (s, c, Ok token) =>
      match read_field_for s token workshop_name secret_path field with
      | (s, Ok value) => (s, c, Some value)
      | (s, _) =>
          match client_token c s true now' with
          | (s, c, Ok token) =>
              let '(s, r) := read_field_for s token workshop_name secret_path field in (s, c, res_ok r)
          | (s, c, _) => (s, c, None)
          end
      end
  | (s, c, _) => (s, c, None)
  end.

(** [fn session_password] and [fn ssh_private_key]. *)
Definition session_password c s workshop_name now now' :=
  read_secret_field c s workshop_name (B "session_auth") (B "password") now now'.
Definition ssh_private_key c s workshop_name now now' :=
  read_secret_field c s workshop_name (B "ssh_key") (B "privateKey") now now'.

(** [fn write_secret_fields], [fn write_secret_field], [fn delete_secret]. *)
Definition write_secret_fields (c : SessionAuthClient) (s : S) (workshop_name secret_path : bytes)
    (fields : list (bytes * bytes)) (now : Z) : S * SessionAuthClient * res unit :=
  match client_token c s false now with
  | (s, c, Ok token) =>
      let '(s, r) := write_fields_for s token workshop_name secret_path fields in (s, c, r)
  | (s, c, Err e) => (s, c, Err e)
  | (s, c, Panic) => (s, c, Panic)
  end.
Definition write_secret_field (c : SessionAuthClient) (s : S) (workshop_name secret_path field value : bytes) (now : Z)
  : S * SessionAuthClient * res unit :=
  write_secret_fields c s workshop_name secret_path [(field, value)] now.
Definition delete_secret (c : SessionAuthClient) (s : S) (workshop_name secret_path : bytes) (now : Z)
  : S * SessionAuthClient * res unit :=
  match client_token c s false now with
  | (s, c, Ok token) => let '(s, r) := delete_secret_for s token workshop_name secret_path in (s, c, r)
  | (s, c, Err e) => (s, c, Err e)
  | (s, c, Panic) => (s, c, Panic)
  end.
End client.

(** ** Credentials *)

Definition CREDENTIAL_FIELD : bytes := B "value".

(** One character of the host, after [to_ascii_lowercase]: those that are neither
    alphanumeric, dots nor dashes become a dash.  Of a character of several bytes the
    first stands for it. *)
Definition is_ascii_alphanumeric (b : Z) : bool :=
  is_ascii_digit b || is_ascii_upper b || ((97 <=? b) && (b <=? 122)).
Definition is_continuation (b : Z) : bool := (128 <=? b) && (b <? 192).
Definition slug_char (b : Z) : bytes :=
  if is_continuation b then []
  else if is_ascii_alphanumeric b || (b =? 46) || (b =? 45) then [b] else [45].
Definition slug_of (host : bytes) : bytes := mjoin (slug_char <$> to_ascii_lowercase host).

(** [slug.replace("..", "-")]: left to right, without overlaps. *)
Fixpoint replace_dots (s : bytes) : bytes :=
  match s with
  | [] => []
  | c :: r =>
      match r with
      | d :: r' => if (c =? 46) && (d =? 46) then 45 :: replace_dots r' else c :: replace_dots r
      | [] => [c]
      end
  end.

(** [while slug.contains("..") { slug = slug.replace("..", "-") }]. *)
Fixpoint crush_dots (fuel : nat) (slug : bytes) : option bytes :=
  if contains slug (B "..") then
    match fuel with O => None | S fuel => crush_dots fuel (replace_dots slug) end
  else Some slug.

(** [trim_matches('.')]. *)
Definition trim_dots (s : bytes) : bytes := rev (drop_while (Z.eqb 46) (rev (drop_while (Z.eqb 46) s))).

(** [fn secret_path]; [None] would be a loop that does not end. *)
Definition secret_path (host : bytes) : option bytes :=
  let slug := slug_of host in
  match crush_dots (length slug) slug with
  | None => None
  | Some slug =>
      let slug := trim_dots slug in
      let slug := if is_empty slug then B "sans-nom" else slug in
      Some (B "credentials/" ++ slug)
  end.

(** ** The path of a credential *)

Lemma contains_spec s p : contains s p = true <-> exists a b, s = a ++ p ++ b.
Proof.
  induction s as [|c s IH]; cbn [contains].
  - rewrite orb_false_r, starts_with_true. split.
    + intros [r H]. by exists [], r.
    + intros (a & b & H). symmetry in H. apply app_nil in H as [-> H]. by exists b.
  - rewrite orb_true_iff, starts_with_true, IH. split.
    + intros [[r ->]|(a & b & ->)]; [by exists [], r|by exists (c :: a), b].
    + intros ([|x a] & b & H); [left; by exists b|right]. injection H as -> ->. by exists a, b.
Qed.

Lemma contains_infix a s b p : contains (a ++ s ++ b) p = false -> contains s p = false.
Proof.
  rewrite <- !not_true_iff_false, !contains_spec. intros H (x & y & ->). apply H.
  exists (a ++ x), (y ++ b). by rewrite <- !app_assoc.
Qed.

Lemma dots_cons c s :
  contains (c :: s) (B "..") = ((c =? 46) && bool_decide (head s = Some 46)) || contains s (B "..").
Proof.
  cbn [contains]. f_equal. apply eq_iff_eq_true.
  rewrite starts_with_true, andb_true_iff, Z.eqb_eq, bool_decide_eq_true. split.
  - intros [r [= -> ->]]. done.
  - intros [-> H]. destruct s as [|d s]; [done|]. injection H as ->. by exists s.
Qed.

Lemma replace_dots_head s : head s <> Some 46 -> head (replace_dots s) = head s.
Proof.
  destruct s as [|c [|d r]]; cbn; try done. intros H.
  destruct (c =? 46) eqn:E; [|done]. apply Z.eqb_eq in E as ->. done.
Qed.

Lemma replace_dots_done n s : (length s <= n)%nat -> contains (replace_dots s) (B "..") = false.
Proof.
  revert s. induction n as [|n IH]; intros [|c [|d r]] Hn; cbn [length] in Hn; try lia; try done.
  - cbn [replace_dots]. rewrite dots_cons. cbn. by rewrite andb_false_r.
  - cbn [replace_dots]. destruct ((c =? 46) && (d =? 46)) eqn:E.
    + rewrite dots_cons. cbn [Z.eqb Pos.eqb andb orb]. apply IH. lia.
    + rewrite dots_cons. change (match r with [] => _ | _ => _ end) with (replace_dots (d :: r)).
      rewrite IH by (cbn; lia). rewrite orb_false_r. apply andb_false_iff.
      destruct (c =? 46) eqn:Ec; [right|by left]. cbn in E. apply bool_decide_eq_false.
      rewrite replace_dots_head; cbn; [|intros [= ->]; done]. intros [= ->]. done.
Qed.

(** The loop ends after at most one round. *)
Lemma crush_dots_total slug fuel :
  (1 <= fuel)%nat \/ contains slug (B "..") = false ->
  crush_dots fuel slug = Some (if contains slug (B "..") then replace_dots slug else slug).
Proof.
  intros H. destruct fuel as [|fuel]; cbn [crush_dots].
  - destruct H as [H|H]; [lia|]. by rewrite H.
  - destruct (contains slug (B "..")); [|done].
    destruct fuel; cbn [crush_dots]; by rewrite (replace_dots_done (length slug)).
Qed.

Definition safe_char (b : Z) : Prop :=
  (97 <= b <= 122) \/ (48 <= b <= 57) \/ b = 46 \/ b = 45.

Lemma slug_of_safe host : Forall safe_char (slug_of host).
Proof.
  unfold slug_of. apply Forall_join, Forall_fmap. rewrite Forall_forall. intros b Hb.
  apply list_elem_of_fmap in Hb as (c & -> & _). cbn. unfold slug_char, is_ascii_alphanumeric, lower_byte.
  destruct (is_ascii_upper c) eqn:Eu; unfold is_ascii_upper, is_ascii_digit, is_continuation in *;
    repeat case_match; (apply Forall_nil_2 || (apply Forall_singleton; unfold safe_char; lia)).
Qed.

Lemma replace_dots_safe n s : (length s <= n)%nat -> Forall safe_char s -> Forall safe_char (replace_dots s).
Proof.
  revert s. induction n as [|n IH]; intros [|c [|d r]] Hn Hs; cbn [length] in Hn; try lia; try done.
  cbn [replace_dots]. inversion_clear Hs as [|? ? Hc Hs']. inversion_clear Hs' as [|? ? Hd Hr].
  destruct ((c =? 46) && (d =? 46)).
  - constructor; [unfold safe_char; lia|]. apply IH; [lia|done].
  - constructor; [done|]. apply (IH (d :: r)); [cbn; lia|by constructor].
Qed.

Lemma drop_while_dots s :
  exists a, s = a ++ drop_while (Z.eqb 46) s /\ head (drop_while (Z.eqb 46) s) <> Some 46.
Proof.
  induction s as [|c s IH]; cbn [drop_while]; [by exists []|].
  destruct (46 =? c) eqn:E.
  - destruct IH as (a & Ha & Hh). exists (c :: a). split; [cbn; by rewrite <- Ha|done].
  - exists []. split; [done|]. cbn. intros [= ->]. done.
Qed.

Lemma trim_dots_spec s :
  exists a b, s = a ++ trim_dots s ++ b /\ head (trim_dots s) <> Some 46 /\ last (trim_dots s) <> Some 46.
Proof.
  unfold trim_dots. destruct (drop_while_dots s) as (a & Ha & Hh).
  set (t := drop_while (Z.eqb 46) s) in *. destruct (drop_while_dots (rev t)) as (b & Hb & Hh').
  set (u := drop_while (Z.eqb 46) (rev t)) in *. exists a, (rev b).
  assert (Ht : t = rev u ++ rev b) by (rewrite <- rev_app_distr, <- Hb; by rewrite rev_involutive).
  split_and!.
  - by rewrite <- Ht.
  - destruct (rev u) as [|x v] eqn:Eu; [done|]. intros H. apply Hh. rewrite Ht. done.
  - intros H. apply Hh'. rewrite <- H. destruct u as [|x v]; [done|]. cbn [rev]. by rewrite last_snoc.
Qed.

Lemma secret_path_shape host :
  exists slug, secret_path host = Some (B "credentials/" ++ slug) /\ slug <> [] /\
    Forall safe_char slug /\ contains slug (B "..") = false /\
    head slug <> Some 46 /\ last slug <> Some 46.
Proof.
  unfold secret_path. rewrite crush_dots_total.
  2: { destruct (slug_of host); [by right|left; cbn; lia]. }
  set (t := if contains _ _ then _ else _).
  assert (Ht : contains t (B "..") = false /\ Forall safe_char t).
  { unfold t. destruct (contains (slug_of host) (B "..")) eqn:E; split; try done;
      [by eapply replace_dots_done|eapply replace_dots_safe; [done|]|]; apply slug_of_safe. }
  destruct Ht as [Hc Hs]. destruct (trim_dots_spec t) as (a & b & Heq & Hh & Hl).
  destruct (trim_dots t) as [|x v] eqn:E; cbn [is_empty].
  - exists (B "sans-nom"). split_and!; try done.
    change (B "sans-nom") with [115; 97; 110; 115; 45; 110; 111; 109].
    repeat (apply Forall_cons; split; [unfold safe_char; lia|]). constructor.
  - exists (x :: v). split_and!; try done.
    + rewrite Heq in Hs. apply Forall_app in Hs as [_ Hs]. by apply Forall_app in Hs as [Hs _].
    + rewrite Heq in Hc. by apply contains_infix in Hc.
Qed.

(** Hosts that differ only in case, or in characters outside [[a-z0-9.-]], share their
    secret. *)
Lemma secret_path_collision :
  secret_path (B "api_v1.example.org") = secret_path (B "api-v1.example.org") /\
  forall host, secret_path (to_ascii_lowercase host) = secret_path host.
Proof.
  split; [vm_compute; reflexivity|]. intros host. unfold secret_path, slug_of.
  by rewrite to_ascii_lowercase_idem.
Qed.

(** ** The KV v2 store *)

(** The name of a secret in the store. *)
Definition secret_id (workshop_name secret_path : bytes) : bytes :=
  B "workshops/" ++ workshop_name ++ B "/" ++ secret_path.
Definition kv_data (id : bytes) : bytes := B "/v1/secret/data/" ++ id.
Definition kv_metadata (id : bytes) : bytes := B "/v1/secret/metadata/" ++ id.

(** What the client relies on of OpenBao's KV v2 engine and of its login: a secret has
    a current version, a map of fields; a write replaces the whole of it, a deletion of
    its metadata removes it, nothing else changes a secret, and an error status changes
    nothing.  [kv_grants] is the policy of a token. *)
Class KvV2 {S : Type} (tr : server S) := {
  kv_view : S -> bytes -> option (gmap bytes bytes);
  kv_grants : S -> bytes -> http_method -> bytes -> bool;
  kv_login_view s body id :
    kv_view (tr s (mkReq HPost (B "/v1/auth/kubernetes/login") None body)).1 id = kv_view s id;
  kv_get_view s tok id id' : kv_view (tr s (mkReq HGet (kv_data id) (Some tok) None)).1 id' = kv_view s id';
  kv_get_answer s tok id st j :
    (tr s (mkReq HGet (kv_data id) (Some tok) None)).2 = Some (st, Some j) -> st < 400 ->
    exists d, kv_view s id = Some d /\ forall f, as_str (jidx (jidx (jidx j (B "data")) (B "data")) f) = d !! f;
  kv_get_granted s tok id d :
    kv_grants s tok HGet id = true -> kv_view s id = Some d ->
    exists st j, (tr s (mkReq HGet (kv_data id) (Some tok) None)).2 = Some (st, Some j) /\ st < 400;
  kv_post_frame s tok id id' body :
    id' <> id -> kv_view (tr s (mkReq HPost (kv_data id) (Some tok) body)).1 id' = kv_view s id';
  kv_post_done s tok id data st b :
    (tr s (mkReq HPost (kv_data id) (Some tok) (Some (JObj [(B "data", data)])))).2 = Some (st, b) ->
    if st <? 400
    then exists d, kv_view (tr s (mkReq HPost (kv_data id) (Some tok) (Some (JObj [(B "data", data)])))).1 id = Some d /\
                   forall f, d !! f = as_str (jidx data f)
    else kv_view (tr s (mkReq HPost (kv_data id) (Some tok) (Some (JObj [(B "data", data)])))).1 id = kv_view s id;
  kv_delete_frame s tok id id' :
    id' <> id -> kv_view (tr s (mkReq HDelete (kv_metadata id) (Some tok) None)).1 id' = kv_view s id';
  kv_delete_done s tok id st b :
    (tr s (mkReq HDelete (kv_metadata id) (Some tok) None)).2 = Some (st, b) ->
    kv_view (tr s (mkReq HDelete (kv_metadata id) (Some tok) None)).1 id =
      if st <? 400 then None else kv_view s id }.

Lemma data_path_id n p : data_path n p = kv_data (secret_id n p).
Proof. done. Qed.
Lemma metadata_path_id n p : metadata_path n p = kv_metadata (secret_id n p).
Proof. done. Qed.

(** Workshops named by DNS labels do not share secrets. *)
Lemma secret_id_inj n1 p1 n2 p2 :
  47 ∉ n1 -> 47 ∉ n2 -> secret_id n1 p1 = secret_id n2 p2 -> n1 = n2 /\ p1 = p2.
Proof.
  intros H1 H2 H. unfold secret_id in H. apply (inj (app _)) in H. cbn [B app] in H.
  apply (f_equal (split_once 47)) in H. rewrite !split_once_app in H by done. naive_solver.
Qed.

Lemma assoc_map_to_list (m : gmap bytes bytes) f :
  assoc f (prod_map id JStr <$> map_to_list m) = JStr <$> m !! f.
Proof.
  induction m as [|k v m Hk IH] using map_ind.
  - by rewrite map_to_list_empty, lookup_empty.
  - assert (Hp : forall l : list (bytes * bytes), NoDup l.*1 ->
      forall l', l ≡ₚ l' -> assoc f (prod_map id JStr <$> l) = assoc f (prod_map id JStr <$> l')).
    { clear. intros l Hnd l' Hp. induction Hp as [|[k v] l l' Hp IH|[k v] [k' v'] l|l1 l2 l3 H1 IH1 H2 IH2]; cbn.
      - done.
      - cbn in Hnd. apply NoDup_cons in Hnd as [_ Hnd]. case_match; [done|by apply IH].
      - cbn in Hnd. unfold id. destruct (beq f k) eqn:E1, (beq f k') eqn:E2; try done.
        apply beq_true in E1 as <-. apply beq_true in E2 as <-.
        apply NoDup_cons in Hnd as [Hnd _]. set_solver.
      - rewrite IH1 by done. apply IH2. by rewrite <- H1. }
    rewrite (Hp _ (NoDup_fst_map_to_list _) _ (map_to_list_insert m k v Hk)). cbn. unfold id.
    destruct (beq f k) eqn:E; [apply beq_true in E as ->; by rewrite lookup_insert_eq|].
    apply beq_false in E. by rewrite lookup_insert_ne.
Qed.

Lemma fields_json_lookup m f : as_str (jidx (fields_json m) f) = m !! f.
Proof.
  unfold jidx, jget, fields_json. cbn [fields_of]. rewrite assoc_map_to_list.
  by destruct (m !! f).
Qed.

Section kv.
Context {S : Type} (tr : server S) `{KV : !KvV2 tr}.

Lemma write_fields_effect s tok n p fields s' r :
  write_fields_for tr s tok n p fields = (s', r) ->
  (forall id, id <> secret_id n p -> kv_view s' id = kv_view s id) /\
  (r = Ok tt -> kv_view s' (secret_id n p) = Some (fields_map fields)).
Proof using KV.
  unfold write_fields_for. rewrite data_path_id.
  destruct (tr s _) as [s1 a] eqn:E. intros [= <- <-]. split.
  - intros id Hid. pose proof (kv_post_frame s tok (secret_id n p) id
      (Some (JObj [(B "data", fields_json (fields_map fields))])) Hid) as H. by rewrite E in H.
  - destruct a as [[st b]|]; cbn [sent_ok mbind res_bind]; [|done]. destruct (400 <=? st) eqn:Est; [done|].
    intros _. pose proof (kv_post_done s tok (secret_id n p) (fields_json (fields_map fields)) st b) as H.
    rewrite E in H. specialize (H eq_refl). replace (st <? 400) with true in H by lia. cbn [fst] in H.
    destruct H as (d & -> & Hd). f_equal. apply map_eq. intros f. by rewrite Hd, fields_json_lookup.
Qed.

Lemma read_field_value s tok n p field s' r :
  read_field_for tr s tok n p field = (s', r) ->
  (forall id, kv_view s' id = kv_view s id) /\
  (forall v, r = Ok v -> exists d, kv_view s (secret_id n p) = Some d /\ d !! field = Some v).
Proof using KV.
  unfold read_field_for. rewrite data_path_id. destruct (tr s _) as [s1 a] eqn:E. intros [= <- <-]. split.
  - intros id. pose proof (kv_get_view s tok (secret_id n p) id) as H. by rewrite E in H.
  - intros v. destruct a as [[st b]|]; cbn [sent_ok mbind res_bind ok_or]; [|done].
    destruct (400 <=? st) eqn:Est; [done|]. destruct b as [j|]; cbn [ok_or mbind res_bind]; [|done].
    destruct (as_str _) as [x|] eqn:Ex; [|done]. intros [= <-].
    destruct (kv_get_answer s tok (secret_id n p) st j) as (d & Hd & Hf); [by rewrite E|lia|].
    exists d. by rewrite <- Hf.
Qed.

Lemma read_field_granted s tok n p field d v :
  kv_grants s tok HGet (secret_id n p) = true -> kv_view s (secret_id n p) = Some d -> d !! field = Some v ->
  (read_field_for tr s tok n p field).2 = Ok v.
Proof using KV.
  intros Hg Hd Hv. destruct (kv_get_granted s tok _ d Hg Hd) as (st & j & Ha & Hst).
  destruct (kv_get_answer s tok _ st j Ha Hst) as (d' & Hd' & Hf). simplify_eq.
  unfold read_field_for. rewrite data_path_id. destruct (tr s _) as [s1 a]. cbn in Ha. subst a. cbn [snd sent_ok].
  replace (400 <=? st) with false by lia. cbn [mbind res_bind ok_or]. by rewrite Hf, Hv.
Qed.

Lemma delete_secret_effect s tok n p s' r :
  delete_secret_for tr s tok n p = (s', r) ->
  (forall id, id <> secret_id n p -> kv_view s' id = kv_view s id) /\
  (r = Ok tt -> kv_view s' (secret_id n p) = None).
Proof using KV.
  unfold delete_secret_for. rewrite metadata_path_id. destruct (tr s _) as [s1 a] eqn:E. intros [= <- <-]. split.
  - intros id Hid. pose proof (kv_delete_frame s tok (secret_id n p) id Hid) as H. by rewrite E in H.
  - destruct a as [[st b]|]; cbn [sent_ok mbind res_bind]; [|done]. destruct (400 <=? st) eqn:Est; [done|].
    intros _. pose proof (kv_delete_done s tok (secret_id n p) st b) as H. rewrite E in H.
    specialize (H eq_refl). cbn [fst] in H. rewrite H. by replace (st <? 400) with true by lia.
Qed.

Lemma login_frame rf c s id : kv_view (login tr rf c s).1 id = kv_view s id.
Proof using KV.
  unfold login. destruct (rf _) as [jwt|]; [|done].
  pose proof (kv_login_view s (Some (JObj [(B "jwt", JStr (trim jwt)); (B "role", JStr (oc_role c))])) id) as H.
  destruct (tr s _) as [s1 a]. done.
Qed.

Lemma client_token_frame rf c s force now id :
  kv_view (client_token tr rf c s force now).1.1 id = kv_view s id.
Proof using KV.
  unfold client_token. pose proof (login_frame rf (sc_client c) s id) as H.
  destruct (if force then _ else _); [done|]. destruct (login tr rf (sc_client c) s) as [s1 [t|e|]]; done.
Qed.

(** Reading a secret changes none. *)
Lemma read_secret_frame rf c s n p f now now' id :
  kv_view (read_secret_field tr rf c s n p f now now').1.1 id = kv_view s id.
Proof using KV.
  unfold read_secret_field.
  pose proof (client_token_frame rf c s false now id) as H1.
  destruct (client_token tr rf c s false now) as [[s1 c1] [t|e|]]; [|done..]. cbn [fst] in H1.
  assert (Hr : forall s t, kv_view (read_field_for tr s t n p f).1 id = kv_view s id).
  { intros s0 t0. unfold read_field_for. rewrite data_path_id.
    pose proof (kv_get_view s0 t0 (secret_id n p) id) as Hg. by destruct (tr s0 _). }
  specialize (Hr s1 t) as Hr1. destruct (read_field_for tr s1 t n _ _) as [s2 [v|e|]]; cbn [fst] in *; [congruence|..];
    (pose proof (client_token_frame rf c1 s2 true now' id) as H2;
     destruct (client_token tr rf c1 s2 true now') as [[s3 c3] [t3|e3|]]; cbn [fst] in *; [|congruence..];
     specialize (Hr s3 t3); destruct (read_field_for tr s3 t3 n _ _) as [s4 r4]; cbn [fst] in *; congruence).
Qed.

(** The token handed out was obtained less than twelve minutes ago, and a forced
    refresh is a new one. *)
Lemma client_token_fresh rf c s force now s' c' token :
  (forall t at_, c.(cached_token) = Some (t, at_) -> at_ <= now) ->
  client_token tr rf c s force now = (s', c', Ok token) ->
  exists obtained_at, c'.(cached_token) = Some (token, obtained_at) /\
    0 <= now - obtained_at < TOKEN_TTL_MARGIN /\ (force = true -> obtained_at = now).
Proof.
  intros Hc. unfold client_token. set (cached := if force then _ else _).
  destruct cached as [t|] eqn:E.
  - intros [= <- <- <-]. unfold cached in E. destruct force; [done|].
    destruct (cached_token c) as [[t' at_]|] eqn:Ec; [|done].
    destruct (now - at_ <? TOKEN_TTL_MARGIN) eqn:El; [|done]. injection E as ->.
    exists at_. specialize (Hc _ _ eq_refl). split_and!; [done|lia|lia|done].
  - destruct (login tr rf (sc_client c) s) as [s1 [t|e|]]; intros [= <- <- <-].
    exists now. cbn. unfold TOKEN_TTL_MARGIN. split_and!; [done|lia|lia|done].
Qed.
End kv.

(** ** A server *)

(** A store of secrets that accepts one token and grants it everything. *)
Definition toy_token : bytes := B "s.toy".
Definition string_fields (j : json) : gmap bytes bytes := omap as_str (list_to_map (fields_of j)).
Definition toy_server : server (gmap bytes (gmap bytes bytes)) := fun s req =>
  let granted := bool_decide (req.(br_token) = Some toy_token) in
  match req.(br_method) with
  | HGet =>
      match strip_prefix (B "/v1/secret/data/") req.(br_path) with
      | Some id => match s !! id with
                   | Some d => if granted then (s, Some (200, Some (JObj [(B "data", JObj [(B "data", fields_json d)])])))
                               else (s, Some (403, None))
                   | None => (s, Some (404, None))
                   end
      | None => (s, Some (404, None))
      end
  | HPost | HPut =>
      match strip_prefix (B "/v1/secret/data/") req.(br_path), req.(br_body) with
      | Some id, Some j => if granted then (<[id := string_fields (jidx j (B "data"))]> s, Some (200, None))
                           else (s, Some (403, None))
      | Some _, None => (s, Some (400, None))
      | None, _ => (s, Some (200, Some (JObj [(B "auth", JObj [(B "client_token", JStr toy_token)])])))
      end
  | HDelete =>
      match strip_prefix (B "/v1/secret/metadata/") req.(br_path) with
      | Some id => if granted then (delete id s, Some (204, None)) else (s, Some (403, None))
      | None => (s, Some (404, None))
      end
  end.

Lemma list_to_map_assoc {A} (l : list (bytes * A)) k : (list_to_map l : gmap bytes A) !! k = assoc k l.
Proof.
  induction l as [|[k' v] l IH]; [done|]. cbn [list_to_map foldr assoc]. cbn.
  destruct (beq k k') eqn:E; [apply beq_true in E as ->; by rewrite lookup_insert_eq|].
  apply beq_false in E. rewrite lookup_insert_ne by done. apply IH.
Qed.

Lemma string_fields_lookup j f : string_fields j !! f = as_str (jidx j f).
Proof.
  unfold string_fields, jidx, jget. rewrite lookup_omap, list_to_map_assoc. by destruct (assoc f (fields_of j)).
Qed.

#[export, refine] Instance toy_server_kv : KvV2 toy_server :=
  {| kv_view s id := s !! id;
     kv_grants s tok m id := bool_decide (tok = toy_token) |}.
Proof.
  - intros s body id. unfold toy_server. cbn [br_method br_path]. by destruct body.
  - intros s tok id id'. unfold toy_server, kv_data. cbn [br_method br_path]. rewrite strip_prefix_app.
    destruct (s !! id); [by case_bool_decide|done].
  - intros s tok id st j. unfold toy_server, kv_data. cbn [br_method br_path]. rewrite strip_prefix_app.
    destruct (s !! id) as [d|]; cbn [snd]; [|naive_solver lia]. case_bool_decide; cbn [snd]; [|naive_solver].
    intros Ha _. apply (inj Some) in Ha. injection Ha as _ <-. exists d. split; [done|]. intros f.
    apply fields_json_lookup.
  - intros s tok id d Hg%bool_decide_eq_true Hd. subst tok. unfold toy_server, kv_data.
    cbn [br_method br_path br_token]. rewrite strip_prefix_app, Hd, bool_decide_eq_true_2 by done.
    cbn [snd]. eexists _, _. split; [reflexivity|lia].
  - intros s tok id id' body Hid. unfold toy_server, kv_data. cbn [br_method br_path br_body]. rewrite strip_prefix_app.
    destruct body; [|done]. case_bool_decide; [|done]. cbn [fst]. by rewrite lookup_insert_ne.
  - intros s tok id data st b. unfold toy_server, kv_data. cbn [br_method br_path br_body]. rewrite strip_prefix_app.
    case_bool_decide; cbn [fst snd]; intros [= <- <-]; cbn; [|done].
    exists (string_fields data). split; [by rewrite lookup_insert_eq|apply string_fields_lookup].
  - intros s tok id id' Hid. unfold toy_server, kv_metadata. cbn [br_method br_path]. rewrite strip_prefix_app.
    case_bool_decide; cbn [fst]; [by rewrite lookup_delete_ne|done].
  - intros s tok id st b. unfold toy_server, kv_metadata. cbn [br_method br_path]. rewrite strip_prefix_app.
    case_bool_decide; cbn [fst snd]; intros [= <- <-]; cbn; [by rewrite lookup_delete_eq|done].
Defined.

(** ** Claims *)

(** C38: the path of a credential is always computed, the loop ending after at most one
    round, and it is [credentials/] and one non-empty segment of letters, digits, dots
    and dashes, without [..] and without a dot at either end: whatever the host, it
    names no other secret of the Workshop. *)
Theorem secret_path_confined host :
  exists slug, secret_path host = Some (B "credentials/" ++ slug) /\ slug <> [] /\
    Forall safe_char slug /\ (47 ∉ slug) /\ contains slug (B "..") = false /\
    head slug <> Some 46 /\ last slug <> Some 46.
Proof.
  destruct (secret_path_shape host) as (slug & H1 & H2 & H3 & H4). exists slug. split_and!; try done; try apply H4.
  intros Hin. rewrite Forall_forall in H3. specialize (H3 47 Hin). unfold safe_char in H3. lia.
Qed.

(** When OpenBao answers, a secret is read even if the cached token was revoked or
    the cache is empty: the client logs in again and retries. *)
Theorem read_secret_retries {S} (tr : server S) `{!KvV2 tr} rf c s n p field d v now now' :
  kv_view s (secret_id n p) = Some d -> d !! field = Some v ->
  (forall s1, kv_view s1 (secret_id n p) = Some d ->
     exists s2 t, login tr rf c.(sc_client) s1 = (s2, Ok t) /\ kv_grants s2 t HGet (secret_id n p) = true) ->
  (read_secret_field tr rf c s n p field now now').2 = Some v.
Proof.
  intros Hd Hv Hlogin.
  assert (Hforce : forall s0 c0, sc_client c0 = sc_client c -> kv_view s0 (secret_id n p) = Some d ->
    exists s2 c2 t, client_token tr rf c0 s0 true now' = (s2, c2, Ok t) /\
      kv_view s2 (secret_id n p) = Some d /\ kv_grants s2 t HGet (secret_id n p) = true).
  { intros s0 c0 Hc0 H0. destruct (Hlogin s0 H0) as (s2 & t & Hl & Hg).
    pose proof (login_frame tr rf (sc_client c0) s0 (secret_id n p)) as Hf.
    unfold client_token. rewrite Hc0 in *. rewrite Hl in *. cbn [fst] in Hf.
    eexists _, _, _. split; [reflexivity|]. by rewrite Hf. }
  unfold read_secret_field.
  assert (Htok : exists s1 c1 t, client_token tr rf c s false now = (s1, c1, Ok t) /\
            sc_client c1 = sc_client c /\ kv_view s1 (secret_id n p) = Some d).
  { pose proof (client_token_frame tr rf c s false now (secret_id n p)) as Hf. revert Hf.
    unfold client_token.
    destruct (match cached_token c with Some _ => _ | None => _ end) as [t|].
    - intros _. by eexists _, _, _.
    - destruct (Hlogin s Hd) as (s2 & t & -> & _). cbn [fst]. intros Hf.
      eexists _, _, _. split_and!; [reflexivity|done|congruence]. }
  destruct Htok as (s1 & c1 & t & -> & Hc1 & Hv1).
  destruct (read_field_for tr s1 t n p field) as [s3 r] eqn:Er.
  destruct (read_field_value tr _ _ _ _ _ _ _ Er) as [Hfr Hval].
  assert (Hs3 : kv_view s3 (secret_id n p) = Some d) by (by rewrite Hfr).
  destruct r as [x|e|].
  - destruct (Hval x eq_refl) as (d' & Hd' & Hx). cbn. congruence.
  - destruct (Hforce s3 c1 Hc1 Hs3) as (s4 & c4 & t' & -> & Hv4 & Hg).
    pose proof (read_field_granted tr s4 t' n p field d v Hg Hv4 Hv) as Hr.
    destruct (read_field_for tr s4 t' n p field) as [? ?]. cbn in *. by subst.
  - destruct (Hforce s3 c1 Hc1 Hs3) as (s4 & c4 & t' & -> & Hv4 & Hg).
    pose proof (read_field_granted tr s4 t' n p field d v Hg Hv4 Hv) as Hr.
    destruct (read_field_for tr s4 t' n p field) as [? ?]. cbn in *. by subst.
Qed.

(** The fields of a secret written together are all read back, with any token that
    may read it, and writing one Workshop's secret leaves every secret of another as it
    was. *)
Theorem secret_fields_roundtrip {S} (tr : server S) `{!KvV2 tr} s tok n p fields s' tok' field v :
  write_fields_for tr s tok n p fields = (s', Ok tt) ->
  fields_map fields !! field = Some v ->
  kv_grants s' tok' HGet (secret_id n p) = true ->
  (read_field_for tr s' tok' n p field).2 = Ok v /\
  (forall n' p', 47 ∉ n -> 47 ∉ n' -> n' <> n -> kv_view s' (secret_id n' p') = kv_view s (secret_id n' p')).
Proof.
  intros Hw Hv Hg. destruct (write_fields_effect tr _ _ _ _ _ _ _ Hw) as [Hfr Hd]. split.
  - eapply (read_field_granted tr); [done|by apply Hd|done].
  - intros n' p' Hn Hn' Hne. apply Hfr. intros Heq. apply secret_id_inj in Heq as [-> _]; done.
Qed.

(** Writing the fields of one secret one at a time keeps only the last. *)
Lemma separate_writes_lose {S} (tr : server S) `{!KvV2 tr} s tok n p f1 v1 f2 v2 s1 s2 s3 r :
  f1 <> f2 -> write_field_for tr s tok n p f1 v1 = (s1, Ok tt) ->
  write_field_for tr s1 tok n p f2 v2 = (s2, Ok tt) ->
  read_field_for tr s2 tok n p f1 = (s3, r) -> forall v, r <> Ok v.
Proof.
  intros Hne H1 H2 H3 v ->. destruct (write_fields_effect tr _ _ _ _ _ _ _ H2) as [_ Hd].
  destruct (read_field_value tr _ _ _ _ _ _ _ H3) as [_ Hv]. destruct (Hv v eq_refl) as (d & Hd' & Hl).
  rewrite (Hd eq_refl) in Hd'. simplify_eq. unfold fields_map in Hl. cbn in Hl.
  by rewrite lookup_insert_ne in Hl.
Qed.

(** ** Witnesses *)

Lemma read_secret_retries_witness :
  (read_secret_field toy_server (fun _ => Some (B "jwt"))
     (mkSession (mkClient [] (B "r") []) (Some (B "revoked", 0)) ∅)
     {[secret_id (B "demo") (B "ssh_key") := {[B "privateKey" := B "k"]}]} (B "demo") (B "ssh_key") (B "privateKey") 5 6).2
  = Some (B "k").
Proof.
  apply (read_secret_retries toy_server (fun _ => Some (B "jwt"))
    (mkSession (mkClient [] (B "r") []) (Some (B "revoked", 0)) ∅) _ (B "demo") (B "ssh_key") (B "privateKey")
    {[B "privateKey" := B "k"]}).
  - apply lookup_singleton_eq.
  - apply lookup_singleton_eq.
  - intros s1 _. exists s1, toy_token. split; reflexivity.
Defined.

Lemma secret_fields_roundtrip_witness :
  exists s', (read_field_for toy_server s' toy_token (B "demo") (B "git") (B "username")).2 = Ok (B "u").
Proof.
  exists (write_fields_for toy_server ∅ toy_token (B "demo") (B "git") [(B "username", B "u"); (B "password", B "p")]).1.
  apply (secret_fields_roundtrip toy_server ∅ toy_token (B "demo") (B "git")
    [(B "username", B "u"); (B "password", B "p")] _ toy_token); vm_compute; reflexivity.
Defined.
