(* ===== verification/Auth.v ===== *)
(** * Authentication of the API server

    [crates/api-server/src/auth.rs]: the trusted issuer, the cache of its key set with
    its two refreshes, the middleware [require_auth] and the validation of a token.
    Decoding and verifying a JWT is [jsonwebtoken]'s, fetching the key set is an HTTP
    client's: both are arguments. *)

From stdpp Require Import relations.
From S2P Require Import Prelude RustStr.

(** ** Keys *)

(** [jsonwebtoken]'s enumerations: the algorithms a token can be verified with, those a
    JWK announces ([KeyOther]: the encryption algorithms and unknown ones), and the
    parameters of a key. *)
Inductive Algorithm :=
| HS256 | HS384 | HS512 | ES256 | ES384 | RS256 | RS384 | RS512 | PS256 | PS384 | PS512 | EdDSA.
Inductive KeyAlgorithm :=
| KHS256 | KHS384 | KHS512 | KES256 | KES384 | KRS256 | KRS384 | KRS512
| KPS256 | KPS384 | KPS512 | KEdDSA | KOther.
Inductive EllipticCurve := P256 | P384 | P521 | Ed25519.
Inductive AlgorithmParameters :=
| ParamsEllipticCurve (curve : EllipticCurve)
| ParamsRSA
| ParamsOctetKey
| ParamsOctetKeyPair.

Record Jwk := mkJwk { key_id : option bytes; key_algorithm : option KeyAlgorithm; algorithm : AlgorithmParameters }.
Abbreviation JwkSet := (list Jwk).

(** [fn algorithm_for_jwk]. *)
Definition algorithm_for_jwk (jwk : Jwk) : res Algorithm :=
  match jwk.(key_algorithm) with
  | Some KRS256 => Ok RS256
  | Some KRS384 => Ok RS384
  | Some KRS512 => Ok RS512
  | Some KES256 => Ok ES256
  | Some KES384 => Ok ES384
  | Some KPS256 => Ok PS256
  | Some KPS384 => Ok PS384
  | Some KPS512 => Ok PS512
  | Some KEdDSA => Ok EdDSA
  | Some _ => Err "algorithme JWK non supporte pour une signature"
  | None =>
      match jwk.(algorithm) with
      | ParamsRSA => Ok RS256
      | ParamsEllipticCurve P256 => Ok ES256
      | ParamsEllipticCurve P384 => Ok ES384
      | ParamsEllipticCurve _ => Err "courbe EC non supportee"
      | _ => Err "type de cle JWK non supporte"
      end
  end.

(** ** Claims and users *)

Record Claims := mkClaims {
  sub : bytes; preferred_username : option bytes; email : option bytes;
  claim_groups : option (list bytes); realm_roles : option (list bytes) }.

(** [fn has_role]. *)
Definition has_role (c : Claims) (role : bytes) : bool :=
  match c.(realm_roles) with Some roles => existsb (fun r => beq r role) roles | None => false end.

Record AuthenticatedUser := mkUser { subject : bytes; groups : list bytes }.

(** ** Configuration *)

Record TrustedIssuer := mkIssuer { issuer : bytes; jwks_url : bytes; audience : bytes; ca_path : option bytes }.

(** [TrustedIssuer::from_env]. *)
Definition issuer_from_env (env : string -> option bytes) : res (option TrustedIssuer) :=
  match env "ATELIER_JWT_ISSUER" with
  | None => Ok None
  | Some issuer =>
      jwks_url ← ok_or (env "ATELIER_JWT_JWKS_URL") "ATELIER_JWT_ISSUER est defini mais ATELIER_JWT_JWKS_URL est absent";
      audience ← ok_or (env "ATELIER_JWT_AUDIENCE") "ATELIER_JWT_ISSUER est defini mais ATELIER_JWT_AUDIENCE est absent";
      Ok (Some (mkIssuer issuer jwks_url audience (env "ATELIER_JWT_CA_PATH")))
  end.

(** [enum AuthState]; the issuer and audience of [Configured] are those of [trusted]. *)
Inductive AuthState :=
| Configured (jwks : JwkSet) (trusted : TrustedIssuer)
| Disabled.

(** [AuthState::from_env]; [fetched] is what [fetch_jwks] returned. *)
Definition auth_from_env (env : string -> option bytes) (fetched : TrustedIssuer -> res JwkSet) : res AuthState :=
  trusted ← issuer_from_env env;
  match trusted with
  | Some trusted => jwks ← fetched trusted; Ok (Configured jwks trusted)
  | None => Ok Disabled
  end.

(** ** Tokens *)

(** What the middleware uses of [jsonwebtoken]: the [kid] of a token's header
    ([None] when the header is invalid), [JwkSet::find], and [decode] with a key, an
    algorithm, an issuer and an audience. *)
Record JwtLib := mkJwt {
  decode_header : bytes -> option (option bytes);
  find_key : JwkSet -> bytes -> option Jwk;
  decoding_key_ok : Jwk -> bool;
  decode : bytes -> Jwk -> Algorithm -> bytes -> bytes -> option Claims }.

Section auth.
Context (lib : JwtLib).

(** [fn validate_token]. *)
Definition validate_token (token issuer audience : bytes) (jwks : JwkSet) : res Claims :=
  header ← ok_or (decode_header lib token) "en-tete JWT invalide";
  kid ← ok_or header "JWT sans champ kid, impossible de choisir la cle";
  jwk ← ok_or (find_key lib jwks kid) "kid absent du JWKS charge";
  alg ← algorithm_for_jwk jwk;
  if negb (decoding_key_ok lib jwk) then Err "cle JWK invalide"
  else ok_or (decode lib token jwk alg issuer audience) "signature ou claims JWT invalides".

(** What the middleware answers: a status of its own, or the handler run with the user
    and the claims in the request's extensions. *)
Inductive auth_outcome :=
| Refused (status : Z)
| Passed (user : AuthenticatedUser) (claims : Claims).

(** [fn require_auth]: [authorization] is the header when it is visible ASCII, [fetched]
    what [fetch_jwks] would return.  The state it leaves is the cache. *)
Definition require_auth (auth : AuthState) (authorization : option bytes) (fetched : res JwkSet)
  : AuthState * auth_outcome :=
  match auth with
  | Disabled => (Disabled, Refused 503)
  | Configured jwks trusted =>
      match authorization ≫= strip_prefix (B "Bearer ") with
      | None => (auth, Refused 401)
      | Some token =>
          match decode_header lib token with
          | None => (auth, Refused 401)
          | Some None => (auth, Refused 401)
          | Some (Some kid) =>
              let known := bool_decide (is_Some (find_key lib jwks kid)) in
              let jwks := if known then jwks else match fetched with Ok fresh => fresh | _ => jwks end in
              (Configured jwks trusted,
               match validate_token token trusted.(issuer) trusted.(audience) jwks with
               | Ok claims => Passed (mkUser claims.(sub) (default [] claims.(claim_groups))) claims
               | _ => Refused 401
               end)
          end
      end
  end.

(** One tick of [spawn_jwks_refresh_task]. *)
Definition refresh_tick (auth : AuthState) (fetched : res JwkSet) : AuthState :=
  match auth, fetched with
  | Configured _ trusted, Ok fresh => Configured fresh trusted
  | _, _ => auth
  end.

(** ** The cache over time *)

(** The middleware and the task share the cache: a step is a request or a tick, with
    what the provider answered if it was asked.  [published] is every key set the
    provider ever answered with. *)
Inductive auth_step (published : JwkSet -> Prop) : AuthState -> AuthState -> Prop :=
| as_request auth authorization fetched :
    (forall j, fetched = Ok j -> published j) ->
    auth_step published auth (require_auth auth authorization fetched).1
| as_tick auth fetched :
    (forall j, fetched = Ok j -> published j) ->
    auth_step published auth (refresh_tick auth fetched).

Lemma validate_token_inv token iss aud jwks claims :
  validate_token token iss aud jwks = Ok claims <->
  exists kid jwk alg, decode_header lib token = Some (Some kid) /\ find_key lib jwks kid = Some jwk /\
    algorithm_for_jwk jwk = Ok alg /\ decoding_key_ok lib jwk = true /\
    decode lib token jwk alg iss aud = Some claims.
Proof.
  unfold validate_token. split.
  - destruct (decode_header lib token) as [[kid|]|]; cbn; [|done..].
    destruct (find_key lib jwks kid) as [jwk|] eqn:E2; cbn; [|done].
    destruct (algorithm_for_jwk jwk) as [alg|e|] eqn:E3; cbn; [|done..].
    destruct (decoding_key_ok lib jwk) eqn:E4; cbn; [|done].
    destruct (decode lib token jwk alg iss aud) eqn:E5; cbn; [|done].
    intros [= <-]. by exists kid, jwk, alg.
  - intros (kid & jwk & alg & -> & H2 & H3 & H4 & H5). cbn. rewrite H2. cbn. rewrite H3. cbn.
    rewrite H4. cbn. by rewrite H5.
Qed.

Lemma require_auth_passed auth h fetched auth' user claims :
  require_auth auth h fetched = (auth', Passed user claims) ->
  exists jwks trusted token, auth' = Configured jwks trusted /\ h = Some (B "Bearer " ++ token) /\
    validate_token token trusted.(issuer) trusted.(audience) jwks = Ok claims /\
    user = mkUser claims.(sub) (default [] claims.(claim_groups)).
Proof.
  unfold require_auth. destruct auth as [jwks trusted|]; [|done].
  destruct (h ≫= strip_prefix (B "Bearer ")) as [token|] eqn:E; [|done].
  apply bind_Some in E as (v & -> & E). apply strip_prefix_Some in E as ->. destruct (decode_header lib token) as [[kid|]|]; try done.
  set (j := if bool_decide _ then _ else _). destruct (validate_token token _ _ j) as [c|?|] eqn:Ev; try done.
  intros [= <- <- <-]. by exists j, trusted, token.
Qed.

(** Whatever happens, a configured cache holds a set the provider published, and the
    issuer and audience do not change. *)
Lemma auth_cache_invariant published auth auth' :
  rtc (auth_step published) auth auth' ->
  (forall j t, auth = Configured j t -> published j) ->
  (forall j t, auth' = Configured j t -> published j /\ exists j0, auth = Configured j0 t).
Proof.
  intros Hs H0. induction Hs as [auth|auth auth1 auth2 Hs _ IH].
  - intros j t ->. eauto.
  - assert (H1 : forall j t, auth1 = Configured j t -> published j /\ exists j0, auth = Configured j0 t).
    { destruct Hs as [auth h fetched Hf|auth fetched Hf]; intros j t Ht.
      - unfold require_auth in Ht. destruct auth as [jwks trusted|]; [|done].
        destruct (h ≫= _) as [token|]; [|naive_solver].
        destruct (decode_header lib token) as [[kid|]|]; [|naive_solver..].
        injection Ht as Hj <-. split; [|eauto]. subst j. case_bool_decide; [by eapply H0|].
        destruct fetched; [by apply Hf|by eapply H0..].
      - unfold refresh_tick in Ht. destruct auth as [jwks trusted|]; [|by destruct fetched].
        destruct fetched; simplify_eq; naive_solver. }
    intros j t ->. destruct (IH (fun j t H => proj1 (H1 j t H)) j t eq_refl) as (Hp & j1 & ->).
    destruct (H1 j1 t eq_refl) as (_ & ?). done.
Qed.
End auth.

Definition asymmetric (a : Algorithm) : Prop := match a with HS256 | HS384 | HS512 => False | _ => True end.

Lemma algorithm_for_jwk_asymmetric jwk a : algorithm_for_jwk jwk = Ok a -> asymmetric a.
Proof. unfold algorithm_for_jwk. intros H. repeat case_match; simplify_eq; done. Qed.

(** ** Claims *)

(** C11: in any history of requests and refreshes, a handler runs only for a token of
    the [Authorization] header that [decode] verified for the configured issuer and
    audience, with a key of a set the provider published, found by the token's [kid],
    and with the algorithm of that key, never a symmetric one and never the token's
    choice; and the handler sees the identity and the groups of those claims. *)
Theorem require_auth_sound lib published auth0 auth h fetched auth' user claims :
  rtc (auth_step lib published) auth0 auth ->
  (forall j t, auth0 = Configured j t -> published j) ->
  (forall j, fetched = Ok j -> published j) ->
  require_auth lib auth h fetched = (auth', Passed user claims) ->
  exists j0 trusted jwks token kid jwk alg,
    auth0 = Configured j0 trusted /\ h = Some (B "Bearer " ++ token) /\
    decode_header lib token = Some (Some kid) /\ published jwks /\ find_key lib jwks kid = Some jwk /\
    algorithm_for_jwk jwk = Ok alg /\ asymmetric alg /\
    decode lib token jwk alg trusted.(issuer) trusted.(audience) = Some claims /\
    user = mkUser claims.(sub) (default [] claims.(claim_groups)).
Proof.
  intros Hs H0 Hf Hr. destruct (require_auth_passed _ _ _ _ _ _ _ Hr) as (jwks & t & token & -> & -> & Hv & ->).
  apply validate_token_inv in Hv as (kid & jwk & alg & Hh & Hk & Ha & _ & Hd).
  assert (Hs' : rtc (auth_step lib published) auth0 (Configured jwks t)).
  { eapply rtc_r; [done|]. pose proof (as_request lib published auth (Some (B "Bearer " ++ token)) fetched Hf) as H.
    by rewrite Hr in H. }
  destruct (auth_cache_invariant _ _ _ _ Hs' H0 _ _ eq_refl) as (Hp & j0 & ->).
  exists j0, t, jwks, token, kid, jwk, alg. split_and!; try done. by eapply algorithm_for_jwk_asymmetric.
Qed.

(** A rotation of the provider's keys refuses nobody: a token whose key is not in the
    cache but in the set the provider now publishes is accepted at once, and the cache
    is that set; and when the provider cannot be reached the cache is kept. *)
Theorem key_rotation_accepted lib jwks trusted token kid fetched claims :
  decode_header lib token = Some (Some kid) ->
  find_key lib jwks kid = None ->
  (forall fresh, fetched = Ok fresh ->
     validate_token lib token trusted.(issuer) trusted.(audience) fresh = Ok claims ->
     require_auth lib (Configured jwks trusted) (Some (B "Bearer " ++ token)) fetched =
     (Configured fresh trusted, Passed (mkUser claims.(sub) (default [] claims.(claim_groups))) claims)) /\
  ((forall fresh, fetched <> Ok fresh) ->
     require_auth lib (Configured jwks trusted) (Some (B "Bearer " ++ token)) fetched =
     (Configured jwks trusted, Refused 401)).
Proof.
  intros Hh Hk. unfold require_auth.
  change (Some (B "Bearer " ++ token) ≫= strip_prefix (B "Bearer ")) with (strip_prefix (B "Bearer ") (B "Bearer " ++ token)).
  rewrite strip_prefix_app, Hh, bool_decide_eq_false_2 by (rewrite Hk; by intros [? ?]). split.
  - intros fresh -> Hv. by rewrite Hv.
  - intros Hf. assert (Hj : match fetched with Ok fresh => fresh | _ => jwks end = jwks).
    { destruct fetched; try done. by destruct (Hf a). }
    rewrite Hj. unfold validate_token. rewrite Hh. cbn. by rewrite Hk.
Qed.

(** ** Witnesses *)

(** A library whose tokens are [kid|subject], accepted under the key of that name. *)
Definition toy_jwt : JwtLib := mkJwt
  (fun token => Some (fst <$> split_once 124 token))
  (fun jwks kid => find_first (fun k => bool_decide (k.(key_id) = Some kid)) jwks)
  (fun _ => true)
  (fun token _ _ _ _ => (fun p => mkClaims p.2 None None (Some [B "team"]) None) <$> split_once 124 token).
Definition toy_key (kid : bytes) : Jwk := mkJwk (Some kid) (Some KRS256) ParamsRSA.
Definition toy_issuer : TrustedIssuer := mkIssuer (B "https://idp") (B "https://idp/keys") (B "atelier") None.

Lemma require_auth_sound_witness :
  exists jwks kid jwk alg, jwks = [toy_key (B "k1")] /\ find_key toy_jwt jwks kid = Some jwk /\
    algorithm_for_jwk jwk = Ok alg /\ asymmetric alg.
Proof.
  destruct (require_auth_sound toy_jwt (fun j => j = [toy_key (B "k1")])
    (Configured [toy_key (B "k1")] toy_issuer) (Configured [toy_key (B "k1")] toy_issuer)
    (Some (B "Bearer k1|alice")) (Err "x") (Configured [toy_key (B "k1")] toy_issuer)
    (mkUser (B "alice") [B "team"]) (mkClaims (B "alice") None None (Some [B "team"]) None))
    as (j0 & t & jwks & token & kid & jwk & alg & _ & _ & _ & Hp & Hk & Ha & Has & _).
  - apply rtc_refl.
  - intros j t [= <- _]. reflexivity.
  - discriminate.
  - vm_compute. reflexivity.
  - exists jwks, kid, jwk, alg. split_and!; assumption.
Defined.

Lemma key_rotation_accepted_witness :
  require_auth toy_jwt (Configured [toy_key (B "k1")] toy_issuer) (Some (B "Bearer " ++ B "k2|bob"))
    (Ok [toy_key (B "k2")]) =
  (Configured [toy_key (B "k2")] toy_issuer,
   Passed (mkUser (B "bob") [B "team"]) (mkClaims (B "bob") None None (Some [B "team"]) None)).
Proof.
  apply (key_rotation_accepted toy_jwt [toy_key (B "k1")] toy_issuer (B "k2|bob") (B "k2")
    (Ok [toy_key (B "k2")]) (mkClaims (B "bob") None None (Some [B "team"]) None)); vm_compute; reflexivity.
Defined.
