(* ===== verification/Routes.v ===== *)
(** * The routes of the API server

    [crates/api-server/src/routes.rs] with the summaries of [credentials.rs]: who may do
    what to a Workshop.  The Kubernetes API is the class [KubeApi]; OpenBao is the
    server of [OpenBao]; LiteLLM is the gateway of [LlmBudget].  A handler is a function
    of the states of these servers and of the request, to their new states and its
    answer. *)

From stdpp Require Import relations.
From S2P Require Import Prelude RustStr Collections F64 Json McpGateway Crd LlmBudget IdentityRules OpenBao Auth.

(** ** Answers *)

(** [struct ApiError], and the result of a handler. *)
Record ApiError := mkApiError { ae_status : Z; ae_message : string }.
Inductive api (A : Type) : Type := AOk (a : A) | AErr (e : ApiError).
Arguments AOk {A} a.
Arguments AErr {A} e.

#[global] Instance api_bind : MBind api := fun A B f m => match m with AOk a => f a | AErr e => AErr e end.
#[global] Instance api_ret : MRet api := fun A a => AOk a.

Definition not_found : ApiError := mkApiError 404 "workshop introuvable".
Definition not_found_generic (m : string) : ApiError := mkApiError 404 m.
Definition bad_request (m : string) : ApiError := mkApiError 400 m.
Definition forbidden (m : string) : ApiError := mkApiError 403 m.
Definition service_unavailable (m : string) : ApiError := mkApiError 503 m.
Definition bad_gateway (m : string) : ApiError := mkApiError 502 m.
Definition internal_error : ApiError := mkApiError 500 "erreur interne".

(** What a call of the Kubernetes client returns; [From<kube::Error>]. *)
Inductive kube_res (A : Type) : Type := KOk (a : A) | KApi (code : Z) | KFailed.
Arguments KOk {A} a.
Arguments KApi {A} code.
Arguments KFailed {A}.
Definition from_kube {A} (r : kube_res A) : api A :=
  match r with
  | KOk a => AOk a
  | KApi code => if code =? 404 then AErr not_found
                 else if code =? 409 then AErr (mkApiError 409 "un Workshop porte deja ce nom")
                 else AErr internal_error
  | KFailed => AErr internal_error
  end.

(** ** Workshops *)

(** [struct WorkshopStatus]: the fields this server reads, and the others, which it passes
    on, as their JSON. *)
Record StatusSeen := mkSeen {
  st_pod_name : option bytes; st_ports : option GuestPorts; st_session : option SessionConfig; st_other : json }.

(** The resource: its specification is [Crd]'s. *)
Record Workshop := mkWorkshop { w_name : bytes; w_spec : WorkshopSpec; w_status : option StatusSeen }.
Definition w_pod_name (w : Workshop) : option bytes := w.(w_status) ≫= st_pod_name.
Definition w_ports (w : Workshop) : option GuestPorts := w.(w_status) ≫= st_ports.
Definition w_session (w : Workshop) : option SessionConfig := w.(w_status) ≫= st_session.

(** The merge patches this server sends: [{"spec": {"desiredState": ..}}] and
    [{"spec": {"identityInjectionRules": [..]}}]. *)
Inductive spec_patch :=
| PatchDesiredState (s : WorkshopDesiredState)
| PatchInjectionRules (rules : list InjectionRule).

Definition patch_spec (p : spec_patch) (s : WorkshopSpec) : WorkshopSpec :=
  match p with
  | PatchDesiredState d =>
      mkSpec s.(devcontainer) s.(resources) s.(egress_allowlist) s.(build_egress_allowlist) s.(tools)
        s.(identity_injection_rules) s.(owner_group) s.(owner_subject) d s.(simulators)
        s.(exported_services) s.(allowed_internal_targets) s.(campaign_id) s.(guest_services)
  | PatchInjectionRules rules =>
      mkSpec s.(devcontainer) s.(resources) s.(egress_allowlist) s.(build_egress_allowlist) s.(tools)
        rules s.(owner_group) s.(owner_subject) s.(desired_state) s.(simulators)
        s.(exported_services) s.(allowed_internal_targets) s.(campaign_id) s.(guest_services)
  end.
Definition patched (p : spec_patch) (w : Workshop) : Workshop :=
  mkWorkshop w.(w_name) (patch_spec p w.(w_spec)) w.(w_status).

(** [K8sEvent]: what the event route reads of it. *)
Record KubeEvent := mkKubeEvent {
  ev_involved_name : option bytes; ev_involved_kind : option bytes; ev_type : option bytes;
  ev_reason : option bytes; ev_message : option bytes;
  ev_last_timestamp : option bytes; ev_event_time : option bytes; ev_count : option Z }.

(** What this server relies on of the Kubernetes API, for the Workshops of its
    namespace ([kube_view]): reads return the object there is and change nothing, a
    creation does not overwrite, a patch or a deletion concerns one object, a refused
    request changes nothing. *)
Class KubeApi (K : Type) := {
  kube_view : K -> gmap bytes Workshop;
  kube_get : K -> bytes -> kube_res Workshop;
  kube_list : K -> kube_res (list Workshop);
  kube_events : K -> kube_res (list KubeEvent);
  kube_pod_ip : K -> bytes -> kube_res (option bytes);
  kube_create : K -> Workshop -> K * kube_res Workshop;
  kube_patch : K -> bytes -> spec_patch -> K * kube_res Workshop;
  kube_delete : K -> bytes -> K * kube_res unit;
  kube_get_ok k n w : kube_get k n = KOk w -> kube_view k !! n = Some w;
  kube_get_missing k n : kube_view k !! n = None -> kube_get k n = KApi 404 \/ kube_get k n = KFailed;
  kube_list_ok k l : kube_list k = KOk l -> forall w, w ∈ l <-> kube_view k !! w.(w_name) = Some w;
  kube_create_step k w k' r :
    kube_create k w = (k', r) ->
    kube_view k' = kube_view k \/
    (kube_view k !! w.(w_name) = None /\ kube_view k' = <[w.(w_name) := w]> (kube_view k));
  kube_create_ok k w k' w' :
    kube_create k w = (k', KOk w') -> w' = w /\ kube_view k' !! w.(w_name) = Some w;
  kube_patch_step k n p k' r :
    kube_patch k n p = (k', r) ->
    kube_view k' = kube_view k \/
    exists w, kube_view k !! n = Some w /\ kube_view k' = <[n := patched p w]> (kube_view k);
  kube_patch_ok k n p k' w' :
    kube_patch k n p = (k', KOk w') ->
    exists w, kube_view k !! n = Some w /\ w' = patched p w /\ kube_view k' = <[n := w']> (kube_view k);
  kube_delete_step k n k' r :
    kube_delete k n = (k', r) -> kube_view k' = kube_view k \/ kube_view k' = delete n (kube_view k) }.

(** ** Rules *)

Definition ADMIN_ROLE : bytes := B "admin".
Definition DEVELOPER_ROLE : bytes := B "developer".

(** [fn may_provision]. *)
Definition may_provision (claims : Claims) : bool := has_role claims DEVELOPER_ROLE || has_role claims ADMIN_ROLE.

Definition member (user : AuthenticatedUser) (group : bytes) : bool := existsb (fun g => beq g group) user.(groups).

(** [fn resolve_owner_group]. *)
Definition resolve_owner_group (requested : option bytes) (user : AuthenticatedUser) : api bytes :=
  match requested with
  | Some group => if member user group then AOk group else AErr (forbidden "groupe absent de vos groupes")
  | None =>
      match user.(groups) with
      | [only] => AOk only
      | [] => AErr (forbidden "aucun groupe : impossible de rattacher un Workshop")
      | _ => AErr (bad_request "plusieurs groupes : precisez `ownerGroup`")
      end
  end.

(** [fn workshop_tenant]. *)
Definition workshop_tenant (w : Workshop) : bytes := w.(w_spec).(owner_group).

(** [fn ensure_owner]. *)
Definition ensure_owner (w : Workshop) (user : AuthenticatedUser) : api unit :=
  if member user w.(w_spec).(owner_group) then AOk tt else AErr not_found.

(** [fn validate_name]. *)
Definition is_name_char (c : Z) : bool := ((97 <=? c) && (c <=? 122)) || is_ascii_digit c || (c =? 45).
Definition validate_name (name : bytes) : api unit :=
  let valid := negb (is_empty name) && (length name <=? 63)%nat && forallb is_name_char name
               && negb (starts_with name (B "-")) && negb (ends_with name (B "-")) in
  if valid then AOk tt
  else AErr (mkApiError 400 "nom invalide : lettres minuscules/chiffres/tirets, 1 a 63 caracteres").

(** [struct CredentialSummary]: a rule as it is shown. *)
Record CredentialSummary := mkSummary { cs_host : bytes; cs_header : bytes; cs_prefix : bytes; cs_secret_path : bytes }.
Definition summary_of (r : InjectionRule) : CredentialSummary :=
  mkSummary (r_host r) (r_header r) (r_prefix r) (r_secret_path r).

Record PutCredentialRequest := mkPut { pc_host : bytes; pc_header : bytes; pc_prefix : bytes; pc_value : bytes }.

(** [struct CreateWorkshopRequest]. *)
Record CreateWorkshopRequest := mkCreate {
  cr_name : bytes; cr_devcontainer : DevcontainerSource; cr_resources : WorkshopResources; cr_egress_allowlist : list bytes;
  cr_build_egress_allowlist : option (list bytes); cr_tools : list bytes;
  cr_identity_injection_rules : list InjectionRule; cr_owner_group : option bytes;
  cr_simulators : list SimulatorSpec; cr_exported_services : list ExportedService;
  cr_allowed_internal_targets : list bytes; cr_campaign_id : option bytes; cr_guest_services : GuestServices }.

Record WorkshopEvent := mkEvent {
  we_type : bytes; we_reason : bytes; we_message : bytes; we_involved_object : bytes;
  we_timestamp : option bytes; we_count : Z }.

(** [Ord] of [Option<String>]. *)
Definition opt_cmp (a b : option bytes) : comparison :=
  match a, b with
  | None, None => Eq
  | None, Some _ => Lt
  | Some _, None => Gt
  | Some x, Some y => bytes_cmp x y
  end.

(** ** Handlers *)

Section handlers.
Context {K : Type} `{!KubeApi K} {S : Type} (tr : server S) (read_file : bytes -> option bytes).

(** [workshops_api(&state).get(&name).await?; ensure_owner(&workshop, &user)?]. *)
Definition owned (k : K) (user : AuthenticatedUser) (name : bytes) : api Workshop :=
  workshop ← from_kube (kube_get k name);
  _ ← ensure_owner workshop user;
  AOk workshop.

(** [fn get_workshop]. *)
Definition get_workshop (k : K) (user : AuthenticatedUser) (name : bytes) : api Workshop := owned k user name.

(** [fn list_workshops] and [fn admin_list_workshops]. *)
Definition list_workshops (k : K) (user : AuthenticatedUser) : api (list Workshop) :=
  all ← from_kube (kube_list k);
  AOk (base.filter (fun w => member user w.(w_spec).(owner_group) = true) all).
Definition admin_list_workshops (k : K) (claims : Claims) : api (list Workshop) :=
  if negb (has_role claims ADMIN_ROLE) then AErr (forbidden "reserve aux administrateurs de l'instance")
  else from_kube (kube_list k).

(** [fn create_workshop]. *)
Definition workshop_of_request (req : CreateWorkshopRequest) (group subject : bytes) : Workshop :=
  mkWorkshop req.(cr_name)
    (mkSpec req.(cr_devcontainer) req.(cr_resources) req.(cr_egress_allowlist) req.(cr_build_egress_allowlist)
       req.(cr_tools) req.(cr_identity_injection_rules) group subject DesiredRunning req.(cr_simulators)
       req.(cr_exported_services) req.(cr_allowed_internal_targets) req.(cr_campaign_id) req.(cr_guest_services))
    None.
Definition create_workshop (k : K) (user : AuthenticatedUser) (claims : Claims) (req : CreateWorkshopRequest)
  : K * api Workshop :=
  if negb (may_provision claims)
  then (k, AErr (forbidden "provisionner un Workshop requiert le role 'developer' ou 'admin'"))
  else match resolve_owner_group req.(cr_owner_group) user with
       | AErr e => (k, AErr e)
       | AOk group =>
           match validate_name req.(cr_name) with
           | AErr e => (k, AErr e)
           | AOk _ =>
               let '(k, r) := kube_create k (workshop_of_request req group user.(subject)) in (k, from_kube r)
           end
       end.

(** [fn delete_workshop]. *)
Definition delete_workshop (k : K) (user : AuthenticatedUser) (name : bytes) : K * api unit :=
  match owned k user name with
  | AErr e => (k, AErr e)
  | AOk _ => let '(k, r) := kube_delete k name in (k, from_kube r)
  end.

(** [fn patch_desired_state], [fn suspend_workshop], [fn resume_workshop]. *)
Definition patch_desired_state (k : K) (user : AuthenticatedUser) (name : bytes) (d : WorkshopDesiredState) : K * api Workshop :=
  match owned k user name with
  | AErr e => (k, AErr e)
  | AOk _ => let '(k, r) := kube_patch k name (PatchDesiredState d) in (k, from_kube r)
  end.
Definition suspend_workshop k user name := patch_desired_state k user name DesiredSuspended.
Definition resume_workshop k user name := patch_desired_state k user name DesiredRunning.

(** [fn patch_injection_rules]. *)
Definition patch_injection_rules (k : K) (name : bytes) (rules : list InjectionRule) : K * api unit :=
  let '(k, r) := kube_patch k name (PatchInjectionRules rules) in (k, _ ← from_kube r; AOk tt).

(** [fn list_credentials]. *)
Definition list_credentials (k : K) (user : AuthenticatedUser) (name : bytes) : api (list CredentialSummary) :=
  workshop ← owned k user name;
  AOk (summary_of <$> workshop.(w_spec).(identity_injection_rules)).

(** [fn put_credential]: the secret is written before the rule.  [session] is
    [state.session_auth]. *)
Definition put_credential (k : K) (s : S) (session : option SessionAuthClient) (user : AuthenticatedUser)
    (name : bytes) (req : PutCredentialRequest) (now : Z)
  : K * S * option SessionAuthClient * api CredentialSummary :=
  match owned k user name with
  | AErr e => (k, s, session, AErr e)
  | AOk workshop =>
      if is_empty (trim req.(pc_host)) || is_empty req.(pc_value)
      then (k, s, session, AErr (bad_request "`host` et `value` sont requis"))
      else match session with
           | None => (k, s, session, AErr (service_unavailable "OpenBao non configure sur cette instance"))
           | Some secrets =>
               let path := default [] (secret_path req.(pc_host)) in
               match write_secret_field tr read_file secrets s name path CREDENTIAL_FIELD req.(pc_value) now with
               | (s, secrets, Ok _) =>
                   let rule := mkRule req.(pc_host) req.(pc_header) req.(pc_prefix) path CREDENTIAL_FIELD in
                   let rules := base.filter (fun r => r_host r <> r_host rule)
                                  workshop.(w_spec).(identity_injection_rules) ++ [rule] in
                   let '(k, r) := patch_injection_rules k name rules in
                   (k, s, Some secrets, _ ← r; AOk (summary_of rule))
               | (s, secrets, _) =>
                   (k, s, Some secrets, AErr (bad_gateway "ecriture du credential dans OpenBao echouee"))
               end
           end
  end.

(** [fn delete_credential]: the rule is removed before the secret. *)
Definition delete_credential (k : K) (s : S) (session : option SessionAuthClient) (user : AuthenticatedUser)
    (name host : bytes) (now : Z) : K * S * option SessionAuthClient * api unit :=
  match owned k user name with
  | AErr e => (k, s, session, AErr e)
  | AOk workshop =>
      let before := workshop.(w_spec).(identity_injection_rules) in
      let rules := base.filter (fun r => r_host r <> host) before in
      if (length rules =? length before)%nat then (k, s, session, AErr not_found)
      else match patch_injection_rules k name rules with
           | (k, AErr e) => (k, s, session, AErr e)
           | (k, AOk _) =>
               match session with
               | None => (k, s, session, AOk tt)
               | Some secrets =>
                   let '(s, secrets, _) :=
                     OpenBao.delete_secret tr read_file secrets s name (default [] (secret_path host)) now in
                   (k, s, Some secrets, AOk tt)
               end
           end
  end.

(** [fn list_workshop_events]. *)
Definition involves (name : bytes) (ev : KubeEvent) : bool :=
  let involved := default [] ev.(ev_involved_name) in
  let job_name := name ++ B "-image-build" in
  beq involved name || beq involved (name ++ B "-parent") || beq involved job_name
  || starts_with involved (job_name ++ B "-").
Definition event_of (ev : KubeEvent) : WorkshopEvent :=
  mkEvent (default (B "Normal") ev.(ev_type)) (default [] ev.(ev_reason)) (default [] ev.(ev_message))
    (default [] ev.(ev_involved_kind) ++ B "/" ++ default [] ev.(ev_involved_name))
    (match ev.(ev_last_timestamp) with Some t => Some t | None => ev.(ev_event_time) end)
    (default 1 ev.(ev_count)).
Definition list_workshop_events (k : K) (user : AuthenticatedUser) (name : bytes) : api (list WorkshopEvent) :=
  _ ← owned k user name;
  all ← from_kube (kube_events k);
  AOk (sort_by (fun a b => opt_cmp a.(we_timestamp) b.(we_timestamp))
         (event_of <$> base.filter (fun ev => involves name ev = true) all)).

(** [fn resolve_running_pod_ip]. *)
Definition resolve_running_pod_ip (k : K) (workshop : Workshop) : api bytes :=
  match w_pod_name workshop with
  | None => AErr (bad_request "le Workshop n'a pas de pod parent actif (suspendu ?)")
  | Some pod_name =>
      ip ← from_kube (kube_pod_ip k pod_name);
      match ip with Some ip => AOk ip | None => AErr (bad_request "le pod parent n'a pas encore d'adresse IP") end
  end.

(** [fn workshop_llm_budget]: [llm] is [state.llm_budget], as the answers of the
    gateway. *)
Definition workshop_llm_budget (k : K) (user : AuthenticatedUser) (name : bytes)
    (llm : option (bytes -> option (list KeyInfo))) : api LlmBudget :=
  _ ← owned k user name;
  match llm with
  | None => AErr (service_unavailable "passerelle LiteLLM non configuree sur cette instance")
  | Some key_list =>
      match workshop_budget key_list name with
      | Some b => AOk b
      | None => AErr (service_unavailable "passerelle LiteLLM injoignable")
      end
  end.

(** [fn admin_llm_spend]: the groups come from the Workshops, the tokens from LiteLLM. *)
Definition group_by_alias_of (l : kube_res (list Workshop)) : gmap bytes bytes :=
  match l with
  | KOk ws => foldl (fun m w => foldl (fun m alias => <[alias := w.(w_spec).(owner_group)]> m) m (key_aliases w.(w_name))) ∅ ws
  | _ => ∅
  end.
Definition admin_llm_spend (k : K) (claims : Claims) (iter : slots -> list (bytes * (f64 * nat)))
    (llm : option (option (list TokenKeyInfo) * option (list SpendLogEntry))) : api SpendReport :=
  if negb (has_role claims ADMIN_ROLE) then AErr (forbidden "reserve aux administrateurs de l'instance")
  else match llm with
       | None => AErr (service_unavailable "passerelle LiteLLM non configuree sur cette instance")
       | Some (key_list, logs) =>
           let '(aliases, tokens) := key_ownership_from_litellm key_list in
           match spend_report iter logs (mkOwnership aliases (group_by_alias_of (kube_list k)) tokens) with
           | Some r => AOk r
           | None => AErr (service_unavailable "journaux de depense LiteLLM indisponibles")
           end
       end.
End handlers.

(** The model routes: role, then the salt, then the client. *)
Definition salt_missing : ApiError := service_unavailable "LITELLM_SALT_KEY non configuree sur cette instance".
Definition no_llm : ApiError := service_unavailable "passerelle LiteLLM non configuree sur cette instance".
Definition from_llm {A} (r : res A) : api A :=
  match r with Ok a => AOk a | Err e => AErr (bad_gateway e) | Panic => AErr internal_error end.
Definition admin_guard {A} (claims : Claims) (k : api A) : api A :=
  if negb (has_role claims ADMIN_ROLE) then AErr (forbidden "reserve aux administrateurs de l'instance") else k.

(** [fn admin_llm_overview], [fn admin_llm_create_model], [fn admin_llm_update_model],
    [fn admin_llm_delete_model]. *)
Definition admin_llm_overview (claims : Claims) (llm : option LlmOverview) : api LlmOverview :=
  admin_guard claims (match llm with None => AErr no_llm | Some o => AOk o end).
Definition admin_llm_create_model (claims : Claims) (salt_configured : bool) (llm : option gateway)
    (model_name target : bytes) (api_base : option bytes) (api_key : bytes) : api json :=
  admin_guard claims
    (if negb salt_configured then AErr salt_missing
     else match llm with
          | None => AErr no_llm
          | Some g => id ← from_llm (create_model g model_name target api_base api_key); AOk (JObj [(B "id", JStr id)])
          end).
Definition admin_llm_update_model (claims : Claims) (salt_configured : bool) (llm : option gateway)
    (id model_name target : bytes) (api_base api_key : option bytes) : api unit :=
  admin_guard claims
    (if negb salt_configured then AErr salt_missing
     else match llm with
          | None => AErr no_llm
          | Some g => from_llm (update_model g id model_name target api_base api_key)
          end).
Definition admin_llm_delete_model (claims : Claims) (llm : option gateway) (id : bytes) : api unit :=
  admin_guard claims (match llm with None => AErr no_llm | Some g => from_llm (delete_model g id) end).

(** [fn health_readiness]: [db] and [openbao] are whether they answer. *)
Definition health_readiness (db : bool) (openbao : option bool) : Z :=
  if negb db then 503 else match openbao with Some false => 503 | _ => 200 end.

(** ** Membership and names *)

Lemma member_spec user g : member user g = true <-> g ∈ user.(groups).
Proof.
  unfold member. rewrite existsb_spec. split.
  - intros (x & Hx & ->%beq_true). done.
  - intros H. exists g. split; [done|apply beq_refl].
Qed.

(** A DNS label of RFC 1123. *)
Definition dns_label (name : bytes) : Prop :=
  (1 <= length name <= 63)%nat /\ Forall (fun c => is_name_char c = true) name /\
  head name <> Some 45 /\ last name <> Some 45.

Lemma last_rev_head {A} (l : list A) : last l = head (rev l).
Proof. induction l as [|x l IH] using rev_ind; [done|]. rewrite last_snoc, rev_app_distr. done. Qed.

Lemma starts_with_byte s c : starts_with s [c] = true <-> head s = Some c.
Proof.
  rewrite starts_with_true. split; [by intros [r ->]|]. destruct s as [|d r]; [done|].
  intros [= ->]. by exists r.
Qed.

Lemma validate_name_label name : validate_name name = AOk tt <-> dns_label name.
Proof.
  unfold validate_name, dns_label. rewrite last_rev_head.
  pose proof (starts_with_byte name 45) as H1. pose proof (starts_with_byte (rev name) 45) as H2.
  unfold ends_with. change (rev (B "-")) with [45]. change (B "-") with [45].
  pose proof (forallb_forall is_name_char name) as H3. setoid_rewrite <- list_elem_of_In in H3.
  rewrite Forall_forall. destruct (is_empty name) eqn:E1; cbn [negb andb].
  { destruct name; [|done]. split; [done|]. intros [[? _] _]. cbn in *. lia. }
  assert (1 <= length name)%nat by (destruct name; [done|cbn; lia]).
  destruct (length name <=? 63)%nat eqn:E2; cbn [andb]; [|split; [done|]; intros [[_ ?] _]; lia].
  destruct (forallb is_name_char name); cbn [andb]; [|split; [done|]; naive_solver].
  destruct (starts_with name [45]); cbn [negb andb]; [split; [done|]; naive_solver|].
  destruct (starts_with (rev name) [45]); cbn [negb andb]; [split; [done|]; naive_solver|].
  split; [|done]. intros _. split_and!; try lia; naive_solver.
Qed.

Lemma dns_label_no_slash name : dns_label name -> 47 ∉ name.
Proof.
  intros (_ & H & _) Hin. rewrite Forall_forall in H. specialize (H 47 Hin). done.
Qed.

(** ** The calls that concern one Workshop *)

Inductive wcall :=
| WGet | WDelete | WSuspend | WResume | WListCredentials
| WPutCredential (req : PutCredentialRequest) | WDeleteCredential (host : bytes)
| WEvents | WBudget (llm : option (bytes -> option (list KeyInfo))).

Definition error_of {A} (r : api A) : option ApiError := match r with AOk _ => None | AErr e => Some e end.

Section calls.
Context {K : Type} `{KA : !KubeApi K} {S : Type} (tr : server S) `{KV : !KvV2 tr} (rf : bytes -> option bytes).

(** The states after a call, and whether it was refused. *)
Definition run_wcall (k : K) (s : S) (session : option SessionAuthClient) (user : AuthenticatedUser)
    (name : bytes) (now : Z) (c : wcall) : K * S * option SessionAuthClient * option ApiError :=
  match c with
  | WGet => (k, s, session, error_of (get_workshop k user name))
  | WDelete => let '(k, r) := delete_workshop k user name in (k, s, session, error_of r)
  | WSuspend => let '(k, r) := suspend_workshop k user name in (k, s, session, error_of r)
  | WResume => let '(k, r) := resume_workshop k user name in (k, s, session, error_of r)
  | WListCredentials => (k, s, session, error_of (list_credentials k user name))
  | WPutCredential req =>
      let '(k, s, session, r) := put_credential tr rf k s session user name req now in (k, s, session, error_of r)
  | WDeleteCredential host =>
      let '(k, s, session, r) := delete_credential tr rf k s session user name host now in (k, s, session, error_of r)
  | WEvents => (k, s, session, error_of (list_workshop_events k user name))
  | WBudget llm => (k, s, session, error_of (workshop_llm_budget k user name llm))
  end.

Lemma run_wcall_refused k s session user name now c e :
  owned k user name = AErr e -> run_wcall k s session user name now c = (k, s, session, Some e).
Proof using Type.
  intros H. destruct c; cbn [run_wcall]; unfold get_workshop, delete_workshop, suspend_workshop, resume_workshop,
    patch_desired_state, list_credentials, put_credential, delete_credential, list_workshop_events,
    workshop_llm_budget; rewrite H; done.
Qed.

Lemma owned_ok k user name w :
  owned k user name = AOk w <-> kube_get k name = KOk w /\ member user w.(w_spec).(owner_group) = true.
Proof using Type.
  unfold owned, from_kube, ensure_owner. split.
  - destruct (kube_get k name) as [w'|code|]; cbn; [|by repeat case_match|done].
    destruct (member user _) eqn:E; cbn; [|done]. by intros [= <-].
  - intros [-> H]. cbn. by rewrite H.
Qed.

Lemma owned_view k user name w :
  owned k user name = AOk w -> kube_view k !! name = Some w /\ w.(w_spec).(owner_group) ∈ user.(groups).
Proof using Type. intros [H1 H2]%owned_ok. split; [by apply kube_get_ok|by apply member_spec]. Qed.

(** A call of the REST API: a creation or a call on a Workshop, by any user, and what
    it did to the Workshops and to the secrets. *)
Inductive rest_step (user : AuthenticatedUser) (claims : Claims)
  : K * S * option SessionAuthClient -> K * S * option SessionAuthClient -> Prop :=
| step_create k s session req :
    rest_step user claims (k, s, session) ((create_workshop k user claims req).1, s, session)
| step_wcall k s session name now c :
    rest_step user claims (k, s, session) (run_wcall k s session user name now c).1.

(** A change of a Workshop that [user] may make; [may_create] is what a creation asks for. *)
Definition allowed_change (user : AuthenticatedUser) (may_create : Prop) (name : bytes) (old new : option Workshop) : Prop :=
  old = new \/
  match old with
  | Some w =>
      w.(w_spec).(owner_group) ∈ user.(groups) /\
      match new with
      | Some w' => exists p, w' = patched p w
      | None => True
      end
  | None =>
      match new with
      | Some w' => w'.(w_spec).(owner_group) ∈ user.(groups) /\ w'.(w_spec).(owner_subject) = user.(subject) /\
                   w'.(w_name) = name /\ dns_label name /\ may_create /\
                   w'.(w_spec).(desired_state) = DesiredRunning
      | None => True
      end
  end.

Lemma patch_allowed k user may_create name p w k' r :
  owned k user name = AOk w -> kube_patch k name p = (k', r) ->
  forall n, allowed_change user may_create n (kube_view k !! n) (kube_view k' !! n).
Proof using Type.
  intros [Hv Hg]%owned_view Hp n. destruct (kube_patch_step k name p k' r Hp) as [->|(w' & Hw' & ->)]; [by left|].
  destruct (decide (n = name)) as [->|Hne]; [|left; by rewrite lookup_insert_ne].
  right. rewrite lookup_insert_eq, Hw'. simplify_eq. eauto.
Qed.

Lemma resolve_owner_group_member requested user g :
  resolve_owner_group requested user = AOk g -> g ∈ user.(groups).
Proof using Type.
  unfold resolve_owner_group. destruct requested as [r|].
  - destruct (member user r) eqn:E; [|done]. intros [= <-]. by apply member_spec.
  - destruct (groups user) as [|x [|y l]]; [done| |done]. intros [= <-]. by apply list_elem_of_singleton.
Qed.

Lemma create_allowed k user claims req n :
  allowed_change user (may_provision claims = true) n (kube_view k !! n) (kube_view (create_workshop k user claims req).1 !! n).
Proof using Type.
  unfold create_workshop. destruct (may_provision claims) eqn:Em; cbn [negb]; [|by left].
  destruct (resolve_owner_group _ user) as [g|e] eqn:Eg; [|by left].
  destruct (validate_name (cr_name req)) as [[]|e] eqn:En; [|by left].
  destruct (kube_create k _) as [k' r] eqn:Ec. cbn [fst].
  destruct (kube_create_step k _ k' r Ec) as [->|[Hn ->]]; [by left|]. cbn [w_name workshop_of_request] in *.
  destruct (decide (n = cr_name req)) as [->|Hne]; [|left; by rewrite lookup_insert_ne].
  right. rewrite lookup_insert_eq, Hn. cbn.
  split_and!; try done; [by eapply resolve_owner_group_member|by apply validate_name_label].
Qed.

Lemma patch_rules_fst k name rules k' r :
  patch_injection_rules k name rules = (k', r) -> exists r', kube_patch k name (PatchInjectionRules rules) = (k', r').
Proof using Type. unfold patch_injection_rules. destruct (kube_patch _ _ _) as [k1 r1]. intros [= <- _]. by exists r1. Qed.

Lemma wcall_allowed k s session user may_create name now c n :
  allowed_change user may_create n (kube_view k !! n) (kube_view (run_wcall k s session user name now c).1.1.1 !! n).
Proof using Type.
  destruct (owned k user name) as [w|e] eqn:E; [|rewrite (run_wcall_refused _ _ _ _ _ _ _ e E); by left].
  destruct c; cbn [run_wcall]; try by left.
  - unfold delete_workshop. rewrite E. destruct (kube_delete k name) as [k' r] eqn:Ed. cbn.
    destruct (kube_delete_step k name k' r Ed) as [->| ->]; [by left|].
    destruct (decide (n = name)) as [->|Hne]; [|left; by rewrite lookup_delete_ne].
    apply owned_view in E as [Hv Hg]. right. by rewrite Hv, lookup_delete_eq.
  - unfold suspend_workshop, patch_desired_state. rewrite E. destruct (kube_patch _ _ _) as [k' r] eqn:Ep. cbn.
    by eapply patch_allowed.
  - unfold resume_workshop, patch_desired_state. rewrite E. destruct (kube_patch _ _ _) as [k' r] eqn:Ep. cbn.
    by eapply patch_allowed.
  - unfold put_credential. rewrite E. destruct (is_empty _ || _); [by left|]. destruct session as [secrets|]; [|by left].
    destruct (write_secret_field _ _ _ _ _ _ _ _ _) as [[s' c'] [u|e|]]; [|by left..].
    destruct (patch_injection_rules _ _ _) as [k' r] eqn:Ep. cbn.
    apply patch_rules_fst in Ep as [r' Ep]. by eapply patch_allowed.
  - unfold delete_credential. rewrite E. destruct (_ =? _)%nat; [by left|].
    destruct (patch_injection_rules _ _ _) as [k' [u|e]] eqn:Ep; apply patch_rules_fst in Ep as [r' Ep].
    + destruct session as [secrets|]; [destruct (OpenBao.delete_secret _ _ _ _ _ _ _) as [[s' c'] r]|]; cbn;
        by eapply patch_allowed.
    + cbn. by eapply patch_allowed.
Qed.

(** The secrets a call changes: those of a credential of a Workshop of the user's. *)
Lemma wcall_secrets k s session user name now c id :
  kv_view (run_wcall k s session user name now c).1.1.2 id = kv_view s id \/
  exists w slug, kube_view k !! name = Some w /\ w.(w_spec).(owner_group) ∈ user.(groups) /\
    id = secret_id name (B "credentials/" ++ slug).
Proof using KV.
  destruct (owned k user name) as [w|e] eqn:E; [|rewrite (run_wcall_refused _ _ _ _ _ _ _ e E); by left].
  apply owned_view in E as Hv. destruct Hv as [Hv Hg].
  destruct c as [| | | | |req|host| |]; cbn [run_wcall]; try (left; reflexivity).
  - left. by destruct (delete_workshop k user name).
  - left. by destruct (suspend_workshop k user name).
  - left. by destruct (resume_workshop k user name).
  - unfold put_credential. rewrite E. destruct (is_empty _ || _); [by left|]. destruct session as [secrets|]; [|by left].
    destruct (secret_path_shape (pc_host req)) as (slug & -> & _). cbn [from_option Datatypes.id].
    unfold write_secret_field, write_secret_fields.
    pose proof (client_token_frame tr rf secrets s false now id) as Hct.
    destruct (client_token tr rf secrets s false now) as [[s1 c1] [token|e|]]; [|by left..].
    destruct (write_fields_for tr s1 token name _ _) as [s2 r] eqn:Ew. apply (write_fields_effect tr) in Ew as [Hfr _].
    assert (Hid : kv_view s2 id = kv_view s id \/ id = secret_id name (B "credentials/" ++ slug)).
    { destruct (decide (id = secret_id name (B "credentials/" ++ slug))); [by right|left]. rewrite Hfr by done. done. }
    destruct r as [u|e|]; [destruct (patch_injection_rules _ _ _) as [k' r']|..]; cbn [fst snd];
      (destruct Hid as [Hid|Hid]; [by left|right; by exists w, slug]).
  - unfold delete_credential. rewrite E. destruct (_ =? _)%nat; [by left|].
    destruct (patch_injection_rules _ _ _) as [k' [u|e]]; [|by left]. destruct session as [secrets|]; [|by left].
    destruct (secret_path_shape host) as (slug & -> & _). cbn [from_option Datatypes.id]. unfold OpenBao.delete_secret.
    pose proof (client_token_frame tr rf secrets s false now id) as Hct.
    destruct (client_token tr rf secrets s false now) as [[s1 c1] [token|e|]]; [|by left..].
    destruct (delete_secret_for tr s1 token name _) as [s2 r] eqn:Ew. apply (delete_secret_effect tr) in Ew as [Hfr _].
    cbn [fst snd]. destruct (decide (id = secret_id name (B "credentials/" ++ slug)));
      [right; by exists w, slug|left]. by rewrite Hfr.
Qed.

(** Workshops are stored under their names, which are DNS labels. *)
Definition well_named (k : K) : Prop :=
  forall n w, kube_view k !! n = Some w -> w.(w_name) = n /\ dns_label n.

Lemma rest_step_changes user claims st st' n :
  rest_step user claims st st' ->
  allowed_change user (may_provision claims = true) n (kube_view st.1.1 !! n) (kube_view st'.1.1 !! n).
Proof using Type. intros [k s session req|k s session name now c]; [apply create_allowed|apply wcall_allowed]. Qed.

Lemma allowed_well_named user may_create k k' :
  (forall n, allowed_change user may_create n (kube_view k !! n) (kube_view k' !! n)) -> well_named k -> well_named k'.
Proof using Type.
  intros Hc Hk n w Hw. specialize (Hc n). rewrite Hw in Hc.
  destruct (kube_view k !! n) as [w0|] eqn:E0.
  - destruct (Hk n w0 E0) as [H1 H2]. destruct Hc as [[= <-]|[_ (p & ->)]]; [done|]. done.
  - destruct Hc as [Hc|(_ & _ & H1 & H2 & _)]; done.
Qed.

(** What the list shows is what the other routes let through. *)
Lemma list_workshops_owned k user l :
  list_workshops k user = AOk l -> well_named k ->
  forall w, w ∈ l <-> kube_view k !! w.(w_name) = Some w /\ w.(w_spec).(owner_group) ∈ user.(groups).
Proof using Type.
  unfold list_workshops. destruct (kube_list k) as [all|code|] eqn:El; cbn; [|by repeat case_match|done].
  intros [= <-] Hk w. rewrite list_elem_of_filter, (kube_list_ok k all El), member_spec. naive_solver.
Qed.
End calls.

(** ** Claims *)

(** A Workshop of a group the user is not a member of is indistinguishable from one
    that does not exist: every call on it answers the same 404, and changes neither the
    Workshops nor the secrets nor the session. *)
Theorem foreign_workshop_hidden {K} `{!KubeApi K} {S} (tr : server S) rf k s session user name now c :
  (kube_get k name = KApi 404 \/
   exists w, kube_get k name = KOk w /\ w.(w_spec).(owner_group) ∉ user.(groups)) ->
  run_wcall tr rf k s session user name now c = (k, s, session, Some not_found).
Proof.
  intros H. apply run_wcall_refused. unfold owned. destruct H as [-> |(w & -> & Hg)]; [done|].
  cbn. unfold ensure_owner. destruct (member user _) eqn:E; [|done]. by apply member_spec in E.
Qed.

(** What a call of the REST API changes, for one user. *)
Lemma rest_step_confined {K} `{!KubeApi K} {S} (tr : server S) `{!KvV2 tr} rf user claims k s session k' s' session' :
  rest_step tr rf user claims (k, s, session) (k', s', session') ->
  (forall n, allowed_change user (may_provision claims = true) n (kube_view k !! n) (kube_view k' !! n)) /\
  (forall id, kv_view s' id <> kv_view s id ->
     exists name w slug, kube_view k !! name = Some w /\ w.(w_spec).(owner_group) ∈ user.(groups) /\
       id = secret_id name (B "credentials/" ++ slug)).
Proof.
  intros Hs. split.
  - intros n. exact (rest_step_changes tr rf user claims (k, s, session) (k', s', session') n Hs).
  - intros id Hne. inversion Hs as [|? ? ? name now c H1 H2]; subst; [done|].
    pose proof (wcall_secrets tr rf k s session user name now c id) as H. rewrite H2 in H. cbn in H.
    destruct H as [?|(w & slug & Hw)]; [done|]. by exists name, w, slug.
Qed.

(** What a successful [put_credential] did. *)
Lemma put_credential_effect {K} `{!KubeApi K} {S} (tr : server S) `{!KvV2 tr} rf k s session user name req now k' s' session' sum :
  put_credential tr rf k s session user name req now = (k', s', session', AOk sum) ->
  exists path w,
    secret_path req.(pc_host) = Some path /\ kube_view k !! name = Some w /\
    w.(w_spec).(owner_group) ∈ user.(groups) /\
    let rule := mkRule req.(pc_host) req.(pc_header) req.(pc_prefix) path CREDENTIAL_FIELD in
    sum = summary_of rule /\
    kube_view k' !! name =
      Some (patched (PatchInjectionRules (base.filter (fun r => r_host r <> req.(pc_host)) w.(w_spec).(identity_injection_rules) ++ [rule])) w) /\
    kv_view s' (secret_id name path) = Some {[CREDENTIAL_FIELD := req.(pc_value)]}.
Proof.
  unfold put_credential. destruct (owned k user name) as [w|e] eqn:E; [|done].
  destruct (is_empty _ || _); [done|]. destruct session as [secrets|]; [|done].
  destruct (secret_path_shape (pc_host req)) as (slug & Hsp & _). rewrite Hsp. cbn [from_option Datatypes.id].
  unfold write_secret_field, write_secret_fields.
  destruct (client_token tr rf secrets s false now) as [[s1 c1] [token|e|]]; [|done..].
  destruct (write_fields_for tr s1 token name _ _) as [s2 r] eqn:Ew. apply (write_fields_effect tr) in Ew as [_ Hw].
  destruct r as [[]|e|]; [|done..]. specialize (Hw eq_refl).
  unfold patch_injection_rules. destruct (kube_patch k name _) as [k2 r2] eqn:Ep.
  destruct r2 as [w'|code|]; cbn [from_kube]; [|by repeat case_match|done].
  intros [= <- <- <- <-]. apply kube_patch_ok in Ep as (w0 & Hw0 & -> & Hk2).
  apply owned_view in E as [Hv Hg]. simplify_eq.
  eexists _, w. split_and!; [reflexivity|done|done|done| |].
  - by rewrite Hk2, lookup_insert_eq.
  - rewrite Hw. done.
Qed.

(** Two hosts that differ in characters the path replaces share their secret: deleting
    the credential of one leaves the rule of the other in place without its secret. *)
Lemma delete_credential_collision {K} `{!KubeApi K} {S} (tr : server S) `{!KvV2 tr} rf k s c user name host other now k' s' c' w r :
  owned k user name = AOk w -> host <> other -> secret_path host = secret_path other ->
  r ∈ w.(w_spec).(identity_injection_rules) -> r_host r = other ->
  secret_path other = Some (r_secret_path r) ->
  (forall s1 t, (delete_secret_for tr s1 t name (r_secret_path r)).2 = Ok tt) ->
  (exists s1 c1 t, client_token tr rf c s false now = (s1, c1, Ok t)) ->
  delete_credential tr rf k s (Some c) user name host now = (k', s', c', AOk tt) ->
  (exists w', kube_view k' !! name = Some w' /\ r ∈ w'.(w_spec).(identity_injection_rules)) /\
  kv_view s' (secret_id name (r_secret_path r)) = None.
Proof.
  intros Ho Hne Hsp Hr Hh Hpath Hdel (s1 & c1 & t & Ht). unfold delete_credential. rewrite Ho.
  destruct (_ =? _)%nat; [done|]. unfold patch_injection_rules.
  destruct (kube_patch k name _) as [k2 r2] eqn:Ep. destruct r2 as [w'|code|]; cbn [from_kube mbind api_bind]; [|by repeat case_match|done].
  rewrite Hsp, Hpath. cbn [from_option Datatypes.id]. unfold OpenBao.delete_secret. rewrite Ht.
  specialize (Hdel s1 t). destruct (delete_secret_for tr s1 t name (r_secret_path r)) as [s2 rr] eqn:Ed. cbn in Hdel. subst rr.
  intros H. injection H as <- <- _. apply kube_patch_ok in Ep as (w0 & Hw0 & -> & ->).
  apply owned_view in Ho as [Hv _]. simplify_eq. split.
  - eexists. rewrite lookup_insert_eq. split; [reflexivity|]. cbn. apply list_elem_of_filter. split; [congruence|done].
  - apply (delete_secret_effect tr) in Ed as [_ Hd]. by apply Hd.
Qed.

(** The event route recognises the objects of a Workshop by their names alone, so that it
    shows the events of a Workshop of another group when that one is called like an
    object of this one. *)
Lemma events_of_another_workshop ev :
  ev.(ev_involved_kind) = Some (B "Workshop") -> ev.(ev_involved_name) = Some (B "demo-parent") ->
  involves (B "demo") ev = true /\ validate_name (B "demo-parent") = AOk tt.
Proof. intros _ H. split; [|reflexivity]. unfold involves. rewrite H. reflexivity. Qed.

(** ** A Kubernetes API *)

Definition toy_kube := gmap bytes Workshop.
#[export, refine] Instance toy_kube_api : KubeApi toy_kube :=
  {| kube_view k := k;
     kube_get k n := match k !! n with Some w => KOk w | None => KApi 404 end;
     kube_list k := KOk (snd <$> base.filter (fun p => w_name p.2 = p.1) (map_to_list (k : gmap bytes Workshop)));
     kube_events k := KOk [];
     kube_pod_ip k n := KOk (Some (B "10.0.0.1"));
     kube_create k w := match k !! w.(w_name) with
                        | Some _ => (k, KApi 409)
                        | None => (<[w.(w_name) := w]> k, KOk w)
                        end;
     kube_patch k n p := match k !! n with
                         | Some w => (<[n := patched p w]> k, KOk (patched p w))
                         | None => (k, KApi 404)
                         end;
     kube_delete k n := match k !! n with Some _ => (delete n k, KOk tt) | None => (k, KApi 404) end |}.
Proof.
  - intros k n w. destruct (k !! n); congruence.
  - intros k n ->. by left.
  - intros k l [= <-] w. rewrite list_elem_of_fmap. split.
    + intros ([n w'] & -> & [Hn Hin]%list_elem_of_filter). cbn in *. subst n. by apply elem_of_map_to_list.
    + intros H. exists (w_name w, w). split; [done|]. apply list_elem_of_filter. split; [done|by apply elem_of_map_to_list].
  - intros k w k' r. destruct (k !! w_name w) eqn:E; intros [= <- <-]; auto.
  - intros k w k' w'. destruct (k !! w_name w) eqn:E; intros [= <- <-]. by rewrite lookup_insert_eq.
  - intros k n p k' r. destruct (k !! n) eqn:E; intros [= <- <-]; eauto.
  - intros k n p k' w'. destruct (k !! n) as [w|] eqn:E; intros [= <- <-]. eauto.
  - intros k n k' r. destruct (k !! n) eqn:E; intros [= <- <-]; auto.
Defined.

(** ** The patches *)

(** The [spec] of [serde_json::json!({"spec": ..})] in [fn patch_desired_state] and
    [fn patch_injection_rules]. *)
Definition patch_json (p : spec_patch) : json :=
  match p with
  | PatchDesiredState d => JObj [(B "desiredState", to_json d)]
  | PatchInjectionRules rules => JObj [(B "identityInjectionRules", to_json rules)]
  end.

Lemma patched_field `{!MergePatch} p s k :
  jget k (merge_patch (patch_json p) (JObj (spec_fields s))) = assoc k (spec_fields (patch_spec p s)).
Proof.
  destruct p as [d|rules]; cbn [patch_json]; rewrite patch_field by done;
    (destruct (beq k _) eqn:Ek; [apply beq_true in Ek as ->; unfold spec_fields; destruct (build_egress_allowlist s) eqn:Eb;
       cbn [patch_spec build_egress_allowlist]; rewrite ?Eb; by assoc_lit|]);
    unfold spec_fields; cbn [patch_spec devcontainer resources egress_allowlist build_egress_allowlist tools identity_injection_rules
      owner_group owner_subject desired_state simulators exported_services allowed_internal_targets campaign_id guest_services];
    destruct (build_egress_allowlist s); cbn [skip_none app assoc]; by rewrite !Ek.
Qed.

(** The merge patches the API server sends, applied by the cluster to the stored
    specification as RFC 7386 says and read back, change the desired state or the
    injection rules, and no other field of the specification. *)
Theorem patch_spec_refines `{!MergePatch} p s :
  spec_ok s -> of_json (merge_patch (patch_json p) (to_json s)) = Some (patch_spec p s).
Proof.
  intros Hs. assert (Hok : spec_ok (patch_spec p s)) by (by destruct p).
  cbn [to_json of_json serde_spec]. pose proof (patched_field p s) as Hf.
  destruct (merge_patch (patch_json p) (JObj (spec_fields s))) as [| | | | | |o] eqn:E;
    try (specialize (Hf (B "devcontainer")); by unfold spec_fields in Hf; cbn in Hf).
  cbn [fields mbind option_bind]. by apply spec_of_ok.
Qed.

Lemma patch_spec_refines_witness :
  of_json (merge_patch (patch_json (PatchDesiredState DesiredRunning)) (to_json toy_full)) =
  Some (patch_spec (PatchDesiredState DesiredRunning) toy_full).
Proof.
  apply (patch_spec_refines (PatchDesiredState DesiredRunning) toy_full). split; [reflexivity|]. split; [by constructor|].
  constructor; [vm_compute; reflexivity|constructor].
Defined.

(** ** Witnesses *)

Definition toy_spec (group : bytes) : WorkshopSpec :=
  mkSpec (mkSource (B "https://forge/a.git") default_revision default_devcontainer_path true) (mkResources (B "1") (B "1Gi") None None) [] None [] [] group (B "alice") DesiredRunning [] [] [] None default_services.
Definition toy_workshop : Workshop := mkWorkshop (B "demo") (toy_spec (B "team")) None.
Definition toy_cluster : toy_kube := {[B "demo" := toy_workshop]}.
Definition alice : AuthenticatedUser := mkUser (B "alice") [B "team"].
Definition mallory : AuthenticatedUser := mkUser (B "mallory") [B "others"].
Definition toy_session : SessionAuthClient := mkSession (mkClient [] API_SERVER_OPENBAO_ROLE []) None ∅.
Definition toy_put : PutCredentialRequest := mkPut (B "api.stripe.com") (B "Authorization") (B "Bearer ") (B "sk").
Definition no_claims : Claims := mkClaims (B "alice") None None (Some [B "team"]) None.

Lemma foreign_workshop_hidden_witness :
  run_wcall toy_server (fun _ => None) toy_cluster ∅ None mallory (B "demo") 0 WDelete = (toy_cluster, ∅, None, Some not_found).
Proof.
  apply (foreign_workshop_hidden toy_server (fun _ => None) toy_cluster ∅ None mallory (B "demo") 0 WDelete).
  right. exists toy_workshop. split; [reflexivity|]. apply (bool_decide_unpack _). vm_compute. exact I.
Defined.

Lemma toy_well_named : well_named toy_cluster.
Proof.
  intros n w H. change (({[B "demo" := toy_workshop]} : gmap bytes Workshop) !! n = Some w) in H.
  apply lookup_singleton_Some in H as [<- <-]. split; [done|].
  by apply (validate_name_label (B "demo")).
Qed.
