(* ===== verification/Approvals.v ===== *)
(** * Approvals

    [crates/api-server/src/approvals.rs], its table and row policy
    ([migrations/20260905000000_hitl_requests.sql]) and [chatops.rs].  The table is a map
    from identifiers to rows; a statement is a function of the table and of the
    settings of its transaction, which the policy reads.  A decision reads the row and
    writes it in two statements: sequential histories run it in one step, concurrent
    ones interleave the statements of two transactions, which READ COMMITTED allows. *)

From stdpp Require Import relations.
From S2P Require Import Prelude RustStr Collections F64 Utf8 SquadToken Json LlmBudget IdentityRules OpenBao Auth Routes.

(** ** The table *)

Inductive hitl_status := PENDING | APPROVED | REJECTED | EXPIRED.
#[global] Instance hitl_status_eq_dec : EqDecision hitl_status.
Proof. solve_decision. Defined.

(** [struct HitlRequest], less its identifier, the key of the row. *)
Record HitlRequest := mkHitl {
  h_tenant : bytes; h_workshop_name : bytes; h_category : bytes; h_requested_by : bytes; h_payload : json;
  h_status : hitl_status; h_decided_by : option bytes; h_decision_reason : option bytes;
  h_created_at : Z; h_expires_at : Z; h_decided_at : option Z }.

Abbreviation table := (gmap bytes HitlRequest).

Definition VALID_CATEGORIES : list bytes :=
  [B "ALLOWLIST_EXPANSION"; B "SECRET_REQUEST"; B "PR_GATEWAY"; B "SHELL_COMMAND"].
Definition valid_category (c : bytes) : bool := existsb (beq c) VALID_CATEGORIES.

(** The settings of a transaction: [app.current_tenant] and [app.is_admin]. *)
Record settings := mkSettings { current_tenant : option bytes; is_admin_setting : option bytes }.
Definition no_settings : settings := mkSettings None None.

(** [fn set_tenant] and [fn set_admin]. *)
Definition set_tenant (st : settings) (tenant : bytes) : settings := mkSettings (Some tenant) st.(is_admin_setting).
Definition set_admin (st : settings) (is_admin : bool) : settings :=
  mkSettings st.(current_tenant) (Some (if is_admin then B "true" else B "false")).

(** The policy [hitl_requests_tenant_isolation], of [USING] and of [WITH CHECK]; a setting
    that is not there is NULL, and equal to nothing. *)
Definition policy (st : settings) (r : HitlRequest) : bool :=
  bool_decide (st.(current_tenant) = Some r.(h_tenant)) || bool_decide (st.(is_admin_setting) = Some (B "true")).

(** [SELECT * FROM hitl_requests WHERE id = $1]. *)
Definition select_by_id (st : settings) (t : table) (id : bytes) : option HitlRequest :=
  match t !! id with Some r => if policy st r then Some r else None | None => None end.

(** An [UPDATE] of the rows that satisfy a predicate and that the policy shows. *)
Definition update (st : settings) (t : table) (where_ : bytes -> HitlRequest -> bool) (set_ : HitlRequest -> HitlRequest) : table :=
  map_imap (fun id r => Some (if where_ id r && policy st r then set_ r else r)) t.

Definition with_status (s : hitl_status) (r : HitlRequest) : HitlRequest :=
  mkHitl r.(h_tenant) r.(h_workshop_name) r.(h_category) r.(h_requested_by) r.(h_payload) s
    r.(h_decided_by) r.(h_decision_reason) r.(h_created_at) r.(h_expires_at) r.(h_decided_at).
Definition decided (s : hitl_status) (by_ : bytes) (reason : option bytes) (now : Z) (r : HitlRequest) : HitlRequest :=
  mkHitl r.(h_tenant) r.(h_workshop_name) r.(h_category) r.(h_requested_by) r.(h_payload) s
    (Some by_) reason r.(h_created_at) r.(h_expires_at) (Some now).

(** The lifetime of a request: the default of [expires_at], in seconds. *)
Definition HITL_TTL : Z := 15 * 60.

(** [INSERT INTO hitl_requests .. RETURNING *]: the checks of the table and the policy,
    a generated identifier, the default values. *)
Definition insert_row (st : settings) (t : table) (id : bytes) (tenant workshop_name category requested_by : bytes)
    (payload : json) (now : Z) : option (table * HitlRequest) :=
  let r := mkHitl tenant workshop_name category requested_by payload PENDING None None now (now + HITL_TTL) None in
  if valid_category category && policy st r && bool_decide (t !! id = None) then Some (<[id := r]> t, r) else None.

(** [fn expire_stale]. *)
Definition expire_stale (st : settings) (t : table) (workshop_name : bytes) (now : Z) : table :=
  update st t (fun _ r => beq r.(h_workshop_name) workshop_name && bool_decide (r.(h_status) = PENDING)
                          && (r.(h_expires_at) <? now)) (with_status EXPIRED).

(** ** Handlers *)

Section handlers.
Context {K : Type} `{!KubeApi K}.

(** [fn create_approval]; [id] is the generated identifier, [now] the database's clock.
    The notification of Slack is an effect on another server. *)
Definition create_approval (k : K) (t : table) (user : AuthenticatedUser) (name category : bytes) (payload : json)
    (id : bytes) (now : Z) : table * api (bytes * HitlRequest) :=
  if negb (valid_category category) then (t, AErr (bad_request "categorie invalide"))
  else match owned k user name with
       | AErr e => (t, AErr e)
       | AOk workshop =>
           let tenant := workshop_tenant workshop in
           match insert_row (set_tenant no_settings tenant) t id tenant name category user.(subject) payload now with
           | Some (t, r) => (t, AOk (id, r))
           | None => (t, AErr internal_error)
           end
       end.

(** [fn list_approvals]; [rows] is the order of the rows of the [SELECT] before its
    [ORDER BY created_at DESC]. *)
Definition list_approvals (k : K) (t : table) (user : AuthenticatedUser) (name : bytes) (now : Z)
  : table * api (list (bytes * HitlRequest)) :=
  match owned k user name with
  | AErr e => (t, AErr e)
  | AOk workshop =>
      let st := set_tenant no_settings (workshop_tenant workshop) in
      let t := expire_stale st t name now in
      (t, AOk (sort_by (fun a b => Z.compare b.2.(h_created_at) a.2.(h_created_at))
                 (base.filter (fun kr => policy st kr.2 = true /\ kr.2.(h_workshop_name) = name) (map_to_list t))))
  end.

(** The rows a decision can see: the loop over the candidate tenants. *)
Fixpoint find_row (t : table) (st : settings) (is_admin : bool) (tenants : list bytes) (id : bytes)
  : option (settings * HitlRequest) :=
  match tenants with
  | [] => None
  | tenant :: rest =>
      let st := if negb is_admin then set_tenant st tenant else st in
      match select_by_id st t id with
      | Some r => Some (st, r)
      | None => find_row t st is_admin rest id
      end
  end.

Definition parse_decision (decision : bytes) : option hitl_status :=
  if beq decision (B "APPROVED") then Some APPROVED else if beq decision (B "REJECTED") then Some REJECTED else None.

(** The first half of [fn apply_decision]: everything before its [UPDATE].  The row read is
    decided, expired, or left alone. *)
Inductive decision_read :=
| DRefused (e : ApiError)
| DExpire (st : settings)
| DProceed (st : settings) (new_status : hitl_status).
Definition decide_read (t : table) (id decision : bytes) (is_admin : bool) (candidate_tenants : list bytes) (now : Z)
  : decision_read :=
  match parse_decision decision with
  | None => DRefused (bad_request "decision invalide, attendu 'APPROVED' ou 'REJECTED'")
  | Some new_status =>
      match find_row t (set_admin no_settings is_admin) is_admin candidate_tenants id with
      | None => DRefused (not_found_generic "demande d'approbation introuvable ou non autorisee")
      | Some (st, current) =>
          if bool_decide (current.(h_status) = PENDING) && (current.(h_expires_at) <? now) then DExpire st
          else if negb (bool_decide (current.(h_status) = PENDING))
               then DRefused (bad_request "demande deja tranchee")
               else DProceed st new_status
      end
  end.

(** The [UPDATE .. SET status = 'EXPIRED' WHERE id = $1] of an expired request. *)
Definition expire_write (st : settings) (t : table) (id : bytes) : table :=
  update st t (fun i _ => beq i id) (with_status EXPIRED).

(** The final [UPDATE .. WHERE id = $4 RETURNING *]. *)
Definition decide_write (st : settings) (t : table) (id : bytes) (s : hitl_status) (by_ : bytes) (reason : option bytes)
    (now : Z) : table * api HitlRequest :=
  match select_by_id st t id with
  | Some r => (update st t (fun i _ => beq i id) (decided s by_ reason now), AOk (decided s by_ reason now r))
  | None => (t, AErr internal_error)
  end.

(** [fn apply_decision], run without another transaction in between; [now] is the
    application's clock, [db_now] the database's. *)
Definition apply_decision (t : table) (id decision : bytes) (reason : option bytes) (decided_by : bytes)
    (is_admin : bool) (candidate_tenants : list bytes) (now db_now : Z) : table * api HitlRequest :=
  match decide_read t id decision is_admin candidate_tenants now with
  | DRefused e => (t, AErr e)
  | DExpire st => (expire_write st t id, AErr (bad_request "demande expiree (TTL depasse), decision refusee"))
  | DProceed st s => decide_write st t id s decided_by reason db_now
  end.

(** [fn decide_approval]. *)
Definition decide_approval (t : table) (user : AuthenticatedUser) (claims : Claims) (id decision : bytes)
    (reason : option bytes) (now db_now : Z) : table * api HitlRequest :=
  let is_admin := has_role claims ADMIN_ROLE in
  let candidate_tenants := if is_admin then [[]] else user.(groups) in
  apply_decision t id decision reason user.(subject) is_admin candidate_tenants now db_now.
End handlers.

(** ** Slack *)

(** [fn category_label]. *)
Definition category_label (category : bytes) : bytes :=
  if beq category (B "ALLOWLIST_EXPANSION") then B "Extension d'allowlist"
  else if beq category (B "SECRET_REQUEST") then B "Demande de secret"
  else if beq category (B "PR_GATEWAY") then B "Validation de Pull Request"
  else if beq category (B "SHELL_COMMAND") then B "Commande shell"
  else B "Demande d'approbation".

(** [fn build_slack_payload]; [pretty] is [serde_json::to_string_pretty]. *)
Definition slack_button (label style action_id id : bytes) : json :=
  JObj [(B "type", JStr (B "button"));
        (B "text", JObj [(B "type", JStr (B "plain_text")); (B "text", JStr label)]);
        (B "style", JStr style); (B "action_id", JStr action_id); (B "value", JStr id)].
Definition build_slack_payload (pretty : json -> bytes) (id : bytes) (request : HitlRequest) : json :=
  let text := B "*" ++ category_label request.(h_category) ++ B "* sur le Workshop `" ++ request.(h_workshop_name)
              ++ B "`" ++ [10] ++ B "Demande par : `" ++ request.(h_requested_by) ++ B "`" ++ [10]
              ++ B "```" ++ pretty request.(h_payload) ++ B "```" in
  JObj [(B "blocks", JArr
    [JObj [(B "type", JStr (B "section")); (B "text", JObj [(B "type", JStr (B "mrkdwn")); (B "text", JStr text)])];
     JObj [(B "type", JStr (B "actions")); (B "block_id", JStr id);
           (B "elements", JArr [slack_button (B "Approuver") (B "primary") (B "approve") id;
                                slack_button (B "Rejeter") (B "danger") (B "reject") id])]])].

(** [fn verify_slack_signature]; [mac_hex] is the hexadecimal HMAC-SHA256, which takes a key
    of any length. *)
Definition verify_slack_signature (mac_hex : bytes -> bytes -> bytes) (signing_secret timestamp body signature : bytes) : bool :=
  let expected := B "v0=" ++ mac_hex signing_secret (B "v0:" ++ timestamp ++ B ":" ++ body) in
  constant_time_eq expected signature.

(** [fn slack_interactions]: the answer of a callback that is refused, or the decision it
    carries and who took it; then the status it answers and what it does to the table.  The
    headers are those that are visible ASCII; decoding the form, the JSON and the
    identifier are the libraries'. *)
Record SlackLib := mkSlack {
  sl_form : bytes -> option bytes;
  sl_json : bytes -> option json;
  sl_uuid : bytes -> option bytes }.

Definition slack_request (mac_hex : bytes -> bytes -> bytes) (lib : SlackLib)
    (signing_secret timestamp signature : option bytes) (body : bytes) : Z + (bytes * bytes * bytes) :=
  match signing_secret with
  | None => inl 503
  | Some secret =>
      match timestamp, signature with
      | Some timestamp, Some signature =>
          if negb (utf8_valid body) then inl 400
          else if negb (verify_slack_signature mac_hex secret timestamp body signature) then inl 401
          else
            match sl_form lib body ≫= sl_json lib with
            | None => inl 400
            | Some payload =>
                match jidx payload (B "actions") with
                | JArr (action :: _) =>
                    match as_str (jidx action (B "action_id")), as_str (jidx action (B "value")) ≫= sl_uuid lib with
                    | Some action_id, Some id =>
                        let decision := if beq action_id (B "approve") then Some (B "APPROVED")
                                        else if beq action_id (B "reject") then Some (B "REJECTED") else None in
                        match decision with
                        | None => inl 400
                        | Some decision =>
                            let user := jidx payload (B "user") in
                            let slack_user := match as_str (jidx user (B "username")) with
                                              | Some u => u
                                              | None => default (B "slack-user-inconnu") (as_str (jidx user (B "id")))
                                              end in
                            inr (id, decision, B "slack:" ++ slack_user)
                        end
                    | _, _ => inl 400
                    end
                | _ => inl 400
                end
            end
      | _, _ => inl 401
      end
  end.
Definition slack_interactions (mac_hex : bytes -> bytes -> bytes) (lib : SlackLib) (t : table)
    (signing_secret timestamp signature : option bytes) (body : bytes) (now db_now : Z) : table * Z :=
  match slack_request mac_hex lib signing_secret timestamp signature body with
  | inl status => (t, status)
  | inr (id, decision, decided_by) => ((apply_decision t id decision None decided_by true [[]] now db_now).1, 200)
  end.

(** ** Rows *)

Lemma update_lookup st t wh f id :
  update st t wh f !! id = (fun r => if wh id r && policy st r then f r else r) <$> t !! id.
Proof. unfold update. rewrite map_lookup_imap. by destruct (t !! id). Qed.

Lemma update_by_id st t id f r :
  t !! id = Some r -> policy st r = true -> update st t (fun i _ => beq i id) f = <[id := f r]> t.
Proof.
  intros Hr Hp. apply map_eq. intros i. rewrite update_lookup.
  destruct (decide (i = id)) as [->|Hne].
  - rewrite Hr, lookup_insert_eq. cbn. by rewrite beq_refl, Hp.
  - rewrite lookup_insert_ne by done. rewrite (proj2 (beq_false i id)) by done. cbn. by destruct (t !! i).
Qed.

Lemma select_by_id_Some st t id r : select_by_id st t id = Some r <-> t !! id = Some r /\ policy st r = true.
Proof.
  unfold select_by_id. split.
  - destruct (t !! id) as [r'|]; [|done]. destruct (policy st r') eqn:E; [|done]. by intros [= <-].
  - intros [-> H]. by rewrite H.
Qed.

(** Who may decide: an administrator, or a member of the row's tenant. *)
Definition may_decide (is_admin : bool) (tenants : list bytes) (r : HitlRequest) : Prop :=
  (is_admin = true /\ tenants <> []) \/ (is_admin = false /\ r.(h_tenant) ∈ tenants).

Lemma find_row_Some t cur (is_admin : bool) tenants id st r :
  find_row t (mkSettings cur (Some (if is_admin then B "true" else B "false"))) is_admin tenants id = Some (st, r) ->
  t !! id = Some r /\ policy st r = true /\ may_decide is_admin tenants r.
Proof.
  revert cur. induction tenants as [|tenant rest IH]; intros cur; cbn [find_row]; [done|].
  destruct is_admin; cbn [negb set_tenant is_admin_setting].
  - destruct (select_by_id _ t id) as [r'|] eqn:Es.
    + intros [= <- <-]. apply select_by_id_Some in Es as [H1 H2]. split_and!; [done|done|by left].
    + intros H. destruct (IH cur H) as (? & ? & [[_ ?]|[? _]]); [|done]. split_and!; [done|done|by left].
  - destruct (select_by_id _ t id) as [r'|] eqn:Es.
    + intros [= <- <-]. apply select_by_id_Some in Es as [H1 H2]. split_and!; [done|done|right].
      split; [done|]. unfold policy in H2. cbn [current_tenant is_admin_setting] in H2.
      apply orb_true_iff in H2 as [H2|H2]; apply bool_decide_eq_true in H2; [|done].
      injection H2 as ->. by left.
    + intros H. destruct (IH (Some tenant) H) as (? & ? & [[? _]|[_ ?]]); [done|].
      split_and!; [done|done|right]. split; [done|by right].
Qed.

Lemma find_row_None t cur (is_admin : bool) tenants id r :
  find_row t (mkSettings cur (Some (if is_admin then B "true" else B "false"))) is_admin tenants id = None ->
  t !! id = Some r -> ~ may_decide is_admin tenants r.
Proof.
  intros Hf Hr. revert cur Hf. induction tenants as [|tenant rest IH]; intros cur Hf.
  - intros [[_ ?]|[_ ?%elem_of_nil]]; done.
  - cbn [find_row] in Hf. destruct is_admin; cbn [negb set_tenant is_admin_setting] in Hf.
    + unfold select_by_id in Hf at 1. rewrite Hr in Hf. unfold policy in Hf at 1.
      cbn [is_admin_setting current_tenant] in Hf. by rewrite orb_comm in Hf.
    + unfold select_by_id in Hf at 1. rewrite Hr in Hf. unfold policy in Hf at 1.
      cbn [is_admin_setting current_tenant] in Hf. case_bool_decide as Ht; [done|].
      cbn in Hf. intros [[? _]|[_ [Heq|Hin]%elem_of_cons]]; [done|by rewrite Heq in Ht|].
      apply (IH (Some tenant) Hf). by right.
Qed.

(** [apply_decision], every branch. *)
Lemma apply_decision_cases t id decision reason by_ is_admin tenants now db_now :
  apply_decision t id decision reason by_ is_admin tenants now db_now =
  match parse_decision decision with
  | None => (t, AErr (bad_request "decision invalide, attendu 'APPROVED' ou 'REJECTED'"))
  | Some s =>
      match find_row t (set_admin no_settings is_admin) is_admin tenants id with
      | None => (t, AErr (not_found_generic "demande d'approbation introuvable ou non autorisee"))
      | Some (_, r) =>
          match r.(h_status) with
          | PENDING =>
              if r.(h_expires_at) <? now
              then (<[id := with_status EXPIRED r]> t, AErr (bad_request "demande expiree (TTL depasse), decision refusee"))
              else (<[id := decided s by_ reason db_now r]> t, AOk (decided s by_ reason db_now r))
          | _ => (t, AErr (bad_request "demande deja tranchee"))
          end
      end
  end.
Proof.
  unfold apply_decision, decide_read. destruct (parse_decision decision) as [s|]; [|done].
  destruct (find_row t _ _ _ _) as [[st r]|] eqn:Ef; [|done].
  destruct (find_row_Some _ _ _ _ _ _ _ Ef) as (Hr & Hp & _).
  destruct (h_status r) eqn:Es; [rewrite bool_decide_eq_true_2 by done|rewrite bool_decide_eq_false_2 by done; done..].
  destruct (h_expires_at r <? now); cbn [andb negb].
  - unfold expire_write. by rewrite (update_by_id _ _ _ _ r).
  - unfold decide_write. rewrite (proj2 (select_by_id_Some st t id r)) by done. by rewrite (update_by_id _ _ _ _ r).
Qed.

(** ** Histories *)

Lemma parse_decision_status d s : parse_decision d = Some s -> s = APPROVED \/ s = REJECTED.
Proof. unfold parse_decision. repeat case_match; intros; simplify_eq; auto. Qed.

(** A decision that has read its row and has yet to write it. *)
Inductive under_way :=
| UExpire (st : settings) (id : bytes)
| UDecide (st : settings) (id : bytes) (s : hitl_status) (by_ : bytes) (reason : option bytes).
Definition u_id (u : under_way) : bytes := match u with UExpire _ id | UDecide _ id _ _ _ => id end.

(** The transaction of a decision, at its read and at its write. *)
Definition begin_decision (t : table) (id decision : bytes) (reason : option bytes) (decided_by : bytes)
    (is_admin : bool) (candidate_tenants : list bytes) (now : Z) : list under_way :=
  match decide_read t id decision is_admin candidate_tenants now with
  | DRefused _ => []
  | DExpire st => [UExpire st id]
  | DProceed st s => [UDecide st id s decided_by reason]
  end.
Definition end_decision (t : table) (u : under_way) (db_now : Z) : table :=
  match u with
  | UExpire st id => expire_write st t id
  | UDecide st id s by_ reason => (decide_write st t id s by_ reason db_now).1
  end.

(** The table and the decisions under way.  A creation and a list write in one statement; a
    decision, of a user or of Slack, reads, and writes later, whatever happened in between,
    or fails. *)
Inductive hitl_step {K} `{!KubeApi K} : table * list under_way -> table * list under_way -> Prop :=
| hs_create k t us user name category payload id now :
    hitl_step (t, us) ((create_approval (K := K) k t user name category payload id now).1, us)
| hs_list k t us user name now : hitl_step (t, us) ((list_approvals (K := K) k t user name now).1, us)
| hs_decide t us user claims id decision reason now :
    let is_admin := has_role claims ADMIN_ROLE in
    hitl_step (t, us) (t, begin_decision t id decision reason user.(subject) is_admin
                            (if is_admin then [[]] else user.(groups)) now ++ us)
| hs_slack mac lib t us secret ts sg body id decision by_ now :
    slack_request mac lib secret ts sg body = inr (id, decision, by_) ->
    hitl_step (t, us) (t, begin_decision t id decision None by_ true [[]] now ++ us)
| hs_end t us1 u us2 db_now : hitl_step (t, us1 ++ u :: us2) (end_decision t u db_now, us1 ++ us2)
| hs_fail t us1 u us2 : hitl_step (t, us1 ++ u :: us2) (t, us1 ++ us2).

(** What a row keeps: the request itself. *)
Definition same_request (r r' : HitlRequest) : Prop :=
  r'.(h_tenant) = r.(h_tenant) /\ r'.(h_workshop_name) = r.(h_workshop_name) /\ r'.(h_category) = r.(h_category) /\
  r'.(h_requested_by) = r.(h_requested_by) /\ r'.(h_payload) = r.(h_payload) /\
  r'.(h_created_at) = r.(h_created_at) /\ r'.(h_expires_at) = r.(h_expires_at).

Lemma same_request_refl r : same_request r r.
Proof. done. Qed.

Lemma same_request_trans a b c : same_request a b -> same_request b c -> same_request a c.
Proof. unfold same_request. intuition congruence. Qed.

(** How a row may change: not at all, or its request is kept and it is no longer pending. *)
Definition row_evolves (r r' : HitlRequest) : Prop :=
  r' = r \/ same_request r r' /\ r'.(h_status) <> PENDING.

Lemma update_evolves st t wh f id r :
  t !! id = Some r -> (forall x, wh id x = true -> row_evolves x (f x)) ->
  exists r', update st t wh f !! id = Some r' /\ row_evolves r r' /\ (wh id r = false -> r' = r).
Proof.
  intros Hr Hf. rewrite update_lookup, Hr. cbn. eexists. split; [reflexivity|].
  destruct (wh id r) eqn:Ew; cbn [andb]; [|by split; [left|]]. destruct (policy st r); [|by split; [left|]].
  split; [by apply Hf|done].
Qed.

(** The status a decision under way would write. *)
Definition u_ok (u : under_way) : Prop := match u with UDecide _ _ s _ _ => s <> PENDING | UExpire _ _ => True end.

Lemma end_decision_row t u db_now id r :
  u_ok u -> t !! id = Some r ->
  exists r', end_decision t u db_now !! id = Some r' /\ row_evolves r r' /\ (u_id u <> id -> r' = r).
Proof.
  intros Hu Hr. destruct u as [st i|st i s by_ reason]; cbn [end_decision u_id u_ok] in *.
  - destruct (update_evolves st t (fun j _ => beq j i) (with_status EXPIRED) id r Hr) as (r' & H1 & H2 & H3).
    { intros x _. by right. }
    exists r'. split_and!; [done..|]. intros Hne. apply H3, beq_false. congruence.
  - unfold decide_write. destruct (select_by_id st t i) as [x|]; cbn [fst]; [|exists r; by split_and!; [|left|]].
    destruct (update_evolves st t (fun j _ => beq j i) (decided s by_ reason db_now) id r Hr) as (r' & H1 & H2 & H3).
    { intros y _. by right. }
    exists r'. split_and!; [done..|]. intros Hne. apply H3, beq_false. congruence.
Qed.

(** A decision begins on a pending row only. *)
Lemma begin_decision_pending t id decision reason by_ is_admin tenants now u :
  u ∈ begin_decision t id decision reason by_ is_admin tenants now ->
  u_id u = id /\ u_ok u /\ exists r, t !! id = Some r /\ r.(h_status) = PENDING.
Proof.
  unfold begin_decision, decide_read. destruct (parse_decision decision) as [s|] eqn:Ed; [|by intros ?%elem_of_nil].
  apply parse_decision_status in Ed.
  destruct (find_row _ _ _ _ _) as [[st r]|] eqn:Ef; [|by intros ?%elem_of_nil].
  destruct (find_row_Some _ _ _ _ _ _ _ Ef) as (Hr & _ & _). case_bool_decide as Hp; cbn [andb negb].
  2: by intros ?%elem_of_nil.
  destruct (h_expires_at r <? now); intros ->%list_elem_of_singleton; cbn [u_id u_ok]; (split_and!; [done| |eauto]); [done|].
  by destruct Ed as [->| ->].
Qed.

Lemma expire_stale_row st t name now id r :
  t !! id = Some r ->
  exists r', expire_stale st t name now !! id = Some r' /\ row_evolves r r' /\ (r.(h_status) <> PENDING -> r' = r).
Proof.
  intros Hr. unfold expire_stale.
  destruct (update_evolves st t (fun _ r => beq r.(h_workshop_name) name && bool_decide (r.(h_status) = PENDING)
              && (r.(h_expires_at) <? now)) (with_status EXPIRED) id r Hr) as (r' & H1 & H2 & H3).
  { intros x _. by right. }
  exists r'. split_and!; [done..|]. intros Hn. apply H3. by rewrite bool_decide_eq_false_2, andb_false_r by done.
Qed.

Lemma create_row {K} `{!KubeApi K} k t user name category payload i now id r :
  t !! id = Some r -> (create_approval (K := K) k t user name category payload i now).1 !! id = Some r.
Proof.
  intros Hr. unfold create_approval. destruct (valid_category category); cbn [negb]; [|done].
  destruct (owned k user name); [|done].
  destruct (insert_row _ _ _ _ _ _ _ _ _) as [[t1 x]|] eqn:E; [|done]. cbn [fst]. unfold insert_row in E.
  destruct (_ && _) eqn:Eg; [|done]. injection E as <- <-. bool_prop. by rewrite lookup_insert_ne by congruence.
Qed.

(** One step, for one row: what it may become, and when it cannot change. *)
Lemma hitl_step_row {K} `{!KubeApi K} t us t' us' :
  hitl_step (K := K) (t, us) (t', us') -> Forall u_ok us ->
  Forall u_ok us' /\
  forall id r, t !! id = Some r -> exists r', t' !! id = Some r' /\ row_evolves r r' /\
    (r.(h_status) <> PENDING -> (forall u, u ∈ us -> u_id u <> id) ->
     r' = r /\ forall u, u ∈ us' -> u_id u <> id).
Proof.
  intros Hs Hok. inversion Hs as [k ? ? user name category payload i now|k ? ? user name now
    |? ? user claims i decision reason now|mac lib ? ? secret ts sg body i decision by_ now Hsl|? us1 u us2 db_now|? us1 u us2]; subst.
  - split; [done|]. intros id r Hr. exists r. split_and!; [by apply create_row|by left|done].
  - split; [done|]. intros id r Hr. unfold list_approvals. destruct (owned k user name) as [w|]; [|exists r; by split_and!; [|left|]].
    destruct (expire_stale_row (set_tenant no_settings (workshop_tenant w)) t name now id r Hr) as (r' & H1 & H2 & H3).
    exists r'. split_and!; [done|done|]. intros Hn Hu. by split; [apply H3|].
  - split; [apply Forall_app; split; [|done]; apply Forall_forall; by intros u (_ & ? & _)%begin_decision_pending|].
    intros id r Hr. exists r. split_and!; [done|by left|]. intros Hn Hu. split; [done|].
    intros u [(Hid & _ & x & Hx & Hp)%begin_decision_pending|Hin]%elem_of_app; [|by apply Hu]. subst i. congruence.
  - split; [apply Forall_app; split; [|done]; apply Forall_forall; by intros u (_ & ? & _)%begin_decision_pending|].
    intros id r Hr. exists r. split_and!; [done|by left|]. intros Hn Hu. split; [done|].
    intros u [(Hid & _ & x & Hx & Hp)%begin_decision_pending|Hin]%elem_of_app; [|by apply Hu]. subst i. congruence.
  - apply Forall_app in Hok as [Hok1 [Hu Hok2]%Forall_cons]. split; [by apply Forall_app|].
    intros id r Hr. destruct (end_decision_row t u db_now id r Hu Hr) as (r' & H1 & H2 & H3).
    exists r'. split_and!; [done|done|]. intros Hn Hno. split; [apply H3, Hno; set_solver|].
    intros v Hv. apply Hno. set_solver.
  - apply Forall_app in Hok as [Hok1 [Hu Hok2]%Forall_cons]. split; [by apply Forall_app|].
    intros id r Hr. exists r. split_and!; [done|by left|]. intros Hn Hno. split; [done|]. intros v Hv. apply Hno. set_solver.
Qed.

Lemma row_evolves_trans a b c : row_evolves a b -> row_evolves b c -> row_evolves a c.
Proof.
  intros [->|[H1 H2]] [->|[H3 H4]]; [by left|by right|by right|]. right. split; [by eapply same_request_trans|done].
Qed.

Lemma hitl_history {K} `{!KubeApi K} s s' :
  rtc (hitl_step (K := K)) s s' -> Forall u_ok s.2 ->
  Forall u_ok s'.2 /\
  forall id r, s.1 !! id = Some r -> exists r', s'.1 !! id = Some r' /\ row_evolves r r' /\
    (r.(h_status) <> PENDING -> (forall u, u ∈ s.2 -> u_id u <> id) -> r' = r).
Proof.
  induction 1 as [s|[t us] [t1 us1] s' H1 _ IH]; intros Hok.
  - split; [done|]. intros id r Hr. exists r. by split_and!; [|left|].
  - destruct (hitl_step_row t us t1 us1 H1 Hok) as [Hok1 Hrow]. destruct (IH Hok1) as [Hok' Hrest]. split; [done|].
    intros id r Hr. destruct (Hrow id r Hr) as (r1 & Hr1 & He1 & Hf1).
    destruct (Hrest id r1 Hr1) as (r2 & Hr2 & He2 & Hf2). exists r2. split_and!; [done|by eapply row_evolves_trans|].
    intros Hn Hu. destruct (Hf1 Hn Hu) as [-> Hu1]. by apply Hf2.
Qed.

(** Run on its own, a decision is its read followed by its write. *)
Lemma decision_alone t id decision reason by_ is_admin tenants now db_now :
  (apply_decision t id decision reason by_ is_admin tenants now db_now).1 =
  match begin_decision t id decision reason by_ is_admin tenants now with
  | u :: _ => end_decision t u db_now
  | [] => t
  end.
Proof. unfold apply_decision, begin_decision. by destruct (decide_read _ _ _ _ _ _). Qed.

(** ** Claims *)

(** The outcome of a decision, by who asks for it.  Someone who is neither an
    administrator nor a member of the request's tenant gets the answer of a request that
    does not exist, and changes nothing; otherwise a pending request that has not
    expired takes the decision, with who took it and when; an expired one becomes
    [EXPIRED] and is refused; a decided one is refused and left as it is. *)
Theorem decide_approval_spec t user claims id decision reason now db_now s :
  parse_decision decision = Some s ->
  let out := decide_approval t user claims id decision reason now db_now in
  (t !! id = None -> out = (t, AErr (not_found_generic "demande d'approbation introuvable ou non autorisee"))) /\
  (forall r, t !! id = Some r ->
     (has_role claims ADMIN_ROLE = false -> r.(h_tenant) ∉ user.(groups) ->
        out = (t, AErr (not_found_generic "demande d'approbation introuvable ou non autorisee"))) /\
     (has_role claims ADMIN_ROLE = true \/ r.(h_tenant) ∈ user.(groups) ->
        out = match r.(h_status) with
              | PENDING =>
                  if r.(h_expires_at) <? now
                  then (<[id := with_status EXPIRED r]> t, AErr (bad_request "demande expiree (TTL depasse), decision refusee"))
                  else (<[id := decided s user.(subject) reason db_now r]> t,
                        AOk (decided s user.(subject) reason db_now r))
              | _ => (t, AErr (bad_request "demande deja tranchee"))
              end)).
Proof.
  intros Hs. cbn zeta. unfold decide_approval. rewrite apply_decision_cases, Hs.
  set (adm := has_role claims ADMIN_ROLE). set (ten := if adm then [[]] else groups user).
  destruct (find_row t (set_admin no_settings adm) adm ten id) as [[st r']|] eqn:Ef.
  - destruct (find_row_Some _ _ _ _ _ _ _ Ef) as (Hr' & _ & Hm). split; [congruence|]. intros r Hr. simplify_eq. split.
    + intros Ha Hn. unfold ten in Hm. rewrite Ha in Hm. by destruct Hm as [[? _]|[_ ?]].
    + done.
  - split; [done|]. intros r Hr. split; [done|]. intros Hm. exfalso. eapply find_row_None; [exact Ef|exact Hr|].
    unfold may_decide, ten. destruct adm eqn:Ea; [by left|right]. split; [done|]. by destruct Hm.
Qed.

(** C23: in any interleaving of creations, lists, decisions of users and of Slack, each
    decision reading its row and writing it later, a request is never lost nor altered: its
    row keeps what was asked, and once it is no longer pending it never is again; and once
    it is no longer pending and no decision that read it while it was is still under way, it
    never changes again.  Two decisions that overlap are both accepted, and the last one
    written stays: [overlapping_decisions]. *)
Theorem decisions_final {K} `{!KubeApi K} t0 t us t' us' id r :
  rtc (hitl_step (K := K)) (t0, []) (t, us) -> rtc (hitl_step (K := K)) (t, us) (t', us') -> t !! id = Some r ->
  exists r', t' !! id = Some r' /\ same_request r r' /\
    (r.(h_status) <> PENDING -> r'.(h_status) <> PENDING) /\
    (r.(h_status) <> PENDING -> (forall u, u ∈ us -> u_id u <> id) -> r' = r).
Proof.
  intros H0 H1 Hr. destruct (hitl_history _ _ H0) as [Hok _]; [constructor|].
  destruct (hitl_history _ _ H1 Hok) as [_ Hrow]. destruct (Hrow id r Hr) as (r' & Hr' & He & Hf).
  exists r'. split_and!; [done| | |done]; destruct He as [->|[Hs Hp]]; done.
Qed.

(** Two decisions whose transactions overlap are both accepted: each has read the
    row while it was pending, the final update does not check it again, so that the
    answer given first is overwritten by the second decision. *)
Theorem overlapping_decisions t id d1 adm1 ten1 now1 st1 s1 by1 re1 n1 d2 adm2 ten2 now2 st2 s2 by2 re2 n2 :
  decide_read t id d1 adm1 ten1 now1 = DProceed st1 s1 ->
  decide_read t id d2 adm2 ten2 now2 = DProceed st2 s2 ->
  let '(t1, o1) := decide_write st1 t id s1 by1 re1 n1 in
  let '(t2, o2) := decide_write st2 t1 id s2 by2 re2 n2 in
  exists r1 r2, o1 = AOk r1 /\ r1.(h_status) = s1 /\ o2 = AOk r2 /\ r2.(h_status) = s2 /\ t2 !! id = Some r2.
Proof.
  assert (Hread : forall d adm ten now st s, decide_read t id d adm ten now = DProceed st s ->
            exists r, t !! id = Some r /\ policy st r = true).
  { intros d adm ten now st s. unfold decide_read. destruct (parse_decision d); [|done].
    destruct (find_row _ _ _ _ _) as [[st' r]|] eqn:Ef; [|done].
    destruct (find_row_Some _ _ _ _ _ _ _ Ef) as (Hr & Hp & _). repeat case_match; try done. intros [= <- <-]. eauto. }
  intros H1 H2. destruct (Hread _ _ _ _ _ _ H1) as (r & Hr & Hp1). destruct (Hread _ _ _ _ _ _ H2) as (r' & Hr' & Hp2).
  simplify_eq. unfold decide_write at 1. rewrite (proj2 (select_by_id_Some st1 t id r)) by done.
  rewrite (update_by_id _ _ _ _ r) by done. unfold decide_write.
  rewrite (proj2 (select_by_id_Some st2 _ id (decided s1 by1 re1 n1 r))) by (by rewrite lookup_insert_eq).
  rewrite (update_by_id _ _ _ _ (decided s1 by1 re1 n1 r)) by (by rewrite ?lookup_insert_eq).
  eexists _, _. split_and!; [reflexivity..|]. by rewrite lookup_insert_eq.
Qed.

(** Slack's webhook decides something only with the signature, under the configured
    secret, of the very timestamp and body received; without a secret it never does; and a
    callback received again after the request was decided changes nothing. *)
Theorem slack_signed mac lib t secret ts sg body now db_now :
  (slack_interactions mac lib t secret ts sg body now db_now).1 <> t ->
  exists key timestamp signature, secret = Some key /\ ts = Some timestamp /\ sg = Some signature /\
    signature = B "v0=" ++ mac key (B "v0:" ++ timestamp ++ B ":" ++ body) /\
    exists id r, t !! id = Some r /\ r.(h_status) = PENDING /\
      forall i, i <> id -> (slack_interactions mac lib t secret ts sg body now db_now).1 !! i = t !! i.
Proof.
  intros Hne. assert (Hsig : exists key timestamp signature, secret = Some key /\ ts = Some timestamp /\
    sg = Some signature /\ signature = B "v0=" ++ mac key (B "v0:" ++ timestamp ++ B ":" ++ body)).
  { revert Hne. unfold slack_interactions, slack_request. destruct secret as [key|]; [|done].
    destruct ts as [timestamp|], sg as [signature|]; try done. destruct (negb (utf8_valid body)); [done|].
    destruct (verify_slack_signature mac key timestamp body signature) eqn:Ev; cbn [negb]; [|done].
    unfold verify_slack_signature in Ev. apply constant_time_eq_true in Ev. eauto 8. }
  destruct Hsig as (key & timestamp & signature & H1 & H2 & H3 & H4).
  exists key, timestamp, signature. split_and!; [done..|]. clear H1 H2 H3 H4. unfold slack_interactions in *.
  destruct (slack_request mac lib secret ts sg body) as [|[[id d] by_]]; [done|]. cbn [fst] in *.
  rewrite apply_decision_cases in *.
  destruct (parse_decision d) as [s|]; [|done].
  destruct (find_row t _ true [[]] id) as [[st r]|] eqn:Ef; [|done].
  destruct (find_row_Some t None true [[]] id st r Ef) as (Hr & _ & _).
  destruct (h_status r) eqn:Es; [|done..]. exists id, r. split_and!; [done|done|]. intros i Hi.
  destruct (h_expires_at r <? now); cbn [fst]; by rewrite lookup_insert_ne.
Qed.

(** What the two buttons of a notification carry: the identifier of the request they
    were built for. *)
Lemma slack_button_roundtrip pretty id r button :
  (exists blocks, jget (B "blocks") (build_slack_payload pretty id r) = Some (JArr blocks) /\
     exists b, b ∈ blocks /\ exists elements, jget (B "elements") b = Some (JArr elements) /\ button ∈ elements) ->
  as_str (jidx button (B "value")) = Some id /\
  (as_str (jidx button (B "action_id")) = Some (B "approve") \/ as_str (jidx button (B "action_id")) = Some (B "reject")).
Proof.
  intros (blocks & [= <-] & b & Hb & elements & He & Hbut).
  apply elem_of_cons in Hb as [->|Hb]; [done|]. apply list_elem_of_singleton in Hb as ->.
  injection He as <-. apply elem_of_cons in Hbut as [->|Hbut].
  - split; [reflexivity|left; reflexivity].
  - apply list_elem_of_singleton in Hbut as ->. split; [reflexivity|right; reflexivity].
Qed.

(** ** Witnesses *)

Definition toy_row : HitlRequest :=
  mkHitl (B "team") (B "demo") (B "SECRET_REQUEST") (B "agent") JNull PENDING None None 0 HITL_TTL None.
Definition toy_table : table := {[B "id-1" := toy_row]}.

Lemma decide_approval_spec_witness :
  decide_approval toy_table alice no_claims (B "id-1") (B "APPROVED") None 100 100 =
  (<[B "id-1" := decided APPROVED (B "alice") None 100 toy_row]> toy_table, AOk (decided APPROVED (B "alice") None 100 toy_row)).
Proof.
  apply (proj2 (decide_approval_spec toy_table alice no_claims (B "id-1") (B "APPROVED") None 100 100 APPROVED
    ltac:(reflexivity)) toy_row); [reflexivity|]. right. apply list_elem_of_singleton. reflexivity.
Defined.

(** A request approved, then rejected by someone else: the second decision is refused at its
    read, and the row stays approved. *)
Lemma decisions_final_witness :
  let r := decided APPROVED (B "alice") None 100 toy_row in
  let t := <[B "id-1" := r]> toy_table in
  (exists r', t !! B "id-1" = Some r' /\ r' = r) /\
  begin_decision t (B "id-1") (B "REJECTED") None (B "alice") false [B "team"] 100 = [].
Proof.
  intros r t. split; [|vm_compute; reflexivity].
  assert (Ht : end_decision toy_table (UDecide (mkSettings (Some (B "team")) (Some (B "false"))) (B "id-1") APPROVED (B "alice") None) 100 = t)
    by (vm_compute; reflexivity).
  destruct (decisions_final (K := toy_kube) toy_table t [] t [] (B "id-1") r) as (r' & H1 & _ & _ & H2).
  - eapply rtc_l; [exact (hs_decide toy_table [] alice no_claims (B "id-1") (B "APPROVED") None 100)|].
    apply rtc_once. rewrite <- Ht.
    exact (hs_end toy_table [] (UDecide (mkSettings (Some (B "team")) (Some (B "false"))) (B "id-1") APPROVED (B "alice") None) [] 100).
  - apply rtc_once. pose proof (hs_decide (K := toy_kube) t [] alice no_claims (B "id-1") (B "REJECTED") None 100) as Hs.
    assert (Hb : begin_decision t (B "id-1") (B "REJECTED") None (subject alice) (has_role no_claims ADMIN_ROLE)
                   (if has_role no_claims ADMIN_ROLE then [[]] else groups alice) 100 ++ [] = []) by (vm_compute; reflexivity).
    cbv zeta in Hs. rewrite Hb in Hs. exact Hs.
  - vm_compute. reflexivity.
  - exists r'. split; [exact H1|]. apply H2; [discriminate|]. intros u Hu. destruct (proj1 (elem_of_nil u) Hu).
Defined.

Lemma overlapping_decisions_witness :
  exists st1 st2 r1 r2,
    let '(t1, o1) := decide_write st1 toy_table (B "id-1") APPROVED (B "alice") None 100 in
    let '(t2, o2) := decide_write st2 t1 (B "id-1") REJECTED (B "root") None 100 in
    o1 = AOk r1 /\ r1.(h_status) = APPROVED /\ o2 = AOk r2 /\ t2 !! B "id-1" = Some r2 /\ r2.(h_status) = REJECTED.
Proof.
  pose proof (overlapping_decisions toy_table (B "id-1") (B "APPROVED") false [B "team"] 100
    (mkSettings (Some (B "team")) (Some (B "false"))) APPROVED (B "alice") None 100
    (B "REJECTED") true [[]] 100 (mkSettings None (Some (B "true"))) REJECTED (B "root") None 100
    ltac:(reflexivity) ltac:(reflexivity)) as H.
  exists (mkSettings (Some (B "team")) (Some (B "false"))), (mkSettings None (Some (B "true"))).
  destruct (decide_write _ toy_table _ _ _ _ _) as [t1 o1]. destruct (decide_write _ t1 _ _ _ _ _) as [t2 o2].
  destruct H as (r1 & r2 & H1 & H2 & H3 & H4 & H5). exists r1, r2.
  exact (conj H1 (conj H2 (conj H3 (conj H5 H4)))).
Defined.

(** A Slack whose form is its payload, and whose payloads reject ["id-1"]. *)
Definition toy_slack : SlackLib := mkSlack Some
  (fun _ => Some (JObj [(B "actions", JArr [slack_button (B "Rejeter") (B "danger") (B "reject") (B "id-1")])])) Some.

Lemma slack_signed_witness :
  exists key, Some (B "secret") = Some key.
Proof.
  destruct (slack_signed toy_mac toy_slack toy_table (Some (B "secret")) (Some (B "1"))
    (Some (B "v0=" ++ toy_mac (B "secret") (B "v0:" ++ B "1" ++ B ":" ++ B "x"))) (B "x") 100 100)
    as (key & _ & _ & H & _).
  - intros H. apply (f_equal (fun t : table => h_status <$> t !! B "id-1")) in H. vm_compute in H. discriminate H.
  - exists key. exact H.
Defined.
