(* ===== verification/Shell.v ===== *)
(** * The POSIX shell's words

    The scripts the API server and image-builder hand to a guest's shell.  [lex] is the
    token recognition of the POSIX shell on the fragment they use: blanks, newlines,
    operators, single quotes and backslashes; an unquoted character that would start an
    expansion, a comment or a double quote is outside the fragment ([None]).  [quote] is
    [crates/api-server/src/run.rs]'s. *)

From S2P Require Import Prelude RustStr.

Inductive tok :=
| Word (w : bytes)
| Op (c : Z)
| Newline.

Definition is_blank (c : Z) : bool := (c =? 32) || (c =? 9).
(** [| & ; < > ( )]. *)
Definition is_op (c : Z) : bool := existsb (Z.eqb c) [124; 38; 59; 60; 62; 40; 41].
(** Double quote, [# $ * ? \[ ~] and back quote, and [! { }]. *)
Definition is_special (c : Z) : bool := existsb (Z.eqb c) [34; 35; 36; 42; 63; 91; 126; 96; 33; 123; 125].

Definition flush (cur : option bytes) (ts : list tok) : list tok :=
  match cur with Some w => Word w :: ts | None => ts end.

(** [cur] is the word being read, if one has started; [quoted], whether inside single
    quotes. *)
Fixpoint lex (cur : option bytes) (quoted : bool) (s : bytes) : option (list tok) :=
  match s with
  | [] => if quoted then None else Some (flush cur [])
  | c :: r =>
      if quoted then
        if c =? 39 then lex cur false r else lex (Some (default [] cur ++ [c])) true r
      else if c =? 39 then lex (Some (default [] cur)) true r
      else if c =? 92 then
        match r with
        | [] => None
        | d :: r' => if d =? 10 then lex cur false r' else lex (Some (default [] cur ++ [d])) false r'
        end
      else if is_blank c then flush cur <$> lex None false r
      else if c =? 10 then (fun ts => flush cur (Newline :: ts)) <$> lex None false r
      else if is_op c then (fun ts => flush cur (Op c :: ts)) <$> lex None false r
      else if is_special c then None
      else lex (Some (default [] cur ++ [c])) false r
  end.

(** [text.replace('\'', r"'\''")], and [fn quote]. *)
Definition escape_quotes (text : bytes) : bytes :=
  text ≫= (fun c => if c =? 39 then [39; 92; 39; 39] else [c]).
Definition quote (text : bytes) : bytes := [39] ++ escape_quotes text ++ [39].

(** A character that stands for itself outside quotes. *)
Definition plain (c : Z) : bool :=
  negb (c =? 39) && negb (c =? 92) && negb (is_blank c) && negb (c =? 10) && negb (is_op c) && negb (is_special c).

Lemma lex_escaped text acc rest :
  lex (Some acc) true (escape_quotes text ++ 39 :: rest) = lex (Some (acc ++ text)) false rest.
Proof.
  revert acc; induction text as [|c text IH]; intros acc; cbn [escape_quotes mbind list_bind app].
  - cbn [lex Z.eqb Pos.eqb]. by rewrite app_nil_r.
  - change (list_bind _ _ _ text) with (escape_quotes text). destruct (c =? 39) eqn:E.
    + apply Z.eqb_eq in E as ->. cbn [app].
      cbn [lex Z.eqb Pos.eqb]. cbn [from_option Datatypes.id]. rewrite IH. by rewrite <- app_assoc.
    + cbn [app lex]. rewrite E. cbn [from_option Datatypes.id]. rewrite IH. by rewrite <- app_assoc.
Qed.

(** Whatever the text, its quotation is read as that text, in the current word. *)
Lemma lex_quote cur text rest :
  lex cur false (quote text ++ rest) = lex (Some (default [] cur ++ text)) false rest.
Proof.
  unfold quote. rewrite <- !app_assoc. cbn [app lex Z.eqb Pos.eqb].
  change ([39] ++ rest) with (39 :: rest). by rewrite lex_escaped.
Qed.

Lemma lex_plain_char cur c rest :
  plain c = true -> lex cur false (c :: rest) = lex (Some (default [] cur ++ [c])) false rest.
Proof.
  unfold plain. intros H. bool_prop. cbn [lex].
  repeat match goal with H : _ = false |- _ => rewrite H; clear H end. done.
Qed.

Lemma lex_plain cur w rest :
  w <> [] -> forallb plain w = true -> lex cur false (w ++ rest) = lex (Some (default [] cur ++ w)) false rest.
Proof.
  revert cur. induction w as [|c w IH]; intros cur Hne Hw; [done|]. cbn [forallb] in Hw.
  apply andb_true_iff in Hw as [Hc Hw]. cbn [app]. rewrite lex_plain_char by done.
  destruct w as [|d w]; [done|]. rewrite IH by done. cbn [from_option Datatypes.id]. by rewrite <- app_assoc.
Qed.

Lemma lex_blank cur rest : lex cur false (32 :: rest) = flush cur <$> lex None false rest.
Proof. done. Qed.

Lemma lex_newline cur rest : lex cur false (10 :: rest) = (fun ts => flush cur (Newline :: ts)) <$> lex None false rest.
Proof. done. Qed.

Lemma lex_nil cur : lex cur false [] = Some (flush cur []).
Proof. done. Qed.

(** Decimal numbers are plain words. *)
Lemma dec_plain n : 0 <= n -> forallb plain (dec n) = true.
Proof.
  intros Hn. unfold dec. apply forallb_forall. intros c Hc%list_elem_of_In.
  pose proof (dec_digits_all 20 n c Hn Hc) as H. unfold plain, is_blank, is_op, is_special. cbn [existsb].
  repeat match goal with |- context [?a =? ?b] => replace (a =? b) with false by lia end. done.
Qed.

Lemma dec_nonempty n : dec n <> [].
Proof. apply dec_digits_nonempty. lia. Qed.
