(* ===== verification/Exec.v ===== *)
(** * Commands in a Workshop

    [crates/api-server/src/run.rs] (one command, its result in the answer) and [exec.rs]
    (a command in the background, its output kept in a table and streamed).  SSH is an
    argument: the messages of the channel with the instants they arrive at; instants
    and durations are in milliseconds. *)

From S2P Require Import Prelude RustStr Collections F64 Utf8 Json Shell LlmBudget IdentityRules OpenBao Auth Routes.

(** ** Requests *)

Definition DEFAULT_TIMEOUT_SECS : Z := 60.
Definition DEFAULT_MAX_OUTPUT_BYTES : Z := 1024 * 1024.
Definition MAX_OUTPUT_BYTES : Z := 8 * 1024 * 1024.
Definition KILL_GRACE_SECS : Z := 5.
Definition SERVER_MARGIN : Z := 10 * 1000.
Definition DRAIN_AFTER_EXIT : Z := 300.

(** [std::env::var(..).ok().and_then(|v| v.parse().ok())]. *)
Definition env_u64 (env : string -> option bytes) (name : string) : option Z := env name ≫= parse_u64.

(** [fn timeout_ceiling_secs]. *)
Definition timeout_ceiling_secs (env : string -> option bytes) : Z :=
  match env_u64 env "ATELIER_EXEC_CEILING_SECS" with
  | Some secs => if 0 <? secs then secs else 1200
  | None => 1200
  end.

(** [fn is_env_name]. *)
Definition is_ascii_alphabetic (c : Z) : bool := ((65 <=? c) && (c <=? 90)) || ((97 <=? c) && (c <=? 122)).
Definition is_env_name (name : bytes) : bool :=
  match name with
  | [] => false
  | c :: r => (is_ascii_alphabetic c || (c =? 95))
              && forallb (fun c => is_ascii_alphabetic c || is_ascii_digit c || (c =? 95)) r
  end.

Record RunRequest := mkRun {
  command : bytes; working_dir : option bytes; env_vars : btree; timeout_secs : Z; max_output : Z }.

(** [RunRequest::new]: [Err] is the message of a bad request. *)
Definition has_nul (s : bytes) : bool := existsb (Z.eqb 0) s.
Definition dir_ok (working_dir : option bytes) : bool :=
  match working_dir with Some dir => negb (is_empty dir || has_nul dir) | None => true end.
Fixpoint check_env (env : list (bytes * bytes)) : res unit :=
  match env with
  | [] => Ok tt
  | (name, value) :: r =>
      if negb (is_env_name name) then Err "nom de variable d'environnement invalide"
      else if has_nul value then Err "la variable contient un octet nul"
      else check_env r
  end.
Definition run_request_new (ceiling : Z) (command : bytes) (working_dir : option bytes) (env : btree)
    (timeout_seconds max_output_bytes : option Z) : res RunRequest :=
  if is_empty (trim command) then Err "commande vide"
  else if has_nul command then Err "la commande contient un octet nul"
  else if negb (dir_ok working_dir) then Err "workingDir invalide"
  else
    _ ← check_env (btree_iter env);
    let timeout := default DEFAULT_TIMEOUT_SECS timeout_seconds in
    if timeout =? 0 then Err "timeoutSeconds doit etre superieur a 0"
    else Ok (mkRun command working_dir env (Z.min timeout ceiling)
               (Z.min (default DEFAULT_MAX_OUTPUT_BYTES max_output_bytes) MAX_OUTPUT_BYTES)).

(** [fn script]. *)
Definition script_cd (working_dir : option bytes) (default_dir : bytes) : bytes :=
  match working_dir with
  | Some dir => B "cd -- " ++ quote dir ++ B " || exit 126" ++ [10]
  | None => B "cd -- " ++ quote default_dir ++ B " 2>/dev/null || true" ++ [10]
  end.
Definition script_export (kv : bytes * bytes) : bytes := B "export " ++ kv.1 ++ B "=" ++ quote kv.2 ++ [10].
Definition script (r : RunRequest) (default_dir : bytes) : bytes :=
  script_cd r.(working_dir) default_dir
  ++ (btree_iter r.(env_vars) ≫= script_export)
  ++ B "exec timeout -k " ++ dec KILL_GRACE_SECS ++ B " " ++ dec r.(timeout_secs) ++ B " sh -c "
  ++ quote r.(command) ++ B " </dev/null" ++ [10].

(** ** The result *)

Record RunOutcome := mkOutcome {
  exit_code : option Z; signal : option bytes; timed_out : bool; stdout : bytes; stderr : bytes;
  stdout_truncated : bool; stderr_truncated : bool; duration : Z }.

Definition empty_outcome : RunOutcome := mkOutcome None None false [] [] false false 0.

(** [fn keep]. *)
Definition keep (buffer : bytes) (truncated : bool) (data : bytes) (limit : nat) : bytes * bool :=
  let room := (limit - length buffer)%nat in
  (buffer ++ take room data, truncated || (room <? length data)%nat).

(** [ChannelMsg]: those the loop looks at. *)
Inductive ChannelMsg :=
| Data (data : bytes)
| ExtendedData (ext : Z) (data : bytes)
| ExitStatus (exit_status : Z)
| ExitSignal (name : bytes)
| Close
| OtherMsg.

(** [exit_status as i32], of a [u32]. *)
Definition as_i32 (n : Z) : Z := if n <? 2147483648 then n else n - 4294967296.

(** The loop: [events] are the messages still to come with their instants, a channel that
    ends after them gives [Ok(None)] if [closes], and stays silent otherwise.  The result
    is the outcome so far, whether the command exited, whether it was abandoned, and the
    instant. *)
Fixpoint run_loop (limit : nat) (closes : option Z) (events : list (Z * ChannelMsg)) (deadline : Z) (exited : bool)
    (o : RunOutcome) : RunOutcome * bool * Z :=
  match events with
  | [] =>
      match closes with
      | Some t => if t <=? deadline then (o, false, t) else (o, negb exited, deadline)
      | None => (o, negb exited, deadline)
      end
  | (t, msg) :: rest =>
      if deadline <? t then (o, negb exited, deadline)
      else match msg with
           | Close => (o, false, t)
           | Data data =>
               let '(buffer, cut) := keep o.(stdout) o.(stdout_truncated) data limit in
               run_loop limit closes rest deadline exited
                 (mkOutcome o.(exit_code) o.(signal) o.(timed_out) buffer o.(stderr) cut o.(stderr_truncated) o.(duration))
           | ExtendedData ext data =>
               if ext =? 1 then
                 let '(buffer, cut) := keep o.(stderr) o.(stderr_truncated) data limit in
                 run_loop limit closes rest deadline exited
                   (mkOutcome o.(exit_code) o.(signal) o.(timed_out) o.(stdout) buffer o.(stdout_truncated) cut o.(duration))
               else run_loop limit closes rest deadline exited o
           | ExitStatus s =>
               run_loop limit closes rest (t + DRAIN_AFTER_EXIT) true
                 (mkOutcome (Some (as_i32 s)) o.(signal) o.(timed_out) o.(stdout) o.(stderr) o.(stdout_truncated) o.(stderr_truncated) o.(duration))
           | ExitSignal name =>
               run_loop limit closes rest (t + DRAIN_AFTER_EXIT) true
                 (mkOutcome o.(exit_code) (Some name) o.(timed_out) o.(stdout) o.(stderr) o.(stdout_truncated) o.(stderr_truncated) o.(duration))
           | OtherMsg => run_loop limit closes rest deadline exited o
           end
  end.

(** The end of [fn run_over_within]. *)
Definition run_finish (timeout : Z) (started : Z) (r : RunOutcome * bool * Z) : RunOutcome :=
  let '(o, abandoned, now) := r in
  let d := now - started in
  let stopped_by_timeout :=
    (timeout <=? d) && (bool_decide (o.(exit_code) = Some 124) || bool_decide (o.(exit_code) = Some 137)
                        || bool_decide (o.(signal) = Some (B "KILL"))) in
  if abandoned || stopped_by_timeout
  then mkOutcome None None true o.(stdout) o.(stderr) o.(stdout_truncated) o.(stderr_truncated) d
  else mkOutcome o.(exit_code) o.(signal) o.(timed_out) o.(stdout) o.(stderr) o.(stdout_truncated) o.(stderr_truncated) d.

Definition run_over (r : RunRequest) (started : Z) (closes : option Z) (events : list (Z * ChannelMsg)) : RunOutcome :=
  let timeout := r.(timeout_secs) * 1000 in
  run_finish timeout started
    (run_loop (Z.to_nat r.(max_output)) closes events (started + timeout + KILL_GRACE_SECS * 1000 + SERVER_MARGIN) false empty_outcome).

(** ** What the output buffers hold *)

Lemma keep_spec buffer truncated data limit :
  (length buffer <= limit)%nat ->
  keep buffer truncated data limit =
  (take limit (buffer ++ data), truncated || (limit <? length (buffer ++ data))%nat).
Proof.
  intros H. unfold keep. rewrite take_app_ge by done. f_equal. f_equal. rewrite length_app.
  destruct (Nat.ltb_spec (limit - length buffer) (length data)), (Nat.ltb_spec limit (length buffer + length data)); lia || done.
Qed.

(** The data a stream received before the loop ended. *)
Fixpoint received (sel : ChannelMsg -> bytes) (events : list (Z * ChannelMsg)) (deadline : Z) : bytes :=
  match events with
  | [] => []
  | (t, msg) :: rest =>
      if deadline <? t then []
      else match msg with
           | Close => []
           | ExitStatus _ | ExitSignal _ => received sel rest (t + DRAIN_AFTER_EXIT)
           | _ => sel msg ++ received sel rest deadline
           end
  end.
Definition out_data (m : ChannelMsg) : bytes := match m with Data d => d | _ => [] end.
Definition err_data (m : ChannelMsg) : bytes := match m with ExtendedData 1 d => d | _ => [] end.

(** What a buffer shows of the bytes received so far. *)
Definition shows (limit : nat) (buffer : bytes) (cut : bool) (all : bytes) : Prop :=
  buffer = take limit all /\ cut = (limit <? length all)%nat.

Lemma shows_keep limit buffer cut all data :
  shows limit buffer cut all ->
  shows limit (keep buffer cut data limit).1 (keep buffer cut data limit).2 (all ++ data).
Proof.
  intros [-> ->]. rewrite keep_spec by (rewrite length_take; lia). cbn [fst snd]. split.
  - rewrite take_app, take_take, Nat.min_id. rewrite take_app. f_equal. rewrite length_take. f_equal. lia.
  - rewrite !length_app, length_take.
    destruct (Nat.ltb_spec limit (length all)), (Nat.ltb_spec limit (length all + length data)),
      (Nat.ltb_spec limit (limit `min` length all + length data)); cbn; lia || done.
Qed.

Lemma run_loop_output limit closes events deadline exited o aout aerr :
  shows limit o.(stdout) o.(stdout_truncated) aout -> shows limit o.(stderr) o.(stderr_truncated) aerr ->
  let o' := (run_loop limit closes events deadline exited o).1.1 in
  shows limit o'.(stdout) o'.(stdout_truncated) (aout ++ received out_data events deadline) /\
  shows limit o'.(stderr) o'.(stderr_truncated) (aerr ++ received err_data events deadline).
Proof.
  revert deadline exited o aout aerr. induction events as [|[t msg] events IH]; intros deadline exited o aout aerr Ho He; cbn [run_loop received].
  - rewrite !app_nil_r. repeat case_match; done.
  - destruct (deadline <? t); [by rewrite !app_nil_r|].
    destruct msg as [data|ext data|s|name| |]; cbn [out_data err_data app].
    + pose proof (shows_keep _ _ _ _ data Ho) as H. destruct (keep _ _ data limit) as [buffer cut].
      rewrite app_assoc. apply IH; done.
    + destruct (ext =? 1) eqn:E.
      * apply Z.eqb_eq in E as ->. pose proof (shows_keep _ _ _ _ data He) as H.
        destruct (keep _ _ data limit) as [buffer cut]. rewrite (app_assoc aerr). apply IH; done.
      * replace (match ext with 1 => data | _ => [] end) with (@nil Z) by (by destruct ext as [|[]|]). by apply IH.
    + apply IH; done.
    + apply IH; done.
    + by rewrite !app_nil_r.
    + by apply IH.
Qed.

(** ** When the answer comes *)

Definition is_exit (m : ChannelMsg) : bool := match m with ExitStatus _ | ExitSignal _ => true | _ => false end.
Definition exits (events : list (Z * ChannelMsg)) : Z := Z.of_nat (length (base.filter (fun e => is_exit e.2 = true) events)).

Lemma run_loop_instant limit closes events deadline exited o :
  (run_loop limit closes events deadline exited o).2 <= deadline + DRAIN_AFTER_EXIT * exits events.
Proof.
  revert deadline exited o. induction events as [|[t msg] events IH]; intros deadline exited o; cbn [run_loop].
  - unfold exits. cbn. repeat case_match; cbn; lia.
  - unfold exits in *. rewrite filter_cons. destruct (deadline <? t) eqn:Et.
    { cbn [snd]. unfold DRAIN_AFTER_EXIT. destruct (decide _); lia. }
    destruct msg as [data|ext data|s|name| |]; cbn [is_exit snd].
    + rewrite decide_False by done. destruct (keep _ _ _ _). apply IH.
    + rewrite decide_False by done. destruct (ext =? 1); [destruct (keep _ _ _ _)|]; apply IH.
    + rewrite decide_True by done. cbn [length]. specialize (IH (t + DRAIN_AFTER_EXIT) true). etransitivity; [apply IH|].
      unfold DRAIN_AFTER_EXIT. lia.
    + rewrite decide_True by done. cbn [length]. specialize (IH (t + DRAIN_AFTER_EXIT) true). etransitivity; [apply IH|].
      unfold DRAIN_AFTER_EXIT. lia.
    + rewrite decide_False by done. unfold DRAIN_AFTER_EXIT. lia.
    + rewrite decide_False by done. apply IH.
Qed.

(** A command that was not abandoned has its status: unless the channel was closed before
    any was sent. *)
Lemma run_loop_status limit closes events deadline exited o :
  exited = bool_decide (is_Some o.(exit_code) \/ is_Some o.(signal)) ->
  let '(o', abandoned, _) := run_loop limit closes events deadline exited o in
  abandoned = true -> o'.(exit_code) = None /\ o'.(signal) = None.
Proof.
  assert (Hnone : forall o : RunOutcome, negb (bool_decide (is_Some o.(exit_code) \/ is_Some o.(signal))) = true ->
            o.(exit_code) = None /\ o.(signal) = None).
  { intros x Hx. apply negb_true_iff, bool_decide_eq_false in Hx.
    destruct (exit_code x), (signal x); [exfalso; apply Hx; eauto..|done]. }
  revert deadline exited o. induction events as [|[t msg] events IH]; intros deadline exited o ->; cbn [run_loop].
  - repeat case_match; try done; intros; simplify_eq; auto.
  - destruct (deadline <? t); [by intros H; apply Hnone|].
    destruct msg as [data|ext data|s|name| |].
    + destruct (keep _ _ _ _). by apply IH.
    + destruct (ext =? 1); [destruct (keep _ _ _ _)|]; by apply IH.
    + apply IH. symmetry. apply bool_decide_eq_true. left. by eexists.
    + apply IH. symmetry. apply bool_decide_eq_true. right. by eexists.
    + done.
    + by apply IH.
Qed.

Lemma run_loop_timed_out limit closes events deadline exited o :
  (run_loop limit closes events deadline exited o).1.1.(timed_out) = o.(timed_out).
Proof.
  revert deadline exited o. induction events as [|[t msg] events IH]; intros deadline exited o; cbn [run_loop].
  - repeat case_match; done.
  - destruct (deadline <? t); [done|].
    destruct msg as [data|ext data|s|name| |]; [destruct (keep _ _ _ _)|destruct (ext =? 1); [destruct (keep _ _ _ _)|]|..]; try done; by rewrite IH.
Qed.

(** A channel closed before the status of the command was sent, as by a guest that stops:
    the answer has neither a code, nor a signal, nor a timeout. *)
Lemma closed_without_status r started t :
  started <= t <= started + r.(timeout_secs) * 1000 -> 0 <= r.(timeout_secs) ->
  let o := run_over r started None [(t, Close)] in
  o.(exit_code) = None /\ o.(signal) = None /\ o.(timed_out) = false.
Proof.
  intros Ht Hr. unfold run_over. cbn [run_loop].
  replace (_ <? t) with false by (unfold KILL_GRACE_SECS, SERVER_MARGIN; lia).
  cbn [run_finish empty_outcome exit_code signal]. rewrite !bool_decide_eq_false_2 by done.
  rewrite andb_false_r. done.
Qed.

(** ** The script is what was asked *)

Lemma is_env_name_plain name : is_env_name name = true -> name <> [] /\ forallb plain name = true.
Proof.
  assert (Hc : forall c, is_ascii_alphabetic c || is_ascii_digit c || (c =? 95) = true -> plain c = true).
  { intros c Hc. unfold is_ascii_alphabetic, is_ascii_digit in Hc. unfold plain, is_blank, is_op, is_special. cbn [existsb].
    repeat match goal with |- context [?a =? ?b] => replace (a =? b) with false by lia end. done. }
  destruct name as [|c r]; [done|]. cbn [is_env_name]. intros [H1 H2]%andb_true_iff. split; [done|].
  cbn [forallb]. apply andb_true_iff. split.
  - apply Hc. destruct (is_ascii_alphabetic c), (c =? 95); cbn in *; try done; by rewrite orb_true_r.
  - apply forallb_forall. intros x Hx. apply Hc. by apply (proj1 (forallb_forall _ r) H2).
Qed.

Definition cd_tokens (working_dir : option bytes) (default_dir : bytes) : list tok :=
  match working_dir with
  | Some dir => [Word (B "cd"); Word (B "--"); Word dir; Op 124; Op 124; Word (B "exit"); Word (B "126"); Newline]
  | None => [Word (B "cd"); Word (B "--"); Word default_dir; Word (B "2"); Op 62; Word (B "/dev/null"); Op 124; Op 124; Word (B "true"); Newline]
  end.
Definition export_tokens (kv : bytes * bytes) : list tok :=
  [Word (B "export"); Word (kv.1 ++ B "=" ++ kv.2); Newline].
Definition script_tokens (r : RunRequest) (default_dir : bytes) : list tok :=
  cd_tokens r.(working_dir) default_dir ++ (btree_iter r.(env_vars) ≫= export_tokens)
  ++ [Word (B "exec"); Word (B "timeout"); Word (B "-k"); Word (dec KILL_GRACE_SECS); Word (dec r.(timeout_secs));
      Word (B "sh"); Word (B "-c"); Word r.(command); Op 60; Word (B "/dev/null"); Newline].

(** A literal prefix is read by evaluation. *)
Ltac lex_literal :=
  match goal with
  | |- context [lex ?cur false (B ?l ++ ?rest)] =>
      let e := eval vm_compute in (B l) in
      change (B l) with e; cbn [app lex Z.eqb Pos.eqb is_blank is_op is_special existsb orb from_option Datatypes.id]
  end.

Lemma lex_cd working_dir default_dir rest ts :
  lex None false rest = Some ts ->
  lex None false (script_cd working_dir default_dir ++ rest) = Some (cd_tokens working_dir default_dir ++ ts).
Proof.
  intros H. unfold script_cd. destruct working_dir as [dir|]; rewrite <- !app_assoc.
  - lex_literal. rewrite lex_quote. lex_literal. rewrite H. done.
  - lex_literal. rewrite lex_quote. lex_literal. rewrite H. done.
Qed.

Lemma lex_export kv rest ts :
  is_env_name kv.1 = true -> lex None false rest = Some ts ->
  lex None false (script_export kv ++ rest) = Some (export_tokens kv ++ ts).
Proof.
  intros [Hne Hp]%is_env_name_plain H. unfold script_export. rewrite <- !app_assoc. lex_literal.
  rewrite lex_plain by done. cbn [from_option Datatypes.id app]. lex_literal. rewrite lex_quote. cbn [app lex Z.eqb Pos.eqb is_blank orb].
  rewrite H. cbn. by rewrite <- app_assoc.
Qed.

Lemma lex_exports env rest ts :
  Forall (fun kv => is_env_name kv.1 = true) env -> lex None false rest = Some ts ->
  lex None false ((env ≫= script_export) ++ rest) = Some ((env ≫= export_tokens) ++ ts).
Proof.
  intros Henv H. induction Henv as [|kv env Hkv _ IH]; [done|]. cbn [mbind list_bind].
  change (list_bind _ _ script_export env) with (env ≫= script_export).
  change (list_bind _ _ export_tokens env) with (env ≫= export_tokens).
  rewrite <- !app_assoc. by apply lex_export.
Qed.

Lemma lex_exec r :
  0 <= r.(timeout_secs) ->
  lex None false (B "exec timeout -k " ++ dec KILL_GRACE_SECS ++ B " " ++ dec r.(timeout_secs) ++ B " sh -c "
    ++ quote r.(command) ++ B " </dev/null" ++ [10]) =
  Some [Word (B "exec"); Word (B "timeout"); Word (B "-k"); Word (dec KILL_GRACE_SECS); Word (dec r.(timeout_secs));
        Word (B "sh"); Word (B "-c"); Word r.(command); Op 60; Word (B "/dev/null"); Newline].
Proof.
  intros Ht. lex_literal. rewrite lex_plain; [|apply dec_nonempty|apply dec_plain; unfold KILL_GRACE_SECS; lia].
  cbn [from_option Datatypes.id app]. lex_literal.
  rewrite lex_plain; [|apply dec_nonempty|by apply dec_plain]. cbn [from_option Datatypes.id app].
  lex_literal. rewrite lex_quote. lex_literal. done.
Qed.

Lemma check_env_names env : check_env env = Ok tt -> Forall (fun kv => is_env_name kv.1 = true) env.
Proof.
  induction env as [|[name value] env IH]; cbn; [constructor|].
  destruct (is_env_name name) eqn:E; cbn; [|done]. destruct (has_nul value); [done|]. intros H. constructor; auto.
Qed.

Lemma run_request_inv ceiling cmd dir env t m r :
  run_request_new ceiling cmd dir env t m = Ok r ->
  r = mkRun cmd dir env (Z.min (default DEFAULT_TIMEOUT_SECS t) ceiling)
        (Z.min (default DEFAULT_MAX_OUTPUT_BYTES m) MAX_OUTPUT_BYTES) /\
  default DEFAULT_TIMEOUT_SECS t <> 0 /\ Forall (fun kv => is_env_name kv.1 = true) (btree_iter env).
Proof.
  unfold run_request_new. destruct (is_empty (trim cmd)); [done|]. destruct (has_nul cmd); [done|].
  destruct (negb (dir_ok dir)); [done|]. destruct (check_env (btree_iter env)) as [[]|e|] eqn:E; cbn; [|done..].
  destruct (default DEFAULT_TIMEOUT_SECS t =? 0) eqn:Et; [done|]. intros [= <-]. split_and!; [done|lia|].
  by apply check_env_names.
Qed.

(** ** The claims *)

(** Whatever the command, the directory, the variables and their values, the script
    an accepted request makes is read by the shell as exactly its own lines: the [cd],
    one [export] per variable, and the [exec timeout] whose last argument is the command.
    No byte of the request becomes an operator, a second command or another word; the
    time it is given is positive, and at most the ceiling, the output kept at most 8 MiB. *)
Theorem run_script_is_request ceiling cmd dir env t m default_dir r :
  run_request_new ceiling cmd dir env t m = Ok r ->
  0 < ceiling -> (forall n, t = Some n -> 0 <= n) ->
  lex None false (script r default_dir) = Some (script_tokens r default_dir) /\
  r.(command) = cmd /\ r.(working_dir) = dir /\ r.(env_vars) = env /\
  0 < r.(timeout_secs) <= ceiling /\ r.(max_output) <= MAX_OUTPUT_BYTES.
Proof.
  intros H Hc Ht. apply run_request_inv in H as (-> & Hne & Henv).
  assert (0 <= default DEFAULT_TIMEOUT_SECS t) by (destruct t; cbn; [by apply Ht|done]).
  cbn [command working_dir env_vars timeout_secs max_output]. split_and!; [|done..|lia|lia|lia].
  unfold script, script_tokens. apply lex_cd. cbn [env_vars]. apply lex_exports; [done|]. apply lex_exec. cbn. lia.
Qed.

Definition toy_run : RunRequest := mkRun (B "echo 'a' > b; rm c") (Some (B "it's; here")) {[B "X" := B "$(id)"]} 60 (1024 * 1024).

Lemma run_script_witness :
  run_request_new 1200 toy_run.(command) toy_run.(working_dir) toy_run.(env_vars) None None = Ok toy_run /\
  lex None false (script toy_run []) = Some (script_tokens toy_run []).
Proof.
  assert (H : run_request_new 1200 toy_run.(command) toy_run.(working_dir) toy_run.(env_vars) None None = Ok toy_run) by (vm_compute; reflexivity).
  split; [exact H|].
  apply (run_script_is_request 1200 _ _ _ None None [] toy_run H); [lia|discriminate].
Defined.

(** The answer to a command: each stream is the first bytes the command wrote, up to
    the limit, in order, with the truncation flag set exactly when more came; a command
    stopped by its time has neither a code nor a signal; and the answer comes at the
    latest 15 s after the time allowed, and 0.3 s per status the guest sends. *)
Theorem run_over_spec r started closes events :
  let deadline := started + r.(timeout_secs) * 1000 + KILL_GRACE_SECS * 1000 + SERVER_MARGIN in
  let o := run_over r started closes events in
  let limit := Z.to_nat r.(max_output) in
  o.(stdout) = take limit (received out_data events deadline) /\
  o.(stdout_truncated) = (limit <? length (received out_data events deadline))%nat /\
  o.(stderr) = take limit (received err_data events deadline) /\
  o.(stderr_truncated) = (limit <? length (received err_data events deadline))%nat /\
  (o.(timed_out) = true -> o.(exit_code) = None /\ o.(signal) = None) /\
  o.(duration) <= r.(timeout_secs) * 1000 + 15000 + 300 * exits events.
Proof.
  intros deadline o limit.
  assert (Hnil : shows limit [] false []) by (split; [by rewrite take_nil|symmetry; by apply Nat.ltb_ge, Nat.le_0_l]).
  destruct (run_loop_output limit closes events deadline false empty_outcome [] [] Hnil Hnil) as [[Ho Hoc] [He Hec]].
  pose proof (run_loop_instant limit closes events deadline false empty_outcome) as Hi.
  pose proof (run_loop_timed_out limit closes events deadline false empty_outcome) as Htm.
  subst o. unfold run_over. fold deadline limit. destruct (run_loop _ _ _ _ _ _) as [[o ab] now].
  cbn [fst snd] in *. cbn [run_finish]. unfold DRAIN_AFTER_EXIT, KILL_GRACE_SECS, SERVER_MARGIN in *.
  destruct (ab || _); cbn [stdout stderr stdout_truncated stderr_truncated timed_out exit_code signal duration];
    (split_and!; [exact Ho|exact Hoc|exact He|exact Hec| |subst deadline; lia]); [done|]. rewrite Htm. intros H. discriminate H.
Qed.
