(* ===== verification/ExecStream.v ===== *)
(** * Background commands and their stream

    [crates/api-server/src/exec.rs]: the session of a command, its row in
    [exec_commands] under the row policy of the migrations, the loop that fills it from
    the SSH channel, and the event stream a client reads it with, from the start, at
    any time.  A poll of the stream reads a snapshot of the row. *)

From S2P Require Import Prelude RustStr Collections F64 Utf8 Json Crd Shell LlmBudget IdentityRules OpenBao Auth Routes Approvals Exec.

(** ** Sessions *)

(** The ports a Workshop's status gives. *)
Definition guest_ports (status_ports : option GuestPorts) : GuestPorts := default LEGACY status_ports.

(** [fn ssh_port]. *)
Definition ssh_port (env : string -> option bytes) (status_ports : option GuestPorts) : Z :=
  match env "ATELIER_SSH_PORT"%string ≫= parse_u16 with Some p => p | None => (guest_ports status_ports).(gp_ssh) end.

(** [trim_end_matches(".git")]: as many as there are. *)
Fixpoint strip_git (fuel : nat) (s : bytes) : bytes :=
  match fuel with
  | O => s
  | S f => if ends_with s (B ".git") then strip_git f (take (length s - 4) s) else s
  end.

(** [fn workspace_dir]. *)
Definition workspace_dir (repo : bytes) : bytes :=
  let trimmed := trim_end_matches (Z.eqb 47) repo in
  let name := match rsplit_once 47 trimmed with Some (_, name) => name | None => trimmed end in
  B "/workspaces/" ++ strip_git (length name) name.

Record SessionDefaults := mkDefaults { sd_dir : bytes; sd_env : btree; sd_user : option bytes }.

(** [SessionDefaults::for_repo] and [SessionDefaults::of]. *)
Definition for_repo (repo : bytes) : SessionDefaults := mkDefaults (workspace_dir repo) ∅ None.
Definition session_of (repo : bytes) (clone_workspace : bool) (session : option SessionConfig) : SessionDefaults :=
  let defaults := for_repo repo in
  match session with
  | None => defaults
  | Some session =>
      mkDefaults
        (if negb clone_workspace
         then match session.(workspace_folder) with Some folder => folder | None => defaults.(sd_dir) end
         else defaults.(sd_dir))
        (base.filter (fun kv => is_env_name kv.1 = true /\ has_nul kv.2 = false) session.(container_env))
        session.(remote_user)
  end.

(** [fn user_exports] and [fn script_prefix]. *)
Definition dq : bytes := [34].
Definition user_exports (d : SessionDefaults) : bytes :=
  match d.(sd_user) with
  | None => []
  | Some user =>
      let user := quote user in
      B "export USER=" ++ user ++ B " LOGNAME=" ++ user ++ B "; h=$(getent passwd " ++ user
      ++ B " 2>/dev/null | cut -d: -f6); if [ -n " ++ dq ++ B "$h" ++ dq ++ B " ]; then export HOME=" ++ dq ++ B "$h" ++ dq
      ++ B "; fi; unset h; "
  end.
Definition script_prefix (d : SessionDefaults) : bytes :=
  (btree_iter d.(sd_env) ≫= (fun kv => B "export " ++ kv.1 ++ B "=" ++ quote kv.2 ++ B "; ")) ++ user_exports d.

(** [fn in_workspace], [fn exec_ceiling_secs], [fn with_ceiling]. *)
Definition in_workspace (dir command : bytes) : bytes := B "cd " ++ dir ++ B " 2>/dev/null || true; " ++ command.
Definition exec_ceiling_secs (env : string -> option bytes) : Z := default 1200 (env_u64 env "ATELIER_EXEC_CEILING_SECS").
Definition with_ceiling (ceiling : Z) (command : bytes) : bytes :=
  B "exec timeout --kill-after=30s " ++ dec ceiling ++ B "s bash -c " ++ [39] ++ escape_quotes command ++ [39] ++ B " </dev/null".

(** ** The table *)

Inductive exec_status := ERunning | ECompleted | EFailed | ETimeout | EKilled.
#[global] Instance exec_status_eq_dec : EqDecision exec_status.
Proof. solve_decision. Defined.

Record ExecRow := mkExecRow {
  x_tenant : bytes; x_workshop_name : bytes; x_command : bytes; x_status : exec_status;
  x_exit_code : option Z; x_signal : option bytes; x_stdout : bytes; x_stderr : bytes }.
Abbreviation exec_table := (gmap bytes ExecRow).

(** The policy [exec_commands_tenant_isolation]. *)
Definition exec_policy (st : settings) (r : ExecRow) : bool := bool_decide (st.(current_tenant) = Some r.(x_tenant)).

(** The [INSERT] of [fn spawn], run on the pool, outside of any transaction that sets the
    tenant: with the settings of its connection. *)
Definition spawn_row (st : settings) (t : exec_table) (id tenant workshop_name command : bytes) : option exec_table :=
  let r := mkExecRow tenant workshop_name command ERunning None None [] [] in
  if exec_policy st r && bool_decide (t !! id = None) then Some (<[id := r]> t) else None.

(** The [UPDATE] of the row of a command, in a transaction of its tenant. *)
Definition exec_update (tenant id : bytes) (f : ExecRow -> ExecRow) (t : exec_table) : exec_table :=
  match t !! id with
  | Some r => if exec_policy (set_tenant no_settings tenant) r then <[id := f r]> t else t
  | None => t
  end.

Inductive OutputStream := Stdout | Stderr.

(** [fn append_chunk]; [db]: whether the transaction begins, sets its tenant, updates and
    commits.  A failure of any of these leaves the row as it was, and nobody is told. *)
Definition append_chunk (db : bool) (t : exec_table) (id tenant : bytes) (stream : OutputStream) (data : bytes) : exec_table :=
  if is_empty data then t
  else if negb db then t
  else exec_update tenant id (fun r => match stream with
    | Stdout => mkExecRow r.(x_tenant) r.(x_workshop_name) r.(x_command) r.(x_status) r.(x_exit_code) r.(x_signal) (r.(x_stdout) ++ data) r.(x_stderr)
    | Stderr => mkExecRow r.(x_tenant) r.(x_workshop_name) r.(x_command) r.(x_status) r.(x_exit_code) r.(x_signal) r.(x_stdout) (r.(x_stderr) ++ data)
    end) t.

(** [struct CommandEnd] and [fn status]. *)
Record CommandEnd := mkEnd { ce_exit_code : option Z; ce_signal : option bytes; ce_timed_out : bool }.
Definition default_end : CommandEnd := mkEnd None None false.
Definition end_status (e : CommandEnd) : exec_status :=
  if e.(ce_timed_out) then ETimeout
  else if bool_decide (is_Some e.(ce_signal)) then EKilled
  else if bool_decide (is_Some e.(ce_exit_code)) then ECompleted else EFailed.

(** [fn finalize]; [db] as for [append_chunk]: a failure leaves the row [Running]. *)
Definition finalize (db : bool) (t : exec_table) (id tenant : bytes) (status : exec_status) (e : CommandEnd) : exec_table :=
  if negb db then t
  else exec_update tenant id (fun r => mkExecRow r.(x_tenant) r.(x_workshop_name) r.(x_command) status e.(ce_exit_code) e.(ce_signal) r.(x_stdout) r.(x_stderr)) t.

(** The loop of [fn run_over_ssh]: the table, how the command ended and the instant; [db n]:
    whether the database takes what the [n]-th message has to write. *)
Fixpoint exec_loop (id tenant : bytes) (db : nat -> bool) (closes : option Z) (events : list (Z * ChannelMsg)) (deadline : Z)
    (t : exec_table) (e : CommandEnd) : exec_table * CommandEnd * Z :=
  match events with
  | [] => match closes with
          | Some at_ => (t, e, Z.min at_ deadline)
          | None => (t, e, deadline)
          end
  | (at_, msg) :: rest =>
      if deadline <? at_ then (t, e, deadline)
      else match msg with
           | Data data => exec_loop id tenant (fun n => db (S n)) closes rest deadline (append_chunk (db 0%nat) t id tenant Stdout data) e
           | ExtendedData ext data =>
               exec_loop id tenant (fun n => db (S n)) closes rest deadline
                 (if ext =? 1 then append_chunk (db 0%nat) t id tenant Stderr data else t) e
           | ExitStatus s =>
               exec_loop id tenant (fun n => db (S n)) closes rest (at_ + DRAIN_AFTER_EXIT) t (mkEnd (Some (as_i32 s)) e.(ce_signal) e.(ce_timed_out))
           | ExitSignal name =>
               exec_loop id tenant (fun n => db (S n)) closes rest (at_ + DRAIN_AFTER_EXIT) t (mkEnd e.(ce_exit_code) (Some name) e.(ce_timed_out))
           | Close => (t, e, at_)
           | OtherMsg => exec_loop id tenant (fun n => db (S n)) closes rest deadline t e
           end
  end.

(** [HARD_KILL_GRACE], in milliseconds. *)
Definition HARD_KILL_GRACE : Z := 35 * 1000.

(** [fn run_and_persist], with the channel open ([Some]) or the session failed ([None], with
    the error's text); [fin]: whether the database takes the end. *)
Definition run_and_persist (db : nat -> bool) (fin : bool) (ceiling : Z) (t : exec_table) (id tenant : bytes) (started : Z)
    (session : option (option Z * list (Z * ChannelMsg))) (error : bytes) : exec_table :=
  match session with
  | Some (closes, events) =>
      let '(t, e, now) := exec_loop id tenant db closes events (started + ceiling * 1000 + HARD_KILL_GRACE + SERVER_MARGIN) t default_end in
      let e := mkEnd e.(ce_exit_code) e.(ce_signal)
        ((ceiling * 1000 <=? now - started) && (bool_decide (e.(ce_exit_code) = Some 124) || bool_decide (e.(ce_exit_code) = Some 137)
          || bool_decide (e.(ce_signal) = Some (B "KILL")))) in
      finalize fin t id tenant (end_status e) e
  | None =>
      let t := append_chunk (db 0%nat) t id tenant Stderr ([10] ++ B "[atelier] execution echouee: " ++ error ++ [10]) in
      finalize fin t id tenant EFailed default_end
  end.

(** ** The stream *)

(** [fn fetch_row]; a failure of the database ([db] false) reads like no row. *)
Definition fetch_row (db : bool) (t : exec_table) (tenant workshop_name id : bytes) : option ExecRow :=
  if negb db then None
  else match t !! id with
  | Some r => if exec_policy (set_tenant no_settings tenant) r && beq r.(x_workshop_name) workshop_name then Some r else None
  | None => None
  end.

(** [fn unsent]. *)
Definition unsent (buffer : bytes) (sent : nat) (finished : bool) : bytes :=
  let rest := drop sent buffer in
  if finished then rest
  else match utf8_error rest with
       | None => rest
       | Some (valid_up_to, true) => take valid_up_to rest
       | Some (_, false) => rest
       end.

(** [fn stream_is_done]. *)
Definition stream_is_done (finished nothing_left_to_send : bool) : bool := finished && nothing_left_to_send.

(** An event, with the bytes it was made from: [event_text] is what the client reads. *)
Inductive sse :=
| SStdout (chunk : bytes)
| SStderr (chunk : bytes)
| SStatus (status : exec_status) (exit_code : option Z) (signal : option bytes)
| SPing
| SError.
Definition event_text (e : sse) : bytes :=
  match e with SStdout c | SStderr c => from_utf8_lossy c | SError => B "execution introuvable" | _ => [] end.

Record stream_state := mkStream { stdout_sent : nat; stderr_sent : nat; st_done : bool }.

(** The closure of [stream::unfold], for one poll. *)
Definition stream_step (row : option ExecRow) (s : stream_state) : option (sse * stream_state) :=
  if s.(st_done) then None
  else match row with
       | None => Some (SError, mkStream s.(stdout_sent) s.(stderr_sent) true)
       | Some row =>
           let finished := negb (bool_decide (row.(x_status) = ERunning)) in
           let stdout_new := unsent row.(x_stdout) s.(stdout_sent) finished in
           let stderr_new := unsent row.(x_stderr) s.(stderr_sent) finished in
           let nothing_left_to_send := is_empty stdout_new && is_empty stderr_new in
           let status_emitted := stream_is_done finished nothing_left_to_send in
           Some (if negb (is_empty stdout_new)
                 then (SStdout stdout_new, mkStream (s.(stdout_sent) + length stdout_new) s.(stderr_sent) status_emitted)
                 else if negb (is_empty stderr_new)
                 then (SStderr stderr_new, mkStream s.(stdout_sent) (s.(stderr_sent) + length stderr_new) status_emitted)
                 else if finished
                 then (SStatus row.(x_status) row.(x_exit_code) row.(x_signal), mkStream s.(stdout_sent) s.(stderr_sent) status_emitted)
                 else (SPing, mkStream s.(stdout_sent) s.(stderr_sent) status_emitted))
       end.

(** The stream over successive polls. *)
Fixpoint stream_run (rows : list (option ExecRow)) (s : stream_state) : list sse :=
  match rows with
  | [] => []
  | row :: rest => match stream_step row s with None => [] | Some (e, s) => e :: stream_run rest s end
  end.

(** [fn stream_handler]: who may read it. *)
Definition stream_handler {K} `{!KubeApi K} (k : K) (user : AuthenticatedUser) (name id : bytes)
    (polls : list (bool * exec_table)) : api (list sse) :=
  workshop ← owned k user name;
  AOk (stream_run ((fun p => fetch_row p.1 p.2 (workshop_tenant workshop) name id) <$> polls) (mkStream 0 0 false)).

(** ** What the stream shows *)

(** A snapshot of a row on its way to [f]: while the command runs its buffers are prefixes
    of the final ones, afterwards it is [f]. *)
Definition snapshot (f r : ExecRow) : Prop :=
  (r = f /\ f.(x_status) <> ERunning) \/
  (r.(x_status) = ERunning /\ (exists u, f.(x_stdout) = r.(x_stdout) ++ u) /\ (exists u, f.(x_stderr) = r.(x_stderr) ++ u)).

Definition out_chunk (e : sse) : bytes := match e with SStdout c => c | _ => [] end.
Definition err_chunk (e : sse) : bytes := match e with SStderr c => c | _ => [] end.
Definition outs (es : list sse) : bytes := es ≫= out_chunk.
Definition errs (es : list sse) : bytes := es ≫= err_chunk.
Definition is_final (e : sse) : bool := match e with SStatus _ _ _ | SError => true | _ => false end.

Lemma outs_cons e es : outs (e :: es) = out_chunk e ++ outs es.
Proof. done. Qed.
Lemma errs_cons e es : errs (e :: es) = err_chunk e ++ errs es.
Proof. done. Qed.

Lemma unsent_prefix buffer u sent :
  exists v, drop sent (buffer ++ u) = unsent buffer sent false ++ v.
Proof.
  rewrite drop_app. unfold unsent. destruct (utf8_error (drop sent buffer)) as [[k []]|]; [|eauto..].
  exists (drop k (drop sent buffer) ++ drop (sent - length buffer) u). by rewrite app_assoc, take_drop.
Qed.

Lemma drop_prefix {A} (l c v : list A) n : drop n l = c ++ v -> drop (n + length c) l = v.
Proof. intros H. rewrite <- drop_drop, H. by rewrite drop_app_length. Qed.

(** One poll of a snapshot: what it adds to the streams, and the state it leaves. *)
Lemma stream_step_snapshot f r s :
  snapshot f r -> st_done s = false ->
  exists e s', stream_step (Some r) s = Some (e, s') /\
    (exists v, drop s.(stdout_sent) f.(x_stdout) = out_chunk e ++ v /\ drop s'.(stdout_sent) f.(x_stdout) = v) /\
    (exists v, drop s.(stderr_sent) f.(x_stderr) = err_chunk e ++ v /\ drop s'.(stderr_sent) f.(x_stderr) = v) /\
    ((st_done s' = false /\ is_final e = false) \/
     (st_done s' = true /\ e = SStatus f.(x_status) f.(x_exit_code) f.(x_signal) /\
      drop s'.(stdout_sent) f.(x_stdout) = [] /\ drop s'.(stderr_sent) f.(x_stderr) = [])).
Proof.
  intros Hs Hd. unfold stream_step. rewrite Hd.
  assert (Hnew : forall sent, (exists v, drop sent f.(x_stdout) = unsent r.(x_stdout) sent (negb (bool_decide (r.(x_status) = ERunning))) ++ v) /\
                 (exists v, drop sent f.(x_stderr) = unsent r.(x_stderr) sent (negb (bool_decide (r.(x_status) = ERunning))) ++ v)).
  { intros sent. destruct Hs as [[-> Hne]|(Hr & [u ->] & [v ->])].
    - rewrite bool_decide_eq_false_2 by done. cbn. split; exists []; by rewrite app_nil_r.
    - rewrite bool_decide_eq_true_2 by done. cbn [negb]. split; apply unsent_prefix. }
  assert (Hfin : negb (bool_decide (r.(x_status) = ERunning)) = true -> r = f).
  { destruct Hs as [[-> _]|[-> _]]; [done|]. by rewrite bool_decide_eq_true_2. }
  destruct (Hnew s.(stdout_sent)) as [[vo Ho] _]. destruct (Hnew s.(stderr_sent)) as [_ [ve He]].
  set (fin := negb _) in *. set (so := unsent (x_stdout r) _ fin) in *. set (se := unsent (x_stderr r) _ fin) in *.
  destruct so as [|a so'] eqn:Eso; cbn [is_empty negb andb].
  2: { eexists _, _. split_and!; [reflexivity| | |].
       - exists vo. split; [done|]. cbn [stdout_sent]. by apply drop_prefix.
       - exists (drop s.(stderr_sent) f.(x_stderr)). done.
       - left. unfold stream_is_done. by rewrite andb_false_r. }
  destruct se as [|a se'] eqn:Ese; cbn [is_empty negb andb].
  2: { eexists _, _. split_and!; [reflexivity| | |].
       - exists (drop s.(stdout_sent) f.(x_stdout)). done.
       - exists ve. split; [done|]. cbn [stderr_sent]. by apply drop_prefix.
       - left. unfold stream_is_done. by rewrite andb_false_r. }
  destruct fin eqn:Ef.
  - specialize (Hfin eq_refl). subst r. unfold so, unsent in Eso. unfold se, unsent in Ese.
    eexists _, _. split_and!; [reflexivity| | |].
    + exists (drop s.(stdout_sent) f.(x_stdout)). done.
    + exists (drop s.(stderr_sent) f.(x_stderr)). done.
    + right. done.
  - eexists _, _. split_and!; [reflexivity| | |].
    + exists (drop s.(stdout_sent) f.(x_stdout)). done.
    + exists (drop s.(stderr_sent) f.(x_stderr)). done.
    + by left.
Qed.

Definition final_of (f : ExecRow) : sse := SStatus f.(x_status) f.(x_exit_code) f.(x_signal).

(** Nothing is sent twice and nothing out of order, however the polls fall. *)
Lemma stream_run_prefix f rows s :
  Forall (snapshot f) rows -> st_done s = false ->
  (exists v, drop s.(stdout_sent) f.(x_stdout) = outs (stream_run (Some <$> rows) s) ++ v) /\
  (exists v, drop s.(stderr_sent) f.(x_stderr) = errs (stream_run (Some <$> rows) s) ++ v).
Proof.
  intros Hr. revert s. induction Hr as [|r rows Hr Hrs IH]; intros s Hd; [by split; eexists|].
  cbn [fmap list_fmap stream_run].
  destruct (stream_step_snapshot f r s Hr Hd) as (e & s' & -> & (v1 & H1 & H1') & (v2 & H2 & H2') & Hdone).
  rewrite outs_cons, errs_cons. destruct Hdone as [[Hd' _]|(Hd' & _ & Ho & He)].
  - destruct (IH s' Hd') as [[w1 Hw1] [w2 Hw2]]. split.
    + exists w1. rewrite H1, <- H1', Hw1. by rewrite app_assoc.
    + exists w2. rewrite H2, <- H2', Hw2. by rewrite app_assoc.
  - assert (Hnil : stream_run (Some <$> rows) s' = []).
    { destruct rows as [|r' rows]; cbn; [done|]. unfold stream_step. by rewrite Hd'. }
    change (list_fmap _ _ Some rows) with (Some <$> rows). rewrite Hnil. cbn [outs errs mbind list_bind].
    rewrite !app_nil_r. by split; [exists v1|exists v2].
Qed.

(** A poll of the finished row. *)
Lemma stream_step_final f s :
  f.(x_status) <> ERunning -> st_done s = false ->
  let o := drop s.(stdout_sent) f.(x_stdout) in let e := drop s.(stderr_sent) f.(x_stderr) in
  stream_step (Some f) s =
  Some (if negb (is_empty o) then (SStdout o, mkStream (s.(stdout_sent) + length o) s.(stderr_sent) false)
        else if negb (is_empty e) then (SStderr e, mkStream s.(stdout_sent) (s.(stderr_sent) + length e) false)
        else (final_of f, mkStream s.(stdout_sent) s.(stderr_sent) true)).
Proof.
  intros Hf Hd. unfold stream_step. rewrite Hd, bool_decide_eq_false_2 by done. cbn [negb unsent].
  unfold unsent, stream_is_done. destruct (drop s.(stdout_sent) _); cbn; [|done]. by destruct (drop s.(stderr_sent) _).
Qed.

Lemma drop_drop_all {A} (l : list A) n : drop (n + length (drop n l)) l = [].
Proof. apply drop_ge. rewrite length_drop. lia. Qed.

Lemma stream_done rows s : st_done s = true -> stream_run rows s = [].
Proof. intros H. destruct rows; cbn; [done|]. unfold stream_step. by rewrite H. Qed.

Lemma stream_run_cons row rest s e s' : stream_step row s = Some (e, s') -> stream_run (row :: rest) s = e :: stream_run rest s'.
Proof. intros H. cbn [stream_run]. by rewrite H. Qed.

(** A poll of the finished row, by what is left to send. *)
Lemma stream_final_done f s rest :
  f.(x_status) <> ERunning -> st_done s = false -> drop s.(stdout_sent) f.(x_stdout) = [] -> drop s.(stderr_sent) f.(x_stderr) = [] ->
  stream_run (Some f :: rest) s = [final_of f].
Proof.
  intros Hf Hd Ho He. rewrite (stream_run_cons _ _ _ (final_of f) (mkStream s.(stdout_sent) s.(stderr_sent) true)).
  - by rewrite stream_done.
  - rewrite stream_step_final by done. by rewrite Ho, He.
Qed.

Lemma stream_final_err f s rest :
  f.(x_status) <> ERunning -> st_done s = false -> drop s.(stdout_sent) f.(x_stdout) = [] ->
  exists es : list sse, stream_run (Some f :: Some f :: rest) s = es ++ [final_of f] /\
    Forall (fun e => is_final e = false) es /\ outs es = [] /\ errs es = drop s.(stderr_sent) f.(x_stderr).
Proof.
  intros Hf Hd Ho. destruct (drop s.(stderr_sent) f.(x_stderr)) as [|b e] eqn:Ee.
  - exists []. rewrite stream_final_done by done. done.
  - exists [SStderr (b :: e)].
    rewrite (stream_run_cons _ _ _ (SStderr (b :: e)) (mkStream s.(stdout_sent) (s.(stderr_sent) + length (b :: e)) false)).
    + rewrite stream_final_done; [|done..|cbn [stderr_sent]; rewrite <- Ee; apply drop_drop_all].
      split_and!; [done|by repeat constructor|done|]. cbn. by rewrite app_nil_r.
    + rewrite stream_step_final by done. by rewrite Ho, Ee.
Qed.

(** Three polls of the finished row complete both streams and end with the status. *)
Lemma stream_finish f s rest :
  f.(x_status) <> ERunning -> st_done s = false ->
  exists es, stream_run (Some f :: Some f :: Some f :: rest) s = es ++ [final_of f] /\
    Forall (fun e => is_final e = false) es /\
    outs es = drop s.(stdout_sent) f.(x_stdout) /\ errs es = drop s.(stderr_sent) f.(x_stderr).
Proof.
  intros Hf Hd. destruct (drop s.(stdout_sent) f.(x_stdout)) as [|a o] eqn:Eo; [by apply stream_final_err|].
  set (s' := mkStream (s.(stdout_sent) + length (a :: o)) s.(stderr_sent) false).
  rewrite (stream_run_cons _ _ s (SStdout (a :: o)) s').
  - destruct (stream_final_err f s' rest Hf eq_refl) as (es & -> & Hall & Ho & He).
    { cbn [stdout_sent s']. rewrite <- Eo. apply drop_drop_all. }
    exists (SStdout (a :: o) :: es). split_and!; [done|by constructor| |by rewrite errs_cons].
    rewrite outs_cons, Ho. apply app_nil_r.
  - rewrite stream_step_final by done. by rewrite Eo.
Qed.

Lemma stream_complete f rows s rest :
  f.(x_status) <> ERunning -> Forall (snapshot f) rows -> st_done s = false ->
  exists es, stream_run ((Some <$> rows) ++ Some f :: Some f :: Some f :: rest) s = es ++ [final_of f] /\
    Forall (fun e => is_final e = false) es /\
    outs es = drop s.(stdout_sent) f.(x_stdout) /\ errs es = drop s.(stderr_sent) f.(x_stderr).
Proof.
  intros Hf Hr. revert s. induction Hr as [|r rows Hr Hrs IH]; intros s Hd; [by apply stream_finish|].
  cbn [fmap list_fmap app stream_run].
  destruct (stream_step_snapshot f r s Hr Hd) as (e & s' & -> & (v1 & H1 & H1') & (v2 & H2 & H2') & Hdone).
  destruct Hdone as [[Hd' He]|(Hd' & -> & Ho & He)].
  - destruct (IH s' Hd') as (es & Hes & Hall & Hoe & Hee). exists (e :: es).
    change (list_fmap _ _ Some rows) with (Some <$> rows). rewrite Hes. split_and!; [done|by constructor| |].
    + rewrite outs_cons, Hoe, H1', H1. done.
    + rewrite errs_cons, Hee, H2', H2. done.
  - exists []. rewrite stream_done by done. split_and!; [done|constructor| |]; cbn [outs errs mbind list_bind].
    + by rewrite H1, <- H1', Ho.
    + by rewrite H2, <- H2', He.
Qed.

(** ** Characters are not cut *)

Lemma unsent_valid f_buf buffer u sent fin :
  f_buf = buffer ++ u -> (fin = true -> u = []) ->
  utf8_valid f_buf = true -> utf8_valid (take sent f_buf) = true -> (sent <= length f_buf)%nat ->
  utf8_valid (unsent buffer sent fin) = true /\
  utf8_valid (take (sent + length (unsent buffer sent fin)) f_buf) = true /\
  (sent + length (unsent buffer sent fin) <= length f_buf)%nat.
Proof.
  intros Hu Hfin Hv Ht Hle. assert (Hd : utf8_valid (drop sent f_buf) = true).
  { rewrite <- (take_drop sent f_buf) in Hv. by rewrite utf8_valid_app in Hv. }
  assert (Hc : exists v, drop sent f_buf = unsent buffer sent fin ++ v /\ utf8_valid (unsent buffer sent fin) = true).
  { destruct fin; cbn [unsent].
    - rewrite (Hfin eq_refl), app_nil_r in Hu. subst buffer. exists []. by rewrite app_nil_r.
    - destruct (unsent_prefix buffer u sent) as [v Hv']. rewrite <- Hu in Hv'. exists v. split; [done|].
      unfold unsent. subst f_buf. rewrite drop_app in Hd. apply utf8_prefix_error in Hd.
      destruct (utf8_error (drop sent buffer)) as [[k cut]|]; [destruct Hd as (-> & _ & ?); done|done]. }
  destruct Hc as (v & Hv' & Hc). split; [done|].
  assert (Htake : take (sent + length (unsent buffer sent fin)) f_buf = take sent f_buf ++ unsent buffer sent fin).
  { rewrite <- (take_drop sent f_buf) at 1. rewrite Hv', app_assoc. rewrite take_app_le by (rewrite length_app, length_take; lia).
    apply take_ge. rewrite length_app, length_take. lia. }
  split; [by rewrite Htake, utf8_valid_app|].
  apply (f_equal length) in Hv'. rewrite length_drop, length_app in Hv'. lia.
Qed.

Lemma stream_step_valid f r s e s' :
  snapshot f r -> utf8_valid f.(x_stdout) = true -> utf8_valid f.(x_stderr) = true ->
  stream_step (Some r) s = Some (e, s') ->
  utf8_valid (take s.(stdout_sent) f.(x_stdout)) = true /\ (s.(stdout_sent) <= length f.(x_stdout))%nat ->
  utf8_valid (take s.(stderr_sent) f.(x_stderr)) = true /\ (s.(stderr_sent) <= length f.(x_stderr))%nat ->
  utf8_valid (out_chunk e) = true /\ utf8_valid (err_chunk e) = true /\
  (utf8_valid (take s'.(stdout_sent) f.(x_stdout)) = true /\ (s'.(stdout_sent) <= length f.(x_stdout))%nat) /\
  (utf8_valid (take s'.(stderr_sent) f.(x_stderr)) = true /\ (s'.(stderr_sent) <= length f.(x_stderr))%nat).
Proof.
  intros Hs Ho He Hstep [Hto Hlo] [Hte Hle].
  set (fin := negb (bool_decide (r.(x_status) = ERunning))).
  assert (Hu : exists u v, f.(x_stdout) = r.(x_stdout) ++ u /\ f.(x_stderr) = r.(x_stderr) ++ v /\
            (fin = true -> u = [] /\ v = [])).
  { destruct Hs as [[-> _]|(Hr & [u Hu] & [v Hv])].
    - exists [], []. by rewrite !app_nil_r.
    - exists u, v. split_and!; [done..|]. subst fin. by rewrite bool_decide_eq_true_2. }
  destruct Hu as (u & v & Hu & Hv & Hfin).
  destruct (unsent_valid _ _ _ _ fin Hu (fun H => proj1 (Hfin H)) Ho Hto Hlo) as (Ho1 & Ho2 & Ho3).
  destruct (unsent_valid _ _ _ _ fin Hv (fun H => proj2 (Hfin H)) He Hte Hle) as (He1 & He2 & He3).
  unfold stream_step in Hstep. destruct (st_done s); [done|]. fold fin in Hstep.
  destruct (is_empty (unsent (x_stdout r) _ fin)); cbn [negb] in Hstep; [|by injection Hstep as <- <-].
  destruct (is_empty (unsent (x_stderr r) _ fin)); cbn [negb] in Hstep; [|by injection Hstep as <- <-].
  destruct fin; by injection Hstep as <- <-.
Qed.

Lemma stream_run_valid f rows s :
  Forall (snapshot f) rows -> utf8_valid f.(x_stdout) = true -> utf8_valid f.(x_stderr) = true ->
  utf8_valid (take s.(stdout_sent) f.(x_stdout)) = true /\ (s.(stdout_sent) <= length f.(x_stdout))%nat ->
  utf8_valid (take s.(stderr_sent) f.(x_stderr)) = true /\ (s.(stderr_sent) <= length f.(x_stderr))%nat ->
  Forall (fun e => utf8_valid (out_chunk e) = true /\ utf8_valid (err_chunk e) = true) (stream_run (Some <$> rows) s).
Proof.
  intros Hr Ho He. revert s. induction Hr as [|r rows Hr Hrs IH]; intros s Hso Hse; [constructor|].
  cbn [fmap list_fmap stream_run]. change (list_fmap _ _ Some rows) with (Some <$> rows).
  destruct (stream_step (Some r) s) as [[e s']|] eqn:E; [|constructor].
  destruct (stream_step_valid _ _ _ _ _ Hr Ho He E Hso Hse) as (H1 & H2 & H3 & H4). constructor; auto.
Qed.

(** The texts of the two streams, as the client concatenates them. *)
Definition out_text (e : sse) : bytes := match e with SStdout _ => event_text e | _ => [] end.
Definition err_text (e : sse) : bytes := match e with SStderr _ => event_text e | _ => [] end.

Lemma texts_valid es :
  Forall (fun e => utf8_valid (out_chunk e) = true /\ utf8_valid (err_chunk e) = true) es ->
  es ≫= out_text = outs es /\ es ≫= err_text = errs es.
Proof.
  intros H. unfold outs, errs. induction H as [|e es [H1 H2] _ [IH1 IH2]]; [done|]. rewrite !bind_cons, IH1, IH2.
  split; f_equal; destruct e; cbn in *; try done; by apply from_utf8_lossy_valid.
Qed.

(** ** What the table holds *)

Definition with_output (r : ExecRow) (o e : bytes) : ExecRow :=
  mkExecRow r.(x_tenant) r.(x_workshop_name) r.(x_command) r.(x_status) r.(x_exit_code) r.(x_signal) (r.(x_stdout) ++ o) (r.(x_stderr) ++ e).

Lemma with_output_nil r : with_output r [] [] = r.
Proof. destruct r. unfold with_output. cbn. by rewrite !app_nil_r. Qed.

Lemma with_output_app r o e o' e' : with_output (with_output r o e) o' e' = with_output r (o ++ o') (e ++ e').
Proof. unfold with_output. cbn. by rewrite !app_assoc. Qed.

Lemma exec_update_own tenant id f t r : t !! id = Some r -> r.(x_tenant) = tenant -> exec_update tenant id f t = <[id := f r]> t.
Proof. intros H Ht. unfold exec_update, exec_policy. rewrite H, bool_decide_eq_true_2; [done|]. cbn. by rewrite Ht. Qed.

(** The messages whose data the database took: the others leave nothing. *)
Fixpoint written (db : nat -> bool) (events : list (Z * ChannelMsg)) : list (Z * ChannelMsg) :=
  match events with
  | [] => []
  | (at_, msg) :: rest =>
      (at_, if db 0%nat then msg else match msg with Data _ | ExtendedData _ _ => OtherMsg | m => m end)
      :: written (fun n => db (S n)) rest
  end.

Lemma written_all db events : (forall n, db n = true) -> written db events = events.
Proof.
  revert db. induction events as [|[at_ msg] events IH]; intros db H; [done|]. cbn [written]. rewrite H. by rewrite IH.
Qed.

Lemma written_take db events n : written db (take n events) = take n (written db events).
Proof.
  revert db n. induction events as [|[at_ msg] events IH]; intros db [|n]; try done. cbn [take written]. by rewrite IH.
Qed.

Lemma append_chunk_own db t id tenant stream data r :
  t !! id = Some r -> r.(x_tenant) = tenant ->
  append_chunk db t id tenant stream data =
  <[id := match stream, db with
          | Stdout, true => with_output r data [] | Stderr, true => with_output r [] data | _, false => r end]> t.
Proof.
  intros H Ht. unfold append_chunk. destruct data as [|c data]; cbn [is_empty].
  - symmetry. apply insert_id. rewrite H. destruct stream, db; by rewrite ?with_output_nil.
  - destruct db; cbn [negb]; [|symmetry; apply insert_id; by destruct stream].
    rewrite (exec_update_own _ _ _ _ r) by done. unfold with_output. destruct stream; by rewrite app_nil_r.
Qed.

Lemma exec_loop_row id tenant db closes events deadline t e r :
  t !! id = Some r -> r.(x_tenant) = tenant ->
  (exec_loop id tenant db closes events deadline t e).1.1 =
  <[id := with_output r (received out_data (written db events) deadline) (received err_data (written db events) deadline)]> t.
Proof.
  revert db deadline t e r. induction events as [|[at_ msg] events IH]; intros db deadline t e r H Ht; cbn [exec_loop written received].
  - rewrite with_output_nil, insert_id by done. by destruct closes.
  - destruct (deadline <? at_); [by rewrite with_output_nil, insert_id|].
    destruct msg as [data|ext data|s|name| |].
    + rewrite (append_chunk_own _ _ _ _ _ _ r) by done. destruct (db 0%nat); cbn [out_data err_data app].
      * rewrite (IH _ _ _ _ (with_output r data [])); [|by rewrite lookup_insert_eq|done]. by rewrite with_output_app, insert_insert_eq.
      * rewrite insert_id by done. by apply IH.
    + destruct (ext =? 1) eqn:E.
      * apply Z.eqb_eq in E as ->. rewrite (append_chunk_own _ _ _ _ _ _ r) by done. destruct (db 0%nat); cbn [out_data err_data app].
        -- rewrite (IH _ _ _ _ (with_output r [] data)); [|by rewrite lookup_insert_eq|done]. by rewrite with_output_app, insert_insert_eq.
        -- rewrite insert_id by done. by apply IH.
      * rewrite (IH _ _ _ _ r) by done. destruct (db 0%nat); cbn [out_data err_data app]; [|done].
        by replace (match ext with 1 => data | _ => [] end) with (@nil Z) by (by destruct ext as [|[]|]).
    + destruct (db 0%nat); by apply IH.
    + destruct (db 0%nat); by apply IH.
    + destruct (db 0%nat); by rewrite with_output_nil, insert_id.
    + destruct (db 0%nat); by apply IH.
Qed.

Lemma received_prefix sel e1 e2 deadline : exists v, received sel (e1 ++ e2) deadline = received sel e1 deadline ++ v.
Proof.
  revert deadline. induction e1 as [|[at_ msg] e1 IH]; intros deadline; [by eexists|]. cbn [app received].
  destruct (deadline <? at_); [by exists []|].
  destruct msg; try (destruct (IH deadline) as [v ->]; exists v; by rewrite app_assoc); try apply IH. by exists [].
Qed.

Lemma end_status_ended e : end_status e <> ERunning.
Proof. unfold end_status. by repeat case_match. Qed.

(** ** The claims *)

Definition exec_deadline (ceiling started : Z) : Z := started + ceiling * 1000 + HARD_KILL_GRACE + SERVER_MARGIN.

(** The row of a command that was run. *)
Lemma run_and_persist_row db fin ceiling t id tenant started closes events error r :
  t !! id = Some r -> r.(x_tenant) = tenant ->
  let d := exec_deadline ceiling started in
  let o := r.(x_stdout) ++ received out_data (written db events) d in
  let er := r.(x_stderr) ++ received err_data (written db events) d in
  exists e, end_status e <> ERunning /\
    run_and_persist db fin ceiling t id tenant started (Some (closes, events)) error =
    <[id := if fin then mkExecRow r.(x_tenant) r.(x_workshop_name) r.(x_command) (end_status e) e.(ce_exit_code) e.(ce_signal) o er
            else mkExecRow r.(x_tenant) r.(x_workshop_name) r.(x_command) r.(x_status) r.(x_exit_code) r.(x_signal) o er]> t.
Proof.
  intros H Ht d o er. unfold run_and_persist. fold (exec_deadline ceiling started). fold d.
  pose proof (exec_loop_row id tenant db closes events d t default_end r H Ht) as Hl.
  destruct (exec_loop _ _ _ _ _ _ _ _) as [[t' e] now]. cbn [fst] in Hl. subst t'.
  eexists. split; [apply end_status_ended|]. unfold finalize. destruct fin; cbn [negb]; [|done].
  rewrite (exec_update_own _ _ _ _ (with_output r (received out_data (written db events) d) (received err_data (written db events) d)));
    [|by rewrite lookup_insert_eq|done]. by rewrite insert_insert_eq.
Qed.

(** The tables a client may poll while the command runs: after any number of messages. *)
Definition polled (db : nat -> bool) (ceiling : Z) (t : exec_table) (id tenant : bytes) (started : Z) (closes : option Z)
    (events : list (Z * ChannelMsg)) (n : nat) : exec_table :=
  (exec_loop id tenant db closes (take n events) (exec_deadline ceiling started) t default_end).1.1.

Lemma polled_row db ceiling t id tenant started closes events r n :
  t !! id = Some r -> r.(x_tenant) = tenant ->
  let d := exec_deadline ceiling started in
  fetch_row true (polled db ceiling t id tenant started closes events n) tenant r.(x_workshop_name) id =
  Some (with_output r (received out_data (take n (written db events)) d) (received err_data (take n (written db events)) d)).
Proof.
  intros H Ht d. unfold polled. rewrite (exec_loop_row _ _ _ _ _ _ _ _ r) by done. rewrite written_take.
  unfold fetch_row. cbn [negb]. rewrite lookup_insert_eq. unfold exec_policy, beq.
  rewrite bool_decide_eq_true_2 by (cbn; by rewrite Ht). by rewrite bool_decide_eq_true_2.
Qed.

Lemma polled_snapshot db ceiling t id tenant started closes events error r n f :
  t !! id = Some r -> r.(x_tenant) = tenant -> r.(x_status) = ERunning ->
  run_and_persist db true ceiling t id tenant started (Some (closes, events)) error !! id = Some f ->
  exists p, fetch_row true (polled db ceiling t id tenant started closes events n) tenant r.(x_workshop_name) id = Some p /\ snapshot f p.
Proof.
  intros H Ht Hr Hf. destruct (run_and_persist_row db true ceiling t id tenant started closes events error r H Ht) as (e & _ & Hrow).
  rewrite Hrow, lookup_insert_eq in Hf. injection Hf as <-. rewrite polled_row by done.
  eexists. split; [reflexivity|]. right. split; [done|]. cbn [x_stdout x_stderr with_output]. set (d := exec_deadline ceiling started).
  destruct (received_prefix out_data (take n (written db events)) (drop n (written db events)) d) as [v1 E1].
  destruct (received_prefix err_data (take n (written db events)) (drop n (written db events)) d) as [v2 E2].
  rewrite take_drop in E1, E2. rewrite E1, E2. split; [exists v1|exists v2]; by rewrite app_assoc.
Qed.

Lemma fetch_snapshots db ceiling t id tenant started closes events error r ns f :
  t !! id = Some r -> r.(x_tenant) = tenant -> r.(x_status) = ERunning ->
  run_and_persist db true ceiling t id tenant started (Some (closes, events)) error !! id = Some f ->
  exists rows, ((fun t => fetch_row true t tenant r.(x_workshop_name) id) <$> (polled db ceiling t id tenant started closes events <$> ns))
    = Some <$> rows /\ Forall (snapshot f) rows.
Proof.
  intros H Ht Hr Hf. induction ns as [|n ns (rows & IH & Hs)]; [by exists []|].
  destruct (polled_snapshot db ceiling t id tenant started closes events error r n f H Ht Hr Hf) as (p & Hp & Hps).
  exists (p :: rows). rewrite !fmap_cons, IH, Hp. split; [done|by constructor].
Qed.

(** C16: The stream of a background command, read from the start by a client that polls
    at any instants while the command runs and at least three times once it has ended, the
    database answering these polls and taking the end of the command: it delivers every byte
    the database took, once and in order, on each of the two streams, then the status of the
    command, and nothing after it.  These are all the bytes received from the guest until
    the loop ends (the channel closes, the deadline, or 300 ms after the exit status), but
    for the messages whose writing failed.  If they are UTF-8, the texts of the events are
    exactly them: no character is cut by a poll; otherwise what is no UTF-8 is replaced. *)
Theorem exec_stream_exact db ceiling t id tenant started closes events error r (ns : list nat) (k : nat) :
  t !! id = Some r -> r.(x_tenant) = tenant -> r.(x_status) = ERunning -> r.(x_stdout) = [] -> r.(x_stderr) = [] ->
  let d := exec_deadline ceiling started in
  let out := received out_data (written db events) d in
  let err := received err_data (written db events) d in
  let t' := run_and_persist db true ceiling t id tenant started (Some (closes, events)) error in
  let tables := (polled db ceiling t id tenant started closes events <$> ns) ++ replicate (3 + k) t' in
  exists f es, t' !! id = Some f /\ f.(x_status) <> ERunning /\
    stream_run ((fun t => fetch_row true t tenant r.(x_workshop_name) id) <$> tables) (mkStream 0 0 false) = es ++ [final_of f] /\
    Forall (fun e => is_final e = false) es /\ outs es = out /\ errs es = err /\
    (utf8_valid out = true -> utf8_valid err = true -> es ≫= out_text = out /\ es ≫= err_text = err) /\
    ((forall n, db n = true) -> out = received out_data events d /\ err = received err_data events d).
Proof.
  intros H Ht Hr Ho He d out err t' tables.
  destruct (run_and_persist_row db true ceiling t id tenant started closes events error r H Ht) as (e & Hend & Hrow).
  fold t' in Hrow. fold d in Hrow. rewrite Ho, He in Hrow. cbn [app] in Hrow.
  set (f := mkExecRow _ _ _ _ _ _ _ _) in Hrow. assert (Hf : t' !! id = Some f) by (by rewrite Hrow, lookup_insert_eq).
  assert (Hfetch : fetch_row true t' tenant r.(x_workshop_name) id = Some f).
  { unfold fetch_row, exec_policy, beq. cbn [negb]. rewrite Hf. cbn [f x_tenant x_workshop_name].
    rewrite bool_decide_eq_true_2 by (cbn; by rewrite Ht). by rewrite bool_decide_eq_true_2. }
  destruct (fetch_snapshots db ceiling t id tenant started closes events error r ns f H Ht Hr Hf) as (rows & Hrows & Hsnap).
  assert (Hall : ((fun t => fetch_row true t tenant r.(x_workshop_name) id) <$> tables) = Some <$> (rows ++ replicate (3 + k) f)).
  { subst tables. rewrite !fmap_app, Hrows, !fmap_replicate. by rewrite Hfetch. }
  rewrite Hall. destruct (stream_complete f rows (mkStream 0 0 false) (replicate k (Some f))) as (es & Hes & Hfin & Hout & Herr); [done..|].
  assert (Hrun : stream_run (Some <$> (rows ++ replicate (3 + k) f)) (mkStream 0 0 false) = es ++ [final_of f])
    by (by rewrite fmap_app, fmap_replicate).
  exists f, es. rewrite drop_0 in Hout, Herr. cbn [x_stdout x_stderr f] in Hout, Herr. fold out in Hout. fold err in Herr.
  split_and!; [done..| |intros Hall'; unfold out, err; by rewrite written_all].
  intros Hvo Hve. rewrite <- Hout, <- Herr.
  assert (Hs : Forall (snapshot f) (rows ++ replicate (3 + k) f)).
  { apply Forall_app. split; [done|]. apply Forall_replicate. by left. }
  pose proof (stream_run_valid f _ (mkStream 0 0 false) Hs Hvo Hve) as Hv. rewrite Hrun in Hv. apply texts_valid.
  destruct (proj1 (Forall_app _ _ _) (Hv (conj eq_refl (Nat.le_0_l _)) (conj eq_refl (Nat.le_0_l _)))) as [Hes' _]. exact Hes'.
Qed.

(** The end of a command the database did not take: the row stays [Running] for ever, so
    that a poll, however late, never gives a status; and a poll the database refuses ends
    the stream with the answer of an execution that does not exist. *)
Lemma end_not_taken db ceiling t id tenant started closes events error r s :
  t !! id = Some r -> r.(x_tenant) = tenant -> r.(x_status) = ERunning -> st_done s = false ->
  let t' := run_and_persist db false ceiling t id tenant started (Some (closes, events)) error in
  (exists e s', stream_step (fetch_row true t' tenant r.(x_workshop_name) id) s = Some (e, s') /\ is_final e = false /\ st_done s' = false) /\
  stream_step (fetch_row false t' tenant r.(x_workshop_name) id) s =
    Some (SError, mkStream s.(stdout_sent) s.(stderr_sent) true).
Proof.
  intros H Ht Hr Hd t'.
  destruct (run_and_persist_row db false ceiling t id tenant started closes events error r H Ht) as (e & _ & Hrow).
  fold t' in Hrow. split; [|unfold stream_step; by rewrite Hd].
  unfold fetch_row, exec_policy, beq. cbn [negb]. rewrite Hrow, lookup_insert_eq.
  rewrite bool_decide_eq_true_2 by (cbn; by rewrite Ht). rewrite bool_decide_eq_true_2 by done. cbn [andb].
  unfold stream_step. rewrite Hd. cbn [x_status]. rewrite bool_decide_eq_true_2 by done. cbn [negb].
  unfold stream_is_done. cbn [andb]. repeat case_match; eauto.
Qed.

Definition toy_row : ExecRow := mkExecRow (B "g") (B "w") (B "ls") ERunning None None [] [].
Definition toy_events : list (Z * ChannelMsg) :=
  [(1, Data [195]); (2, ExtendedData 1 (B "x")); (3, Data [169]); (4, ExitStatus 0); (5, Close)].
Definition db_up (n : nat) : bool := true.

Lemma exec_stream_witness :
  let t := {[B "1" := toy_row]} : exec_table in
  let t' := run_and_persist db_up true 1200 t (B "1") (B "g") 0 (Some (None, toy_events)) [] in
  exists f es, t' !! B "1" = Some f /\
    stream_run ((fun t => fetch_row true t (B "g") (B "w") (B "1")) <$>
      ((polled db_up 1200 t (B "1") (B "g") 0 None toy_events <$> [1; 2; 3]%nat) ++ replicate 3 t')) (mkStream 0 0 false) = es ++ [final_of f] /\
    es ≫= out_text = [195; 169].
Proof.
  intros t t'.
  destruct (exec_stream_exact db_up 1200 t (B "1") (B "g") 0 None toy_events [] toy_row [1; 2; 3]%nat 0
    ltac:(vm_compute; reflexivity) eq_refl eq_refl eq_refl eq_refl) as (f & es & Hf & _ & Hrun & _ & _ & _ & Htext & _).
  exists f, es. split; [exact Hf|]. split; [exact Hrun|].
  destruct (Htext ltac:(vm_compute; reflexivity) ltac:(vm_compute; reflexivity)) as [H _]. rewrite H. vm_compute. reflexivity.
Defined.

(** A row is read by the group and the Workshop it was made for only. *)
Lemma fetch_row_own db t tenant name id r :
  fetch_row db t tenant name id = Some r -> r.(x_tenant) = tenant /\ r.(x_workshop_name) = name.
Proof.
  unfold fetch_row. destruct db; cbn [negb]; [|done]. destruct (t !! id) as [r'|]; [|done].
  destruct (exec_policy _ r' && beq (x_workshop_name r') name) eqn:E; [|done]. intros [= ->].
  unfold exec_policy, beq in E. apply andb_true_iff in E as [E1%bool_decide_eq_true E2%bool_decide_eq_true].
  cbn in E1. by simplify_eq.
Qed.

(** The row of a background command is written on a connection that has not been given
    a tenant: the policy of the table refuses it, whatever the command, and no command
    can be launched under a role the policies apply to; in a transaction of its tenant,
    as every other statement of the module, it would be accepted. *)
Theorem spawn_refused t id tenant name command :
  spawn_row no_settings t id tenant name command = None /\
  (t !! id = None -> spawn_row (set_tenant no_settings tenant) t id tenant name command =
     Some (<[id := mkExecRow tenant name command ERunning None None [] []]> t)).
Proof.
  unfold spawn_row, exec_policy. cbn [x_tenant]. split.
  - by rewrite bool_decide_eq_false_2.
  - intros H. by rewrite !bool_decide_eq_true_2.
Qed.

(** The command under its ceiling is one argument of [bash -c], and the directory of the
    session is not quoted: with a blank in it, [cd] is given two arguments. *)
Lemma with_ceiling_lexes ceiling command :
  0 <= ceiling ->
  lex None false (with_ceiling ceiling command) =
  Some [Word (B "exec"); Word (B "timeout"); Word (B "--kill-after=30s"); Word (dec ceiling ++ B "s"); Word (B "bash"); Word (B "-c");
        Word command; Op 60; Word (B "/dev/null")].
Proof.
  intros H. unfold with_ceiling. lex_literal. rewrite lex_plain; [|apply dec_nonempty|by apply dec_plain].
  cbn [from_option Datatypes.id app]. change ([39] ++ escape_quotes command ++ [39] ++ B " </dev/null") with
    ([39] ++ escape_quotes command ++ 39 :: B " </dev/null").
  lex_literal. rewrite lex_escaped. cbn [app]. change (B " </dev/null") with (B " </dev/null" ++ []). lex_literal. done.
Qed.

Lemma in_workspace_blank command ts :
  lex None false command = Some ts ->
  lex None false (in_workspace (B "/work space") command) =
  Some ([Word (B "cd"); Word (B "/work"); Word (B "space"); Word (B "2"); Op 62; Word (B "/dev/null"); Op 124; Op 124; Word (B "true"); Op 59] ++ ts).
Proof. intros H. unfold in_workspace. lex_literal. lex_literal. lex_literal. by rewrite H. Qed.
