(* ===== verification/ApiMcp.v ===== *)
(** * The MCP server of the API

    [crates/api-server/src/mcp_server.rs]: the tools with which a generic MCP client
    drives its Workshops, over the same primitives as the REST routes.  Whether LiteLLM
    and OpenBao answer, when they are configured, are arguments. *)

From S2P Require Import Prelude RustStr Collections F64 Utf8 Json McpGateway Crd Shell LlmBudget IdentityRules OpenBao Auth Routes Approvals Exec ExecStream.

(** [ErrorData::invalid_request] and [ErrorData::internal_error]. *)
Inductive ErrorData := Invalid (message : string) | Internal (message : string).

(** [fn api_error_to_mcp]. *)
Definition api_error_to_mcp (e : ApiError) : ErrorData := Invalid e.(ae_message).
Definition from_api {A} (r : api A) : A + ErrorData := match r with AOk a => inl a | AErr e => inr (api_error_to_mcp e) end.

(** [fn fast_fail_error] and [fn ensure_state_creating_dependencies_reachable]: a dependency
    that is configured ([Some]) and does not answer. *)
Definition fast_fail_error (dependency : string) : ErrorData := Internal ("Security dependencies unreachable: " ++ dependency).
Definition ensure_state_creating_dependencies_reachable (litellm openbao : option bool) : option ErrorData :=
  if bool_decide (litellm = Some false) then Some (fast_fail_error "LiteLLM")
  else if bool_decide (openbao = Some false) then Some (fast_fail_error "OpenBao")
  else None.

(** [struct CreateWorkshopParams]. *)
Record CreateWorkshopParams := mkParams {
  p_name : bytes; p_repo : bytes; p_revision : option bytes; p_config_path : option bytes;
  p_cpu : bytes; p_memory : bytes; p_disk : option bytes; p_budget : option f64; p_owner_group : option bytes;
  p_egress : list bytes; p_build_egress : option (list bytes); p_tools : list bytes;
  p_exported : list ExportedService; p_targets : list bytes; p_campaign : option bytes;
  p_install_terminal : option bool; p_install_ide : option bool }.

Section tools.
Context {K : Type} `{!KubeApi K} {S : Type} (tr : server S) (read_file : bytes -> option bytes).
(** [authenticated_user]: the identity the middleware left with the request. *)
Context (litellm openbao : option bool).

Definition no_identity : ErrorData := Internal "requete MCP recue sans identite authentifiee".

(** The resource [create_workshop] makes. *)
Definition workshop_of_params (p : CreateWorkshopParams) (group subject : bytes) : Workshop :=
  mkWorkshop p.(p_name)
    (mkSpec (mkSource p.(p_repo) (default (B "HEAD") p.(p_revision)) (default (B ".devcontainer/devcontainer.json") p.(p_config_path)) true)
       (mkResources p.(p_cpu) p.(p_memory) p.(p_disk) p.(p_budget)) p.(p_egress) p.(p_build_egress) p.(p_tools) []
       group subject DesiredRunning [] p.(p_exported) p.(p_targets) p.(p_campaign)
       (mkServices (default true p.(p_install_terminal)) (default true p.(p_install_ide))))
    None.

Definition mcp_create_workshop (k : K) (user : option AuthenticatedUser) (p : CreateWorkshopParams) : K * (Workshop + ErrorData) :=
  match user with
  | None => (k, inr no_identity)
  | Some user =>
      match ensure_state_creating_dependencies_reachable litellm openbao with
      | Some e => (k, inr e)
      | None =>
          match validate_name p.(p_name) with
          | AErr e => (k, inr (api_error_to_mcp e))
          | AOk _ =>
              match resolve_owner_group p.(p_owner_group) user with
              | AErr e => (k, inr (api_error_to_mcp e))
              | AOk group =>
                  let '(k, r) := kube_create k (workshop_of_params p group user.(subject)) in (k, from_api (from_kube r))
              end
          end
      end
  end.

(** [fn set_workshop_git_credential]. *)
Definition set_workshop_git_credential (k : K) (s : S) (session : option SessionAuthClient) (user : option AuthenticatedUser)
    (name username password : bytes) (now : Z) : S * option SessionAuthClient * (unit + ErrorData) :=
  match user with
  | None => (s, session, inr no_identity)
  | Some user =>
      match owned k user name with
      | AErr e => (s, session, inr (api_error_to_mcp e))
      | AOk _ =>
          match session with
          | None => (s, session, inr (Internal "OPENBAO_ADDR non configure : set_workshop_git_credential indisponible"))
          | Some c =>
              let '(s, c, r) := write_secret_fields tr read_file c s name (B "git") [(B "username", username); (B "password", password)] now in
              (s, Some c, match r with Ok _ => inl tt | _ => inr (Internal "ecriture du credential git") end)
          end
      end
  end.

(** [fn list_workshops], [fn get_workshop_status], [fn suspend_workshop],
    [fn resume_workshop], [fn delete_workshop]. *)
Definition mcp_list_workshops (k : K) (user : option AuthenticatedUser) : list Workshop + ErrorData :=
  match user with
  | None => inr no_identity
  | Some user => from_api (all ← from_kube (kube_list k); AOk (base.filter (fun w => member user w.(w_spec).(owner_group) = true) all))
  end.
Definition get_workshop_status (k : K) (user : option AuthenticatedUser) (name : bytes) : option StatusSeen + ErrorData :=
  match user with
  | None => inr no_identity
  | Some user => from_api (workshop ← from_kube (kube_get k name); _ ← ensure_owner workshop user; AOk workshop.(w_status))
  end.
Definition mcp_patch (k : K) (user : option AuthenticatedUser) (name : bytes) (d : WorkshopDesiredState) : K * (Workshop + ErrorData) :=
  match user with
  | None => (k, inr no_identity)
  | Some user => let '(k, r) := patch_desired_state k user name d in (k, from_api r)
  end.
Definition mcp_suspend_workshop k user name := mcp_patch k user name DesiredSuspended.
Definition mcp_resume_workshop k user name := mcp_patch k user name DesiredRunning.
Definition mcp_delete_workshop (k : K) (user : option AuthenticatedUser) (name : bytes) : K * (unit + ErrorData) :=
  match user with
  | None => (k, inr no_identity)
  | Some user =>
      match (workshop ← from_kube (kube_get k name); ensure_owner workshop user) with
      | AErr e => (k, inr (api_error_to_mcp e))
      | AOk _ => let '(k, r) := kube_delete k name in (k, from_api (from_kube r))
      end
  end.

(** [SessionDefaults::of] of a Workshop. *)
Definition session_defaults (w : Workshop) : SessionDefaults :=
  session_of w.(w_spec).(devcontainer).(repo) w.(w_spec).(devcontainer).(clone_workspace) (w_session w).

(** What [spawn] is given to run over SSH. *)
Record launch := mkLaunch {
  l_id : bytes; l_tenant : bytes; l_pod_ip : bytes; l_ssh_port : Z; l_key : bytes; l_command : bytes; l_dir : bytes }.

(** [fn exec_in_workshop]: [st] are the settings of the connection the pool hands out, [id]
    the identifier the database generates. *)
Definition exec_in_workshop (env : string -> option bytes) (k : K) (s : S) (session : option SessionAuthClient) (st : settings)
    (t : exec_table) (user : option AuthenticatedUser) (name cmd id : bytes) (now now' : Z)
  : S * option SessionAuthClient * exec_table * (launch + ErrorData) :=
  match user with
  | None => (s, session, t, inr no_identity)
  | Some user =>
      match ensure_state_creating_dependencies_reachable litellm openbao with
      | Some e => (s, session, t, inr e)
      | None =>
          match (workshop ← owned k user name; pod_ip ← resolve_running_pod_ip k workshop; AOk (workshop, pod_ip)) with
          | AErr e => (s, session, t, inr (api_error_to_mcp e))
          | AOk (workshop, pod_ip) =>
              match session with
              | None => (s, session, t, inr (Internal "OPENBAO_ADDR non configure : exec_in_workshop indisponible"))
              | Some c =>
                  let '(s, c, key) := ssh_private_key tr read_file c s name now now' in
                  match key with
                  | None => (s, Some c, t, inr (Internal "cle SSH indisponible pour ce Workshop"))
                  | Some key =>
                      match spawn_row st t id (workshop_tenant workshop) name cmd with
                      | None => (s, Some c, t, inr (Internal "enregistrement de l'execution"))
                      | Some t =>
                          let d := session_defaults workshop in
                          (s, Some c, t, inl (mkLaunch id (workshop_tenant workshop) pod_ip (ssh_port env (w_ports workshop)) key
                                                (script_prefix d ++ cmd) d.(sd_dir)))
                      end
                  end
              end
          end
      end
  end.
End tools.

(** ** The claims *)

(** The request of the REST route that asks for what the parameters of the tool ask for. *)
Definition request_of (p : CreateWorkshopParams) : CreateWorkshopRequest :=
  let w := (workshop_of_params p [] []).(w_spec) in
  mkCreate p.(p_name) w.(devcontainer) w.(resources) w.(egress_allowlist) w.(build_egress_allowlist) w.(tools)
    w.(identity_injection_rules) p.(p_owner_group) w.(simulators) w.(exported_services) w.(allowed_internal_targets)
    w.(campaign_id) w.(guest_services).

Section claims.
Context {K : Type} `{KA : !KubeApi K}.

(** An MCP tool does to the cluster what the REST route of the same name does for the same
    user, answers when it answers (of the status, what the route shows of it), and refuses
    with its message when it refuses; the creation also, when the dependencies that are
    configured answer, for a user who has the role the route asks for. *)
Theorem mcp_matches_rest (k : K) user claims name p litellm openbao :
  mcp_list_workshops k (Some user) = from_api (list_workshops k user) /\
  get_workshop_status k (Some user) name = from_api (w ← get_workshop k user name; AOk w.(w_status)) /\
  mcp_suspend_workshop k (Some user) name = prod_map id from_api (suspend_workshop k user name) /\
  mcp_resume_workshop k (Some user) name = prod_map id from_api (resume_workshop k user name) /\
  mcp_delete_workshop k (Some user) name = prod_map id from_api (delete_workshop k user name) /\
  (may_provision claims = true -> litellm <> Some false -> openbao <> Some false ->
   let mcp := mcp_create_workshop litellm openbao k (Some user) p in let rest := create_workshop k user claims (request_of p) in
   mcp.1 = rest.1 /\ (forall w, mcp.2 = inl w <-> rest.2 = AOk w)).
Proof.
  split_and!; try done.
  - cbn [get_workshop_status]. unfold get_workshop, owned. destruct (from_kube (kube_get k name)) as [w|]; [|done].
    cbn [mbind api_bind]. by destruct (ensure_owner w user).
  - unfold mcp_suspend_workshop, mcp_patch, suspend_workshop. by destruct (patch_desired_state _ _ _ _).
  - unfold mcp_resume_workshop, mcp_patch, resume_workshop. by destruct (patch_desired_state _ _ _ _).
  - unfold mcp_delete_workshop, delete_workshop, owned. destruct (from_kube (kube_get k name)) as [w|]; [|done].
    cbn [mbind api_bind]. destruct (ensure_owner w user); [|done]. cbn [mbind api_bind]. by destruct (kube_delete k name).
  - intros Hp Hl Ho. cbn zeta. unfold mcp_create_workshop, create_workshop. rewrite Hp. cbn [negb]. cbn [request_of cr_owner_group cr_name].
    unfold ensure_state_creating_dependencies_reachable. rewrite !bool_decide_eq_false_2 by done.
    destruct (validate_name (p_name p)) as [[]|e], (resolve_owner_group (p_owner_group p) user) as [group|e'];
      [|by split; [|split]..].
    change (workshop_of_request (request_of p) group (subject user)) with (workshop_of_params p group (subject user)).
    destruct (kube_create _ _) as [k' r]. cbn [fst snd]. split; [done|]. intros w. destruct (from_kube r); cbn; split; congruence.
Qed.

(** The creation of a Workshop asks for the role of a developer or of an administrator
    on the REST route only: through the MCP server, a user with neither makes the same
    Workshop the route refused. *)
Theorem mcp_create_unprivileged (k k' : K) user claims p group w :
  may_provision claims = false -> validate_name p.(p_name) = AOk tt -> resolve_owner_group p.(p_owner_group) user = AOk group ->
  kube_create k (workshop_of_params p group user.(subject)) = (k', KOk w) ->
  (create_workshop k user claims (request_of p)).1 = k /\
  mcp_create_workshop None None k (Some user) p = (k', inl w) /\
  kube_view k' !! p.(p_name) = Some (workshop_of_params p group user.(subject)).
Proof.
  intros Hc Hn Hg Hk. split; [unfold create_workshop; by rewrite Hc|]. split.
  - unfold mcp_create_workshop, ensure_state_creating_dependencies_reachable. rewrite !bool_decide_eq_false_2 by done.
    by rewrite Hn, Hg, Hk.
  - by apply kube_create_ok in Hk as [-> Hk].
Qed.
End claims.

(** ** The API as a whole *)

(** The door a request came by. *)
Inductive door := Rest | Mcp.

(** A request of an authenticated user to the API server, by the REST routes or by the tools
    of its MCP server, and what it did to the Workshops and to the secrets.  The other routes
    and tools at most read the cluster and the secrets of a Workshop: the bridges to the guest
    read its password, the execution of commands its key. *)
Inductive api_step {K} `{!KubeApi K} {S} (tr : server S) (rf : bytes -> option bytes) (user : AuthenticatedUser) (claims : Claims)
  : door -> K * S * option SessionAuthClient -> K * S * option SessionAuthClient -> Prop :=
| via_rest st st' : rest_step tr rf user claims st st' -> api_step tr rf user claims Rest st st'
| via_rest_secret k s c name path field now now' :
    api_step tr rf user claims Rest (k, s, Some c)
      (k, (read_secret_field tr rf c s name path field now now').1.1, Some (read_secret_field tr rf c s name path field now now').1.2)
| via_mcp_create k s session litellm openbao p :
    api_step tr rf user claims Mcp (k, s, session) ((mcp_create_workshop litellm openbao k (Some user) p).1, s, session)
| via_mcp_suspend k s session name :
    api_step tr rf user claims Mcp (k, s, session) ((mcp_suspend_workshop k (Some user) name).1, s, session)
| via_mcp_resume k s session name :
    api_step tr rf user claims Mcp (k, s, session) ((mcp_resume_workshop k (Some user) name).1, s, session)
| via_mcp_delete k s session name :
    api_step tr rf user claims Mcp (k, s, session) ((mcp_delete_workshop k (Some user) name).1, s, session)
| via_mcp_git k s session name username password now :
    api_step tr rf user claims Mcp (k, s, session)
      (k, (set_workshop_git_credential tr rf k s session (Some user) name username password now).1.1,
       (set_workshop_git_credential tr rf k s session (Some user) name username password now).1.2)
| via_mcp_exec k s session env litellm openbao st t name cmd id now now' :
    api_step tr rf user claims Mcp (k, s, session)
      (k, (exec_in_workshop tr rf litellm openbao env k s session st t (Some user) name cmd id now now').1.1.1,
       (exec_in_workshop tr rf litellm openbao env k s session st t (Some user) name cmd id now now').1.1.2).

Lemma mcp_matches_rest_routes {K} `{!KubeApi K} (k : K) user name :
  (mcp_suspend_workshop k (Some user) name).1 = (suspend_workshop k user name).1 /\
  (mcp_resume_workshop k (Some user) name).1 = (resume_workshop k user name).1 /\
  (mcp_delete_workshop k (Some user) name).1 = (delete_workshop k user name).1.
Proof.
  pose proof (mcp_matches_rest k user no_claims name (mkParams [] [] None None [] [] None None None [] None [] [] [] None None None) None None)
    as (_ & _ & -> & -> & -> & _).
  by destruct (suspend_workshop k user name), (resume_workshop k user name), (delete_workshop k user name).
Qed.

Section whole.
Context {K : Type} `{KA : !KubeApi K} {S : Type} (tr : server S) `{KV : !KvV2 tr} (rf : bytes -> option bytes).

Lemma mcp_create_allowed litellm openbao (k : K) user p n :
  allowed_change user True n (kube_view k !! n) (kube_view (mcp_create_workshop litellm openbao k (Some user) p).1 !! n).
Proof using Type.
  unfold mcp_create_workshop. destruct (ensure_state_creating_dependencies_reachable _ _); [by left|].
  destruct (validate_name (p_name p)) as [[]|e] eqn:En; [|by left].
  destruct (resolve_owner_group _ user) as [g|e] eqn:Eg; [|by left].
  destruct (kube_create k _) as [k' r] eqn:Ec. cbn [fst].
  destruct (kube_create_step k _ k' r Ec) as [->|[Hn ->]]; [by left|]. cbn [w_name workshop_of_params] in *.
  destruct (decide (n = p_name p)) as [->|Hne]; [|left; by rewrite lookup_insert_ne].
  right. rewrite lookup_insert_eq, Hn. cbn.
  split_and!; try done; [by eapply resolve_owner_group_member|by apply validate_name_label].
Qed.

(** A tool that acts as a route does, for the cluster. *)
Lemma mcp_as_wcall (k : K) (s : S) user name n :
  allowed_change user True n (kube_view k !! n) (kube_view (mcp_suspend_workshop k (Some user) name).1 !! n) /\
  allowed_change user True n (kube_view k !! n) (kube_view (mcp_resume_workshop k (Some user) name).1 !! n) /\
  allowed_change user True n (kube_view k !! n) (kube_view (mcp_delete_workshop k (Some user) name).1 !! n).
Proof using tr rf.
  pose proof (mcp_matches_rest_routes k user name) as (-> & -> & ->). split_and!.
  - pose proof (wcall_allowed tr rf k s None user True name 0 WSuspend n) as H. cbn [run_wcall] in H.
    by destruct (suspend_workshop k user name).
  - pose proof (wcall_allowed tr rf k s None user True name 0 WResume n) as H. cbn [run_wcall] in H.
    by destruct (resume_workshop k user name).
  - pose proof (wcall_allowed tr rf k s None user True name 0 WDelete n) as H. cbn [run_wcall] in H.
    by destruct (delete_workshop k user name).
Qed.

Lemma git_credential_secrets (k : K) s session user name username password now id :
  kv_view (set_workshop_git_credential tr rf k s session (Some user) name username password now).1.1 id = kv_view s id \/
  exists w, kube_view k !! name = Some w /\ w.(w_spec).(owner_group) ∈ user.(groups) /\ id = secret_id name (B "git").
Proof using KV.
  unfold set_workshop_git_credential. destruct (owned k user name) as [w|e] eqn:E; [|by left].
  apply owned_view in E as [Hv Hg]. destruct session as [c|]; [|by left]. unfold write_secret_fields.
  pose proof (client_token_frame tr rf c s false now id) as Hct.
  destruct (client_token tr rf c s false now) as [[s1 c1] [token|e|]]; [|by left..].
  destruct (write_fields_for tr s1 token name _ _) as [s2 r] eqn:Ew. apply (write_fields_effect tr) in Ew as [Hfr _].
  cbn [fst snd]. destruct (decide (id = secret_id name (B "git"))); [right; by exists w|left]. by rewrite Hfr.
Qed.

Lemma exec_secrets (k : K) s session litellm openbao env st t user name cmd eid now now' id :
  kv_view (exec_in_workshop tr rf litellm openbao env k s session st t (Some user) name cmd eid now now').1.1.1 id = kv_view s id.
Proof using KV.
  unfold exec_in_workshop. destruct (ensure_state_creating_dependencies_reachable _ _); [done|].
  destruct (mbind _ (owned k user name)) as [[w ip]|e]; [|done]. destruct session as [c|]; [|done].
  pose proof (read_secret_frame tr rf c s name (B "ssh_key") (B "privateKey") now now' id) as H.
  unfold ssh_private_key. destruct (read_secret_field tr rf c s name _ _ now now') as [[s1 c1] [key|]]; [|done].
  by destruct (spawn_row _ _ _ _ _ _).
Qed.

Lemma api_step_changes user claims d (st st' : K * S * option SessionAuthClient) n :
  api_step tr rf user claims d st st' ->
  allowed_change user (d = Rest -> may_provision claims = true) n (kube_view st.1.1 !! n) (kube_view st'.1.1 !! n).
Proof using Type.
  assert (Hmcp : forall o o', allowed_change user True n o o' -> allowed_change user (Mcp = Rest -> may_provision claims = true) n o o').
  { unfold allowed_change. intros o o' [->|H]; [by left|right]. destruct o, o'; naive_solver. }
  intros [st0 st0' H|k s c name path f now now'|k s session litellm openbao p|k s session name|k s session name|k s session name|k s session name u pw now
         |k s session env litellm openbao stt t name cmd id now now']; cbn [fst].
  - pose proof (rest_step_changes tr rf user claims st0 st0' n H) as H'. unfold allowed_change in *.
    destruct H' as [->|H']; [by left|right]. destruct (kube_view st0.1.1 !! n), (kube_view st0'.1.1 !! n); naive_solver.
  - by left.
  - apply Hmcp, mcp_create_allowed.
  - apply Hmcp, (mcp_as_wcall k s user name n).
  - apply Hmcp, (mcp_as_wcall k s user name n).
  - apply Hmcp, (mcp_as_wcall k s user name n).
  - by left.
  - by left.
Qed.

Lemma api_step_secrets user claims d (st st' : K * S * option SessionAuthClient) id :
  api_step tr rf user claims d st st' ->
  kv_view st'.1.2 id = kv_view st.1.2 id \/
  exists name w p, kube_view st.1.1 !! name = Some w /\ w.(w_spec).(owner_group) ∈ user.(groups) /\ id = secret_id name p /\
    match d with Rest => exists slug, p = B "credentials/" ++ slug | Mcp => p = B "git" end.
Proof using KV.
  intros [[[k s] session] [[k' s'] session'] H|k s c name path f now now'|k s session litellm openbao p|k s session name|k s session name|k s session name
         |k s session name u pw now|k s session env litellm openbao stt t name cmd eid now now']; cbn [fst snd]; try by left.
  - destruct (decide (kv_view s' id = kv_view s id)) as [|Hne]; [by left|right].
    destruct (rest_step_confined tr rf user claims k s session k' s' session') as [_ H']; [done|].
    destruct (H' id Hne) as (n & w & slug & ? & ? & ->). exists n, w, (B "credentials/" ++ slug). split_and!; eauto.
  - left. apply (read_secret_frame tr).
  - destruct (git_credential_secrets k s session user name u pw now id) as [?|(w & Hw & Hg & ->)]; [by left|right].
    exists name, w, (B "git"). by split_and!.
  - left. apply exec_secrets.
Qed.
End whole.

(** C6: whatever a user asks of the API, by the REST routes or by the MCP tools, the
    Workshops that change are those of the user's groups, which keep their name and owners,
    and new ones, with a DNS label as name, in one of the user's groups and in the user's
    name, created, by the REST route, by a user who may provision (the MCP tool asks for
    no role: [mcp_create_unprivileged]); and the secrets that change are, of the user's
    Workshops, a credential by a route, or the Git credential by a tool. *)
Theorem api_step_confined {K} `{!KubeApi K} {S} (tr : server S) `{!KvV2 tr} rf user claims d (k : K) s session k' s' session' :
  api_step tr rf user claims d (k, s, session) (k', s', session') ->
  (forall n, allowed_change user (d = Rest -> may_provision claims = true) n (kube_view k !! n) (kube_view k' !! n)) /\
  (forall id, kv_view s' id <> kv_view s id ->
     exists name w p, kube_view k !! name = Some w /\ w.(w_spec).(owner_group) ∈ user.(groups) /\ id = secret_id name p /\
       match d with Rest => exists slug, p = B "credentials/" ++ slug | Mcp => p = B "git" end).
Proof.
  intros Hs. split.
  - intros n. exact (api_step_changes tr rf user claims d (k, s, session) (k', s', session') n Hs).
  - intros id Hne. destruct (api_step_secrets tr rf user claims d (k, s, session) (k', s', session') id Hs) as [?|?]; done.
Qed.

(** C32: Workshops stay stored under their names, DNS labels of 1 to 63 characters,
    through any history of requests of any users, by the REST routes and by the MCP tools,
    so that no two of them share a secret of OpenBao. *)
Theorem names_stay_labels {K} `{!KubeApi K} {S} (tr : server S) rf (st st' : K * S * option SessionAuthClient) :
  rtc (fun a b => exists user claims d, api_step tr rf user claims d a b) st st' ->
  well_named st.1.1 ->
  well_named st'.1.1 /\
  forall n1 n2 w1 w2 p1 p2, kube_view st'.1.1 !! n1 = Some w1 -> kube_view st'.1.1 !! n2 = Some w2 ->
    secret_id n1 p1 = secret_id n2 p2 -> n1 = n2 /\ p1 = p2.
Proof.
  intros Hs H0. assert (Hw : well_named st'.1.1).
  { induction Hs as [|a b c (user & claims & d & Hab) _ IH]; [done|]. apply IH.
    eapply allowed_well_named; [|done]. intros n. by eapply api_step_changes. }
  split; [done|]. intros n1 n2 w1 w2 p1 p2 H1 H2. apply secret_id_inj; apply dns_label_no_slash.
  - by destruct (Hw n1 w1 H1).
  - by destruct (Hw n2 w2 H2).
Qed.


Definition toy_params : CreateWorkshopParams :=
  mkParams (B "mine") (B "https://forge/a.git") None None (B "1") (B "1Gi") None None None [] None [] [] [] None None (Some false).
Definition no_role : Claims := mkClaims (B "mallory") None None (Some [B "others"]) None.

Definition developer : Claims := mkClaims (B "alice") None None (Some [B "team"]) (Some [B "developer"]).

Lemma mcp_create_unprivileged_witness :
  may_provision no_role = false /\
  exists k' : toy_kube, kube_view k' !! B "mine" = Some (workshop_of_params toy_params (B "others") (B "mallory")).
Proof.
  split; [vm_compute; reflexivity|].
  eexists. eapply (mcp_create_unprivileged (∅ : toy_kube) {[B "mine" := workshop_of_params toy_params (B "others") (B "mallory")]}
    mallory no_role toy_params (B "others") (workshop_of_params toy_params (B "others") (B "mallory")));
    vm_compute; reflexivity.
Defined.

Lemma mcp_matches_rest_witness :
  (mcp_create_workshop None None (∅ : toy_kube) (Some alice) toy_params).1 =
  (create_workshop (∅ : toy_kube) alice developer (request_of toy_params)).1.
Proof.
  destruct (mcp_matches_rest (∅ : toy_kube) alice developer (B "x") toy_params None None)
    as (_ & _ & _ & _ & _ & H).
  apply H; [vm_compute; reflexivity|discriminate|discriminate].
Defined.

(** Mallory, of another group and without any role, makes a Workshop of hers with the tool. *)
Lemma api_step_confined_witness :
  let k' := (mcp_create_workshop None None (toy_cluster : toy_kube) (Some mallory) toy_params).1 in
  (exists w, k' !! B "mine" = Some w) /\
  forall n, allowed_change mallory (Mcp = Rest -> may_provision no_role = true) n (toy_cluster !! n) (k' !! n).
Proof.
  intros k'. split; [eexists; vm_compute; reflexivity|].
  exact (proj1 (api_step_confined toy_server (fun _ => None) mallory no_role Mcp (toy_cluster : toy_kube) ∅ None k' ∅ None
    (via_mcp_create toy_server (fun _ => None) mallory no_role (toy_cluster : toy_kube) ∅ None None None toy_params))).
Defined.

(** The same creation, then a deletion of the first Workshop by its owner. *)
Lemma names_stay_labels_witness :
  let k1 := (mcp_create_workshop None None (toy_cluster : toy_kube) (Some mallory) toy_params).1 in
  let k2 := (mcp_delete_workshop k1 (Some alice) (B "demo")).1 in
  dom k2 = {[B "mine"]} /\ well_named (k2 : toy_kube).
Proof.
  intros k1 k2. split; [vm_compute; reflexivity|].
  refine (proj1 (names_stay_labels toy_server (fun _ => None) (toy_cluster : toy_kube, ∅, None) (k2, ∅, None) _ toy_well_named)).
  eapply rtc_l.
  - exists mallory, no_role, Mcp. exact (via_mcp_create toy_server (fun _ => None) mallory no_role (toy_cluster : toy_kube) ∅ None None None toy_params).
  - apply rtc_once. exists alice, no_claims, Mcp.
    exact (via_mcp_delete toy_server (fun _ => None) alice no_claims k1 ∅ None (B "demo")).
Defined.
