(* ===== verification/GuestBridge.v ===== *)
(** * The bridges to a guest's services

    [crates/api-server/src/vscode.rs], [terminal.rs], [portforward.rs] and
    [session_recorder.rs]: the HTTP and WebSocket bridge to the IDE and the terminal of a
    microVM, over the port-forward protocol of net-proxy.  The guest is an argument: what
    it answers to a request on the connection.  Header names are in lower case, as
    [http::HeaderMap] keeps them, and the order of two different names does not matter. *)

From S2P Require Import Prelude RustStr Collections F64 Utf8 Json Internal PodSpec McpGateway Crd PortForward LlmBudget IdentityRules OpenBao Auth Routes.

(** ** Services *)

Inductive GuestService := Ide | Terminal.
#[global] Instance service_eq_dec : EqDecision GuestService.
Proof. solve_decision. Defined.

(** [Workshop::guest_ports] and [GuestService::port]. *)
Definition workshop_guest_ports (w : Workshop) : GuestPorts := default LEGACY (w_ports w).
Definition service_port (env : string -> option bytes) (service : GuestService) (w : Workshop) : option Z :=
  let '(override_var, port) :=
    match service with
    | Ide => ("ATELIER_VSCODE_PORT"%string, (workshop_guest_ports w).(gp_ide))
    | Terminal => ("ATELIER_TERMINAL_PORT"%string, (workshop_guest_ports w).(gp_terminal))
    end in
  match env override_var ≫= parse_u16 with Some p => Some p | None => port end.

Inductive GuestAuth := Basic | CodeServerCookie.
#[global] Instance guest_auth_eq_dec : EqDecision GuestAuth.
Proof. solve_decision. Defined.

Record GuestProxyTarget := mkTarget {
  tg_name : bytes; tg_path : bytes; tg_service : GuestService; tg_url_prefix : bytes; tg_record_session : bool; tg_auth : GuestAuth }.

(** [fn vscode_proxy] (with an empty path, [fn vscode_proxy_root]) and [fn terminal_proxy]. *)
Definition vscode_target (name path : bytes) : GuestProxyTarget := mkTarget name path Ide (B "vscode") false CodeServerCookie.
Definition terminal_target (name path : bytes) : GuestProxyTarget := mkTarget name path Terminal (B "terminal") true Basic.

(** ** Messages *)

Abbreviation headers := (list (bytes * bytes)).
Definition hget_all (k : bytes) (h : headers) : list bytes := snd <$> base.filter (fun kv => kv.1 = k) h.
Definition hremove (k : bytes) (h : headers) : headers := base.filter (fun kv => kv.1 <> k) h.
Definition hinsert (k v : bytes) (h : headers) : headers := hremove k h ++ [(k, v)].

(** [HeaderValue::from_str] and [to_str]: visible ASCII, blanks and tabs. *)
Definition visible (b : Z) : bool := ((32 <=? b) && (b <? 127)) || (b =? 9).
Definition header_value (v : bytes) : option bytes := if forallb visible v then Some v else None.

Record request := mkRequest { q_method : bytes; q_uri : bytes; q_headers : headers; q_body : bytes }.
Record response := mkResponse { p_status : Z; p_headers : headers; p_body : bytes }.

(** What the guest answers on the connection; [None]: the connection failed. *)
Definition guest (G : Type) := G -> request -> G * option response.

(** [fn urlencode]. *)
Definition is_unreserved (b : Z) : bool := is_ascii_alphanumeric b || (b =? 45) || (b =? 95) || (b =? 46) || (b =? 126).
Definition hex_upper (d : Z) : Z := if d <? 10 then 48 + d else 55 + d.
Definition urlencode (value : bytes) : bytes :=
  value ≫= (fun b => if is_unreserved b then [b] else [37; hex_upper (b / 16); hex_upper (b mod 16)]).

Definition CODE_SERVER_COOKIE : bytes := B "code-server-session".

(** The search of the cookie in the [Set-Cookie] headers. *)
Fixpoint session_cookie (values : list bytes) : option bytes :=
  match values with
  | [] => None
  | v :: r =>
      match strip_prefix (CODE_SERVER_COOKIE ++ [61]) (default [] (header_value v)) with
      | Some rest =>
          let cookie := default [] (head (split 59 rest)) in
          if is_empty cookie then session_cookie r else Some cookie
      | None => session_cookie r
      end
  end.

Section bridge.
Context {G : Type} (ask : guest G).

(** [fn code_server_login]. *)
Definition login_request (port : Z) (password : bytes) : request :=
  let form := B "password=" ++ urlencode password in
  mkRequest (B "POST") (B "/login")
    [(B "host", B "127.0.0.1:" ++ dec port); (B "content-type", B "application/x-www-form-urlencoded");
     (B "content-length", dec (Z.of_nat (length form)))] form.
Definition code_server_login (g : G) (port : Z) (password : bytes) : G * option bytes :=
  let '(g, r) := ask g (login_request port password) in
  (g, r ≫= fun r => session_cookie (hget_all (B "set-cookie") r.(p_headers))).

Context {K : Type} `{!KubeApi K} {S : Type} (tr : server S) (read_file : bytes -> option bytes).
(** [base64], [http::Uri]'s parser, and the connection through net-proxy to a port of the guest. *)
Context (base64 : bytes -> bytes) (uri_ok : bytes -> bool).

(** The headers with the proof the service asks for, once the password is known. *)
Definition authenticate (session : SessionAuthClient) (g : G) (name : bytes) (port : Z) (password : bytes) (auth : GuestAuth)
    (h : headers) : SessionAuthClient * G * headers :=
  match auth with
  | Basic =>
      (session, g, match header_value (B "Basic " ++ base64 (B "atelier:" ++ password)) with
                   | Some value => hinsert (B "authorization") value h
                   | None => h
                   end)
  | CodeServerCookie =>
      let '(session, g, cookie) :=
        match code_server_cookie session name with
        | Some cookie => (session, g, Some cookie)
        | None => match code_server_login g port password with
                  | (g, Some cookie) => (store_code_server_cookie session name cookie, g, Some cookie)
                  | (g, None) => (session, g, None)
                  end
        end in
      (session, g, match cookie with
                   | None => h
                   | Some cookie =>
                       let h := hremove (B "authorization") h in
                       match header_value (CODE_SERVER_COOKIE ++ [61] ++ cookie) with
                       | Some value => hinsert (B "cookie") value h
                       | None => h
                       end
                   end)
  end.

(** The request for the guest. *)
Definition outbound_headers (port : Z) (is_upgrade : bool) (h : headers) : headers :=
  let h := hinsert (B "host") (B "127.0.0.1:" ++ dec port) h in
  if is_upgrade then h else hremove (B "connection") h.
Definition path_and_query (path : bytes) (query : option bytes) : bytes :=
  match query with Some q => [47] ++ path ++ [63] ++ q | None => [47] ++ path end.

(** The response for the client. *)
Definition location_of (prefix loc : bytes) : bytes :=
  match header_value loc with
  | Some _ => if starts_with loc [47] && negb (starts_with loc prefix) then prefix ++ loc else loc
  | None => loc
  end.
Definition response_headers (prefix : bytes) (h : headers) : headers :=
  (fun kv => if beq kv.1 (B "location") then (kv.1, location_of prefix kv.2) else kv) <$>
  base.filter (fun kv => kv.1 <> B "connection" /\ kv.1 <> B "transfer-encoding") h.
Definition to_login (r : response) : bool :=
  match head (hget_all (B "location") r.(p_headers)) ≫= header_value with
  | Some location => contains location (B "/login")
  | None => false
  end.
Definition is_redirection (status : Z) : bool := (300 <=? status) && (status <? 400).
Definition url_prefix_of (t : GuestProxyTarget) : bytes := B "/v1/workshops/" ++ t.(tg_name) ++ [47] ++ t.(tg_url_prefix).

(** The two ends of an upgraded connection, and what the bridge answers: a response, or a
    switch of protocols with the tunnel it runs ([tn_server], [tn_client] are the
    [server_io] and [client_io] of the copy). *)
Inductive peer := Browser | Guest.
#[global] Instance peer_eq_dec : EqDecision peer.
Proof. solve_decision. Defined.
Record tunnel := mkTunnel { tn_server : peer; tn_client : peer; tn_recorded : bool }.
Inductive answer := Relayed (r : response) | Switched (r : response) (t : tunnel).

(** [hyper::upgrade::on(&mut req)] is the connection of the browser, and
    [hyper::upgrade::on(&mut upstream_response)] that of the guest. *)
Definition upgraded_tunnel (record_session storage : bool) : tunnel := mkTunnel Browser Guest (record_session && storage).

(** The cookie is forgotten when the guest asks for a login all the same. *)
Definition forget_if_rejected (t : GuestProxyTarget) (r : response) (session : option SessionAuthClient) : option SessionAuthClient :=
  if bool_decide (t.(tg_auth) = CodeServerCookie) && is_redirection r.(p_status) && to_login r
  then (fun c => forget_code_server_cookie c t.(tg_name)) <$> session else session.

(** The injection of the session's password: [if let Some(session_auth)]. *)
Definition inject_credentials (s : S) (session : option SessionAuthClient) (g : G) (t : GuestProxyTarget) (port : Z) (h : headers)
    (now now' : Z) : S * option SessionAuthClient * G * headers :=
  match session with
  | None => (s, None, g, h)
  | Some c =>
      let '(s, c, password) := session_password tr read_file c s t.(tg_name) now now' in
      match password with
      | None => (s, Some c, g, h)
      | Some password =>
          let '(c, g, h) := authenticate c g t.(tg_name) port password t.(tg_auth) h in (s, Some c, g, h)
      end
  end.

(** [fn proxy_to_guest_port]: [connect] gives the guest behind the pod's port, [query] and
    [req] are the client's; [now], [now'] the instants of the calls to OpenBao. *)
Definition proxy_to_guest_port (env : string -> option bytes) (connect : bytes -> Z -> option G) (storage : bool)
    (k : K) (s : S) (session : option SessionAuthClient) (user : AuthenticatedUser) (t : GuestProxyTarget)
    (query : option bytes) (req : request) (now now' : Z) : S * option SessionAuthClient * option (G * request) * api answer :=
  match (workshop ← owned k user t.(tg_name);
         port ← match service_port env t.(tg_service) workshop with
                | Some port => AOk port
                | None => AErr (not_found_generic "service non installe dans ce Workshop (spec.guestServices)")
                end;
         pod_ip ← resolve_running_pod_ip k workshop;
         AOk (port, pod_ip)) with
  | AErr e => (s, session, None, AErr e)
  | AOk (port, pod_ip) =>
      match connect pod_ip port with
      | None => (s, session, None, AErr (bad_gateway "connexion au guest impossible"))
      | Some g =>
          let is_upgrade := bool_decide (hget_all (B "upgrade") req.(q_headers) <> []) in
          let uri := path_and_query t.(tg_path) query in
          if negb (uri_ok uri) then (s, session, None, AErr (bad_request "chemin invalide"))
          else
            let h := outbound_headers port is_upgrade req.(q_headers) in
            let '(s, session, g, h) := inject_credentials s session g t port h now now' in
            let outbound := mkRequest req.(q_method) uri h req.(q_body) in
            match ask g outbound with
            | (g, None) => (s, session, Some (g, outbound), AErr (bad_gateway "requete vers le guest echouee"))
            | (g, Some r) =>
                if is_upgrade && (r.(p_status) =? 101)
                then (s, session, Some (g, outbound),
                      AOk (Switched (mkResponse 101 r.(p_headers) []) (upgraded_tunnel t.(tg_record_session) storage)))
                else
                  (s, forget_if_rejected t r session, Some (g, outbound),
                   AOk (Relayed (mkResponse r.(p_status) (response_headers (url_prefix_of t) r.(p_headers)) r.(p_body))))
            end
      end
  end.
End bridge.

(** ** The byte pumps *)

(** [fn net_proxy_control_port], and the URLs of net-proxy's port-forward. *)
Definition DEFAULT_NET_PROXY_CONTROL_PORT : Z := 9000.
Definition net_proxy_control_port (env : string -> option bytes) : Z :=
  default DEFAULT_NET_PROXY_CONTROL_PORT (env "ATELIER_NET_PROXY_CONTROL_PORT"%string ≫= parse_u16).
Definition ports_query (remote_port : Z) : bytes := B "tcp:" ++ dec remote_port.
Definition portforward_url (env : string -> option bytes) (pod_ip ports : bytes) : bytes :=
  B "ws://" ++ pod_ip ++ B ":" ++ dec (net_proxy_control_port env) ++ B "/portforward?ports=" ++ ports.

(** The task of [fn open_forwarded_tcp_stream]: what it reads from the local side (a chunk,
    nothing left, or an error) and from the websocket, in the order it reads them. *)
Inductive pump_event :=
| LocalRead (n : bytes)
| LocalError
| WsMessage (m : message)
| WsError
| WsEnd.

Section pump.
(** Whether a send on the websocket and a write to the local side succeed. *)
Context (send_ok write_ok : bytes -> bool).

(** The messages sent on the websocket, and the bytes written to the local side. *)
Fixpoint pump (events : list pump_event) : list message * bytes :=
  match events with
  | [] => ([], [])
  | LocalRead [] :: _ | LocalError :: _ | WsError :: _ | WsEnd :: _ => ([], [])
  | LocalRead chunk :: r =>
      if send_ok chunk then let '(sent, written) := pump r in (Binary (0 :: chunk) :: sent, written) else ([], [])
  | WsMessage (Binary (c :: payload)) :: r =>
      if c =? 0 then
        if write_ok payload then let '(sent, written) := pump r in (sent, payload ++ written) else ([], [])
      else if c =? 1 then ([], [])
      else pump r
  | WsMessage _ :: r => pump r
  end.
End pump.

(** [fn copy_bidirectional_with_recording]: a read of one of the two sides, empty when it is
    closed, [None] on an error. *)
Inductive copy_event := ServerRead (r : option bytes) | ClientRead (r : option bytes).

Section copy.
Context (write_ok : bytes -> bool).

(** What was written to [client_io], to [server_io], and pushed to the recording. *)
Fixpoint copy_bidirectional_with_recording (recording : bool) (events : list copy_event) : bytes * bytes * bytes :=
  match events with
  | [] => ([], [], [])
  | ServerRead (Some ((_ :: _) as data)) :: r =>
      let recorded := if recording then data else [] in
      if write_ok data
      then let '(c, s, rec) := copy_bidirectional_with_recording recording r in (data ++ c, s, recorded ++ rec)
      else ([], [], recorded)
  | ClientRead (Some ((_ :: _) as data)) :: r =>
      if write_ok data
      then let '(c, s, rec) := copy_bidirectional_with_recording recording r in (c, data ++ s, rec)
      else ([], [], [])
  | _ => ([], [], [])
  end.
End copy.

(** What the peers of a tunnel say: a read of the side a peer is on. *)
Definition tunnel_event (t : tunnel) (said : peer * bytes) : copy_event :=
  if bool_decide (t.(tn_server) = said.1) then ServerRead (Some said.2) else ClientRead (Some said.2).
Definition recorded_of (t : tunnel) (said : list (peer * bytes)) : bytes :=
  (copy_bidirectional_with_recording (fun _ => true) t.(tn_recorded) (tunnel_event t <$> said)).2.

(** [fn to_tungstenite] and [fn to_axum]. *)
Inductive ws_msg := WText (t : bytes) | WBinary (d : bytes) | WPing (d : bytes) | WPong (d : bytes) | WClose (f : option (Z * bytes)).
Inductive ts_msg := TsMsg (m : ws_msg) | TsFrame.
Definition to_tungstenite (m : ws_msg) : ts_msg := TsMsg m.
Definition to_axum (m : ts_msg) : ws_msg := match m with TsMsg m => m | TsFrame => WClose None end.

(** One direction of [fn relay]: the messages received ([None]: an error or the end), those
    sent. *)
Fixpoint relay_direction {M N} (convert : M -> N) (is_close : M -> bool) (send_ok : N -> bool) (received : list (option M)) : list N :=
  match received with
  | Some m :: r => if negb (send_ok (convert m)) then [] else if is_close m then [convert m] else convert m :: relay_direction convert is_close send_ok r
  | _ => []
  end.

(** ** The password form *)

(** What a server reads in a form: [application/x-www-form-urlencoded]. *)
Definition hex_val (c : Z) : option Z :=
  if is_ascii_digit c then Some (c - 48) else if (65 <=? c) && (c <=? 70) then Some (c - 55)
  else if (97 <=? c) && (c <=? 102) then Some (c - 87) else None.
Fixpoint form_decode (fuel : nat) (s : bytes) : option bytes :=
  match fuel with
  | O => match s with [] => Some [] | _ => None end
  | S f =>
      match s with
      | [] => Some []
      | c :: r =>
          if c =? 37 then
            match r with
            | a :: b :: r' => x ← hex_val a; y ← hex_val b; rest ← form_decode f r'; Some (x * 16 + y :: rest)
            | _ => None
            end
          else if c =? 43 then cons 32 <$> form_decode f r
          else cons c <$> form_decode f r
      end
  end.

Lemma hex_upper_val d : 0 <= d < 16 -> hex_val (hex_upper d) = Some d.
Proof.
  intros H. unfold hex_upper, hex_val, is_ascii_digit. destruct (Z.ltb_spec d 10).
  - replace ((48 <=? 48 + d) && (48 + d <=? 57)) with true by lia. f_equal. lia.
  - replace ((48 <=? 55 + d) && (55 + d <=? 57)) with false by lia.
    replace ((65 <=? 55 + d) && (55 + d <=? 70)) with true by lia. f_equal. lia.
Qed.

Lemma urlencode_roundtrip value fuel :
  Forall is_byte value -> (length (urlencode value) <= fuel)%nat -> form_decode fuel (urlencode value) = Some value.
Proof.
  intros Hv. revert fuel. induction Hv as [|b value Hb _ IH]; intros fuel Hf; [by destruct fuel|].
  unfold urlencode in *. rewrite bind_cons in *. destruct (is_unreserved b) eqn:E.
  - destruct fuel as [|fuel]; [cbn in Hf; lia|]. cbn [app form_decode].
    assert (b <> 37 /\ b <> 43) as [H1 H2]
      by (unfold is_unreserved, is_ascii_alphanumeric, is_ascii_digit, is_ascii_upper in E; split; intros ->; done).
    rewrite (proj2 (Z.eqb_neq b 37) H1), (proj2 (Z.eqb_neq b 43) H2), IH by (cbn in Hf; lia). done.
  - destruct fuel as [|fuel]; [cbn in Hf; lia|]. cbn [app form_decode Z.eqb Pos.eqb]. unfold is_byte in Hb.
    rewrite !hex_upper_val; [|split; [apply Z.div_pos|apply Z.div_lt_upper_bound]; lia|apply Z.mod_pos_bound; lia].
    cbn [mbind option_bind]. rewrite IH by (cbn in Hf; lia). cbn. f_equal. f_equal. pose proof (Z.div_mod b 16). lia.
Qed.

(** ** Headers *)

Lemma hget_hremove_eq k h : hget_all k (hremove k h) = [].
Proof.
  unfold hget_all, hremove. induction h as [|[k' v] h IH]; [done|]. rewrite filter_cons. cbn [fst].
  destruct (decide (k' <> k)); [|done]. rewrite filter_cons. cbn [fst]. by rewrite decide_False.
Qed.

Lemma hget_hremove_ne k k' h : k <> k' -> hget_all k (hremove k' h) = hget_all k h.
Proof.
  intros Hk. unfold hget_all, hremove. induction h as [|[x v] h IH]; [done|]. rewrite !(filter_cons _ (x, v)). cbn [fst].
  destruct (decide (x <> k')) as [Hx|Hx].
  - rewrite filter_cons. cbn [fst]. destruct (decide (x = k)); [|done]. rewrite !fmap_cons. by rewrite IH.
  - rewrite (decide_False (P := x = k)); [done|]. intros ->. by apply Hx.
Qed.

Lemma hget_hinsert_eq k v h : hget_all k (hinsert k v h) = [v].
Proof.
  unfold hinsert. unfold hget_all. rewrite filter_app, fmap_app. fold (hget_all k (hremove k h)). rewrite hget_hremove_eq.
  rewrite filter_cons_True by done. done.
Qed.

Lemma hget_hinsert_ne k k' v h : k <> k' -> hget_all k (hinsert k' v h) = hget_all k h.
Proof.
  intros Hk. unfold hinsert. unfold hget_all. rewrite filter_app, fmap_app. fold (hget_all k (hremove k' h)).
  rewrite hget_hremove_ne by done. rewrite filter_cons_False by (cbn; congruence). rewrite filter_nil. cbn. by rewrite app_nil_r.
Qed.

Lemma outbound_host port up h : hget_all (B "host") (outbound_headers port up h) = [B "127.0.0.1:" ++ dec port].
Proof. unfold outbound_headers. destruct up; [|rewrite hget_hremove_ne by done]; apply hget_hinsert_eq. Qed.

Lemma outbound_other port up h k : k <> B "host" -> k <> B "connection" -> hget_all k (outbound_headers port up h) = hget_all k h.
Proof.
  intros H1 H2. unfold outbound_headers. destruct up; [|rewrite hget_hremove_ne by done]; by apply hget_hinsert_ne.
Qed.

(** ** Cookies *)

Definition cookies_ok (c : SessionAuthClient) : Prop := map_Forall (fun _ v => forallb visible v = true) c.(code_server_cookies).

Lemma forallb_split c s p : In p (split c s) -> forallb visible s = true -> forallb visible p = true.
Proof.
  unfold split. revert p. induction s as [|b s IH]; intros p; cbn [split_by].
  - intros [<-|[]] _. done.
  - intros Hp Hs. cbn in Hs. apply andb_true_iff in Hs as [Hb Hs]. destruct (Z.eqb c b).
    + destruct Hp as [<-|Hp]; [done|by apply IH].
    + destruct (split_by (Z.eqb c) s) as [|w ws]; cbn in Hp.
      * destruct Hp as [<-|[]]. cbn. by rewrite Hb.
      * destruct Hp as [<-|Hp]; [cbn; rewrite Hb; apply IH; [by left|done]|]. apply IH; [by right|done].
Qed.

Lemma strip_prefix_visible p s r : strip_prefix p s = Some r -> forallb visible s = true -> forallb visible r = true.
Proof.
  revert s. induction p as [|c p IH]; intros s; cbn; [by intros [= ->]|]. destruct s as [|b s]; [done|].
  destruct (c =? b); [|done]. intros H Hs. apply andb_true_iff in Hs as [_ Hs]. eauto.
Qed.

Lemma session_cookie_visible values c : session_cookie values = Some c -> forallb visible c = true.
Proof.
  induction values as [|v values IH]; [done|]. cbn [session_cookie].
  assert (Hv : forallb visible (default [] (header_value v)) = true).
  { unfold header_value. by destruct (forallb visible v) eqn:E. }
  destruct (strip_prefix _ _) as [rest|] eqn:E; [|done]. apply strip_prefix_visible in E; [|done].
  destruct (is_empty _) eqn:Ee; [done|]. intros [= <-].
  destruct (split 59 rest) as [|w ws] eqn:Es; [done|]. cbn. apply (forallb_split 59 rest); [rewrite Es; by left|done].
Qed.

Section proofs.
Context {G : Type} (ask : guest G) {K : Type} `{KA : !KubeApi K} {S : Type} (tr : server S) (rf : bytes -> option bytes).
Context (base64 : bytes -> bytes) (uri_ok : bytes -> bool).
(** The alphabet of [base64]. *)
Context (base64_ascii : forall x, forallb visible (base64 x) = true).

(** The cookie the bridge uses: the one it knows, or the one the guest gives at the login. *)
Definition cookie_for (c : SessionAuthClient) (g : G) (name : bytes) (port : Z) (password : bytes) : option bytes :=
  match code_server_cookie c name with Some cookie => Some cookie | None => (code_server_login ask g port password).2 end.

(** The proofs a message shows, its [Authorization] and its [Cookie] headers. *)
Definition proofs_in (h : headers) : list bytes * list bytes := (hget_all (B "authorization") h, hget_all (B "cookie") h).

(** What the guest is shown of a client's message [h] once the password is known: its terminal
    gets the password in place of the client's token, with the client's cookies; code-server
    gets its cookie in place of both, or, without one, the client's own. *)
Definition proven (auth : GuestAuth) (c : SessionAuthClient) (g : G) (name : bytes) (port : Z) (password : bytes) (h : headers)
  : list bytes * list bytes :=
  match auth with
  | Basic => ([B "Basic " ++ base64 (B "atelier:" ++ password)], hget_all (B "cookie") h)
  | CodeServerCookie =>
      match cookie_for c g name port password with
      | Some cookie => ([], [CODE_SERVER_COOKIE ++ [61] ++ cookie])
      | None => proofs_in h
      end
  end.

Lemma visible_app a b : forallb visible (a ++ b) = forallb visible a && forallb visible b.
Proof. apply forallb_app. Qed.

Lemma authenticate_spec c g name port password auth h :
  cookies_ok c -> let '(c', g', h') := authenticate ask base64 c g name port password auth h in
  cookies_ok c' /\ proofs_in h' = proven auth c g name port password h /\
  (forall k, k <> B "authorization" -> k <> B "cookie" -> hget_all k h' = hget_all k h).
Proof using base64_ascii.
  intros Hc. unfold authenticate, proven, proofs_in. destruct auth.
  - assert (Hb : header_value (B "Basic " ++ base64 (B "atelier:" ++ password)) = Some (B "Basic " ++ base64 (B "atelier:" ++ password))).
    { unfold header_value. by rewrite visible_app, base64_ascii. }
    rewrite Hb. split_and!; [done|by rewrite hget_hinsert_eq, hget_hinsert_ne|]. intros k Hk _. by apply hget_hinsert_ne.
  - assert (Hlogin : forall cookie, (code_server_login ask g port password).2 = Some cookie -> forallb visible cookie = true).
    { intros cookie. unfold code_server_login. destruct (ask g _) as [g1 [r|]]; cbn; [|done]. apply session_cookie_visible. }
    assert (Hin : forall cookie, forallb visible cookie = true ->
      let h' := match header_value (CODE_SERVER_COOKIE ++ [61] ++ cookie) with
                | Some value => hinsert (B "cookie") value (hremove (B "authorization") h) | None => hremove (B "authorization") h end in
      (hget_all (B "authorization") h' = [] /\ hget_all (B "cookie") h' = [CODE_SERVER_COOKIE ++ [61] ++ cookie]) /\
      (forall k, k <> B "authorization" -> k <> B "cookie" -> hget_all k h' = hget_all k h)).
    { intros cookie Hv. unfold header_value. rewrite !visible_app, Hv. cbn [forallb andb].
      change (forallb visible CODE_SERVER_COOKIE) with true. change (visible 61) with true. cbn [andb].
      rewrite hget_hinsert_eq, hget_hinsert_ne, hget_hremove_eq by done. split; [done|].
      intros k H1 H2. by rewrite hget_hinsert_ne, hget_hremove_ne. }
    unfold cookie_for. destruct (code_server_cookie c name) as [cookie|] eqn:Ec.
    + destruct (Hin cookie) as [H1 H2]; [by eapply Hc|]. destruct H1 as [-> ->]. by split_and!.
    + destruct (code_server_login ask g port password) as [g1 [cookie|]] eqn:El; cbn [snd] in *; [|by split_and!].
      assert (Hv : forallb visible cookie = true) by (by apply Hlogin).
      destruct (Hin cookie Hv) as [H1 H2]. destruct H1 as [-> ->]. split_and!; [|done|exact H2].
      unfold cookies_ok, store_code_server_cookie. cbn. by apply map_Forall_insert_2.
Qed.

Lemma client_token_cookies c s force now : (client_token tr rf c s force now).1.2.(code_server_cookies) = c.(code_server_cookies).
Proof.
  unfold client_token. destruct (if force then None else _); [done|].
  by destruct (login tr rf (sc_client c) s) as [s1 [|e|]].
Qed.

Lemma session_password_cookies c s name now now' :
  (session_password tr rf c s name now now').1.2.(code_server_cookies) = c.(code_server_cookies).
Proof.
  unfold session_password, read_secret_field. pose proof (client_token_cookies c s false now) as H1.
  destruct (client_token tr rf c s false now) as [[s1 c1] [token|e|]]; cbn [fst snd] in *; [|done..].
  destruct (read_field_for tr s1 token _ _ _) as [s2 [v|e|]]; [done|..];
    (pose proof (client_token_cookies c1 s2 true now') as H2; destruct (client_token tr rf c1 s2 true now') as [[s3 c3] [token'|e'|]];
     cbn [fst snd] in *; [|congruence..]; destruct (read_field_for tr s3 token' _ _ _) as [s4 r4]; cbn; congruence).
Qed.

Definition session_ok (session : option SessionAuthClient) : Prop := match session with Some c => cookies_ok c | None => True end.

(** The credentials the guest is shown of a client's message [h]. *)
Definition credentials_shown (s : S) (session : option SessionAuthClient) (g : G) (t : GuestProxyTarget) (port : Z) (now now' : Z) (h : headers)
  : list bytes * list bytes :=
  match session with
  | None => proofs_in h
  | Some c => match (session_password tr rf c s t.(tg_name) now now').2 with
              | Some password => proven t.(tg_auth) c g t.(tg_name) port password h
              | None => proofs_in h
              end
  end.

Lemma inject_spec s session g t port h now now' :
  session_ok session ->
  let '(s', session', g', h') := inject_credentials ask tr rf base64 s session g t port h now now' in
  session_ok session' /\ proofs_in h' = credentials_shown s session g t port now now' h /\
  (forall k, k <> B "authorization" -> k <> B "cookie" -> hget_all k h' = hget_all k h).
Proof using base64_ascii.
  intros Hok. unfold inject_credentials, credentials_shown. destruct session as [c|]; [|done].
  pose proof (session_password_cookies c s (tg_name t) now now') as Hcook.
  destruct (session_password _ _ _ _ _ _ _) as [[s1 c1] [password|]]; cbn [fst snd] in *.
  - assert (Hc1 : cookies_ok c1) by (unfold cookies_ok; by rewrite Hcook).
    pose proof (authenticate_spec c1 g (tg_name t) port password (tg_auth t) h Hc1) as H.
    destruct (authenticate _ _ _ _ _ _ _ _ _) as [[c2 g2] h2]. destruct H as (H1 & H2 & H3). split_and!; [done| |done].
    unfold proven, cookie_for, code_server_cookie in *. by rewrite Hcook in H2.
  - split_and!; [|done..]. unfold session_ok, cookies_ok. by rewrite Hcook.
Qed.

Lemma shown_outbound s session g t port now now' upgrade h :
  credentials_shown s session g t port now now' (outbound_headers port upgrade h) = credentials_shown s session g t port now now' h.
Proof using Type.
  assert (Hp : proofs_in (outbound_headers port upgrade h) = proofs_in h) by (unfold proofs_in; by rewrite !outbound_other).
  unfold credentials_shown, proven. destruct session as [c|]; [|done]. destruct (session_password _ _ _ _ _ _ _).2; [|done].
  destruct (tg_auth t); [|by destruct (cookie_for _ _ _ _ _)]. by rewrite outbound_other.
Qed.


(** The client's token goes to the guest when code-server's login fails, and its cookies go
    to the terminal in any case. *)
Lemma bearer_relayed s c g t port now now' password h :
  (session_password tr rf c s t.(tg_name) now now').2 = Some password ->
  (t.(tg_auth) = CodeServerCookie -> cookie_for c g t.(tg_name) port password = None ->
     credentials_shown s (Some c) g t port now now' h = proofs_in h) /\
  (t.(tg_auth) = Basic -> (credentials_shown s (Some c) g t port now now' h).2 = hget_all (B "cookie") h).
Proof using Type. intros Hp. unfold credentials_shown, proven. rewrite Hp. split; [by intros -> ->|by intros ->]. Qed.

(** A cookie of code-server that no longer holds heals by itself: when the guest has
    answered a request with a redirection to its login page, the next request logs in
    again, the guest is shown the cookie that login gave, and the bridge remembers it. *)
Theorem stale_cookie_heals s c g t port h now now' r password cookie :
  t.(tg_auth) = CodeServerCookie -> cookies_ok c -> is_redirection r.(p_status) = true -> to_login r = true ->
  (session_password tr rf (forget_code_server_cookie c t.(tg_name)) s t.(tg_name) now now').2 = Some password ->
  (code_server_login ask g port password).2 = Some cookie ->
  let '(_, session', _, h') := inject_credentials ask tr rf base64 s (forget_if_rejected t r (Some c)) g t port h now now' in
  hget_all (B "authorization") h' = [] /\ hget_all (B "cookie") h' = [CODE_SERVER_COOKIE ++ [61] ++ cookie] /\
  (session' ≫= fun c => code_server_cookie c t.(tg_name)) = Some cookie.
Proof using base64_ascii.
  intros Ha Hc Hr Hl Hp Hlogin. unfold forget_if_rejected. rewrite bool_decide_eq_true_2, Hr, Hl by done. cbn [andb fmap option_fmap option_map].
  set (c1 := forget_code_server_cookie c (tg_name t)) in *.
  assert (Hc1 : cookies_ok c1) by (unfold cookies_ok in *; cbn; by apply map_Forall_delete).
  assert (Hnone : code_server_cookie c1 (tg_name t) = None) by (cbn; apply lookup_delete_eq).
  pose proof (inject_spec s (Some c1) g t port h now now' Hc1) as H. unfold inject_credentials in *.
  pose proof (session_password_cookies c1 s (tg_name t) now now') as Hcook. unfold credentials_shown in H.
  destruct (session_password _ _ _ _ _ _ _) as [[s1 c2] pw]. cbn [fst snd] in *. subst pw.
  destruct (authenticate _ _ _ _ _ _ _ _ _) as [[c3 g3] h3] eqn:E. destruct H as (_ & H2 & _).
  unfold proven in H2. rewrite Ha in H2. unfold cookie_for in H2. rewrite Hnone, Hlogin in H2.
  apply pair_eq in H2 as [H3 H4]. split_and!; [done..|]. cbn [mbind option_bind].
  unfold authenticate in E. rewrite Ha in E. unfold code_server_cookie in E, Hnone. rewrite Hcook, Hnone in E.
  destruct (code_server_login ask g port password) as [g4 o]. cbn [snd] in Hlogin. subst o. apply (f_equal (fun x => x.1.1)) in E. cbn [fst] in E.
  rewrite <- E. unfold code_server_cookie, store_code_server_cookie. cbn [code_server_cookies]. apply lookup_insert_eq.
Qed.
End proofs.

(** ** Redirections *)

(** The locations the client is sent stay under the bridge's own path. *)
Lemma starts_with_app p s : starts_with (p ++ s) p = true.
Proof.
  unfold starts_with. apply bool_decide_eq_true. induction p as [|c p IH]; cbn; [by eexists|]. by rewrite Z.eqb_refl.
Qed.

Lemma locations_confined prefix h l :
  (B "location", l) ∈ response_headers prefix h -> forallb visible l = true -> starts_with l [47] = true -> starts_with l prefix = true.
Proof.
  unfold response_headers. rewrite list_elem_of_fmap. intros ([k v] & Heq & [_ Hin]%list_elem_of_filter) Hv Hs. cbn [fst snd] in *.
  destruct (beq k (B "location")) eqn:Ek; injection Heq as ? ?.
  - subst l. unfold location_of, header_value in *. destruct (forallb visible v) eqn:Ev; [|congruence].
    destruct (starts_with v [47] && negb (starts_with v prefix)) eqn:Ec; [apply starts_with_app|].
    rewrite Hs in Ec. cbn in Ec. by apply negb_false_iff in Ec.
  - subst. by rewrite beq_refl in Ek.
Qed.

(** ** The pump and net-proxy *)

Lemma parse_ports_one n : 0 <= n <= U16_MAX -> parse_ports_query (ports_query n) = Ok [mkPort Tcp n].
Proof.
  intros Hn. unfold parse_ports_query. assert (Hd : forall b, b ∈ dec n -> 48 <= b <= 57) by (intros b; apply dec_digits_all; lia).
  assert (Hcsv : csv (ports_query n) = [ports_query n]).
  { apply (csv_join [ports_query n]). constructor; [|constructor]. unfold ports_query. split_and!; [| |done].
    - apply Forall_app. split; [by repeat constructor|]. apply Forall_forall. intros b Hb%Hd. lia.
    - rewrite not_elem_of_app. split; [set_solver|]. intros Hb%Hd. lia. }
  rewrite Hcsv. cbn [collect]. unfold parse_one, ports_query. change (B "tcp:") with (B "tcp" ++ [58]). rewrite <- app_assoc.
  cbn [app]. rewrite split_once_app by set_solver. cbn [mbind res_bind]. change (beq (to_ascii_lowercase (B "tcp")) (B "tcp")) with true.
  cbn [mbind res_bind]. unfold parse_u16. rewrite parse_dec by (unfold U16_MAX, U64_MAX in *; lia). done.
Qed.

Definition quiet (e : pump_event) : Prop :=
  match e with LocalRead c => c <> [] | WsMessage (Binary (c :: _)) => c <> 1 | WsMessage _ => True | _ => False end.
Definition local_chunk (e : pump_event) : bytes := match e with LocalRead c => c | _ => [] end.
Definition ws_payload (e : pump_event) : bytes :=
  match e with WsMessage (Binary (c :: p)) => if c =? 0 then p else [] | _ => [] end.

Lemma pump_quiet events :
  Forall quiet events ->
  pump (fun _ => true) (fun _ => true) events =
  ((fun c => Binary (0 :: c)) <$> base.filter (fun c => c <> []) (local_chunk <$> events), events ≫= ws_payload).
Proof.
  induction 1 as [|e events He _ IH]; [done|]. rewrite fmap_cons, bind_cons, filter_cons.
  destruct e as [[|b c]| |[[|c p]|]| |]; cbn [quiet] in He; try done; cbn [pump local_chunk ws_payload].
  - rewrite IH, decide_True by done. rewrite fmap_cons. done.
  - rewrite IH. rewrite decide_False by naive_solver. replace (c =? 1) with false by lia. by destruct (c =? 0).
Qed.

Lemma payloads_framed chunks : payloads_for 0 ((fun c => Binary (0 :: c)) <$> chunks) = chunks.
Proof.
  induction chunks as [|c chunks IH]; [done|]. rewrite fmap_cons, payloads_for_cons, IH. done.
Qed.

Lemma sink_tcp_all chunks w : sink_payloads (SinkTcp w) chunks 0 (fun _ _ => true) = SinkTcp (w ++ concat chunks).
Proof.
  unfold sink_payloads. revert w. induction chunks as [|c chunks IH]; intros w; cbn [fold_left write_to_sink concat].
  - by rewrite app_nil_r.
  - by rewrite IH, app_assoc.
Qed.

Lemma concat_nonempty (l : list bytes) : concat (base.filter (fun c => c <> []) l) = concat l.
Proof.
  induction l as [|x l IH]; [done|]. rewrite filter_cons. destruct (decide (x <> [])) as [H|H]; cbn; [by rewrite IH|].
  destruct x; [done|]. by destruct H.
Qed.

(** A session of one port receives what its client framed. *)
Lemma one_port_session n chunks :
  (run_session (fun _ => None) (fun _ _ => true) [mkPort Tcp n] ((fun c => Binary (0 :: c)) <$> chunks)).1 = [SinkTcp (concat chunks)].
Proof.
  unfold run_session. cbn [open_ports open_port protocol fst].
  assert (H := session_routing (fun _ _ => true) ((fun c => Binary (0 :: c)) <$> chunks) [SinkTcp []] 0 (SinkTcp [])).
  rewrite payloads_framed, sink_tcp_all in H. cbn [app] in H.
  assert (Hl : length (fold_left (client_message (fun _ _ => true)) ((fun c => Binary (0 :: c)) <$> chunks) [SinkTcp []]) = 1%nat).
  { generalize ((fun c => Binary (0 :: c)) <$> chunks). intros msgs.
    assert (Hs : length [SinkTcp []] = 1%nat) by done. revert Hs. generalize [SinkTcp []]. induction msgs as [|m msgs IH]; intros l Hl; [done|].
    cbn [fold_left]. apply IH. by rewrite client_message_length. }
  destruct (fold_left _ _ _) as [|x [|]]; try done. cbn in H. f_equal. symmetry. cbn.
  assert (Some x = Some (SinkTcp (concat chunks))) as [= ->]; [|done].
  apply H; [|lia|done]. apply Forall_fmap, Forall_true. intros c. unfold byte_message, is_byte. cbn. lia.
Qed.

(** The connection of the bridge to a port of the guest, through net-proxy's
    port-forward, is a faithful TCP connection: the query is one net-proxy accepts, for that
    port alone; while neither side closes or fails, the guest's port receives exactly the
    bytes written, in order, however they were cut into messages, and what is read is
    exactly what net-proxy sent on the data channel, interleaved in any way. *)
Theorem forwarded_stream_exact n events :
  0 <= n <= U16_MAX -> Forall quiet events ->
  parse_ports_query (ports_query n) = Ok [mkPort Tcp n] /\
  let '(sent, written) := pump (fun _ => true) (fun _ => true) events in
  (run_session (fun _ => None) (fun _ _ => true) [mkPort Tcp n] sent).1 = [SinkTcp (concat (local_chunk <$> events))] /\
  written = events ≫= ws_payload.
Proof.
  intros Hn He. split; [by apply parse_ports_one|]. rewrite pump_quiet by done. split; [|done].
  by rewrite one_port_session, concat_nonempty.
Qed.

(** ** The recording *)

Lemma recorded_server t said :
  Forall (fun p => p.2 <> []) said -> t.(tn_recorded) = true ->
  recorded_of t said = said ≫= (fun p => if bool_decide (t.(tn_server) = p.1) then p.2 else []).
Proof.
  intros Hs Ht. unfold recorded_of. rewrite Ht. induction Hs as [|[p data] said Hd _ IH]; [done|].
  rewrite fmap_cons, bind_cons, <- IH. unfold tunnel_event at 1. cbn [fst snd]. destruct data as [|b data]; [done|].
  destruct (bool_decide _); cbn [copy_bidirectional_with_recording]; destruct (copy_bidirectional_with_recording _ _ _) as [[c s] rec]; done.
Qed.

(** What the archive of a terminal session holds, with an object store configured: all
    the browser sent, that is what the user typed, and nothing of what the terminal
    displayed; the documentation says the opposite of both. *)
Theorem terminal_records_input name path said :
  Forall (fun p => p.2 <> []) said ->
  let t := terminal_target name path in
  recorded_of (upgraded_tunnel t.(tg_record_session) true) said =
    said ≫= (fun p => match p.1 with Browser => p.2 | Guest => [] end).
Proof.
  intros Hs t. rewrite recorded_server by done. apply list_bind_ext; [|done]. intros [[] d]; cbn; done.
Qed.

(** ** Witnesses *)

(** A guest that gives a cookie at the login, and answers a constant. *)
Definition toy_guest : guest unit := fun g q =>
  (g, Some (if beq q.(q_uri) (B "/login")
            then mkResponse 302 [(B "set-cookie", B "code-server-session=abc; Path=/")] []
            else mkResponse 200 [] (B "ok"))).
Definition toy_base64 (x : bytes) : bytes := B "AAAA".
Definition toy_ws : Workshop := mkWorkshop (B "demo") (toy_spec (B "team")) (Some (mkSeen (Some (B "demo-parent")) None None JNull)).
Definition toy_k : toy_kube := {[B "demo" := toy_ws]}.
Definition toy_get : request := mkRequest (B "GET") (B "/v1/workshops/demo/vscode/x") [(B "authorization", B "Bearer jwt"); (B "accept", B "*/*")] [].
Definition toy_secrets : gmap bytes (gmap bytes bytes) := {[B "workshops/demo/session_auth" := {[B "password" := B "pw"]}]}.
Definition toy_token_file (_ : bytes) : option bytes := Some (B "sa").

Definition toy_bridge : gmap bytes (gmap bytes bytes) * option SessionAuthClient * option (unit * request) * api answer :=
  proxy_to_guest_port toy_guest toy_server toy_token_file toy_base64 (fun _ => true) (fun _ => None) (fun _ _ => Some tt) false
    toy_k toy_secrets (Some toy_session) alice (vscode_target (B "demo") (B "x")) None toy_get 0 0.
Definition toy_out : request := match toy_bridge.1.2 with Some (_, o) => o | None => toy_get end.


Definition to_login_page : response := mkResponse 302 [(B "location", B "/login")] [].

Lemma stale_cookie_heals_witness :
  let c := store_code_server_cookie toy_session (B "demo") (B "old") in
  let t := vscode_target (B "demo") [] in
  let '(_, session', _, h') :=
    inject_credentials toy_guest toy_server toy_token_file toy_base64 toy_secrets (forget_if_rejected t to_login_page (Some c)) tt t 8080 [] 0 0 in
  hget_all (B "authorization") h' = [] /\ hget_all (B "cookie") h' = [CODE_SERVER_COOKIE ++ [61] ++ B "abc"] /\
  (session' ≫= fun c => code_server_cookie c (B "demo")) = Some (B "abc").
Proof.
  intros c t. apply (stale_cookie_heals toy_guest toy_server toy_token_file toy_base64 (fun _ => eq_refl) toy_secrets c tt t 8080 [] 0 0
    to_login_page (B "pw") (B "abc")); [reflexivity| |vm_compute; reflexivity..].
  unfold cookies_ok. apply map_Forall_insert_2; [vm_compute; reflexivity|apply map_Forall_empty].
Defined.

Lemma forwarded_stream_witness :
  let events := [LocalRead (B "GET "); WsMessage (Binary (0 :: B "HTTP")); LocalRead (B "/"); WsMessage Other] in
  (run_session (fun _ => None) (fun _ _ => true) [mkPort Tcp 8080] (pump (fun _ => true) (fun _ => true) events).1).1 = [SinkTcp (B "GET /")].
Proof.
  intros events. destruct (forwarded_stream_exact 8080 events) as [_ H]; [vm_compute; split; discriminate| |].
  - repeat constructor; try discriminate.
  - destruct (pump _ _ events) as [sent written]. apply H.
Defined.

Lemma terminal_records_input_witness :
  recorded_of (upgraded_tunnel (terminal_target (B "demo") []).(tg_record_session) true) [(Browser, B "secret"); (Guest, B "$ ")] = B "secret".
Proof.
  apply (terminal_records_input (B "demo") [] [(Browser, B "secret"); (Guest, B "$ ")]).
  constructor; [discriminate|]. constructor; [discriminate|constructor].
Defined.
