(* ===== verification/Rootfs.v ===== *)
(** * The root file system of a guest

    [crates/image-builder/src/main.rs], the checks on the image being built:
    [exists_in_rootfs], which follows links as the guest will, [ensure_init_system] and
    [check_boot_prerequisites].  A root file system is a map from the components of a
    path to what is there. *)

From S2P Require Import Prelude RustStr.

Inductive node := Dir | File (content : bytes) | Link (target : bytes).
Abbreviation path := (list bytes).
Abbreviation rootfs := (gmap path node).

(** The components of a path, and whether it is absolute. *)
Definition parts (p : bytes) : list bytes := base.filter (fun c => is_empty c = false) (split 47 p).
Definition is_absolute (p : bytes) : bool := starts_with p [47].

(** [PathBuf::pop]. *)
Definition pop (p : path) : path := removelast p.

(** The loop of [fn exists_in_rootfs]: [links] is [links_left], [pending] the stack from its
    top, [resolved] the path so far. *)
Fixpoint resolve_in (fs : rootfs) (links : nat) : list bytes -> path -> bool :=
  fix go (pending : list bytes) (resolved : path) : bool :=
    match pending with
    | [] => true
    | part :: rest =>
        if beq part (B ".") then go rest resolved
        else if beq part (B "..") then go rest (pop resolved)
        else match fs !! (resolved ++ [part]) with
             | None => false
             | Some (Link target) =>
                 match links with
                 | O => false
                 | S links => resolve_in fs links (parts target ++ rest) (if is_absolute target then [] else resolved)
                 end
             | Some _ => go rest (resolved ++ [part])
             end
    end.
Definition MAX_LINKS : nat := 32.
Definition exists_in_rootfs (fs : rootfs) (p : bytes) : bool := resolve_in fs MAX_LINKS (parts p) [].

(** ** What is resolved *)

(** The resolution of a path by a kernel whose root is the root file system, with the
    number of links it followed and the place it ends at. *)
Inductive walk (fs : rootfs) : nat -> list bytes -> path -> path -> Prop :=
| WalkEnd at_ : walk fs 0 [] at_ at_
| WalkDot n rest at_ final : walk fs n rest at_ final -> walk fs n (B "." :: rest) at_ final
| WalkUp n rest at_ final : walk fs n rest (pop at_) final -> walk fs n (B ".." :: rest) at_ final
| WalkEntry n part rest at_ final x :
    part <> B "." -> part <> B ".." -> fs !! (at_ ++ [part]) = Some x -> (forall t, x <> Link t) ->
    walk fs n rest (at_ ++ [part]) final -> walk fs n (part :: rest) at_ final
| WalkLink n part rest at_ final target :
    part <> B "." -> part <> B ".." -> fs !! (at_ ++ [part]) = Some (Link target) ->
    walk fs n (parts target ++ rest) (if is_absolute target then [] else at_) final ->
    walk fs (S n) (part :: rest) at_ final.

Lemma resolve_sound fs links pending resolved :
  resolve_in fs links pending resolved = true -> exists n final, (n <= links)%nat /\ walk fs n pending resolved final.
Proof.
  revert pending resolved. induction links as [links IHl] using lt_wf_ind. intros pending. induction pending as [|part rest IH]; intros resolved.
  - destruct links; intros _; exists 0%nat, resolved; (split; [lia|constructor]).
  - destruct (decide (part = B ".")) as [->|Hd].
    { intros H. destruct (IH resolved) as (n & final & Hn & Hw); [by destruct links|]. exists n, final. split; [done|by constructor]. }
    destruct (decide (part = B "..")) as [->|Hu].
    { intros H. destruct (IH (pop resolved)) as (n & final & Hn & Hw); [by destruct links|]. exists n, final. split; [done|by constructor]. }
    assert (Hu1 : beq part (B ".") = false) by (by apply beq_false). assert (Hu2 : beq part (B "..") = false) by (by apply beq_false).
    assert (Hstep : resolve_in fs links (part :: rest) resolved =
      match fs !! (resolved ++ [part]) with
      | None => false
      | Some (Link target) => match links with O => false | S l => resolve_in fs l (parts target ++ rest) (if is_absolute target then [] else resolved) end
      | Some _ => resolve_in fs links rest (resolved ++ [part]) end) by (destruct links; cbn [resolve_in]; by rewrite Hu1, Hu2).
    rewrite Hstep. destruct (fs !! (resolved ++ [part])) as [[|content|target]|] eqn:E; [| | |done].
    + intros H. destruct (IH _ H) as (n & final & Hn & Hw). exists n, final. split; [done|]. by eapply WalkEntry.
    + intros H. destruct (IH _ H) as (n & final & Hn & Hw). exists n, final. split; [done|]. by eapply WalkEntry.
    + destruct links as [|l]; [done|]. intros H. destruct (IHl l ltac:(lia) _ _ H) as (n & final & Hn & Hw).
      exists (S n), final. split; [lia|]. by eapply WalkLink.
Qed.

Lemma resolve_complete fs n pending resolved final links :
  walk fs n pending resolved final -> (n <= links)%nat -> resolve_in fs links pending resolved = true.
Proof.
  intros H. revert links. induction H as [at_|n rest at_ final H IH|n rest at_ final H IH|n part rest at_ final x Hd Hu Hx Hl H IH
    |n part rest at_ final target Hd Hu Hx H IH]; intros links Hn.
  - by destruct links.
  - specialize (IH links Hn). by destruct links.
  - specialize (IH links Hn). by destruct links.
  - specialize (IH links Hn). assert (beq part (B ".") = false /\ beq part (B "..") = false) as [H1 H2] by (split; by apply beq_false).
    destruct links; cbn [resolve_in]; rewrite H1, H2, Hx; (destruct x as [| |t]; [done|done|by destruct (Hl t)]).
  - destruct links as [|links]; [lia|]. assert (beq part (B ".") = false /\ beq part (B "..") = false) as [H1 H2] by (split; by apply beq_false).
    cbn [resolve_in]. rewrite H1, H2, Hx. apply IH. lia.
Qed.

(** A path of which no component is a link. *)
Definition link_free (fs : rootfs) (p : path) : Prop :=
  forall n, (0 < n <= length p)%nat -> exists x, fs !! take n p = Some x /\ forall t, x <> Link t.

Lemma link_free_pop fs p : link_free fs p -> link_free fs (pop p).
Proof.
  intros H n Hn. unfold pop in *. rewrite removelast_firstn_len in *. rewrite length_take in Hn.
  change (@firstn bytes) with (@take bytes) in *. rewrite take_take, Nat.min_l by lia. apply H. lia.
Qed.

Lemma link_free_snoc fs p part x :
  link_free fs p -> fs !! (p ++ [part]) = Some x -> (forall t, x <> Link t) -> link_free fs (p ++ [part]).
Proof.
  intros H Hx Hl n Hn. rewrite length_app in Hn. cbn in Hn. destruct (decide (n = S (length p))) as [->|].
  - rewrite take_ge by (rewrite length_app; cbn; lia). eauto.
  - rewrite take_app_le by lia. apply H. lia.
Qed.

Lemma walk_link_free fs n pending at_ final : walk fs n pending at_ final -> link_free fs at_ -> link_free fs final.
Proof.
  induction 1 as [at_|n rest at_ final _ IH|n rest at_ final _ IH|n part rest at_ final x _ _ Hx Hl _ IH
    |n part rest at_ final target _ _ Hx _ IH]; intros Hf; [done|auto|by apply IH, link_free_pop| |].
  - apply IH. by eapply link_free_snoc.
  - apply IH. destruct (is_absolute target); [|done]. intros k Hk. cbn in Hk. lia.
Qed.

(** ** Boot *)

(** [fn check_boot_prerequisites]: [Some] is the message of the refusal. *)
Definition present (fs : rootfs) (candidates : list bytes) : bool := existsb (exists_in_rootfs fs) candidates.
Definition systemd_paths : list bytes := [B "/lib/systemd/systemd"; B "/usr/lib/systemd/systemd"].
Definition tools_needed : list (bytes * list bytes * bytes) :=
  [(B "bash", [B "/bin/bash"; B "/usr/bin/bash"; B "/usr/local/bin/bash"],
    B "les scripts de demarrage injectes par atelier sont des scripts bash");
   (B "env", [B "/usr/bin/env"], B "ces scripts commencent par `#!/usr/bin/env bash`");
   (B "curl", [B "/usr/bin/curl"; B "/bin/curl"; B "/usr/local/bin/curl"],
    B "ils recuperent la cle SSH et le mot de passe de session avec `curl`")].
Definition no_init_message : bytes :=
  B "systemd est installe mais `/sbin/init` n'existe pas : le noyau ne trouverait aucun init et la microVM ne demarrerait jamais. Installer le paquet qui fournit `/sbin/init` (`systemd-sysv` sur Debian et Ubuntu), ou retirer systemd de l'image".
Definition tool_message (t : bytes * list bytes * bytes) : bytes :=
  B "`" ++ t.1.1 ++ B "` est absent de l'image (" ++ join (B ", ") t.1.2 ++ B ") : l'installer dans le Dockerfile ; " ++ t.2.
Definition missing_of (fs : rootfs) : list bytes :=
  (if present fs systemd_paths && negb (present fs [B "/sbin/init"]) then [no_init_message] else [])
  ++ (tool_message <$> base.filter (fun t => present fs t.1.2 = false) tools_needed).
Definition check_boot_prerequisites (fs : rootfs) : option bytes :=
  match missing_of fs with
  | [] => None
  | missing => Some (B "l'image ne peut pas demarrer comme Workshop :" ++ [10] ++ B "- " ++ join ([10] ++ B "- ") missing)
  end.

(** Where a write under a path of the root file system lands, on the machine that builds
    the image: a relative link is followed inside, an absolute one leaves it ([None]). *)
Fixpoint host_resolve (fs : rootfs) (links : nat) : list bytes -> path -> option path :=
  fix go (pending : list bytes) (resolved : path) : option path :=
    match pending with
    | [] => Some resolved
    | part :: rest =>
        match fs !! (resolved ++ [part]) with
        | None => None
        | Some (Link target) =>
            match links with
            | O => None
            | S links => if is_absolute target then None else host_resolve fs links (parts target ++ rest) resolved
            end
        | Some _ => go rest (resolved ++ [part])
        end
    end.

(** [fn ensure_init_system]: [has_systemd] is what [try_exists] found, [init_bin] the file
    [ATELIER_GUEST_INIT_BIN] names. *)
Definition ensure_init_system (has_systemd : bool) (init_bin : option bytes) (fs : rootfs) : rootfs :=
  if has_systemd then fs
  else match init_bin with
       | None => fs
       | Some bin =>
           match fs !! [B "sbin"] with
           | None => <[[B "sbin"; B "init"] := File bin]> (<[[B "sbin"] := Dir]> fs)
           | Some _ =>
               match host_resolve fs 40 [B "sbin"] [] with
               | Some dir => <[dir ++ [B "init"] := File bin]> fs
               | None => fs
               end
           end
       end.

(** ** The claims *)

(** [exists_in_rootfs] answers for the guest and not for the machine that builds the
    image: it always returns, and says yes exactly when the guest's kernel, with the root
    file system as its root, reaches something by following at most 32 links; what it
    reached is an entry of the root file system, under a path without links. *)
Theorem exists_in_rootfs_spec fs p :
  exists_in_rootfs fs p = true <->
  exists n final, (n <= MAX_LINKS)%nat /\ walk fs n (parts p) [] final /\ link_free fs final.
Proof.
  unfold exists_in_rootfs. split.
  - intros (n & final & Hn & Hw)%resolve_sound. exists n, final. split_and!; [done..|].
    eapply walk_link_free; [done|]. intros k Hk. cbn in Hk. lia.
  - intros (n & final & Hn & Hw & _). by eapply resolve_complete.
Qed.

Lemma join_nonempty sep x l : join sep (x :: l) = x ++ match l with [] => [] | _ => sep ++ join sep l end.
Proof. destruct l; cbn; [by rewrite app_nil_r|done]. Qed.

Lemma existsb_present fs c : present fs c = true <-> exists p, p ∈ c /\ exists_in_rootfs fs p = true.
Proof.
  unfold present. rewrite existsb_exists. split; intros (p & Hp & He); exists p; (split; [|done]); by apply list_elem_of_In.
Qed.

(** An image is accepted exactly when it has [bash], [env] and [curl] where the injected
    scripts look for them and, if systemd is installed in it, an init.  An image without
    systemd is not asked for one: it is accepted with no [/sbin/init] at all, which no
    kernel boots. *)
Theorem boot_check_spec fs :
  (check_boot_prerequisites fs = None <->
   (present fs systemd_paths = true -> present fs [B "/sbin/init"] = true) /\
   Forall (fun t => present fs t.1.2 = true) tools_needed) /\
  (present fs systemd_paths = false -> Forall (fun t => present fs t.1.2 = true) tools_needed ->
   exists_in_rootfs fs (B "/sbin/init") = false -> check_boot_prerequisites fs = None).
Proof.
  assert (Hiff : check_boot_prerequisites fs = None <->
   (present fs systemd_paths = true -> present fs [B "/sbin/init"] = true) /\ Forall (fun t => present fs t.1.2 = true) tools_needed).
  { assert (Hm : check_boot_prerequisites fs = None <-> missing_of fs = [])
      by (unfold check_boot_prerequisites; by destruct (missing_of fs)).
    assert (Hf : base.filter (fun t => present fs t.1.2 = false) tools_needed = [] <-> Forall (fun t => present fs t.1.2 = true) tools_needed).
    { generalize tools_needed. intros l. induction l as [|t l IH]; [by split|]. rewrite filter_cons, Forall_cons, <- IH.
      destruct (decide (present fs t.1.2 = false)) as [E|E].
      - rewrite E. by split; [|intros [? _]].
      - apply not_false_iff_true in E. by rewrite E; split; [|intros [_ ?]]. }
    rewrite Hm, <- Hf. unfold missing_of.
    assert (Hnil : tool_message <$> base.filter (fun t => present fs t.1.2 = false) tools_needed = [] <->
      base.filter (fun t => present fs t.1.2 = false) tools_needed = []) by (split; [apply fmap_nil_inv|by intros ->]).
    destruct (present fs systemd_paths), (present fs [B "/sbin/init"]); cbn [andb negb app]; try rewrite Hnil.
    - split; [by intros ->|by intros [_ ->]].
    - split; [done|]. intros [H _]. by specialize (H eq_refl).
    - split; [by intros ->|by intros [_ ->]].
    - split; [by intros ->|by intros [_ ->]]. }
  split; [done|]. intros Hs Ht _. apply Hiff. split; [by rewrite Hs|done].
Qed.

(** Walking a path of directories to an entry. *)
Lemma walk_entry fs at_ part rest final n x :
  fs !! (at_ ++ [part]) = Some x -> (forall t, x <> Link t) -> beq part (B ".") = false -> beq part (B "..") = false ->
  walk fs n rest (at_ ++ [part]) final -> walk fs n (part :: rest) at_ final.
Proof. intros Hx Hl Hd%beq_false Hu%beq_false H. by eapply WalkEntry. Qed.

Lemma sbin_init_found fs n : walk fs n [B "sbin"; B "init"] [] [B "sbin"; B "init"] \/ walk fs n [B "sbin"; B "init"] [] [B "usr"; B "sbin"; B "init"] ->
  (n <= MAX_LINKS)%nat -> exists_in_rootfs fs (B "/sbin/init") = true.
Proof.
  intros H Hn. unfold exists_in_rootfs. change (parts (B "/sbin/init")) with [B "sbin"; B "init"].
  destruct H as [H|H]; by eapply resolve_complete.
Qed.

(** When systemd is absent and atelier's init is available, the image gets an init the
    guest's kernel finds at [/sbin/init], whether [/sbin] is a directory, is missing, or is
    the link to [usr/sbin] of merged distributions; behind an absolute link it is written
    outside of the image, which still has none. *)
Theorem init_installed fs bin :
  (fs !! [B "sbin"] = None \/ fs !! [B "sbin"] = Some Dir ->
   exists_in_rootfs (ensure_init_system false (Some bin) fs) (B "/sbin/init") = true) /\
  (fs !! [B "sbin"] = Some (Link (B "usr/sbin")) -> fs !! [B "usr"] = Some Dir -> fs !! [B "usr"; B "sbin"] = Some Dir ->
   exists_in_rootfs (ensure_init_system false (Some bin) fs) (B "/sbin/init") = true) /\
  (fs !! [B "sbin"] = Some (Link (B "/usr/sbin")) -> ensure_init_system false (Some bin) fs = fs).
Proof.
  split_and!.
  - intros Hs. apply (sbin_init_found _ 0); [|lia]. left.
    assert (Hfs : exists fs', ensure_init_system false (Some bin) fs = <[[B "sbin"; B "init"] := File bin]> fs' /\ fs' !! [B "sbin"] = Some Dir).
    { unfold ensure_init_system. destruct Hs as [Hs|Hs]; rewrite Hs.
      - eexists. split; [reflexivity|]. by rewrite lookup_insert_eq.
      - cbn [host_resolve app]. rewrite Hs. eexists. split; [reflexivity|done]. }
    destruct Hfs as (fs' & -> & Hd).
    eapply (walk_entry _ [] (B "sbin")); [rewrite lookup_insert_ne by done; exact Hd|done..|].
    eapply (walk_entry _ [B "sbin"] (B "init")); [by rewrite lookup_insert_eq|done..|]. constructor.
  - intros Hl Hu Hd. apply (sbin_init_found _ 1); [|unfold MAX_LINKS; lia]. right. unfold ensure_init_system. rewrite Hl.
    cbn [host_resolve app]. rewrite Hl. change (is_absolute (B "usr/sbin")) with false. cbn [host_resolve].
    change (parts (B "usr/sbin") ++ []) with [B "usr"; B "sbin"]. cbn [host_resolve app]. rewrite Hu, Hd. cbn [app].
    eapply (WalkLink _ 0 (B "sbin") _ [] _ (B "usr/sbin")); [done|done|rewrite lookup_insert_ne by done; exact Hl|].
    change (is_absolute (B "usr/sbin")) with false. change (parts (B "usr/sbin") ++ [B "init"]) with [B "usr"; B "sbin"; B "init"].
    eapply (walk_entry _ [] (B "usr")); [rewrite lookup_insert_ne by done; exact Hu|done..|].
    eapply (walk_entry _ [B "usr"] (B "sbin")); [rewrite lookup_insert_ne by done; exact Hd|done..|].
    eapply (walk_entry _ [B "usr"; B "sbin"] (B "init")); [by rewrite lookup_insert_eq|done..|]. constructor.
  - intros Hl. unfold ensure_init_system. rewrite Hl. cbn [host_resolve app]. by rewrite Hl.
Qed.
