(* ===== verification/ImageBuilder.v ===== *)
(** * The image of a Workshop

    [crates/image-builder/src/main.rs]: what it reads from a [devcontainer.json], what it
    writes into the image (accounts, environment, certificates), how the image is
    published, and the status it patches.  Parsers of JSON, SHA-256 and the file copies
    are arguments. *)

From S2P Require Import Prelude RustStr Collections F64 Json McpGateway Crd Lifecycle Shell LlmBudget Exec ExecStream Rootfs.

(** ** [devcontainer.json] *)

(** [fn is_plain_absolute_path] and [fn is_plain_user_name]. *)
Definition is_alnum (c : Z) : bool := is_ascii_alphabetic c || is_ascii_digit c.
Definition is_plain_absolute_path (p : bytes) : bool :=
  starts_with p [47] && negb (contains p (B "..")) && forallb (fun c => is_alnum c || (c =? 47) || (c =? 95) || (c =? 46) || (c =? 45)) p.
Definition is_plain_user_name (name : bytes) : bool :=
  negb (is_empty name) && (length name <=? 32)%nat && forallb (fun c => is_alnum c || (c =? 95) || (c =? 46) || (c =? 45)) name.

(** [fn strip_jsonc].  The rest after a block comment, and after a line comment, of which
    the newline is kept. *)
Fixpoint after_block (s : bytes) : bytes :=
  match s with
  | [] => []
  | c :: r => match r with
              | d :: r' => if (c =? 42) && (d =? 47) then r' else after_block r
              | [] => []
              end
  end.
Definition after_line (s : bytes) : bytes := drop_while (fun c => negb (c =? 10)) s.
(** Whether a comma is followed by a closing bracket. *)
Definition closes (rest : bytes) : bool :=
  match trim_start rest with c :: _ => (c =? 125) || (c =? 93) | [] => false end.
Definition starts (c : Z) (s : bytes) : bool := match s with d :: _ => c =? d | [] => false end.
Fixpoint strip_loop (fuel : nat) (in_string : bool) (s : bytes) : bytes :=
  match fuel with
  | O => []
  | S f =>
      match s with
      | [] => []
      | c :: r =>
          if in_string then
            if c =? 92 then match r with d :: r' => c :: d :: strip_loop f true r' | [] => [c] end
            else c :: strip_loop f (negb (c =? 34)) r
          else if c =? 34 then c :: strip_loop f true r
          else if (c =? 47) && starts 47 r then strip_loop f false (after_line s)
          else if (c =? 47) && starts 42 r then strip_loop f false (after_block (drop 1 r))
          else if c =? 44 then if closes r then strip_loop f false r else c :: strip_loop f false r
          else c :: strip_loop f false r
      end
  end.
Definition strip_jsonc (text : bytes) : bytes := strip_loop (S (length text)) false text.

Section session.
(** [serde_json::from_str::<Value>]. *)
Context (parse_json : bytes -> option json).

Definition default_session : SessionConfig := mkConfig None None ∅.

(** [fn parse_session_config]. *)
Definition first_str (keys : list bytes) (j : json) : option bytes := head (omap (fun k => get_str k j) keys).
Definition env_entries (o : list (bytes * json)) : list (bytes * bytes) :=
  omap (fun kv => match kv.2 with JStr v => if contains v (B "${") then None else Some (kv.1, v) | _ => None end) o.
Definition parse_session_config (text : bytes) : SessionConfig :=
  match parse_json (strip_jsonc text) with
  | None => default_session
  | Some config =>
      mkConfig
        (match first_str [B "remoteUser"; B "containerUser"] config with
         | Some name => if is_plain_user_name name then Some name else None
         | None => None
         end)
        (match get_str (B "workspaceFolder") config with
         | Some p => if is_plain_absolute_path p then Some p else None
         | None => None
         end)
        (match jget (B "containerEnv") config with
         | Some (JObj o) => list_to_map (rev (env_entries o))
         | _ => ∅
         end)
  end.

(** [fn read_session_config]: of a file that is read, or not. *)
Definition read_session_config (file : option bytes) : SessionConfig :=
  match file with Some text => parse_session_config text | None => default_session end.
End session.

(** ** Accounts *)

(** [if !s.is_empty() && !s.ends_with('\n') { s.push('\n') }]. *)
Definition with_newline (s : bytes) : bytes := if is_empty s || ends_with s [10] then s else s ++ [10].

Definition has_entry (name content : bytes) : bool := existsb (fun l => bool_decide (head (split 58 l) = Some name)) (lines content).

(** [fn unlock_shadow_password]: [None] when the file cannot be read. *)
Definition unlock_line (prefix line : bytes) : bytes :=
  match strip_prefix (prefix ++ [33]) line with Some rest => prefix ++ [42] ++ rest | None => line end.
Definition unlock_shadow_password (name : bytes) (shadow : option bytes) : option bytes :=
  match shadow with
  | None => None
  | Some shadow =>
      let prefix := name ++ [58] in
      let old := lines shadow in
      let changed := existsb (fun l => starts_with l (prefix ++ [33])) old in
      let new := unlock_line prefix <$> old in
      if negb changed && existsb (fun l => starts_with l prefix) new then Some shadow
      else
        let new := if changed then new else new ++ [prefix ++ B "*:19000:0:99999:7:::"] in
        Some (join [10] new ++ [10])
  end.

(** The three files of the accounts, and [fn ensure_system_user]; an unreadable [passwd] or
    [group] counts as empty. *)
Record accounts := mkAccounts { passwd : option bytes; group : option bytes; shadow : option bytes }.
Definition ensure_system_user (name : bytes) (uid gid : Z) (home shell : bytes) (a : accounts) : accounts :=
  let pw := default [] a.(passwd) in
  let a :=
    if has_entry name pw then a
    else
      let pw := with_newline pw ++ name ++ B ":x:" ++ dec uid ++ B ":" ++ dec gid ++ B ":" ++ name ++ B ":" ++ home ++ B ":" ++ shell ++ [10] in
      let gr := default [] a.(group) in
      mkAccounts (Some pw)
        (if has_entry name gr then a.(group) else Some (with_newline gr ++ name ++ B ":x:" ++ dec gid ++ B ":" ++ [10])) a.(shadow) in
  mkAccounts a.(passwd) a.(group) (unlock_shadow_password name a.(shadow)).

Definition ensure_vscode_user : accounts -> accounts := ensure_system_user (B "vscode") 1000 1000 (B "/home/vscode") (B "/bin/bash").
Definition ensure_sshd_user : accounts -> accounts := ensure_system_user (B "sshd") 101 101 (B "/nonexistent") (B "/usr/sbin/nologin").

(** ** The environment of commands *)

(** [fn render_ssh_environment]. *)
Definition ssh_name_ok (name : bytes) : bool :=
  negb (is_empty name) && forallb (fun c => is_alnum c || (c =? 95)) name
  && match name with c :: _ => negb (is_ascii_digit c) | [] => true end.
Definition unquote (value : bytes) : bytes :=
  match strip_prefix [34] value with
  | Some v => match strip_prefix [34] (rev v) with Some r => rev r | None => value end
  | None => value
  end.
Definition ssh_line (line : bytes) : option bytes :=
  match split_once 61 line with
  | Some (name, value) => if ssh_name_ok name then Some (name ++ [61] ++ unquote value ++ [10]) else None
  | None => None
  end.
Definition render_ssh_environment (environment : bytes) : bytes := concat (omap ssh_line (lines environment)).

(** [fn append_pem_to_bundle_file]: [None] when there is no such file. *)
Definition append_pem_to_bundle_file (bundle : option bytes) (extra_pem : bytes) : option bytes :=
  (fun b => with_newline b ++ extra_pem) <$> bundle.

(** The lines [fn inject_net_proxy_config] adds to [/etc/environment]; [opencode_config] is
    the JSON of its configuration. *)
Definition proxy_lines (port : bytes) : bytes :=
  let url := B "http://169.254.0.1:" ++ port in
  B "HTTP_PROXY=" ++ url ++ [10] ++ B "HTTPS_PROXY=" ++ url ++ [10] ++ B "http_proxy=" ++ url ++ [10] ++ B "https_proxy=" ++ url ++ [10]
  ++ B "NO_PROXY=169.254.0.1,localhost,127.0.0.1" ++ [10] ++ B "no_proxy=169.254.0.1,localhost,127.0.0.1" ++ [10].
Definition llm_lines (token opencode_config : bytes) : bytes :=
  B "ANTHROPIC_BASE_URL=http://llm-proxy" ++ [10] ++ B "ANTHROPIC_AUTH_TOKEN=" ++ token ++ [10] ++ B "ANTHROPIC_API_KEY=" ++ [10]
  ++ B "ATELIER_LLM_PROXY_AUTH_TOKEN=" ++ token ++ [10] ++ B "OPENCODE_CONFIG_CONTENT=" ++ opencode_config ++ [10].
Definition net_proxy_environment (env : string -> option bytes) (opencode_config environment : bytes) : bytes :=
  with_newline environment ++ proxy_lines (default (B "3128") (env "ATELIER_NET_PROXY_PORT"%string))
  ++ match env "ATELIER_LLM_PROXY_AUTH_TOKEN"%string with
     | Some token => if is_empty (trim token) then [] else llm_lines token opencode_config
     | None => []
     end.

(** The lines of [fn inject_enterprise_ca_bundle]; [has_bundle], whether the image has a
    system bundle. *)
Definition ca_lines (has_bundle : bool) : bytes :=
  B "NODE_EXTRA_CA_CERTS=/usr/local/share/ca-certificates/atelier-ca.crt" ++ [10]
  ++ if has_bundle
     then concat ((fun v => v ++ B "=/etc/ssl/certs/ca-certificates.crt" ++ [10]) <$>
            [B "SSL_CERT_FILE"; B "GIT_SSL_CAINFO"; B "CURL_CA_BUNDLE"; B "REQUESTS_CA_BUNDLE"; B "PIP_CERT"])
     else [].

(** ** Names *)

(** [fn workspace_name], [fn authenticated_url], [fn guest_services_from_env]. *)
Definition workspace_name (repo : bytes) : bytes :=
  let name := match rsplit_once 47 repo with Some (_, name) => name | None => repo end in strip_git (length name) name.
Record GitCredentials := mkGit { username : bytes; password : bytes }.
Fixpoint split_scheme (s : bytes) : option (bytes * bytes) :=
  match strip_prefix (B "://") s with
  | Some rest => Some ([], rest)
  | None => match s with
            | [] => None
            | c :: r => match split_scheme r with Some (a, b) => Some (c :: a, b) | None => None end
            end
  end.
Definition authenticated_url (repo : bytes) (credentials : option GitCredentials) : bytes :=
  match credentials with
  | None => repo
  | Some creds =>
      match split_scheme repo with
      | Some (scheme, rest) =>
          if contains rest [64] then repo
          else scheme ++ B "://" ++ creds.(username) ++ B ":" ++ creds.(password) ++ B "@" ++ rest
      | None => repo
      end
  end.
Definition guest_service_wanted (value : bytes) : bool := negb (eq_ignore_ascii_case (trim value) (B "false")).
Definition guest_services_from_env (env : string -> option bytes) : GuestServices :=
  let wanted name := match env name with Some v => guest_service_wanted v | None => true end in
  mkServices (wanted "ATELIER_GUEST_TERMINAL"%string) (wanted "ATELIER_GUEST_IDE"%string).

(** ** The end of the build *)

Definition TERMINATION_MESSAGE_MAX_BYTES : nat := 4096.
(** [fn write_termination_message]: what is written. *)
Fixpoint floor_boundary (s : bytes) (i : nat) : nat :=
  if is_char_boundary s i then i else match i with O => O | S i => floor_boundary s i end.
Definition termination_message (message : bytes) : bytes :=
  take (floor_boundary message (Nat.min (length message) TERMINATION_MESSAGE_MAX_BYTES)) message.

(** The cache: files by digest; [fn publish_to_cache], whose copy may be interrupted after
    some bytes ([Some n]). *)
Abbreviation cache := (gmap bytes bytes).
Definition publish_to_cache (c : cache) (digest content : bytes) (interrupted : option nat) : cache * bool :=
  match c !! digest with
  | Some _ => (c, true)
  | None => match interrupted with
            | None => (<[digest := content]> c, true)
            | Some n => (<[digest := take n content]> c, false)
            end
  end.

(** The end of [fn run]: the check, the image, its digest, its publication and the status. *)
Definition finish_build (sha256 : bytes -> bytes) (fs : rootfs) (image : bytes) (ports : GuestPorts) (session : SessionConfig)
    (c : cache) (interrupted : option nat) : cache * option json :=
  match check_boot_prerequisites fs with
  | Some _ => (c, None)
  | None =>
      let digest := B "sha256:" ++ sha256 image in
      let '(c, ok) := publish_to_cache c digest image interrupted in
      (c, if ok then Some (status_after_build digest ports session.(remote_user) session.(workspace_folder) (btree_iter session.(container_env)))
          else None)
  end.

(** ** Comments and trailing commas *)

(** A text of JSON with comments, as lexemes: strings (as the characters of their body, each
    possibly escaped), the two kinds of comments, and any other character. *)
Inductive lexeme :=
| LStr (body : list (bool * Z))
| LLine (text : bytes)
| LBlock (text : bytes)
| LChar (c : Z).
Definition unit_bytes (u : bool * Z) : bytes := if u.1 then [92; u.2] else [u.2].
Definition render1 (l : lexeme) : bytes :=
  match l with
  | LStr body => [34] ++ (body ≫= unit_bytes) ++ [34]
  | LLine text => [47; 47] ++ text
  | LBlock text => [47; 42] ++ text ++ [42; 47]
  | LChar c => [c]
  end.
Definition render (ls : list lexeme) : bytes := ls ≫= render1.

Fixpoint well_lexed (ls : list lexeme) : Prop :=
  match ls with
  | [] => True
  | l :: r =>
      match l with
      | LStr body => Forall (fun u => u.1 = false -> u.2 <> 34 /\ u.2 <> 92) body
      | LLine text => (10 ∉ text) /\ (render r = [] \/ starts 10 (render r) = true)
      | LBlock text => contains text (B "*/") = false
      | LChar c => c <> 34 /\ (c = 47 -> starts 47 (render r) = false /\ starts 42 (render r) = false)
      end /\ well_lexed r
  end.

(** What is kept: everything but comments and the commas followed, blanks apart, by a
    closing bracket. *)
Fixpoint kept (ls : list lexeme) : bytes :=
  match ls with
  | [] => []
  | LLine _ :: r | LBlock _ :: r => kept r
  | LChar c :: r => if (c =? 44) && closes (render r) then kept r else c :: kept r
  | l :: r => render1 l ++ kept r
  end.


Lemma after_line_length s : (length (after_line s) <= length s)%nat.
Proof. unfold after_line. induction s as [|x l IHl]; cbn; [lia|]. destruct (negb (x =? 10)); cbn; lia. Qed.
Lemma after_block_length s : (length (after_block s) <= length s)%nat.
Proof. induction s as [|x [|y l] IHl]; cbn [after_block length] in *; [lia|lia|]. destruct ((x =? 42) && (y =? 47)); cbn in *; lia. Qed.

Lemma strip_loop_mono f f' b s : (length s < f)%nat -> (length s < f')%nat -> strip_loop f b s = strip_loop f' b s.
Proof.
  revert f' b s. induction f as [|f IH]; intros f' b s Hf Hf'; [lia|]. destruct f' as [|f']; [lia|].
  destruct s as [|c r]; [done|]. cbn [strip_loop length] in *.
  destruct b.
  - destruct (c =? 92); [|f_equal; apply IH; lia]. destruct r as [|d r]; [done|]. do 2 f_equal. cbn in *. apply IH; lia.
  - destruct (c =? 34); [f_equal; apply IH; lia|].
    destruct ((c =? 47) && starts 47 r) eqn:E1.
    { apply andb_true_iff in E1 as [->%Z.eqb_eq E1]. unfold after_line. cbn [drop_while Z.eqb Pos.eqb negb]. fold (after_line r).
      pose proof (after_line_length r). apply IH; lia. }
    destruct ((c =? 47) && starts 42 r) eqn:E2.
    { pose proof (after_block_length (drop 1 r)) as Hab. rewrite length_drop in Hab. apply IH; lia. }
    destruct (c =? 44); [destruct (closes r); [apply IH; lia|]|]; f_equal; apply IH; lia.
Qed.

(** With enough fuel; the loop as equations. *)
Definition strip (b : bool) (s : bytes) : bytes := strip_loop (S (length s)) b s.

Lemma strip_eq b s f : (length s < f)%nat -> strip_loop f b s = strip b s.
Proof. intros H. apply strip_loop_mono; [done|lia]. Qed.

Lemma strip_cons b c r :
  strip b (c :: r) =
  if b then if c =? 92 then match r with d :: r' => c :: d :: strip true r' | [] => [c] end else c :: strip (negb (c =? 34)) r
  else if c =? 34 then c :: strip true r
  else if (c =? 47) && starts 47 r then strip false (after_line r)
  else if (c =? 47) && starts 42 r then strip false (after_block (drop 1 r))
  else if c =? 44 then if closes r then strip false r else c :: strip false r
  else c :: strip false r.
Proof.
  unfold strip at 1. change (strip_loop (S (length (c :: r))) b (c :: r)) with
    (if b then if c =? 92 then match r with d :: r' => c :: d :: strip_loop (length (c :: r)) true r' | [] => [c] end
               else c :: strip_loop (length (c :: r)) (negb (c =? 34)) r
     else if c =? 34 then c :: strip_loop (length (c :: r)) true r
     else if (c =? 47) && starts 47 r then strip_loop (length (c :: r)) false (after_line (c :: r))
     else if (c =? 47) && starts 42 r then strip_loop (length (c :: r)) false (after_block (drop 1 r))
     else if c =? 44 then if closes r then strip_loop (length (c :: r)) false r else c :: strip_loop (length (c :: r)) false r
     else c :: strip_loop (length (c :: r)) false r).
  assert (Hlen : forall b s, (length s <= length r)%nat -> strip_loop (length (c :: r)) b s = strip b s) by (intros; apply strip_eq; cbn; lia).
  assert (Hd : (length (after_block (drop 1 r)) <= length r)%nat) by (pose proof (after_block_length (drop 1 r)) as H; rewrite length_drop in H; lia).
  destruct b.
  - destruct (c =? 92); [|by rewrite Hlen]. destruct r as [|d r]; [done|]. rewrite Hlen; [done|cbn; lia].
  - destruct (c =? 34); [by rewrite Hlen|]. destruct ((c =? 47) && starts 47 r) eqn:E.
    { apply andb_true_iff in E as [->%Z.eqb_eq _]. change (after_line (47 :: r)) with (after_line r). apply Hlen, after_line_length. }
    rewrite (Hlen false r), (Hlen false (after_block (drop 1 r))) by (done || lia). done.
Qed.

Lemma strip_in_string body rest :
  Forall (fun u : bool * Z => u.1 = false -> u.2 <> 34 /\ u.2 <> 92) body ->
  strip true ((body ≫= unit_bytes) ++ 34 :: rest) = (body ≫= unit_bytes) ++ 34 :: strip false rest.
Proof.
  induction 1 as [|[esc c] body Hu _ IH]; [done|]. rewrite bind_cons, <- !app_assoc.
  destruct esc; cbn [unit_bytes fst snd app]; rewrite strip_cons.
  - cbn [Z.eqb Pos.eqb]. by rewrite IH.
  - destruct (Hu eq_refl) as [H1 H2]. cbn [fst snd] in *.
    rewrite (proj2 (Z.eqb_neq c 92) H2), (proj2 (Z.eqb_neq c 34) H1). cbn [negb]. by rewrite IH.
Qed.

Lemma after_line_text text r : 10 ∉ text -> after_line (text ++ r) = after_line r.
Proof.
  unfold after_line. induction text as [|c text IH]; [done|]. intros [Hc Ht]%not_elem_of_cons. cbn [app drop_while].
  rewrite (proj2 (Z.eqb_neq c 10)) by done. by apply IH.
Qed.

Lemma after_block_text text r : contains text (B "*/") = false -> after_block (text ++ 42 :: 47 :: r) = r.
Proof.
  induction text as [|c text IH]; [done|]. cbn [contains]. intros [H1 H2]%orb_false_iff. cbn [app after_block].
  destruct (text ++ 42 :: 47 :: r) as [|d r'] eqn:E; [by destruct text|]. destruct ((c =? 42) && (d =? 47)) eqn:Ec; [|by apply IH].
  apply andb_true_iff in Ec as [->%Z.eqb_eq ->%Z.eqb_eq]. destruct text as [|x text]; [done|]. injection E as -> _.
  apply not_true_iff_false in H1. destruct H1. apply starts_with_true. by exists text.
Qed.

Lemma strip_kept ls : well_lexed ls -> strip false (render ls) = kept ls.
Proof.
  induction ls as [|l ls IH]; [done|]. cbn [well_lexed]. intros [Hl Hls]. specialize (IH Hls).
  assert (Hr : render (l :: ls) = render1 l ++ render ls) by apply bind_cons. rewrite Hr.
  destruct l as [body|text|text|c]; cbn [render1 kept].
  - cbn [app]. rewrite strip_cons. cbn [Z.eqb Pos.eqb]. rewrite <- app_assoc. cbn [app].
    rewrite strip_in_string by done. rewrite IH. by rewrite <- app_assoc.
  - destruct Hl as [Ht Hn]. cbn [app]. rewrite strip_cons. cbn [Z.eqb Pos.eqb andb starts].
    rewrite <- IH. f_equal. change (after_line (47 :: text ++ render ls)) with (after_line (text ++ render ls)).
    rewrite after_line_text by done. destruct (render ls) as [|d r]; [done|]. destruct Hn as [|Hn]; [done|]. cbn [starts] in Hn.
    apply Z.eqb_eq in Hn as <-. done.
  - cbn [app]. rewrite strip_cons. cbn [Z.eqb Pos.eqb andb starts drop]. rewrite <- app_assoc. cbn [app].
    by rewrite drop_0, after_block_text.
  - destruct Hl as [H1 H2]. cbn [app]. rewrite strip_cons. rewrite (proj2 (Z.eqb_neq c 34) H1).
    assert (E1 : (c =? 47) && starts 47 (render ls) = false).
    { destruct (Z.eqb_spec c 47) as [->|]; [|done]. by destruct (H2 eq_refl) as [-> _]. }
    assert (E2 : (c =? 47) && starts 42 (render ls) = false).
    { destruct (Z.eqb_spec c 47) as [->|]; [|done]. by destruct (H2 eq_refl) as [_ ->]. }
    rewrite E1, E2, IH. destruct (c =? 44); cbn [andb]; [|done]. by destruct (closes (render ls)).
Qed.

(** ** The claims *)

(** [strip_jsonc] returns on every text, and makes of a well-formed [devcontainer.json]
    with comments the same text without its comments and without the commas that a closing
    bracket follows, every string untouched whatever it contains. *)
Theorem strip_jsonc_exact ls : well_lexed ls -> strip_jsonc (render ls) = kept ls.
Proof. apply strip_kept. Qed.

Definition toy_jsonc : list lexeme :=
  [LChar 123; LLine (B " a"); LChar 10; LStr [(false, 47); (false, 47); (true, 34)]; LChar 58; LBlock (B "*"); LStr []; LChar 44; LChar 32; LChar 125].

Lemma strip_jsonc_witness :
  strip_jsonc (render toy_jsonc) = [123; 10; 34; 47; 47; 92; 34; 34; 58; 34; 34; 32; 125].
Proof.
  rewrite (strip_jsonc_exact toy_jsonc); [vm_compute; reflexivity|].
  cbn [well_lexed toy_jsonc].
  repeat match goal with
         | |- _ /\ _ => split
         | |- _ <> _ => discriminate
         | |- _ = 47 -> _ => discriminate
         | |- True => exact I
         end.
  - apply (bool_decide_unpack _). vm_compute. exact I.
  - right. vm_compute. reflexivity.
  - constructor; [cbn; lia|]. constructor; [cbn; lia|]. constructor; [cbn; discriminate|constructor].
  - vm_compute. reflexivity.
  - constructor.
Defined.

(** A comma that a comment and then a closing bracket follow is kept: the result is not JSON,
    and the whole file is ignored, where the editor the format comes from accepts it. *)
Lemma comma_before_comment_kept : strip_jsonc (B "[1, /* x */]") = B "[1, ]".
Proof. reflexivity. Qed.

Lemma plain_name c : is_alnum c || (c =? 47) || (c =? 95) || (c =? 46) || (c =? 45) = true -> plain c = true.
Proof.
  intros Hc. unfold is_alnum, is_ascii_alphabetic, is_ascii_digit in Hc. unfold plain, is_blank, is_op, is_special. cbn [existsb].
  repeat match goal with |- context [?a =? ?b] => replace (a =? b) with false by lia end. done.
Qed.

Lemma lex_in_workspace dir command ts :
  dir <> [] -> forallb plain dir = true -> lex None false command = Some ts ->
  lex None false (in_workspace dir command) =
  Some ([Word (B "cd"); Word dir; Word (B "2"); Op 62; Word (B "/dev/null"); Op 124; Op 124; Word (B "true"); Op 59] ++ ts).
Proof.
  intros Hne Hp H. unfold in_workspace. lex_literal. rewrite lex_plain by done. cbn [from_option Datatypes.id app]. lex_literal.
  by rewrite H.
Qed.

(** Whatever a repository's [devcontainer.json] says, and whatever the parser of JSON
    makes of it, the folder and the account the build announces are words without a single
    character the shell gives a meaning to: the [cd] the commands of a session start with,
    which does not quote the folder, goes to that folder and runs nothing else; the values
    of variables are those of the file, with none that is to be expanded. *)
Theorem session_config_safe parse_json text command ts :
  let s := parse_session_config parse_json text in
  (forall dir, s.(workspace_folder) = Some dir -> lex None false command = Some ts ->
     lex None false (in_workspace dir command) =
     Some ([Word (B "cd"); Word dir; Word (B "2"); Op 62; Word (B "/dev/null"); Op 124; Op 124; Word (B "true"); Op 59] ++ ts)) /\
  (forall user, s.(remote_user) = Some user -> user <> [] /\ forallb plain user = true /\ (length user <= 32)%nat) /\
  (forall k v, s.(container_env) !! k = Some v -> contains v (B "${") = false).
Proof.
  intros s. subst s. unfold parse_session_config. destruct (parse_json (strip_jsonc text)) as [config|]; [|by split_and!].
  cbn [workspace_folder remote_user container_env]. split_and!.
  - intros dir. destruct (get_str _ config) as [p|]; [|done]. destruct (is_plain_absolute_path p) eqn:E; [|done]. intros [= <-] H.
    unfold is_plain_absolute_path in E. apply andb_true_iff in E as [[E1 _]%andb_true_iff E2].
    apply lex_in_workspace; [|apply forallb_forall; intros c Hc; apply plain_name; by apply (proj1 (forallb_forall _ _) E2)|done].
    by intros ->.
  - intros user. destruct (first_str _ config) as [n|]; [|done]. destruct (is_plain_user_name n) eqn:E; [|done]. intros [= <-].
    unfold is_plain_user_name in E. apply andb_true_iff in E as [[E1 E2]%andb_true_iff E3]. split_and!.
    + by intros ->.
    + apply forallb_forall. intros c Hc. apply plain_name. apply (proj1 (forallb_forall _ _) E3) in Hc.
      destruct (is_alnum c), (c =? 47), (c =? 95), (c =? 46), (c =? 45); done.
    + by apply Nat.leb_le.
  - intros k v. destruct (jget _ config) as [[| | | | | |o]|]; try (by rewrite lookup_empty).
    intros H%elem_of_list_to_map_2. rewrite list_elem_of_In, <- in_rev, <- list_elem_of_In in H.
    unfold env_entries in H. apply list_elem_of_omap in H as ([k' j] & _ & H). cbn [fst snd] in H.
    destruct j; try done. destruct (contains s (B "${")) eqn:E; [done|]. by injection H as <- <-.
Qed.

(** The directory of the sessions is the one the build made: unless the repository's address
    ends with a slash, which only the sessions ignore. *)

(** The directory the build makes for a repository is the one the sessions of its
    Workshops go to, if the repository's address does not end with a slash; with a final
    slash the build makes [/workspaces/] itself and the sessions go elsewhere. *)
Theorem workspace_agree repo :
  (last repo <> Some 47 -> workspace_dir repo = B "/workspaces/" ++ workspace_name repo) /\
  workspace_name (repo ++ [47]) = [] .
Proof.
  split.
  - intros H. unfold workspace_dir, workspace_name. rewrite trim_end_matches_id; [done|]. intros b Hb.
    apply Z.eqb_neq. intros <-. by apply H.
  - unfold workspace_name. assert (Hs : rsplit_once 47 (repo ++ [47]) = Some (repo, [])).
    { unfold rsplit_once. rewrite rev_app_distr. cbn. by rewrite rev_involutive. }
    by rewrite Hs.
Qed.

(** ** Publication *)

Section publish.
Context (sha256 : bytes -> bytes).
Definition digest_of (image : bytes) : bytes := B "sha256:" ++ sha256 image.
(** Every file of the cache is the one its name says. *)
Definition cache_ok (c : cache) : Prop := forall d content, c !! d = Some content -> d = digest_of content.

(** The status announces an image only after its check and its publication: when the
    cache holds what its names say and no copy is interrupted, the digest announced is that
    of a file of the cache with the content built, or built before with the same digest, and
    the cache still holds what its names say.  But the copy is made in place: interrupted,
    it leaves a truncated file that every later build of the same image takes for
    published, and announces. *)
Theorem published_image fs image ports session c :
  cache_ok c -> check_boot_prerequisites fs = None ->
  (exists c' content, finish_build sha256 fs image ports session c None =
     (c', Some (status_after_build (digest_of image) ports session.(remote_user) session.(workspace_folder) (btree_iter session.(container_env)))) /\
     cache_ok c' /\ c' !! digest_of image = Some content /\ digest_of content = digest_of image) /\
  (forall n c1 c2 st, c !! digest_of image = None ->
     finish_build sha256 fs image ports session c (Some n) = (c1, None) ->
     finish_build sha256 fs image ports session c1 None = (c2, st) ->
     is_Some st /\ c2 !! digest_of image = Some (take n image)).
Proof.
  intros Hc Hb. unfold finish_build. rewrite Hb. fold (digest_of image). split.
  - unfold publish_to_cache. destruct (c !! digest_of image) as [content|] eqn:E.
    + exists c, content. split_and!; [done..|]. symmetry. by apply Hc.
    + eexists _, image. split_and!; [done| |by rewrite lookup_insert_eq|done].
      intros d content [[<- <-]|[_ Hd]]%lookup_insert_Some; [done|by apply Hc].
  - intros n c1 c2 st Hn. unfold publish_to_cache at 1. rewrite Hn. intros [= <-]. unfold publish_to_cache. rewrite lookup_insert_eq.
    intros [= <- <-]. split; [by eexists|by rewrite lookup_insert_eq].
Qed.
End publish.

Definition bootable : rootfs :=
  list_to_map ((fun p => (p, Dir)) <$> [[B "bin"]; [B "bin"; B "bash"]; [B "bin"; B "curl"]; [B "usr"]; [B "usr"; B "bin"]; [B "usr"; B "bin"; B "env"]]).

Lemma published_image_witness :
  exists c content, finish_build id bootable (B "ext4") (reserved default_services) default_session ∅ None =
     (c, Some (status_after_build (digest_of id (B "ext4")) (reserved default_services) None None [])) /\
     cache_ok id c /\ c !! digest_of id (B "ext4") = Some content /\ digest_of id content = digest_of id (B "ext4").
Proof.
  destruct (published_image id bootable (B "ext4") (reserved default_services) default_session ∅) as [H _];
    [intros d content; by rewrite lookup_empty|vm_compute; reflexivity|exact H].
Defined.

(** ** Accounts *)

Lemma starts_with_strip l p : starts_with (strip_cr l) p = true -> starts_with l p = true.
Proof.
  rewrite !starts_with_true. intros [r Hr]. destruct (strip_cr_prefix l) as [r' Hr']. exists (r ++ r'). by rewrite Hr', Hr, app_assoc.
Qed.

Lemma unlock_line_spec prefix l : starts_with (unlock_line prefix l) (prefix ++ [33]) = false.
Proof.
  unfold unlock_line. destruct (strip_prefix (prefix ++ [33]) l) as [rest|] eqn:E.
  - apply not_true_iff_false. rewrite starts_with_true. intros [r Hr]. rewrite <- app_assoc in Hr. apply app_inv_head in Hr. done.
  - unfold starts_with. rewrite E. by apply bool_decide_eq_false_2; intros [? ?].
Qed.

(** The account is in the file, and its password field is no lock. *)
Definition not_locked (name shadow : bytes) : Prop :=
  (exists l, l ∈ lines shadow /\ starts_with l (name ++ [58]) = true) /\
  (forall l, l ∈ lines shadow -> starts_with l (name ++ [58; 33]) = false).

Lemma joined_lines new : new <> [] -> Forall (fun l => 10 ∉ l) new -> lines (join [10] new ++ [10]) = strip_cr <$> new.
Proof. intros Hn Hf. rewrite lines_end, split_join; [done|done|]. by apply Forall_forall. Qed.

Lemma unlock_no_newline prefix l : 10 ∉ prefix -> 10 ∉ l -> 10 ∉ unlock_line prefix l.
Proof.
  intros Hp Hl. unfold unlock_line. destruct (strip_prefix (prefix ++ [33]) l) as [rest|] eqn:E; [|done].
  apply strip_prefix_Some in E as ->. set_solver.
Qed.

Lemma unlock_shadow_ok name shadow shadow' :
  10 ∉ name -> unlock_shadow_password name (Some shadow) = Some shadow' -> not_locked name shadow'.
Proof.
  intros Hn. assert (Hp : 10 ∉ name ++ [58]) by set_solver. unfold unlock_shadow_password, not_locked.
  change (name ++ [58; 33]) with (name ++ ([58] ++ [33])). rewrite (app_assoc name). set (prefix := name ++ [58]) in *.
  set (old := lines shadow). destruct (existsb _ old) eqn:Ec; cbn [negb andb].
  - intros [= <-]. apply existsb_exists in Ec as (l0 & Hl0 & Hs0). rewrite <- list_elem_of_In in Hl0.
    assert (Hls : lines (join [10] (unlock_line prefix <$> old) ++ [10]) = strip_cr <$> (unlock_line prefix <$> old)).
    { apply joined_lines.
      - intros H%fmap_nil_inv. rewrite H in Hl0. set_solver.
      - apply Forall_fmap, Forall_forall. intros l Hl. apply unlock_no_newline; [done|]. by eapply lines_no_newline. }
    rewrite Hls. split.
    + exists (strip_cr (unlock_line prefix l0)). split; [by apply list_elem_of_fmap_2, list_elem_of_fmap_2|].
      apply starts_with_true in Hs0 as [r ->]. unfold unlock_line. rewrite strip_prefix_app.
      destruct (strip_cr_keeps prefix 42 r) as [r' Hr']; [lia|]. cbn [app]. rewrite Hr'. apply starts_with_true. by eexists.
    + intros l (x & -> & (y & -> & Hy)%list_elem_of_fmap)%list_elem_of_fmap. apply not_true_iff_false. intros H%starts_with_strip.
      by rewrite unlock_line_spec in H.
  - assert (Hnone : forall l, l ∈ old -> starts_with l (prefix ++ [33]) = false).
    { intros l Hl. apply not_true_iff_false. intros H. apply not_true_iff_false in Ec. apply Ec, existsb_exists. exists l. by rewrite <- list_elem_of_In. }
    assert (Hid : unlock_line prefix <$> old = old).
    { rewrite <- (list_fmap_id old) at 2. apply list_fmap_ext. intros i l Hl%list_elem_of_lookup_2. specialize (Hnone l Hl).
      unfold unlock_line. unfold starts_with in Hnone. destruct (strip_prefix _ l); [|done]. by rewrite bool_decide_eq_true_2 in Hnone. }
    rewrite Hid. destruct (existsb (fun l => starts_with l prefix) old) eqn:Ee.
    + intros [= <-]. split; [|done]. apply existsb_exists in Ee as (l & Hl & Hs). exists l. by rewrite list_elem_of_In.
    + intros [= <-]. rewrite joined_lines; [|by destruct old|].
      * split.
        -- exists (strip_cr (prefix ++ B "*:19000:0:99999:7:::")). split; [apply list_elem_of_fmap_2; set_solver|].
           destruct (strip_cr_keeps prefix 42 (B ":19000:0:99999:7:::")) as [r' Hr']; [lia|].
           change (B "*:19000:0:99999:7:::") with (42 :: B ":19000:0:99999:7:::"). rewrite Hr'. apply starts_with_true. by eexists.
        -- intros l (x & -> & [Hx|Hx%list_elem_of_singleton]%elem_of_app)%list_elem_of_fmap; apply not_true_iff_false; intros H%starts_with_strip.
           ++ by rewrite Hnone in H.
           ++ subst x. apply starts_with_true in H as [r Hr]. rewrite <- app_assoc in Hr. apply app_inv_head in Hr. done.
      * apply Forall_app. split; [apply Forall_forall; intros l Hl; by eapply lines_no_newline|]. constructor; [|constructor].
        rewrite not_elem_of_app. split; [done|]. apply (bool_decide_unpack _). vm_compute. exact I.
Qed.

Lemma with_newline_ends s : with_newline s = [] \/ exists t, with_newline s = t ++ [10].
Proof.
  unfold with_newline. destruct s as [|c s]; [by left|]. cbn [is_empty orb]. right.
  destruct (ends_with (c :: s) [10]) eqn:E; [by apply ends_with_true in E as [p ->]; exists p|by eexists].
Qed.

(** A line appended to a file whose last line is complete is one of its lines. *)
Lemma appended_line s l : 10 ∉ l -> strip_cr l ∈ lines (with_newline s ++ l ++ [10]).
Proof.
  intros Hl. assert (Hline : lines (l ++ [10]) = [strip_cr l]).
  { rewrite lines_end. unfold split. rewrite split_by_none; [done|]. intros b Hb. apply Z.eqb_neq. set_solver. }
  destruct (with_newline_ends s) as [->|[t ->]]; cbn [app]; [rewrite Hline; set_solver|].
  rewrite <- app_assoc. cbn [app]. rewrite lines_newline, Hline. set_solver.
Qed.

Lemma with_newline_prefix s : exists t, with_newline s = s ++ t.
Proof. unfold with_newline. destruct (_ || _); [exists []; by rewrite app_nil_r|by eexists]. Qed.

Lemma entry_found name rest l : 58 ∉ name -> l = name ++ 58 :: rest ->
  bool_decide (head (split 58 (strip_cr l)) = Some name) = true.
Proof.
  intros Hn ->. destruct (strip_cr_keeps name 58 rest) as [r' ->]; [lia|]. apply bool_decide_eq_true.
  unfold split. rewrite split_by_sep; [done| |lia]. intros b Hb. apply Z.eqb_neq. set_solver.
Qed.

(** After [ensure_system_user], an account can be logged into with a key, whatever the
    base image: it is in [passwd], where every entry there was is still there, and in
    [shadow], if there is one, it has an entry and none of its entries is locked. *)
Theorem account_ready name uid gid home shell a :
  58 ∉ name -> 10 ∉ name -> 10 ∉ home -> 10 ∉ shell -> 0 <= uid -> 0 <= gid ->
  let a' := ensure_system_user name uid gid home shell a in
  has_entry name (default [] a'.(passwd)) = true /\
  (exists t, default [] a'.(passwd) = default [] a.(passwd) ++ t) /\
  (forall s, a'.(shadow) = Some s -> not_locked name s) /\ (is_Some a'.(shadow) <-> is_Some a.(shadow)).
Proof.
  intros Hn Hn' Hh Hs Hu Hg a'.
  assert (Hshadow : a'.(shadow) = unlock_shadow_password name a.(shadow)).
  { subst a'. unfold ensure_system_user. by destruct (has_entry name _). }
  assert (Hpw : a'.(passwd) = a.(passwd) /\ has_entry name (default [] a.(passwd)) = true \/
    a'.(passwd) = Some (with_newline (default [] a.(passwd)) ++ (name ++ 58 :: (B "x:" ++ dec uid ++ B ":" ++ dec gid ++ B ":" ++ name ++ B ":" ++ home ++ B ":" ++ shell)) ++ [10])).
  { subst a'. unfold ensure_system_user. destruct (has_entry name _) eqn:E; [by left|]. right. cbn [passwd]. f_equal. f_equal.
    change (B ":x:") with (58 :: B "x:"). rewrite <- !app_assoc. cbn [app]. rewrite <- !app_assoc. done. }
  split_and!.
  - destruct Hpw as [[-> H]| ->]; [done|]. cbn [from_option Datatypes.id]. unfold has_entry. apply existsb_exists.
    eexists. rewrite <- list_elem_of_In. split; [apply appended_line|].
    + assert (Hd : forall n, 0 <= n -> 10 ∉ dec n) by (intros n H0; apply dec_no_sep; [done|lia]).
      pose proof (Hd uid Hu). pose proof (Hd gid Hg). rewrite not_elem_of_app, not_elem_of_cons, !not_elem_of_app.
      split_and!; try done; apply (bool_decide_unpack _); vm_compute; exact I.
    + by eapply entry_found.
  - destruct Hpw as [[-> _]| ->]; [exists []; by rewrite app_nil_r|]. cbn [from_option Datatypes.id].
    destruct (with_newline_prefix (default [] a.(passwd))) as [t ->]. rewrite <- app_assoc. by eexists.
  - intros s Hss. rewrite Hshadow in Hss. destruct a.(shadow) as [sh|]; [|done]. by eapply unlock_shadow_ok.
  - rewrite Hshadow. unfold unlock_shadow_password. destruct a.(shadow); [|done]. split; [by eexists|]. intros _.
    destruct (_ && _); by eexists.
Qed.

Definition toy_accounts : accounts := mkAccounts (Some (B "root:x:0:0:root:/root:/bin/bash")) None (Some (B "vscode:!:1::::::" ++ [10])).

Lemma account_ready_witness :
  has_entry (B "vscode") (default [] (ensure_vscode_user toy_accounts).(passwd)) = true /\
  (forall s, (ensure_vscode_user toy_accounts).(shadow) = Some s -> not_locked (B "vscode") s).
Proof.
  destruct (account_ready (B "vscode") 1000 1000 (B "/home/vscode") (B "/bin/bash") toy_accounts) as (H1 & _ & H3 & _);
    [apply (bool_decide_unpack _); vm_compute; exact I|apply (bool_decide_unpack _); vm_compute; exact I
    |apply (bool_decide_unpack _); vm_compute; exact I|apply (bool_decide_unpack _); vm_compute; exact I|lia|lia|].
  split; [exact H1|exact H3].
Defined.

(** ** The status *)

Lemma assoc_fmap_str k (env : list (bytes * bytes)) : assoc k ((fun kv => (kv.1, JStr kv.2)) <$> env) = JStr <$> assoc k env.
Proof. induction env as [|[x v] env IH]; [done|]. cbn. destruct (beq k x); [done|]. apply IH. Qed.

(** The variables of a session are those of the last build only if it has none: in the
    merge patch the build sends, an object is merged and not replaced, so a variable that a
    [devcontainer.json] no longer has stays in the status of the Workshop, and in every
    command of its sessions. *)
Theorem stale_variable_survives `{!MergePatch} digest ports user folder env stored k v :
  env <> [] -> NoDup env.*1 -> assoc k env = None ->
  ((jget (B "session") stored ≫= jget (B "containerEnv")) ≫= jget k) = Some v ->
  ((jget (B "session") (merge_patch (status_after_build digest ports user folder env) stored) ≫= jget (B "containerEnv")) ≫= jget k) = Some v.
Proof.
  intros He Hnd Hk Hv. destruct (jget (B "session") stored) as [sess|] eqn:E1; [|done]. cbn [mbind option_bind] in Hv.
  destruct (jget (B "containerEnv") sess) as [old|] eqn:E2; [|done]. cbn [mbind option_bind] in Hv.
  unfold status_after_build. rewrite merge_object; [|by apply (build_keys_nodup digest ports user folder env)].
  assoc_lit. rewrite E1. cbn [merged_field from_option Datatypes.id mbind option_bind].
  rewrite merge_object; [|cbn; apply (bool_decide_unpack _); vm_compute; exact I].
  assoc_lit. rewrite E2, bool_decide_eq_false_2 by done. cbn [merged_field from_option Datatypes.id mbind option_bind].
  rewrite merge_object by (rewrite <- list_fmap_compose; by apply Hnd). by rewrite assoc_fmap_str, Hk.
Qed.

Lemma stale_variable_witness :
  let stored := merge_patch (status_after_build (B "d1") (reserved default_services) None None [(B "OLD", B "1")]) JNull in
  ((jget (B "session") (merge_patch (status_after_build (B "d2") (reserved default_services) None None [(B "NEW", B "2")]) stored)
     ≫= jget (B "containerEnv")) ≫= jget (B "OLD")) = Some (JStr (B "1")).
Proof.
  intros stored. apply (stale_variable_survives (B "d2") (reserved default_services) None None [(B "NEW", B "2")] stored);
    [discriminate|apply NoDup_singleton|vm_compute; reflexivity|vm_compute; reflexivity].
Defined.

(** ** The environment of commands *)

Lemma lines_after s r l : l ∈ lines r -> l ∈ lines (with_newline s ++ r).
Proof.
  intros Hl. destruct (with_newline_ends s) as [->|[t ->]]; [done|]. rewrite <- app_assoc. cbn [app]. rewrite lines_newline. set_solver.
Qed.

Lemma lines_cons l r : 10 ∉ l -> lines (l ++ [10] ++ r) = strip_cr l :: lines r.
Proof.
  intros Hl. cbn [app]. rewrite lines_newline. unfold split. rewrite split_by_none; [done|]. intros b Hb. apply Z.eqb_neq. set_solver.
Qed.

Lemma strip_cr_id s : last s <> Some 13 -> strip_cr s = s.
Proof.
  destruct s as [|c s _] using rev_ind; [done|]. rewrite last_snoc, strip_cr_snoc. intros H.
  by destruct (Z.eqb_spec c 13) as [->|].
Qed.

Lemma unquote_spec v : unquote v = v \/ v = [34] ++ unquote v ++ [34].
Proof.
  unfold unquote. destruct (strip_prefix [34] v) as [w|] eqn:E; [|by left]. apply strip_prefix_Some in E as ->.
  destruct (strip_prefix [34] (rev w)) as [r|] eqn:E; [|by left]. apply strip_prefix_Some in E. right. f_equal.
  rewrite <- (rev_involutive w), E. done.
Qed.

Lemma ssh_line_plain name c r : ssh_name_ok name = true -> 61 ∉ name -> c <> 34 ->
  ssh_line (name ++ [61] ++ c :: r) = Some (name ++ [61] ++ (c :: r) ++ [10]).
Proof.
  intros Hn H61 Hc. unfold ssh_line. cbn [app]. rewrite split_once_app, Hn by done. unfold unquote. cbn [strip_prefix].
  by rewrite (proj2 (Z.eqb_neq 34 c)) by done.
Qed.

(** The environment [sshd] gives to commands: every assignment of [/etc/environment]
    whose name is one of a variable, with its value as it is, or without the quotes around
    it, and nothing else; the proxies are among them, so a command of a session finds the
    way out of the microVM. *)
Theorem ssh_environment_spec env opencode_config environment :
  let text := net_proxy_environment env opencode_config environment in
  let port := default (B "3128") (env "ATELIER_NET_PROXY_PORT"%string) in
  (forall l, l ∈ omap ssh_line (lines text) ->
     exists name value raw, l = name ++ [61] ++ value ++ [10] /\ ssh_name_ok name = true /\ (name ++ [61] ++ raw) ∈ lines text /\
       (value = raw \/ raw = [34] ++ value ++ [34])) /\
  (10 ∉ port -> last port <> Some 13 ->
   Forall (fun name => (name ++ B "=http://169.254.0.1:" ++ port ++ [10]) ∈ omap ssh_line (lines text))
     [B "HTTP_PROXY"; B "HTTPS_PROXY"; B "http_proxy"; B "https_proxy"]).
Proof.
  intros text port. split.
  - intros l (line & Hl & Hs)%list_elem_of_omap. unfold ssh_line in Hs. destruct (split_once 61 line) as [[name raw]|] eqn:E; [|done].
    apply split_once_Some in E as [-> _]. destruct (ssh_name_ok name) eqn:En; [|done]. injection Hs as <-.
    exists name, (unquote raw), raw. split_and!; [done..|]. destruct (unquote_spec raw); [by left|by right].
  - intros H10 H13. set (url := B "http://169.254.0.1:" ++ port).
    assert (Hu : 10 ∉ url) by (unfold url; rewrite not_elem_of_app; split; [apply (bool_decide_unpack _); vm_compute; exact I|done]).
    assert (Hlast : forall name, strip_cr (name ++ [61] ++ url) = name ++ [61] ++ url).
    { intros name. apply strip_cr_id. unfold url. rewrite !last_app. destruct (last port); [done|]. vm_compute. congruence. }
    assert (Hline : forall name r, 10 ∉ name -> lines (name ++ [61] ++ url ++ [10] ++ r) = (name ++ [61] ++ url) :: lines r).
    { intros name r Hn. rewrite <- (Hlast name), <- lines_cons by set_solver. by rewrite <- !app_assoc. }
    assert (Hlines : forall name, name ∈ [B "HTTP_PROXY"; B "HTTPS_PROXY"; B "http_proxy"; B "https_proxy"] -> (name ++ [61] ++ url) ∈ lines text).
    { intros name Hn. apply lines_after. unfold proxy_lines. fold port. fold url.
      change (B "HTTP_PROXY=") with (B "HTTP_PROXY" ++ [61]). change (B "HTTPS_PROXY=") with (B "HTTPS_PROXY" ++ [61]).
      change (B "http_proxy=") with (B "http_proxy" ++ [61]). change (B "https_proxy=") with (B "https_proxy" ++ [61]).
      repeat rewrite <- app_assoc.
      do 4 (rewrite Hline by (apply (bool_decide_unpack _); vm_compute; exact I)).
      rewrite !elem_of_cons in Hn |- *. destruct Hn as [->|[->|[->|[->|[]%elem_of_nil]]]]; tauto. }
    apply Forall_forall. intros name Hn. apply list_elem_of_omap. exists (name ++ [61] ++ url). split; [by apply Hlines|].
    change url with (104 :: (B "ttp://169.254.0.1:" ++ port)). rewrite ssh_line_plain; [|..|done].
    + done.
    + repeat (apply elem_of_cons in Hn as [->|Hn]; [by vm_compute|]). by apply elem_of_nil in Hn.
    + repeat (apply elem_of_cons in Hn as [->|Hn]; [apply (bool_decide_unpack _); vm_compute; exact I|]). by apply elem_of_nil in Hn.
Qed.
