(* ===== verification/BuilderVm.v ===== *)
(** * The microVM that builds an image

    [crates/image-builder/src/main.rs], from [build_via_microvm] to [image_ref_for_guest],
    and [crates/builder-vm-init/src/main.rs], the process 1 of that microVM: the host writes
    what is to be built on the command line of the guest's kernel, the guest reads it back,
    sets its network up, runs [envbuilder] and restarts, which the host waits for. *)

From S2P Require Import Prelude RustStr Json Crd PodSpec VmSupervisor Firewall ImageBuilder.

(** ** The host *)

(** [Path::components] from the back: separators and [.] at the end are no components,
    except for the first of the path. *)
Fixpoint drop_back (l : list bytes) : list bytes :=
  match l with
  | c :: ((_ :: _) as rest) => if is_empty c || beq c (B ".") then drop_back rest else l
  | _ => l
  end.
(** [Path::file_name]. *)
Definition file_name (p : bytes) : option bytes :=
  match drop_back (rev (split 47 p)) with
  | c :: _ => if is_empty c || beq c (B ".") || beq c (B "..") then None else Some c
  | [] => None
  end.
(** [Path::parent]. *)
Definition parent (p : bytes) : option bytes :=
  match drop_back (rev (split 47 p)) with
  | c :: rest =>
      if is_empty c then None
      else match rest with
           | [] => Some []
           | _ => match drop_back rest with
                  | [[]] => Some [47]
                  | rest => Some (join [47] (rev rest))
                  end
           end
  | [] => None
  end.

(** [str::parse::<Ipv4Addr>]: four decimal octets without leading zeros. *)
Definition parse_octet (s : bytes) : option Z :=
  match s with
  | [] => None
  | c :: r =>
      if (3 <? length s)%nat || negb (forallb is_ascii_digit s) || ((c =? 48) && negb (is_empty r)) then None
      else from_str_radix 10 255 s
  end.
Definition parse_ipv4 (s : bytes) : option (Z * Z * Z * Z) :=
  match split 46 s with
  | [a; b; c; d] =>
      match parse_octet a, parse_octet b, parse_octet c, parse_octet d with
      | Some a, Some b, Some c, Some d => Some (a, b, c, d)
      | _, _, _, _ => None
      end
  | _ => None
  end.

(** [fn image_ref_for_guest].  The host is what precedes the first colon: it holds none, so
    that of the two kinds of [IpAddr] it can only be an IPv4 address. *)
Definition is_loopback (host : bytes) : bool :=
  beq host (B "localhost") || match parse_ipv4 host with Some (a, _, _, _) => a =? 127 | None => false end.
Definition without_loopback (image_ref host_port path : bytes) (host_ip : Z * Z * Z * Z) : bytes :=
  let '(host, port) := match split_once 58 host_port with Some (h, p) => (h, Some p) | None => (host_port, None) end in
  if negb (is_loopback host) then image_ref
  else match port with
       | Some port => show_ip host_ip ++ B ":" ++ port ++ B "/" ++ path
       | None => show_ip host_ip ++ B "/" ++ path
       end.
Definition image_ref_for_guest (env : string -> option bytes) (image_ref : bytes) (host_ip : Z * Z * Z * Z) : bytes :=
  match split_once 47 image_ref with
  | None => image_ref
  | Some (host_port, path) =>
      match env "ATELIER_BUILDER_REGISTRY_ALIAS"%string with
      | Some alias =>
          if is_empty (trim alias) then without_loopback image_ref host_port path host_ip
          else alias ++ B "/" ++ path
      | None => without_loopback image_ref host_port path host_ip
      end
  end.

(** [struct RunBuilderVmArgs], what of it goes on the command line. *)
Record RunBuilderVmArgs := mkArgs {
  ra_source : DevcontainerSource;
  ra_devcontainer_dir : option bytes;
  ra_devcontainer_json_filename : bytes;
  ra_image_ref : bytes;
  ra_registry_insecure : bool;
  ra_net_proxy_port : bytes;
  ra_network : NetworkSetup;
  ra_git_credentials : option GitCredentials }.

Definition git_url_of (repo revision : bytes) : bytes :=
  if is_empty revision || beq revision (B "HEAD") then repo else repo ++ B "#" ++ revision.
Definition show_bool (b : bool) : bytes := if b then B "true" else B "false".

(** The [boot_args] of [fn run_builder_vm]. *)
Definition boot_args (a : RunBuilderVmArgs) : bytes :=
  B "console=ttyS0 reboot=k panic=1 pci=off init=/sbin/atelier-builder-vm-init atelier.repo="
  ++ git_url_of a.(ra_source).(repo) a.(ra_source).(revision)
  ++ B " atelier.devcontainer_json_filename=" ++ a.(ra_devcontainer_json_filename)
  ++ B " atelier.image_ref=" ++ a.(ra_image_ref)
  ++ B " atelier.registry_insecure=" ++ show_bool a.(ra_registry_insecure)
  ++ B " atelier.guest_ip=" ++ show_ip a.(ra_network).(guest_ip)
  ++ B " atelier.host_ip=" ++ show_ip a.(ra_network).(host_ip)
  ++ B " atelier.prefix=" ++ dec a.(ra_network).(network_length)
  ++ B " atelier.net_proxy_port=" ++ a.(ra_net_proxy_port)
  ++ (match a.(ra_devcontainer_dir) with Some d => B " atelier.devcontainer_dir=" ++ d | None => [] end)
  ++ match a.(ra_git_credentials) with
     | Some c => B " atelier.git_username=" ++ c.(username) ++ B " atelier.git_password=" ++ c.(password)
     | None => []
     end.

(** What [fn build_via_microvm] passes to it; [None] when the path names no file, or the
    port of net-proxy is none. *)
Definition builder_vm_args (env : string -> option bytes) (source : DevcontainerSource) (image_ref : bytes)
    (registry_insecure : bool) (network : NetworkSetup) (credentials : option GitCredentials) : option RunBuilderVmArgs :=
  let net_proxy_port := default (B "3128") (env "ATELIER_BUILDER_NET_PROXY_PORT"%string) in
  match file_name source.(config_path), parse_u16 net_proxy_port with
  | Some file, Some _ =>
      let dir := match parent source.(config_path) with Some d => if is_empty d then None else Some d | None => None end in
      Some (mkArgs source dir file (image_ref_for_guest env image_ref network.(host_ip)) registry_insecure
              net_proxy_port network credentials)
  | _, _ => None
  end.

(** The end of [fn run_builder_vm]: the polls, each with the instant of the test of the
    deadline; [None], still waiting after these polls. *)
Inductive vm_state := VmRunning | VmStopped | VmUnknown.
Fixpoint wait_builder_vm (deadline : Z) (polls : list (Z * vm_state)) : option (res unit) :=
  match polls with
  | [] => None
  | (now, st) :: polls =>
      if negb (now <? deadline) then Some (Err "la microVM builder ne s'est pas eteinte a temps (build trop long ou echec silencieux)")
      else match st with
           | VmRunning => wait_builder_vm deadline polls
           | VmStopped | VmUnknown => Some (Ok tt)
           end
  end.

(** ** The guest *)

(** [fn parse_cmdline_params], of the text of [/proc/cmdline]. *)
Definition cmdline_param (token : bytes) : option (bytes * bytes) := strip_prefix (B "atelier.") token ≫= (fun rest => split_once 61 rest).
Definition parse_cmdline_params (cmdline : bytes) : gmap bytes bytes :=
  foldl (fun params kv => <[kv.1 := kv.2]> params) ∅ (omap cmdline_param (split_whitespace cmdline)).

(** [fn require]. *)
Definition require (params : gmap bytes bytes) (key : bytes) : res bytes :=
  match params !! key with Some v => Ok v | None => Err "parametre de boot manquant" end.

(** What the guest does: mounts, commands, [envbuilder] with the variables it is given, and
    the restart. *)
Inductive guest_event :=
| Mount (target : bytes)
| Run (argv : list bytes)
| Envbuilder (vars : list (bytes * bytes))
| Reboot.

(** [fn configure_network]: its commands. *)
Definition network_commands (params : gmap bytes bytes) : res (list guest_event) :=
  guest_ip ← require params (B "guest_ip");
  prefix ← require params (B "prefix");
  host_ip ← require params (B "host_ip");
  Ok [Run [B "ip"; B "link"; B "set"; B "lo"; B "up"];
      Run [B "ip"; B "addr"; B "add"; guest_ip ++ B "/" ++ prefix; B "dev"; B "eth0"];
      Run [B "ip"; B "link"; B "set"; B "eth0"; B "up"];
      Run [B "ip"; B "route"; B "add"; B "default"; B "via"; host_ip]].

(** [fn net_proxy_url]. *)
Definition net_proxy_url (params : gmap bytes bytes) : res bytes :=
  host_ip ← require params (B "host_ip");
  Ok (B "http://" ++ host_ip ++ B ":" ++ default (B "3128") (params !! B "net_proxy_port")).

(** [image_ref.rsplit_once(':')], without what follows. *)
Definition cache_repo_of (image_ref : bytes) : bytes :=
  match rsplit_once 58 image_ref with Some (repo, _) => repo | None => image_ref end.

(** [fn run_envbuilder]: the variables [envbuilder] is given. *)
Definition opt_var (name : bytes) (v : option bytes) : list (bytes * bytes) := match v with Some v => [(name, v)] | None => [] end.
Definition non_empty (v : option bytes) : option bytes := match v with Some v => if is_empty v then None else Some v | None => None end.
Definition envbuilder_vars (params : gmap bytes bytes) : res (list (bytes * bytes)) :=
  repo ← require params (B "repo");
  let revision := default (B "HEAD") (params !! B "revision") in
  devcontainer_json_filename ← require params (B "devcontainer_json_filename");
  image_ref ← require params (B "image_ref");
  let registry_insecure := match params !! B "registry_insecure" with Some v => beq v (B "true") | None => false end in
  proxy_url ← net_proxy_url params;
  Ok ([(B "KANIKO_DIR", B "/.envbuilder");
       (B "ENVBUILDER_GIT_URL", git_url_of repo revision);
       (B "ENVBUILDER_DEVCONTAINER_JSON_PATH", devcontainer_json_filename);
       (B "ENVBUILDER_PUSH_IMAGE", B "true");
       (B "ENVBUILDER_CACHE_REPO", cache_repo_of image_ref);
       (B "ENVBUILDER_EXIT_ON_BUILD_FAILURE", B "true");
       (B "ENVBUILDER_INIT_COMMAND", B "/bin/true");
       (B "ENVBUILDER_INSECURE", show_bool registry_insecure);
       (B "HTTP_PROXY", proxy_url); (B "HTTPS_PROXY", proxy_url); (B "http_proxy", proxy_url); (B "https_proxy", proxy_url)]
      ++ opt_var (B "ENVBUILDER_DEVCONTAINER_DIR") (non_empty (params !! B "devcontainer_dir"))
      ++ opt_var (B "ENVBUILDER_GIT_USERNAME") (params !! B "git_username")
      ++ opt_var (B "ENVBUILDER_GIT_PASSWORD") (params !! B "git_password")).

(** [?] after each of a sequence of commands; [succeeds] says which do. *)
Fixpoint run_seq (succeeds : guest_event -> bool) (l : list guest_event) : list guest_event * bool :=
  match l with
  | [] => ([], true)
  | e :: l => if succeeds e then prod_map (cons e) id (run_seq succeeds l) else ([e], false)
  end.

(** [fn run], and [fn main], which restarts whatever happened. *)
Definition guest_run (succeeds : guest_event -> bool) (cmdline : bytes) : list guest_event * bool :=
  let '(mounts, ok) := run_seq succeeds [Mount (B "/proc"); Mount (B "/sys")] in
  if negb ok then (mounts, false) else
  let params := parse_cmdline_params cmdline in
  match network_commands params with
  | Ok commands =>
      let '(net, ok) := run_seq succeeds commands in
      if negb ok then (mounts ++ net, false) else
      match envbuilder_vars params with
      | Ok vars => prod_map (fun l => mounts ++ net ++ l) id (run_seq succeeds [Envbuilder vars])
      | _ => (mounts ++ net, false)
      end
  | _ => (mounts, false)
  end.
Definition guest_main (succeeds : guest_event -> bool) (cmdline : bytes) : list guest_event :=
  (guest_run succeeds cmdline).1 ++ [Reboot].

(** ** The build *)

(** The middle of [fn run] of the image builder: the microVM builds and pushes, if it does
    ([pushed]), and once it has stopped what the registry holds under the name of the image
    is exported. *)
Definition build_and_export (registry : gmap bytes bytes) (image_ref : bytes) (pushed : option bytes)
    (deadline : Z) (polls : list (Z * vm_state)) : gmap bytes bytes * option (res bytes) :=
  let registry := match pushed with Some image => <[image_ref := image]> registry | None => registry end in
  (registry,
   match wait_builder_vm deadline polls with
   | Some (Ok _) => Some (match registry !! image_ref with Some image => Ok image | None => Err "crane export a echoue" end)
   | Some (Err e) => Some (Err e)
   | Some Panic => Some Panic
   | None => None
   end).

(** ** What is built *)

Lemma spaceless_key k v : printable k -> spaceless v -> spaceless (k ++ v).
Proof.
  intros Hk Hv. induction Hk as [|b k Hb _ IH]; [done|]. intros [|c p] x q Heq Hx.
  - cbn in Heq. destruct x as [|c x]; [by apply list_elem_of_In in Hx; vm_compute in Hx; repeat destruct Hx as [Hx|Hx]|].
    injection Heq as <- _. apply (white_space_bytes _ b Hx); [set_solver|done].
  - injection Heq as _ Heq. by apply (IH p x q).
Qed.

Lemma spaceless_printable k : printable k -> spaceless k.
Proof. intros Hk. rewrite <- (app_nil_r k). apply spaceless_key; [done|]. by apply spacelessb_spec. Qed.

Definition ip_ok (ip : Z * Z * Z * Z) : Prop := let '(a, b, c, d) := ip in 0 <= a /\ 0 <= b /\ 0 <= c /\ 0 <= d.

Lemma printable_ip ip : ip_ok ip -> printable (show_ip ip).
Proof.
  destruct ip as [[[a b] c] d]. intros (Ha & Hb & Hc & Hd). unfold printable, show_ip. repeat rewrite Forall_app.
  split_and!; try (by apply printable_dec); apply (bool_decide_unpack _); vm_compute; exact I.
Qed.

(** The values of the arguments hold no white space. *)
Record args_ok (a : RunBuilderVmArgs) : Prop := {
  ao_url : spaceless (git_url_of a.(ra_source).(repo) a.(ra_source).(revision));
  ao_file : spaceless a.(ra_devcontainer_json_filename);
  ao_dir d : a.(ra_devcontainer_dir) = Some d -> spaceless d /\ d <> [];
  ao_image : spaceless a.(ra_image_ref);
  ao_port : spaceless a.(ra_net_proxy_port);
  ao_guest : ip_ok a.(ra_network).(guest_ip);
  ao_host : ip_ok a.(ra_network).(host_ip);
  ao_len : 0 <= a.(ra_network).(network_length);
  ao_creds c : a.(ra_git_credentials) = Some c -> spaceless c.(username) /\ spaceless c.(password) }.

(** The words of the command line. *)
Definition param_words (a : RunBuilderVmArgs) : list bytes :=
  [B "atelier.repo=" ++ git_url_of a.(ra_source).(repo) a.(ra_source).(revision);
   B "atelier.devcontainer_json_filename=" ++ a.(ra_devcontainer_json_filename);
   B "atelier.image_ref=" ++ a.(ra_image_ref);
   B "atelier.registry_insecure=" ++ show_bool a.(ra_registry_insecure);
   B "atelier.guest_ip=" ++ show_ip a.(ra_network).(guest_ip);
   B "atelier.host_ip=" ++ show_ip a.(ra_network).(host_ip);
   B "atelier.prefix=" ++ dec a.(ra_network).(network_length);
   B "atelier.net_proxy_port=" ++ a.(ra_net_proxy_port)]
  ++ (match a.(ra_devcontainer_dir) with Some d => [B "atelier.devcontainer_dir=" ++ d] | None => [] end)
  ++ match a.(ra_git_credentials) with
     | Some c => [B "atelier.git_username=" ++ c.(username); B "atelier.git_password=" ++ c.(password)]
     | None => []
     end.
Definition kernel_words : list bytes :=
  [B "console=ttyS0"; B "reboot=k"; B "panic=1"; B "pci=off"; B "init=/sbin/atelier-builder-vm-init"].

Lemma boot_args_words a : boot_args a = join [32] (kernel_words ++ param_words a).
Proof.
  unfold boot_args, param_words.
  generalize (git_url_of (repo (ra_source a)) (revision (ra_source a))) (show_ip (guest_ip (ra_network a))) (show_ip (host_ip (ra_network a)))
    (dec (network_length (ra_network a))) (show_bool (ra_registry_insecure a)).
  intros. destruct (ra_devcontainer_dir a), (ra_git_credentials a); cbn [app join]; rewrite ?app_nil_r; reflexivity.
Qed.

Lemma word_ok k v : printable k -> k <> [] -> spaceless v -> spaceless (k ++ v) /\ k ++ v <> [].
Proof. intros Hk Hne Hv. split; [by apply spaceless_key|by destruct k]. Qed.

Lemma boot_words_ok a : args_ok a -> Forall (fun w => spaceless w /\ w <> []) (kernel_words ++ param_words a).
Proof.
  intros [Hurl Hfile Hdir Himg Hport Hg Hh Hl Hc].
  assert (Hlit : forall k, forallb (fun b => (33 <=? b) && (b <? 127)) k = true -> printable k).
  { intros k Hk. rewrite forallb_forall in Hk. apply Forall_forall. intros b Hb%list_elem_of_In. specialize (Hk b Hb). lia. }
  apply Forall_app. split.
  - repeat constructor; try done; apply spaceless_printable, Hlit; vm_compute; reflexivity.
  - unfold param_words. repeat rewrite Forall_app. split_and!.
    + repeat apply Forall_cons_2; try apply Forall_nil_2; apply word_ok; try done; try (apply Hlit; vm_compute; reflexivity).
      * by destruct (ra_registry_insecure a); apply spacelessb_spec; vm_compute.
      * by apply spaceless_printable, printable_ip.
      * by apply spaceless_printable, printable_ip.
      * by apply spaceless_printable, printable_dec.
    + destruct (ra_devcontainer_dir a) as [d|]; [|constructor]. repeat constructor; apply word_ok; try done; try (apply Hlit; vm_compute; reflexivity);
        by apply Hdir.
    + destruct (ra_git_credentials a) as [c|]; [|constructor]. destruct (Hc c eq_refl) as [H1 H2].
      repeat constructor; apply word_ok; try done; apply Hlit; vm_compute; reflexivity.
Qed.

(** What [envbuilder] should be given. *)
Definition wanted_vars (a : RunBuilderVmArgs) : list (bytes * bytes) :=
  let proxy := B "http://" ++ show_ip a.(ra_network).(host_ip) ++ B ":" ++ a.(ra_net_proxy_port) in
  [(B "KANIKO_DIR", B "/.envbuilder");
   (B "ENVBUILDER_GIT_URL", git_url_of a.(ra_source).(repo) a.(ra_source).(revision));
   (B "ENVBUILDER_DEVCONTAINER_JSON_PATH", a.(ra_devcontainer_json_filename));
   (B "ENVBUILDER_PUSH_IMAGE", B "true");
   (B "ENVBUILDER_CACHE_REPO", cache_repo_of a.(ra_image_ref));
   (B "ENVBUILDER_EXIT_ON_BUILD_FAILURE", B "true");
   (B "ENVBUILDER_INIT_COMMAND", B "/bin/true");
   (B "ENVBUILDER_INSECURE", show_bool a.(ra_registry_insecure));
   (B "HTTP_PROXY", proxy); (B "HTTPS_PROXY", proxy); (B "http_proxy", proxy); (B "https_proxy", proxy)]
  ++ opt_var (B "ENVBUILDER_DEVCONTAINER_DIR") a.(ra_devcontainer_dir)
  ++ opt_var (B "ENVBUILDER_GIT_USERNAME") (username <$> a.(ra_git_credentials))
  ++ opt_var (B "ENVBUILDER_GIT_PASSWORD") (password <$> a.(ra_git_credentials)).

(** The parameters the guest reads are those of the words of the host. *)
Lemma params_of_words a extra :
  args_ok a -> Forall (fun w => cmdline_param w = None) (split_whitespace extra) ->
  parse_cmdline_params (boot_args a ++ 32 :: extra) =
  foldl (fun params kv => <[kv.1 := kv.2]> params) ∅ (omap cmdline_param (param_words a)).
Proof.
  intros Ha Hx. unfold parse_cmdline_params. rewrite boot_args_words, split_whitespace_join by first [by apply boot_words_ok|done].
  rewrite !omap_app. assert (omap cmdline_param (split_whitespace extra) = []) as ->.
  { induction Hx as [|w ws Hw _ IH]; [done|]. cbn [omap list_omap]. by rewrite Hw. }
  by rewrite app_nil_r.
Qed.

Lemma guest_builds a extra :
  args_ok a -> Forall (fun w => cmdline_param w = None) (split_whitespace extra) ->
  guest_run (fun _ => true) (boot_args a ++ 32 :: extra) =
  ([Mount (B "/proc"); Mount (B "/sys"); Run [B "ip"; B "link"; B "set"; B "lo"; B "up"];
    Run [B "ip"; B "addr"; B "add"; show_ip a.(ra_network).(guest_ip) ++ B "/" ++ dec a.(ra_network).(network_length); B "dev"; B "eth0"];
    Run [B "ip"; B "link"; B "set"; B "eth0"; B "up"];
    Run [B "ip"; B "route"; B "add"; B "default"; B "via"; show_ip a.(ra_network).(host_ip)];
    Envbuilder (wanted_vars a)], true).
Proof.
  intros Ha Hx. unfold guest_run. rewrite params_of_words by done. destruct Ha as [_ _ Hdir _ _ _ _ _ _].
  unfold param_words, wanted_vars. revert Hdir.
  generalize (git_url_of (repo (ra_source a)) (revision (ra_source a))) (show_ip (guest_ip (ra_network a))) (show_ip (host_ip (ra_network a)))
    (dec (network_length (ra_network a))).
  intros u g h l Hdir. destruct a as [? dir file img ins port ? creds].
  cbn [ra_devcontainer_dir ra_git_credentials ra_registry_insecure ra_devcontainer_json_filename ra_image_ref ra_net_proxy_port] in *.
  destruct dir as [d|]; [destruct (Hdir d eq_refl) as [_ Hd]; destruct d as [|c d]; [done|]|];
    destruct creds as [[un pw]|], ins; vm_compute; reflexivity.
Qed.

(** The components of a plain path. *)
Definition segment_ok (s : bytes) : Prop := s <> [] /\ s <> B "." /\ s <> B ".." /\ 47 ∉ s.

Lemma drop_back_ok s l : segment_ok s -> drop_back (s :: l) = s :: l.
Proof.
  intros (H1 & H2 & _). destruct l; [done|]. cbn [drop_back].
  rewrite (proj2 (beq_false s (B "."))) by done. by destruct s.
Qed.

Lemma plain_path_parts segs file :
  Forall segment_ok (segs ++ [file]) ->
  file_name (join [47] (segs ++ [file])) = Some file /\
  parent (join [47] (segs ++ [file])) = Some (join [47] segs).
Proof.
  intros H. pose proof H as [Hsegs [Hfile _]%Forall_cons_1]%Forall_app. unfold file_name, parent.
  rewrite split_join; [|by destruct segs|intros x Hx; rewrite Forall_forall in H; by apply H]. rewrite rev_app_distr. change (rev [file] ++ rev segs) with (file :: rev segs). rewrite (drop_back_ok file (rev segs)) by done.
  destruct Hfile as (H1 & H2 & H3 & _).
  rewrite (proj2 (beq_false file (B "."))), (proj2 (beq_false file (B ".."))) by done.
  destruct file as [|c file]; [done|]. cbn [is_empty orb]. split; [done|].
  destruct (rev segs) as [|s l] eqn:E.
  - apply (f_equal (fun x => rev x)) in E. rewrite rev_involutive in E. by subst segs.
  - assert (Hs : segment_ok s).
    { apply Forall_rev in Hsegs. rewrite E in Hsegs. by apply Forall_cons_1 in Hsegs as [? _]. }
    rewrite drop_back_ok by done. assert (Hsl : segs = rev (s :: l)) by (by rewrite <- E, rev_involutive).
    rewrite Hsl. destruct Hs as [Hne _]. by destruct s.
Qed.

(** What the microVM builds is what the Workshop asks for.  When no value holds white
    space, and the host's kernel adds no parameter of ours, the guest mounts, sets its
    network up with the addresses of its link, and runs [envbuilder] once, on the repository
    at its revision, with the credentials of the repository if there are, through net-proxy,
    for the registry's repository of the Workshop's image, and then restarts; for a plain
    path, the configuration it reads is the one of that path. *)
Theorem builder_builds_source env source image_ref insecure network creds a extra :
  builder_vm_args env source image_ref insecure network creds = Some a ->
  args_ok a -> Forall (fun w => cmdline_param w = None) (split_whitespace extra) ->
  guest_main (fun _ => true) (boot_args a ++ 32 :: extra) =
    [Mount (B "/proc"); Mount (B "/sys"); Run [B "ip"; B "link"; B "set"; B "lo"; B "up"];
     Run [B "ip"; B "addr"; B "add"; show_ip network.(guest_ip) ++ B "/" ++ dec network.(network_length); B "dev"; B "eth0"];
     Run [B "ip"; B "link"; B "set"; B "eth0"; B "up"];
     Run [B "ip"; B "route"; B "add"; B "default"; B "via"; show_ip network.(host_ip)];
     Envbuilder (wanted_vars a); Reboot] /\
  a.(ra_source) = source /\ a.(ra_git_credentials) = creds /\ a.(ra_registry_insecure) = insecure /\
  a.(ra_image_ref) = image_ref_for_guest env image_ref network.(host_ip) /\
  forall segs file, Forall segment_ok (segs ++ [file]) -> source.(config_path) = join [47] (segs ++ [file]) ->
    a.(ra_devcontainer_json_filename) = file /\
    a.(ra_devcontainer_dir) = match segs with [] => None | _ => Some (join [47] segs) end.
Proof.
  intros Ha Hok Hx. unfold guest_main. rewrite guest_builds by done. unfold builder_vm_args in Ha.
  destruct (file_name (config_path source)) as [f|] eqn:Ef; [|done]. destruct (parse_u16 _); [|done]. injection Ha as <-.
  split_and!; try done. cbn [ra_devcontainer_json_filename ra_devcontainer_dir ra_source]. intros segs file Hs Hp.
  destruct (plain_path_parts segs file Hs) as [H1 H2]. rewrite Hp in *. rewrite Ef in H1. injection H1 as ->. split; [done|].
  rewrite H2. destruct segs as [|s segs]; [done|]. apply Forall_app in Hs as [[(Hne & _) _]%Forall_cons_1 _].
  destruct s; [done|]. by destruct segs.
Qed.

Definition toy_network : NetworkSetup := mkNetwork (B "eth0") (B "ib0") [] (169, 254, 0, 1) (169, 254, 0, 2) 30.
Definition toy_source (path : bytes) : DevcontainerSource := mkSource (B "https://git/r.git") (B "main") path true.
Definition toy_args (path : bytes) : option RunBuilderVmArgs :=
  builder_vm_args (fun _ => None) (toy_source path) (B "localhost:5000/w/demo:latest") true toy_network None.

Lemma builder_builds_witness :
  let a := mkArgs (toy_source (B ".devcontainer/devcontainer.json")) (Some (B ".devcontainer")) (B "devcontainer.json")
    (B "169.254.0.1:5000/w/demo:latest") true (B "3128") toy_network None in
  exists pre, guest_main (fun _ => true) (boot_args a ++ 32 :: B "root=/dev/vda") = pre ++ [Envbuilder (wanted_vars a); Reboot].
Proof.
  intros a.
  destruct (builder_builds_source (fun _ => None) (toy_source (B ".devcontainer/devcontainer.json")) (B "localhost:5000/w/demo:latest")
    true toy_network None a (B "root=/dev/vda")) as [H _].
  - vm_compute. reflexivity.
  - constructor; try (apply spacelessb_spec; vm_compute; reflexivity); try (vm_compute; split_and?; discriminate).
    intros d [= <-]. split; [apply spacelessb_spec; vm_compute; reflexivity|discriminate].
  - apply (bool_decide_unpack _). vm_compute. exact I.
  - exists (take 6 (guest_main (fun _ => true) (boot_args a ++ 32 :: B "root=/dev/vda"))). rewrite H. reflexivity.
Defined.

(** A space in the path of the configuration adds parameters: the last one wins, so that the
    path of a Workshop chooses the repository the image is pushed to. *)
Lemma boot_args_injection :
  (fun a => match envbuilder_vars (parse_cmdline_params (boot_args a ++ [10])) with
            | Ok vars => assoc (B "ENVBUILDER_CACHE_REPO") vars
            | _ => None
            end) <$> toy_args (B "x atelier.image_ref=registry:5000/w/victim:latest/devcontainer.json")
  = Some (Some (B "registry:5000/w/victim")).
Proof. vm_compute. reflexivity. Qed.

(** A configuration at the root of the repository is announced without its directory, which
    [envbuilder] takes for [.devcontainer]. *)
Lemma root_config_no_dir :
  (fun a => (a.(ra_devcontainer_dir), a.(ra_devcontainer_json_filename))) <$> toy_args (B ".devcontainer.json")
  = Some (None, B ".devcontainer.json").
Proof. vm_compute. reflexivity. Qed.

(** The polls of [fn run_builder_vm]: two seconds apart at least. *)
Fixpoint spaced (t : Z) (polls : list (Z * vm_state)) : Prop :=
  match polls with [] => True | (now, _) :: polls => t <= now /\ spaced (now + 2000) polls end.

(** The host does not wait for ever: it has an answer after a number of polls that the time
    allowed bounds. *)
Lemma wait_ends deadline polls t :
  spaced t polls -> Z.max 0 ((deadline - t) / 2000 + 1) < Z.of_nat (length polls) -> is_Some (wait_builder_vm deadline polls).
Proof.
  revert t. induction polls as [|[now st] polls IH]; cbn [length spaced wait_builder_vm]; intros t Hs Hl; [lia|].
  destruct Hs as [Ht Hs]. destruct (Z.ltb_spec now deadline); cbn [negb]; [|by eexists]. destruct st; [|by eexists..].
  apply (IH (now + 2000)); [done|]. assert ((deadline - (now + 2000)) / 2000 + 1 <= (deadline - t) / 2000).
  { rewrite <- Z.div_add by lia. apply Z.div_le_mono; lia. }
  assert (0 <= (deadline - t) / 2000) by (apply Z.div_pos; lia). lia.
Qed.

(** A build that succeeds is the one that is exported; but the host learns nothing of
    how the build ended: when it failed, and an earlier build of the Workshop pushed an
    image, that image is exported, and published, as the one of the new build. *)
Theorem failed_build_exports_previous registry image_ref pushed deadline polls :
  let out := build_and_export registry image_ref pushed deadline polls in
  (forall image r, pushed = Some image -> wait_builder_vm deadline polls = Some (Ok r) -> out.2 = Some (Ok image)) /\
  (forall old r, pushed = None -> registry !! image_ref = Some old -> wait_builder_vm deadline polls = Some (Ok r) ->
     out = (registry, Some (Ok old))).
Proof.
  unfold build_and_export. split; [intros image r -> ->|intros old r -> Hold ->].
  - cbn [snd]. by rewrite lookup_insert_eq.
  - by rewrite Hold.
Qed.

(** The reference of the guest is that of the host, at an address the guest can reach. *)
Lemma image_ref_reachable env host_port path ip :
  47 ∉ host_port ->
  exists where_, image_ref_for_guest env (host_port ++ B "/" ++ path) ip = where_ ++ B "/" ++ path /\
    (where_ = host_port /\ (forall h p, split_once 58 host_port = Some (h, p) -> is_loopback h = false) \/
     (exists suffix, where_ = show_ip ip ++ suffix) \/
     exists alias, env "ATELIER_BUILDER_REGISTRY_ALIAS"%string = Some alias /\ where_ = alias).
Proof.
  intros H47. unfold image_ref_for_guest. change (host_port ++ B "/" ++ path) with (host_port ++ 47 :: path).
  rewrite split_once_app by done.
  assert (Hw : exists where_, without_loopback (host_port ++ 47 :: path) host_port path ip = where_ ++ B "/" ++ path /\
    (where_ = host_port /\ (forall h p, split_once 58 host_port = Some (h, p) -> is_loopback h = false) \/ exists suffix, where_ = show_ip ip ++ suffix)).
  { unfold without_loopback. destruct (split_once 58 host_port) as [[h p]|] eqn:E; destruct (is_loopback _) eqn:El; cbn [negb].
    - exists (show_ip ip ++ B ":" ++ p). split; [by rewrite <- !app_assoc|right; by eexists].
    - exists host_port. split; [done|]. left. split; [done|]. by intros ?? [= <- <-].
    - exists (show_ip ip). split; [done|]. right. exists []. by rewrite app_nil_r.
    - exists host_port. split; [done|]. by left. }
  destruct Hw as (w & Hw & Hcase). destruct (env _) as [alias|] eqn:Ea.
  - destruct (is_empty (trim alias)); [exists w; split; [done|]; destruct Hcase; [by left|right; by left]|].
    exists alias. split; [done|]. right. right. by exists alias.
  - exists w. split; [done|]. destruct Hcase; [by left|right; by left].
Qed.
