(* ===== verification/GuestInit.v ===== *)
(** * The init of a guest without systemd

    [crates/guest-init/src/main.rs]: the account of the session, the services it starts and
    starts again, the processes it reaps, the orphans it kills, the heartbeat it sends to
    net-proxy and the clock it keeps with the host's.  [/proc], the clock and the processes
    are arguments. *)

From S2P Require Import Prelude RustStr Collections F64 NetAdmin ImageBuilder.

(** ** The account of the session *)

Record SessionAccount := mkAccount { uid : Z; gid : Z; home : bytes }.
Definition SESSION_USER : bytes := B "vscode".
Definition parse_u32 : bytes -> option Z := from_str_radix 10 U32_MAX.

(** [fn parse_passwd_entry]: the closure, then the search. *)
Definition passwd_line (name line : bytes) : option SessionAccount :=
  match split 58 line with
  | first :: _password :: u :: g :: _gecos :: home :: _ =>
      if beq first name then
        match parse_u32 u, parse_u32 g with Some u, Some g => Some (mkAccount u g home) | _, _ => None end
      else None
  | _ => None
  end.
Definition parse_passwd_entry (passwd name : bytes) : option SessionAccount := head (omap (passwd_line name) (lines passwd)).

(** [fn session_account]; [None], an unreadable file. *)
Definition session_account (passwd : option bytes) : SessionAccount :=
  default (mkAccount 1000 1000 (B "/home/" ++ SESSION_USER)) (passwd ≫= (fun p => parse_passwd_entry p SESSION_USER)).

(** [fn command_for]: the program, the account it runs under ([None], root's) and the
    variables it is given. *)
Record command := mkCommand { c_path : bytes; c_ids : option (Z * Z); c_env : list (bytes * bytes) }.
Definition command_for (passwd : option bytes) (path : bytes) (as_session : bool) : command :=
  if as_session then
    let account := session_account passwd in
    mkCommand path (Some (account.(uid), account.(gid)))
      [(B "HOME", account.(home)); (B "USER", SESSION_USER); (B "LOGNAME", SESSION_USER)]
  else mkCommand path None [].

Definition SUPERVISED_SERVICES : list (bytes * bool) :=
  [(B "/usr/local/bin/atelier-start-ttyd.sh", true); (B "/usr/local/bin/atelier-start-code-server.sh", true);
   (B "/usr/local/bin/atelier-start-sshd.sh", false)].

(** ** Orphans *)

Definition STALE_ORPHAN_AGE : Z := 1500.
Definition CLK_TCK : f64 := f64_of_Z 100.

(** [rsplit_once] with a pattern of two characters. *)
Fixpoint rsplit_pair (a b : Z) (s : bytes) : option (bytes * bytes) :=
  match s with
  | [] => None
  | x :: r =>
      match rsplit_pair a b r with
      | Some (l, t) => Some (x :: l, t)
      | None => match r with
                | y :: t => if (x =? a) && (y =? b) then Some ([], t) else None
                | [] => None
                end
      end
  end.

Definition I32_MAX : Z := 2147483647.
Definition parse_i32 (s : bytes) : option Z :=
  match s with
  | c :: ((_ :: _) as r) =>
      if c =? 45 then Z.opp <$> (if starts_with r [43] then None else from_str_radix 10 (I32_MAX + 1) r)
      else from_str_radix 10 I32_MAX s
  | _ => from_str_radix 10 I32_MAX s
  end.

(** [fn read_stat], of the text of [/proc/<pid>/stat]. *)
Definition read_stat (stat : option bytes) : option (Z * f64) :=
  raw ← stat;
  '(_, after_comm) ← rsplit_pair 41 32 raw;
  let fields := split_whitespace after_comm in
  ppid ← (fields !! 1%nat) ≫= (fun f => parse_i32 f);
  starttime ← (fields !! 19%nat) ≫= (fun f => parse_f64 f);
  Some (ppid, starttime).

(** [fn read_uptime_secs]. *)
Definition read_uptime_secs (uptime : option bytes) : option f64 := raw ← uptime; first ← head (split_whitespace raw); parse_f64 first.

(** An entry of [/proc]: its name, and the texts of its [stat] and [cmdline]. *)
Record proc_entry := mkEntry { e_name : bytes; e_stat : option bytes; e_cmdline : option bytes }.

Definition age_of (uptime_secs start_ticks : f64) : Z := as_u64 (fmax (fsub uptime_secs (fdiv start_ticks CLK_TCK)) f0).
Definition command_of (e : proc_entry) : bytes :=
  match e.(e_cmdline) with Some raw => trim ((fun c => if c =? 0 then 32 else c) <$> raw) | None => B "?" end.

(** [fn kill_stale_orphans]: the body of the loop, then the loop; what it returns are the
    processes it sends [SIGKILL] to. *)
Definition stale_orphan (uptime_secs : f64) (supervised_pids : list Z) (max_age : Z) (e : proc_entry) : option OrphanProcess :=
  pid ← parse_i32 e.(e_name);
  if (pid <=? 1) || bool_decide (pid ∈ supervised_pids) then None else
  '(ppid, start_ticks) ← read_stat e.(e_stat);
  if negb (ppid =? 1) then None else
  let age_secs := age_of uptime_secs start_ticks in
  if age_secs <? max_age then None else Some (mkOrphan pid (command_of e) age_secs).
Definition kill_stale_orphans (uptime : option bytes) (proc : option (list proc_entry)) (supervised_pids : list Z) (max_age : Z)
  : list OrphanProcess :=
  match proc with
  | None => []
  | Some entries => omap (stale_orphan (default f0 (read_uptime_secs uptime)) supervised_pids max_age) entries
  end.

(** ** The heartbeat *)

(** [fn json_escape], character by character. *)
Definition escape_char (c : Z) : bytes :=
  if c =? 34 then [92; 34] else if c =? 92 then [92; 92] else if c =? 10 then [92; 110]
  else if c <? 32 then [] else [c].
Definition json_escape (s : bytes) : bytes := [34] ++ (s ≫= escape_char) ++ [34].

(** [fn send_heartbeat]: the body, and the request. *)
Definition orphan_json (o : OrphanProcess) : bytes :=
  B "{" ++ json_escape (B "pid") ++ B ":" ++ dec o.(o_pid) ++ B "," ++ json_escape (B "command") ++ B ":" ++ json_escape o.(o_command)
  ++ B "," ++ json_escape (B "age_secs") ++ B ":" ++ dec o.(o_age_secs) ++ B "}".
Definition heartbeat_body (r : HeartbeatReport) : bytes :=
  B "{" ++ json_escape (B "uptime_secs") ++ B ":" ++ dec r.(uptime_secs) ++ B "," ++ json_escape (B "zombies_reaped_total") ++ B ":"
  ++ dec r.(zombies_reaped_total) ++ B "," ++ json_escape (B "killed_stale_orphans") ++ B ":["
  ++ join (B ",") (orphan_json <$> r.(killed_stale_orphans)) ++ B "]}".
Definition CRLF : bytes := [13; 10].
Definition METADATA_ADDR : bytes := B "169.254.0.1:3132".
Definition heartbeat_request (r : HeartbeatReport) : bytes :=
  let body := heartbeat_body r in
  B "POST /heartbeat HTTP/1.1" ++ CRLF ++ B "Host: " ++ METADATA_ADDR ++ CRLF ++ B "Content-Type: application/json" ++ CRLF
  ++ B "Content-Length: " ++ dec (Z.of_nat (length body)) ++ CRLF ++ B "Connection: close" ++ CRLF ++ CRLF ++ body.

(** ** The clock *)

Definition CLOCK_TOLERANCE_SECS : f64 := f64_of_Z 2.
(** [fn parse_host_time]: [split_once] with the blank line. *)
Fixpoint after_head (s : bytes) : option bytes :=
  match strip_prefix (CRLF ++ CRLF) s with
  | Some r => Some r
  | None => match s with [] => None | _ :: r => after_head r end
  end.
Definition parse_host_time (response : bytes) : option f64 :=
  body ← after_head response;
  t ← parse_f64 (trim body);
  if is_finite t && flt f0 t then Some t else None.
(** [fn clock_needs_correction]. *)
Definition clock_needs_correction (local_secs host_secs : f64) : bool :=
  flt CLOCK_TOLERANCE_SECS (fabs (fsub host_secs local_secs)).
(** [fn sync_clock]: the time the clock is set to, if it is; [response], what was read from
    net-proxy, if it answered. *)
Definition sync_clock (response : option bytes) (local : f64) : option f64 :=
  host ← response ≫= (fun r => parse_host_time r);
  if clock_needs_correction local host then Some host else None.

(** ** Supervision *)

Inductive wait_status := WExited (pid : Z) | WSignaled (pid : Z) | WStillAlive | WError | WOther.
Record init_state := mkInit {
  children : list (bytes * bool * option Z);
  zombies : Z;
  last_heartbeat : Z;
  last_clock_check : Z }.
Definition HEARTBEAT_INTERVAL : Z := 15000.
Definition CLOCK_CHECK_INTERVAL : Z := 5000.

(** What a round of the loop meets: the answer of [waitpid], the process a service gets if
    it is started ([None]: it is not there, or could not be started), the instants of the
    two tests, and what [/proc] shows. *)
Record round_input := mkRound {
  i_wait : wait_status;
  i_spawn : bytes -> option Z;
  i_now_clock : Z;
  i_now : Z;
  i_uptime : option bytes;
  i_proc : option (list proc_entry) }.

Definition pid_of (w : wait_status) : option Z := match w with WExited p | WSignaled p => Some p | _ => None end.
Definition respawn (spawn : bytes -> option Z) (pid : Z) (c : bytes * bool * option Z) : bytes * bool * option Z :=
  let '(path, as_session, child) := c in
  if bool_decide (child = Some pid) then (path, as_session, spawn path) else c.
Definition supervised_pids (cs : list (bytes * bool * option Z)) : list Z := omap snd cs.

(** The body of the loop of [fn main]: the new state, whether the clock is checked, and the
    report that is sent, if one is. *)
Definition loop_round (start : Z) (st : init_state) (i : round_input) : init_state * bool * option HeartbeatReport :=
  let '(cs, z) := match pid_of i.(i_wait) with
                  | Some pid => (respawn i.(i_spawn) pid <$> st.(children), st.(zombies) + 1)
                  | None => (st.(children), st.(zombies))
                  end in
  let clock := CLOCK_CHECK_INTERVAL <=? i.(i_now_clock) - st.(last_clock_check) in
  let lc := if clock then i.(i_now_clock) else st.(last_clock_check) in
  if HEARTBEAT_INTERVAL <=? i.(i_now) - st.(last_heartbeat) then
    let killed := kill_stale_orphans i.(i_uptime) i.(i_proc) (supervised_pids cs) STALE_ORPHAN_AGE in
    (mkInit cs z i.(i_now) lc, clock, Some (mkHeartbeat ((i.(i_now) - start) / 1000) z killed))
  else (mkInit cs z st.(last_heartbeat) lc, clock, None).

(** The start of [fn main]. *)
Definition init_start (spawn : bytes -> option Z) (now : Z) : init_state :=
  mkInit ((fun s => (s.1, s.2, spawn s.1)) <$> SUPERVISED_SERVICES) 0 (now - HEARTBEAT_INTERVAL) (now - CLOCK_CHECK_INTERVAL).

(** ** What the orphan watch kills *)

Lemma rsplit_pair_none a b s : a ∉ s -> rsplit_pair a b s = None.
Proof.
  induction s as [|x s IH]; intros H; [done|]. cbn [rsplit_pair]. rewrite IH by set_solver.
  rewrite (proj2 (Z.eqb_neq x a)) by set_solver. by destruct s.
Qed.

(** The last occurrence, whatever precedes it. *)
Lemma rsplit_pair_last a b p t : a <> b -> a ∉ t -> rsplit_pair a b (p ++ a :: b :: t) = Some (p, t).
Proof.
  intros Hab Ht. induction p as [|x p IH]; cbn [app].
  - cbn [rsplit_pair]. rewrite rsplit_pair_none by done. rewrite (proj2 (Z.eqb_neq b a)) by done. cbn [andb].
    destruct t; by rewrite !Z.eqb_refl.
  - remember (p ++ a :: b :: t) as s eqn:Es. cbn [rsplit_pair]. by rewrite IH.
Qed.

(** A process, and the files the kernel shows of it: [proc(5)].  The name of its command is
    its own choice, any bytes. *)
Record process := mkProcess {
  p_pid : Z; p_comm : bytes; p_state : bytes; p_ppid : Z; p_mid : list bytes; p_start : Z; p_rest : bytes; p_cmdline : option bytes }.
Definition stat_text (p : process) : bytes :=
  dec p.(p_pid) ++ B " (" ++ p.(p_comm) ++ B ") "
  ++ join [32] ([p.(p_state); dec p.(p_ppid)] ++ p.(p_mid) ++ [dec p.(p_start)]) ++ 32 :: p.(p_rest).
Definition entry_of (p : process) : proc_entry := mkEntry (dec p.(p_pid)) (Some (stat_text p)) p.(p_cmdline).

Definition field_ok (f : bytes) : Prop := spaceless f /\ f <> [] /\ 41 ∉ f.
Record process_ok (p : process) : Prop := {
  po_pid : 0 <= p.(p_pid) <= I32_MAX;
  po_ppid : 0 <= p.(p_ppid) <= I32_MAX;
  po_start : 0 <= p.(p_start) <= U64_MAX;
  po_state : field_ok p.(p_state);
  po_mid : Forall field_ok p.(p_mid) /\ length p.(p_mid) = 17%nat;
  po_rest : 41 ∉ p.(p_rest) }.

Lemma parse_i32_dec n : 0 <= n <= I32_MAX -> parse_i32 (dec n) = Some n.
Proof.
  intros Hn. destruct (dec_shape n) as (b & r & E & Hb & _); [lia|].
  assert (Hp : from_str_radix 10 I32_MAX (dec n) = Some n) by (apply parse_dec; [done|unfold I32_MAX, U64_MAX; lia]).
  unfold parse_i32. rewrite E in *. destruct r; [done|]. by rewrite (proj2 (Z.eqb_neq b 45)) by lia.
Qed.

Lemma dec_field n : 0 <= n -> field_ok (dec n).
Proof.
  intros Hn. destruct (dec_shape n Hn) as (b & r & E & Hb & Hall). split_and!; [|by rewrite E|by apply dec_no_sep; lia].
  intros p x q Heq Hx. destruct x as [|c x]; [apply list_elem_of_In in Hx; vm_compute in Hx; by repeat destruct Hx as [Hx|Hx]|].
  assert (Hc : 48 <= c <= 57) by (rewrite Heq, Forall_forall in Hall; apply Hall; set_solver).
  assert (Hw : Forall (fun w => Forall (fun b => ~ 48 <= b <= 57) w) white_space) by (apply (bool_decide_unpack _); vm_compute; exact I).
  rewrite Forall_forall in Hw. apply Hw, Forall_cons_1 in Hx as [Hx _]. done.
Qed.

Lemma join_not_elem c sep ws : c ∉ sep -> Forall (fun w => c ∉ w) ws -> c ∉ join sep ws.
Proof.
  intros Hs. induction 1 as [|w ws Hw Hws IH]; [set_solver|]. destruct ws; [done|].
  cbn [join] in *. rewrite !not_elem_of_app. done.
Qed.

(** Whatever the name of a process, its parent and its start are read. *)
Lemma read_stat_text p : process_ok p -> read_stat (Some (stat_text p)) = Some (p.(p_ppid), f64_of_decimal false p.(p_start) 0).
Proof.
  intros [Hpid Hppid Hstart Hstate [Hmid Hlen] Hrest].
  set (fs := [p_state p; dec (p_ppid p)] ++ p_mid p ++ [dec (p_start p)]).
  assert (Hfs : Forall field_ok fs).
  { unfold fs. rewrite !Forall_app, !Forall_cons. split_and!; try done; try apply Forall_nil_2; apply dec_field; lia. }
  unfold read_stat. cbn [mbind option_bind].
  assert (Hr : rsplit_pair 41 32 (stat_text p) = Some (dec (p_pid p) ++ B " (" ++ p_comm p, join [32] fs ++ 32 :: p_rest p)).
  { unfold stat_text. fold fs. change (B ") ") with [41; 32]. rewrite (app_assoc (B " (")), (app_assoc (dec _)).
    apply rsplit_pair_last; [lia|]. rewrite not_elem_of_app, not_elem_of_cons. split_and!; [|lia|done].
    apply join_not_elem; [set_solver|]. eapply Forall_impl; [done|]. by intros w (_ & _ & ?). }
  rewrite Hr. cbn [mbind option_bind]. cbv beta iota zeta. rewrite split_whitespace_join; [|eapply Forall_impl; [done|]; by intros w (? & ? & _)|done].
  rewrite !lookup_app_l by (unfold fs; cbn; rewrite length_app, Hlen; cbn; lia).
  assert (fs !! 1%nat = Some (dec (p_ppid p))) as -> by done.
  assert (fs !! 19%nat = Some (dec (p_start p))) as ->.
  { unfold fs. rewrite lookup_app_r by (cbn; lia). change (19 - length [p_state p; dec (p_ppid p)])%nat with 17%nat.
    rewrite lookup_app_r by lia. by rewrite Hlen. }
  cbn [mbind option_bind]. rewrite parse_i32_dec by done. cbn [mbind option_bind]. by rewrite parse_f64_dec.
Qed.

(** The entries of [/proc]: processes, and the others, whose names are no numbers. *)
Inductive proc_item := Proc (p : process) | Other (e : proc_entry).
Definition item_entry (x : proc_item) : proc_entry := match x with Proc p => entry_of p | Other e => e end.
Definition item_ok (x : proc_item) : Prop := match x with Proc p => process_ok p | Other e => parse_i32 e.(e_name) = None end.
Definition process_of (x : proc_item) : option process := match x with Proc p => Some p | Other _ => None end.

(** The seconds a process has lived, as the watch computes them. *)
Definition process_age (uptime : option bytes) (p : process) : Z :=
  age_of (default f0 (read_uptime_secs uptime)) (f64_of_decimal false p.(p_start) 0).
Definition stale (uptime : option bytes) (sup : list Z) (max_age : Z) (p : process) : Prop :=
  1 < p.(p_pid) /\ (p.(p_pid) ∉ sup) /\ p.(p_ppid) = 1 /\ max_age <= process_age uptime p.
#[export] Instance stale_dec uptime sup max_age p : Decision (stale uptime sup max_age p).
Proof. apply _. Defined.

Lemma stale_orphan_spec uptime sup max_age p : process_ok p ->
  stale_orphan (default f0 (read_uptime_secs uptime)) sup max_age (entry_of p) =
  if decide (stale uptime sup max_age p) then Some (mkOrphan p.(p_pid) (command_of (entry_of p)) (process_age uptime p)) else None.
Proof.
  intros Hp. unfold stale_orphan, stale. cbn [entry_of e_name e_stat]. rewrite parse_i32_dec by apply Hp.
  cbn [mbind option_bind]. rewrite read_stat_text by done. cbn [mbind option_bind]. fold (process_age uptime p).
  destruct (Z.leb_spec (p_pid p) 1); cbn [orb]; [rewrite decide_False; [done|naive_solver lia]|].
  destruct (decide (p_pid p ∈ sup)); [rewrite bool_decide_eq_true_2, decide_False by naive_solver; done|].
  rewrite bool_decide_eq_false_2 by done.
  destruct (Z.eqb_spec (p_ppid p) 1); cbn [negb]; [|rewrite decide_False; [done|naive_solver]].
  destruct (Z.ltb_spec (process_age uptime p) max_age); [rewrite decide_False; [done|naive_solver lia]|].
  by rewrite decide_True.
Qed.

(** The orphan watch of the guest kills exactly the processes it is meant to, whatever
    names they give themselves: those that are children of process 1, are not one of the
    services it runs nor process 1 itself, and have lived 25 minutes or more; it reports
    each of them, with its age, to net-proxy. *)
Theorem orphans_killed uptime items sup max_age :
  Forall item_ok items ->
  kill_stale_orphans uptime (Some (item_entry <$> items)) sup max_age =
  (fun p => mkOrphan p.(p_pid) (command_of (entry_of p)) (process_age uptime p)) <$>
    base.filter (stale uptime sup max_age) (omap process_of items).
Proof.
  intros H. cbn [kill_stale_orphans]. induction H as [|x items Hx _ IH]; [done|].
  rewrite fmap_cons. cbn [omap list_omap]. fold (omap (M := list) process_of items).
  fold (omap (M := list) (stale_orphan (default f0 (read_uptime_secs uptime)) sup max_age) (item_entry <$> items)).
  rewrite IH. destruct x as [p|e]; cbn [item_entry process_of item_ok] in *.
  - rewrite stale_orphan_spec by done. rewrite filter_cons. by destruct (decide (stale uptime sup max_age p)).
  - unfold stale_orphan. by rewrite Hx.
Qed.

Definition toy_process (pid ppid : Z) (comm : bytes) (start : Z) : process :=
  mkProcess pid comm (B "S") ppid (replicate 17 (B "0")) start (B "0") None.
Definition evil : proc_item := Proc (toy_process 77 1 (B "x) S 2 ") 100).
Definition shell : proc_item := Proc (toy_process 78 77 (B "bash") 100).
Definition service : proc_item := Proc (toy_process 40 1 (B "ttyd") 100).

Lemma orphans_killed_witness :
  o_pid <$> kill_stale_orphans (Some (B "2000.51 100.00" ++ [10])) (Some (item_entry <$> [evil; shell; service; Other (mkEntry (B "cpuinfo") None None)])) [40] STALE_ORPHAN_AGE
  = [77].
Proof.
  rewrite orphans_killed; [vm_compute; reflexivity|].
  repeat apply Forall_cons_2; try apply Forall_nil_2; try (vm_compute; reflexivity).
  all: split; cbn [toy_process p_pid p_ppid p_start p_state p_mid p_rest]; try (unfold I32_MAX, U64_MAX; lia).
  all: try (apply (bool_decide_unpack _); vm_compute; exact I).
  all: try (split; [apply spacelessb_spec; vm_compute; reflexivity|split; [discriminate|apply (bool_decide_unpack _); vm_compute; exact I]]).
  all: split; [|vm_compute; reflexivity]; apply Forall_replicate;
       split; [apply spacelessb_spec; vm_compute; reflexivity|split; [discriminate|apply (bool_decide_unpack _); vm_compute; exact I]].
Defined.

(** ** The account of the services *)

Lemma omap_none {A C} (f : A -> option C) l : (forall x, x ∈ l -> f x = None) -> omap f l = [].
Proof.
  induction l as [|x l IH]; intros H; [done|]. cbn [omap list_omap]. rewrite H by set_solver.
  apply IH. set_solver.
Qed.

(** A line that is no entry of the account gives none, a carriage return at its end or
    not. *)
Lemma passwd_line_other name l : bool_decide (head (split 58 l) = Some name) = false ->
  passwd_line name l = None /\ passwd_line name (strip_cr l) = None.
Proof.
  intros H%bool_decide_eq_false. assert (Hgen : forall l', (58 ∈ l' -> head (split 58 l') = head (split 58 l)) -> passwd_line name l' = None).
  { intros l' Hl'. unfold passwd_line. destruct (decide (58 ∈ l')) as [Hin|Hout].
    - specialize (Hl' Hin). destruct (split 58 l') as [|f [|? [|? [|? [|? [|]]]]]]; try done.
      cbn [head] in Hl'. rewrite (proj2 (beq_false f name)); [done|]. intros ->. by rewrite <- Hl' in H.
    - unfold split. rewrite split_by_none; [done|]. intros b Hb. apply Z.eqb_neq. set_solver. }
  split; apply Hgen; [done|]. intros Hin. destruct (split_once 58 (strip_cr l)) as [[a r]|] eqn:E; [|by apply split_once_None in E].
  apply split_once_Some in E as [Heq Ha]. rewrite Heq. destruct (strip_cr_prefix l) as [t Ht]. rewrite Ht, Heq. rewrite <- app_assoc. cbn [app]. unfold split.
  rewrite !split_by_sep; [done|..]; try lia; intros b Hb; apply Z.eqb_neq; set_solver.
Qed.

Lemma lines_of_pieces_in ls x : x ∈ ls -> x = [] \/ x ∈ lines_of ls \/ strip_cr x ∈ lines_of ls.
Proof.
  induction ls as [|y [|z ls] IH]; intros Hx; [by apply elem_of_nil in Hx|..].
  - apply list_elem_of_singleton in Hx as ->. destruct y; [by left|]. right. left. cbn. set_solver.
  - apply elem_of_cons in Hx as [->|Hx]; [right; right; cbn [lines_of]; set_solver|].
    specialize (IH Hx). cbn [lines_of] in *. set_solver.
Qed.

(** The lines before what is appended: those there were, up to a carriage return. *)
Lemma lines_with_newline s r : exists ls, lines (with_newline s ++ r) = ls ++ lines r /\
  forall l, l ∈ ls -> l = [] \/ exists l', l' ∈ lines s /\ (l = l' \/ l = strip_cr l').
Proof.
  unfold with_newline. destruct (is_empty s) eqn:Es; [destruct s; [|done]; exists []; split; [done|set_solver]|]. cbn [orb].
  destruct (ends_with s [10]) eqn:Ee.
  - apply ends_with_true in Ee as [t ->]. exists (strip_cr <$> split 10 t). rewrite lines_end, <- app_assoc. cbn [app]. rewrite lines_newline.
    split; [done|]. intros l Hl. right. exists l. by split; [|left].
  - exists (strip_cr <$> split 10 s). rewrite <- app_assoc. cbn [app]. rewrite lines_newline. split; [done|].
    intros l (x & -> & Hx)%list_elem_of_fmap. destruct (lines_of_pieces_in _ _ Hx) as [->|[H|H]]; [by left|..]; right.
    + exists x. by split; [|right].
    + exists (strip_cr x). by split; [|left].
Qed.

(** The terminal and the editor of a guest never run as root, when the base image has no
    account of their own: the account the build adds to [passwd] is the one the init finds
    there, whatever else the file holds, and it is that of uid and gid 1000, with its home;
    only [sshd] runs as root, and a guest whose [passwd] cannot be read falls back on the
    same account. *)
Theorem session_unprivileged a path :
  has_entry SESSION_USER (default [] a.(passwd)) = false ->
  let pw := (ensure_vscode_user a).(passwd) in
  session_account pw = mkAccount 1000 1000 (B "/home/vscode") /\ session_account None = session_account pw /\
  command_for pw path true = mkCommand path (Some (1000, 1000)) [(B "HOME", B "/home/vscode"); (B "USER", B "vscode"); (B "LOGNAME", B "vscode")] /\
  (forall p as_session, (p, as_session) ∈ SUPERVISED_SERVICES -> as_session = false -> p = B "/usr/local/bin/atelier-start-sshd.sh").
Proof.
  intros Hno pw. assert (Hacc : session_account pw = mkAccount 1000 1000 (B "/home/vscode")).
  { unfold pw, ensure_vscode_user, ensure_system_user. fold SESSION_USER. rewrite Hno. cbn [passwd]. unfold session_account.
    cbn [mbind option_bind]. unfold parse_passwd_entry.
    destruct (lines_with_newline (default [] (ImageBuilder.passwd a))
      (SESSION_USER ++ B ":x:" ++ dec 1000 ++ B ":" ++ dec 1000 ++ B ":" ++ SESSION_USER ++ B ":" ++ B "/home/vscode" ++ B ":" ++ B "/bin/bash" ++ [10])) as (ls & -> & Hls).
    rewrite omap_app, (omap_none _ ls); [vm_compute; reflexivity|]. intros l [->|(l' & Hl' & Hl)]%Hls; [done|].
    assert (Hb : bool_decide (head (split 58 l') = Some SESSION_USER) = false).
    { apply not_true_iff_false. intros Hb. apply not_true_iff_false in Hno. apply Hno, existsb_exists. exists l'. by rewrite <- list_elem_of_In. }
    destruct (passwd_line_other _ _ Hb). by destruct Hl as [->| ->]. }
  unfold command_for. rewrite Hacc. split_and!; [done..|].
  intros p b Hin ->. unfold SUPERVISED_SERVICES in Hin. rewrite !elem_of_cons, elem_of_nil in Hin. naive_solver.
Qed.

Lemma session_unprivileged_witness :
  session_account (ensure_vscode_user toy_accounts).(passwd) = mkAccount 1000 1000 (B "/home/vscode").
Proof. apply (session_unprivileged toy_accounts (B "/bin/true")). vm_compute. reflexivity. Defined.

(** ** Supervision *)

Definition one_round (start : Z) (st st' : init_state) : Prop := exists i, (loop_round start st i).1.1 = st'.

Lemma round_children start st i :
  (loop_round start st i).1.1.(children) =
  match pid_of i.(i_wait) with Some pid => respawn i.(i_spawn) pid <$> st.(children) | None => st.(children) end.
Proof.
  unfold loop_round. destruct (pid_of (i_wait i)); destruct (HEARTBEAT_INTERVAL <=? _); done.
Qed.

(** The life of a service under the init.  When its process ends it is started again,
    and gets its new process; the end of another process does not touch it; its process is
    never one the orphan watch kills.  But a service that could not be started again, or was
    not there, is given up: whatever happens afterwards, it is never started. *)
Theorem service_supervised start st path as_session child i :
  (path, as_session, child) ∈ st.(children) ->
  let '(st', _, report) := loop_round start st i in
  (forall pid, child = Some pid -> pid_of i.(i_wait) = Some pid -> (path, as_session, i.(i_spawn) path) ∈ st'.(children)) /\
  (pid_of i.(i_wait) <> child \/ child = None -> (path, as_session, child) ∈ st'.(children)) /\
  (forall r, report = Some r -> forall p s pid o, (p, s, Some pid) ∈ st'.(children) -> o ∈ r.(killed_stale_orphans) -> o.(o_pid) <> pid) /\
  (forall sts, child = None -> rtc (one_round start) st' sts -> (path, as_session, None) ∈ sts.(children)).
Proof.
  intros Hc. destruct (loop_round start st i) as [[st' clock] report] eqn:E.
  assert (Hch : st'.(children) = match pid_of i.(i_wait) with Some pid => respawn i.(i_spawn) pid <$> st.(children) | None => st.(children) end)
    by (by rewrite <- round_children with (start := start), E).
  assert (Hkeep : forall st i, (path, as_session, None) ∈ st.(children) -> (path, as_session, None) ∈ (loop_round start st i).1.1.(children)).
  { clear. intros st i Hc. rewrite round_children. destruct (pid_of (i_wait i)) as [pid|]; [|done].
    apply list_elem_of_fmap. exists (path, as_session, None). split; [|done]. cbn [respawn]. by rewrite bool_decide_eq_false_2. }
  split_and!.
  - intros pid -> Hw. rewrite Hch, Hw. apply list_elem_of_fmap. exists (path, as_session, Some pid). split; [|done].
    cbn [respawn]. by rewrite bool_decide_eq_true_2.
  - intros Hne. rewrite Hch. destruct (pid_of (i_wait i)) as [pid|]; [|done]. apply list_elem_of_fmap. exists (path, as_session, child).
    split; [|done]. cbn [respawn]. rewrite bool_decide_eq_false_2; [done|]. by destruct Hne as [H| ->]; [intros ->|].
  - intros r -> p s pid o Hp Ho. unfold loop_round in E. destruct (match pid_of (i_wait i) with Some _ => _ | None => _ end) as [cs z].
    destruct (HEARTBEAT_INTERVAL <=? _); [|done]. injection E as <- _ <-. cbn [killed_stale_orphans children] in *.
    unfold kill_stale_orphans in Ho. destruct (i_proc i) as [es|]; [|by apply elem_of_nil in Ho].
    apply list_elem_of_omap in Ho as (e & _ & He). unfold stale_orphan in He. destruct (parse_i32 _) as [q|]; [|done]. cbn [mbind option_bind] in He.
    destruct ((q <=? 1) || _) eqn:Eq; [done|]. apply orb_false_iff in Eq as [_ Eq%bool_decide_eq_false].
    destruct (read_stat _) as [[pp tk]|]; [|done]. cbn [mbind option_bind] in He. destruct (negb _); [done|]. destruct (_ <? _); [done|].
    injection He as <-. cbn [o_pid]. intros ->. apply Eq, list_elem_of_omap. by exists (p, s, Some pid).
  - intros sts -> Hr. assert (H0 : (path, as_session, None) ∈ st'.(children)) by (pose proof (Hkeep st i Hc) as H; by rewrite E in H).
    clear -Hr H0 Hkeep. induction Hr as [|a b c [j <-] _ IH]; [done|]. by apply IH, Hkeep.
Qed.

Lemma service_supervised_witness :
  let st := init_start (fun _ => Some 40) 0 in
  let i := mkRound (WExited 40) (fun _ => None) 0 0 None None in
  exists st' clock report, loop_round 0 st i = (st', clock, report) /\
    (B "/usr/local/bin/atelier-start-ttyd.sh", true, None) ∈ st'.(children).
Proof.
  intros st i. pose proof (service_supervised 0 st (B "/usr/local/bin/atelier-start-ttyd.sh") true (Some 40) i) as H.
  destruct (loop_round 0 st i) as [[st' clock] report] eqn:E. exists st', clock, report. split; [done|].
  apply (proj1 (H ltac:(apply (bool_decide_unpack _); vm_compute; exact I)) 40); reflexivity.
Defined.

(** ** The text of a heartbeat *)

(** A string of JSON, as [serde_json] reads the escapes this one uses. *)
Fixpoint json_string (s : bytes) : option (bytes * bytes) :=
  match s with
  | [] => None
  | c :: r =>
      if c =? 34 then Some ([], r)
      else if c =? 92 then
        match r with
        | 34 :: r => prod_map (cons 34) id <$> json_string r
        | 92 :: r => prod_map (cons 92) id <$> json_string r
        | 110 :: r => prod_map (cons 10) id <$> json_string r
        | _ => None
        end
      else if c <? 32 then None
      else prod_map (cons c) id <$> json_string r
  end.

(** A command read back is the one reported, less its control characters: nothing in it ends
    the string, so that nothing a process is named changes the report. *)
Lemma json_escape_roundtrip s rest :
  json_string (tail (json_escape s ++ rest)) = Some (base.filter (fun c => c = 10 \/ 32 <= c) s, rest).
Proof.
  unfold json_escape. cbn [app tail]. rewrite <- app_assoc. induction s as [|c s IH]; [done|].
  rewrite bind_cons, <- app_assoc, filter_cons. set (x := (s ≫= escape_char) ++ [34] ++ rest) in *. unfold escape_char.
  destruct (Z.eqb_spec c 34) as [->|H34].
  { change (json_string ([92; 34] ++ x)) with (prod_map (cons 34) id <$> json_string x). by rewrite IH. }
  destruct (Z.eqb_spec c 92) as [->|H92].
  { change (json_string ([92; 92] ++ x)) with (prod_map (cons 92) id <$> json_string x). by rewrite IH. }
  destruct (Z.eqb_spec c 10) as [->|H10].
  { change (json_string ([92; 110] ++ x)) with (prod_map (cons 10) id <$> json_string x). by rewrite IH. }
  destruct (Z.ltb_spec c 32); [rewrite decide_False by lia; done|]. rewrite decide_True by lia. cbn [app json_string].
  rewrite (proj2 (Z.eqb_neq c 34)), (proj2 (Z.eqb_neq c 92)), (proj2 (Z.ltb_ge c 32)) by lia. by rewrite IH.
Qed.
