(* ===== verification/Provision.v ===== *)
(** * The secrets and keys of a Workshop, on the side of the controller

    [crates/controller/src/openbao.rs], [litellm.rs], [git_identity.rs] and [fn cleanup] of
    [reconcile.rs]: the policies and roles OpenBao grants access by, the secrets every
    Workshop is given, its key of the model gateway, the rule that injects its Git
    credential, and what is undone when it is deleted; with [fn resolve_git_credentials] of
    the image builder, which reads one of these secrets. *)

From S2P Require Import Prelude RustStr Json Crd LlmBudget OpenBao IdentityRules Auth Routes ImageBuilder.

(** ** Policies *)

(** [struct OpenBaoConfig] and [fn config_from_env]. *)
Record OpenBaoConfig := mkBaoConfig { bc_addr : bytes; bc_token : bytes; bc_pod_addr : bytes }.
Definition config_from_env (env : string -> option bytes) : res (option OpenBaoConfig) :=
  match env "OPENBAO_ADDR"%string with
  | None => Ok None
  | Some addr =>
      match env "OPENBAO_TOKEN"%string with
      | None => Err "OPENBAO_ADDR est defini mais OPENBAO_TOKEN est absent"
      | Some token => Ok (Some (mkBaoConfig addr token (default addr (env "ATELIER_OPENBAO_POD_ADDR"%string))))
      end
  end.

(** [fn secrets_data_path] and [fn secrets_metadata_path]. *)
Definition secrets_data_path (workshop_name : bytes) : bytes := B "secret/data/workshops/" ++ workshop_name ++ B "/*".
Definition secrets_metadata_path (workshop_name : bytes) : bytes := B "secret/metadata/workshops/" ++ workshop_name ++ B "/*".

(** The rules of a policy, and their text. *)
Inductive capability := CRead | CList | CCreate | CUpdate | CDelete.
#[export] Instance capability_eq_dec : EqDecision capability.
Proof. solve_decision. Defined.
Definition show_capability (c : capability) : bytes :=
  match c with CRead => B "read" | CList => B "list" | CCreate => B "create" | CUpdate => B "update" | CDelete => B "delete" end.
Abbreviation rule := (bytes * list capability)%type.
Definition quoted (s : bytes) : bytes := [34] ++ s ++ [34].
Definition hcl_rule (r : rule) : bytes :=
  B "path " ++ quoted r.1 ++ B " { capabilities = [" ++ join (B ", ") ((fun c => quoted (show_capability c)) <$> r.2) ++ B "] }".
Definition hcl (rules : list rule) : bytes := join [10] (hcl_rule <$> rules).

(** The policies of [fn ensure_workshop_role] and of [fn ensure_api_server_role]. *)
Definition workshop_policy (workshop_name : bytes) : list rule :=
  [(secrets_data_path workshop_name, [CRead]); (secrets_metadata_path workshop_name, [CRead; CList])].
Definition read_rules (secret : bytes) : list rule :=
  [(B "secret/data/workshops/+/" ++ secret, [CRead]); (B "secret/metadata/workshops/+/" ++ secret, [CRead])].
Definition api_server_policy : list rule :=
  ([B "session_auth"; B "ssh_key"] ≫= read_rules)
  ++ [(B "secret/data/workshops/+/credentials/*", [CCreate; CUpdate]); (B "secret/metadata/workshops/+/credentials/*", [CDelete; CList])]
  ++ [(B "secret/data/workshops/+/git", [CCreate; CUpdate])].

(** ** Requests of the controller *)

Definition role_name_of (workshop_name : bytes) : bytes := B "workshop-" ++ workshop_name.
Definition API_SERVER_ROLE : bytes := B "atelier-api-server".
Definition policy_path (name : bytes) : bytes := B "/v1/sys/policy/" ++ name.
Definition role_path (name : bytes) : bytes := B "/v1/auth/kubernetes/role/" ++ name.
Definition role_json (accounts : list bytes) (namespace policy : bytes) : json :=
  JObj [(B "bound_service_account_names", JArr (JStr <$> accounts));
        (B "bound_service_account_namespaces", JArr [JStr namespace]);
        (B "policies", JArr [JStr policy]); (B "ttl", JStr (B "15m"))].

Section requests.
Context {S : Type} (tr : server S) (config : OpenBaoConfig).

Definition put (s : S) (path : bytes) (body : json) : S * res unit :=
  let '(s, answer) := tr s (mkReq HPut path (Some config.(bc_token)) (Some body)) in
  (s, _ ← sent_ok answer "requete OpenBao" "ecriture OpenBao refusee"; Ok tt).

(** The two writes of [fn ensure_workshop_role] and of [fn ensure_api_server_role]. *)
Definition ensure_role (s : S) (role namespace : bytes) (accounts : list bytes) (policy : list rule) : S * res unit :=
  match put s (policy_path role) (JObj [(B "policy", JStr (hcl policy))]) with
  | (s, Ok _) => put s (role_path role) (role_json accounts namespace role)
  | (s, r) => (s, r)
  end.
Definition ensure_workshop_role (s : S) (workshop_name namespace : bytes) (service_accounts : list bytes) : S * res bytes :=
  let role := role_name_of workshop_name in
  match ensure_role s role namespace service_accounts (workshop_policy workshop_name) with
  | (s, r) => (s, _ ← r; Ok role)
  end.
Definition ensure_api_server_role (s : S) (namespace account : bytes) : S * res unit :=
  ensure_role s API_SERVER_ROLE namespace [account] api_server_policy.

(** [fn delete_if_present] and [fn delete_workshop_role]. *)
Definition delete_if_present (s : S) (path : bytes) : S * res unit :=
  let '(s, answer) := tr s (mkReq HDelete path (Some config.(bc_token)) None) in
  (s, match answer with
      | None => Err "requete OpenBao"
      | Some (status, _) => if is_success status || (status =? 404) then Ok tt else Err "suppression OpenBao a echoue"
      end).
Definition delete_workshop_role (s : S) (workshop_name : bytes) : S * res unit :=
  match delete_if_present s (role_path (role_name_of workshop_name)) with
  | (s, Ok _) => delete_if_present s (policy_path (role_name_of workshop_name))
  | (s, r) => (s, r)
  end.

(** [fn generate_session_password]; [draw i], the [i]-th number drawn below 62. *)
Definition CHARSET : bytes := B "ABCDEFGHIJKLMNOPQRSTUVWXYZabcdefghijklmnopqrstuvwxyz0123456789".
Definition generate_session_password (draw : nat -> nat) : bytes := (fun i => default 65 (CHARSET !! draw i)) <$> seq 0 32.

(** The reading of a secret that may be there: the body of a successful answer. *)
Definition read_existing (s : S) (workshop_name path : bytes) : S * res (option json) :=
  let '(s, answer) := tr s (mkReq HGet (data_path workshop_name path) (Some config.(bc_token)) None) in
  (s, match answer with
      | None => Err "requete OpenBao"
      | Some (status, body) =>
          if is_success status then match body with Some j => Ok (Some j) | None => Err "reponse de lecture invalide" end else Ok None
      end).
Definition field_of (j : json) (f : bytes) : option bytes := as_str (jidx (jidx (jidx j (B "data")) (B "data")) f).
Definition put_secret (s : S) (workshop_name path : bytes) (fields : list (bytes * bytes)) : S * res unit :=
  put s (data_path workshop_name path) (JObj [(B "data", JObj ((fun kv => (kv.1, JStr kv.2)) <$> fields))]).

(** [fn ensure_session_auth]; [fresh], the password it would generate. *)
Definition ensure_session_auth (s : S) (workshop_name fresh : bytes) : S * res bytes :=
  match read_existing s workshop_name (B "session_auth") with
  | (s, Ok existing) =>
      match existing ≫= (fun j => field_of j (B "password")) with
      | Some password => (s, Ok password)
      | None => let '(s, r) := put_secret s workshop_name (B "session_auth") [(B "password", fresh)] in (s, _ ← r; Ok fresh)
      end
  | (s, Err e) => (s, Err e)
  | (s, Panic) => (s, Panic)
  end.

(** [fn ensure_ssh_key]; [keypair], what [fn generate_ssh_keypair] gives. *)
Definition ensure_ssh_key (s : S) (workshop_name : bytes) (keypair : res (bytes * bytes)) : S * res unit :=
  match read_existing s workshop_name (B "ssh_key") with
  | (s, Ok existing) =>
      let complete := match existing with
                      | Some j => bool_decide (is_Some (field_of j (B "privateKey"))) && bool_decide (is_Some (field_of j (B "publicKey")))
                      | None => false
                      end in
      if complete then (s, Ok tt)
      else match keypair with
           | Ok (private_key, public_key) =>
               put_secret s workshop_name (B "ssh_key") [(B "privateKey", private_key); (B "publicKey", public_key)]
           | Err e => (s, Err e)
           | Panic => (s, Panic)
           end
  | (s, Err e) => (s, Err e)
  | (s, Panic) => (s, Panic)
  end.

(** [fn ensure_llm_virtual_key_secret]. *)
Definition LLM_VIRTUAL_KEY_SECRET_PATH : bytes := B "llm_key".
Definition LLM_VIRTUAL_KEY_SECRET_FIELD : bytes := B "value".
Definition ensure_llm_virtual_key_secret (s : S) (workshop_name virtual_key : bytes) : S * res unit :=
  put_secret s workshop_name LLM_VIRTUAL_KEY_SECRET_PATH [(LLM_VIRTUAL_KEY_SECRET_FIELD, virtual_key)].
End requests.

(** ** The model gateway *)

(** [struct LiteLlmConfig] and [fn config_from_env]. *)
Record LiteLlmConfig := mkLiteLlm { ll_addr : bytes; ll_master_key : bytes }.
Definition filled (v : option bytes) : option bytes := match v with Some v => if is_empty (trim v) then None else Some v | None => None end.
Definition litellm_config_from_env (addr master_key : option bytes) : option LiteLlmConfig :=
  addr ← filled addr; master_key ← filled master_key; Some (mkLiteLlm addr master_key).

(** [fn workshop_key_alias], [fn build_key_alias] and [fn campaign_team_id]. *)
Definition workshop_key_alias (workshop_name : bytes) : bytes := B "atelier-wks-" ++ workshop_name.
Definition build_key_alias (workshop_name : bytes) : bytes := B "atelier-build-" ++ workshop_name.
Definition campaign_team_id (campaign_id : bytes) : bytes := B "atelier-campaign-" ++ campaign_id.
Definition VIRTUAL_KEY_TTL : bytes := B "2h".
Definition BUILD_VIRTUAL_KEY_TTL : bytes := B "30m".

(** What the gateway answers: nothing, or a status with a text and, if it is one, the JSON of
    that text. *)
Definition llm_gateway := bytes -> json -> option (Z * (bytes * option json)).

(** [fn generate_virtual_key_in_team] and [fn generate_virtual_key]. *)
Record VirtualKey := mkVirtualKey { vk_key : bytes; vk_key_alias : bytes }.
Definition generate_body (key_alias owner : bytes) (max_budget_usd : option F64.f64) (ttl : bytes) (team_id : option bytes) : json :=
  JObj ([(B "key_alias", JStr key_alias); (B "duration", JStr ttl); (B "metadata", JObj [(B "owner", JStr owner)])]
        ++ (match max_budget_usd with Some b => [(B "max_budget", JFloat b)] | None => [] end)
        ++ match team_id with Some t => [(B "team_id", JStr t)] | None => [] end).
Definition generate_virtual_key_in_team (g : llm_gateway) (key_alias owner : bytes) (max_budget_usd : option F64.f64) (ttl : bytes)
    (team_id : option bytes) : res VirtualKey :=
  match g (B "/key/generate") (generate_body key_alias owner max_budget_usd ttl team_id) with
  | None => Err "requete LiteLLM"
  | Some (status, (_, body)) =>
      if 400 <=? status then Err "generation de la Virtual Key LiteLLM"
      else match body ≫= (fun j => get_str (B "key") j) with
           | Some key => Ok (mkVirtualKey key key_alias)
           | None => Err "reponse /key/generate LiteLLM illisible"
           end
  end.
Definition generate_virtual_key g key_alias owner max_budget_usd ttl := generate_virtual_key_in_team g key_alias owner max_budget_usd ttl None.

(** [fn delete_virtual_key], [fn ensure_team] and [fn delete_team]. *)
Definition delete_by_id (g : llm_gateway) (path key id : bytes) : res unit :=
  match g path (JObj [(key, JArr [JStr id])]) with
  | None => Err "requete LiteLLM"
  | Some (status, _) => if is_success status || (status =? 404) then Ok tt else Err "suppression LiteLLM a echoue"
  end.
Definition delete_virtual_key (g : llm_gateway) (key_alias : bytes) : res unit := delete_by_id g (B "/key/delete") (B "key_aliases") key_alias.
Definition delete_team (g : llm_gateway) (team_id : bytes) : res unit := delete_by_id g (B "/team/delete") (B "team_ids") team_id.
Definition ensure_team (g : llm_gateway) (team_id : bytes) (max_budget_usd : option F64.f64) : res unit :=
  match g (B "/team/new") (JObj ([(B "team_id", JStr team_id)] ++ match max_budget_usd with Some b => [(B "max_budget", JFloat b)] | None => [] end)) with
  | None => Err "requete LiteLLM"
  | Some (status, (text, _)) =>
      if is_success status then Ok tt
      else if status =? 400 then if contains text (B "already exists") then Ok tt else Err "creation de la Team LiteLLM a echoue: 400"
      else Err "creation de la Team LiteLLM a echoue"
  end.

(** ** The Git credential *)

(** [struct GitIdentityConfig], [fn config_from_env] and [fn injection_rule]. *)
Record GitIdentityConfig := mkGitIdentity {
  gi_service_name : bytes; gi_service_namespace : bytes; gi_port : Z; gi_header : bytes; gi_prefix : bytes }.
Definition git_config_from_env (env : string -> option bytes) : option GitIdentityConfig :=
  service_name ← filled (env "ATELIER_GIT_HOST_SERVICE"%string);
  Some (mkGitIdentity service_name
    (default (B "default") (filled (env "ATELIER_GIT_HOST_SERVICE_NAMESPACE"%string)))
    (default 3000 (env "ATELIER_GIT_HOST_PORT"%string ≫= (fun v => parse_u16 v)))
    (default (B "Authorization") (filled (env "ATELIER_GIT_INJECTION_HEADER"%string)))
    (default (B "token ") (env "ATELIER_GIT_INJECTION_PREFIX"%string))).
Definition GIT_ALIAS_HOST : bytes := B "git.atelier.internal".
Definition injection_rule (config : GitIdentityConfig) : InjectionRule :=
  mkRule GIT_ALIAS_HOST config.(gi_header) config.(gi_prefix) (B "git") (B "password").

(** [fn resolve_git_credentials] of the image builder. *)
Definition resolve_git_credentials {S} (tr : server S) (read_file : bytes -> option bytes) (env : string -> option bytes)
    (s : S) (workshop_name : bytes) : S * option GitCredentials :=
  match env "OPENBAO_ADDR"%string with
  | None => (s, None)
  | Some _ =>
      let c := client_from_env env workshop_name in
      match login tr read_file c s with
      | (s, Ok token) =>
          match read_field tr c s token (B "git") (B "password") with
          | (s, Ok password) =>
              let '(s, r) := read_field tr c s token (B "git") (B "username") in
              (s, Some (mkGit (match r with Ok u => u | _ => B "x-access-token" end) password))
          | (s, _) => (s, None)
          end
      | (s, _) => (s, None)
      end
  end.

(** ** The end of a Workshop *)

(** What [fn cleanup] asks for besides OpenBao, each of which may fail without stopping it:
    the Job that removes the directory of its snapshot, the deletion of its objects, and of
    its key. *)
Definition snapshot_cache_subdir (ns name : bytes) : bytes := B "snapshots/" ++ ns ++ B "_" ++ name.
Definition IMAGE_CACHE_MOUNT_PATH : bytes := B "/cache".
Inductive cleanup_step := RunJob (name : bytes) (argv : list bytes) | DeletePrefix (prefix : bytes) | DeleteKey (key_alias : bytes).
Definition cleanup_steps (s3 litellm : bool) (ns name : bytes) : list cleanup_step :=
  [RunJob (name ++ B "-snapshot-cleanup") [B "rm"; B "-rf"; IMAGE_CACHE_MOUNT_PATH ++ B "/" ++ snapshot_cache_subdir ns name]]
  ++ (if s3 then [DeletePrefix (snapshot_cache_subdir ns name)] else [])
  ++ if litellm then [DeleteKey (workshop_key_alias name)] else [].
Definition cleanup {S} (tr : server S) (openbao : option OpenBaoConfig) (s3 litellm : bool) (s : S) (ns name : bytes)
  : S * list cleanup_step * res unit :=
  match (match openbao with Some config => delete_workshop_role tr config s name | None => (s, Ok tt) end) with
  | (s, Ok _) => (s, cleanup_steps s3 litellm ns name, Ok tt)
  | (s, r) => (s, [], r)
  end.

(** ** What the policies grant *)

(** OpenBao's matching of the paths of a policy: [+] stands for one segment, a [*] at the
    end for whatever follows.  Of several rules the most specific one counts; here two rules
    for the same path have the same capabilities, so that any of them does. *)
Fixpoint match_segments (pat path : list bytes) : bool :=
  match pat, path with
  | [], [] => true
  | p :: ps, s :: ss =>
      match ps with
      | [] => beq p (B "*") || (beq p (B "+") || beq p s) && match_segments ps ss
      | _ => (beq p (B "+") || beq p s) && match_segments ps ss
      end
  | _, _ => false
  end.
Definition granted (rules : list rule) (path : bytes) (cap : capability) : bool :=
  existsb (fun r => match_segments (split 47 r.1) (split 47 path) && bool_decide (cap ∈ r.2)) rules.

Definition data_of (n p : bytes) : bytes := B "secret/data/" ++ secret_id n p.
Definition metadata_of (n p : bytes) : bytes := B "secret/metadata/" ++ secret_id n p.

Lemma split_lit x r : 47 ∉ x -> split 47 (x ++ 47 :: r) = x :: split 47 r.
Proof. intros H. rewrite split_app_sep. unfold split at 1. rewrite split_by_none; [done|]. intros b Hb. apply Z.eqb_neq. set_solver. Qed.

Lemma split_data n p : 47 ∉ n -> split 47 (data_of n p) = [B "secret"; B "data"; B "workshops"; n] ++ split 47 p.
Proof.
  intros Hn. change (data_of n p) with (B "secret" ++ 47 :: B "data" ++ 47 :: B "workshops" ++ 47 :: n ++ 47 :: p).
  rewrite !split_lit; try done; apply (bool_decide_unpack _); vm_compute; exact I.
Qed.
Lemma split_metadata n p : 47 ∉ n -> split 47 (metadata_of n p) = [B "secret"; B "metadata"; B "workshops"; n] ++ split 47 p.
Proof.
  intros Hn. change (metadata_of n p) with (B "secret" ++ 47 :: B "metadata" ++ 47 :: B "workshops" ++ 47 :: n ++ 47 :: p).
  rewrite !split_lit; try done; apply (bool_decide_unpack _); vm_compute; exact I.
Qed.

Definition plain_segment (x : bytes) : bool := negb (beq x (B "*")) && negb (beq x (B "+")) && bool_decide (47 ∉ x).

Lemma match_one x p : plain_segment x = true -> match_segments [x] (split 47 p) = true <-> p = x.
Proof.
  unfold plain_segment. rewrite !andb_true_iff, !negb_true_iff, bool_decide_eq_true. intros [[H1 H2] H3].
  pose proof (join_split 47 p) as Hj. split.
  - destruct (split 47 p) as [|s [|s' ss]]; cbn [match_segments]; [done|..]; rewrite H1, H2; cbn [orb].
    + rewrite andb_true_r. intros ->%beq_true. by rewrite <- Hj.
    + by rewrite andb_false_r.
  - intros ->. unfold split. rewrite split_by_none by (intros b Hb; apply Z.eqb_neq; set_solver).
    cbn [match_segments]. by rewrite beq_refl, !orb_true_r.
Qed.

Lemma match_under x p : plain_segment x = true -> match_segments [x; B "*"] (split 47 p) = true <-> exists q, p = x ++ 47 :: q.
Proof.
  unfold plain_segment. rewrite !andb_true_iff, !negb_true_iff, bool_decide_eq_true. intros [[H1 H2] H3].
  pose proof (join_split 47 p) as Hj. split.
  - destruct (split 47 p) as [|s [|s' ss]]; cbn [match_segments]; [done|by rewrite H2, andb_false_r|].
    rewrite H2. cbn [orb]. rewrite andb_true_iff. intros [->%beq_true _]. rewrite <- Hj. by eexists.
  - intros [q ->]. rewrite split_lit by done. cbn [match_segments]. rewrite beq_refl, orb_true_r. cbn [andb].
    destruct (split 47 q) eqn:E; [by apply split_by_nonempty in E|]. done.
Qed.

Lemma match_workshop kind kind' w pat n p : pat <> [] -> plain_segment kind = true ->
  match_segments ([B "secret"; kind; B "workshops"; w] ++ pat) ([B "secret"; kind'; B "workshops"; n] ++ split 47 p) =
  beq kind kind' && (beq w (B "+") || beq w n) && match_segments pat (split 47 p).
Proof.
  intros Hp. unfold plain_segment. rewrite !andb_true_iff, !negb_true_iff. intros [[H1 H2] _].
  destruct pat as [|x pat]; [done|]. cbn [app match_segments]. rewrite H2, !beq_refl, !orb_true_r. cbn [orb andb].
  by rewrite andb_assoc.
Qed.

Section rules.
Context (w n x p : bytes) (Hw : 47 ∉ w) (Hn : 47 ∉ n).
Lemma split_not_nil s : split 47 s <> [].
Proof. apply split_by_nonempty. Qed.
Lemma rule_data : match_segments (split 47 (data_of w x)) (split 47 (data_of n p)) = (beq w (B "+") || beq w n) && match_segments (split 47 x) (split 47 p).
Proof using Hw Hn. by rewrite !split_data, match_workshop by (done || apply split_not_nil). Qed.
Lemma rule_metadata : match_segments (split 47 (metadata_of w x)) (split 47 (metadata_of n p)) = (beq w (B "+") || beq w n) && match_segments (split 47 x) (split 47 p).
Proof using Hw Hn. by rewrite !split_metadata, match_workshop by (done || apply split_not_nil). Qed.
Lemma rule_cross : match_segments (split 47 (data_of w x)) (split 47 (metadata_of n p)) = false.
Proof using Hw Hn. by rewrite split_data, split_metadata, match_workshop by (done || apply split_not_nil). Qed.
Lemma rule_cross' : match_segments (split 47 (metadata_of w x)) (split 47 (data_of n p)) = false.
Proof using Hw Hn. by rewrite split_data, split_metadata, match_workshop by (done || apply split_not_nil). Qed.
End rules.

Lemma api_server_rules :
  api_server_policy =
  [(data_of (B "+") (B "session_auth"), [CRead]); (metadata_of (B "+") (B "session_auth"), [CRead]);
   (data_of (B "+") (B "ssh_key"), [CRead]); (metadata_of (B "+") (B "ssh_key"), [CRead]);
   (data_of (B "+") (B "credentials/*"), [CCreate; CUpdate]); (metadata_of (B "+") (B "credentials/*"), [CDelete; CList]);
   (data_of (B "+") (B "git"), [CCreate; CUpdate])].
Proof. reflexivity. Qed.

Lemma no_slash_plus : 47 ∉ B "+".
Proof. apply (bool_decide_unpack _). vm_compute. exact I. Qed.
#[local] Hint Resolve no_slash_plus : core.

(** [match_segments [x]] and [match_segments [x; *]], as [match_one] and [match_under] say. *)
Lemma match_session p : match_segments (split 47 (B "session_auth")) (split 47 p) = true <-> p = B "session_auth".
Proof. by apply match_one. Qed.
Lemma match_ssh p : match_segments (split 47 (B "ssh_key")) (split 47 p) = true <-> p = B "ssh_key".
Proof. by apply match_one. Qed.
Lemma match_git p : match_segments (split 47 (B "git")) (split 47 p) = true <-> p = B "git".
Proof. by apply match_one. Qed.
Lemma match_credentials p : match_segments (split 47 (B "credentials/*")) (split 47 p) = true <-> exists q, p = B "credentials/" ++ q.
Proof. apply (match_under (B "credentials")). by vm_compute. Qed.

(** Whether a rule has a capability, by evaluation. *)
Ltac caps :=
  repeat match goal with
         | |- context [bool_decide (?c ∈ ?l)] =>
             let r := eval vm_compute in (bool_decide (c ∈ l)) in change (bool_decide (c ∈ l)) with r
         end;
  rewrite ?beq_refl; cbn [orb andb]; rewrite ?andb_true_r, ?andb_false_r, ?orb_false_r; cbn [orb andb]; rewrite ?orb_false_r.

(** A secret's path in the API of OpenBao: its metadata or its data. *)
Definition kv_path (metadata : bool) (n p : bytes) : bytes := if metadata then metadata_of n p else data_of n p.

(** What the API server may do with the secret [p] of any Workshop, and a Workshop with any
    of its own secrets. *)
Definition api_server_may (metadata : bool) (p : bytes) (c : capability) : Prop :=
  match metadata, c with
  | _, CRead => p = B "session_auth" \/ p = B "ssh_key"
  | false, (CCreate | CUpdate) => p = B "git" \/ exists q, p = B "credentials/" ++ q
  | true, (CDelete | CList) => exists q, p = B "credentials/" ++ q
  | _, _ => False
  end.
Definition workshop_may (metadata : bool) (c : capability) : Prop := c = CRead \/ metadata = true /\ c = CList.

Lemma rule_path k k' w n x p : 47 ∉ w -> 47 ∉ n ->
  match_segments (split 47 (kv_path k w x)) (split 47 (kv_path k' n p)) =
  eqb k k' && (beq w (B "+") || beq w n) && match_segments (split 47 x) (split 47 p).
Proof.
  intros Hw Hn. destruct k, k'; cbn [kv_path eqb andb];
    [by apply rule_metadata|by apply rule_cross'|by apply rule_cross|by apply rule_data].
Qed.

(** A path that a rule on secrets matches is the path of a secret. *)
Lemma rule_is_secret k w x path : 47 ∉ w -> match_segments (split 47 (kv_path k w x)) (split 47 path) = true ->
  exists n p, 47 ∉ n /\ path = kv_path k n p.
Proof.
  intros Hw.
  assert (Hs : split 47 (kv_path k w x) = [B "secret"; if k then B "metadata" else B "data"; B "workshops"; w] ++ split 47 x)
    by (destruct k; [by apply split_metadata|by apply split_data]).
  rewrite Hs. clear Hs. pose proof (split_pieces 47 path) as Hp. pose proof (join_split 47 path) as Hj.
  pose proof (split_not_nil x) as Hx. destruct (split 47 x) as [|x0 xs]; [done|].
  destruct (split 47 path) as [|s1 [|s2 [|s3 [|n rest]]]]; cbn [app match_segments]; rewrite ?andb_false_r; try done.
  rewrite !andb_true_iff. intros ([H1|H1]%orb_true_iff & [H2|H2]%orb_true_iff & [H3|H3]%orb_true_iff & _ & Hr);
    try (vm_compute in H1; discriminate H1); try (vm_compute in H3; discriminate H3);
    try (destruct k; vm_compute in H2; discriminate H2).
  apply beq_true in H1, H2, H3. subst s1 s2 s3. destruct rest as [|r rest]; [by destruct xs|].
  exists n, (join [47] (r :: rest)). split; [apply Hp; set_solver|]. rewrite <- Hj. by destruct k.
Qed.

Lemma granted_rules rules path c :
  granted rules path c = true <->
  exists r, r ∈ rules /\ match_segments (split 47 r.1) (split 47 path) = true /\ c ∈ r.2.
Proof.
  unfold granted. rewrite existsb_exists. split.
  - intros (r & Hr & [Hm Hc]%andb_true_iff). exists r. split_and!; [by apply list_elem_of_In|done|by apply bool_decide_eq_true in Hc].
  - intros (r & Hr & Hm & Hc). exists r. split; [by apply list_elem_of_In|]. rewrite Hm. by apply bool_decide_eq_true.
Qed.

(** The rules of both policies are rules on secrets. *)
Lemma api_server_rules_secret r : r ∈ api_server_policy -> exists k x, r.1 = kv_path k (B "+") x.
Proof.
  rewrite api_server_rules. intros Hr.
  repeat (apply elem_of_cons in Hr as [->|Hr]; [solve [by eexists false, _|by eexists true, _]|]). by apply elem_of_nil in Hr.
Qed.

Lemma api_server_exact k n p c : 47 ∉ n ->
  granted api_server_policy (kv_path k n p) c = true <-> api_server_may k p c.
Proof.
  intros Hn. unfold granted. rewrite api_server_rules. cbn [existsb fst snd].
  destruct k; cbn [kv_path]; [rewrite !rule_metadata, !rule_cross by auto|rewrite !rule_data, !rule_cross' by auto];
    destruct c; caps; cbn [api_server_may]; rewrite ?orb_true_iff, ?match_session, ?match_ssh, ?match_git, ?match_credentials;
    try done; tauto.
Qed.

Lemma workshop_rule k m n p : 47 ∉ m -> 47 ∉ n -> m <> B "+" ->
  match_segments (split 47 (kv_path k m (B "*"))) (split 47 (kv_path k n p)) = true <-> n = m.
Proof.
  intros Hm Hn Hp. rewrite rule_path by done. rewrite eqb_reflx, (proj2 (beq_false m (B "+"))) by done. cbn [orb andb].
  rewrite andb_true_iff, beq_true. split; [by intros [-> _]|]. intros ->. split; [done|].
  pose proof (split_not_nil p). by destruct (split 47 p).
Qed.

Lemma workshop_exact m path c : 47 ∉ m -> m <> B "+" ->
  granted (workshop_policy m) path c = true <-> exists k p, path = kv_path k m p /\ workshop_may k c.
Proof.
  intros Hm Hp. rewrite granted_rules. unfold workshop_policy.
  change (secrets_data_path m) with (kv_path false m (B "*")). change (secrets_metadata_path m) with (kv_path true m (B "*")).
  split.
  - intros (r & [->|[->|[]%elem_of_nil]%elem_of_cons]%elem_of_cons & Hr & Hc); cbn [fst snd] in *;
      destruct (rule_is_secret _ _ _ _ Hm Hr) as (n & p & Hn & ->); apply workshop_rule in Hr as ->; try done;
      eexists _, p; (split; [reflexivity|]); unfold workshop_may; set_solver.
  - intros (k & p & -> & Hc). exists (if k then (kv_path true m (B "*"), [CRead; CList]) else (kv_path false m (B "*"), [CRead])).
    destruct k; (split_and!; [set_solver|by apply workshop_rule|]); unfold workshop_may in Hc; cbn [snd]; set_solver.
Qed.

(** C9: What the policies the controller writes grant, of every capability on every path of
    OpenBao.  The API server, whatever the Workshop, reads the password of its session and
    its SSH key (data and metadata); it creates and updates credentials and the Git one, and
    deletes and lists the metadata of credentials; it is granted nothing else, so that it
    reads no credential.  The role of a Workshop reads the data and reads and lists the
    metadata of the secrets of that Workshop, all of them, and is granted nothing else,
    no secret of another Workshop and no writing.  A credential's path, for any host, is
    one the API server may write and remove. *)
Theorem policies_exact path c :
  (granted api_server_policy path c = true <->
     exists k n p, path = kv_path k n p /\ 47 ∉ n /\ api_server_may k p c) /\
  (forall m, 47 ∉ m -> m <> B "+" ->
     granted (workshop_policy m) path c = true <-> exists k p, path = kv_path k m p /\ workshop_may k c) /\
  (forall n host sp, 47 ∉ n -> secret_path host = Some sp ->
     granted api_server_policy (data_of n sp) CCreate = true /\ granted api_server_policy (data_of n sp) CUpdate = true /\
     granted api_server_policy (metadata_of n sp) CDelete = true).
Proof.
  split_and!.
  - split.
    + intros Hg. pose proof Hg as (r & Hin & Hm & _)%granted_rules.
      destruct (api_server_rules_secret r Hin) as (k & x & Hx). rewrite Hx in Hm.
      apply rule_is_secret in Hm as (n & p & Hn & ->); [|auto]. exists k, n, p.
      split_and!; [done|done|]. by apply api_server_exact in Hg.
    + intros (k & n & p & -> & Hn & Hc). by apply api_server_exact.
  - intros m Hm Hp. by apply workshop_exact.
  - intros n host sp Hn Hsp. destruct (secret_path_shape host) as (slug & Hs & _). rewrite Hs in Hsp. injection Hsp as <-.
    split_and!; [apply (api_server_exact false); [done|right]|apply (api_server_exact false); [done|right]|
                 apply (api_server_exact true); [done|]]; by eexists.
Qed.

Lemma policies_exact_witness :
  granted api_server_policy (data_of (B "demo") (B "ssh_key")) CRead = true /\
  granted (workshop_policy (B "demo")) (metadata_of (B "demo") (B "git")) CList = true.
Proof.
  destruct (policies_exact (data_of (B "demo") (B "ssh_key")) CRead) as [H1 _].
  destruct (policies_exact (metadata_of (B "demo") (B "git")) CList) as (_ & H2 & _).
  split.
  - apply H1. exists false, (B "demo"), (B "ssh_key"). split_and!; [reflexivity| |by right].
    apply (bool_decide_unpack _). vm_compute. exact I.
  - apply (H2 (B "demo")); [apply (bool_decide_unpack _); vm_compute; exact I|vm_compute; discriminate|].
    exists true, (B "git"). split; [reflexivity|]. by right.
Defined.

(** ** What the controller relies on of OpenBao *)

(** The policies and the roles, which the two administrative paths write and remove, and no
    secret; a [PUT] of a secret is a [POST]. *)
Class BaoAdmin {S : Type} (tr : server S) `{!KvV2 tr} := {
  policy_view : S -> bytes -> option json;
  role_view : S -> bytes -> option json;
  admin_keeps s m n tok body id :
    kv_view (tr s (mkReq m (policy_path n) tok body)).1 id = kv_view s id /\
    kv_view (tr s (mkReq m (role_path n) tok body)).1 id = kv_view s id;
  policy_keeps_roles s m n tok body r : role_view (tr s (mkReq m (policy_path n) tok body)).1 r = role_view s r;
  role_keeps_policies s m n tok body p : policy_view (tr s (mkReq m (role_path n) tok body)).1 p = policy_view s p;
  policy_put s n tok body st b :
    (tr s (mkReq HPut (policy_path n) (Some tok) (Some body))).2 = Some (st, b) -> st < 400 ->
    policy_view (tr s (mkReq HPut (policy_path n) (Some tok) (Some body))).1 n = Some body;
  role_put s n tok body st b :
    (tr s (mkReq HPut (role_path n) (Some tok) (Some body))).2 = Some (st, b) -> st < 400 ->
    role_view (tr s (mkReq HPut (role_path n) (Some tok) (Some body))).1 n = Some body;
  policy_delete s n tok st b :
    (tr s (mkReq HDelete (policy_path n) (Some tok) None)).2 = Some (st, b) -> st < 400 \/ st = 404 ->
    policy_view (tr s (mkReq HDelete (policy_path n) (Some tok) None)).1 n = None;
  role_delete s n tok st b :
    (tr s (mkReq HDelete (role_path n) (Some tok) None)).2 = Some (st, b) -> st < 400 \/ st = 404 ->
    role_view (tr s (mkReq HDelete (role_path n) (Some tok) None)).1 n = None;
  put_is_post s tok id body :
    tr s (mkReq HPut (kv_data id) (Some tok) body) = tr s (mkReq HPost (kv_data id) (Some tok) body) }.

Section admin.
Context {S : Type} (tr : server S) `{KV : !KvV2 tr, AD : !BaoAdmin tr} (config : OpenBaoConfig).

Lemma sent_ok_Ok a u r x : sent_ok a u r = Ok x -> exists st, a = Some (st, x) /\ st < 400.
Proof. destruct a as [[st b]|]; cbn; [|done]. destruct (Z.leb_spec 400 st); [done|]. intros [= ->]. by exists st. Qed.

Lemma put_ok s path body s' : put tr config s path body = (s', Ok tt) ->
  s' = (tr s (mkReq HPut path (Some config.(bc_token)) (Some body))).1 /\
  exists st b, (tr s (mkReq HPut path (Some config.(bc_token)) (Some body))).2 = Some (st, b) /\ st < 400.
Proof.
  unfold put. destruct (tr s _) as [s1 a]. intros [= <- H]. split; [done|]. cbn [snd].
  destruct (sent_ok a _ _) as [b| |] eqn:E; cbn [mbind res_bind] in H; try done. apply sent_ok_Ok in E as (st & -> & Hst). by eexists _, _.
Qed.

(** A secret that was written holds these fields, and no other secret changed. *)
Lemma put_secret_ok s name path fields s' : put_secret tr config s name path fields = (s', Ok tt) ->
  (exists d, kv_view s' (secret_id name path) = Some d /\
             forall f, d !! f = as_str (jidx (JObj ((fun kv => (kv.1, JStr kv.2)) <$> fields)) f)) /\
  forall id, id <> secret_id name path -> kv_view s' id = kv_view s id.
Proof using AD.
  unfold put_secret. rewrite data_path_id. intros E. apply put_ok in E as (-> & st & b & Hst & Hlt). rewrite put_is_post in *. split.
  - pose proof (kv_post_done s config.(bc_token) _ _ st b Hst) as Hd. by rewrite (proj2 (Z.ltb_lt st 400)) in Hd by done.
  - intros id Hne. by apply kv_post_frame.
Qed.

Lemma delete_if_present_ok s path s' : delete_if_present tr config s path = (s', Ok tt) ->
  s' = (tr s (mkReq HDelete path (Some config.(bc_token)) None)).1 /\
  exists st b, (tr s (mkReq HDelete path (Some config.(bc_token)) None)).2 = Some (st, b) /\ (st < 400 \/ st = 404).
Proof.
  unfold delete_if_present. destruct (tr s _) as [s1 [[st b]|]]; [|done]. intros [= <- H]. split; [done|]. exists st, b. split; [done|].
  unfold is_success in H. destruct (Z.ltb_spec st 300), (Z.eqb_spec st 404); rewrite ?andb_false_r, ?orb_true_r in H; cbn in H;
    try (by right); try (left; lia).
Qed.

(** What a role that was ensured is: its policy, and the accounts that may take it. *)
Lemma ensure_role_ok s role ns accounts policy s' :
  ensure_role tr config s role ns accounts policy = (s', Ok tt) ->
  policy_view s' role = Some (JObj [(B "policy", JStr (hcl policy))]) /\ role_view s' role = Some (role_json accounts ns role) /\
  (forall id, kv_view s' id = kv_view s id).
Proof using AD.
  unfold ensure_role. destruct (put tr config s _ _) as [s1 [[]| |]] eqn:E1; [|done..].
  intros E2. apply put_ok in E1 as (-> & st & b & E1 & H1). apply put_ok in E2 as (-> & st' & b' & E2 & H2).
  split_and!.
  - rewrite role_keeps_policies. by eapply policy_put.
  - by eapply role_put.
  - intros id. by rewrite (proj2 (admin_keeps _ _ _ _ _ _)), (proj1 (admin_keeps _ _ _ _ _ _)).
Qed.

Lemma delete_role_keeps s n id : kv_view (delete_workshop_role tr config s n).1 id = kv_view s id.
Proof using AD.
  assert (H1 : forall s, (delete_if_present tr config s (role_path (role_name_of n))).1 = (tr s (mkReq HDelete (role_path (role_name_of n)) (Some config.(bc_token)) None)).1)
    by (intros s0; unfold delete_if_present; by destruct (tr s0 _)).
  assert (H2 : forall s, (delete_if_present tr config s (policy_path (role_name_of n))).1 = (tr s (mkReq HDelete (policy_path (role_name_of n)) (Some config.(bc_token)) None)).1)
    by (intros s0; unfold delete_if_present; by destruct (tr s0 _)).
  unfold delete_workshop_role. specialize (H1 s). destruct (delete_if_present tr config s _) as [s1 r]. cbn [fst] in H1. subst s1.
  destruct r; cbn [fst]; rewrite ?H2, ?(proj1 (admin_keeps _ _ _ _ _ _)); apply (proj2 (admin_keeps _ _ _ _ _ _)).
Qed.

(** The end of a Workshop.  When its finalizer is released, its role and its policy are
    gone from OpenBao, and the removal of its snapshots, local and remote, and of its key was
    asked for; a failure of OpenBao keeps the finalizer, with nothing else done.  But the
    secrets of the Workshop stay in the store, all of them. *)
Theorem cleanup_spec s s3 litellm ns name s' steps r :
  cleanup tr (Some config) s3 litellm s ns name = (s', steps, r) ->
  (r = Ok tt -> role_view s' (role_name_of name) = None /\ policy_view s' (role_name_of name) = None /\ steps = cleanup_steps s3 litellm ns name) /\
  (r <> Ok tt -> steps = []) /\ (forall id, kv_view s' id = kv_view s id).
Proof using AD.
  unfold cleanup. destruct (delete_workshop_role tr config s name) as [s1 r1] eqn:E. intros H.
  assert (Hs : s' = s1 /\ r = r1 /\ steps = match r1 with Ok _ => cleanup_steps s3 litellm ns name | _ => [] end)
    by (by destruct r1 as [[]| |]; injection H as <- <- <-). destruct Hs as (-> & -> & ->). split_and!.
  - intros ->. revert E. unfold delete_workshop_role. destruct (delete_if_present tr config s _) as [s2 [[]| |]] eqn:E1; [|done..].
    intros E2. apply delete_if_present_ok in E1 as (-> & st & b & E1 & H1). apply delete_if_present_ok in E2 as (-> & st' & b' & E2 & H2).
    split_and!; [|by eapply policy_delete|done]. rewrite policy_keeps_roles. by eapply role_delete.
  - by destruct r1 as [[]| |].
  - intros id. pose proof (delete_role_keeps s name id) as Hk. by rewrite E in Hk.
Qed.
End admin.

(** ** The secrets of a session *)

Section sessions.
Context {S : Type} (tr : server S) `{KV : !KvV2 tr, AD : !BaoAdmin tr} (config : OpenBaoConfig).

(** The password of a session.  One that is there is kept, and no secret changes, so that
    a reconciliation does not close the sessions; one that is not there is made.  But any
    answer that is no success is taken for an absence: an OpenBao that is busy for one request
    makes the next one replace the password of a live session. *)
Theorem session_auth_spec s name fresh s' r :
  ensure_session_auth tr config s name fresh = (s', r) ->
  let id := secret_id name (B "session_auth") in
  let answer := (tr s (mkReq HGet (kv_data id) (Some config.(bc_token)) None)).2 in
  (forall st j d pw, answer = Some (st, Some j) -> is_success st = true -> kv_view s id = Some d -> d !! B "password" = Some pw ->
     r = Ok pw /\ forall id', kv_view s' id' = kv_view s id') /\
  (forall st b, answer = Some (st, b) -> is_success st = false -> r = Ok fresh ->
     (exists d, kv_view s' id = Some d /\ d !! B "password" = Some fresh) /\
     forall id', id' <> id -> kv_view s' id' = kv_view s id') /\
  (forall pw, r = Ok pw -> pw = fresh \/ exists d, kv_view s id = Some d /\ d !! B "password" = Some pw).
Proof using AD.
  intros H id answer. unfold ensure_session_auth, read_existing in H. rewrite data_path_id in H. fold id in H.
  pose proof (fun id' => kv_get_view s config.(bc_token) id id') as Hview. pose proof (kv_get_answer s config.(bc_token) id) as Hans.
  subst answer. destruct (tr s (mkReq HGet _ _ _)) as [s1 a]. cbn [fst snd] in *.
  assert (Hput : forall s2 s3 rr, (let '(s, r) := put_secret tr config s2 name (B "session_auth") [(B "password", fresh)] in (s, _ ← r; Ok fresh)) = (s3, rr) -> rr = Ok fresh ->
    (exists d, kv_view s3 id = Some d /\ d !! B "password" = Some fresh) /\ forall id', id' <> id -> kv_view s3 id' = kv_view s2 id').
  { clear H. intros s2 s3 rr Hp ->. destruct (put_secret _ _ _ _ _ _) as [s4 [[]| |]] eqn:E; cbv beta iota in Hp;
      cbn [mbind res_bind] in Hp; [|discriminate Hp..]. injection Hp as <-. apply (put_secret_ok tr config) in E as [(d & Hd & Hf) Hfr]. split; [|done]. exists d. split; [done|]. by rewrite Hf. }
  assert (Hfresh : forall s2 s3 rr pw, (let '(s, r) := put_secret tr config s2 name (B "session_auth") [(B "password", fresh)] in (s, _ ← r; Ok fresh)) = (s3, rr) -> rr = Ok pw -> pw = fresh).
  { intros s2 s3 rr pw Hp ->. clear -Hp. destruct (put_secret _ _ _ _ _ _) as [s4 [[]| |]]; cbv beta iota in Hp; cbn [mbind res_bind] in Hp; congruence. }
  destruct a as [[st b]|].
  2: { injection H as <- <-. split_and!; [by intros ???? [=]|by intros ?? [=]|by intros ? [=]]. }
  destruct (is_success st) eqn:Est.
  - destruct b as [j|].
    2: { injection H as <- <-. split_and!; [by intros ???? [=]|intros ?? Heq Hs; injection Heq as <- _; congruence|by intros ? [=]]. }
    assert (Hst : st < 400) by (unfold is_success in Est; lia). destruct (Hans st j eq_refl Hst) as (d & Hd & Hf). specialize (Hf (B "password")).
    cbn [mbind option_bind] in H. unfold field_of in H. rewrite Hf in H. destruct (d !! B "password") as [pw|] eqn:Epw.
    + injection H as <- <-. split_and!; [|intros ?? Heq Hs; injection Heq as <- _; congruence|intros ? [= <-]; right; by exists d].
      intros ???? _ _ Hd' Hp. rewrite Hd in Hd'. injection Hd' as <-. rewrite Epw in Hp. by injection Hp as ->.
    + split_and!; [|intros ?? Heq Hs; injection Heq as <- _; congruence|intros pw Hr; left; by eapply Hfresh].
      intros ???? _ _ Hd' Hp. rewrite Hd in Hd'. injection Hd' as <-. by rewrite Epw in Hp.
  - cbn [mbind option_bind] in H. split_and!; [intros ???? Heq Hs; injection Heq as <- _; congruence| |intros pw Hr; left; by eapply Hfresh].
    intros st' b' _ _ ->. destruct (Hput _ _ _ H eq_refl) as [H1 H2]. split; [done|]. intros id' Hne. by rewrite H2, Hview.
Qed.

Lemma create_workshop_ok {K} `{!KubeApi K} (k k' : K) user claims req w :
  create_workshop k user claims req = (k', AOk w) ->
  kube_view k' !! req.(cr_name) = Some w /\ w.(w_spec).(owner_group) ∈ user.(groups).
Proof.
  unfold create_workshop. destruct (negb (may_provision claims)); [done|].
  destruct (resolve_owner_group _ user) as [g|] eqn:Eg; [|done]. destruct (validate_name _); [|done].
  destruct (kube_create k _) as [k3 [w'|c|]] eqn:Ek; cbn [from_kube]; [|by repeat case_match|done].
  intros [= <- <-]. apply kube_create_ok in Ek as [-> Ek]. split; [done|]. revert Eg. apply resolve_owner_group_member.
Qed.

(** The secrets of a Workshop outlive it.  Once its group has deleted it and its
    finalizer has run, anyone who may create Workshops can take its name, in another group;
    and the build of that Workshop clones with the Git credential of the first one. *)
Theorem secrets_outlive_workshop {K} `{!KubeApi K} rf env openbao s3 litellm s ns name s1 steps
    (k k1 k2 : K) owner newcomer claims req w d pw addr :
  delete_workshop k owner name = (k1, AOk tt) ->
  cleanup tr openbao s3 litellm s ns name = (s1, steps, Ok tt) ->
  create_workshop k1 newcomer claims req = (k2, AOk w) -> req.(cr_name) = name ->
  kv_view s (secret_id name (B "git")) = Some d -> d !! B "password" = Some pw -> env "OPENBAO_ADDR"%string = Some addr ->
  (forall s0, exists s2 t, login tr rf (client_from_env env name) s0 = (s2, Ok t) /\ kv_grants s2 t HGet (secret_id name (B "git")) = true) ->
  kube_view k2 !! name = Some w /\ w.(w_spec).(owner_group) ∈ newcomer.(groups) /\
  exists u, (resolve_git_credentials tr rf env s1 name).2 = Some (mkGit u pw).
Proof using AD.
  intros _ Hc Hcreate Hname Hd Hpw Henv Hlogin.
  assert (Hs1 : kv_view s1 (secret_id name (B "git")) = Some d).
  { unfold cleanup in Hc. destruct openbao as [c|].
    - pose proof (delete_role_keeps tr c s name (secret_id name (B "git"))) as Hk.
      destruct (delete_workshop_role tr c s name) as [s2 [[]| |]]; injection Hc as <- <-; cbn [fst] in Hk; by rewrite Hk.
    - by injection Hc as <- <-. }
  apply create_workshop_ok in Hcreate as (Hk2 & Hgrp). rewrite Hname in Hk2. split_and!; [done..|].
  unfold resolve_git_credentials. rewrite Henv. destruct (Hlogin s1) as (s2 & t & Hl & Hg). pose proof (login_frame tr rf (client_from_env env name) s1 (secret_id name (B "git"))) as Hf.
    rewrite Hl in *. cbn [fst] in Hf. unfold read_field. cbn [client_from_env from_env_with_role oc_workshop_name].
    pose proof (read_field_granted tr s2 t name (B "git") (B "password") d pw Hg) as Hread. rewrite Hf, Hs1 in Hread.
    specialize (Hread eq_refl Hpw). destruct (read_field_for tr s2 t name (B "git") (B "password")) as [s3' r3]. cbn [snd] in Hread. subst r3.
    destruct (read_field_for tr s3' t name (B "git") (B "username")) as [s4 r4]. by eexists.
Qed.
End sessions.

(** ** A server with its policies and its roles *)

(** The store of [toy_server], which accepts its token for the administrative paths. *)
Record admin_state := mkAdmin {
  ad_secrets : gmap bytes (gmap bytes bytes); ad_policies : gmap bytes json; ad_roles : gmap bytes json }.
(** One of the two tables, under its prefix. *)
Definition toy_table (t : gmap bytes json) (granted : bool) (name : bytes) (req : bao_request)
  : gmap bytes json * option (Z * option json) :=
  if granted
  then match req.(br_method), req.(br_body) with
       | HPut, Some j => (<[name := j]> t, Some (204, None))
       | HDelete, _ => match t !! name with Some _ => (delete name t, Some (204, None)) | None => (t, Some (404, None)) end
       | _, _ => (t, Some (405, None))
       end
  else (t, Some (403, None)).
Definition toy_admin : server admin_state := fun s req =>
  let granted := bool_decide (req.(br_token) = Some toy_token) in
  match strip_prefix (policy_path []) req.(br_path), strip_prefix (role_path []) req.(br_path) with
  | Some n, _ => let '(t, a) := toy_table s.(ad_policies) granted n req in (mkAdmin s.(ad_secrets) t s.(ad_roles), a)
  | None, Some n => let '(t, a) := toy_table s.(ad_roles) granted n req in (mkAdmin s.(ad_secrets) s.(ad_policies) t, a)
  | None, None => let '(t, a) := toy_server s.(ad_secrets) req in (mkAdmin t s.(ad_policies) s.(ad_roles), a)
  end.

Lemma toy_admin_kv s m p tok body (H1 : strip_prefix (policy_path []) p = None) (H2 : strip_prefix (role_path []) p = None) :
  ad_secrets (toy_admin s (mkReq m p tok body)).1 = (toy_server (ad_secrets s) (mkReq m p tok body)).1 /\
  (toy_admin s (mkReq m p tok body)).2 = (toy_server (ad_secrets s) (mkReq m p tok body)).2.
Proof. unfold toy_admin. cbn [br_path]. rewrite H1, H2. by destruct (toy_server _ _). Qed.

Lemma toy_admin_policy s m n tok body :
  toy_admin s (mkReq m (policy_path n) tok body) =
  let '(t, a) := toy_table s.(ad_policies) (bool_decide (tok = Some toy_token)) n (mkReq m (policy_path n) tok body) in
  (mkAdmin s.(ad_secrets) t s.(ad_roles), a).
Proof. unfold toy_admin. cbn [br_path br_token]. unfold policy_path at 1 2. by rewrite app_nil_r, strip_prefix_app. Qed.
Lemma toy_admin_role s m n tok body :
  toy_admin s (mkReq m (role_path n) tok body) =
  let '(t, a) := toy_table s.(ad_roles) (bool_decide (tok = Some toy_token)) n (mkReq m (role_path n) tok body) in
  (mkAdmin s.(ad_secrets) s.(ad_policies) t, a).
Proof.
  unfold toy_admin. cbn [br_path br_token]. replace (strip_prefix (policy_path []) (role_path n)) with (@None bytes) by reflexivity.
  unfold role_path at 1 2. by rewrite app_nil_r, strip_prefix_app.
Qed.

#[export, refine] Instance toy_admin_kvv2 : KvV2 toy_admin :=
  {| kv_view s id := s.(ad_secrets) !! id; kv_grants s tok m id := bool_decide (tok = toy_token) |}.
Proof.
  all: intros s.
  - intros body id. rewrite (proj1 (toy_admin_kv _ _ (B "/v1/auth/kubernetes/login") _ _ eq_refl eq_refl)). exact (kv_login_view (tr := toy_server) s.(ad_secrets) body id).
  - intros tok id id'. rewrite (proj1 (toy_admin_kv _ _ (kv_data id) _ _ eq_refl eq_refl)). exact (kv_get_view (tr := toy_server) s.(ad_secrets) tok id id').
  - intros tok id st j. rewrite (proj2 (toy_admin_kv _ _ (kv_data id) _ _ eq_refl eq_refl)). exact (kv_get_answer (tr := toy_server) s.(ad_secrets) tok id st j).
  - intros tok id d. rewrite (proj2 (toy_admin_kv _ _ (kv_data id) _ _ eq_refl eq_refl)). exact (kv_get_granted (tr := toy_server) s.(ad_secrets) tok id d).
  - intros tok id id' body. rewrite (proj1 (toy_admin_kv _ _ (kv_data id) _ _ eq_refl eq_refl)). exact (kv_post_frame (tr := toy_server) s.(ad_secrets) tok id id' body).
  - intros tok id data st b. rewrite (proj1 (toy_admin_kv _ _ (kv_data id) _ _ eq_refl eq_refl)), (proj2 (toy_admin_kv _ _ (kv_data id) _ _ eq_refl eq_refl)).
    exact (kv_post_done (tr := toy_server) s.(ad_secrets) tok id data st b).
  - intros tok id id'. rewrite (proj1 (toy_admin_kv _ _ (kv_metadata id) _ _ eq_refl eq_refl)). exact (kv_delete_frame (tr := toy_server) s.(ad_secrets) tok id id').
  - intros tok id st b. rewrite (proj1 (toy_admin_kv _ _ (kv_metadata id) _ _ eq_refl eq_refl)), (proj2 (toy_admin_kv _ _ (kv_metadata id) _ _ eq_refl eq_refl)).
    exact (kv_delete_done (tr := toy_server) s.(ad_secrets) tok id st b).
Defined.

Lemma toy_table_put t granted n p tok body st b :
  (toy_table t granted n (mkReq HPut p tok (Some body))).2 = Some (st, b) -> st < 400 ->
  (toy_table t granted n (mkReq HPut p tok (Some body))).1 !! n = Some body.
Proof. unfold toy_table. destruct granted; cbn; [|intros [= <- <-]; lia]. intros _ _. by rewrite lookup_insert_eq. Qed.
Lemma toy_table_delete t granted n p tok st b :
  (toy_table t granted n (mkReq HDelete p tok None)).2 = Some (st, b) -> st < 400 \/ st = 404 ->
  (toy_table t granted n (mkReq HDelete p tok None)).1 !! n = None.
Proof.
  unfold toy_table. destruct granted; cbn; [|intros [= <- <-]; lia]. destruct (t !! n) eqn:E; cbn; intros _ _; [|done]. by rewrite lookup_delete_eq.
Qed.

#[export, refine] Instance toy_admin_bao : BaoAdmin toy_admin :=
  {| policy_view s n := s.(ad_policies) !! n; role_view s n := s.(ad_roles) !! n |}.
Proof.
  - intros. rewrite toy_admin_policy, toy_admin_role. by destruct (toy_table _ _ _ _), (toy_table _ _ _ _).
  - intros. rewrite toy_admin_policy. by destruct (toy_table _ _ _ _).
  - intros. rewrite toy_admin_role. by destruct (toy_table _ _ _ _).
  - intros s n tok body st b. rewrite toy_admin_policy. destruct (toy_table _ _ _ _) as [t a] eqn:E. cbn [fst snd ad_policies].
    intros -> Hst. pose proof (toy_table_put (ad_policies s) (bool_decide (Some tok = Some toy_token)) n (policy_path n) (Some tok) body st b) as H.
    rewrite E in H. by apply H.
  - intros s n tok body st b. rewrite toy_admin_role. destruct (toy_table _ _ _ _) as [t a] eqn:E. cbn [fst snd ad_roles].
    intros -> Hst. pose proof (toy_table_put (ad_roles s) (bool_decide (Some tok = Some toy_token)) n (role_path n) (Some tok) body st b) as H.
    rewrite E in H. by apply H.
  - intros s n tok st b. rewrite toy_admin_policy. destruct (toy_table _ _ _ _) as [t a] eqn:E. cbn [fst snd ad_policies].
    intros -> Hst. pose proof (toy_table_delete (ad_policies s) (bool_decide (Some tok = Some toy_token)) n (policy_path n) (Some tok) st b) as H.
    rewrite E in H. by apply H.
  - intros s n tok st b. rewrite toy_admin_role. destruct (toy_table _ _ _ _) as [t a] eqn:E. cbn [fst snd ad_roles].
    intros -> Hst. pose proof (toy_table_delete (ad_roles s) (bool_decide (Some tok = Some toy_token)) n (role_path n) (Some tok) st b) as H.
    rewrite E in H. by apply H.
  - intros s tok id body. unfold toy_admin. cbn [br_path br_token]. by destruct body.
Defined.

Definition toy_bao : OpenBaoConfig := mkBaoConfig (B "http://openbao:8200") toy_token (B "http://openbao:8200").
Definition toy_git : gmap bytes bytes := {[B "password" := B "glpat-1"]}.
Definition toy_store : admin_state := mkAdmin {[secret_id (B "demo") (B "git") := toy_git]} ∅ ∅.
Definition toy_env (name : string) : option bytes :=
  if String.eqb name "OPENBAO_ADDR" then Some (B "http://openbao:8200") else None.
Definition toy_jwt (path : bytes) : option bytes := Some (B "jwt").
Definition toy_dev : Claims := mkClaims (B "mallory") None None (Some [B "others"]) (Some [DEVELOPER_ROLE]).
Definition toy_request : CreateWorkshopRequest :=
  mkCreate (B "demo") (mkSource (B "https://forge/b.git") default_revision default_devcontainer_path true)
    (mkResources (B "1") (B "1Gi") None None) [] None [] [] None [] [] [] None default_services.

Lemma cleanup_spec_witness :
  (cleanup toy_admin (Some toy_bao) false false toy_store (B "ws") (B "demo")).2 = Ok tt /\
  (role_view (cleanup toy_admin (Some toy_bao) false false toy_store (B "ws") (B "demo")).1.1 (role_name_of (B "demo")) = None).
Proof.
  split; [vm_compute; reflexivity|].
  refine (proj1 (proj1 (cleanup_spec toy_admin toy_bao toy_store false false (B "ws") (B "demo") _ _ (Ok tt) _) eq_refl));
    vm_compute; reflexivity.
Defined.

Lemma session_auth_spec_witness :
  exists d, kv_view (ensure_session_auth toy_admin toy_bao toy_store (B "demo") (B "pw")).1 (secret_id (B "demo") (B "session_auth")) = Some d /\
    d !! B "password" = Some (B "pw").
Proof.
  destruct (session_auth_spec toy_admin toy_bao toy_store (B "demo") (B "pw")
    (ensure_session_auth toy_admin toy_bao toy_store (B "demo") (B "pw")).1 (Ok (B "pw"))) as (_ & H & _); [vm_compute; reflexivity|].
  destruct (H 404 None) as [Hd _]; [vm_compute; reflexivity..|]. exact Hd.
Defined.

Lemma secrets_outlive_workshop_witness :
  exists u, (resolve_git_credentials toy_admin toy_jwt toy_env
    (cleanup toy_admin (Some toy_bao) false false toy_store (B "ws") (B "demo")).1.1 (B "demo")).2 = Some (mkGit u (B "glpat-1")).
Proof.
  refine (proj2 (proj2 (secrets_outlive_workshop toy_admin toy_jwt toy_env (Some toy_bao) false false toy_store (B "ws") (B "demo")
    (cleanup toy_admin (Some toy_bao) false false toy_store (B "ws") (B "demo")).1.1
    (cleanup toy_admin (Some toy_bao) false false toy_store (B "ws") (B "demo")).1.2
    toy_cluster (∅ : toy_kube) (create_workshop (∅ : toy_kube) mallory toy_dev toy_request).1 alice mallory toy_dev toy_request
    (workshop_of_request toy_request (B "others") (B "mallory")) toy_git (B "glpat-1") (B "http://openbao:8200") _ _ _ _ _ _ _ _)));
    [vm_compute; reflexivity..|].
  intros s0. exists s0, toy_token. by destruct s0.
Defined.
