(* ===== verification/Eviction.v ===== *)
(** The eviction of the local image cache: [src/crates/controller/src/eviction.rs], with the
    shell script its Job runs, and [fn digest_cache_subdir] of
    [src/crates/controller/src/storage.rs].

    The directory of the cache is a list of entries in the order of a glob; [mc stat] is a
    parameter, the entries it finds on S3.  The script is modelled as it runs alone: an image
    published while it runs is not. *)

From stdpp Require Import sorting.
From S2P Require Import Prelude RustStr Storage Provision.

(** ** The passes *)

(** [const DEFAULT_THRESHOLD_GB], [const DEFAULT_IMAGE] and [const JOB_DEADLINE_SECS]. *)
Definition DEFAULT_THRESHOLD_GB : Z := 15.
Definition DEFAULT_IMAGE : bytes := B "minio/mc:latest".
Definition JOB_DEADLINE_SECS : Z := 15 * 60.

(** A Job: the conditions of its status, of which a type and a status. *)
Record Job := mkJob { job_conditions : option (list (bytes * bytes)) }.

(** [fn has_active_job]. *)
Definition terminal (c : bytes * bytes) : bool :=
  (beq c.1 (B "Complete") || beq c.1 (B "Failed")) && beq c.2 (B "True").
Definition job_done (j : Job) : bool :=
  match j.(job_conditions) with Some conditions => existsb terminal conditions | None => false end.
Definition has_active_job (jobs : list Job) : bool := existsb (fun j => negb (job_done j)) jobs.

(** What [fn run_periodic] reads before its loop, and the Job [fn run_once] applies. *)
Record eviction_config := mkEviction {
  ev_pod_endpoint : bytes; ev_bucket : bytes; ev_image : bytes; ev_threshold_gb : Z }.
Definition run_periodic (env : string -> option bytes) : option eviction_config :=
  match s3_config_from_env env with
  | Ok (Some s3) =>
      match s3.(bucket_image_cache) with
      | Some bucket =>
          Some (mkEviction (default s3.(endpoint) (env "ATELIER_S3_POD_ENDPOINT"%string)) bucket
            (match env "ATELIER_EVICTION_IMAGE"%string with
             | Some v => match trim v with [] => DEFAULT_IMAGE | _ => v end
             | None => DEFAULT_IMAGE
             end)
            (match env "ATELIER_IMAGE_CACHE_EVICTION_THRESHOLD_GB"%string with
             | Some v => default DEFAULT_THRESHOLD_GB (parse_u64 v)
             | None => DEFAULT_THRESHOLD_GB
             end))
      | None => None
      end
  | _ => None
  end.
(** [fn run_once]: the Jobs of the namespace that have the label, unless they cannot be
    listed; [applied] is the outcome of the patch.  The new Job has no status. *)
Definition run_once (listed : bool) (applied : bool) (jobs : list Job) : list Job * res unit :=
  if negb listed then (jobs, Err "liste des Jobs")
  else if has_active_job jobs then (jobs, Ok tt)
  else if applied then (jobs ++ [mkJob None], Ok tt)
  else (jobs, Err "creation du Job").

(** The life of these Jobs: a tick of the controller, Kubernetes that writes a status which
    does not undo a terminal condition, and removes a finished Job. *)
Inductive job_step : list Job -> list Job -> Prop :=
| step_tick listed applied jobs : job_step jobs (run_once listed applied jobs).1
| step_status jobs i j j' :
    jobs !! i = Some j -> (job_done j = true -> job_done j' = true) -> job_step jobs (<[i := j']> jobs)
| step_expired jobs1 j jobs2 : job_done j = true -> job_step (jobs1 ++ j :: jobs2) (jobs1 ++ jobs2).

(** ** The script *)

(** [fn digest_cache_subdir]. *)
Definition digest_cache_subdir (digest : bytes) : bytes := (fun b => if b =? 58 then 95 else b) <$> digest.

(** An entry of the mount: what [stat] and [du -sb] say of it. *)
Record entry := mkEntry { en_name : bytes; en_mtime : Z; en_size : Z; en_dir : bool }.
Definition is_image (e : entry) : bool := starts_with e.(en_name) (B "sha256_").

(** [total_bytes]: the sum of [du -sb sha256_*], 0 when there is none. *)
Definition total_bytes (c : list entry) : Z := foldr Z.add 0 (en_size <$> base.filter (fun e => is_image e = true) c).

(** [threshold_bytes=$(( N * 1024 * 1024 * 1024 ))], in the signed 64-bit integers of the shell. *)
Definition wrap_i64 (z : Z) : Z := (z + 2 ^ 63) mod 2 ^ 64 - 2 ^ 63.
Definition threshold_bytes (threshold_gb : Z) : Z := wrap_i64 (threshold_gb * 1024 * 1024 * 1024).

(** [sort -n] of the lines [mtime path]: of two of the same age, the one that comes first in
    the order of the names, which is the one of the glob, comes first. *)
Fixpoint insert_line (e : entry) (l : list entry) : list entry :=
  match l with
  | [] => [e]
  | e' :: l' => if e.(en_mtime) <=? e'.(en_mtime) then e :: l else e' :: insert_line e l'
  end.
Definition sort_n (l : list entry) : list entry := foldr insert_line [] l.

(** The entries the loop reads: the directories of the glob, the oldest first. *)
Definition candidates (c : list entry) : list entry :=
  sort_n (base.filter (fun e => is_image e = true /\ e.(en_dir) = true) c).

(** [rm -rf mount/dirname]. *)
Definition rm_rf (name : bytes) (c : list entry) : list entry := base.filter (fun e => e.(en_name) <> name) c.

Section script.
Context (on_s3 : bytes -> bool).
(** The [while read] loop, and the script. *)
Fixpoint evict (threshold : Z) (lines : list entry) (c : list entry) : list entry :=
  match lines with
  | [] => c
  | e :: lines =>
      if total_bytes c <=? threshold then c
      else if on_s3 e.(en_name) then evict threshold lines (rm_rf e.(en_name) c)
      else evict threshold lines c
  end.
Definition eviction_script (threshold_gb : Z) (c : list entry) : list entry :=
  let threshold := threshold_bytes threshold_gb in
  if total_bytes c <=? threshold then c else evict threshold (candidates c) c.
End script.

(** ** One pass at a time *)

Definition active (jobs : list Job) : nat := length (base.filter (fun j => job_done j = false) jobs).

Lemma active_app l1 l2 : active (l1 ++ l2) = (active l1 + active l2)%nat.
Proof. unfold active. by rewrite filter_app, length_app. Qed.
Lemma active_cons j l : active (j :: l) = ((if job_done j then 0 else 1) + active l)%nat.
Proof. unfold active. rewrite filter_cons. destruct (job_done j); by destruct (decide _). Qed.

Lemma has_active_job_spec jobs : has_active_job jobs = false <-> active jobs = 0%nat.
Proof.
  induction jobs as [|j jobs IH]; [done|]. rewrite active_cons. unfold has_active_job in *. cbn [existsb].
  destruct (job_done j); cbn [negb orb]; [by rewrite IH|]. split; [done|lia].
Qed.

Lemma job_step_active jobs jobs' : job_step jobs jobs' -> (active jobs <= 1)%nat -> (active jobs' <= 1)%nat.
Proof.
  intros [listed applied l|l i j j' Hi Hj|l1 j l2 Hj] H; unfold run_once.
  - destruct listed; [|done]. destruct (has_active_job l) eqn:E; [done|]. destruct applied; [|done]. cbn [negb fst].
    apply has_active_job_spec in E. by rewrite active_app, E.
  - pose proof (take_drop_middle _ _ _ Hi) as Hl. rewrite insert_take_drop by by eapply lookup_lt_Some.
    rewrite <-Hl in H. revert H. rewrite !active_app, !active_cons. destruct (job_done j), (job_done j'); lia.
  - revert H. rewrite !active_app, active_cons, Hj. lia.
Qed.

(** Whatever the interleaving of the ticks with the Jobs that start, fail and expire, one
    eviction pass at most is unfinished at a time; and a tick that finds none, and reaches
    Kubernetes, starts one. *)
Theorem one_pass_at_a_time jobs :
  rtc job_step [] jobs ->
  (active jobs <= 1)%nat /\ (active jobs = 0%nat -> active (run_once true true jobs).1 = 1%nat).
Proof.
  intros H. split.
  - assert (Hinv : forall l l', rtc job_step l l' -> (active l <= 1)%nat -> (active l' <= 1)%nat)
      by (induction 1; eauto using job_step_active). eapply Hinv; [exact H|]. cbv. lia.
  - intros H0. unfold run_once. cbn [negb]. rewrite (proj2 (has_active_job_spec _) H0). cbn [fst]. by rewrite active_app, H0.
Qed.

Lemma one_pass_at_a_time_witness : rtc job_step [] [mkJob None] /\ (active [mkJob None] <= 1)%nat.
Proof.
  assert (H : rtc job_step [] [mkJob None]) by (eapply rtc_once, (step_tick true true [])).
  split; [exact H|]. exact (proj1 (one_pass_at_a_time [mkJob None] H)).
Defined.

(** ** What is evicted *)

Lemma fmap_NoDup_inj {A B} (f : A -> B) l x y : NoDup (f <$> l) -> x ∈ l -> y ∈ l -> f x = f y -> x = y.
Proof.
  intros Hnd [i Hi]%list_elem_of_lookup [j Hj]%list_elem_of_lookup Hf.
  assert (i = j) as -> by (eapply NoDup_lookup; [exact Hnd|by rewrite list_lookup_fmap, Hi|rewrite list_lookup_fmap, Hj; cbn; by rewrite Hf]).
  congruence.
Qed.

(** The directory without the entries of a list. *)
Definition without (l c : list entry) : list entry := base.filter (fun e => e.(en_name) ∉ (en_name <$> l)) c.

Lemma without_nil c : without [] c = c.
Proof. unfold without. apply list_filter_all. intros e _. apply not_elem_of_nil. Qed.
Lemma without_cons e l c : without l (rm_rf e.(en_name) c) = without (e :: l) c.
Proof.
  unfold without, rm_rf. rewrite list_filter_filter. apply list_filter_iff. intros x. rewrite fmap_cons, not_elem_of_cons. tauto.
Qed.
Lemma elem_of_without e l c : e ∈ without l c <-> e ∈ c /\ e.(en_name) ∉ (en_name <$> l).
Proof. unfold without. rewrite list_elem_of_filter. tauto. Qed.

Lemma insert_line_perm e l : insert_line e l ≡ₚ e :: l.
Proof. induction l as [|x l IH]; [done|]. cbn. case_match; [done|]. rewrite IH. apply Permutation_swap. Qed.
Lemma sort_n_perm l : sort_n l ≡ₚ l.
Proof. induction l as [|e l IH]; [done|]. cbn. by rewrite insert_line_perm, IH. Qed.

Definition older (e e' : entry) : Prop := e.(en_mtime) <= e'.(en_mtime).
Lemma insert_line_sorted e l : StronglySorted older l -> StronglySorted older (insert_line e l).
Proof.
  induction 1 as [|x l Hl IH Hx]; cbn; [by repeat constructor|]. destruct (Z.leb_spec (en_mtime e) (en_mtime x)).
  - constructor; [by constructor|]. constructor; [done|]. eapply Forall_impl; [exact Hx|]. unfold older. lia.
  - constructor; [done|]. rewrite insert_line_perm. constructor; [unfold older; lia|done].
Qed.
Lemma sort_n_sorted l : StronglySorted older (sort_n l).
Proof. induction l as [|e l IH]; cbn; [constructor|]. by apply insert_line_sorted. Qed.

Lemma StronglySorted_list_filter {A} (R : relation A) (P : A -> Prop) `{!forall x, Decision (P x)} l :
  StronglySorted R l -> StronglySorted R (base.filter P l).
Proof.
  induction 1 as [|x l Hl IH Hx]; [constructor|]. rewrite filter_cons. case_decide; [|done]. constructor; [done|].
  apply Forall_forall. intros y [_ Hy]%list_elem_of_filter. rewrite Forall_forall in Hx. by apply Hx.
Qed.

Section evicted.
Context (on_s3 : bytes -> bool).

(** The directories that are on S3, the oldest first. *)
Definition evictable (c : list entry) : list entry := base.filter (fun e => on_s3 e.(en_name) = true) (candidates c).

Lemma elem_of_evictable e c :
  e ∈ evictable c <-> e ∈ c /\ is_image e = true /\ e.(en_dir) = true /\ on_s3 e.(en_name) = true.
Proof. unfold evictable, candidates. rewrite list_elem_of_filter, sort_n_perm, list_elem_of_filter. tauto. Qed.

(** The loop removes the shortest prefix that is enough. *)
Lemma evict_prefix threshold lines c :
  let todo := base.filter (fun e => on_s3 e.(en_name) = true) lines in
  exists k, (k <= length todo)%nat /\ evict on_s3 threshold lines c = without (take k todo) c /\
    (forall j, (j < k)%nat -> threshold < total_bytes (without (take j todo) c)) /\
    (k = length todo \/ total_bytes (evict on_s3 threshold lines c) <= threshold).
Proof.
  revert c. induction lines as [|e lines IH]; intros c todo; subst todo.
  { exists 0%nat. cbn. rewrite without_nil. split_and!; [lia|done|lia|by left]. }
  cbn [evict]. rewrite filter_cons. destruct (Z.leb_spec (total_bytes c) threshold) as [Hle|Hgt].
  { exists 0%nat. rewrite take_0, without_nil. split_and!; [lia|done|lia|by right]. }
  destruct (on_s3 (en_name e)); [rewrite decide_True by done|rewrite decide_False by done; apply IH].
  destruct (IH (rm_rf (en_name e) c)) as (k & Hk & Heq & Hbefore & Hend). exists (S k). cbn [length take].
  rewrite <-without_cons. split_and!; [lia|done| |destruct Hend; [left; lia|by right]].
  intros [|j] Hj; [by rewrite take_0, without_nil|]. cbn [take]. rewrite <-without_cons. apply Hbefore. lia.
Qed.

Lemma eviction_prefix gb c :
  exists k, (k <= length (evictable c))%nat /\ eviction_script on_s3 gb c = without (take k (evictable c)) c /\
    (forall j, (j < k)%nat -> threshold_bytes gb < total_bytes (without (take j (evictable c)) c)) /\
    (k = length (evictable c) \/ total_bytes (eviction_script on_s3 gb c) <= threshold_bytes gb).
Proof.
  unfold eviction_script. destruct (Z.leb_spec (total_bytes c) (threshold_bytes gb)) as [H|H]; [|apply evict_prefix].
  exists 0%nat. rewrite take_0, without_nil. split_and!; [lia|done|lia|by right].
Qed.

(** C34: The eviction is exactly its policy.  It removes the shortest prefix, the oldest
    first, of the image directories that are on S3 which brings the size of the images under
    the threshold, or all of them when that is not enough: nothing that S3 does not have is
    removed, no snapshot is, and nothing when the cache is small enough. *)
Theorem eviction_exact gb c :
  NoDup (en_name <$> c) ->
  let c' := eviction_script on_s3 gb c in
  (exists k, c' = without (take k (evictable c)) c /\
     (forall j, (j < k)%nat -> threshold_bytes gb < total_bytes (without (take j (evictable c)) c)) /\
     ((length (evictable c) <= k)%nat \/ total_bytes c' <= threshold_bytes gb)) /\
  (forall e, e ∈ c -> e ∉ c' -> is_image e = true /\ e.(en_dir) = true /\ on_s3 e.(en_name) = true) /\
  (forall e e', e ∈ c -> e ∉ c' -> e' ∈ c' -> e' ∈ evictable c -> e.(en_mtime) <= e'.(en_mtime)).
Proof.
  intros Hnd c'. destruct (eviction_prefix gb c) as (k & Hk & Heq & Hbefore & Hend). fold c' in Heq, Hend.
  assert (Hgone : forall e, e ∈ c -> e ∉ c' -> e ∈ take k (evictable c)).
  { intros e He Hn. rewrite Heq, elem_of_without in Hn. destruct (decide (en_name e ∈ en_name <$> take k (evictable c))) as [Hin|]; [|tauto].
    apply list_elem_of_fmap in Hin as (x & Hx & Hin). assert (Hxc : x ∈ c).
    { apply (elem_of_evictable x c). eapply elem_of_take in Hin as (i & Hi & _). by eapply list_elem_of_lookup_2. }
    by rewrite (fmap_NoDup_inj en_name c e x). }
  split_and!.
  - exists k. split_and!; [done|done|destruct Hend; [left; lia|by right]].
  - intros e He Hn. specialize (Hgone e He Hn). apply (elem_of_evictable e c). rewrite <-(take_drop k (evictable c)). set_solver.
  - intros e e' He Hn He' Hev. apply (StronglySorted_app_1_elem_of older (take k (evictable c)) (drop k (evictable c))).
    + rewrite take_drop. apply StronglySorted_list_filter, sort_n_sorted.
    + by apply Hgone.
    + rewrite <-(take_drop k (evictable c)), elem_of_app in Hev. destruct Hev as [Hev|]; [|done].
      rewrite Heq, elem_of_without in He'. destruct He' as [_ []]. by apply list_elem_of_fmap_2.
Qed.
End evicted.

(** The shell's threshold is the configured one below 2^33 GiB, and negative there. *)
Lemma threshold_bytes_small gb : 0 <= gb < 2 ^ 33 -> threshold_bytes gb = gb * 2 ^ 30.
Proof. intros H. unfold threshold_bytes, wrap_i64. rewrite Z.mod_small; lia. Qed.
Lemma threshold_bytes_overflow : threshold_bytes (2 ^ 33) = - 2 ^ 63.
Proof. reflexivity. Qed.

(** An image that is evicted is on S3 under the key it was uploaded with, but is no longer at
    the only place where the pod of a Workshop looks for its [rootfs.ext4]. *)
Lemma evicted_image_only_on_s3 (keys : gset bytes) gb c digest e :
  let on_s3 name := bool_decide (B "images/" ++ name ++ B "/rootfs.ext4" ∈ keys) in
  NoDup (en_name <$> c) -> e ∈ c -> e.(en_name) = digest_cache_subdir digest -> e ∉ eviction_script on_s3 gb c ->
  image_cache_key digest ∈ keys /\
  Forall (fun e' => e'.(en_name) <> digest_cache_subdir digest) (eviction_script on_s3 gb c).
Proof.
  intros on_s3 Hnd He Hname Hgone. destruct (eviction_prefix on_s3 gb c) as (k & _ & Heq & _). rewrite Heq in *.
  assert (Hin : en_name e ∈ en_name <$> take k (evictable on_s3 c)).
  { destruct (decide (en_name e ∈ en_name <$> take k (evictable on_s3 c))) as [|Hn]; [done|]. destruct Hgone. by apply elem_of_without. }
  split.
  - apply list_elem_of_fmap in Hin as (x & Hx & Hin). apply elem_of_take in Hin as (i & Hi & _).
    apply list_elem_of_lookup_2, elem_of_evictable in Hi as (_ & _ & _ & Hs3). unfold on_s3 in Hs3.
    rewrite <-Hx, Hname in Hs3. by apply bool_decide_eq_true in Hs3.
  - apply Forall_forall. intros x [_ Hx]%elem_of_without Hxn. by rewrite Hxn, <-Hname in Hx.
Qed.

Definition toy_cache : list entry :=
  [mkEntry (B "sha256_a") 30 (9 * 2 ^ 30) true; mkEntry (B "sha256_b") 10 (9 * 2 ^ 30) true;
   mkEntry (B "sha256_c") 20 (9 * 2 ^ 30) true; mkEntry (B "snapshots") 1 (40 * 2 ^ 30) true].

(** Of three images of 9 GiB, with 20 GiB allowed, the oldest that S3 has goes. *)
Lemma eviction_exact_witness :
  eviction_script (fun n => negb (beq n (B "sha256_b"))) 20 toy_cache =
    [mkEntry (B "sha256_a") 30 (9 * 2 ^ 30) true; mkEntry (B "sha256_b") 10 (9 * 2 ^ 30) true; mkEntry (B "snapshots") 1 (40 * 2 ^ 30) true] /\
  is_image (mkEntry (B "sha256_c") 20 (9 * 2 ^ 30) true) = true.
Proof.
  split; [vm_compute; reflexivity|].
  refine (proj1 (proj1 (proj2 (eviction_exact (fun n => negb (beq n (B "sha256_b"))) 20 toy_cache _))
    (mkEntry (B "sha256_c") 20 (9 * 2 ^ 30) true) _ _)).
  - apply (bool_decide_unpack _). vm_compute. exact I.
  - right. right. left.
  - assert (H : en_name <$> eviction_script (fun n => negb (beq n (B "sha256_b"))) 20 toy_cache = [B "sha256_a"; B "sha256_b"; B "snapshots"])
      by (vm_compute; reflexivity).
    intros Hin. apply (list_elem_of_fmap_2 en_name) in Hin. rewrite H in Hin. revert Hin. apply (bool_decide_unpack _). vm_compute. exact I.
Defined.
