(* ===== verification/VmResources.v ===== *)
(** The resources of a microVM, from the specification of the Workshop to the disk of the
    guest: the quantities and the container of vm-supervisor in
    [src/crates/controller/src/reconcile.rs], the configuration
    [src/crates/vm-supervisor/src/main.rs] reads from its environment, and
    [src/crates/firecracker/src/rootfs.rs]. *)

From Stdlib Require Import SpecFloat.
From S2P Require Import Prelude RustStr F64 Crd PodSpec Storage VmSupervisor Firewall Provision Eviction.

(** ** Quantities *)

(** [str::parse::<u32>] and [str::parse::<u8>]. *)
Definition parse_u32_dec : bytes -> option Z := from_str_radix 10 U32_MAX.
Definition parse_u8_dec : bytes -> option Z := from_str_radix 10 U8_MAX.

(** [f64] literals of the source. *)
Definition f1024 : f64 := f64_of_Z 1024.
Definition f1 : f64 := f64_of_Z 1.
Definition f_mib : f64 := fmul f1024 f1024.

(** [fn memory_to_mib]. *)
Definition memory_to_mib (memory : bytes) : option Z :=
  let memory := trim memory in
  let '(digits, mebibytes_per_unit) :=
    match strip_suffix (B "Gi") memory, strip_suffix (B "Mi") memory, strip_suffix (B "Ki") memory with
    | Some n, _, _ => (n, f1024)
    | None, Some n, _ => (n, f1)
    | None, None, Some n => (n, fdiv f1 f1024)
    | None, None, None =>
        match strip_suffix (B "G") memory, strip_suffix (B "M") memory, strip_suffix (B "K") memory with
        | Some n, _, _ => (n, fdiv (f64_of_Z 1000000000) f_mib)
        | None, Some n, _ => (n, fdiv (f64_of_Z 1000000) f_mib)
        | None, None, Some n => (n, fdiv (f64_of_Z 1000) f_mib)
        | None, None, None => (memory, fdiv f1 f_mib)
        end
    end in
  value ← parse_f64 digits;
  let x := fmul value mebibytes_per_unit in
  Some (saturate U32_MAX x (round_Z x)).

(** [const DEFAULT_MAX_DISK_MIB], [fn max_disk_mib] and [fn disk_to_mib]. *)
Definition DEFAULT_MAX_DISK_MIB : Z := 20 * 1024.
Definition above_zero (n : option Z) : option Z := match n with Some n => if 0 <? n then Some n else None | None => None end.
Definition max_disk_mib (env : string -> option bytes) : Z :=
  default DEFAULT_MAX_DISK_MIB (above_zero (env "ATELIER_VM_MAX_DISK_MIB"%string ≫= parse_u32_dec)).
Definition disk_to_mib (disk : option bytes) (max_mib : Z) : option Z :=
  d ← disk; requested ← above_zero (memory_to_mib d); Some (Z.min requested max_mib).

(** [const DEFAULT_SNAPSHOT_TIMEOUT_SECS] and [fn snapshot_timeout_from]. *)
Definition DEFAULT_SNAPSHOT_TIMEOUT_SECS : Z := 300.
Definition snapshot_timeout_from (value : option bytes) : Z :=
  default DEFAULT_SNAPSHOT_TIMEOUT_SECS (above_zero (value ≫= parse_u64)).

(** [fn cpu_to_vcpu_count]. *)
Definition cpu_to_vcpu_count (cpu : bytes) : option Z :=
  let cpu := trim cpu in
  cores ← match strip_suffix (B "m") cpu with
          | Some n => v ← parse_f64 n; Some (fdiv v (f64_of_Z 1000))
          | None => parse_f64 cpu
          end;
  (* [cores.ceil().max(1.0) as u8]: the number is at least 1, and [ceil] of a NaN is a NaN *)
  Some (match cores with
        | S754_infinity false => U8_MAX
        | S754_infinity true | S754_nan => 1
        | _ => Z.min U8_MAX (Z.max 1 (ceil_Z cores))
        end).

(** ** The container of vm-supervisor *)

(** [fn console_log_requested], of the annotations of the Workshop. *)
Definition CONSOLE_LOG_ANNOTATION : bytes := B "atelier.dev/console-log".
Definition console_log_requested (annotations : gmap bytes bytes) : bool :=
  bool_decide (annotations !! CONSOLE_LOG_ANNOTATION = Some (B "true")).

Definition JAILER_CHROOT_BASE_DIR : bytes := B "/srv/jailer".
Definition VM_JAIL_ID : bytes := B "atelier-vm".
Definition VM_VSOCK_UDS_FILENAME : bytes := B "vsock.sock".

Definition rootfs_path (image_digest : bytes) : bytes :=
  IMAGE_CACHE_MOUNT_PATH ++ B "/" ++ digest_cache_subdir image_digest ++ B "/rootfs.ext4".
Definition snapshot_dir (ns name : bytes) : bytes := IMAGE_CACHE_MOUNT_PATH ++ B "/" ++ snapshot_cache_subdir ns name.
(** The socket of the vsock device, where mcp-gateway looks for it. *)
Definition vsock_uds_path : bytes :=
  JAILER_CHROOT_BASE_DIR ++ B "/firecracker/" ++ VM_JAIL_ID ++ B "/root/" ++ VM_VSOCK_UDS_FILENAME.

Definition show_bool_env (b : bool) : bytes := if b then B "true" else B "false".
(** The variables of an S3 configuration, at the address a pod sees. *)
Definition s3_env (s3 : S3Config) (pod_endpoint : option bytes) : list (string * bytes) :=
  [("S3_ENDPOINT"%string, default s3.(endpoint) pod_endpoint); ("S3_REGION"%string, s3.(region));
   ("S3_BUCKET_SESSIONS"%string, s3.(bucket_sessions)); ("S3_BUCKET_SNAPSHOTS"%string, s3.(cfg_bucket_snapshots));
   ("S3_FORCE_PATH_STYLE"%string, show_bool_env s3.(force_path_style));
   ("AWS_ACCESS_KEY_ID"%string, s3.(access_key_id)); ("AWS_SECRET_ACCESS_KEY"%string, s3.(secret_access_key))].

(** The [env] of the container vm-supervisor in [fn ensure_parent_pod]; [max_disk] is
    [max_disk_mib()]. *)
Definition vm_supervisor_env (r : WorkshopResources) (max_disk : Z) (console : bool) (image_digest ns name : bytes)
    (s3 : option S3Config) (pod_endpoint : option bytes) : list (string * bytes) :=
  [("ATELIER_VM_ROOTFS_PATH"%string, rootfs_path image_digest);
   ("ATELIER_VM_SNAPSHOT_DIR"%string, snapshot_dir ns name);
   ("ATELIER_NET_PROXY_PORT"%string, dec NET_PROXY_PORT);
   ("ATELIER_NET_PROXY_TRANSPARENT_HTTP_PORT"%string, dec NET_PROXY_TRANSPARENT_HTTP_PORT);
   ("ATELIER_NET_PROXY_TRANSPARENT_TLS_PORT"%string, dec NET_PROXY_TRANSPARENT_TLS_PORT);
   ("ATELIER_VM_CHROOT_BASE_DIR"%string, JAILER_CHROOT_BASE_DIR);
   ("ATELIER_VM_JAIL_ID"%string, VM_JAIL_ID);
   ("ATELIER_VM_VSOCK_UDS_FILENAME"%string, VM_VSOCK_UDS_FILENAME)]
  ++ maybe "ATELIER_VM_MEM_MIB" (dec <$> memory_to_mib r.(memory))
  ++ maybe "ATELIER_VM_VCPU_COUNT" (dec <$> cpu_to_vcpu_count r.(cpu))
  ++ maybe "ATELIER_VM_DISK_MIB" (dec <$> disk_to_mib r.(disk) max_disk)
  ++ when console "ATELIER_VM_CONSOLE_LOG" (B "true")
  ++ match s3 with
     | Some s3 => s3_env s3 pod_endpoint ++ [("ATELIER_VM_SNAPSHOT_S3_PREFIX"%string, snapshot_cache_subdir ns name)]
     | None => []
     end.

(** ** What vm-supervisor reads *)

(** [fn env_path] and [fn env_u32]. *)
Definition env_path (env : string -> option bytes) (var : string) (def : bytes) : bytes := default def (env var).
Definition env_num (parse : bytes -> option Z) (env : string -> option bytes) (var : string) (def : Z) : Z :=
  default def (env var ≫= parse).
Definition env_u32 := env_num parse_u32_dec.

(** [struct VmConfig] and [struct VsockConfig]. *)
Record VsockConfig := mkVsock { guest_cid : Z; uds_relative_path : bytes }.
Record VmConfig := mkVmConfig {
  firecracker_bin : bytes; jailer_bin : bytes; snapshot_editor_bin : bytes; chroot_base_dir : bytes; jail_id : bytes;
  vm_uid : Z; vm_gid : Z; vcpu_count : Z; mem_mib : Z; boot_args : bytes; vsock : option VsockConfig;
  rootfs_size_mib : option Z }.

(** The configuration of [fn main]; [None] when the kernel or the root file system is not
    given.  [usize] has 64 bits. *)
Definition vm_config (env : string -> option bytes) (network : NetworkSetup) : option (VmConfig * bytes * bytes) :=
  let base_boot_args := default (B "console=ttyS0 reboot=k panic=1 pci=off") (env "ATELIER_VM_BOOT_ARGS"%string) in
  let config :=
    mkVmConfig (env_path env "ATELIER_FIRECRACKER_BIN" (B "firecracker")) (env_path env "ATELIER_JAILER_BIN" (B "jailer"))
      (env_path env "ATELIER_SNAPSHOT_EDITOR_BIN" (B "snapshot-editor")) (env_path env "ATELIER_VM_CHROOT_BASE_DIR" (B "/srv/jailer"))
      (default (B "atelier-vm") (env "ATELIER_VM_JAIL_ID"%string))
      (env_u32 env "ATELIER_VM_UID" 0) (env_u32 env "ATELIER_VM_GID" 0)
      (env_num parse_u8_dec env "ATELIER_VM_VCPU_COUNT" 1) (env_num parse_u64 env "ATELIER_VM_MEM_MIB" 256)
      (base_boot_args ++ B " " ++ kernel_ip_boot_arg network.(guest_ip) network.(host_ip) network.(network_length) network.(iface_id))
      (Some (mkVsock (env_u32 env "ATELIER_VM_VSOCK_GUEST_CID" 3)
              (B "/" ++ default (B "vsock.sock") (env "ATELIER_VM_VSOCK_UDS_FILENAME"%string))))
      (env "ATELIER_VM_DISK_MIB"%string ≫= parse_u64) in
  let kernel := env_path env "ATELIER_VM_KERNEL_PATH" [] in
  let rootfs := env_path env "ATELIER_VM_ROOTFS_PATH" [] in
  if is_empty kernel || is_empty rootfs then None else Some (config, kernel, rootfs).

(** The ports of net-proxy [fn main] gives to the gateway. *)
Definition gateway_ports (env : string -> option bytes) : Z * Z * Z * Z :=
  (env_num parse_u16 env "ATELIER_NET_PROXY_PORT" 3128, env_num parse_u16 env "ATELIER_NET_PROXY_TRANSPARENT_HTTP_PORT" 3180,
   env_num parse_u16 env "ATELIER_NET_PROXY_TRANSPARENT_TLS_PORT" 3181, env_num parse_u16 env "ATELIER_NET_PROXY_METADATA_PORT" 3132).

(** ** The disk *)

Definition MIB : Z := 1024 * 1024.
(** A file with an ext4 file system: its length and the size of the file system, in bytes. *)
Record image_file := mkImage { im_len : Z; im_fs : Z }.
(** [enum Resized]. *)
Inductive Resized := Grown (from_mib to_mib : Z) | AlreadyLargeEnough (size_mib : Z).

Section rootfs.
(** [e2fsck -f -y] and [resize2fs]: the file they leave and their status, if there is one. *)
Context (e2fsck resize2fs : image_file -> image_file * option Z).

(** [fn grow_ext4]; [set_len] says whether the file can be lengthened. *)
Definition grow_ext4 (set_len : bool) (image : image_file) (size_mib : Z) : image_file * res Resized :=
  let current := image.(im_len) in
  let target := size_mib * MIB in
  if U64_MAX <? target then (image, Err "taille de disque demandee trop grande")
  else if target <=? current then (image, Ok (AlreadyLargeEnough (current / MIB)))
  else if negb set_len then (image, Err "allongement")
  else
    match e2fsck (mkImage target image.(im_fs)) with
    | (image, Some code) =>
        if (code =? 0) || (code =? 1) then
          match resize2fs image with
          | (image, Some 0) => (image, Ok (Grown (current / MIB) size_mib))
          | (image, _) => (image, Err "resize2fs a echoue")
          end
        else (image, Err "e2fsck a echoue")
    | (image, None) => (image, Err "e2fsck a echoue")
    end.

(** [fn grow_rootfs] of vm.rs. *)
Definition grow_rootfs (set_len : bool) (size : option Z) (image : image_file) : image_file * res unit :=
  match size with
  | None => (image, Ok tt)
  | Some size_mib =>
      let '(image, r) := grow_ext4 set_len image size_mib in
      (image, match r with Ok _ => Ok tt | Err e => Err e | Panic => Panic end)
  end.
End rootfs.

(** ** Quantities of whole units *)

Lemma strip_suffix_other x q q' :
  strip_prefix (rev q) (rev q') = None -> length q = length q' -> strip_suffix q (x ++ q') = None.
Proof.
  intros H Hlen. unfold strip_suffix. rewrite rev_app_distr.
  destruct (strip_prefix (rev q) (rev q' ++ rev x)) as [r|] eqn:E; [|done]. apply strip_prefix_Some in E.
  assert (Hr : take (length q) (rev q' ++ rev x) = rev q' /\ take (length q) (rev q ++ r) = rev q).
  { split; apply take_app_length'; rewrite length_rev; lia. }
  rewrite E in Hr. destruct Hr as [Hr1 Hr2]. rewrite Hr1 in Hr2. rewrite Hr2 in H.
  rewrite <- (app_nil_r (rev q)) in H at 2. by rewrite strip_prefix_app in H.
Qed.

Lemma strip_suffix_digit q n c : 0 <= n -> last q = Some c -> 57 < c -> strip_suffix q (dec n) = None.
Proof.
  intros Hn Hq Hc. unfold strip_suffix. destruct (strip_prefix (rev q) (rev (dec n))) as [r|] eqn:E; [|done].
  apply strip_prefix_Some in E. apply (f_equal (fun l => rev l)) in E. rewrite rev_app_distr, !rev_involutive in E.
  assert (Hin : c ∈ dec n). { rewrite E. apply elem_of_app. right. apply last_Some in Hq as [l ->]. apply elem_of_app. right. by left. }
  apply dec_digits_all in Hin; [lia|done].
Qed.

Lemma trim_quantity n u : 0 <= n -> printable u -> trim (dec n ++ u) = dec n ++ u.
Proof. intros Hn Hu. apply printable_trim, printable_app. split; [by apply printable_dec|done]. Qed.

Ltac literal := apply (bool_decide_unpack _); vm_compute; exact I.

(** The units of a quantity, in bytes. *)
Definition memory_units : list (bytes * Z) :=
  [(B "Gi", 2 ^ 30); (B "Mi", 2 ^ 20); (B "Ki", 2 ^ 10); (B "G", 10 ^ 9); (B "M", 10 ^ 6); (B "K", 10 ^ 3); ([], 1)].
(** The quantity [q] is a whole number of a unit, below [2 ^ 32], and comes to [mib] MiB, to
    the nearest. *)
Definition asks_mib (q : bytes) (mib : Z) : Prop :=
  exists n u b, (u, b) ∈ memory_units /\ 0 <= n < 2 ^ 32 /\ q = dec n ++ u /\ mib = (n * b + 2 ^ 19) / 2 ^ 20.
(** The quantity [q] is a whole number of cores or of thousandths, and comes to [cores], up. *)
Definition asks_cores (q : bytes) (cores : Z) : Prop :=
  exists n, 0 <= n < 2 ^ 32 /\ (q = dec n /\ cores = n \/ q = dec n ++ B "m" /\ cores = (n + 999) / 1000).

(** The MiB per unit are [k / 2 ^ j] exactly, and so is the product. *)
Lemma mul_unit j n k f : dyadic j f k -> 0 <= j <= 20 -> 0 <= n -> 0 < k -> n * k < 2 ^ 53 ->
  match f with S754_finite _ _ e => e <= 0 | _ => False end ->
  let x := fmul (f64_of_decimal false n 0) f in
  saturate U32_MAX x (round_Z x) = Z.min U32_MAX ((n * (k * 2 ^ (20 - j)) + 2 ^ 19) / 2 ^ 20).
Proof.
  intros Hf Hj Hn Hk Hlt He. assert (Hd : exact (f64_of_decimal false n 0) n) by (apply f64_of_decimal_exact; nia).
  assert (Hx : dyadic j (fmul (f64_of_decimal false n 0) f) (n * k)).
  { apply fmul_dyadic; try done; try lia. destruct (f64_of_decimal false n 0) as [| | |[] m e] eqn:E; try done.
    destruct f as [| | |s m' e']; try done. destruct (Z.le_gt_cases e 0); [lia|].
    apply represents_whole in Hd; [|lia]. assert (e < 53); [|lia].
    apply (Z.pow_lt_mono_r_iff 2); [lia|lia|]. assert (0 < 2 ^ e) by (apply Z.pow_pos_nonneg; lia). nia. }
  assert (Hp : 0 < 2 ^ (20 - j)) by (apply Z.pow_pos_nonneg; lia).
  assert (Hv : round_Z (fmul (f64_of_decimal false n 0) f) = (n * (k * 2 ^ (20 - j)) + 2 ^ 19) / 2 ^ 20).
  { destruct (Z.eq_dec j 0) as [->|].
    - apply dyadic_exact, exact_values in Hx as (_ & -> & _). rewrite Z.sub_0_r, Z.mul_assoc.
      apply (Z.div_unique _ _ _ (2 ^ 19)); lia.
    - rewrite (dyadic_round j _ (n * k)) by (done || nia).
      replace (2 ^ 19) with (2 ^ (j - 1) * 2 ^ (20 - j)) by (rewrite <- Z.pow_add_r by lia; f_equal; lia).
      replace (2 ^ 20) with (2 ^ j * 2 ^ (20 - j)) by (rewrite <- Z.pow_add_r by lia; f_equal; lia).
      rewrite Z.mul_assoc, <- Z.mul_add_distr_r, Z.div_mul_cancel_r; [done|apply Z.pow_nonzero; lia|lia]. }
  cbv zeta. rewrite Hv. eapply dyadic_saturate; [done| |done]. apply Z.div_pos; [nia|done].
Qed.

(** What is left of [memory_to_mib] once the unit, of [b] bytes, is known. *)
Lemma memory_unit j n k f b : dyadic j f k -> 0 <= j <= 20 -> 0 <= n < 2 ^ 32 -> 0 < k <= 2 ^ 21 ->
  match f with S754_finite _ _ e => e <= 0 | _ => False end -> b = k * 2 ^ (20 - j) ->
  (value ← parse_f64 (dec n); let x := fmul value f in Some (saturate U32_MAX x (round_Z x))) =
  Some (Z.min U32_MAX ((n * b + 2 ^ 19) / 2 ^ 20)).
Proof.
  intros Hf Hj Hn Hk He ->. rewrite parse_f64_dec by (unfold U64_MAX; lia). cbn [mbind option_bind]. f_equal.
  apply mul_unit; try done; nia.
Qed.

(** [f] is the float of [k] over [2 ^ j], by computation. *)
Ltac dyadic_literal := split; [done|]; exists 80; split_and!; [lia|vm_compute; discriminate|vm_compute; reflexivity].
Ltac unit_of j k := apply (memory_unit j _ k); [dyadic_literal|lia|lia|lia|by vm_compute|by vm_compute].

(** A quantity does not end with the suffixes of other letters. *)
Lemma strip_suffix_last q x c d : last q = Some c -> last x = Some d -> c <> d -> strip_suffix q x = None.
Proof.
  intros Hq Hx Hne. destruct (strip_suffix q x) as [r|] eqn:E; [|done]. apply strip_suffix_Some in E. subst x.
  apply last_Some in Hq as [l ->]. rewrite app_assoc, last_snoc in Hx. congruence.
Qed.

Lemma dec_last n : 0 <= n -> exists d, last (dec n) = Some d /\ 48 <= d <= 57.
Proof.
  intros Hn. destruct (dec_shape n Hn) as (b & r & Hd & _ & Hall). rewrite Forall_forall in Hall.
  destruct (last (dec n)) as [d|] eqn:E; [|by apply last_None in E; rewrite Hd in E].
  exists d. split; [done|]. apply Hall. apply last_Some in E as [l ->]. set_solver.
Qed.

Lemma units_printable u b : (u, b) ∈ memory_units -> printable u.
Proof. intros Hu. repeat (apply elem_of_cons in Hu as [[= -> _]|Hu]; [literal|]). by apply elem_of_nil in Hu. Qed.

Ltac no_suffix c d := rewrite (strip_suffix_last _ _ c d) by (rewrite ?last_snoc; done || lia).

(** Every unit is read as its number of bytes, and the MiB are rounded to the nearest. *)
Lemma memory_whole q mib : asks_mib q mib -> memory_to_mib q = Some (Z.min U32_MAX mib).
Proof.
  intros (n & u & b & Hu & Hn & -> & ->). unfold memory_to_mib.
  rewrite trim_quantity by (lia || by eapply units_printable).
  destruct (dec_last n) as (d & Hd & Hd'); [lia|].
  assert (H1 : forall c, last (dec n ++ [c]) = Some c) by (intros c; apply last_snoc).
  repeat (apply elem_of_cons in Hu as [[-> ->]%pair_eq|Hu]); [..|by apply elem_of_nil in Hu].
  - rewrite strip_suffix_app. unit_of 0 1024.
  - rewrite strip_suffix_app, (strip_suffix_other _ (B "Gi")) by done. unit_of 0 1.
  - rewrite strip_suffix_app, (strip_suffix_other _ (B "Gi")), (strip_suffix_other _ (B "Mi")) by done. unit_of 10 1.
  - rewrite (strip_suffix_last (B "Gi") (dec n ++ B "G") 105 71),
      (strip_suffix_last (B "Mi") (dec n ++ B "G") 105 71),
      (strip_suffix_last (B "Ki") (dec n ++ B "G") 105 71)
      by (done || exact (H1 71)).
    rewrite strip_suffix_app. unit_of 11 1953125.
  - rewrite (strip_suffix_last (B "Gi") (dec n ++ B "M") 105 77),
      (strip_suffix_last (B "Mi") (dec n ++ B "M") 105 77),
      (strip_suffix_last (B "Ki") (dec n ++ B "M") 105 77),
      (strip_suffix_last (B "G") (dec n ++ B "M") 71 77)
      by (done || exact (H1 77)).
    rewrite strip_suffix_app. unit_of 14 15625.
  - rewrite (strip_suffix_last (B "Gi") (dec n ++ B "K") 105 75),
      (strip_suffix_last (B "Mi") (dec n ++ B "K") 105 75),
      (strip_suffix_last (B "Ki") (dec n ++ B "K") 105 75),
      (strip_suffix_last (B "G") (dec n ++ B "K") 71 75),
      (strip_suffix_last (B "M") (dec n ++ B "K") 77 75)
      by (done || exact (H1 75)).
    rewrite strip_suffix_app. unit_of 17 125.
  - rewrite app_nil_r. rewrite (strip_suffix_last (B "Gi") (dec n) 105 d), (strip_suffix_last (B "Mi") (dec n) 105 d), (strip_suffix_last (B "Ki") (dec n) 105 d), (strip_suffix_last (B "G") (dec n) 71 d),
      (strip_suffix_last (B "M") (dec n) 77 d), (strip_suffix_last (B "K") (dec n) 75 d) by (done || lia).
    unit_of 20 1.
Qed.

Lemma cpu_whole q c : asks_cores q c -> cpu_to_vcpu_count q = Some (Z.min U8_MAX (Z.max 1 c)).
Proof.
  intros (n & Hn & Hq). unfold cpu_to_vcpu_count.
  assert (Hd : exact (f64_of_decimal false n 0) n) by (apply f64_of_decimal_exact; lia).
  destruct Hq as [[-> ->]|[-> ->]].
  - rewrite <- (app_nil_r (dec n)), trim_quantity by (lia || by constructor). rewrite app_nil_r.
    rewrite (strip_suffix_digit _ _ 109) by (done || lia). rewrite parse_f64_dec by (unfold U64_MAX; lia). cbn [mbind option_bind].
    destruct (exact_values _ _ Hd) as (_ & _ & Hc). by destruct (f64_of_decimal false n 0); try done; rewrite Hc.
  - rewrite trim_quantity by (lia || literal). rewrite strip_suffix_app, parse_f64_dec by (unfold U64_MAX; lia). cbn [mbind option_bind].
    destruct (fdiv_1000_ceil _ _ Hd Hn) as [Hf Hc]. by destruct (fdiv _ _) as [| | |] in *; try done; rewrite Hc.
Qed.

Lemma units_positive u b : (u, b) ∈ memory_units -> 0 < b.
Proof. intros Hu. repeat (apply elem_of_cons in Hu as [[= _ ->]|Hu]; [lia|]). by apply elem_of_nil in Hu. Qed.

Lemma disk_whole o max d : match o with Some q => asks_mib q d | None => d = 0 end -> 0 < max <= U32_MAX ->
  disk_to_mib o max = if 0 <? d then Some (Z.min d max) else None.
Proof.
  intros Hd Hmax. unfold disk_to_mib. destruct o as [q|]; cbn [mbind option_bind]; [|by subst d].
  rewrite (memory_whole _ _ Hd). unfold above_zero, U32_MAX in *.
  destruct (Z.ltb_spec 0 d); [rewrite (proj2 (Z.ltb_lt 0 _)) by lia|rewrite (proj2 (Z.ltb_ge 0 _)) by lia]; [|done].
  cbn [mbind option_bind]. f_equal. lia.
Qed.

(** Whatever the specification says, the microVM has from 1 to 255 processors, a memory of
    32 bits, and a disk of at least 1 MiB under the limit of the cluster. *)
Lemma quantities_bounded cpu memory disk max :
  0 < max -> (forall v, cpu_to_vcpu_count cpu = Some v -> 1 <= v <= 255) /\ (forall m, memory_to_mib memory = Some m -> 0 <= m <= U32_MAX) /\
  (forall d, disk_to_mib disk max = Some d -> 0 < d <= max).
Proof.
  intros Hmax.
  assert (Hmem : forall memory m, memory_to_mib memory = Some m -> 0 <= m <= U32_MAX).
  { intros s m. unfold memory_to_mib.
    match goal with |- context [let '(_, _) := ?x in _] => destruct x as [ds f] end.
    destruct (parse_f64 ds); [|done]. intros [= <-]. by apply saturate_bounds. }
  split_and!; [|by apply Hmem|].
  - intros v. unfold cpu_to_vcpu_count. destruct (match strip_suffix (B "m") (trim cpu) with Some _ => _ | None => _ end) as [c|]; [|done].
    cbn [mbind option_bind]. intros [= <-]. unfold U8_MAX. destruct c as [|[]| |]; lia.
  - intros d. unfold disk_to_mib. destruct disk as [s|]; [|done]. cbn [mbind option_bind]. unfold above_zero.
    destruct (memory_to_mib s) as [m|] eqn:E; [|done]. destruct (Z.ltb_spec 0 m); [|done]. cbn [mbind option_bind]. intros [= <-]. lia.
Qed.

(** ** From the specification to the microVM *)

(** The environment of a container: the variables of its pod, and those of its image. *)
Definition container_env (l : list (string * bytes)) (base : string -> option bytes) (name : string) : option bytes :=
  match env_of l name with Some v => Some v | None => base name end.

Ltac pod_env_lookup :=
  unfold container_env, vm_supervisor_env, s3_env; rewrite ?env_of_app, ?env_of_when, ?env_of_maybe;
  cbn [env_of find_first String.eqb Ascii.eqb Bool.eqb fst snd fmap option_fmap option_map andb].

Lemma parse_u64_dec n : 0 <= n <= U64_MAX -> parse_u64 (dec n) = Some n.
Proof. intros H. by apply parse_dec. Qed.

(** An environment with the variables of an S3 configuration is read as that configuration. *)
Lemma s3_env_read env c pod_endpoint :
  (forall v x, env_of (s3_env c pod_endpoint) v = Some x -> env v = Some x) ->
  s3_config_from_env env = Ok (Some (mkS3Config (default c.(endpoint) pod_endpoint) c.(region) c.(bucket_sessions)
    c.(cfg_bucket_snapshots) (env "S3_BUCKET_IMAGE_CACHE"%string) c.(force_path_style) c.(access_key_id) c.(secret_access_key))).
Proof.
  intros H. unfold s3_config_from_env.
  rewrite (H "S3_ENDPOINT"%string _ eq_refl), (H "S3_REGION"%string _ eq_refl), (H "S3_BUCKET_SESSIONS"%string _ eq_refl),
    (H "S3_BUCKET_SNAPSHOTS"%string _ eq_refl), (H "S3_FORCE_PATH_STYLE"%string _ eq_refl),
    (H "AWS_ACCESS_KEY_ID"%string _ eq_refl), (H "AWS_SECRET_ACCESS_KEY"%string _ eq_refl).
  cbn [ok_or mbind res_bind from_option id].
  by destruct (force_path_style c).
Qed.
Lemma s3_env_names c pod_endpoint v x : env_of (s3_env c pod_endpoint) v = Some x ->
  v ∈ ["S3_ENDPOINT"; "S3_REGION"; "S3_BUCKET_SESSIONS"; "S3_BUCKET_SNAPSHOTS"; "S3_FORCE_PATH_STYLE"; "AWS_ACCESS_KEY_ID";
       "AWS_SECRET_ACCESS_KEY"]%string.
Proof.
  unfold env_of. destruct (find_first _ _) as [[k y]|] eqn:E; [|done]. intros _.
  apply find_first_Some in E as (l1 & l2 & Hl & Hk & _). apply String.eqb_eq in Hk. cbn [fst] in Hk. subst k.
  change (v ∈ (s3_env c pod_endpoint).*1). rewrite Hl, fmap_app. set_solver.
Qed.

Section delivered.
Context (r : WorkshopResources) (max_disk : Z) (console : bool) (digest ns name : bytes).
Context (s3 : option S3Config) (pod_endpoint : option bytes) (base : string -> option bytes) (network : NetworkSetup).
Let env := container_env (vm_supervisor_env r max_disk console digest ns name s3 pod_endpoint) base.

Lemma env_disk : env "ATELIER_VM_DISK_MIB"%string =
  match disk_to_mib r.(disk) max_disk with Some d => Some (dec d) | None => base "ATELIER_VM_DISK_MIB"%string end.
Proof.
  unfold env. pod_env_lookup. rewrite andb_false_r. destruct (disk_to_mib (disk r) max_disk); cbn; [done|]. by destruct s3.
Qed.
Lemma env_mem : env "ATELIER_VM_MEM_MIB"%string =
  match memory_to_mib r.(memory) with Some d => Some (dec d) | None => base "ATELIER_VM_MEM_MIB"%string end.
Proof.
  unfold env. pod_env_lookup. rewrite andb_false_r. destruct (memory_to_mib (memory r)); cbn; [done|]. by destruct s3.
Qed.
Lemma env_vcpu : env "ATELIER_VM_VCPU_COUNT"%string =
  match cpu_to_vcpu_count r.(cpu) with Some d => Some (dec d) | None => base "ATELIER_VM_VCPU_COUNT"%string end.
Proof.
  unfold env. pod_env_lookup. rewrite andb_false_r. destruct (cpu_to_vcpu_count (cpu r)); cbn; [done|]. by destruct s3.
Qed.
Lemma env_kernel : env "ATELIER_VM_KERNEL_PATH"%string = base "ATELIER_VM_KERNEL_PATH"%string.
Proof. unfold env. pod_env_lookup. rewrite andb_false_r. by destruct s3. Qed.

Lemma s3_read_back c : s3 = Some c ->
  s3_config_from_env env = Ok (Some (mkS3Config (default c.(endpoint) pod_endpoint) c.(region) c.(bucket_sessions)
    c.(cfg_bucket_snapshots) (base "S3_BUCKET_IMAGE_CACHE"%string) c.(force_path_style) c.(access_key_id) c.(secret_access_key))).
Proof.
  intros ->. rewrite (s3_env_read env c pod_endpoint).
  - unfold env. pod_env_lookup. by rewrite andb_false_r.
  - intros v x Hx. pose proof (s3_env_names _ _ _ _ Hx) as Hv. unfold env, container_env, vm_supervisor_env.
    rewrite !env_of_app, env_of_when, !env_of_maybe, Hx.
    by repeat (apply elem_of_cons in Hv as [->|Hv]; [by destruct console|]); apply elem_of_nil in Hv.
Qed.
End delivered.


(** What is relied on of the tools of ext4: they do not change the length of the file, and
    [resize2fs] extends the file system to it. *)
Class Ext4Tools (e2fsck resize2fs : image_file -> image_file * option Z) := {
  e2fsck_len i : (e2fsck i).1.(im_len) = i.(im_len);
  resize_len i : (resize2fs i).1.(im_len) = i.(im_len);
  resize_fills i : (resize2fs i).2 = Some 0 -> (resize2fs i).1.(im_fs) = i.(im_len) }.

Lemma grow_ext4_spec e2fsck resize2fs `{!Ext4Tools e2fsck resize2fs} set_len image size_mib image' r :
  grow_ext4 e2fsck resize2fs set_len image size_mib = (image', r) ->
  (image' = image \/ image'.(im_len) = size_mib * MIB /\ image.(im_len) < size_mib * MIB) /\
  (forall x, r = Ok x -> image'.(im_len) = Z.max image.(im_len) (size_mib * MIB) /\
    (image' = image \/ image'.(im_fs) = image'.(im_len))).
Proof.
  unfold grow_ext4. destruct (Z.ltb_spec U64_MAX (size_mib * MIB)); [by intros [= <- <-]; split; [left|intros ? [=]]|].
  destruct (Z.leb_spec (size_mib * MIB) (im_len image)); [intros [= <- <-]; split; [by left|intros ? _; split; [lia|by left]]|].
  destruct set_len; cbn [negb]; [|by intros [= <- <-]; split; [left|intros ? [=]]].
  pose proof (e2fsck_len (mkImage (size_mib * MIB) (im_fs image))) as Hlen.
  destruct (e2fsck _) as [i1 [code|]]; cbn [fst im_len] in Hlen; [|intros [= <- <-]; split; [by right|intros ? [=]]].
  destruct ((code =? 0) || (code =? 1)); [|intros [= <- <-]; split; [by right|intros ? [=]]].
  pose proof (resize_len i1) as Hlen2. pose proof (resize_fills i1) as Hfs.
  destruct (resize2fs i1) as [i2 st]; cbn [fst snd] in *. destruct st as [[|p|p]|];
    intros [= <- <-]; (split; [right; split; [congruence|done]|intros ? Hx; try done]).
  rewrite Hlen2, Hlen. split; [lia|]. right. rewrite Hfs by done. congruence.
Qed.

(** C35: The disk of a guest never shrinks below its image, and never grows past the limit of
    the cluster, whatever the specification says and however the tools fail; when the
    microVM boots it has exactly the size requested, up to that limit and no less than the
    image, and the file system fills it. *)
Theorem guest_disk_bounded e2fsck resize2fs `{!Ext4Tools e2fsck resize2fs} r max_disk console digest ns name s3 pod_endpoint base
    network config kernel rootfs set_len image image' res :
  let env := container_env (vm_supervisor_env r max_disk console digest ns name s3 pod_endpoint) base in
  0 <= image.(im_len) -> base "ATELIER_VM_DISK_MIB"%string = None -> 0 < max_disk <= U32_MAX ->
  vm_config env network = Some (config, kernel, rootfs) ->
  grow_rootfs e2fsck resize2fs set_len config.(rootfs_size_mib) image = (image', res) ->
  image.(im_len) <= image'.(im_len) <= Z.max image.(im_len) (max_disk * MIB) /\
  (res = Ok tt -> image'.(im_len) = Z.max image.(im_len) (default 0 (disk_to_mib r.(disk) max_disk) * MIB) /\
     (image' = image \/ image'.(im_fs) = image'.(im_len))).
Proof.
  intros env H0 Hbase Hmax Hc Hg.
  assert (Hsize : config.(rootfs_size_mib) = disk_to_mib r.(disk) max_disk).
  { unfold vm_config in Hc. destruct (is_empty _ || is_empty _); [done|]. injection Hc as <- _ _. cbn [rootfs_size_mib].
    pose proof (env_disk r max_disk console digest ns name s3 pod_endpoint base) as Ed. fold env in Ed. rewrite Ed.
    pose proof (proj2 (proj2 (quantities_bounded [] [] (disk r) max_disk (proj1 Hmax)))) as Hb.
    destruct (disk_to_mib (disk r) max_disk) as [d|]; [|by rewrite Hbase]. specialize (Hb d eq_refl).
    cbn [mbind option_bind]. apply parse_u64_dec. unfold U32_MAX, U64_MAX in *. lia. }
  rewrite Hsize in Hg. pose proof (proj2 (proj2 (quantities_bounded [] [] (disk r) max_disk (proj1 Hmax)))) as Hb.
  destruct (disk_to_mib (disk r) max_disk) as [d|]; cbn [from_option id] in *.
  - specialize (Hb d eq_refl). cbn [grow_rootfs] in Hg. destruct (grow_ext4 _ _ _ _ _) as [i x] eqn:E.
    apply (grow_ext4_spec _ _) in E as [Hlen Hok]. injection Hg as <- Hres. unfold MIB in *. split.
    + destruct Hlen as [->|[-> ?]]; nia.
    + intros ->. destruct x; try done. by eapply Hok.
  - injection Hg as <- <-. split; [lia|]. intros _. split; [lia|by left].
Qed.

(** ** A Workshop of 4 GB and one and a half processors, which asks for more disk than the cluster allows *)

Definition sample_resources : WorkshopResources := mkResources (B "1500m") (B "4G") (Some (B "30Gi")) None.
Definition sample_base (name : string) : option bytes :=
  if String.eqb name "ATELIER_VM_KERNEL_PATH" then Some (B "/opt/vmlinux.bin") else None.
Definition sample_network : NetworkSetup := mkNetwork (B "eth0") (B "atelier-vm") (B "06:00:a9:fe:00:02") (169, 254, 0, 1) (169, 254, 0, 2) 30.
Definition sample_env : string -> option bytes :=
  container_env (vm_supervisor_env sample_resources DEFAULT_MAX_DISK_MIB false (B "sha256:ab") (B "ws") (B "demo") None None) sample_base.
Definition sample_e2fsck (i : image_file) : image_file * option Z := (i, Some 0).
Definition sample_resize2fs (i : image_file) : image_file * option Z := (mkImage i.(im_len) i.(im_len), Some 0).
#[export] Instance sample_tools : Ext4Tools sample_e2fsck sample_resize2fs.
Proof. by split. Qed.


Lemma guest_disk_bounded_witness :
  (grow_rootfs sample_e2fsck sample_resize2fs true (Some 20480) (mkImage (2 ^ 30) (2 ^ 30))).1.(im_len) <= Z.max (2 ^ 30) (20480 * MIB).
Proof.
  destruct (vm_config sample_env sample_network) as [[[config k] f]|] eqn:E; [|vm_compute in E; discriminate E].
  assert (Hs : config.(rootfs_size_mib) = Some 20480) by (vm_compute in E; injection E as <- _ _; reflexivity).
  refine (proj2 (proj1 (guest_disk_bounded sample_e2fsck sample_resize2fs sample_resources DEFAULT_MAX_DISK_MIB false (B "sha256:ab") (B "ws") (B "demo")
    None None sample_base sample_network config k f true (mkImage (2 ^ 30) (2 ^ 30)) _ _ _ _ _ E _)));
    [vm_compute; discriminate|reflexivity|vm_compute; split; [reflexivity|discriminate]|rewrite Hs; apply surjective_pairing].
Defined.
