(* ===== verification/MicroVm.v ===== *)
(** The life of a microVM: [src/crates/firecracker/src/vm.rs], over the hypervisor that
    fctools drives, and what [src/crates/vm-supervisor/src/main.rs] publishes and answers.

    The hypervisor is a class with laws: what is known of a guest is the machine it is at an
    instant, whether it is paused, and that a paused machine does not change. *)

From S2P Require Import Prelude RustStr Json VmSupervisor Firewall VmResources.

(** ** The configuration *)

Record disk_image := mkDisk { dk_file : image_file; dk_data : bytes }.
(** A guest at an instant: the state of its devices and processors, its memory, its disk. *)
Record machine := mkMachine { g_state : bytes; g_mem : bytes; g_disk : disk_image }.

(** [VmConfigurationData], what [fn build_configuration_data] sets of it. *)
Record network_interface := mkIface { ni_iface_id : bytes; ni_host_dev_name : bytes; ni_guest_mac : option bytes }.
Record drive := mkDrive { dr_id : bytes; dr_root : bool; dr_read_only : bool; dr_path : bytes }.
Record configuration_data := mkData {
  cd_kernel : bytes; cd_boot_args : bytes; cd_drives : list drive; cd_vcpu_count : Z; cd_mem_size_mib : Z;
  cd_track_dirty_pages : bool; cd_network_interfaces : list network_interface; cd_vsock : option (Z * bytes) }.
(** A path in the jail: [FlatVirtualPathResolver], the name of the file at the root. *)
Definition jail_path (path : bytes) : bytes :=
  B "/" ++ match rsplit_once 47 path with Some (_, f) => f | None => path end.

Definition build_configuration_data (config : VmConfig) (kernel_path rootfs_path : bytes) (network : option NetworkSetup)
  : configuration_data :=
  mkData (jail_path kernel_path) config.(boot_args) [mkDrive (B "rootfs") true false (jail_path rootfs_path)]
    config.(vcpu_count) config.(mem_mib) true
    (match network with Some net => [mkIface net.(iface_id) net.(tap_name) (Some net.(guest_mac))] | None => [] end)
    ((fun v => (v.(guest_cid), v.(uds_relative_path))) <$> config.(vsock)).

(** fctools' [LoadSnapshot], the files of the state and of the memory by what they hold, and
    its [VmConfiguration]: a new microVM, or one restored from a snapshot. *)
Inductive MemoryBackendType := BackendFile | BackendUffd.
Record LoadSnapshot := mkLoad {
  ls_track_dirty_pages : option bool; ls_backend_type : MemoryBackendType; ls_backend : bytes; ls_snapshot : bytes;
  ls_resume_vm : option bool; ls_network_overrides : list (bytes * bytes) }.
Inductive configuration := New (data : configuration_data) | RestoredFromSnapshot (load : LoadSnapshot) (data : configuration_data).

(** ** The hypervisor *)

(** fctools: a jail that was prepared ([J]) and a microVM that was started ([V]). *)
Class Vmm (J V : Type) := {
  (* Vm::prepare: the jail, with a private copy of the root file system *)
  vmm_prepare : VmConfig -> configuration -> disk_image -> res J;
  jail_disk : J -> disk_image;
  jail_configuration : J -> configuration;
  (* the file of the root file system in the jail, before the start *)
  jail_write : J -> disk_image -> J;
  vmm_start : J -> res V;
  vm_machine : V -> machine;
  vm_paused : V -> bool;
  vmm_pause : V -> V * res unit;
  vmm_resume : V -> V * res unit;
  vmm_declare : bytes -> V -> V * res unit;
  vmm_create_snapshot : V -> V * res (bytes * bytes);
  vmm_copy_disk : V -> V * disk_image * bool;
  vmm_info : V -> V * res bool;
  vmm_shutdown : V -> V * res (bool * bool);
  vmm_cleanup : V -> V * res unit;
  (* laws *)
  prepare_ok config c image j : vmm_prepare config c image = Ok j -> jail_disk j = image /\ jail_configuration j = c;
  jail_write_ok j d : jail_disk (jail_write j d) = d /\ jail_configuration (jail_write j d) = jail_configuration j;
  (* with the file as backend, the memory is what it holds; the guest is resumed when asked, paused otherwise *)
  start_restored j load data v :
    jail_configuration j = RestoredFromSnapshot load data -> load.(ls_backend_type) = BackendFile -> vmm_start j = Ok v ->
    vm_machine v = mkMachine load.(ls_snapshot) load.(ls_backend) (jail_disk j) /\ vm_paused v = negb (default false load.(ls_resume_vm));
  start_new j data v :
    jail_configuration j = New data -> vmm_start j = Ok v -> (vm_machine v).(g_disk) = jail_disk j /\ vm_paused v = false;
  pause_ok v v' : vmm_pause v = (v', Ok tt) -> vm_paused v' = true;
  pause_failed v v' e : vmm_pause v = (v', Err e) -> vm_paused v' = vm_paused v;
  resume_ok v v' : vmm_resume v = (v', Ok tt) -> vm_paused v' = false;
  paused_declare p v v' r : vmm_declare p v = (v', r) -> vm_paused v = true -> vm_paused v' = true /\ vm_machine v' = vm_machine v;
  paused_snapshot v v' r : vmm_create_snapshot v = (v', r) -> vm_paused v = true ->
    vm_paused v' = true /\ vm_machine v' = vm_machine v /\
    forall st mem, r = Ok (st, mem) -> st = (vm_machine v).(g_state) /\ mem = (vm_machine v).(g_mem);
  paused_copy v v' d ok : vmm_copy_disk v = (v', d, ok) -> vm_paused v = true ->
    vm_paused v' = true /\ vm_machine v' = vm_machine v /\ (ok = true -> d = (vm_machine v).(g_disk)) }.

Section vm.
Context {J V : Type} `{!Vmm J V}.
Context (e2fsck resize2fs : image_file -> image_file * option Z).

(** ** Boot and restoration *)

(** [fn boot_internal]; [image] is the file at the path of the root file system. *)
Definition boot_internal (config : VmConfig) (kernel_path rootfs_path : bytes) (image : disk_image)
    (network : option NetworkSetup) (set_len : bool) : res V :=
  j ← vmm_prepare config (New (build_configuration_data config kernel_path rootfs_path network)) image;
  let '(file, r) := grow_rootfs e2fsck resize2fs set_len config.(rootfs_size_mib) (jail_disk j).(dk_file) in
  _ ← r;
  vmm_start (jail_write j (mkDisk file (jail_disk j).(dk_data))).

(** [fn restore_persisted], the state and the memory by what their files hold; [copied] is the outcome of [fn copy_sparse]. *)
Definition restore_persisted (config : VmConfig) (kernel_path rootfs_path : bytes) (image : disk_image)
    (network : option NetworkSetup) (state mem : bytes) (disk : disk_image) (copied : bool) : res V :=
  let load_snapshot := mkLoad (Some false) BackendFile mem state (Some true) [] in
  j ← vmm_prepare config (RestoredFromSnapshot load_snapshot (build_configuration_data config kernel_path rootfs_path network)) image;
  if negb copied then Err "remise en place du disque enregistre avec l'instantane"
  else vmm_start (jail_write j disk).

(** ** Snapshots *)

Definition E_PAUSE : string := "mise en pause avant snapshot".
Definition E_DECLARE : string := "declaration de la ressource".
Definition E_SNAPSHOT : string := "creation du snapshot".
Definition E_DISK : string := "enregistrement du disque racine avec l'instantane".
Definition E_RESUME : string := "reprise apres snapshot".

(** [fn snapshot_internal], [fn snapshot] and [fn snapshot_with_disk]: the microVM, what the
    destination of the disk holds, and the state and the memory. [rootfs] says whether the
    microVM knows its disk. *)
Definition snapshot_internal (rootfs : bool) (destination : option (option disk_image)) (v : V)
  : V * option disk_image * res (bytes * bytes) :=
  let held := default None destination in
  if bool_decide (is_Some destination) && negb rootfs then (v, held, Err "cette microVM n'expose pas son disque racine")
  else match vmm_pause v with
  | (v, Ok _) =>
      match vmm_declare (B "/snapshot.state") v with
      | (v, Ok _) =>
          match vmm_declare (B "/snapshot.mem") v with
          | (v, Ok _) =>
              let '(v, snapshot) := vmm_create_snapshot v in
              let '(v, held, disk) :=
                match snapshot, destination with
                | Ok _, Some _ => let '(v, d, ok) := vmm_copy_disk v in (v, Some d, if (ok : bool) then Ok tt else Err E_DISK)
                | _, _ => (v, held, Ok tt)
                end in
              match vmm_resume v with
              | (v, Ok _) =>
                  (v, held, match snapshot with
                            | Ok s => match disk with Ok _ => Ok s | Err e => Err e | Panic => Panic end
                            | Err _ => Err E_SNAPSHOT
                            | Panic => Panic
                            end)
              | (v, _) => (v, held, Err E_RESUME)
              end
          | (v, _) => (v, held, Err E_DECLARE)
          end
      | (v, _) => (v, held, Err E_DECLARE)
      end
  | (v, _) => (v, held, Err E_PAUSE)
  end.
Definition snapshot (rootfs : bool) (v : V) := snapshot_internal rootfs None v.
Definition snapshot_with_disk (rootfs : bool) (held : option disk_image) (v : V) := snapshot_internal rootfs (Some held) v.

(** [fn is_running] and [fn shutdown], whose outcome says whether the process ended well and
    whether it was asked gently. *)
Definition is_running (v : V) : V * res bool := prod_map id (fun r => p ← r; Ok (negb p)) (vmm_info v).
Definition shutdown (v : V) : V * res unit :=
  let '(v, r) := vmm_shutdown v in
  match vmm_cleanup v with
  | (v, Ok _) =>
      (v, '(success, graceful) ← r; if success || negb graceful then Ok tt else Err "arret de la microVM en echec")
  | (v, _) => (v, Err "nettoyage du jail")
  end.
End vm.

(** ** The control loop over a microVM *)

Section supervise.
Context {J V : Type} `{!Vmm J V}.

(** What the [select!] of [vm-supervisor]'s [main] waits for, with the outcome of what is not
    the microVM's: whether the copies and renames of [snapshot_and_publish] succeed. *)
Inductive control_input := CRequest (lockdown published : bool) | CClosed | CPoll.

(** One round over the microVM: the actions, whether the loop goes on. [shutdown] is the
    action of that name, which ends the microVM; the disk goes to the temporary file. *)
Definition supervise_round (input : control_input) (v : V) : V * (list action * bool) :=
  match input with
  | CRequest lockdown published =>
      let '(v, _, r) := snapshot_with_disk true None v in
      (v, loop_round (Request lockdown (match r with Ok _ => published | _ => false end)))
  | CClosed => (v, loop_round ChannelClosed)
  | CPoll => let '(v, r) := is_running v in (v, loop_round (Poll (match r with Ok b => Some b | _ => None end)))
  end.
Fixpoint supervise (inputs : list control_input) (v : V) : V * list action :=
  match inputs with
  | [] => (v, [])
  | i :: rest =>
      let '(v, (acts, go_on)) := supervise_round i v in
      if go_on then prod_map id (app acts) (supervise rest v) else (v, acts)
  end.
End supervise.

(** [fn lockdown_state_handler], [fn control_request] (the status and the body, where a
    request was sent and answered with a digest), and the controller's [fn is_locked_down] on
    the body it reads, [None] when it reads none. *)
Definition lockdown_state_handler (locked_down : bool) : json := JObj [(B "lockdown", JBool locked_down)].
Inductive control_answer := Answered (digest : bytes) | Refused (err : bytes) | Lost.
Definition control_request (sent : option control_answer) : Z * (json + bytes) :=
  match sent with
  | None => (503, inr (B "vm-supervisor is shutting down"))
  | Some (Answered digest) => (200, inl (JObj [(B "snapshotDigest", JStr digest)]))
  | Some (Refused err) => (500, inr err)
  | Some Lost => (500, inr (B "reponse perdue (process en cours d'arret)"))
  end.
Definition is_locked_down (body : option json) : bool :=
  default false (b ← body; match jget (B "lockdown") b with Some (JBool l) => Some l | _ => None end).

(** ** Suspended and resumed *)

Section suspended.
Context {J V : Type} `{!Vmm J V}.

Lemma restore_is_saved config kernel rootfs image network state mem disk copied (v : V) :
  restore_persisted (J := J) config kernel rootfs image network state mem disk copied = Ok v ->
  vm_machine v = mkMachine state mem disk /\ vm_paused v = false /\ copied = true.
Proof.
  unfold restore_persisted.
  destruct (vmm_prepare config _ image) as [j| |] eqn:E; cbn [mbind res_bind]; [|done..]. apply prepare_ok in E as [_ Hc].
  destruct copied; cbn [negb]; [|done]. intros Hs.
  destruct (jail_write_ok j disk) as [Hd Hc']. eapply start_restored in Hs as [-> ->]; [|by rewrite Hc', Hc|done]. cbn [ls_snapshot ls_backend ls_resume_vm]. by rewrite Hd.
Qed.

(** A microVM that was running is running again after a snapshot, whatever failed, unless
    the declaration of a file or the resumption did; and what succeeded is one instant. *)
Lemma snapshot_outcome rootfs destination (v v' : V) held r :
  snapshot_internal rootfs destination v = (v', held, r) -> vm_paused v = false ->
  (r <> Err E_DECLARE -> r <> Err E_RESUME -> (forall v0 : V, (vmm_pause v0).2 <> Panic) -> vm_paused v' = false) /\
  forall st mem, r = Ok (st, mem) -> exists frozen : V, vmm_pause v = (frozen, Ok tt) /\ vm_paused frozen = true /\
    st = (vm_machine frozen).(g_state) /\ mem = (vm_machine frozen).(g_mem) /\
    (is_Some destination -> held = Some (vm_machine frozen).(g_disk)) /\ vm_paused v' = false.
Proof.
  unfold snapshot_internal. intros H Hrun. destruct (bool_decide (is_Some destination) && negb rootfs); [by injection H as <- <- <-|].
  destruct (vmm_pause v) as [v1 r1] eqn:E1. destruct r1 as [[]|e|].
  2: { injection H as <- <- <-. split; [|done]. intros _ _ _. by rewrite (pause_failed _ _ _ E1). }
  2: { injection H as <- <- <-. split; [|done]. intros _ _ Hp. destruct (Hp v). by rewrite E1. }
  pose proof (pause_ok _ _ E1) as P1.
  destruct (vmm_declare (B "/snapshot.state") v1) as [v2 r2] eqn:E2. destruct (paused_declare _ _ _ _ E2 P1) as [P2 M2].
  destruct r2; [|by injection H as <- <- <-..].
  destruct (vmm_declare (B "/snapshot.mem") v2) as [v3 r3] eqn:E3. destruct (paused_declare _ _ _ _ E3 P2) as [P3 M3].
  destruct r3; [|by injection H as <- <- <-..].
  destruct (vmm_create_snapshot v3) as [v4 sn] eqn:E4. destruct (paused_snapshot _ _ _ E4 P3) as (P4 & M4 & S4).
  assert (Hc : exists v5 disk, vm_paused v5 = true /\
    (match sn, destination with
     | Ok _, Some _ => let '(v, d, ok) := vmm_copy_disk v4 in (v, Some d, if (ok : bool) then Ok tt else Err E_DISK)
     | _, _ => (v4, default None destination, Ok tt)
     end) = (v5, (disk : option disk_image * res unit).1, disk.2) /\
    (forall x, sn = Ok x -> disk.2 = Ok tt -> is_Some destination -> disk.1 = Some (vm_machine v4).(g_disk))).
  { destruct sn as [x| |]; [|by exists v4, (default None destination, Ok tt)..].
    destruct destination as [h|]; [|exists v4, (None, Ok tt); split_and!; [done..|intros ? _ _ [? [=]]]].
    destruct (vmm_copy_disk v4) as [[v5 d] ok] eqn:E5. destruct (paused_copy _ _ _ _ E5 P4) as (P5 & _ & Hd).
    exists v5, (Some d, if ok then Ok tt else Err E_DISK). split_and!; [done..|].
    intros _ _. destruct ok; cbn; [|done]. intros _ _. by rewrite Hd. }
  destruct Hc as (v5 & [hd dr] & P5 & Heq & Hd). cbn [fst snd] in *. rewrite Heq in H.
  destruct (vmm_resume v5) as [v6 r6] eqn:E6. destruct r6 as [[]| |]; [|by injection H as <- <- <-..].
  pose proof (resume_ok _ _ E6) as P6. injection H as <- <- <-. split; [done|].
  intros st mem Hr. destruct sn as [x| |]; [|done..]. destruct dr as [[]| |]; [|done..]. injection Hr as ->.
  destruct (S4 st mem eq_refl) as [-> ->]. exists v1. rewrite <- M2, <- M3. split_and!; [done..| |done].
  intros Hs. rewrite (Hd _ eq_refl eq_refl Hs). by rewrite M4.
Qed.

(** C28: Suspending and resuming a microVM.  The state, the memory and the disk of a snapshot
    that succeeds are all three those of the guest as it was when it was paused, and the guest
    runs on afterwards; the microVM a later process restores from these files, whatever the
    image and the disk size of the Workshop have become, is that guest, running. *)
Theorem suspend_resume_exact held (v v1 : V) held1 st mem :
  snapshot_with_disk true held v = (v1, held1, Ok (st, mem)) -> vm_paused v = false ->
  vm_paused v1 = false /\
  exists (frozen : V) disk, vmm_pause v = (frozen, Ok tt) /\ vm_paused frozen = true /\ held1 = Some disk /\
    forall config kernel rootfs image network (v2 : V),
      restore_persisted (J := J) config kernel rootfs image network st mem disk true = Ok v2 ->
      vm_machine v2 = vm_machine frozen /\ vm_paused v2 = false.
Proof.
  intros H Hrun. destruct (snapshot_outcome _ _ _ _ _ _ H Hrun) as [_ Hok].
  destruct (Hok st mem eq_refl) as (frozen & Hf & Hfp & -> & -> & Hd & Hp). split; [done|].
  eexists frozen, _. split_and!; [done..|by apply Hd|].
  intros config kernel rootfs image network v2 Hr. apply restore_is_saved in Hr as (-> & -> & _). by destruct (vm_machine frozen).
Qed.

(** A startup that restores a microVM, after any history of interrupted publications and
    copies in which no fallback to S3 left a mixture, restores the guest of one suspension; [h] is the guest each suspension froze. *)
Theorem startup_restores_suspension (h : nat -> machine) d b s m k config kernel rootfs image network copied (v : V) :
  rtc store_step (∅, ∅, false) (d, b, false) -> start_vm d = Restore s m k ->
  restore_persisted (J := J) config kernel rootfs image network (h s.(suspension)).(g_state) (h m.(suspension)).(g_mem)
    (h k.(suspension)).(g_disk) copied = Ok v ->
  exists g, vm_machine v = h g /\ vm_paused v = false.
Proof.
  intros Hr Hs Hv. assert (Hsound : sound d).
  { apply (store_reachable_sound _ _ Hr); [|done]. split; cbn [fst snd]; [intros _; by apply sound_no_state|].
    intros ???. unfold s3_view. by rewrite !lookup_empty. }
  destruct (Hsound s m k Hs) as (g & -> & -> & ->). cbn [suspension] in Hv. exists g.
  apply restore_is_saved in Hv as (-> & -> & _). by destruct (h g).
Qed.

(** A round is a round of the abstract loop, on what the microVM answered. *)
Lemma supervise_round_refines input (v : V) :
  exists i, (supervise_round input v).2 = loop_round i /\
    (forall l p, input = CRequest l p -> exists ok, i = Request l ok).
Proof.
  destruct input as [l p| |]; unfold supervise_round.
  - destruct (snapshot_with_disk true None v) as [[v1 h] r]. eexists. split; [reflexivity|].
    intros ?? [= <- <-]. by eexists.
  - by exists ChannelClosed.
  - destruct (is_running v) as [v1 r]. eexists. by split; [reflexivity|].
Qed.

(** A lockdown whose snapshot succeeds cuts the egress before anything else, keeps the loop
    going and leaves the guest running: it is not frozen. *)
Theorem lockdown_leaves_running published (v v' : V) acts go_on :
  supervise_round (CRequest true published) v = (v', (acts, go_on)) -> vm_paused v = false ->
  Respond true ∈ acts ->
  go_on = true /\ acts = [FreezeEgress; Snapshot; Respond true; MarkLocked] /\ vm_paused v' = false.
Proof.
  cbn [supervise_round]. destruct (snapshot_with_disk true None v) as [[v1 h] r] eqn:E.
  cbn [loop_round]. intros [= <- <- <-] Hrun Hin. destruct r as [[st mem]| |]; cbn in Hin |- *.
  - destruct (snapshot_outcome _ _ _ _ _ _ E Hrun) as [_ Hok]. destruct (Hok st mem eq_refl) as (_ & _ & _ & _ & _ & _ & Hp).
    destruct published; [done|]. cbn in Hin. exfalso. by repeat (apply elem_of_cons in Hin as [Hin|Hin]; [done|]); apply elem_of_nil in Hin.
  - exfalso. by repeat (apply elem_of_cons in Hin as [Hin|Hin]; [done|]); apply elem_of_nil in Hin.
  - exfalso. by repeat (apply elem_of_cons in Hin as [Hin|Hin]; [done|]); apply elem_of_nil in Hin.
Qed.
End suspended.

(** ** A machine that satisfies the laws

    A guest whose processors write [tick] to the memory at each call while they run: paused,
    it does not change.  [declares] says whether its resource system takes a declaration. *)

Record toy_vm := mkToy { t_machine : machine; t_paused : bool; t_declares : bool }.
Definition toy_tick (v : toy_vm) : toy_vm :=
  if v.(t_paused) then v
  else mkToy (mkMachine v.(t_machine).(g_state) (B "tick " ++ v.(t_machine).(g_mem)) v.(t_machine).(g_disk)) false v.(t_declares).
Definition toy_set_paused (p : bool) (v : toy_vm) : toy_vm := mkToy v.(t_machine) p v.(t_declares).

#[local] Instance toy_vmm : Vmm (disk_image * configuration) toy_vm.
Proof.
  refine {|
    vmm_prepare _ c image := Ok (image, c);
    jail_disk := fst; jail_configuration := snd; jail_write j d := (d, j.2);
    vmm_start j := match j.2 with
                   | New _ => Ok (mkToy (mkMachine (B "boot") (B "") j.1) false true)
                   | RestoredFromSnapshot load _ =>
                       Ok (mkToy (mkMachine load.(ls_snapshot) load.(ls_backend) j.1) (negb (default false load.(ls_resume_vm))) true)
                   end;
    vm_machine := t_machine; vm_paused := t_paused;
    vmm_pause v := (toy_set_paused true (toy_tick v), Ok tt);
    vmm_resume v := (toy_set_paused false v, Ok tt);
    vmm_declare _ v := (toy_tick v, if v.(t_declares) then Ok tt else Err "declaration");
    vmm_create_snapshot v := (toy_tick v, Ok (v.(t_machine).(g_state), v.(t_machine).(g_mem)));
    vmm_copy_disk v := (toy_tick v, v.(t_machine).(g_disk), true);
    vmm_info v := (toy_tick v, Ok v.(t_paused));
    vmm_shutdown v := (v, Ok (true, true));
    vmm_cleanup v := (v, Ok tt) |}.
  1: by intros ? ? ? ? [= <-].
  1: done.
  1: by intros [d c] ? ? ? [= ->] _ [= <-].
  1: by intros [d c] ? ? [= ->] [= <-].
  all: unfold toy_tick, toy_set_paused; intros; simplify_eq/=; repeat case_match; simplify_eq/=; split_and?; try done.
  by intros st mem [= <- <-].
Defined.

Definition toy_disk : disk_image := mkDisk (mkImage 4 4) (B "ext4").
Definition toy_guest (declares : bool) : toy_vm :=
  mkToy (mkMachine (B "regs") (B "pages") toy_disk) false declares.

Lemma suspend_resume_exact_witness :
  let m := mkMachine (B "regs") (B "tick pages") toy_disk in
  snapshot_with_disk true None (toy_guest true) = (mkToy m false true, Some toy_disk, Ok (B "regs", B "tick pages")) /\
  exists frozen disk, vmm_pause (toy_guest true) = (frozen, Ok tt) /\ vm_paused frozen = true /\ Some toy_disk = Some disk /\
    forall config kernel rootfs image network v2,
      restore_persisted config kernel rootfs image network (B "regs") (B "tick pages") disk true = Ok v2 ->
      vm_machine v2 = vm_machine frozen /\ vm_paused v2 = false.
Proof.
  split; [by vm_compute|].
  refine (proj2 (suspend_resume_exact (J := disk_image * configuration) None (toy_guest true) _ (Some toy_disk) (B "regs") (B "tick pages") _ _)); by vm_compute.
Defined.

(** Where the resource system refuses a declaration, the guest is left paused, and the next
    poll of the loop shuts the microVM down. *)
Lemma declaration_failure_ends_session :
  snapshot_with_disk true None (toy_guest false) =
    (mkToy (mkMachine (B "regs") (B "tick pages") toy_disk) true false, None, Err E_DECLARE) /\
  (supervise [CRequest false true; CPoll] (toy_guest false)).2 = [Snapshot; Respond false; Shutdown; Teardown].
Proof. by vm_compute. Qed.

Lemma lockdown_leaves_running_witness :
  (supervise_round (CRequest true true) (toy_guest true)).2 = ([FreezeEgress; Snapshot; Respond true; MarkLocked], true) /\
  vm_paused (supervise_round (CRequest true true) (toy_guest true)).1 = false.
Proof.
  split; [by vm_compute|].
  refine (proj2 (proj2 (lockdown_leaves_running (J := disk_image * configuration) true (toy_guest true) _ _ true eq_refl _ _))); [by vm_compute|].
  apply elem_of_cons; right. apply elem_of_cons; right. apply elem_of_cons. by left.
Defined.

(** What the controller reads of the state of lockdown is the state; anything else is no
    lockdown. *)
Lemma lockdown_read_back b : is_locked_down (Some (lockdown_state_handler b)) = b /\ is_locked_down None = false.
Proof. by destruct b. Qed.
