(* ===== verification/BuildJob.v ===== *)
(** The build of a Workshop's image, as the controller sets it up: [ensure_image_build_job],
    [ensure_image_build_rbac] and [ensure_parent_pod_workshop_rbac] of
    [src/crates/controller/src/reconcile.rs], with what image-builder
    ([src/crates/image-builder/src/main.rs]) and its net-proxy sidecar read of it.

    The life of the Job and of the Workshop's status is [Lifecycle]'s; here are the
    containers, the access rights, and the life of the key the build is given. *)

From S2P Require Import Lifecycle.
From S2P Require Import Prelude RustStr Json Allowlist Internal Upstream EgressProxy NetAdmin PodSpec Crd Storage.
From S2P Require Import Provision VmSupervisor Firewall ImageBuilder BuilderVm VmResources.

(** ** What the controller knows *)

(** Of [struct ReconcileCtx], what the build depends on: OpenBao's address for pods, the
    registry, the object store, whether there is an enterprise certificate. *)
Record BuildCtx := mkBuildCtx {
  component_image_registry : option bytes;
  registry_addr : bytes;
  registry_insecure : bool;
  bc_openbao : option bytes;
  bc_s3 : option S3Config;
  s3_pod_endpoint : option bytes;
  ca_bundle_configmap : option bytes;
  llm_proxy_auth_token : option bytes }.

(** [fn component_image_ref]. *)
Definition component_image_ref (registry : option bytes) (name : bytes) : bytes :=
  match registry with
  | Some registry => registry ++ B "/atelier-" ++ name ++ B ":dev"
  | None => B "atelier-" ++ name ++ B ":dev"
  end.

(** [fn llm_service_ref]. *)
Definition llm_service_ref (pod_addr : bytes) : option (bytes * bytes) :=
  host ← head (split 58 pod_addr);
  match split 46 host with
  | name :: namespace :: _ =>
      if is_empty name || is_empty namespace || negb (contains host (B ".svc")) then None else Some (name, namespace)
  | _ => None
  end.

Definition CA_BUNDLE_MOUNT_PATH : bytes := B "/etc/atelier/ca/ca.crt".

(** ** The containers of the Job *)

Definition registry_port (addr : bytes) : Z :=
  default 5000 ('(_, p) ← rsplit_once 58 addr; parse_u16 p).

(** [build_llm_auth_token]: a key of this build's own, made only with the Job. *)
Definition build_llm_auth_token (job_already_exists : bool) (litellm : option llm_gateway) (ctx : BuildCtx) (spec : WorkshopSpec)
    (name : bytes) : option bytes :=
  if job_already_exists then None
  else match litellm with
       | Some g =>
           match generate_virtual_key g (build_key_alias name) spec.(owner_group) spec.(resources).(max_llm_budget_usd)
                   BUILD_VIRTUAL_KEY_TTL with
           | Ok k => Some k.(vk_key)
           | _ => ctx.(llm_proxy_auth_token)
           end
       | None => ctx.(llm_proxy_auth_token)
       end.

(** The [env] of the container image-builder. *)
Definition image_builder_env (ctx : BuildCtx) (spec : WorkshopSpec) (ns name : bytes) (token : option bytes)
  : list (string * bytes) :=
  [("ATELIER_DEVCONTAINER_REPO"%string, spec.(devcontainer).(repo));
   ("ATELIER_DEVCONTAINER_REVISION"%string, spec.(devcontainer).(revision));
   ("ATELIER_DEVCONTAINER_CONFIG_PATH"%string, spec.(devcontainer).(config_path));
   ("ATELIER_CLONE_WORKSPACE"%string, show_bool_env spec.(devcontainer).(clone_workspace));
   ("ATELIER_WORKSHOP_NAME"%string, name);
   ("ATELIER_WORKSHOP_NAMESPACE"%string, ns);
   ("ATELIER_GUEST_TERMINAL"%string, show_bool_env spec.(guest_services).(gs_terminal));
   ("ATELIER_GUEST_IDE"%string, show_bool_env spec.(guest_services).(gs_ide));
   ("ATELIER_REGISTRY_ADDR"%string, ctx.(registry_addr));
   ("ATELIER_REGISTRY_INSECURE"%string, show_bool_env ctx.(registry_insecure));
   ("ATELIER_IMAGE_CACHE_DIR"%string, IMAGE_CACHE_MOUNT_PATH);
   ("ATELIER_CRANE_BIN"%string, B "/tools/crane");
   ("ATELIER_BUILDER_REGISTRY_ALIAS"%string, B "registry:" ++ dec (registry_port ctx.(registry_addr)));
   ("ATELIER_BUILDER_NET_PROXY_PORT"%string, dec NET_PROXY_PORT);
   ("ATELIER_BUILDER_NET_PROXY_TRANSPARENT_HTTP_PORT"%string, dec NET_PROXY_TRANSPARENT_HTTP_PORT);
   ("ATELIER_BUILDER_NET_PROXY_TRANSPARENT_TLS_PORT"%string, dec NET_PROXY_TRANSPARENT_TLS_PORT)]
  ++ maybe "OPENBAO_ADDR" ctx.(bc_openbao)
  ++ maybe "ATELIER_LLM_PROXY_AUTH_TOKEN" token
  ++ match ctx.(bc_s3) with
     | Some s3 => s3_env s3 ctx.(s3_pod_endpoint) ++ maybe "S3_BUCKET_IMAGE_CACHE" s3.(bucket_image_cache)
     | None => []
     end
  ++ maybe "ATELIER_CA_BUNDLE_PATH" ((fun _ => CA_BUNDLE_MOUNT_PATH) <$> ctx.(ca_bundle_configmap)).

(** The hosts a build may reach, and the [env] of the net-proxy sidecar; [git_alias_addr] is
    the address of the Git forge, when it was resolved. *)
Definition build_allowlist (spec : WorkshopSpec) : list bytes := default spec.(egress_allowlist) spec.(build_egress_allowlist).
Definition builder_net_proxy_env (ctx : BuildCtx) (spec : WorkshopSpec) (git_alias_addr : option bytes) : list (string * bytes) :=
  [("ATELIER_EGRESS_ALLOWLIST"%string, join [44] (build_allowlist spec));
   ("ATELIER_NET_PROXY_LISTEN_ADDR"%string, anywhere NET_PROXY_PORT);
   ("ATELIER_NET_PROXY_TRANSPARENT_HTTP_ADDR"%string, anywhere NET_PROXY_TRANSPARENT_HTTP_PORT);
   ("ATELIER_NET_PROXY_TRANSPARENT_TLS_ADDR"%string, anywhere NET_PROXY_TRANSPARENT_TLS_PORT);
   ("ATELIER_REGISTRY_ALIAS_ADDR"%string, ctx.(registry_addr))]
  ++ maybe "ATELIER_GIT_ALIAS_ADDR" git_alias_addr.

(** ** What image-builder reads *)

(** The beginning of [fn run]. *)
Record BuilderConfig := mkBuilder {
  b_source : DevcontainerSource; b_workshop : bytes; b_namespace : bytes; b_registry : bytes; b_insecure : bool;
  b_cache_dir : bytes; b_crane : bytes }.
Definition required (env : string -> option bytes) (name : string) : res bytes := ok_or (env name) "variable manquante".
Definition builder_config (env : string -> option bytes) : res BuilderConfig :=
  r ← required env "ATELIER_DEVCONTAINER_REPO";
  let source := mkSource r (default (B "HEAD") (env "ATELIER_DEVCONTAINER_REVISION"%string))
    (default (B ".devcontainer/devcontainer.json") (env "ATELIER_DEVCONTAINER_CONFIG_PATH"%string))
    (match env "ATELIER_CLONE_WORKSPACE"%string with Some v => negb (beq v (B "false")) | None => true end) in
  w ← required env "ATELIER_WORKSHOP_NAME";
  n ← required env "ATELIER_WORKSHOP_NAMESPACE";
  g ← required env "ATELIER_REGISTRY_ADDR";
  let insecure := match env "ATELIER_REGISTRY_INSECURE"%string with Some v => beq v (B "true") | None => false end in
  c ← required env "ATELIER_IMAGE_CACHE_DIR";
  Ok (mkBuilder source w n g insecure c (default (B "crane") (env "ATELIER_CRANE_BIN"%string))).
Definition image_ref (c : BuilderConfig) : bytes :=
  c.(b_registry) ++ B "/atelier-workshops/" ++ c.(b_workshop) ++ B ":latest".

(** ** From the specification to the build *)

Ltac job_env_lookup :=
  unfold image_builder_env, builder_net_proxy_env; rewrite ?env_of_app, ?env_of_maybe;
  cbn [env_of find_first String.eqb Ascii.eqb Bool.eqb fst snd fmap option_fmap option_map].

Section built.
Context (ctx : BuildCtx) (spec : WorkshopSpec) (ns name : bytes) (token : option bytes) (base : string -> option bytes).
Let env := container_env (image_builder_env ctx spec ns name token) base.

Lemma builder_reads : builder_config env =
  Ok (mkBuilder spec.(devcontainer) name ns ctx.(registry_addr) ctx.(registry_insecure) IMAGE_CACHE_MOUNT_PATH (B "/tools/crane")).
Proof.
  unfold builder_config, required. cbn -[beq B].
  replace (negb (beq (show_bool_env _) (B "false"))) with (clone_workspace (devcontainer spec))
    by (by destruct (clone_workspace (devcontainer spec))).
  replace (beq (show_bool_env _) (B "true")) with (registry_insecure ctx) by (by destruct (registry_insecure ctx)).
  by destruct (devcontainer spec).
Qed.

Lemma services_read : guest_services_from_env env = spec.(guest_services).
Proof. unfold guest_services_from_env. cbn -[B guest_service_wanted]. by destruct (guest_services spec) as [[] []]. Qed.

Lemma alias_read : env "ATELIER_BUILDER_REGISTRY_ALIAS"%string = Some (B "registry:" ++ dec (registry_port ctx.(registry_addr))).
Proof. done. Qed.

Lemma build_store_read c : ctx.(bc_s3) = Some c -> (c.(bucket_image_cache) = None -> base "S3_BUCKET_IMAGE_CACHE"%string = None) ->
  s3_config_from_env env = Ok (Some (mkS3Config (default c.(endpoint) ctx.(s3_pod_endpoint)) c.(region) c.(bucket_sessions)
    c.(cfg_bucket_snapshots) c.(bucket_image_cache) c.(force_path_style) c.(access_key_id) c.(secret_access_key))).
Proof.
  intros Hc Hb. rewrite (s3_env_read env c (s3_pod_endpoint ctx)).
  - unfold env, container_env. job_env_lookup. rewrite Hc. job_env_lookup.
    destruct (bucket_image_cache c); cbn; [done|]. by rewrite Hb.
  - intros v x Hx. pose proof (s3_env_names _ _ _ _ Hx) as Hv. unfold env, container_env, image_builder_env.
    rewrite Hc, !env_of_app, !env_of_maybe, Hx.
    by repeat (apply elem_of_cons in Hv as [->|Hv]; [done|]); apply elem_of_nil in Hv.
Qed.
End built.

(** The routes of the sidecar: the registry and, when it was resolved, the Git forge. *)
Lemma sidecar_routes ctx spec git reg gaddr :
  parse_addr ctx.(registry_addr) = Ok reg -> non_blank (Some ctx.(registry_addr)) = Some ctx.(registry_addr) ->
  (forall g, git = Some g -> non_blank (Some g) = Some g /\ parse_addr g = Ok gaddr) ->
  routes_from_env (env_of (builder_net_proxy_env ctx spec git)) =
    Ok (mkRoutes (match git with Some _ => <[GIT_ALIAS := gaddr]> (<[REGISTRY_ALIAS := reg]> ∅) | None => <[REGISTRY_ALIAS := reg]> ∅ end) ∅ ∅).
Proof.
  intros Hreg Hnb Hgit. unfold routes_from_env, parse_routes. job_env_lookup. unfold parse_one_route at 1 2. cbn [non_blank mbind res_bind].
  unfold parse_one_route at 1. rewrite Hnb, Hreg. cbn [mbind res_bind]. unfold parse_one_route at 1. cbn [non_blank mbind res_bind].
  unfold parse_one_route. destruct git as [g|]; cbn [non_blank mbind res_bind]; [|done].
  destruct (Hgit g eq_refl) as [Hb Ha]. cbn [non_blank] in Hb. rewrite Hb, Ha. done.
Qed.

Lemma guest_image_ref ctx spec ns name token base ip : 47 ∉ ctx.(registry_addr) ->
  image_ref_for_guest (container_env (image_builder_env ctx spec ns name token) base)
    (ctx.(registry_addr) ++ B "/atelier-workshops/" ++ name ++ B ":latest") ip =
  B "registry:" ++ dec (registry_port ctx.(registry_addr)) ++ B "/atelier-workshops/" ++ name ++ B ":latest".
Proof.
  intros H. unfold image_ref_for_guest.
  change (B "/atelier-workshops/" ++ name ++ B ":latest") with (47 :: (B "atelier-workshops/" ++ name ++ B ":latest")).
  rewrite split_once_app by done. rewrite alias_read.
  assert (Ht : is_empty (trim (B "registry:" ++ dec (registry_port ctx.(registry_addr)))) = false).
  { rewrite printable_trim; [done|]. apply printable_app. split; [by apply (bool_decide_unpack _)|]. apply printable_dec.
    unfold registry_port. destruct (rsplit_once 58 (registry_addr ctx)) as [[h p]|]; cbn [mbind option_bind from_option id]; [|lia].
    destruct (parse_u16 p) as [z|] eqn:E; cbn; [|lia]. apply from_str_radix_bound in E; [lia|by vm_compute]. }
  by rewrite Ht, <- !app_assoc.
Qed.

(** C5: The build of an image is the one the specification asks for.  From the environments
    the controller gives the containers of the Job, image-builder reads the repository, the
    revision, the configuration and the services of the specification, and the object store
    of the controller; the sidecar allows exactly the hosts of the build, and the name under
    which the guest pushes its image is one the sidecar resolves, to the registry and to
    nothing else: apart from it only the Git forge has a name. *)
Theorem build_gets_spec ctx spec ns name token base git reg gaddr base64 :
  parse_addr ctx.(registry_addr) = Ok reg -> non_blank (Some ctx.(registry_addr)) = Some ctx.(registry_addr) ->
  47 ∉ ctx.(registry_addr) -> (forall g, git = Some g -> non_blank (Some g) = Some g /\ parse_addr g = Ok gaddr) ->
  Forall entry_ok (build_allowlist spec) -> base "S3_BUCKET_IMAGE_CACHE"%string = None ->
  let env := container_env (image_builder_env ctx spec ns name token) base in
  (exists c, builder_config env = Ok c /\ c.(b_source) = spec.(devcontainer) /\ c.(b_workshop) = name /\ c.(b_namespace) = ns /\
     c.(b_insecure) = ctx.(registry_insecure) /\
     forall ip, exists port, image_ref_for_guest env (image_ref c) ip =
       REGISTRY_ALIAS ++ B ":" ++ dec port ++ B "/atelier-workshops/" ++ name ++ B ":latest") /\
  guest_services_from_env env = spec.(guest_services) /\
  (forall s, ctx.(bc_s3) = Some s -> exists s', s3_config_from_env env = Ok (Some s') /\
     s'.(bucket_image_cache) = s.(bucket_image_cache) /\ s'.(endpoint) = default s.(endpoint) ctx.(s3_pod_endpoint)) /\
  exists e, egress_config base64 (env_of (builder_net_proxy_env ctx spec git)) = Ok e /\
    allowlist e = build_allowlist spec /\ identity_proxy e = None /\ upstream e = None /\
    resolve (internal e) REGISTRY_ALIAS = Some reg /\
    forall host a, resolve (internal e) host = Some a ->
      (to_ascii_lowercase host = REGISTRY_ALIAS /\ a = reg) \/ (to_ascii_lowercase host = GIT_ALIAS /\ a = gaddr /\ is_Some git).
Proof.
  intros Hreg Hnb H47 Hgit Hl Hbase env. split_and!.
  - eexists. split; [apply builder_reads|]. cbn [b_source b_workshop b_namespace b_insecure]. split_and!; [done..|].
    intros ip. eexists. unfold image_ref. cbn [b_registry b_workshop]. by apply guest_image_ref.
  - apply services_read.
  - intros s Hs. eexists. split; [by apply build_store_read|]. by split.
  - unfold egress_config. rewrite (sidecar_routes _ _ _ reg gaddr) by done. cbn [mbind res_bind]. eexists. split; [reflexivity|].
    cbn [allowlist identity_proxy upstream internal]. split_and!.
    + unfold parse_csv_env. cbn [env_of builder_net_proxy_env find_first String.eqb Ascii.eqb Bool.eqb fst snd app fmap option_fmap option_map from_option id].
      by apply csv_join.
    + unfold identity_proxy_from_env. by job_env_lookup.
    + unfold upstream_from_env. by job_env_lookup.
    + destruct git; rewrite resolve_lookup by (apply (routes_from_env_lower _ _ (sidecar_routes ctx spec _ reg gaddr Hreg Hnb Hgit))); by vm_compute.
    + intros host a.
      destruct git; rewrite resolve_lookup by (apply (routes_from_env_lower _ _ (sidecar_routes ctx spec _ reg gaddr Hreg Hnb Hgit)));
        cbn [routes Internal.simulators squad]; rewrite !map_union_empty, !lookup_insert, lookup_empty; repeat case_decide; intros [= <-]; eauto.
Qed.

(** A registry without a port, which the controller takes for port 5000, stops the sidecar. *)
Lemma registry_without_port :
  registry_port (B "registry.example.org") = 5000 /\
  forall spec ca token s3 pe,
    exists e, routes_from_env (env_of (builder_net_proxy_env
      (mkBuildCtx None (B "registry.example.org") false None s3 pe ca token) spec None)) = Err e.
Proof. split; [by vm_compute|]. intros. unfold routes_from_env, parse_routes. job_env_lookup. eexists. by vm_compute. Qed.

Definition sample_build_spec : WorkshopSpec :=
  mkSpec (mkSource (B "https://git/r.git") (B "main") (B ".devcontainer/devcontainer.json") false) sample_resources
    [B "pypi.org"] (Some [B "deb.debian.org"]) [] [] (B "team") (B "alice") DesiredRunning [] [] [] None (mkServices true false).
Definition sample_build_ctx : BuildCtx := mkBuildCtx None (B "registry.local:5001") true None None None None None.

Lemma build_gets_spec_witness :
  exists e, egress_config id (env_of (builder_net_proxy_env sample_build_ctx sample_build_spec (Some (B "10.0.0.7:3000")))) = Ok e /\
    allowlist e = [B "deb.debian.org"] /\ resolve (internal e) (B "registry") = Some (B "registry.local", 5001).
Proof.
  destruct (build_gets_spec sample_build_ctx sample_build_spec (B "ws") (B "demo") None (fun _ => None) (Some (B "10.0.0.7:3000"))
    (B "registry.local", 5001) (B "10.0.0.7", 3000) id) as (_ & _ & _ & e & He & Ha & _ & _ & Hr & _).
  - vm_compute; reflexivity.
  - vm_compute; reflexivity.
  - apply (bool_decide_unpack _); vm_compute; exact I.
  - intros g Hg; apply (inj Some) in Hg; subst g; split; vm_compute; reflexivity.
  - apply (bool_decide_unpack _); vm_compute; exact I.
  - reflexivity.
  - exists e. split; [exact He|]. split; [exact Ha|exact Hr].
Defined.

(** ** Access to the Kubernetes API *)

Record PolicyRule := mkPolicy { api_groups : list bytes; pr_resources : list bytes; resource_names : list bytes; verbs : list bytes }.
Record RoleBinding := mkBinding { role_ref : bytes; subject : bytes }.
(** The ServiceAccounts, Roles and RoleBindings of a namespace, by name. *)
Record rbac := mkRbac { accounts : gset bytes; roles : gmap bytes (list PolicyRule); bindings : gmap bytes RoleBinding }.

(** The Role and the RoleBinding of an account, applied under its name. *)
Definition apply_role (c : rbac) (account : bytes) (rules : list PolicyRule) : rbac :=
  mkRbac c.(accounts) (<[account := rules]> c.(roles)) (<[account := mkBinding account account]> c.(bindings)).
Definition apply_account (c : rbac) (account : bytes) : rbac := mkRbac ({[account]} ∪ c.(accounts)) c.(roles) c.(bindings).

(** [fn ensure_image_build_rbac]. *)
Definition ensure_image_build_rbac (c : rbac) (job_name workshop_name : bytes) : rbac :=
  apply_role (apply_account c job_name) job_name
    [mkPolicy [B "atelier.dev"] [B "workshops/status"] [workshop_name] [B "get"; B "patch"]].
(** [fn ensure_parent_pod_workshop_rbac], after the ServiceAccount of [ensure_parent_pod]. *)
Definition ensure_parent_pod_workshop_rbac (c : rbac) (sa_name workshop_name : bytes) : rbac :=
  apply_role (apply_account c sa_name) sa_name
    [mkPolicy [B "atelier.dev"] [B "workshops"] [workshop_name] [B "get"; B "patch"]].

(** The authorization of Kubernetes: a binding of the account to a Role with a rule for the
    request; a rule with names is for these names. *)
Definition rule_allows (r : PolicyRule) (group resource name verb : bytes) : Prop :=
  group ∈ r.(api_groups) /\ resource ∈ r.(pr_resources) /\ verb ∈ r.(verbs) /\ (r.(resource_names) = [] \/ name ∈ r.(resource_names)).
Definition authorized (c : rbac) (account group resource name verb : bytes) : Prop :=
  exists k b rules r, c.(bindings) !! k = Some b /\ b.(subject) = account /\ c.(roles) !! b.(role_ref) = Some rules /\
    r ∈ rules /\ rule_allows r group resource name verb.

(** A reconciliation that builds, or one that has an image, of the Workshop [name]. *)
Inductive rbac_step : rbac -> rbac -> Prop :=
| rbac_build c name : rbac_step c (ensure_image_build_rbac c (Lifecycle.image_build_service_account name) name)
| rbac_pod c name : rbac_step c (ensure_parent_pod_workshop_rbac c (Lifecycle.parent_pod_name name) name).

(** What the namespace holds: Roles of these two kinds, each under the name of its account. *)
Definition kind_rule (status : bool) (name : bytes) : list PolicyRule :=
  [mkPolicy [B "atelier.dev"] [if status then B "workshops/status" else B "workshops"] [name] [B "get"; B "patch"]].
Definition account_of (status : bool) (name : bytes) : bytes :=
  if status then Lifecycle.image_build_service_account name else Lifecycle.parent_pod_name name.
Definition rbac_inv (c : rbac) : Prop :=
  (forall k rules, c.(roles) !! k = Some rules -> exists status name, k = account_of status name /\ rules = kind_rule status name) /\
  (forall k b, c.(bindings) !! k = Some b -> b = mkBinding k k).

Lemma last_app_ne (l : bytes) k : k <> [] -> last (l ++ k) = last k.
Proof. intros Hk. rewrite last_app. destruct (last k) eqn:E; [done|]. by apply last_None in E. Qed.
Lemma account_of_inj st st' n n' : account_of st n = account_of st' n' -> st = st' /\ n = n'.
Proof.
  unfold account_of, Lifecycle.image_build_service_account, Lifecycle.parent_pod_name. intros H.
  assert (st = st') as <- by (apply (f_equal last) in H; destruct st, st'; [done| | |done];
    rewrite !last_app_ne in H by (by vm_compute); by vm_compute in H).
  split; [done|]. destruct st; by apply app_inv_tail in H.
Qed.

Lemma rbac_step_inv c c' : rbac_step c c' -> rbac_inv c -> rbac_inv c'.
Proof.
  intros Hs [Hr Hb]. split.
  - intros k rules. destruct Hs as [c name|c name]; cbn [roles ensure_image_build_rbac ensure_parent_pod_workshop_rbac apply_role apply_account];
      rewrite lookup_insert; case_decide as Hk; try apply Hr; intros [= <-]; subst k; [by exists true, name|by exists false, name].
  - intros k b. destruct Hs as [c name|c name]; cbn [bindings ensure_image_build_rbac ensure_parent_pod_workshop_rbac apply_role apply_account];
      rewrite lookup_insert; case_decide as Hk; try apply Hb; intros [= <-]; by subst k.
Qed.

(** C10: No account of a Workshop reaches another.  After any sequence of reconciliations of
    the Workshops of a namespace, whatever their names, the account of a Workshop's build can
    do nothing of the API but read and patch the status of that Workshop, and the account of
    its pod nothing but read and patch that Workshop; and a reconciliation grants it that. *)
Theorem accounts_isolated c account group resource n verb :
  rtc rbac_step (mkRbac ∅ ∅ ∅) c ->
  (authorized c account group resource n verb ->
   group = B "atelier.dev" /\ verb ∈ [B "get"; B "patch"] /\
   ((account = Lifecycle.image_build_service_account n /\ resource = B "workshops/status") \/
    (account = Lifecycle.parent_pod_name n /\ resource = B "workshops")) /\
   forall w, account = Lifecycle.image_build_service_account w \/ account = Lifecycle.parent_pod_name w -> w = n) /\
  (verb ∈ [B "get"; B "patch"] ->
   authorized (ensure_image_build_rbac c (Lifecycle.image_build_service_account n) n)
     (Lifecycle.image_build_service_account n) (B "atelier.dev") (B "workshops/status") n verb /\
   authorized (ensure_parent_pod_workshop_rbac c (Lifecycle.parent_pod_name n) n)
     (Lifecycle.parent_pod_name n) (B "atelier.dev") (B "workshops") n verb).
Proof.
  intros Hc. assert (Hinv : rbac_inv c).
  { remember (mkRbac ∅ ∅ ∅) as c0 eqn:E. assert (H0 : rbac_inv c0) by (subst c0; split; intros ??; cbn; by rewrite lookup_empty).
    clear E. induction Hc as [|c0 c1 c2 Hs _ IH]; [done|]. by apply IH, (rbac_step_inv _ _ Hs). }
  destruct Hinv as [Hr Hb]. split.
  - intros (k & b & rules & r & Hk & Hsub & Hrole & Hin & Hg & Hres & Hv & Hn).
    rewrite (Hb _ _ Hk) in Hsub, Hrole. cbn [subject role_ref] in Hsub, Hrole. subst k.
    destruct (Hr _ _ Hrole) as (st & name & -> & ->). apply list_elem_of_singleton in Hin as ->. cbn in Hg, Hres, Hv, Hn.
    apply list_elem_of_singleton in Hg, Hres. destruct Hn as [Hn|Hn%list_elem_of_singleton]; [done|]. subst name.
    split_and!; [done|done|destruct st; [by left|by right]|].
    intros w [Hw|Hw]; [apply (account_of_inj st true) in Hw|apply (account_of_inj st false) in Hw]; by destruct Hw.
  - intros Hv. split; eexists _, _, _, _; cbn [bindings roles ensure_image_build_rbac ensure_parent_pod_workshop_rbac apply_role apply_account];
      (split; [by rewrite lookup_insert_eq|]); (split; [reflexivity|]); (split; [by rewrite lookup_insert_eq|]);
      (split; [by apply list_elem_of_singleton|]); by repeat split; auto; [apply list_elem_of_singleton..|right; apply list_elem_of_singleton].
Qed.

Lemma accounts_isolated_witness :
  let c := ensure_parent_pod_workshop_rbac (ensure_image_build_rbac (mkRbac ∅ ∅ ∅) (B "a-image-build") (B "a")) (B "a-parent") (B "a") in
  rtc rbac_step (mkRbac ∅ ∅ ∅) c /\ authorized (ensure_image_build_rbac c (B "b-image-build") (B "b"))
    (B "b-image-build") (B "atelier.dev") (B "workshops/status") (B "b") (B "patch").
Proof.
  split.
  - eapply rtc_l; [apply (rbac_build _ (B "a"))|]. eapply rtc_l; [apply (rbac_pod _ (B "a"))|]. apply rtc_refl.
  - refine (proj1 (proj2 (accounts_isolated _ (B "b-image-build") (B "atelier.dev") (B "workshops/status") (B "b") (B "patch") _) _)).
    + eapply rtc_l; [apply (rbac_build _ (B "a"))|]. eapply rtc_l; [apply (rbac_pod _ (B "a"))|]. apply rtc_refl.
    + apply (bool_decide_unpack _). vm_compute. exact I.
Defined.

(** ** The key of a build *)

Section build_key.
Import Lifecycle.
Context `{MergePatch} (name : bytes).

Definition job_done (sys : system) : bool :=
  match s_job sys with Some j => default 0 (Lifecycle.job_succeeded j) >? 0 | None => false end.

(** The Job succeeds when image-builder exits with 0, which the [fn run] of image-builder
    does after it has patched the status, its last statement. *)
Definition build_step (sys sys' : system) : Prop :=
  system_step name sys sys' /\ (job_done sys' = true -> job_done sys = true \/ s_published sys' <> []).

Lemma step_published sys sys' : system_step name sys sys' -> s_published sys <> [] -> s_published sys' <> [].
Proof.
  intros Hs Hp. destruct Hs as [ | | | |sys a| sys]; cbn; [done| |done|done| |].
  - by destruct (s_published sys).
  - destruct (reconcile_apply_stored name a sys) as (_ & -> & _). done.
  - unfold reconcile_write. by destruct (s_computed sys).
Qed.

Lemma done_published sys : rtc build_step new_workshop sys -> job_done sys = true -> s_published sys <> [].
Proof.
  intros Hr. assert (Hi : job_done new_workshop = true -> s_published new_workshop <> []) by done. revert Hi.
  induction Hr as [|x y z [Hs Hd] _ IH]; [done|]. intros Hi. apply IH. intros Hy.
  destruct (Hd Hy) as [Hx|Hx]; [|done]. eapply step_published; eauto.
Qed.

(** The key of a build is made with its Job and only then; a build that fails has it revoked
    at each reconciliation.  A build that succeeds never has: when the Job is seen to have
    succeeded the digest is there, and the reconciliation looks at the pod, not at the Job. *)
Lemma build_key_life sys a :
  let acts := (apply (read_workshop name sys) (s_pod sys) (s_job sys) a).1 in
  (GenerateBuildKey ∈ acts -> s_job sys = None /\ CreateJob ∈ acts) /\
  (rtc build_step new_workshop sys -> is_Some (status_of (s_status sys)) -> job_done sys = true -> RevokeBuildKey ∉ acts).
Proof.
  cbn zeta. unfold apply. destruct (decide _).
  { unfold ensure_suspended. destruct (s_pod sys) as [p|]; [destruct (deletion_timestamp p)|]; cbn; set_solver. }
  destruct (w_status (read_workshop name sys) ≫= image_digest) as [d|] eqn:Ed.
  { unfold ensure_parent_pod. destruct (s_pod sys); cbn; set_solver. }
  split.
  - destruct (s_job sys) as [j|]; cbn.
    + destruct (a_litellm a && _); set_solver.
    + rewrite andb_false_r. destruct (a_litellm a); set_solver.
  - intros Hr Hst Hd. exfalso. pose proof (done_published _ Hr Hd) as Hp.
    assert (Hd' : digests_inv sys).
    { apply (reachable_digests name). clear -Hr. induction Hr as [|x y z [Hs _] _ IH]; [apply rtc_refl|by eapply rtc_l]. }
    destruct (di_present _ Hd' Hp) as [d Hd2]. cbn [w_status read_workshop] in Ed. destruct Hst as [st Hst].
    revert Ed Hst. unfold status_of. destruct (get_str (B "phase") (s_status sys)) as [p|]; cbn [mbind option_bind]; [|done].
    destruct (phase_of_str p); cbn [mbind option_bind image_digest]; [|done]. by rewrite Hd2.
Qed.
End build_key.
