(* ===== verification/PodTemplate.v ===== *)
(** The whole pod of a Workshop: the containers of identity-proxy, mcp-gateway and the
    simulators in [ensure_parent_pod] of [src/crates/controller/src/reconcile.rs], the rules of
    injection it computes and publishes, and the hash by which a pod of an older template is
    recognized.  The containers of vm-supervisor and net-proxy are [VmResources]' and
    [PodSpec]'s. *)

From S2P Require Import Lifecycle.
From S2P Require Import Prelude RustStr Json Internal IdentityHttp IdentityRules IdentityProxy McpGateway NetAdmin PodSpec Crd Storage.
From S2P Require Import OpenBao Provision VmResources BuildJob.

(** ** The rules of injection *)

Definition LLM_PROXY_ALIAS_HOST : bytes := B "llm-proxy".
Definition llm_rule : InjectionRule :=
  mkRule LLM_PROXY_ALIAS_HOST (B "Authorization") (B "Bearer ") LLM_VIRTUAL_KEY_SECRET_PATH LLM_VIRTUAL_KEY_SECRET_FIELD.

(** The Git forge with its address, when it is configured and was resolved, and the address
    of LiteLLM, when LiteLLM and OpenBao are configured and it was. *)
Record resolved := mkResolved { git_forge : option (GitIdentityConfig * bytes); llm_ip : option bytes }.

(** [effective_identity_injection_rules]. *)
Definition effective_injection_rules (rules : list InjectionRule) (r : resolved) : list InjectionRule :=
  rules ++ (match r.(git_forge) with Some (config, _) => [injection_rule config] | None => [] end)
        ++ match r.(llm_ip) with Some _ => [llm_rule] | None => [] end.
(** [host_aliases]: addresses and the names they answer to. *)
Definition host_aliases (r : resolved) : list (bytes * bytes) :=
  match r.(git_forge) with Some (_, ip) => [(ip, GIT_ALIAS_HOST)] | None => [] end
  ++ match r.(llm_ip) with Some ip => [(ip, LLM_PROXY_ALIAS_HOST)] | None => [] end.

Definition INJECTION_RULES_DIR : bytes := B "/etc/atelier/injection".
Definition INJECTION_RULES_PATH : bytes := B "/etc/atelier/injection/rules.json".
Definition INJECTION_RULES_KEY : bytes := B "rules.json".
Definition injection_rules_config_map (workshop_name : bytes) : bytes := workshop_name ++ B "-injection-rules".
Definition EGRESS_DIR : bytes := B "/etc/atelier/egress".
Definition EGRESS_PATH : bytes := B "/etc/atelier/egress/allowlist".
Definition EGRESS_KEY : bytes := B "allowlist".
Definition egress_config_map (workshop_name : bytes) : bytes := workshop_name ++ B "-egress".

(** [fn ensure_injection_rules_config_map] and [fn ensure_egress_config_map]: created, or
    replaced when the name is taken; [api] is what the API server answers to the creation,
    [None] when it takes it, else the status, and whether it takes the replacement. *)
Abbreviation config_maps := (gmap bytes (gmap bytes bytes)).
Definition ensure_config_map (maps : config_maps) (api : option Z * bool) (cm_name key data : bytes) : config_maps * res unit :=
  match api.1 with
  | None => (<[cm_name := {[key := data]}]> maps, Ok tt)
  | Some code =>
      if (code =? 409) && api.2 then (<[cm_name := {[key := data]}]> maps, Ok tt) else (maps, Err "ConfigMap")
  end.
Definition ensure_injection_rules_config_map maps api name rules_json :=
  ensure_config_map maps api (injection_rules_config_map name) INJECTION_RULES_KEY rules_json.
Definition ensure_egress_config_map maps api name allowlist :=
  ensure_config_map maps api (egress_config_map name) EGRESS_KEY (join [10] allowlist).

(** ** Containers *)

Record Container := mkContainer { ct_name : bytes; ct_image : bytes; ct_env : list (bytes * bytes); ct_ports : list (bytes * Z) }.

(** The [env] of identity-proxy and of mcp-gateway. *)
Definition identity_proxy_env (name rules_json : bytes) (openbao : option bytes) : list (string * bytes) :=
  [("ATELIER_IDENTITY_PROXY_LISTEN_ADDR"%string, anywhere IDENTITY_PROXY_PORT);
   ("ATELIER_IDENTITY_INJECTION_RULES"%string, rules_json); ("ATELIER_WORKSHOP_NAME"%string, name);
   ("ATELIER_IDENTITY_INJECTION_RULES_FILE"%string, INJECTION_RULES_PATH)] ++ maybe "OPENBAO_ADDR" openbao.
Definition mcp_gateway_env (name : bytes) (tools : list bytes) (openbao : option bytes) : list (string * bytes) :=
  [("ATELIER_MCP_GATEWAY_LISTEN_ADDR"%string, anywhere MCP_GATEWAY_PORT); ("ATELIER_WORKSHOP_NAME"%string, name);
   ("ATELIER_TOOLS"%string, join [44] tools); ("ATELIER_NET_PROXY_ADMIN_ADDR"%string, loopback NET_PROXY_ADMIN_PORT);
   ("ATELIER_MCP_GATEWAY_VSOCK_UDS_PATH"%string, vsock_uds_path)] ++ maybe "OPENBAO_ADDR" openbao.

(** [fn simulator_container]. *)
Definition simulator_defaults (t : SimulatorType) : bytes * list (bytes * bytes) :=
  match t with
  | Postgres => (B "postgres:16-alpine", [(B "POSTGRES_PASSWORD", B "postgres")])
  | Localstack => (B "localstack/localstack:3", [])
  | Wiremock => (B "wiremock/wiremock:3", [])
  end.
Definition simulator_container (sim : SimulatorSpec) : Container :=
  let '(image, default_env) := simulator_defaults (sim_type sim) in
  mkContainer (sim_name sim) image (base.filter (fun kv => kv.1 ∉ (sim_env sim).*1) default_env ++ sim_env sim) [].

(** The fields of the specification [PodSpec] is about. *)
Definition pod_view (name : bytes) (spec : WorkshopSpec) : PodSpec.WorkshopSpec :=
  PodSpec.mkSpec name spec.(egress_allowlist) spec.(tools) spec.(simulators)
    ((fun e => (e.(es_name), e.(es_port))) <$> spec.(exported_services)) spec.(allowed_internal_targets) spec.(campaign_id)
    spec.(owner_group).

(** What else a template depends on: the registry of the components, the limit of disks, the
    object store, the addresses of OpenBao and LiteLLM, and what was resolved. *)
Record TemplateCtx := mkTemplateCtx {
  tc_registry : option bytes; tc_max_disk : Z; tc_s3 : option S3Config; tc_s3_endpoint : option bytes;
  tc_openbao : option bytes; tc_llm : option bytes; tc_resolved : resolved; tc_services : services; tc_squad_key : option bytes }.
Definition pod_ctx (c : TemplateCtx) : PodCtx :=
  mkCtx c.(tc_openbao) c.(tc_llm) (bool_decide (is_Some c.(tc_resolved).(llm_ip))) (bool_decide (is_Some c.(tc_resolved).(git_forge))) None.

Inductive volume_source := ClaimVolume (claim : bytes) | ConfigMapVolume (name : bytes) | EmptyDir.
Record PodTemplate := mkTemplate {
  t_service_account : bytes; t_host_aliases : list (bytes * bytes); t_volumes : list (bytes * volume_source);
  t_containers : list Container }.

Definition SIMULATOR_IMAGE : bytes := B "localstack/localstack:3".
Definition IMAGE_CACHE_PVC_NAME : bytes := B "atelier-image-cache".
Definition env_vars (l : list (string * bytes)) : list (bytes * bytes) := (fun kv => (B kv.1, kv.2)) <$> l.

(** The [PodSpec] of [fn ensure_parent_pod]; [rules_json] is the text of the rules. *)
Definition pod_template (c : TemplateCtx) (spec : WorkshopSpec) (console : bool) (ns name digest rules_json : bytes) : PodTemplate :=
  let image n := component_image_ref c.(tc_registry) n in
  mkTemplate (parent_pod_name name) (host_aliases c.(tc_resolved))
    [(B "cache", ClaimVolume IMAGE_CACHE_PVC_NAME); (B "egress-allowlist", ConfigMapVolume (egress_config_map name));
     (B "injection-rules", ConfigMapVolume (injection_rules_config_map name)); (B "jailer", EmptyDir)]
    ([mkContainer (B "vm-supervisor") (image (B "vm-supervisor"))
        (env_vars (vm_supervisor_env spec.(resources) c.(tc_max_disk) console digest ns name c.(tc_s3) c.(tc_s3_endpoint))) [];
      mkContainer (B "net-proxy") (image (B "net-proxy"))
        (env_vars (net_proxy_env (pod_view name spec) (pod_ctx c) c.(tc_services) c.(tc_squad_key)))
        ((fun e => (e.(es_name), e.(es_port))) <$> spec.(exported_services));
      mkContainer (B "identity-proxy") (image (B "identity-proxy")) (env_vars (identity_proxy_env name rules_json c.(tc_openbao))) [];
      mkContainer (B "mcp-gateway") (image (B "mcp-gateway")) (env_vars (mcp_gateway_env name spec.(tools) c.(tc_openbao))) []]
     ++ (if bool_decide (B "enable_simulator" ∈ spec.(tools))
         then [mkContainer (B "simulator") SIMULATOR_IMAGE [(B "GATEWAY_LISTEN", loopback SIMULATOR_PORT)] []] else [])
     ++ (simulator_container <$> spec.(simulators))).

(** The template the reconciliation builds, with the rules it computes, and its hash
    ([fn pod_spec_template_hash], of the JSON of the template). *)
Section template.
Context (to_text : list InjectionRule -> bytes) (hash : PodTemplate -> bytes).
Definition rules_json_of (c : TemplateCtx) (spec : WorkshopSpec) : bytes :=
  to_text (effective_injection_rules spec.(identity_injection_rules) c.(tc_resolved)).
Definition desired_template (c : TemplateCtx) (spec : WorkshopSpec) (console : bool) (ns name digest : bytes) : PodTemplate :=
  pod_template c spec console ns name digest (rules_json_of c spec).
Definition pod_spec_template_hash (t : PodTemplate) : bytes := hash t.

(** [upgrade_state], from the annotation of the pod that is there. *)
Definition upgrade_state_of (existing_hash : option bytes) (desired : PodTemplate) : option WorkshopUpgradeState :=
  h ← existing_hash; if bool_decide (h = pod_spec_template_hash desired) then None else Some NeedsRestartForUpgrade.
End template.

(** ** The key of a Workshop's model calls *)

(** The key [fn ensure_parent_pod] makes with a pod, when LiteLLM and OpenBao are configured:
    in the team of the campaign where there is one and it could be made, then in OpenBao. *)
Section provision.
Context {S : Type} (tr : server S) (config : OpenBaoConfig) (g : llm_gateway).
Definition team_of (spec : WorkshopSpec) : option bytes :=
  campaign ← spec.(campaign_id);
  match ensure_team g (campaign_team_id campaign) spec.(resources).(max_llm_budget_usd) with
  | Ok _ => Some (campaign_team_id campaign)
  | _ => None
  end.
Definition provision_virtual_key (s : S) (spec : WorkshopSpec) (name : bytes) (pod_will_be_created : bool) : S :=
  if pod_will_be_created then
    match generate_virtual_key_in_team g (workshop_key_alias name) spec.(owner_group) spec.(resources).(max_llm_budget_usd)
            VIRTUAL_KEY_TTL (team_of spec) with
    | Ok k => (ensure_llm_virtual_key_secret tr config s name k.(vk_key)).1
    | _ => s
    end
  else s.

(** The key is stored where the rule of identity-proxy looks for it; a pod that is there, or
    a gateway that refuses, changes no secret, and no other secret changes in any case. *)
Lemma virtual_key_provisioned `{!KvV2 tr, AD : !BaoAdmin tr} s spec name created :
  let s' := provision_virtual_key s spec name created in
  let id := secret_id name LLM_VIRTUAL_KEY_SECRET_PATH in
  (created = false -> s' = s) /\
  (forall k s1, created = true ->
     generate_virtual_key_in_team g (workshop_key_alias name) spec.(owner_group) spec.(resources).(max_llm_budget_usd)
       VIRTUAL_KEY_TTL (team_of spec) = Ok k ->
     ensure_llm_virtual_key_secret tr config s name k.(vk_key) = (s1, Ok tt) ->
     (exists d, kv_view s' id = Some d /\ d !! LLM_VIRTUAL_KEY_SECRET_FIELD = Some k.(vk_key)) /\
     forall id', id' <> id -> kv_view s' id' = kv_view s id').
Proof using Type.
  cbn zeta. unfold provision_virtual_key. split; [by intros ->|]. intros k s1 -> -> E. rewrite E. cbn [fst].
  unfold ensure_llm_virtual_key_secret in E. apply (put_secret_ok tr config) in E as [(d & Hd & Hf) Hfr].
  split; [|done]. exists d. split; [done|]. by rewrite Hf.
Qed.
End provision.

Lemma matching_app rules rest host :
  matching (rules ++ rest) host = match matching rules host with Some r => Some r | None => matching rest host end.
Proof. unfold matching. induction rules as [|r rules IH]; [done|]. cbn [app find_first]. by destruct (host_matches _ _). Qed.

(** The fixed alias of LiteLLM, in the routes net-proxy reads. *)
Lemma routes_from_env_llm env r a x :
  routes_from_env env = Ok r -> non_blank (env "ATELIER_LLM_PROXY_ADDR"%string) = Some a -> parse_addr a = Ok x ->
  resolve r LLM_PROXY_ALIAS_HOST = Some x.
Proof.
  intros Hr Ha Hx. rewrite resolve_lookup by (by eapply routes_from_env_lower).
  enough (routes r !! LLM_PROXY_ALIAS = Some x) as Hl.
  { apply lookup_union_Some_l. exact Hl. }
  revert Hr. unfold routes_from_env, parse_routes.
  destruct (parse_one_route IDENTITY_PROXY_ALIAS _ ∅) as [m1| |]; cbn [mbind res_bind]; [|done..].
  destruct (parse_one_route MCP_GATEWAY_ALIAS _ m1) as [m2| |]; cbn [mbind res_bind]; [|done..].
  destruct (parse_one_route REGISTRY_ALIAS _ m2) as [m3| |]; cbn [mbind res_bind]; [|done..].
  assert (E4 : parse_one_route LLM_PROXY_ALIAS (env "ATELIER_LLM_PROXY_ADDR"%string) m3 = Ok (<[LLM_PROXY_ALIAS := x]> m3))
    by (unfold parse_one_route; by rewrite Ha, Hx).
  rewrite E4. cbn [mbind res_bind].
  assert (Hg : forall o m m', parse_one_route GIT_ALIAS o m = Ok m' -> m' !! LLM_PROXY_ALIAS = m !! LLM_PROXY_ALIAS).
  { intros o m m' Hm. unfold parse_one_route in Hm. destruct (non_blank o) as [l|]; [|by simplify_eq].
    destruct (parse_addr l); cbn [mbind res_bind] in Hm; simplify_eq. by apply lookup_insert_ne. }
  destruct (parse_one_route GIT_ALIAS _ _) as [m5| |] eqn:E5; cbn [mbind res_bind]; [|done..].
  apply Hg in E5. rewrite lookup_insert_eq in E5.
  assert (Hs : forall r0 o r1, match o with Some raw => add_simulators r0 raw | None => Ok r0 end = Ok r1 -> routes r1 = routes r0).
  { intros r0 [raw|] r1 Hs; [|by simplify_eq]. unfold add_simulators in Hs.
    destruct (add_simulator_entries _ _); cbn [mbind res_bind] in Hs; by simplify_eq. }
  destruct (match env "ATELIER_SIMULATORS"%string with Some _ => _ | None => _ end) as [r1| |] eqn:E1; cbn [mbind res_bind]; [|done..].
  apply Hs in E1. destruct (env "ATELIER_ALLOWED_INTERNAL_TARGETS"%string); intros Hr; [|simplify_eq; by rewrite E1].
  unfold add_squad_targets in Hr. destruct (add_squad_entries _ _); cbn [mbind res_bind] in Hr; simplify_eq. cbn. by rewrite E1.
Qed.

Section delivered.
Context (to_text : list InjectionRule -> bytes) (from_json : bytes -> option (list InjectionRule)).
(** serde_json: the text of a list is read as the list, and is not blank. *)
Hypothesis text_read : forall rules, from_json (to_text rules) = Some rules /\ is_empty (trim (to_text rules)) = false.

Lemma rules_loaded c spec name read maps api maps' :
  ensure_injection_rules_config_map maps api name (rules_json_of to_text c spec) = (maps', Ok tt) ->
  (forall d, (maps' !! injection_rules_config_map name) ≫= (.!! INJECTION_RULES_KEY) = Some d -> read INJECTION_RULES_PATH = FileContent d) ->
  load from_json (env_of (identity_proxy_env name (rules_json_of to_text c spec) c.(tc_openbao))) read =
    Ok (Some (effective_injection_rules spec.(identity_injection_rules) c.(tc_resolved))).
Proof using text_read.
  intros Hm Hread. unfold load. change (env_of _ "ATELIER_IDENTITY_INJECTION_RULES_FILE"%string) with (Some INJECTION_RULES_PATH).
  assert (Hp : exists r, INJECTION_RULES_PATH = 47 :: r) by (by eexists). destruct Hp as [r Hp].
  rewrite Hp in Hread |- *. cbv iota.
  assert (Hd : maps' !! injection_rules_config_map name = Some {[INJECTION_RULES_KEY := rules_json_of to_text c spec]}).
  { revert Hm. unfold ensure_injection_rules_config_map, ensure_config_map. destruct api.1 as [code|]; [destruct ((code =? 409) && api.2)|];
      intros [= <-]; by rewrite lookup_insert_eq. }
  specialize (Hread (rules_json_of to_text c spec)). rewrite Hd in Hread. cbn [mbind option_bind] in Hread.
  rewrite lookup_singleton_eq in Hread. rewrite (Hread eq_refl).
  unfold parse, rules_json_of. destruct (text_read (effective_injection_rules (identity_injection_rules spec) (tc_resolved c))) as [Ht Hb].
  by rewrite Hb, Ht.
Qed.

End delivered.

(** A rule of the specification for the same name takes the place of the controller's: the
    guest's own credential is sent on, and the budget of the key binds nothing. *)
Lemma user_rule_shadows rules r host user :
  matching rules host = Some user -> matching (effective_injection_rules rules r) host = Some user.
Proof. intros H. unfold effective_injection_rules. by rewrite matching_app, H. Qed.

(** ** Upgrades *)

(** A new egress list, which net-proxy takes from its file without a restart, is in the
    variables of the template as well: the Workshop is said to need a restart. *)
Lemma egress_change_flagged to_text hash c spec l l' console ns name digest :
  Inj eq eq hash -> Forall entry_ok l -> Forall entry_ok l' -> l <> l' ->
  let with_egress l := mkSpec spec.(devcontainer) spec.(resources) l spec.(build_egress_allowlist) spec.(tools)
    spec.(identity_injection_rules) spec.(owner_group) spec.(owner_subject) spec.(desired_state) spec.(simulators)
    spec.(exported_services) spec.(allowed_internal_targets) spec.(campaign_id) spec.(guest_services) in
  upgrade_state_of hash (Some (pod_spec_template_hash hash (desired_template to_text c (with_egress l) console ns name digest)))
    (desired_template to_text c (with_egress l') console ns name digest) = Some NeedsRestartForUpgrade.
Proof.
  intros Hinj Hl Hl' Hne. cbn zeta. unfold upgrade_state_of. cbn [mbind option_bind]. rewrite bool_decide_false; [done|].
  unfold pod_spec_template_hash. intros Hh%Hinj. apply Hne. rewrite <- (csv_join l), <- (csv_join l') by done.
  apply (f_equal (fun t => (ct_env <$> t.(t_containers) !! 1%nat) ≫= (.!! 0%nat))) in Hh. cbn in Hh. by injection Hh as ->.
Qed.

(** ** A Workshop with its key *)

Fixpoint toy_bits (p : positive) : bytes := match p with xH => [49] | xO p => 48 :: toy_bits p | xI p => 50 :: toy_bits p end.
Fixpoint toy_unbits (s : bytes) : option positive :=
  match s with
  | [] => None
  | 49 :: _ => Some xH
  | 48 :: s => xO <$> toy_unbits s
  | 50 :: s => xI <$> toy_unbits s
  | _ => None
  end.
#[local] Instance rule_countable : Countable InjectionRule.
Proof.
  apply (inj_countable' (fun r => (r_host r, r_header r, r_prefix r, r_secret_path r, r_field r))
    (fun '(a, b, c, d, e) => mkRule a b c d e)). by intros [].
Defined.
Definition toy_text (rules : list InjectionRule) : bytes := toy_bits (encode rules).
Definition toy_parse (s : bytes) : option (list InjectionRule) := toy_unbits s ≫= decode.

Lemma toy_bits_ok p : toy_unbits (toy_bits p) = Some p /\ printable (toy_bits p) /\ toy_bits p <> [].
Proof.
  unfold printable. induction p as [p (IH1 & IH2 & _)|p (IH1 & IH2 & _)|]; cbn; rewrite ?IH1; split_and!; try done;
    repeat constructor; done || lia.
Qed.
Lemma toy_text_read rules : toy_parse (toy_text rules) = Some rules /\ is_empty (trim (toy_text rules)) = false.
Proof.
  unfold toy_text, toy_parse. destruct (toy_bits_ok (encode rules)) as (Hd & Hb & Hne). rewrite Hd. cbn [mbind option_bind].
  split; [apply decode_encode|]. rewrite printable_trim by done. by destruct (toy_bits (encode rules)).
Qed.

Definition toy_template_ctx : TemplateCtx :=
  mkTemplateCtx None 20480 None None (Some (B "http://openbao:8200")) (Some (B "llm.default.svc:4000"))
    (mkResolved None (Some (B "10.96.0.3"))) (fun _ => None) None.
Definition toy_bao : openbao :=
  mkBao (Some (B "t")) (fun _ p f => if beq p (B "llm_key") && beq f (B "value") then Some (B "sk-1") else None).

