(* ===== verification/Credentials.v ===== *)
(** From the credential a user enters to the requests of the agent: [put_credential] of
    [src/crates/api-server/src/routes.rs], the ConfigMap of the rules published by
    [src/crates/controller/src/reconcile.rs], the round in which
    [src/crates/identity-proxy/src/main.rs] takes the rules and the secrets, and the requests
    it forwards. *)

From S2P Require Import Prelude RustStr Json Internal Upstream EgressProxy IdentityHttp IdentityRules IdentityProxy Crd OpenBao Auth Routes.
From S2P Require Import PodSpec PodTemplate.

(** A rule that alone matches a host is the one that is taken. *)
Lemma matching_only rules rule host :
  rule ∈ rules -> host_matches (r_host rule) host = true ->
  (forall r, r ∈ rules -> r <> rule -> host_matches (r_host r) host = false) -> matching rules host = Some rule.
Proof.
  unfold matching. induction rules as [|r rules IH]; [by intros ?%elem_of_nil|].
  intros Hin Hm Hno. cbn [find_first]. destruct (decide (r = rule)) as [->|Hne]; [by rewrite Hm|].
  rewrite Hno by (done || by left). apply elem_of_cons in Hin as [->|Hin]; [done|].
  apply IH; [done..|]. intros r' Hr'. apply Hno. by right.
Qed.

Section delivered.
Context (to_text : list InjectionRule -> bytes) (from_json : bytes -> option (list InjectionRule)).
(** serde_json: the text of a list is read as the list, and is not blank. *)
Hypothesis text_read : forall rules, from_json (to_text rules) = Some rules /\ is_empty (trim (to_text rules)) = false.

(** The rules identity-proxy loads, in the pod of a specification, and what it knows after a
    round in which OpenBao answers. *)
Lemma delivered_round c spec name read maps api maps' bao token st rule :
  ensure_injection_rules_config_map maps api name (rules_json_of to_text c spec) = (maps', Ok tt) ->
  (forall d, (maps' !! injection_rules_config_map name) ≫= (.!! INJECTION_RULES_KEY) = Some d -> read INJECTION_RULES_PATH = FileContent d) ->
  bao_login bao = Some token -> Forall (fun r => 35 ∉ r_secret_path r) spec.(identity_injection_rules) ->
  rule ∈ spec.(identity_injection_rules) ->
  let loaded := load from_json (env_of (identity_proxy_env name (rules_json_of to_text c spec) c.(tc_openbao))) read in
  let st' := refresh_round loaded bao st in
  sh_rules st' = effective_injection_rules spec.(identity_injection_rules) c.(tc_resolved) /\
  sh_cache st' !! secret_cache_key rule = bao_read_field bao token (r_secret_path rule) (r_field rule).
Proof using text_read.
  intros Hcm Hread Hlogin H35 Hin loaded st'.
  set (rules := effective_injection_rules (identity_injection_rules spec) (tc_resolved c)).
  assert (Hl : loaded = Ok (Some rules)) by (by eapply rules_loaded).
  assert (Hrule : rule ∈ rules) by (unfold rules, effective_injection_rules; apply elem_of_app; by left).
  assert (Hall : Forall (fun r => 35 ∉ r_secret_path r) rules).
  { unfold rules, effective_injection_rules. rewrite !Forall_app. split_and!; [done|..].
    - destruct (git_forge (tc_resolved c)) as [[g a]|]; repeat constructor. by apply (bool_decide_unpack _).
    - destruct (llm_ip (tc_resolved c)); repeat constructor. by apply (bool_decide_unpack _). }
  assert (Hst : st' = mkShared rules (read_secrets bao token rules ∅)).
  { unfold st', refresh_round, refresh_once. rewrite refresh_rules_eq, Hl, Hlogin. by destruct rules; [apply elem_of_nil in Hrule|]. }
  rewrite Hst. cbn [sh_rules sh_cache]. split; [done|]. by apply refresh_lookup.
Qed.

(** The requests of a connection for a host whose rule has its secret. *)
Lemma injected_all_along net probes rules cache rule value conn h rest host port :
  read_request_head conn = Ok (Some (h, rest)) -> destination h = Ok (host, port) ->
  eq_ignore_ascii_case (method h) (B "CONNECT") = false -> (forall n, net n (EHostPort host port) <> None) ->
  matching rules host = Some rule -> cache !! secret_cache_key rule = Some value ->
  exists reqs, requests h rest reqs /\
    sent (IdentityProxy.handle_connection net probes (mkProxy rules (fun _ => cache)) conn).1 =
    concat ((fun rq => with_injected_header rq.1 (r_header rule) (r_prefix rule ++ value) ++ rq.2) <$> reqs).
Proof.
  intros Hr Hd Hc Hnet Hm Hv. unfold IdentityProxy.handle_connection. rewrite Hr, Hd, Hc.
  cbn [IdentityProxy.rules]. rewrite Hm.
  destruct (forward_injects_all net probes (mkProxy rules (fun _ => cache)) rest h (Some rule) host port Hnet)
    as [_ (reqs & Hreqs & ->)]. exists reqs. split; [done|]. f_equal.
  rewrite <- (imap_const (fun rq => with_injected_header rq.1 (r_header rule) (r_prefix rule ++ value) ++ rq.2)). apply imap_ext.
  intros i rq _. unfold request_bytes. cbn [secrets]. by rewrite Hv.
Qed.

End delivered.

(** A rule the Workshop already had for a wider name comes before the new one: the
    credential is accepted, and the requests of its host still carry the other. *)
Lemma credential_shadowed {K} `{!KubeApi K} {Srv} (tr : server Srv) `{!KvV2 tr} rf (k : K) s session user name req now k' s' session' sum w earlier host c :
  put_credential tr rf k s session user name req now = (k', s', session', AOk sum) ->
  kube_view k !! name = Some w -> earlier ∈ w.(w_spec).(identity_injection_rules) ->
  r_host earlier <> req.(pc_host) -> host_matches (r_host earlier) host = true ->
  exists w' r, kube_view k' !! name = Some w' /\ r_host r <> req.(pc_host) /\
    matching (effective_injection_rules w'.(w_spec).(identity_injection_rules) c.(tc_resolved)) host = Some r.
Proof.
  intros H Hw Hin Hne Hm. apply (put_credential_effect tr) in H as (path & w0 & _ & Hw0 & _ & _ & Hw' & _). simplify_eq.
  set (kept := base.filter _ _) in Hw'. assert (Hk : earlier ∈ kept) by (by apply list_elem_of_filter).
  destruct (matching kept host) as [r|] eqn:E.
  - eexists _, r. split_and!; [exact Hw'| |].
    + apply find_first_Some in E as (l1 & l2 & E & _). assert (Hr : r ∈ kept) by (rewrite E; set_solver).
      by apply list_elem_of_filter in Hr as [? _].
    + cbn [patched w_spec patch_spec identity_injection_rules]. unfold effective_injection_rules. by rewrite !matching_app, E.
  - unfold matching in E. rewrite find_first_None in E. rewrite (E earlier Hk) in Hm. done.
Qed.

(** ** A credential on its way *)

Definition stripe_request : bytes :=
  B "GET http://api.stripe.com/v1 HTTP/1.1" ++ crlf ++ B "Host: api.stripe.com" ++ crlf ++ B "Authorization: guest" ++ crlf ++ crlf.
Definition stripe_head : RequestHead :=
  mkHead (B "GET") (B "http://api.stripe.com/v1") (B "HTTP/1.1") [(B "Host", B "api.stripe.com"); (B "Authorization", B "guest")].
Definition toy_deposit := put_credential toy_server (fun _ => Some (B "jwt")) toy_cluster ∅ (Some toy_session) alice (B "demo") toy_put 0.
Definition stripe_rule : InjectionRule := mkRule (B "api.stripe.com") (B "Authorization") (B "Bearer ") (B "credentials/api.stripe.com") CREDENTIAL_FIELD.
Definition stripe_workshop : Workshop := patched (PatchInjectionRules [stripe_rule]) toy_workshop.

