(* ===== verification/Cli.v ===== *)
(** The command line client: contexts ([src/crates/cli/src/config.rs], [commands/context.rs]),
    tokens and the device flow ([tokens.rs], [oidc.rs], [commands/auth.rs]), the requests of
    [api.rs], and the tunnels ([tunnel.rs], [commands/tunnels.rs]).

    The system's keyring is a map, its clock and the provider's answers are inputs; the
    arithmetic of dates is chrono's, a parameter. *)

From S2P Require Import Prelude RustStr Json Internal PodSpec Crd Routes PortForward GuestBridge.

(** ** Contexts *)

Record ContextConfig := mkContext { api_url : bytes; issuer : bytes; client_id : bytes; scope : bytes }.
Definition default_scope : bytes := B "openid profile email".
Record Config := mkConfigFile { current : option bytes; contexts : gmap bytes ContextConfig }.

(** [fn current_context], then [fn add] and [fn use_context] of the commands. *)
Definition current_context (c : Config) : res (bytes * ContextConfig) :=
  name ← ok_or c.(current) "aucun contexte actif";
  ctx ← ok_or (c.(contexts) !! name) "contexte introuvable dans la configuration";
  Ok (name, ctx).
Definition add_context (c : Config) (name url iss client : bytes) (sc : option bytes) : Config :=
  let ctx := mkContext url iss client (default default_scope sc) in
  mkConfigFile (match c.(current) with None => Some name | Some n => Some n end) (<[name := ctx]> c.(contexts)).
Definition use_context (c : Config) (name : bytes) : res Config :=
  match c.(contexts) !! name with
  | Some _ => Ok (mkConfigFile (Some name) c.(contexts))
  | None => Err "contexte inconnu"
  end.

(** ** Tokens *)

Record TokenSet := mkTokens { access_token : bytes; refresh_token : option bytes; expires_at : Z; subject : option bytes }.
Definition is_expired (now : Z) (t : TokenSet) : bool := t.(expires_at) <=? now.
Abbreviation keyring := (gmap bytes TokenSet).

(** [struct TokenResponse], [struct DeviceAuthorizationResponse]. *)
Record TokenResponse := mkTokenResponse { tr_access_token : bytes; tr_refresh_token : option bytes; tr_expires_in : Z }.
Record DeviceAuthorization := mkDevice { device_code : bytes; user_code : bytes; expires_in_secs : Z; interval : Z }.
Definition default_interval : Z := 5.

(** An answer of the token endpoint: none, a token or an unreadable success, an error with
    its code, [None] when it cannot be read. *)
Inductive token_answer := NoAnswer | Token (t : TokenResponse) | BadToken | TokenError (code : option bytes).

Section dates.
(** [Utc::now() + Duration::seconds(_)], in milliseconds; [None] where chrono panics. *)
Context (plus_secs : Z -> Z -> option Z).
(** [fn extract_subject], the claims of a JWT being base64 and JSON. *)
Context (extract_subject : bytes -> option bytes).

Definition date (o : option Z) : res Z := match o with Some d => Ok d | None => Panic end.

(** The loop of [fn login]: each poll comes [interval] after the one before, and some
    delay; the requests made are counted. *)
Fixpoint login_loop (deadline interval now : Z) (polls : list (Z * token_answer)) : nat * option (res TokenSet) :=
  match polls with
  | [] => (0%nat, None)
  | (delay, answer) :: rest =>
      let now := now + interval + delay in
      if deadline <=? now then (0%nat, Some (Err "delai d'autorisation expire"))
      else
        match answer with
        | NoAnswer => (1%nat, Some (Err "requete de jeton"))
        | BadToken => (1%nat, Some (Err "reponse de jeton invalide"))
        | Token t =>
            (1%nat, Some (d ← date (plus_secs now t.(tr_expires_in));
                          Ok (mkTokens t.(tr_access_token) t.(tr_refresh_token) d (extract_subject t.(tr_access_token)))))
        | TokenError None => (1%nat, Some (Err "reponse d'erreur de jeton illisible"))
        | TokenError (Some code) =>
            if beq code (B "authorization_pending") then prod_map S id (login_loop deadline interval now rest)
            else if beq code (B "slow_down") then prod_map S id (login_loop deadline (interval + 5000) now rest)
            else (1%nat, Some (Err "erreur du fournisseur OIDC"))
        end
  end.
Definition i64_of_u64 (n : Z) : Z := if n <? 2 ^ 63 then n else n - 2 ^ 64.
(** [fn login], once the device has its code. *)
Definition login (d : DeviceAuthorization) (now : Z) (polls : list (Z * token_answer)) : nat * option (res TokenSet) :=
  match plus_secs now (i64_of_u64 d.(expires_in_secs)) with
  | None => (0%nat, Some Panic)
  | Some deadline => login_loop deadline (d.(interval) * 1000) now polls
  end.

(** [fn refresh]. *)
Definition refresh (now : Z) (old : bytes) (answer : token_answer) : res TokenSet :=
  match answer with
  | Token t =>
      d ← date (plus_secs now t.(tr_expires_in));
      Ok (mkTokens t.(tr_access_token) (match t.(tr_refresh_token) with Some r => Some r | None => Some old end) d
            (extract_subject t.(tr_access_token)))
  | NoAnswer | TokenError _ => Err "renouvellement"
  | BadToken => Err "reponse de jeton invalide"
  end.

(** [fn login], [fn logout] and [fn ensure_access_token_for] of the commands: [now] is the
    time of the test, [now'] that of the refresh. *)
Definition login_command (k : keyring) (name : bytes) (outcome : res TokenSet) : keyring * res unit :=
  match outcome with Ok t => (<[name := t]> k, Ok tt) | Err e => (k, Err e) | Panic => (k, Panic) end.
Definition logout (k : keyring) (name : bytes) : keyring := delete name k.
Definition ensure_access_token_for (k : keyring) (name : bytes) (now now' : Z) (answer : token_answer) : keyring * res bytes :=
  match k !! name with
  | None => (k, Err "non authentifie")
  | Some t =>
      if negb (is_expired now t) then (k, Ok t.(access_token))
      else match t.(refresh_token) with
           | None => (k, Err "jeton expire et aucun refresh_token disponible")
           | Some old =>
               match refresh now' old answer with
               | Ok t' => (<[name := t']> k, Ok t'.(access_token))
               | Err e => (k, Err e)
               | Panic => (k, Panic)
               end
           end
  end.
End dates.

(** ** Requests *)

(** [fn trim_end_matches('/')] and the URLs of [struct ApiClient]. *)
Definition base_url (url : bytes) : bytes := trim_end_matches (Z.eqb 47) url.
Definition client_url (url path : bytes) : bytes := base_url url ++ path.
(** The address of [fn connect] of [mcp_client.rs]. *)
Definition mcp_url (url : bytes) : bytes := base_url url ++ B "/v1/mcp".
Inductive http_method := GET | POST | DELETE.
Definition list_workshops_request (url : bytes) := (GET, client_url url (B "/v1/workshops"), None (A := json)).
Definition get_workshop_request (url name : bytes) := (GET, client_url url (B "/v1/workshops/" ++ name), None (A := json)).
Definition delete_workshop_request (url name : bytes) := (DELETE, client_url url (B "/v1/workshops/" ++ name), None (A := json)).
Definition action_request (url name action : bytes) := (POST, client_url url (B "/v1/workshops/" ++ name ++ B "/" ++ action), None (A := json)).
Definition create_body (name : bytes) (d : DevcontainerSource) (r : WorkshopResources) (egress tools : list bytes) (owner_group : option bytes) : json :=
  JObj ([(B "name", to_json name); (B "devcontainer", to_json d); (B "resources", to_json r); (B "egressAllowlist", to_json egress);
         (B "tools", to_json tools)] ++ skip_none (B "ownerGroup") to_json owner_group).
Definition create_workshop_request (url name : bytes) d r egress tools owner_group :=
  (POST, client_url url (B "/v1/workshops"), Some (create_body name d r egress tools owner_group)).
Definition approvals_request (url name : bytes) := (GET, client_url url (B "/v1/workshops/" ++ name ++ B "/approvals"), None (A := json)).
Definition decision_request (url id decision : bytes) (reason : option bytes) :=
  (POST, client_url url (B "/v1/approvals/" ++ id ++ B "/decision"),
   Some (JObj ([(B "decision", to_json decision)] ++ skip_none (B "reason") to_json reason))).
(** [fn check]: the body of a success. *)
Definition check (status : Z) (body : bytes) : res bytes := if (200 <=? status) && (status <? 300) then Ok body else Err "api-server".
(** The fields of [fn create] of the commands. *)
Definition create_fields (r : bytes) (rev_ path : option bytes) (c m : bytes) (d : option bytes) : DevcontainerSource * WorkshopResources :=
  (mkSource r (default (B "HEAD") rev_) (default (B ".devcontainer/devcontainer.json") path) true, mkResources c m d None).

(** ** Tunnels *)

(** [fn ws_url]. *)
Definition ws_url (url name : bytes) (remote_port : Z) : bytes :=
  let swapped := match strip_prefix (B "https://") url with
                 | Some rest => B "wss://" ++ rest
                 | None => match strip_prefix (B "http://") url with
                           | Some rest => B "ws://" ++ rest
                           | None => B "ws://" ++ url
                           end
                 end in
  base_url swapped ++ B "/v1/workshops/" ++ name ++ B "/portforward?ports=" ++ dec remote_port.

(** [fn relay_once], as the two sides are read: a read of the local side ([None] an error,
    empty its end), a message of the websocket ([None] an error or the end).  What is sent,
    what is written to the local side, and the errors shown. *)
Inductive relay_event := LocalRead (r : option bytes) | WsRecv (m : option ws_msg).
Section relay.
Context (send_ok : ws_msg -> bool) (write_ok : bytes -> bool).
Fixpoint relay_once (events : list relay_event) : list ws_msg * bytes * list bytes :=
  match events with
  | [] => ([], [], [])
  | LocalRead (Some ((_ :: _) as chunk)) :: rest =>
      if send_ok (WBinary (0 :: chunk))
      then let '(sent, written, errors) := relay_once rest in (WBinary (0 :: chunk) :: sent, written, errors)
      else ([WClose None], [], [])
  | LocalRead _ :: _ => ([WClose None], [], [])
  | WsRecv (Some (WBinary (channel :: data))) :: rest =>
      if channel =? 0 then
        if write_ok data then let '(sent, written, errors) := relay_once rest in (sent, data ++ written, errors) else ([], [], [])
      else if channel =? 1 then let '(sent, written, errors) := relay_once rest in (sent, written, data :: errors)
      else relay_once rest
  | WsRecv (Some (WClose _)) :: _ | WsRecv None :: _ => ([], [], [])
  | WsRecv (Some _) :: rest => relay_once rest
  end.
End relay.

(** [fn port_forward]: the port in [--stdio], the address and the port otherwise. *)
Definition stdio_port (mapping : bytes) : res Z := ok_or (parse_u16 mapping) "port distant invalide".
Definition listen_mapping (mapping : bytes) : res (bytes * Z) :=
  '(local, remote) ← ok_or (split_once 58 mapping) "mapping attendu 'local:remote'";
  remote_port ← ok_or (parse_u16 remote) "port distant invalide";
  Ok (if contains local [58] then local else B "127.0.0.1:" ++ local, remote_port).

(** The [ProxyCommand] of [fn ssh] and [fn code], and the directory [fn code] opens. *)
Definition proxy_command (self_exe name : bytes) : bytes := self_exe ++ B " port-forward --stdio " ++ name ++ B " 22".
Definition host_alias_of (name : bytes) : bytes := B "atelier-" ++ name.
Definition code_directory : bytes := B "/workspace".

(** [fn write_ssh_config_entry]; [existing] is the file, [None] when it cannot be read. *)
Definition marker_start (host_alias : bytes) : bytes := B "# atelier:" ++ host_alias ++ B ":start".
Definition marker_end (host_alias : bytes) : bytes := B "# atelier:" ++ host_alias ++ B ":end".
Definition ssh_block (host_alias user command : bytes) : bytes :=
  marker_start host_alias ++ [10] ++ B "Host " ++ host_alias ++ [10] ++ B "    User " ++ user ++ [10] ++
  B "    ProxyCommand " ++ command ++ [10] ++ marker_end host_alias ++ [10].
Fixpoint outside_block (start_ end_ : bytes) (skipping : bool) (ls : list bytes) : list bytes :=
  match ls with
  | [] => []
  | l :: rest =>
      if beq l start_ then outside_block start_ end_ true rest
      else if beq l end_ then outside_block start_ end_ false rest
      else if skipping then outside_block start_ end_ skipping rest
      else l :: outside_block start_ end_ skipping rest
  end.
Definition write_ssh_config_entry (host_alias user command : bytes) (existing : option bytes) : bytes :=
  let kept := join [10] (outside_block (marker_start host_alias) (marker_end host_alias) false (lines (default [] existing))) in
  (if is_empty kept || ends_with kept [10] then kept else kept ++ [10]) ++ ssh_block host_alias user command.

(** ** The request is the one the server reads *)

(** [Deserialize] of api-server's [CreateWorkshopRequest]. *)
Definition create_of (j : json) : option CreateWorkshopRequest :=
  o ← fields j; n ← field of_json "name" o; d ← field of_json "devcontainer" o; r ← field of_json "resources" o;
  e ← field_or of_json [] "egressAllowlist" o; b ← field_opt of_json "buildEgressAllowlist" o; t ← field_or of_json [] "tools" o;
  i ← field_or of_json [] "identityInjectionRules" o; g ← field_opt of_json "ownerGroup" o; s ← field_or of_json [] "simulators" o;
  x ← field_or of_json [] "exportedServices" o; a ← field_or of_json [] "allowedInternalTargets" o;
  c ← field_opt of_json "campaignId" o; v ← field_or of_json default_services "guestServices" o;
  Some (mkCreate n d r e b t i g s x a c v).

Lemma create_read name r rev_ path c m d egress tools owner :
  let '(source, res) := create_fields r rev_ path c m d in
  create_of (create_body name source res egress tools owner) =
    Some (mkCreate name source res egress None tools [] owner [] [] [] None default_services).
Proof.
  unfold create_fields, create_of, create_body. cbn [fields mbind option_bind]. set (o := _ ++ skip_none _ _ _).
  rewrite (field_ok (fun _ => True) "name" o name) by (by vm_compute || done). cbn [mbind option_bind].
  rewrite (field_ok (fun _ => True) "devcontainer" o (mkSource r (default (B "HEAD") rev_) (default (B ".devcontainer/devcontainer.json") path) true)) by (reflexivity || done).
  cbn [mbind option_bind].
  rewrite (field_ok budget_ok "resources" o (mkResources c m d None)) by (reflexivity || done). cbn [mbind option_bind].
  rewrite (field_or_ok (Forall (fun _ => True)) "egressAllowlist" o egress) by (reflexivity || apply all_true). cbn [mbind option_bind].
  rewrite (field_or_ok (Forall (fun _ => True)) "tools" o tools) by (reflexivity || apply all_true).
  subst o. unfold field_opt, field_or. by destruct owner.
Qed.

(** ** Contexts and tokens *)

(** The context in use is one that exists. *)
Definition config_ok (c : Config) : Prop := forall n, c.(current) = Some n -> is_Some (c.(contexts) !! n).

Lemma config_kept c : config_ok c ->
  (forall name url iss client sc, config_ok (add_context c name url iss client sc) /\
     exists x, current_context (add_context c name url iss client sc) = Ok x) /\
  (forall name c', use_context c name = Ok c' -> config_ok c' /\ exists ctx, current_context c' = Ok (name, ctx)).
Proof.
  unfold config_ok. intros Hc. split.
  - intros name url iss client sc.
    assert (Hok : config_ok (add_context c name url iss client sc)).
    { intros n. cbn [current contexts add_context]. destruct (current c) as [m|] eqn:E; intros [= <-]; rewrite lookup_insert; case_decide; eauto; by apply Hc. }
    split; [done|]. unfold current_context. destruct (current (add_context c name url iss client sc)) as [n|] eqn:E.
    + destruct (Hok n E) as [ctx Hctx]. cbn [ok_or mbind res_bind]. rewrite Hctx. eauto.
    + cbn in E. by destruct (current c).
  - intros name c'. unfold use_context. destruct (contexts c !! name) as [ctx|] eqn:E; [|done]. intros [= <-]. split.
    + intros n [= <-]. cbn. eauto.
    + unfold current_context. cbn. rewrite E. by eexists.
Qed.

Section tokens.
Context (plus_secs : Z -> Z -> option Z) (extract_subject : bytes -> option bytes).
Hypothesis plus_secs_ok : forall n s d, plus_secs n s = Some d -> d = n + 1000 * s.

(** The loop asks while there is time for it: [k] requests take [k] intervals. *)
Lemma login_loop_requests deadline iv now polls :
  0 <= iv -> Forall (fun p => 0 <= p.1) polls ->
  let k := (login_loop plus_secs extract_subject deadline iv now polls).1 in
  k = 0%nat \/ now + iv * Z.of_nat k < deadline.
Proof using Type.
  revert iv now. induction polls as [|[delay answer] polls IH]; intros iv now Hiv Hp; [by left|].
  apply Forall_cons in Hp as [Hd Hp]. cbn [fst] in Hd. cbn [login_loop].
  destruct (Z.leb_spec deadline (now + iv + delay)) as [|Hlt]; [by left|]. right.
  assert (Hone : now + iv * Z.of_nat 1 < deadline) by lia.
  assert (Hmore : forall iv', iv <= iv' ->
    now + iv * Z.of_nat (prod_map S id (login_loop plus_secs extract_subject deadline iv' (now + iv + delay) polls)).1 < deadline).
  { intros iv' Hiv'. pose proof (IH iv' (now + iv + delay) ltac:(lia) Hp) as H. cbn zeta in H.
    destruct (login_loop _ _ deadline iv' _ polls) as [n o]. cbn [prod_map fst] in *. destruct H as [->|H]; [lia|]. nia. }
  destruct answer as [|t| |[code|]]; [done..| |done].
  destruct (beq code (B "authorization_pending")); [apply Hmore; lia|]. destruct (beq code (B "slow_down")); [apply Hmore; lia|done].
Qed.

(** The loop ends, once the provider decides or the time is over. *)
Lemma login_loop_ends deadline iv now polls :
  0 < iv -> Forall (fun p => 0 <= p.1) polls -> deadline <= now + iv * Z.of_nat (length polls) -> polls <> [] ->
  is_Some (login_loop plus_secs extract_subject deadline iv now polls).2.
Proof using Type.
  revert iv now. induction polls as [|[delay answer] polls IH]; intros iv now Hiv Hp Hlen Hne; [done|].
  apply Forall_cons in Hp as [Hd Hp]. cbn [fst] in Hd. cbn [login_loop length] in *.
  destruct (Z.leb_spec deadline (now + iv + delay)) as [|Hlt]; [by eexists|].
  assert (Hmore : forall iv', iv <= iv' -> is_Some (prod_map S (@id (option (res TokenSet)))
    (login_loop plus_secs extract_subject deadline iv' (now + iv + delay) polls)).2).
  { intros iv' Hiv'. destruct (decide (polls = [])) as [->|Hn]; [cbn in Hlen; lia|].
    pose proof (IH iv' (now + iv + delay) ltac:(lia) Hp ltac:(nia) Hn) as H.
    destruct (login_loop _ _ deadline iv' _ polls). exact H. }
  destruct answer as [|t| |[code|]]; [by eexists..| |by eexists].
  destruct (beq code (B "authorization_pending")); [apply Hmore; lia|]. destruct (beq code (B "slow_down")); [apply Hmore; lia|by eexists].
Qed.

(** Logging in ends.  Whatever the provider answers and however late, a login makes no
    more requests than there are intervals in the life of its code, and has an outcome once
    that life is over: a token that lasts as long as the provider said from the instant it
    was received, or an error. *)
Theorem login_bounded d now polls :
  0 < d.(interval) -> 0 <= d.(expires_in_secs) < 2 ^ 63 -> Forall (fun p => 0 <= p.1) polls ->
  is_Some (plus_secs now d.(expires_in_secs)) ->
  let '(requests, outcome) := login plus_secs extract_subject d now polls in
  d.(interval) * Z.of_nat requests <= d.(expires_in_secs) /\
  (d.(expires_in_secs) <= d.(interval) * Z.of_nat (length polls) -> polls <> [] -> is_Some outcome).
Proof using plus_secs_ok.
  intros Hi He Hp [deadline Hd]. unfold login, i64_of_u64. rewrite (proj2 (Z.ltb_lt _ _)) by lia. rewrite Hd.
  apply plus_secs_ok in Hd.
  pose proof (login_loop_requests deadline (interval d * 1000) now polls ltac:(lia) Hp) as Hr. cbn zeta in Hr.
  pose proof (login_loop_ends deadline (interval d * 1000) now polls ltac:(lia) Hp) as Hend.
  destruct (login_loop _ _ deadline _ now polls) as [k o]. cbn [fst snd] in *. split.
  - destruct Hr as [->|Hr]; nia.
  - intros Hl Hne. apply Hend; [nia|done].
Qed.

(** A token that is handed out is one that has not expired, or a new one; the keyring then
    holds it, and can always be refreshed again. *)
Lemma ensure_token_ok k name now now' answer k' tok :
  ensure_access_token_for plus_secs extract_subject k name now now' answer = (k', Ok tok) ->
  exists t, k' !! name = Some t /\ t.(access_token) = tok /\
    (k' = k /\ now < t.(expires_at) \/
     (exists r, answer = Token r /\ t.(expires_at) = now' + 1000 * r.(tr_expires_in)) /\ is_Some t.(refresh_token)) /\
    (forall n, n <> name -> k' !! n = k !! n).
Proof using plus_secs_ok.
  unfold ensure_access_token_for, is_expired. destruct (k !! name) as [t|] eqn:E; [|done].
  destruct (Z.leb_spec (expires_at t) now) as [Hx|Hx]; cbn [negb].
  - destruct (refresh_token t) as [old|]; [|done]. destruct answer as [|r| |]; [done| |done|done]. cbn [refresh].
    destruct (plus_secs now' (tr_expires_in r)) as [d|] eqn:Ed; cbn [date mbind res_bind]; [|done]. intros [= <- <-].
    eexists. split; [by rewrite lookup_insert_eq|]. cbn [access_token expires_at refresh_token]. split_and!; [done| |].
    + right. split; [exists r; split; [done|by apply plus_secs_ok]|]. by destruct (tr_refresh_token r).
    + intros n Hn. by rewrite lookup_insert_ne.
  - intros [= <- <-]. exists t. split_and!; [done..| |done]. left. split; [done|lia].
Qed.
End tokens.

Lemma login_bounded_witness :
  let '(requests, outcome) := login (fun n s => Some (n + 1000 * s)) (fun _ => None) (mkDevice (B "d") (B "u") 15 5) 0
    [(0, TokenError (Some (B "authorization_pending"))); (10, TokenError (Some (B "slow_down"))); (0, NoAnswer)] in
  5 * Z.of_nat requests <= 15 /\ (15 <= 5 * 3 -> [(0, NoAnswer)] <> [] -> is_Some outcome).
Proof.
  pose proof (login_bounded (fun n s => Some (n + 1000 * s)) (fun _ => None) ltac:(intros n s d [= <-]; reflexivity)
    (mkDevice (B "d") (B "u") 15 5) 0
    [(0, TokenError (Some (B "authorization_pending"))); (10, TokenError (Some (B "slow_down"))); (0, NoAnswer)]
    ltac:(reflexivity) ltac:(vm_compute; split; [discriminate|reflexivity])
    ltac:(repeat (constructor; [vm_compute; discriminate|]); constructor) ltac:(by eexists)) as H.
  destruct (login _ _ _ _ _) as [requests outcome]. destruct H as [H1 H2]. split; [exact H1|].
  intros Hl _. apply H2; [exact Hl|discriminate].
Defined.

(** ** A tunnel is a connection *)

(** A message as net-proxy takes it. *)
Definition as_message (m : ts_msg) : message := match m with TsMsg (WBinary d) => Binary d | _ => Other end.
Definition is_close (m : ws_msg) : bool := match m with WClose _ => true | _ => false end.
Definition local_chunk (e : relay_event) : bytes := match e with LocalRead (Some c) => c | _ => [] end.
Definition remote_data (e : relay_event) : bytes :=
  match e with WsRecv (Some (WBinary (c :: d))) => if c =? 0 then d else [] | _ => [] end.
Definition remote_error (e : relay_event) : list bytes :=
  match e with WsRecv (Some (WBinary (c :: d))) => if c =? 1 then [d] else [] | _ => [] end.
(** Nothing ends. *)
Definition open_event (e : relay_event) : Prop :=
  match e with LocalRead (Some c) => c <> [] | LocalRead None => False | WsRecv (Some m) => is_close m = false | WsRecv None => False end.

Lemma relay_once_open events tail :
  Forall open_event events -> tail = [] \/ (exists r rest, tail = LocalRead r :: rest /\ (r = None \/ r = Some [])) ->
  relay_once (fun _ => true) (fun _ => true) (events ++ tail) =
    (((fun c => WBinary (0 :: c)) <$> base.filter (fun c => c <> []) (local_chunk <$> events)) ++
       match tail with [] => [] | _ => [WClose None] end,
     events ≫= remote_data, events ≫= remote_error).
Proof.
  intros He Ht. induction He as [|e events He _ IH].
  { destruct Ht as [->|(r & rest & -> & [-> | ->])]; done. }
  rewrite !bind_cons, fmap_cons, filter_cons. cbn [app].
  destruct e as [[[|b c]|]|[[t|[|c d]|p|p|f]|]]; cbn [open_event is_close] in He; try done; cbn [relay_once local_chunk remote_data remote_error app].
  - rewrite IH, decide_True by done. by rewrite fmap_cons.
  - rewrite IH. rewrite decide_False by naive_solver. destruct (Z.eqb_spec c 0) as [->|]; [done|]. by destruct (c =? 1).
Qed.

(** One direction of api-server's relay, over messages none of which closes. *)
Lemma relay_direction_open msgs :
  Forall (fun m => is_close m = false) msgs ->
  relay_direction to_tungstenite is_close (fun _ => true) (Some <$> (msgs ++ [WClose None])) = (TsMsg <$> msgs) ++ [TsMsg (WClose None)].
Proof. induction 1 as [|m msgs Hm _ IH]; [done|]. cbn. by rewrite Hm, IH. Qed.

(** C40: A forwarded port is the port.  The query the client sends is read by net-proxy as
    that TCP port and no other; over connections on which nothing fails and that the program
    closes first, what it writes to the tunnel, in whatever pieces it was read, reaches the
    port of the guest through api-server, complete and in order; and what it reads is what
    came on the data channel, interleaved in any way, errors of the other end apart. *)
Theorem tunnel_exact n events :
  0 <= n <= U16_MAX -> Forall open_event events ->
  let '(sent, written, errors) := relay_once (fun _ => true) (fun _ => true) (events ++ [LocalRead (Some [])]) in
  parse_ports_query (dec n) = Ok [mkPort Tcp n] /\
  (run_session (fun _ => None) (fun _ _ => true) [mkPort Tcp n]
     (as_message <$> relay_direction to_tungstenite is_close (fun _ => true) (Some <$> sent))).1 = [SinkTcp (concat (local_chunk <$> events))] /\
  written = events ≫= remote_data /\ errors = events ≫= remote_error.
Proof.
  intros Hn He. rewrite relay_once_open by (eauto 10). split_and!; [|clear Hn|done..].
  - unfold parse_ports_query. assert (Hd : forall b, b ∈ dec n -> 48 <= b <= 57) by (intros b; apply dec_digits_all; lia).
    assert (Hcsv : csv (dec n) = [dec n]).
    { apply (csv_join [dec n]). constructor; [|constructor]. split_and!.
      - apply Forall_forall. intros b Hb%Hd. lia.
      - intros Hb%Hd. lia.
      - by apply dec_digits_nonempty, Nat.lt_0_succ. }
    rewrite Hcsv. cbn [collect]. unfold parse_one.
    rewrite (proj2 (split_once_None 58 (dec n))) by (intros Hb%Hd; lia). cbn [mbind res_bind].
    unfold parse_u16. rewrite parse_dec by (unfold U16_MAX, U64_MAX in *; lia). done.
  - rewrite relay_direction_open by (apply Forall_fmap, Forall_true; done).
    rewrite fmap_app, <- !list_fmap_compose. unfold compose. cbn [as_message fmap list_fmap].
    set (chunks := base.filter _ _). pose proof (one_port_session n chunks) as H. unfold run_session in *.
    cbn [open_ports open_port protocol fst] in *. rewrite fold_left_app. cbn [fold_left client_message].
    rewrite H. subst chunks. by rewrite concat_nonempty.
Qed.

Lemma tunnel_exact_witness :
  let '(sent, written, errors) := relay_once (fun _ => true) (fun _ => true)
    ([LocalRead (Some (B "SSH-")); WsRecv (Some (WBinary (0 :: B "banner"))); LocalRead (Some (B "2.0"))] ++ [LocalRead (Some [])]) in
  (run_session (fun _ => None) (fun _ _ => true) [mkPort Tcp 61022]
     (as_message <$> relay_direction to_tungstenite is_close (fun _ => true) (Some <$> sent))).1 = [SinkTcp (B "SSH-2.0")].
Proof.
  pose proof (tunnel_exact 61022 [LocalRead (Some (B "SSH-")); WsRecv (Some (WBinary (0 :: B "banner"))); LocalRead (Some (B "2.0"))]
    ltac:(vm_compute; split; discriminate) ltac:(repeat constructor; discriminate)) as H.
  destruct (relay_once _ _ _) as [[sent written] errors]. destruct H as (_ & H & _). exact H.
Defined.

(** The form [address:port:remote], which the code provides for, is never one it accepts. *)
Lemma listen_address_dead mapping local port : listen_mapping mapping = Ok (local, port) -> exists p, local = B "127.0.0.1:" ++ p /\ 58 ∉ p.
Proof.
  unfold listen_mapping. destruct (split_once 58 mapping) as [[l r]|] eqn:E; cbn [ok_or mbind res_bind]; [|done].
  destruct (parse_u16 r); cbn [ok_or mbind res_bind]; [|done]. apply split_once_Some in E as [-> Hl].
  assert (Hc : contains l [58] = false).
  { clear -Hl. induction l as [|b l IH]; [done|]. cbn [contains]. rewrite IH by set_solver. rewrite orb_false_r.
    destruct (starts_with (b :: l) [58]) eqn:E; [|done]. apply starts_with_true in E as [r [= ->]]. set_solver. }
  rewrite Hc. intros [= <- <-]. by exists l.
Qed.

(** The port of [atelier ssh] is none of those sshd listens on in a guest. *)
Lemma ssh_port_not_served s : 22 <> gp_ssh (reserved s) /\ 22 <> gp_ssh LEGACY.
Proof. done. Qed.

(** ** The file of the SSH client *)

Definition unlines (ls : list bytes) : bytes := ls ≫= (fun l => l ++ [10]).
(** A line of a file without carriage returns. *)
Definition plain_line (l : bytes) : Prop := (10 ∉ l) /\ (13 ∉ l).
Definition block_lines (host_alias user command : bytes) : list bytes :=
  [marker_start host_alias; B "Host " ++ host_alias; B "    User " ++ user; B "    ProxyCommand " ++ command; marker_end host_alias].
(** The last of the lines, when it is blank, goes. *)
Definition drop_blank (ls : list bytes) : list bytes := if bool_decide (last ls = Some []) then take (pred (length ls)) ls else ls.

Lemma strip_cr_plain l : plain_line l -> strip_cr l = l.
Proof.
  intros [_ H]. destruct l as [|b l _] using rev_ind; [done|]. rewrite strip_cr_snoc.
  destruct (Z.eqb_spec b 13) as [->|]; [set_solver|done].
Qed.
Lemma lines_unlines ls : Forall plain_line ls -> lines (unlines ls) = ls.
Proof.
  induction 1 as [|l ls Hl _ IH]; [done|]. unfold unlines in *. rewrite bind_cons, <- app_assoc. cbn [app].
  rewrite lines_newline, IH. assert (Hs : split 10 l = [l]) by (apply split_by_none; intros b Hb; apply Z.eqb_neq; intros Heq; destruct Hl as [Hl _]; by subst). rewrite Hs. cbn. by rewrite strip_cr_plain.
Qed.
Lemma block_unlines h u c : ssh_block h u c = unlines (block_lines h u c).
Proof. unfold ssh_block, unlines, block_lines. cbn [mbind list_bind]. by rewrite <- ?app_assoc, ?app_nil_r. Qed.

Lemma unlines_app a b : unlines (a ++ b) = unlines a ++ unlines b.
Proof. apply bind_app. Qed.
Lemma unlines_join ls : ls <> [] -> unlines ls = join [10] ls ++ [10].
Proof.
  induction ls as [|x [|y ls] IH]; intros H; [done|by unfold unlines; cbn; rewrite app_nil_r|].
  unfold unlines in *. rewrite bind_cons, IH by done. cbn [join]. by rewrite <- !app_assoc.
Qed.

(** What is written back of the lines that are kept. *)
Lemma kept_unlines ls : Forall plain_line ls ->
  (let kept := join [10] ls in if is_empty kept || ends_with kept [10] then kept else kept ++ [10]) = unlines (drop_blank ls).
Proof.
  intros Hp. cbn zeta. destruct ls as [|x ls _] using rev_ind; [done|]. apply Forall_app in Hp as [_ [Hx _]%Forall_cons].
  unfold drop_blank. rewrite last_snoc, length_app. cbn [length]. rewrite Nat.add_1_r. cbn [pred].
  destruct (decide (x = [])) as [->|Hne].
  - rewrite bool_decide_true by done. rewrite take_app_length.
    destruct (decide (ls = [])) as [->|Hn]; [done|]. pose proof (unlines_join (ls ++ [[]]) ltac:(by destruct ls)) as E.
    rewrite unlines_app, app_nil_r in E || rewrite unlines_app in E. cbn in E. apply (inj (.++ [10])) in E.
    rewrite <- E, (proj2 (ends_with_true _ _)), orb_true_r; [done|]. rewrite unlines_join by done. by eexists.
  - rewrite bool_decide_false by congruence. pose proof (unlines_join (ls ++ [x]) ltac:(by destruct ls)) as E.
    assert (Hk : join [10] (ls ++ [x]) = unlines ls ++ x).
    { apply (inj (.++ [10])). rewrite <- E, unlines_app. unfold unlines at 2. cbn. by rewrite app_nil_r, app_assoc. }
    assert (He : is_empty (join [10] (ls ++ [x])) || ends_with (join [10] (ls ++ [x])) [10] = false).
    { rewrite Hk. apply orb_false_iff. split; [destruct x; [done|by destruct (unlines ls)]|].
      destruct (ends_with (unlines ls ++ x) [10]) eqn:Ee; [|done]. apply ends_with_true in Ee as [a Ha].
      destruct x as [|b x _] using rev_ind; [done|]. rewrite app_assoc in Ha. apply app_inj_2 in Ha as [_ [= ->]]; [|done].
      destruct Hx as [Hx _]. set_solver. }
    by rewrite He, <- E.
Qed.

Lemma outside_app s e ls rest : Forall (fun l => l <> s /\ l <> e) ls -> outside_block s e false (ls ++ rest) = ls ++ outside_block s e false rest.
Proof.
  induction 1 as [|l ls [Hs He] _ IH]; [done|]. cbn [app outside_block]. unfold beq. rewrite !bool_decide_false by done. by rewrite IH.
Qed.
Lemma outside_clean s e ls : Forall (fun l => l <> s /\ l <> e) ls -> outside_block s e false ls = ls.
Proof. intros H. rewrite <- (app_nil_r ls) at 1. rewrite outside_app by done. by rewrite app_nil_r. Qed.
Lemma outside_skipped s e b X rest : Forall (fun l => l <> s /\ l <> e) X -> s <> e ->
  outside_block s e b (s :: X ++ e :: rest) = outside_block s e false rest.
Proof.
  intros HX Hse. cbn [outside_block]. unfold beq at 1. rewrite bool_decide_true by done.
  induction HX as [|l X [Hs He] _ IH]; cbn [app outside_block]; unfold beq in *.
  - by rewrite bool_decide_false, bool_decide_true.
  - by rewrite !bool_decide_false.
Qed.

Lemma markers_differ h : marker_start h <> marker_end h.
Proof. unfold marker_start, marker_end. intros E. do 2 apply app_inv_head in E. by vm_compute in E. Qed.
Lemma block_outside h u c rest :
  outside_block (marker_start h) (marker_end h) false (block_lines h u c ++ rest) = outside_block (marker_start h) (marker_end h) false rest.
Proof.
  unfold block_lines. cbn [app]. apply (outside_skipped _ _ _ [_; _; _]); [|apply markers_differ].
  by repeat constructor.
Qed.
Lemma outside_none s e b ls : Forall (fun l => l <> s /\ l <> e) (outside_block s e b ls).
Proof.
  revert b. induction ls as [|l ls IH]; intros b; [constructor|]. cbn [outside_block]. unfold beq. do 2 (case_bool_decide; [done|]).
  destruct b; [done|]. by constructor.
Qed.
Lemma outside_in s e b ls l : l ∈ outside_block s e b ls -> l ∈ ls.
Proof.
  revert b. induction ls as [|x ls IH]; intros b; [done|]. cbn [outside_block]. unfold beq. repeat case_bool_decide; [set_solver..|].
  destruct b; set_solver.
Qed.
Lemma drop_blank_Forall P ls : Forall P ls -> Forall P (drop_blank ls).
Proof. intros H. unfold drop_blank. case_bool_decide; [by apply Forall_take|done]. Qed.

Lemma join_elem sep ls x (b : Z) : x ∈ ls -> b ∈ x -> b ∈ join sep ls.
Proof.
  induction ls as [|y [|z ls] IH]; intros Hx Hb; [set_solver| |].
  - apply list_elem_of_singleton in Hx as ->. done.
  - cbn [join] in *. apply elem_of_cons in Hx as [->|Hx]; [set_solver|]. do 2 (apply elem_of_app; right). by apply IH.
Qed.
Lemma lines_elem s l b : l ∈ lines s -> b ∈ l -> b ∈ s.
Proof.
  intros Hl Hb. apply lines_of_pieces in Hl as (x & Hx & Hl). rewrite <- (join_split 10 s). eapply join_elem; [exact Hx|].
  destruct Hl as [-> | ->]; [done|]. revert Hb. destruct x as [|c x _] using rev_ind; [done|]. rewrite strip_cr_snoc.
  destruct (c =? 13); set_solver.
Qed.
Lemma outside_plain s e b existing : 13 ∉ existing -> Forall plain_line (outside_block s e b (lines existing)).
Proof.
  intros H13. apply Forall_forall. intros l Hl%outside_in. split; [by eapply lines_no_newline|]. intros Hc. by apply H13, (lines_elem _ l).
Qed.

Lemma write_lines h u c existing : 13 ∉ existing -> Forall plain_line (block_lines h u c) ->
  let kept := drop_blank (outside_block (marker_start h) (marker_end h) false (lines existing)) in
  write_ssh_config_entry h u c (Some existing) = unlines (kept ++ block_lines h u c) /\
  lines (write_ssh_config_entry h u c (Some existing)) = kept ++ block_lines h u c.
Proof.
  intros H13 Hb kept. set (L := outside_block _ _ _ _) in kept.
  assert (HL : Forall plain_line L) by (by apply outside_plain).
  assert (E : write_ssh_config_entry h u c (Some existing) = unlines (kept ++ block_lines h u c)).
  { unfold write_ssh_config_entry. cbn [from_option id]. fold L. rewrite unlines_app, <- block_unlines. f_equal. by apply kept_unlines. }
  split; [done|]. rewrite E. apply lines_unlines, Forall_app. split; [by apply drop_blank_Forall|done].
Qed.

(** The file of the SSH client is the user's.  [atelier code] ends it with one entry for
    the Workshop and leaves every other line as it was and in its order, a blank last one
    apart, whether the entry was there before or not; and a second run replaces the entry:
    the file is the one the first run would have written, had it been asked the same. *)
Theorem ssh_config_exact h u c u' c' existing A X C :
  let s := marker_start h in let e := marker_end h in
  13 ∉ existing -> Forall plain_line (block_lines h u c) -> Forall plain_line (block_lines h u' c') ->
  Forall (fun l => l <> s /\ l <> e) A -> Forall (fun l => l <> s /\ l <> e) X -> Forall (fun l => l <> s /\ l <> e) C ->
  lines existing = A ++ C \/ lines existing = A ++ s :: X ++ e :: C ->
  lines (write_ssh_config_entry h u c (Some existing)) = drop_blank (A ++ C) ++ block_lines h u c /\
  (last (A ++ C) <> Some [] ->
   write_ssh_config_entry h u' c' (Some (write_ssh_config_entry h u c (Some existing))) = write_ssh_config_entry h u' c' (Some existing)).
Proof.
  intros s e H13 Hb Hb' HA HX HC Hl.
  assert (Ho : outside_block s e false (lines existing) = A ++ C).
  { destruct Hl as [-> | ->]; rewrite outside_app by done; [by rewrite outside_clean|].
    rewrite outside_skipped by (done || apply markers_differ). by rewrite outside_clean. }
  destruct (write_lines h u c existing H13 Hb) as [E El]. fold s e in E, El. rewrite Ho in E, El. split; [done|]. intros Hlast.
  assert (Hd : drop_blank (A ++ C) = A ++ C) by (unfold drop_blank; by rewrite bool_decide_false).
  rewrite Hd in E, El.
  assert (H13' : 13 ∉ write_ssh_config_entry h u c (Some existing)).
  { rewrite E. intros (l & Hl' & Hin)%list_elem_of_bind. apply elem_of_app in Hl' as [Hl'|Hl']; [|set_solver].
    assert (Hp : Forall plain_line ((A ++ C) ++ block_lines h u c)).
    { apply Forall_app. split; [|done]. rewrite <- Ho. by apply outside_plain. }
    rewrite Forall_forall in Hp. by apply (Hp l Hin). }
  destruct (write_lines h u' c' _ H13' Hb') as [E2 _]. fold s e in E2. rewrite E2, El.
  destruct (write_lines h u' c' existing H13 Hb') as [E3 _]. fold s e in E3. rewrite E3, Ho.
  assert (Hno : outside_block s e false ((A ++ C) ++ block_lines h u c) = A ++ C).
  { rewrite outside_app by (by apply Forall_app). rewrite <- (app_nil_r (block_lines h u c)). subst s e. rewrite block_outside. apply app_nil_r. }
  by rewrite Hno.
Qed.

Lemma ssh_config_exact_witness :
  let file := B "Host x" ++ [10] ++ ssh_block (B "atelier-w") (B "old") (B "cmd") ++ B "Host y" ++ [10] in
  lines (write_ssh_config_entry (B "atelier-w") (B "root") (B "atelier port-forward --stdio w 22") (Some file)) =
    [B "Host x"; B "Host y"] ++ block_lines (B "atelier-w") (B "root") (B "atelier port-forward --stdio w 22").
Proof.
  intros file.
  refine (proj1 (ssh_config_exact (B "atelier-w") (B "root") (B "atelier port-forward --stdio w 22") (B "r") (B "c") file
    [B "Host x"] [B "Host atelier-w"; B "    User old"; B "    ProxyCommand cmd"] [B "Host y"] _ _ _ _ _ _ _)).
  1: apply (bool_decide_unpack _); vm_compute; exact I.
  1, 2: unfold plain_line; apply (bool_decide_unpack _); vm_compute; exact I.
  1, 2, 3: repeat (constructor; [split; vm_compute; discriminate|]); constructor.
  right. vm_compute. reflexivity.
Defined.

(** An entry whose end is gone takes the rest of the file with it; and a file that cannot be
    read is replaced. *)
Lemma unclosed_entry_loses_rest :
  lines (write_ssh_config_entry (B "atelier-w") (B "r") (B "c")
    (Some (B "Host x" ++ [10] ++ marker_start (B "atelier-w") ++ [10] ++ B "Host y" ++ [10]))) =
    [B "Host x"] ++ block_lines (B "atelier-w") (B "r") (B "c") /\
  write_ssh_config_entry (B "atelier-w") (B "r") (B "c") None = ssh_block (B "atelier-w") (B "r") (B "c").
Proof. by vm_compute. Qed.
