(* ===== verification/CliMcp.v ===== *)
(** The MCP server of the command line client ([src/crates/cli/src/commands/mcp.rs]) and the
    installation of a server ([src/crates/cli/src/commands/server.rs]): the commands run in a
    guest and the stream their output is read from, the configuration of a desktop agent, the
    checks and the steps of an installation, the credentials it generates.

    The shell of the guest is read as POSIX says, and the events of the stream as their text
    is specified; what the operating system answers is an input. *)

From S2P Require Import Prelude RustStr Json VmResources PodSpec ExecStream Cli.

(** ** Commands for the guest *)

(** [str::replace] of a character by a text, and [fn shell_quote]. *)
Definition replace_byte (c : Z) (by_ s : bytes) : bytes := s ≫= (fun b => if b =? c then by_ else [b]).
Definition shell_quote (path : bytes) : bytes := [39] ++ replace_byte 39 [39; 92; 39; 39] path ++ [39].

Definition read_command (path : bytes) : bytes := B "cat " ++ shell_quote path.
Definition write_command (base64 : bytes -> bytes) (path content : bytes) : bytes :=
  B "mkdir -p " ++ [34] ++ B "$(dirname " ++ shell_quote path ++ B ")" ++ [34] ++ B " && echo " ++ base64 content ++
  B " | base64 -d > " ++ shell_quote path.
Definition git_diff_command : bytes := B "cd /workspace && git diff".

(** The tools and what they ask of api-server. *)
Definition sandbox_name (uuid : bytes) : bytes := B "desktop-" ++ take 8 uuid.
Definition create_sandbox (uuid repo_url : bytes) (path : option bytes) (budget : option json) : bytes * json :=
  (B "create_workshop",
   JObj [(B "name", JStr (sandbox_name uuid)); (B "devcontainerRepo", JStr repo_url); (B "devcontainerConfigPath", opt_value JStr path);
         (B "cpu", JStr (B "1")); (B "memory", JStr (B "2Gi")); (B "maxLlmBudgetUsd", opt_value id budget)]).
Definition on_workshop (tool id : bytes) : bytes * json := (tool, JObj [(B "name", JStr id)]).
Definition suspend_sandbox := on_workshop (B "suspend_workshop").
Definition resume_sandbox := on_workshop (B "resume_workshop").
Definition list_sandboxes : bytes * json := (B "list_workshops", JObj []).

(** [fn call_upstream]: the text of an answer, [None] when api-server cannot be reached. *)
Definition call_upstream (answer : option (bool * option bytes)) : res bytes :=
  match answer with
  | None => Err "api-server injoignable"
  | Some (true, _) => Err "erreur de l'outil"
  | Some (false, text) => Ok (default [] text)
  end.

(** ** The stream of a command *)

(** [str::split] on a blank line. *)
Fixpoint split_blank (cur s : bytes) : list bytes :=
  match s with
  | [] => [rev cur]
  | c :: r =>
      match r with
      | d :: r' => if (c =? 10) && (d =? 10) then rev cur :: split_blank [] r' else split_blank (c :: cur) r
      | [] => [rev (c :: cur)]
      end
  end.
(** The name and the data of an event. *)
Definition sse_line (acc : option bytes * bytes) (line : bytes) : option bytes * bytes :=
  match strip_prefix (B "event: ") line with
  | Some v => (Some v, acc.2)
  | None =>
      match strip_prefix (B "data: ") line with
      | Some v => (acc.1, (if is_empty acc.2 then [] else acc.2 ++ [10]) ++ v)
      | None => acc
      end
  end.
Definition sse_event (block : bytes) : option bytes * bytes := fold_left sse_line (lines block) (None, []).

(** The loop of [fn exec_and_wait]: the two outputs, and the text of the status. *)
Record exec_result := mkExecResult { er_stdout : bytes; er_stderr : bytes; er_status : option bytes }.
Definition take_event (acc : exec_result) (e : option bytes * bytes) : exec_result :=
  match e.1 with
  | Some name =>
      if beq name (B "stdout") then mkExecResult (acc.(er_stdout) ++ e.2) acc.(er_stderr) acc.(er_status)
      else if beq name (B "stderr") then mkExecResult acc.(er_stdout) (acc.(er_stderr) ++ e.2) acc.(er_status)
      else if beq name (B "status") then mkExecResult acc.(er_stdout) acc.(er_stderr) (Some e.2)
      else acc
  | None => acc
  end.
Definition exec_and_wait (body : bytes) : exec_result :=
  fold_left take_event (sse_event <$> split_blank [] body) (mkExecResult [] [] None).

(** ** The configuration of an agent *)

(** [fn install_config]: [existing] is the file, [None] when it is not there or is no JSON.
    [IndexMut] of a value that is neither an object nor null panics. *)
Definition put_server (server : json) (servers : json) : res json :=
  match servers with
  | JObj o => Ok (JObj (set_field (B "atelier") server o))
  | JNull => Ok (JObj [(B "atelier", server)])
  | _ => Panic
  end.
Definition server_entry (self_exe : bytes) (context : option bytes) : json :=
  JObj [(B "command", JStr self_exe);
        (B "args", JArr (JStr <$> [B "mcp"; B "serve"] ++ match context with Some c => [B "--context"; c] | None => [] end))].
Definition install_config (existing : option json) (self_exe : bytes) (context : option bytes) : res json :=
  match default (JObj []) existing with
  | JObj root =>
      servers ← put_server (server_entry self_exe context) (default (JObj []) (assoc (B "mcpServers") root));
      Ok (JObj (set_field (B "mcpServers") servers root))
  | _ => Err "configuration existante invalide (racine non-objet)"
  end.

(** ** The installation of a server *)

(** [struct CheckResult]: whether it passed, and whether a failure stops the installation. *)
Record CheckResult := mkCheck { ck_name : bytes; ck_ok : bool; ck_blocking : bool }.
(** What the machine answers: its architecture, KVM, the memory when it could be read (at
    least 8 GiB or not), the two ports, systemd and the GPU. *)
Record machine_facts := mkFacts {
  arch : bytes; kvm : bool; enough_memory : option bool; port_80 : bool; port_443 : bool; systemd : bool; gpu : bool; is_root : bool }.
Definition checks_of (m : machine_facts) : list CheckResult :=
  [mkCheck (B "Architecture CPU") (beq m.(arch) (B "x86_64") || beq m.(arch) (B "aarch64")) true;
   mkCheck (B "Acces KVM (ioctl KVM_GET_API_VERSION)") m.(kvm) true;
   mkCheck (B "Memoire vive") (default false m.(enough_memory)) false;
   mkCheck (B "Port 80 libre") m.(port_80) true; mkCheck (B "Port 443 libre") m.(port_443) true;
   mkCheck (B "systemd present") m.(systemd) true; mkCheck (B "GPU NVIDIA (optionnel, --enable-gpu)") m.(gpu) false].
(** [fn doctor]. *)
Definition doctor (m : machine_facts) : res unit :=
  if existsb (fun c => negb c.(ck_ok) && c.(ck_blocking)) (checks_of m) then Err "prerequis bloquants" else Ok tt.

(** What [fn install] does to the machine, in its order. *)
Inductive install_step :=
| CreateDir | InstallK3s | WaitNode | InstallHelm | RepoAddIngress | RepoAddJetstack | RepoUpdate | IngressNginx | CertManager
| ApplyIssuer | EnsureCredentials | WriteValues | CloneRepo | ApplyCrd | HelmAtelier.
(** A step that fails stops the installation, but for the two additions of a repository and
    the last. *)
Definition tolerated (s : install_step) : bool := match s with RepoAddIngress | RepoAddJetstack | HelmAtelier => true | _ => false end.
Definition install_plan (has_k3s has_helm : bool) : list install_step :=
  [CreateDir] ++ (if has_k3s then [] else [InstallK3s]) ++ [WaitNode] ++ (if has_helm then [] else [InstallHelm]) ++
  [RepoAddIngress; RepoAddJetstack; RepoUpdate; IngressNginx; CertManager; ApplyIssuer; EnsureCredentials; WriteValues; CloneRepo; ApplyCrd; HelmAtelier].
Fixpoint run_steps (ok : install_step -> bool) (plan : list install_step) : list install_step * res unit :=
  match plan with
  | [] => ([], Ok tt)
  | s :: rest => if ok s || tolerated s then prod_map (cons s) id (run_steps ok rest) else ([s], Err "etape en echec")
  end.
Definition install (m : machine_facts) (enable_gpu has_k3s has_helm : bool) (ok : install_step -> bool) : list install_step * res unit :=
  if negb m.(is_root) then ([], Err "root")
  else match doctor m with
       | Ok _ => if enable_gpu && negb m.(gpu) then ([], Err "GPU") else run_steps ok (install_plan has_k3s has_helm)
       | _ => ([], Err "prerequis non remplis")
       end.

(** [fn ensure_repo_cloned], [fn upgrade] and [fn uninstall], as commands: what was run, and
    the outcome. *)
Inductive server_command := GitFetch | GitReset | GitClone | HelmUpgrade | HelmUninstall | K3sUninstall.
Fixpoint run_commands (ok : server_command -> bool) (cs : list server_command) : list server_command * res unit :=
  match cs with
  | [] => ([], Ok tt)
  | c :: rest => if ok c then prod_map (cons c) id (run_commands ok rest) else ([c], Err "commande en echec")
  end.
Definition ensure_repo_cloned (cloned : bool) (ok : server_command -> bool) : list server_command * res unit :=
  run_commands ok (if cloned then [GitFetch; GitReset] else [GitClone]).
Definition upgrade (values_file cloned : bool) (ok : server_command -> bool) : list server_command * res unit :=
  if negb values_file then ([], Err "introuvable")
  else run_commands ok ((if cloned then [GitFetch; GitReset] else []) ++ [HelmUpgrade]).
Definition uninstall (root has_k3s_uninstall : bool) (ok : server_command -> bool) : list server_command * res unit :=
  if negb root then ([], Err "root")
  else prod_map (cons HelmUninstall) id (run_commands ok (if has_k3s_uninstall then [K3sUninstall] else [])).

(** [struct Credentials], [fn random_hex] of the bytes drawn, and [fn ensure_credentials];
    [file] is the content of [credentials.txt], [None] when it cannot be read. *)
Record Credentials := mkCredentials {
  postgres_admin_password : bytes; postgres_migrator_password : bytes; keycloak_admin_password : bytes;
  litellm_master_key : bytes; litellm_salt_key : bytes }.
Definition hex_digit (d : Z) : Z := if d <? 10 then 48 + d else 87 + d.
Definition random_hex (drawn : bytes) : bytes := drawn ≫= (fun b => [hex_digit (b / 16); hex_digit (b mod 16)]).
Definition credential_line (key value : bytes) : bytes := key ++ [61; 34] ++ value ++ [34; 10].
Definition credentials_text (c : Credentials) : bytes :=
  B "# Genere par `atelier server install` " ++ [226; 128; 148] ++ B " a garder confidentiel." ++ [10] ++
  credential_line (B "POSTGRES_ADMIN_PASSWORD") c.(postgres_admin_password) ++
  credential_line (B "POSTGRES_MIGRATOR_PASSWORD") c.(postgres_migrator_password) ++
  credential_line (B "KEYCLOAK_ADMIN_PASSWORD") c.(keycloak_admin_password) ++
  credential_line (B "LITELLM_MASTER_KEY") c.(litellm_master_key) ++ credential_line (B "LITELLM_SALT_KEY") c.(litellm_salt_key).
Definition credential (content key : bytes) : res bytes :=
  v ← ok_or (head (omap (strip_prefix (key ++ [61; 34])) (lines content))) "absente";
  ok_or (strip_suffix [34] v) "absente".
Definition read_credentials (content : bytes) : res Credentials :=
  a ← credential content (B "POSTGRES_ADMIN_PASSWORD"); b ← credential content (B "POSTGRES_MIGRATOR_PASSWORD");
  c ← credential content (B "KEYCLOAK_ADMIN_PASSWORD"); d ← credential content (B "LITELLM_MASTER_KEY");
  e ← credential content (B "LITELLM_SALT_KEY"); Ok (mkCredentials a b c d e).
Definition ensure_credentials (file : option bytes) (fresh : Credentials) : option bytes * res Credentials :=
  match file with
  | Some content => (Some content, read_credentials content)
  | None => (Some (credentials_text fresh), Ok fresh)
  end.

(** ** Quoting *)

(** A word of the shell, from its start: between single quotes every character is itself,
    elsewhere a backslash makes the next one itself, and a blank or an operator ends the word.
    What starts an expansion outside of quotes is not read here. *)
Definition sh_ends (c : Z) : bool := existsb (Z.eqb c) [32; 9; 10; 59; 38; 124; 60; 62; 40; 41].
Definition sh_expands (c : Z) : bool := existsb (Z.eqb c) [34; 36; 96; 42; 63; 91; 126; 35].
Fixpoint sh_word (quoted : bool) (s : bytes) : option (bytes * bytes) :=
  match s with
  | [] => if quoted then None else Some ([], [])
  | c :: r =>
      if quoted then (if c =? 39 then sh_word false r else prod_map (cons c) id <$> sh_word true r)
      else if c =? 39 then sh_word true r
      else if c =? 92 then match r with [] => None | d :: r' => prod_map (cons d) id <$> sh_word false r' end
      else if sh_ends c then Some ([], s)
      else if sh_expands c then None
      else prod_map (cons c) id <$> sh_word false r
  end.

Lemma sh_word_quoted path rest : sh_word true (replace_byte 39 [39; 92; 39; 39] path ++ 39 :: rest) =
  prod_map (app path) id <$> sh_word false rest.
Proof.
  unfold replace_byte. induction path as [|b path IH].
  - cbn. destruct (sh_word false rest) as [[w r]|]; done.
  - rewrite bind_cons, <- app_assoc. destruct (Z.eqb_spec b 39) as [->|Hb].
    + cbn. rewrite IH. by destruct (sh_word false rest) as [[w r]|].
    + cbn. rewrite (proj2 (Z.eqb_neq b 39) Hb). rewrite IH. by destruct (sh_word false rest) as [[w r]|].
Qed.

(** A quoted path is one word of the shell, whatever its characters: the shell of the
    guest reads it as exactly the path, quotes and blanks included, and goes on with what
    follows it in the command, so that the commands of the tools that read and write a file
    are given that file and nothing of it is executed. *)
Theorem shell_quote_exact path rest :
  rest = [] \/ (exists c r, rest = c :: r /\ sh_ends c = true) ->
  sh_word false (shell_quote path ++ rest) = Some (path, rest).
Proof.
  intros Hr. unfold shell_quote. rewrite <- !app_assoc. cbn [app sh_word]. change (39 =? 39) with true. cbv iota.
  rewrite sh_word_quoted. assert (He : sh_word false rest = Some ([], rest)).
  { destruct Hr as [->|(c & r & -> & Hc)]; [done|]. cbn [sh_word].
    assert (c <> 39 /\ c <> 92) as [H1 H2] by (split; intros ->; by vm_compute in Hc).
    by rewrite (proj2 (Z.eqb_neq _ _) H1), (proj2 (Z.eqb_neq _ _) H2), Hc. }
  rewrite He. cbn. by rewrite app_nil_r.
Qed.

Lemma shell_quote_exact_witness :
  sh_word false (shell_quote (B "it's; rm -rf $HOME") ++ B " | base64") = Some (B "it's; rm -rf $HOME", B " | base64").
Proof.
  apply (shell_quote_exact (B "it's; rm -rf $HOME") (B " | base64")). right. by eexists 32, (B "| base64").
Defined.

(** ** The output of a command *)

Definition drop_newlines : bytes -> bytes := drop_while (Z.eqb 10).

Lemma sse_line_data l acc : sse_line acc (B "data: " ++ l) = (acc.1, (if is_empty acc.2 then [] else acc.2 ++ [10]) ++ l).
Proof. unfold sse_line. change (strip_prefix (B "event: ") (B "data: " ++ l)) with (@None bytes). by rewrite strip_prefix_app. Qed.

Lemma join_lines y ls : join [10] (y :: ls) = y ++ (ls ≫= cons 10).
Proof.
  revert y. induction ls as [|z ls IH]; intros y; [cbn; by rewrite app_nil_r|].
  rewrite bind_cons. change (join [10] (y :: z :: ls)) with (y ++ [10] ++ join [10] (z :: ls)). by rewrite IH.
Qed.
Lemma sse_data_lines ls acc name : Forall (fun l => 10 ∉ l) ls ->
  fold_left sse_line ((B "data: " ++.) <$> ls) (name, acc) =
    (name, match acc with [] => drop_newlines (join [10] ls) | _ => acc ++ (ls ≫= cons 10) end).
Proof.
  intros H. revert acc. induction H as [|l ls Hl _ IH]; intros acc.
  { destruct acc; cbn; by rewrite ?app_nil_r. }
  rewrite fmap_cons. cbn [fold_left]. rewrite sse_line_data. cbn [fst snd]. rewrite IH, bind_cons.
  destruct acc as [|a acc]; cbn [is_empty app].
  - destruct l as [|b l].
    + destruct ls; [done|]. reflexivity.
    + assert (Hb : (10 =? b) = false) by (apply Z.eqb_neq; set_solver).
      unfold drop_newlines. rewrite join_lines. cbn [app drop_while]. by rewrite Hb.
  - by rewrite <- !app_assoc.
Qed.

(** The blocks of a stream: texts of lines that are not blank, each ended by a blank line. *)
Lemma split_blank_line l cur s : 10 ∉ l -> split_blank cur (l ++ s) = split_blank (rev l ++ cur) s.
Proof.
  revert cur. induction l as [|b l IH]; intros cur Hl; [done|]. cbn [app]. assert (Hb : (b =? 10) = false) by (apply Z.eqb_neq; set_solver).
  transitivity (split_blank (b :: cur) (l ++ s)).
  - cbn [split_blank]. rewrite Hb. by destruct (l ++ s).
  - rewrite IH by set_solver. cbn [rev]. by rewrite <- app_assoc.
Qed.
Lemma split_blank_block ls cur rest : ls <> [] -> Forall (fun l => (10 ∉ l) /\ l <> []) ls ->
  split_blank cur (join [10] ls ++ [10; 10] ++ rest) = (rev cur ++ join [10] ls) :: split_blank [] rest.
Proof.
  intros Hne H. revert cur. induction H as [|l ls [Hl Hl'] Hls IH]; [done|]. intros cur. destruct ls as [|y ls].
  - cbn [join]. rewrite split_blank_line by done. cbn [app split_blank]. change ((10 =? 10) && (10 =? 10)) with true. cbv iota.
    by rewrite rev_app_distr, rev_involutive.
  - change (join [10] (l :: y :: ls)) with (l ++ [10] ++ join [10] (y :: ls)). rewrite <- !app_assoc. rewrite split_blank_line by done.
    apply Forall_cons in Hls as [[Hy Hy'] _]. transitivity (split_blank (10 :: rev l ++ cur) (join [10] (y :: ls) ++ [10; 10] ++ rest)).
    + destruct y as [|b y]; [done|]. rewrite join_lines. cbn [app split_blank].
      assert (Hb : (b =? 10) = false) by (apply Z.eqb_neq; set_solver). by rewrite Hb, andb_false_r.
    + rewrite IH by done. f_equal. cbn [rev]. rewrite rev_app_distr, rev_involutive. by rewrite <- !app_assoc.
Qed.
Lemma lines_join ls : ls <> [] -> Forall (fun l => (10 ∉ l) /\ l <> [] /\ (13 ∉ l)) ls -> lines (join [10] ls) = ls.
Proof.
  intros Hne H. unfold lines. rewrite split_join; [|done|].
  - clear Hne. induction H as [|l ls (Hl & Hn & Hc) _ IH]; [done|]. cbn [lines_of]. destruct ls as [|y ls]; [by destruct l|].
    rewrite IH. f_equal. destruct l as [|b l _] using rev_ind; [done|]. rewrite strip_cr_snoc.
    destruct (Z.eqb_spec b 13) as [->|]; [set_solver|done].
  - intros l Hl. rewrite Forall_forall in H. by apply H.
Qed.

Lemma ended_lines (f : bytes -> bytes) ls : 10 :: (ls ≫= (fun l => f l ++ [10])) = ((f <$> ls) ≫= cons 10) ++ [10].
Proof.
  induction ls as [|l ls IH]; [done|]. rewrite fmap_cons, !bind_cons, <- !app_assoc. cbn [app]. by rewrite IH.
Qed.

Section stream.
(** The text of an event ([axum::response::sse::Event]): its name, then a line per line of
    its data, and a blank line. *)
Context (wire : bytes -> bytes -> bytes).
Hypothesis wire_text : forall name data, (13 ∉ data) ->
  wire name data = B "event: " ++ name ++ [10] ++ (split 10 data ≫= (fun l => B "data: " ++ l ++ [10])) ++ [10].

(** The lines of an event. *)
Definition event_lines (name data : bytes) : list bytes := (B "event: " ++ name) :: ((B "data: " ++.) <$> split 10 data).
Lemma wire_lines name data : 13 ∉ data -> wire name data = join [10] (event_lines name data) ++ [10; 10].
Proof using wire_text.
  intros H. rewrite wire_text by done. unfold event_lines. rewrite join_lines, <- !app_assoc. do 2 f_equal.
  change ([10; 10]) with ([10] ++ [10]). rewrite (app_assoc _ [10] [10]), <- ended_lines. done.
Qed.

Lemma event_lines_ok name data : (10 ∉ name) -> (13 ∉ name) -> (13 ∉ data) ->
  Forall (fun l => (10 ∉ l) /\ l <> [] /\ (13 ∉ l)) (event_lines name data).
Proof using Type.
  clear. intros Hn Hn' Hd. constructor.
  - rewrite !not_elem_of_app. split_and!; try done; by apply (bool_decide_unpack _).
  - apply Forall_fmap, Forall_forall. intros l Hl. cbn [compose]. pose proof (split_pieces 10 _ _ Hl).
    assert (13 ∉ l) by (intros Hc; apply Hd; rewrite <- (join_split 10 data); by eapply join_elem).
    rewrite !not_elem_of_app. split_and!; try done; by apply (bool_decide_unpack _).
Qed.

(** What the client makes of a stream. *)
Lemma exec_and_wait_events evs :
  Forall (fun e => (10 ∉ e.1) /\ (13 ∉ e.1) /\ (13 ∉ e.2)) evs ->
  exec_and_wait (evs ≫= (fun e => wire e.1 e.2)) =
    fold_left (fun acc e => take_event acc (Some e.1, drop_newlines e.2)) evs (mkExecResult [] [] None).
Proof using wire_text.
  intros H. unfold exec_and_wait. generalize (mkExecResult [] [] None).
  induction H as [|[name data] evs (Hn & Hn' & Hd) _ IH]; intros acc; [done|]. cbn [fst snd] in *. rewrite bind_cons. cbn [fst snd].
  rewrite (wire_lines name data Hd), <- app_assoc. pose proof (event_lines_ok name data Hn Hn' Hd) as Hok.
  rewrite split_blank_block; [|done|by eapply Forall_impl; [exact Hok|]; naive_solver].
  rewrite fmap_cons. cbn [fold_left rev app]. rewrite IH. f_equal. f_equal. unfold sse_event. rewrite lines_join by done.
  unfold event_lines. cbn [fold_left]. unfold sse_line at 2. rewrite strip_prefix_app. cbn [snd].
  rewrite sse_data_lines; [by rewrite join_split|]. apply Forall_forall. intros l Hl. by eapply split_pieces.
Qed.

(** The events of [ExecStream], as they are named; [status_text] is the JSON of a status. *)
Context (status_text : exec_status -> option Z -> option bytes -> bytes).
Definition event_of (e : sse) : bytes * bytes :=
  match e with
  | SStdout _ => (B "stdout", event_text e)
  | SStderr _ => (B "stderr", event_text e)
  | SStatus s x g => (B "status", status_text s x g)
  | SPing => (B "ping", [])
  | SError => (B "error", event_text e)
  end.
Definition status_of_events (es : list sse) : option bytes :=
  fold_left (fun acc e => match e with SStatus s x g => Some (drop_newlines (status_text s x g)) | _ => acc end) es None.

Lemma take_events es acc :
  fold_left (fun acc e => take_event acc (Some e.1, drop_newlines e.2)) (event_of <$> es) acc =
  mkExecResult (acc.(er_stdout) ++ (es ≫= (fun e => drop_newlines (out_text e)))) (acc.(er_stderr) ++ (es ≫= (fun e => drop_newlines (err_text e))))
    (fold_left (fun acc e => match e with SStatus s x g => Some (drop_newlines (status_text s x g)) | _ => acc end) es acc.(er_status)).
Proof using Type.
  revert acc. induction es as [|e es IH]; intros acc; [by destruct acc; cbn; rewrite !app_nil_r|].
  rewrite fmap_cons, !bind_cons. cbn [fold_left]. rewrite IH. destruct acc as [o r s]. rewrite !app_assoc.
  destruct e; cbn; by rewrite ?app_nil_r.
Qed.

(** The output of a command an agent runs is the command's.  From the stream of
    api-server the client gathers the text of every event of each of the two outputs, in
    their order, each without the newlines it begins with: all of it, where no event begins
    with one; and the status is the last one sent. *)
Theorem exec_output_exact es :
  Forall (fun e => 13 ∉ (event_of e).2) es ->
  let r := exec_and_wait (es ≫= (fun e => wire (event_of e).1 (event_of e).2)) in
  r.(er_stdout) = es ≫= (fun e => drop_newlines (out_text e)) /\ r.(er_stderr) = es ≫= (fun e => drop_newlines (err_text e)) /\
  r.(er_status) = status_of_events es /\
  (Forall (fun e => head (event_of e).2 <> Some 10) es -> r.(er_stdout) = es ≫= out_text /\ r.(er_stderr) = es ≫= err_text).
Proof using wire_text.
  intros H r. assert (E : r = exec_and_wait ((event_of <$> es) ≫= (fun e => wire e.1 e.2))) by (unfold r; f_equal; clear; induction es as [|e es IH]; [done|]; by rewrite fmap_cons, !bind_cons, IH).
  rewrite exec_and_wait_events in E.
  2: { apply Forall_fmap. eapply Forall_impl; [exact H|]. intros e He. cbn [compose]. split_and!; [| |done]; destruct e; by apply (bool_decide_unpack _). }
  rewrite take_events in E. rewrite E. cbn [er_stdout er_stderr er_status app]. split_and!; [done..|]. intros Hh. clear E r H.
  assert (Hd : forall x, head x <> Some 10 -> drop_newlines x = x).
  { intros [|b x] Hx; [done|]. unfold drop_newlines. cbn [drop_while]. by rewrite (proj2 (Z.eqb_neq 10 b)) by (intros <-; by apply Hx). }
  split; induction Hh as [|e es He _ IH]; try done; rewrite !bind_cons, IH; f_equal; destruct e; cbn in *; by rewrite ?Hd.
Qed.
End stream.

(** The newlines a piece of output begins with are lost, such as the first of a file. *)
Lemma leading_newline_lost :
  sse_event (B "event: stdout" ++ [10] ++ B "data: " ++ [10] ++ B "data: x") = (Some (B "stdout"), B "x").
Proof. by vm_compute. Qed.

Definition toy_wire (name data : bytes) : bytes :=
  B "event: " ++ name ++ [10] ++ (split 10 data ≫= (fun l => B "data: " ++ l ++ [10])) ++ [10].
Lemma exec_output_exact_witness :
  let es := [SStdout (B "a" ++ [10] ++ B "b"); SPing; SStderr (B "!"); SStdout (B "c"); SStatus ECompleted (Some 0) None] in
  (exec_and_wait (es ≫= (fun e => toy_wire (event_of (fun _ _ _ => B "ok") e).1 (event_of (fun _ _ _ => B "ok") e).2))).(er_stdout) =
    B "a" ++ [10] ++ B "bc".
Proof.
  intros es.
  refine (eq_trans (proj1 (exec_output_exact toy_wire (fun name data _ => eq_refl) (fun _ _ _ => B "ok") es _)) _).
  - repeat (constructor; [apply (bool_decide_unpack _); vm_compute; exact I|]). constructor.
  - vm_compute. reflexivity.
Defined.

(** ** The configuration and the installation *)

Lemma assoc_set_eq k v o : assoc k (set_field k v o) = Some v.
Proof. unfold set_field. cbn. unfold beq. by rewrite bool_decide_true. Qed.
Lemma assoc_set_ne k k' v o : k <> k' -> assoc k (set_field k' v o) = assoc k o.
Proof. intros H. unfold set_field. cbn. unfold beq. rewrite bool_decide_false by congruence. by apply assoc_filter_ne. Qed.

(** An agent's configuration keeps what it had, other servers included, and gains the
    entry; installing again changes nothing more. *)
Lemma install_config_keeps root exe context j :
  install_config (Some (JObj root)) exe context = Ok j ->
  (jget (B "mcpServers") j ≫= jget (B "atelier")) = Some (server_entry exe context) /\
  (forall k, k <> B "mcpServers" -> jget k j = assoc k root) /\
  (forall k servers, k <> B "atelier" -> assoc (B "mcpServers") root = Some (JObj servers) ->
     (jget (B "mcpServers") j ≫= jget k) = assoc k servers) /\
  exists j', install_config (Some j) exe context = Ok j' /\ (jget (B "mcpServers") j' ≫= jget (B "atelier")) = Some (server_entry exe context).
Proof.
  unfold install_config, jget. cbn [from_option id].
  destruct (put_server (server_entry exe context) (default (JObj []) (assoc (B "mcpServers") root))) as [servers| |] eqn:E; cbn [mbind res_bind]; [|done..].
  intros [= <-]. cbn [fields_of from_option id]. rewrite assoc_set_eq. cbn [mbind option_bind].
  assert (Hs : exists o, servers = JObj o /\ assoc (B "atelier") o = Some (server_entry exe context) /\
    forall k sv, k <> B "atelier" -> assoc (B "mcpServers") root = Some (JObj sv) -> assoc k o = assoc k sv).
  { revert E. unfold put_server. destruct (assoc (B "mcpServers") root) as [s|]; cbn [from_option id].
    - destruct s; intros [= <-]; eexists; split_and!; try reflexivity; try apply assoc_set_eq; intros k sv Hk [= <-]. by apply assoc_set_ne.
    - intros [= <-]. eexists. split_and!; [reflexivity|apply assoc_set_eq|done]. }
  destruct Hs as (o & -> & Ha & Hk). cbn [fields_of mbind option_bind]. split_and!; [done|by intros; apply assoc_set_ne|done|].
  cbn [put_server mbind res_bind]. eexists. split; [reflexivity|]. cbn [fields_of]. rewrite assoc_set_eq. cbn [mbind option_bind]. apply assoc_set_eq.
Qed.
(** A file that is no JSON is replaced, with the servers it had. *)
Lemma install_config_discards exe : install_config None exe None = Ok (JObj [(B "mcpServers", JObj [(B "atelier", server_entry exe None)])]).
Proof. done. Qed.

Lemma run_steps_prefix ok plan : exists rest, plan = (run_steps ok plan).1 ++ rest.
Proof.
  induction plan as [|s plan [rest IH]]; [by exists []|]. cbn [run_steps]. destruct (ok s || tolerated s); [|by exists plan].
  exists rest. destruct (run_steps ok plan) as [done_ r]. cbn in *. by rewrite IH at 1.
Qed.

(** An installation changes nothing on a machine that cannot run it.  Unless it is run
    as root, every blocking check passes and, where a GPU is asked for, one was detected, no
    step is taken; otherwise the steps taken are the plan's, in order, and the first failure
    that is not expected is the last of them. *)
Theorem install_guarded m enable_gpu has_k3s has_helm ok :
  let '(steps, r) := install m enable_gpu has_k3s has_helm ok in
  (steps <> [] -> m.(is_root) = true /\ Forall (fun c => c.(ck_blocking) = true -> c.(ck_ok) = true) (checks_of m) /\
     (enable_gpu = true -> m.(gpu) = true)) /\
  (exists rest, steps = [] \/ install_plan has_k3s has_helm = steps ++ rest) /\
  (forall s done_ rest, steps = done_ ++ s :: rest -> ok s = false -> tolerated s = false -> rest = [] /\ exists e, r = Err e) /\
  (r = Ok tt -> steps = install_plan has_k3s has_helm).
Proof.
  unfold install. destruct (is_root m) eqn:Er; cbn [negb]; [|split_and!; [done|by exists []; left|by intros ? []|done]].
  unfold doctor. destruct (existsb _ (checks_of m)) eqn:Ec; [split_and!; [done|by exists []; left|by intros ? []|done]|].
  destruct (enable_gpu && negb (gpu m)) eqn:Eg; [split_and!; [done|by exists []; left|by intros ? []|done]|].
  pose proof (run_steps_prefix ok (install_plan has_k3s has_helm)) as [rest Hrest].
  generalize dependent (install_plan has_k3s has_helm). intros plan Hrest.
  destruct (run_steps ok plan) as [steps r] eqn:E. cbn [fst] in Hrest. split_and!.
  - intros _. split_and!; [done| |by destruct enable_gpu, (gpu m)]. apply Forall_forall. intros c Hc Hb.
    destruct (ck_ok c) eqn:Ek; [done|]. exfalso. apply not_true_iff_false in Ec. apply Ec. apply existsb_exists. exists c.
    split; [by apply list_elem_of_In|]. by rewrite Ek, Hb.
  - exists rest. by right.
  - intros s done_ rest' Hs Ho Ht. clear -E Hs Ho Ht. revert steps r done_ E Hs. induction plan as [|x plan IH]; intros steps r done_ E Hs.
    { injection E as <- <-. by destruct done_. }
    cbn [run_steps] in E. destruct (ok x || tolerated x) eqn:Ex.
    + destruct (run_steps ok plan) as [st r'] eqn:E'. cbn in E. injection E as <- <-. destruct done_ as [|d done_].
      * injection Hs as -> ->. by rewrite Ho, Ht in Ex.
      * injection Hs as -> ->. by eapply IH.
    + injection E as <- <-. destruct done_ as [|d done_]; [injection Hs as -> <-; eauto|]. by destruct done_.
  - intros ->. clear -E. revert steps E. induction plan as [|x plan IH]; intros steps E; [by injection E as <-|].
    cbn [run_steps] in E. destruct (ok x || tolerated x); [|done]. destruct (run_steps ok plan) as [st r']. cbn in E. injection E as <- ->.
    by rewrite (IH st eq_refl).
Qed.

(** ** Credentials that last *)

(** What [fn ensure_credentials] generates: five values of 24 bytes drawn. *)
Definition generated (draw : nat -> bytes) : Credentials :=
  mkCredentials (random_hex (draw 0%nat)) (random_hex (draw 1%nat)) (random_hex (draw 2%nat)) (random_hex (draw 3%nat)) (random_hex (draw 4%nat)).

Lemma hex_digit_range d : 0 <= d < 16 -> 48 <= hex_digit d <= 57 \/ 97 <= hex_digit d <= 102.
Proof. unfold hex_digit. intros H. destruct (Z.ltb_spec d 10); lia. Qed.
Lemma random_hex_plain drawn : Forall (fun b => 0 <= b < 256) drawn -> plain_line (random_hex drawn) /\ 34 ∉ random_hex drawn.
Proof.
  intros H. assert (Hc : forall c, c ∈ random_hex drawn -> 48 <= c <= 57 \/ 97 <= c <= 102).
  { intros c (b & Hb & Hin)%list_elem_of_bind. rewrite Forall_forall in H. specialize (H b Hin).
    apply elem_of_cons in Hb as [->|[->|Hb%elem_of_nil]%elem_of_cons]; [| |done]; apply hex_digit_range;
      [split; [apply Z.div_pos|apply Z.div_lt_upper_bound]; lia|apply Z.mod_pos_bound; lia]. }
  unfold plain_line. split_and!; intros Hin; apply Hc in Hin; lia.
Qed.

Definition credential_lines (c : Credentials) : list bytes :=
  [B "# Genere par `atelier server install` " ++ [226; 128; 148] ++ B " a garder confidentiel.";
   B "POSTGRES_ADMIN_PASSWORD" ++ [61; 34] ++ c.(postgres_admin_password) ++ [34];
   B "POSTGRES_MIGRATOR_PASSWORD" ++ [61; 34] ++ c.(postgres_migrator_password) ++ [34];
   B "KEYCLOAK_ADMIN_PASSWORD" ++ [61; 34] ++ c.(keycloak_admin_password) ++ [34];
   B "LITELLM_MASTER_KEY" ++ [61; 34] ++ c.(litellm_master_key) ++ [34];
   B "LITELLM_SALT_KEY" ++ [61; 34] ++ c.(litellm_salt_key) ++ [34]].
Lemma credentials_text_lines c : credentials_text c = unlines (credential_lines c).
Proof.
  unfold credentials_text, credential_line, credential_lines, unlines. rewrite !bind_cons. cbn [mbind list_bind].
  by rewrite <- ?app_assoc, ?app_nil_r.
Qed.

Lemma plain_app a b : plain_line a -> plain_line b -> plain_line (a ++ b).
Proof. unfold plain_line. rewrite !not_elem_of_app. naive_solver. Qed.
Lemma credential_lines_plain c :
  Forall plain_line [c.(postgres_admin_password); c.(postgres_migrator_password); c.(keycloak_admin_password);
                     c.(litellm_master_key); c.(litellm_salt_key)] -> Forall plain_line (credential_lines c).
Proof.
  rewrite !Forall_cons. intros (H1 & H2 & H3 & H4 & H5 & _). unfold credential_lines.
  rewrite !Forall_cons, Forall_nil. split_and!; try done; repeat (apply plain_app; [|]); try done; split; by apply (bool_decide_unpack _).
Qed.

Lemma credential_found c : let found key := head (omap (strip_prefix (B key ++ [61; 34])) (credential_lines c)) in
  found "POSTGRES_ADMIN_PASSWORD" = Some (c.(postgres_admin_password) ++ [34]) /\
  found "POSTGRES_MIGRATOR_PASSWORD" = Some (c.(postgres_migrator_password) ++ [34]) /\
  found "KEYCLOAK_ADMIN_PASSWORD" = Some (c.(keycloak_admin_password) ++ [34]) /\
  found "LITELLM_MASTER_KEY" = Some (c.(litellm_master_key) ++ [34]) /\
  found "LITELLM_SALT_KEY" = Some (c.(litellm_salt_key) ++ [34]).
Proof. destruct c. split_and!; reflexivity. Qed.

(** An installation that runs again keeps the credentials of the first: what it generated is
    what every later run reads, whatever it would draw, and the file does not change. *)
Lemma credentials_kept draw c' :
  (forall i, Forall (fun b => 0 <= b < 256) (draw i)) ->
  let first := ensure_credentials None (generated draw) in
  first.2 = Ok (generated draw) /\ ensure_credentials first.1 c' = first.
Proof.
  intros Hd. cbn [ensure_credentials fst snd]. split; [done|]. f_equal. unfold read_credentials, credential.
  rewrite credentials_text_lines, lines_unlines.
  2: { apply credential_lines_plain. rewrite !Forall_cons, Forall_nil. split_and!; try done; by apply random_hex_plain. }
  destruct (credential_found (generated draw)) as (E1 & E2 & E3 & E4 & E5).
  rewrite E1, E2, E3, E4, E5. cbn [ok_or mbind res_bind]. rewrite !strip_suffix_app. done.
Qed.
