(* ===== verification/ApiRouter.v ===== *)
(** The doors of the API server: the route table of [fn router] in
    [src/crates/api-server/src/routes.rs] with the layer that authenticates, and the whole
    handler of [POST /v1/workshops/{name}/exec] ([src/crates/api-server/src/run.rs]).

    axum matches a path segment by segment: a literal, [{x}] for one segment that is not empty,
    [{*x}] for the rest when it is not empty.  Patterns are written as the source has them.
    Parameters are given as they are in the path, before percent-decoding. *)

From S2P Require Import Prelude RustStr Json Crd Collections Shell OpenBao Auth Routes Exec ExecStream ApiMcp Cli.

(** ** Patterns *)

Fixpoint match_path (pat segs : list bytes) : option (list bytes) :=
  match pat, segs with
  | [], [] => Some []
  | p :: pat, s :: segs =>
      if starts_with p (B "{*") then (if is_empty (join [47] (s :: segs)) then None else Some [join [47] (s :: segs)])
      else if starts_with p (B "{") then (if is_empty s then None else cons s <$> match_path pat segs)
      else if beq p s then match_path pat segs else None
  | _, _ => None
  end.
Definition matches (pat path : bytes) : option (list bytes) := match_path (split 47 pat) (split 47 path).

(** ** The table *)

Inductive handler :=
| Hhealthz | Hhealth_liveness | Hhealth_readiness | Hslack_interactions
| Hcreate_workshop | Hlist_workshops | Hget_workshop | Hdelete_workshop | Hsuspend_workshop | Hresume_workshop
| Hlist_workshop_events | Hworkshop_llm_budget | Hcreate_approval | Hlist_approvals | Hdecide_approval
| Hlist_credentials | Hput_credential | Hdelete_credential | Hadmin_list_workshops | Hadmin_llm_overview | Hadmin_llm_spend
| Hadmin_llm_create_model | Hadmin_llm_update_model | Hadmin_llm_delete_model | Hrun_handler | Hstream_handler | Hportforward
| Hvscode_proxy_root | Hvscode_proxy | Hterminal_proxy_root | Hterminal_proxy | Hmcp.
#[global] Instance handler_eq_dec : EqDecision handler.
Proof. solve_decision. Defined.

(** A method router: [get] also takes HEAD, [any] everything. *)
Inductive on := On (method : bytes) (h : handler) | Any (h : handler).
Definition get (h : handler) : list on := [On (B "GET") h; On (B "HEAD") h].
Definition post (h : handler) : list on := [On (B "POST") h].
Definition put (h : handler) : list on := [On (B "PUT") h].
Definition patch (h : handler) : list on := [On (B "PATCH") h].
Definition delete_ (h : handler) : list on := [On (B "DELETE") h].
Definition any (h : handler) : list on := [Any h].
Definition on_method (method : bytes) (o : on) : option handler :=
  match o with On m h => if beq m method then Some h else None | Any h => Some h end.
(** [Router::nest_service]: the path, the path and a slash, and all below. *)
Definition nest_service (path : bytes) (h : handler) : list (bytes * list on) :=
  [(path, any h); (path ++ B "/", any h); (path ++ B "/{*rest}", any h)].

Definition protected : list (bytes * list on) :=
  [(B "/v1/workshops", post Hcreate_workshop ++ get Hlist_workshops);
   (B "/v1/workshops/{name}", get Hget_workshop ++ delete_ Hdelete_workshop);
   (B "/v1/workshops/{name}/suspend", post Hsuspend_workshop);
   (B "/v1/workshops/{name}/resume", post Hresume_workshop);
   (B "/v1/workshops/{name}/events", get Hlist_workshop_events);
   (B "/v1/workshops/{name}/llm-budget", get Hworkshop_llm_budget);
   (B "/v1/workshops/{name}/approvals", post Hcreate_approval ++ get Hlist_approvals);
   (B "/v1/approvals/{id}/decision", post Hdecide_approval);
   (B "/v1/workshops/{name}/credentials", get Hlist_credentials ++ put Hput_credential);
   (B "/v1/workshops/{name}/credentials/{host}", delete_ Hdelete_credential);
   (B "/v1/admin/workshops", get Hadmin_list_workshops);
   (B "/v1/admin/llm", get Hadmin_llm_overview);
   (B "/v1/admin/llm/spend", get Hadmin_llm_spend);
   (B "/v1/admin/llm/models", post Hadmin_llm_create_model);
   (B "/v1/admin/llm/models/{id}", patch Hadmin_llm_update_model ++ delete_ Hadmin_llm_delete_model);
   (B "/v1/workshops/{name}/exec", post Hrun_handler);
   (B "/v1/workshops/{name}/exec/{id}/stream", get Hstream_handler);
   (B "/v1/workshops/{name}/portforward", get Hportforward);
   (B "/v1/workshops/{name}/vscode", any Hvscode_proxy_root);
   (B "/v1/workshops/{name}/vscode/", any Hvscode_proxy_root);
   (B "/v1/workshops/{name}/vscode/{*path}", any Hvscode_proxy);
   (B "/v1/workshops/{name}/terminal", any Hterminal_proxy_root);
   (B "/v1/workshops/{name}/terminal/", any Hterminal_proxy_root);
   (B "/v1/workshops/{name}/terminal/{*path}", any Hterminal_proxy)]
  ++ nest_service (B "/v1/mcp") Hmcp.
Definition public : list (bytes * list on) :=
  [(B "/healthz", get Hhealthz);
   (B "/health/liveness", get Hhealth_liveness);
   (B "/health/readiness", get Hhealth_readiness);
   (B "/v1/webhooks/slack/interactions", post Hslack_interactions)].

(** ** A request *)

(** What is done of a request: a handler runs, with the parameters of the path and, behind the
    layer, the identity the layer put in the request; it is refused; the path has no such
    method; or no route has this path. *)
Inductive routed :=
| Runs (h : handler) (params : list bytes) (identity : option (AuthenticatedUser * Claims))
| RefusedWith (status : Z)
| MethodNotAllowed
| NoRoute.

Definition route_of (table : list (bytes * list on)) (path : bytes) : option (list on * list bytes) :=
  head (omap (fun r => (fun ps => (r.2, ps)) <$> matches r.1 path) table).
Definition dispatch (ons : list on) (params : list bytes) (method : bytes) (identity : option (AuthenticatedUser * Claims)) : routed :=
  match head (omap (on_method method) ons) with Some h => Runs h params identity | None => MethodNotAllowed end.

(** [fn router]: the layer is around every route of [protected], those without the method
    included. *)
Definition router (lib : JwtLib) (auth : AuthState) (method path : bytes) (authorization : option bytes) (fetched : res JwkSet)
  : AuthState * routed :=
  match route_of public path with
  | Some (ons, params) => (auth, dispatch ons params method None)
  | None =>
      match route_of protected path with
      | None => (auth, NoRoute)
      | Some (ons, params) =>
          let '(auth, r) := require_auth lib auth authorization fetched in
          (auth, match r with
                 | Passed user claims => dispatch ons params method (Some (user, claims))
                 | Refused status => RefusedWith status
                 end)
      end
  end.

(** ** No path has two routes *)

Definition is_wild (p : bytes) : bool := starts_with p (B "{*").
Definition is_param (p : bytes) : bool := starts_with p (B "{").
(** Enough for two patterns to have no path in common. *)
Fixpoint disjoint_pats (p q : list bytes) : bool :=
  match p, q with
  | [], [] => false
  | [], _ :: _ | _ :: _, [] => true
  | a :: p, b :: q =>
      if is_wild a then is_empty b && (length q =? 0)%nat
      else if is_wild b then is_empty a && (length p =? 0)%nat
      else if is_param a then (negb (is_param b) && is_empty b) || disjoint_pats p q
      else if is_param b then is_empty a || disjoint_pats p q
      else negb (beq a b) || disjoint_pats p q
  end.

Lemma disjoint_pats_sound p q segs : disjoint_pats p q = true -> is_Some (match_path p segs) -> match_path q segs = None.
Proof.
  revert q segs. induction p as [|a p IH]; intros [|b q] [|s segs]; cbn [disjoint_pats match_path]; try done; try by intros _ [].
  fold (is_wild a) (is_wild b) (is_param a) (is_param b).
  assert (Hnil : forall c : bytes, is_empty c = true -> c = []) by (by intros []).
  destruct (is_wild a) eqn:Wa.
  { intros [->%Hnil Hq]%andb_true_iff. apply Nat.eqb_eq, length_zero_iff_nil in Hq as ->. cbn.
    destruct s; [|done]. destruct segs; [by intros []|done]. }
  destruct (is_wild b) eqn:Wb.
  { intros [->%Hnil Hp]%andb_true_iff. apply Nat.eqb_eq, length_zero_iff_nil in Hp as ->. cbn.
    destruct s; [|by intros []]. destruct segs; [done|by intros []]. }
  assert (Hrest : disjoint_pats p q = true -> is_Some (match_path p segs) -> match_path q segs = None) by apply IH.
  assert (Hcons : is_Some (cons s <$> match_path p segs) -> is_Some (match_path p segs)) by (by rewrite fmap_is_Some).
  destruct (is_param a), (is_param b); cbn [negb andb orb].
  - destruct (is_empty s); [done|]. intros H1 H2. by rewrite Hrest by auto.
  - destruct (beq b s) eqn:Eb; [|done]. apply beq_true in Eb as ->.
    destruct (is_empty s); [by intros _ []|]. cbn [orb]. auto.
  - destruct (beq a s) eqn:Ea; [|by intros _ []]. apply beq_true in Ea as ->.
    destruct (is_empty s); [done|]. cbn [orb]. intros H1 H2. by rewrite Hrest by auto.
  - destruct (beq a s) eqn:Ea; [|by intros _ []]. apply beq_true in Ea as ->. destruct (beq b s) eqn:Eb; [|done].
    apply beq_true in Eb as ->. rewrite beq_refl. cbn [negb orb]. auto.
Qed.

Fixpoint pairwise_disjoint (ps : list (list bytes)) : bool :=
  match ps with [] => true | p :: r => forallb (disjoint_pats p) r && pairwise_disjoint r end.
Definition all_routes : list (bytes * list on) := public ++ protected.

(** At most one route has a path: neither the order of the table nor the priority of axum
    between literals and parameters matters. *)
Lemma one_route (table : list (bytes * list on)) path : pairwise_disjoint ((fun r => split 47 r.1) <$> table) = true ->
  (length (omap (fun r => matches r.1 path) table) <= 1)%nat.
Proof.
  induction table as [|r table IH]; cbn [fmap list_fmap pairwise_disjoint]; [intros _; cbn; lia|].
  intros [Hr Ht]%andb_true_iff. specialize (IH Ht). cbn [omap list_omap].
  destruct (matches r.1 path) as [ps|] eqn:E; [|exact IH].
  assert (Hn : omap (fun r : bytes * list on => matches r.1 path) table = []); [|change (length (ps :: omap (fun r : bytes * list on => matches r.1 path) table) <= 1)%nat; rewrite Hn; cbn; lia].
  clear IH Ht. induction table as [|r' table IH']; [done|]. cbn [fmap list_fmap forallb] in Hr. apply andb_true_iff in Hr as [H1 H2].
  cbn [omap list_omap]. unfold matches at 1. rewrite (disjoint_pats_sound _ _ _ H1); [by apply IH'|]. by exists ps.
Qed.
Lemma table_unambiguous path : (length (omap (fun r => matches r.1 path) all_routes) <= 1)%nat.
Proof. apply one_route. vm_compute. reflexivity. Qed.

(** ** Who reaches a handler *)

Lemma route_in table path ons ps :
  route_of table path = Some (ons, ps) -> exists pat, (pat, ons) ∈ table /\ matches pat path = Some ps.
Proof.
  unfold route_of. intros H. apply head_Some_elem_of, list_elem_of_omap in H as ([pat ons'] & Hin & Hm).
  apply fmap_Some in Hm as (ps' & Hm & [= -> ->]). by exists pat.
Qed.
Lemma match_literal p segs ps : forallb (fun s => negb (is_param s)) p = true -> match_path p segs = Some ps -> segs = p /\ ps = [].
Proof.
  revert segs ps. induction p as [|a p IH]; intros [|s segs] ps; cbn [forallb match_path]; try done; [by intros _ [= <-]|].
  fold (is_wild a) (is_param a). intros [Ha Hp]%andb_true_iff. destruct (is_param a) eqn:Ea; [done|].
  assert (Hw : is_wild a = false).
  { destruct (is_wild a) eqn:Ew; [|done]. unfold is_wild in Ew. apply starts_with_true in Ew as (r & ->).
    assert (is_param (B "{*" ++ r) = true) by (apply starts_with_true; by exists (B "*" ++ r)). congruence. }
  rewrite Hw. destruct (beq a s) eqn:Eb; [|done]. apply beq_true in Eb as ->. intros H. destruct (IH _ _ Hp H) as [-> ->]. done.
Qed.
Lemma literal_path pat path ps :
  forallb (fun s => negb (is_param s)) (split 47 pat) = true -> matches pat path = Some ps -> path = pat /\ ps = [].
Proof.
  intros Hl Hm. destruct (match_literal _ _ _ Hl Hm) as [H ->]. split; [|done].
  by rewrite <- (join_split 47 path), H, join_split.
Qed.

Definition public_doors : list (bytes * handler) :=
  [(B "/healthz", Hhealthz); (B "/health/liveness", Hhealth_liveness); (B "/health/readiness", Hhealth_readiness);
   (B "/v1/webhooks/slack/interactions", Hslack_interactions)].
Lemma public_route path ons ps method h i i' :
  route_of public path = Some (ons, ps) -> dispatch ons ps method i = Runs h ps i' -> (path, h) ∈ public_doors.
Proof.
  intros (pat & Hin & Hm)%route_in Hd.
  assert (Hl : forallb (fun s => negb (is_param s)) (split 47 pat) = true).
  { assert (Hall : forallb (fun r : bytes * list on => forallb (fun s => negb (is_param s)) (split 47 r.1)) public = true) by (by vm_compute).
    rewrite forallb_forall in Hall. by apply (Hall (pat, ons)), list_elem_of_In. }
  destruct (literal_path _ _ _ Hl Hm) as [-> ->]. unfold dispatch in Hd.
  destruct (head (omap (on_method method) ons)) as [h'|] eqn:Eh; [|done]. injection Hd as <- _.
  apply head_Some_elem_of, list_elem_of_omap in Eh as (o & Ho & Eo).
  assert (Hon : forall m g, o = On m g \/ o = Any g -> h' = g).
  { intros m g [->| ->]; cbn in Eo; [destruct (beq m method); congruence|congruence]. }
  unfold public in Hin. repeat (apply elem_of_cons in Hin as [[= -> ->]|Hin]); [..|by apply not_elem_of_nil in Hin];
    unfold get, post in Ho; repeat (apply elem_of_cons in Ho as [->|Ho]); try by apply not_elem_of_nil in Ho.
  all: rewrite (Hon _ _ (or_introl eq_refl)); unfold public_doors; set_solver.
Qed.

(** C12: A request runs a handler only in two ways.  Either its path is one of the four public
    ones, to the letter: two probes, the liveness string and Slack's callback, which checks its
    own signature; or it carries a bearer token the layer accepts, and the handler is given the
    identity of that token.  Everything else under the API, the MCP server, the tunnels and the
    administration included, is behind the layer: without such a token no handler runs,
    whatever the path and the method. *)
Theorem api_guarded lib auth method path authorization fetched auth' h params identity :
  router lib auth method path authorization fetched = (auth', Runs h params identity) ->
  match identity with
  | None => (path, h) ∈ public_doors
  | Some (user, claims) =>
      require_auth lib auth authorization fetched = (auth', Passed user claims) /\ ~ ((path, h) ∈ public_doors) /\
      exists jwks trusted token, auth' = Configured jwks trusted /\ authorization = Some (B "Bearer " ++ token) /\
        validate_token lib token trusted.(Auth.issuer) trusted.(Auth.audience) jwks = Ok claims
  end.
Proof.
  unfold router. destruct (route_of public path) as [[ons ps]|] eqn:Ep.
  - intros [= <- Hd]. assert (Hi : identity = None /\ params = ps) by (unfold dispatch in Hd; case_match; [by injection Hd as <- <- <-|done]).
    destruct Hi as [-> ->]. by eapply public_route.
  - destruct (route_of protected path) as [[ons ps]|]; [|done].
    destruct (require_auth lib auth authorization fetched) as [auth1 [status|user claims]] eqn:Er; [done|].
    intros [= <- Hd]. assert (Hi : identity = Some (user, claims)) by (unfold dispatch in Hd; case_match; [by injection Hd as <- <- <-|done]).
    subst identity. apply require_auth_passed in Er as Hp. destruct Hp as (jwks & trusted & token & -> & -> & Hv & _).
    split_and!; [done| |by eexists _, _, _].
    unfold public_doors. intros Hin. repeat (apply elem_of_cons in Hin as [[= -> ->]|Hin]); [..|by apply not_elem_of_nil in Hin];
      (exfalso; revert Ep; vm_compute; discriminate).
Qed.

(** ** The requests of the command line *)

Definition route_at (table : list (bytes * list on)) (segs : list bytes) : option (list on * list bytes) :=
  head (omap (fun r => (fun ps => (r.2, ps)) <$> match_path (split 47 r.1) segs) table).
Lemma route_of_at table path : route_of table path = route_at table (split 47 path).
Proof. done. Qed.

(** The path of a URL, as an HTTP client puts it in the request. *)
Definition url_path (url : bytes) : option bytes :=
  '(_, rest) ← split_once 58 url;
  rest ← strip_prefix (B "//") rest;
  '(_, p) ← split_once 47 rest;
  Some (47 :: match split_once 63 p with Some (p, _) => p | None => p end).
Definition method_name (m : http_method) : bytes := match m with GET => B "GET" | POST => B "POST" | DELETE => B "DELETE" end.

(** What the commands send, where it must arrive, and with which parameters; the transport of
    [mcp serve] posts its messages to one address, opens its stream of events and ends its
    session there. *)
Definition cli_calls (url name id : bytes) d r egress tools owner_group decision reason (port : Z)
  : list (bytes * bytes * handler * list bytes) :=
  let call (c : http_method * bytes * option json) h ps := (method_name c.1.1, c.1.2, h, ps) in
  [call (list_workshops_request url) Hlist_workshops [];
   call (get_workshop_request url name) Hget_workshop [name];
   call (delete_workshop_request url name) Hdelete_workshop [name];
   call (action_request url name (B "suspend")) Hsuspend_workshop [name];
   call (action_request url name (B "resume")) Hresume_workshop [name];
   call (create_workshop_request url name d r egress tools owner_group) Hcreate_workshop [];
   call (approvals_request url name) Hlist_approvals [name];
   call (decision_request url id decision reason) Hdecide_approval [id];
   (B "GET", ws_url url name port, Hportforward, [name])]
  ++ ((fun method => (method, mcp_url url, Hmcp, [])) <$> [B "POST"; B "GET"; B "DELETE"]).

(** A server's address: a scheme, a host, perhaps slashes the client takes off. *)
Definition api_address (url : bytes) : Prop :=
  exists scheme authority slashes, url = scheme ++ B "://" ++ authority ++ slashes /\ (scheme = B "http" \/ scheme = B "https") /\
    authority <> [] /\ ~ (47 ∈ authority) /\ Forall (eq 47) slashes.

Lemma authority_kept scheme authority slashes : authority <> [] -> 47 ∉ authority -> Forall (eq 47) slashes ->
  base_url (scheme ++ B "://" ++ authority ++ slashes) = scheme ++ B "://" ++ authority.
Proof.
  intros Hne Hn Hs. unfold base_url. rewrite !app_assoc. rewrite trim_end_matches_app by (eapply Forall_impl; [exact Hs|]; by intros ? <-).
  apply trim_end_matches_id. intros b Hb. apply Z.eqb_neq. intros <-. rewrite !last_app in Hb.
  destruct (last authority) eqn:E; [|by apply last_None in E]. injection Hb as ->. by apply last_Some_elem_of in E.
Qed.
Lemma scheme_no_colon scheme : scheme = B "http" \/ scheme = B "https" \/ scheme = B "ws" \/ scheme = B "wss" -> 58 ∉ scheme.
Proof. intros [->|[->|[->| ->]]]; set_solver. Qed.
Lemma url_path_of scheme authority p q : 58 ∉ scheme -> 47 ∉ authority -> 63 ∉ p ->
  url_path (scheme ++ B "://" ++ authority ++ 47 :: p ++ q) = Some (47 :: p ++ match split_once 63 q with Some (q, _) => q | None => q end).
Proof.
  intros Hs Ha Hp. unfold url_path. change (B "://" ++ authority ++ 47 :: p ++ q) with (58 :: B "//" ++ authority ++ 47 :: p ++ q).
  rewrite split_once_app by done. cbn [mbind option_bind]. rewrite strip_prefix_app. cbn [mbind option_bind].
  rewrite split_once_app by done. cbn [mbind option_bind]. do 2 f_equal.
  destruct (split_once 63 q) as [[q1 q2]|] eqn:Eq.
  - apply split_once_Some in Eq as [-> Hn]. rewrite app_assoc, split_once_app; [done|]. rewrite not_elem_of_app. split; done.
  - apply split_once_None in Eq. rewrite (proj2 (split_once_None 63 (p ++ q))); [done|]. rewrite not_elem_of_app. split; done.
Qed.

(** The scheme of a websocket is the one of the address. *)
Lemma ws_base scheme authority slashes name port :
  scheme = B "http" \/ scheme = B "https" -> authority <> [] -> 47 ∉ authority -> Forall (eq 47) slashes ->
  exists scheme', (scheme' = B "ws" \/ scheme' = B "wss") /\
    ws_url (scheme ++ B "://" ++ authority ++ slashes) name port =
    scheme' ++ B "://" ++ authority ++ B "/v1/workshops/" ++ name ++ B "/portforward?ports=" ++ dec port.
Proof.
  intros Hs Hne Hn Hsl.
  assert (H : forall s', base_url ((s' ++ B "://") ++ authority ++ slashes) = (s' ++ B "://") ++ authority).
  { intros s'. rewrite <- !app_assoc. by apply authority_kept. }
  destruct Hs as [->| ->].
  - exists (B "ws"). split; [by left|]. unfold ws_url.
    change (strip_prefix (B "https://") (B "http" ++ B "://" ++ authority ++ slashes)) with (None : option bytes).
    change (B "http" ++ B "://" ++ authority ++ slashes) with (B "http://" ++ authority ++ slashes). rewrite strip_prefix_app.
    change (B "ws://") with (B "ws" ++ B "://"). rewrite H. by rewrite <- !app_assoc.
  - exists (B "wss"). split; [by right|]. unfold ws_url.
    change (B "https" ++ B "://" ++ authority ++ slashes) with (B "https://" ++ authority ++ slashes). rewrite strip_prefix_app.
    change (B "wss://") with (B "wss" ++ B "://"). rewrite H. by rewrite <- !app_assoc.
Qed.

Definition plain_segment (s : bytes) : Prop := s <> [] /\ ~ (47 ∈ s) /\ ~ (63 ∈ s).
Lemma dns_label_segment name : dns_label name -> plain_segment name.
Proof.
  intros (Hl & Hc & _). split_and!; [by intros ->; cbn in Hl; lia|intros H; by apply (proj1 (Forall_forall _ _) Hc) in H..].
Qed.

Lemma client_path url p : api_address url -> 63 ∉ p -> url_path (client_url url (47 :: p)) = Some (47 :: p).
Proof.
  intros (scheme & authority & slashes & -> & Hs & Hne & Hn & Hsl) Hp. unfold client_url. rewrite authority_kept by done.
  rewrite <- !app_assoc.  rewrite <- (app_nil_r p) at 1.
  rewrite url_path_of; [cbn; by rewrite app_nil_r|apply scheme_no_colon; tauto|done..].
Qed.
Lemma tunnel_path url name port : api_address url -> plain_segment name ->
  url_path (ws_url url name port) = Some (B "/v1/workshops/" ++ name ++ B "/portforward").
Proof.
  intros (scheme & authority & slashes & -> & Hs & Hne & Hn & Hsl) (_ & _ & Hq).
  destruct (ws_base scheme authority slashes name port) as (scheme' & Hs' & ->); [done..|].
  assert (Hp : 63 ∉ B "v1/workshops/" ++ name ++ B "/portforward") by (rewrite !not_elem_of_app; split_and!; [|done|]; vm_compute; set_solver).
  change (B "/v1/workshops/" ++ name ++ B "/portforward?ports=" ++ dec port) with (47 :: B "v1/workshops/" ++ name ++ B "/portforward" ++ B "?ports=" ++ dec port).
  replace (B "v1/workshops/" ++ name ++ B "/portforward" ++ B "?ports=" ++ dec port)
    with ((B "v1/workshops/" ++ name ++ B "/portforward") ++ B "?ports=" ++ dec port) by (by rewrite <- !app_assoc).
  rewrite url_path_of; [|apply scheme_no_colon; tauto|done..].
  change (split_once 63 (B "?ports=" ++ dec port)) with (Some ([] : bytes, B "ports=" ++ dec port)). cbn [app]. by rewrite app_nil_r.
Qed.
Lemma split_segment s : plain_segment s -> split 47 s = [s].
Proof. intros (_ & Hn & _). apply split_by_none. intros b Hb. apply Z.eqb_neq. by intros <-. Qed.

(** The segments of the paths, and that nothing in them starts a query. *)
Lemma below_segments prefix s suffix : plain_segment s -> split 47 (prefix ++ 47 :: s ++ 47 :: suffix) = split 47 prefix ++ s :: split 47 suffix.
Proof. intros H. by rewrite split_app_sep, split_app_sep, (split_segment s H). Qed.
Lemma last_segment prefix s : plain_segment s -> split 47 (prefix ++ 47 :: s) = split 47 prefix ++ [s].
Proof. intros H. by rewrite split_app_sep, (split_segment s H). Qed.
Lemma no_query prefix s suffix : plain_segment s -> 63 ∉ prefix -> 63 ∉ suffix -> 63 ∉ prefix ++ s ++ suffix.
Proof. intros (_ & _ & H) ? ?. rewrite !not_elem_of_app. tauto. Qed.

Section arrives.
Context (lib : JwtLib) (auth auth' : AuthState) (authorization : option bytes) (fetched : res JwkSet) (user : AuthenticatedUser) (claims : Claims).
Hypothesis Hauth : require_auth lib auth authorization fetched = (auth', Passed user claims).

(** A request that arrives at a handler with these parameters. *)
Definition reaches (method target : bytes) (h : handler) (ps : list bytes) : Prop :=
  exists path, url_path target = Some path /\ router lib auth method path authorization fetched = (auth', Runs h ps (Some (user, claims))).

Lemma path_reaches method target path ons ps h :
  url_path target = Some path -> route_at public (split 47 path) = None -> route_at protected (split 47 path) = Some (ons, ps) ->
  head (omap (on_method method) ons) = Some h -> reaches method target h ps.
Proof using Hauth.
  intros Hp H1 H2 H3. exists path. split; [done|]. unfold router. rewrite !route_of_at, H1, H2, Hauth. unfold dispatch. by rewrite H3.
Qed.

Context (url : bytes) (Hurl : api_address url).
Lemma leaf_reaches method prefix s ons ps h : plain_segment s -> bool_decide (63 ∈ prefix) = false ->
  route_at public (split 47 (47 :: prefix) ++ [s]) = None -> route_at protected (split 47 (47 :: prefix) ++ [s]) = Some (ons, ps) ->
  head (omap (on_method method) ons) = Some h -> reaches method (client_url url (47 :: prefix ++ 47 :: s)) h ps.
Proof using Hauth Hurl.
  intros Hs Hp%bool_decide_eq_false_1 H1 H2 H3.
  assert (Hq : 63 ∉ prefix ++ 47 :: s) by (destruct Hs as (_ & _ & Hs); rewrite not_elem_of_app, not_elem_of_cons; by split_and!).
  eapply path_reaches; [by apply client_path| | |done]; change (47 :: prefix ++ 47 :: s) with ((47 :: prefix) ++ 47 :: s); by rewrite last_segment.
Qed.
Lemma below_reaches method prefix s suffix ons ps h : plain_segment s -> bool_decide (63 ∈ prefix) = false -> bool_decide (63 ∈ suffix) = false ->
  route_at public (split 47 (47 :: prefix) ++ s :: split 47 suffix) = None ->
  route_at protected (split 47 (47 :: prefix) ++ s :: split 47 suffix) = Some (ons, ps) ->
  head (omap (on_method method) ons) = Some h -> reaches method (client_url url (47 :: prefix ++ 47 :: s ++ 47 :: suffix)) h ps.
Proof using Hauth Hurl.
  intros Hs Hp%bool_decide_eq_false_1 Hp'%bool_decide_eq_false_1 H1 H2 H3.
  assert (Hq : 63 ∉ prefix ++ 47 :: s ++ 47 :: suffix)
    by (destruct Hs as (_ & _ & Hs); rewrite !not_elem_of_app, !not_elem_of_cons, !not_elem_of_app, !not_elem_of_cons; by split_and!).
  eapply path_reaches; [by apply client_path| | |done]; change (47 :: prefix ++ 47 :: s ++ 47 :: suffix) with ((47 :: prefix) ++ 47 :: s ++ 47 :: suffix);
    by rewrite below_segments.
Qed.
End arrives.


(** Names go into the paths as they are typed: the deletion of a Workshop named like a path
    below another is the deletion of that one's credential. *)
Lemma cli_name_escapes lib auth auth' authorization fetched user claims url :
  require_auth lib auth authorization fetched = (auth', Passed user claims) -> api_address url ->
  reaches lib auth auth' authorization fetched user claims (B "DELETE")
    (delete_workshop_request url (B "demo/credentials/api.stripe.com")).1.2 Hdelete_credential [B "demo"; B "api.stripe.com"].
Proof.
  intros Hauth Hurl.
  eapply path_reaches; [done|apply (client_path url (B "v1/workshops/demo/credentials/api.stripe.com") Hurl); by apply (bool_decide_eq_false_1 _)|by vm_compute..].
Qed.

(** ** The handler of a command *)

Record RunBody := mkRunBody {
  rb_command : bytes; rb_working_dir : option bytes; rb_env : btree; rb_timeout_seconds : option Z; rb_max_output_bytes : option Z }.
Record RunResponse := mkRunResponse {
  rr_exit_code : option Z; rr_signal : option bytes; rr_timed_out : bool; stdout_base64 : bytes; stderr_base64 : bytes;
  rr_stdout_truncated : bool; rr_stderr_truncated : bool; duration_ms : Z }.

(** A session on the guest: the tunnel does not open, the session does not, or the channel
    takes the script and says this. *)
Inductive ssh_session := NoTunnel | SshFailed | Session (started : Z) (closes : option Z) (events : list (Z * ChannelMsg)).

(** The request with the session's variables, which do not replace the call's, and its account. *)
Definition in_session (d : SessionDefaults) (r : RunRequest) : RunRequest :=
  mkRun (user_exports d ++ r.(command)) r.(working_dir) (r.(env_vars) ∪ d.(sd_env)) r.(timeout_secs) r.(max_output).

Lemma ceiling_positive env : 0 < timeout_ceiling_secs env.
Proof. unfold timeout_ceiling_secs. repeat case_match; lia. Qed.

Lemma btree_iter_elem (m : btree) n v : (n, v) ∈ btree_iter m <-> m !! n = Some v.
Proof. by rewrite btree_iter_perm, elem_of_map_to_list. Qed.
(** The variables a session adds have names the shell takes for names. *)
Lemma session_env_names w r :
  Forall (fun kv => is_env_name kv.1 = true) (btree_iter r.(env_vars)) ->
  Forall (fun kv => is_env_name kv.1 = true) (btree_iter (in_session (session_defaults w) r).(env_vars)).
Proof.
  rewrite !Forall_forall. intros H [n v] Hin%btree_iter_elem. cbn [in_session env_vars] in Hin.
  apply lookup_union_Some_raw in Hin as [Hin|[_ Hin]]; [by apply (H (n, v)), btree_iter_elem|].
  unfold session_defaults, session_of in Hin. destruct (w_session w); cbn in Hin; [|done].
  by apply map_lookup_filter_Some in Hin as [_ [Hn _]].
Qed.

Section run.
Context {K : Type} `{KA : !KubeApi K} {S : Type} (tr : server S) (read_file : bytes -> option bytes).
Context (base64 : bytes -> bytes) (ssh : bytes -> Z -> bytes -> bytes -> ssh_session) (env : string -> option bytes).

(** [impl From<RunOutcome> for RunResponse]; durations are in milliseconds. *)
Definition response_of (o : RunOutcome) : RunResponse :=
  mkRunResponse o.(exit_code) o.(signal) o.(timed_out) (base64 o.(stdout)) (base64 o.(stderr)) o.(stdout_truncated)
    o.(stderr_truncated) o.(duration).

Definition run_handler (k : K) (s : S) (session : option SessionAuthClient) (user : AuthenticatedUser) (name : bytes) (body : RunBody)
    (now now' : Z) : S * option SessionAuthClient * api RunResponse :=
  match run_request_new (timeout_ceiling_secs env) body.(rb_command) body.(rb_working_dir) body.(rb_env) body.(rb_timeout_seconds)
          body.(rb_max_output_bytes) with
  | Err message => (s, session, AErr (bad_request message))
  | Panic => (s, session, AErr internal_error)
  | Ok request =>
      match (workshop ← owned k user name; pod_ip ← resolve_running_pod_ip k workshop; AOk (workshop, pod_ip)) with
      | AErr e => (s, session, AErr e)
      | AOk (workshop, pod_ip) =>
          let d := session_defaults workshop in
          let request := in_session d request in
          match session with
          | None => (s, session, AErr (service_unavailable "OPENBAO_ADDR non configure : exec indisponible (aucune cle SSH accessible)"))
          | Some c =>
              let '(s, c, key) := ssh_private_key tr read_file c s name now now' in
              match key with
              | None => (s, Some c, AErr (service_unavailable "cle SSH indisponible pour ce Workshop"))
              | Some key =>
                  (s, Some c,
                   match ssh pod_ip (ssh_port env (w_ports workshop)) key (script request d.(sd_dir)) with
                   | NoTunnel => AErr (bad_gateway "connexion au guest impossible")
                   | SshFailed => AErr (bad_gateway "canal SSH en echec")
                   | Session started closes events => AOk (response_of (run_over request started closes events))
                   end)
              end
          end
      end
  end.

Lemma session_script_lexed w r dir : 0 <= r.(timeout_secs) -> Forall (fun kv => is_env_name kv.1 = true) (btree_iter r.(env_vars)) ->
  lex None false (script (in_session (session_defaults w) r) dir) = Some (script_tokens (in_session (session_defaults w) r) dir).
Proof using Type.
  intros Ht He. unfold script, script_tokens. apply lex_cd, lex_exports; [by apply session_env_names|]. by apply lex_exec.
Qed.

(** C17: A command that is answered ran where and as it was asked.  The caller belongs to the
    group of the Workshop; the script its guest was given, at the address of its pod and the
    port of its [sshd], is read by the shell as the [cd], one [export] per variable and one
    command, which is the caller's after the account's variables; the caller's variables win
    over the session's; and the answer is the first bytes of what the command wrote on each
    stream, up to the limit asked for and at most 8 MiB, within the time asked for and the
    ceiling. *)
Theorem exec_answer k s session user name body now now' s' session' resp :
  run_handler k s session user name body now now' = (s', session', AOk resp) ->
  (forall t, body.(rb_timeout_seconds) = Some t -> 0 <= t) ->
  exists w pod_ip key started closes events r,
    kube_view k !! name = Some w /\ w.(w_spec).(owner_group) ∈ user.(groups) /\ resolve_running_pod_ip k w = AOk pod_ip /\
    let d := session_defaults w in
    ssh pod_ip (ssh_port env (w_ports w)) key (script r d.(sd_dir)) = Session started closes events /\
    lex None false (script r d.(sd_dir)) = Some (script_tokens r d.(sd_dir)) /\
    r.(command) = user_exports d ++ body.(rb_command) /\ r.(working_dir) = body.(rb_working_dir) /\
    (forall n, r.(env_vars) !! n = match body.(rb_env) !! n with Some v => Some v | None => d.(sd_env) !! n end) /\
    0 < r.(timeout_secs) <= timeout_ceiling_secs env /\ r.(max_output) <= MAX_OUTPUT_BYTES /\
    let deadline := started + r.(timeout_secs) * 1000 + KILL_GRACE_SECS * 1000 + SERVER_MARGIN in
    let limit := Z.to_nat r.(max_output) in
    resp.(stdout_base64) = base64 (take limit (received out_data events deadline)) /\
    resp.(stderr_base64) = base64 (take limit (received err_data events deadline)) /\
    resp.(rr_stdout_truncated) = (limit <? length (received out_data events deadline))%nat /\
    resp.(rr_stderr_truncated) = (limit <? length (received err_data events deadline))%nat /\
    (resp.(rr_timed_out) = true -> resp.(rr_exit_code) = None /\ resp.(rr_signal) = None).
Proof using Type.
  unfold run_handler. intros H Ht. destruct (run_request_new _ _ _ _ _ _) as [r|m|] eqn:Er; [|done..].
  apply run_request_inv in Er as (Hr & Hne & Henv).
  destruct (owned k user name) as [w|e] eqn:Eo; cbn [mbind api_bind] in H; [|done].
  destruct (resolve_running_pod_ip k w) as [ip|e] eqn:Ei; cbn [mbind api_bind] in H; [|done].
  destruct session as [c|]; [|done]. destruct (ssh_private_key tr read_file c s name now now') as [[s1 c1] [key|]]; [|done].
  destruct (ssh ip _ key _) as [| |started closes events] eqn:Es; [done..|]. injection H as <- <- <-.
  apply owned_view in Eo as [Hv Hg]. pose proof (ceiling_positive env) as Hc.
  assert (Hpos : 0 <= default DEFAULT_TIMEOUT_SECS (rb_timeout_seconds body)) by (destruct (rb_timeout_seconds body); cbn; [by apply Ht|done]).
  assert (Htr : 0 < r.(timeout_secs) <= timeout_ceiling_secs env) by (subst r; cbn; lia).
  pose proof (run_over_spec (in_session (session_defaults w) r) started closes events) as Ho. cbn zeta in Ho.
  destruct Ho as (O1 & O2 & O3 & O4 & O5 & _).
  exists w, ip, key, started, closes, events, (in_session (session_defaults w) r). cbn zeta.
  split_and!; [done|done|done|exact Es| | | | |exact (proj1 Htr)|exact (proj2 Htr)| |exact (f_equal base64 O1)|exact (f_equal base64 O3)|exact O2|exact O4|exact O5].
  - apply session_script_lexed; [lia|]. by subst r.
  - by subst r.
  - by subst r.
  - intros n. cbn [in_session env_vars]. subst r. cbn [env_vars]. rewrite lookup_union. by destruct (rb_env body !! n), (sd_env _ !! n).
  - subst r. cbn. lia.
Qed.
End run.

(** ** Witnesses *)

Definition toy_layer : AuthState := Configured [toy_key (B "k1")] toy_issuer.
Definition toy_claims : Claims := mkClaims (B "alice") None None (Some [B "team"]) None.
Lemma api_guarded_witness :
  exists jwks trusted token, toy_layer = Configured jwks trusted /\ token = B "k1|alice" /\
    validate_token toy_jwt token trusted.(Auth.issuer) trusted.(Auth.audience) jwks = Ok toy_claims.
Proof.
  destruct (api_guarded toy_jwt toy_layer (B "GET") (B "/v1/workshops/demo/vscode/x") (Some (B "Bearer k1|alice")) (Err "x") toy_layer
    Hvscode_proxy [B "demo"; B "x"] (Some (mkUser (B "alice") [B "team"], toy_claims))) as (_ & _ & jwks & trusted & token & H1 & H2 & H3);
    [vm_compute; reflexivity|].
  exists jwks, trusted, token. split_and!; [exact H1| |exact H3]. injection H2 as H2. exact (eq_sym H2).
Defined.

Definition toy_running : Workshop := mkWorkshop (B "demo") (toy_spec (B "team")) (Some (mkSeen (Some (B "demo-parent")) None None JNull)).
Definition toy_ssh (pod : bytes) (port : Z) (key script : bytes) : ssh_session :=
  Session 0 None [(10, Data (B "hi")); (20, ExitStatus 0); (30, Close)].
Lemma exec_answer_witness :
  exists w pod_ip key r, (kube_view ({[B "demo" := toy_running]} : toy_kube)) !! B "demo" = Some w /\
    toy_ssh pod_ip 2222 key (script r (session_defaults w).(sd_dir)) = toy_ssh [] 0 [] [] /\ r.(command) = B "echo hi".
Proof.
  destruct (exec_answer (K := toy_kube) toy_server (fun _ => Some (B "jwt")) (fun x => x) toy_ssh (fun _ => None) {[B "demo" := toy_running]}
    {[secret_id (B "demo") (B "ssh_key") := {[B "privateKey" := B "k"]}]} (Some toy_session) alice (B "demo")
    (mkRunBody (B "echo hi") None ∅ None None) 0 0
    {[secret_id (B "demo") (B "ssh_key") := {[B "privateKey" := B "k"]}]}
    (Some (mkSession (mkClient [] API_SERVER_OPENBAO_ROLE []) (Some (toy_token, 0)) ∅))
    (mkRunResponse (Some 0) None false (B "hi") [] false false 30))
    as (w & ip & key & st & cl & ev & r & Hw & _ & _ & _ & _ & Hc & _); [vm_compute; reflexivity|discriminate|].
  exists w, ip, key, r. split_and!; [exact Hw|reflexivity|]. rewrite Hc.
  assert (Hs : Some toy_running = Some w) by (rewrite <- Hw; reflexivity). injection Hs as <-. reflexivity.
Defined.
