(* ===== verification/KvmPlugin.v ===== *)
(** The device plugin of the nodes ([src/crates/kvm-device-plugin/src/main.rs]): what it
    announces to the kubelet, how it watches [/dev/kvm], and what it hands out.

    The health goes from the task that probes the device to the streams the kubelet reads
    through a [tokio::sync::watch] channel: a value with a version, and for each receiver the
    version it has seen.  [borrow] reads the value without marking it seen; [changed] waits for
    a version that was not seen, and marks it.  The steps of the tasks interleave freely. *)

From stdpp Require Import relations.
From S2P Require Import Prelude RustStr.

(** ** Configuration *)

Section config.
Context (env : string -> option bytes).
Definition resource_name : bytes := default (B "atelier.dev/kvm") (env "ATELIER_KVM_RESOURCE_NAME"%string).
Definition device_count : Z := default 32 (env "ATELIER_KVM_DEVICE_COUNT"%string ≫= parse_u64).
Definition kvm_path : bytes := default (B "/dev/kvm") (env "ATELIER_KVM_DEVICE_PATH"%string).
Definition tun_path : bytes := default (B "/dev/net/tun") (env "ATELIER_TUN_DEVICE_PATH"%string).
Definition device_ids : list bytes := (fun i => B "kvm-" ++ dec i) <$> seqZ 0 device_count.
End config.

(** ** What is handed out *)

Record DeviceSpec := mkDeviceSpec { container_path : bytes; host_path : bytes; permissions : bytes }.
Record Device := mkDevice { dev_id : bytes; dev_health : bytes }.
Record KvmDevicePlugin := mkPlugin { pl_device_ids : list bytes; pl_kvm_path : bytes; pl_tun_path : bytes }.
Definition plugin_of (env : string -> option bytes) : KvmDevicePlugin := mkPlugin (device_ids env) (kvm_path env) (tun_path env).

(** [fn allocate]: one answer per container, whatever the identifiers. *)
Definition allocate (p : KvmDevicePlugin) (container_requests : list (list bytes)) : list (list DeviceSpec) :=
  (fun _ => [mkDeviceSpec p.(pl_kvm_path) p.(pl_kvm_path) (B "rw"); mkDeviceSpec p.(pl_tun_path) p.(pl_tun_path) (B "rw")]) <$> container_requests.

(** ** The start *)

Definition PLUGIN_DIR : bytes := B "/var/lib/kubelet/device-plugins".
Definition ENDPOINT_FILE : bytes := B "atelier-kvm.sock".
Definition API_VERSION : bytes := B "v1beta1".
Definition endpoint_path : bytes := PLUGIN_DIR ++ B "/" ++ ENDPOINT_FILE.
Inductive start_step :=
| RemoveSocket (path : bytes) | Bind (path : bytes) | Serve | Sleep (ms : Z)
| Register (version endpoint resource : bytes) | Wait.
(** [fn main]; a step that fails ends the process, but the removal. *)
Definition main_steps (env : string -> option bytes) : list start_step :=
  [RemoveSocket endpoint_path; Bind endpoint_path; Serve; Sleep 200; Register API_VERSION ENDPOINT_FILE (resource_name env); Wait].

(** ** The health *)

Record watch := mkWatch { w_value : bool; w_version : nat }.
Definition send (w : watch) (v : bool) : watch := mkWatch v (S w.(w_version)).
(** A probe of [fn spawn_health_watcher]. *)
Definition probe (exists_ : bool) (w : watch) : watch := if Bool.eqb exists_ w.(w_value) then w else send w exists_.

Definition health_of (healthy : bool) : bytes := if healthy then B "Healthy" else B "Unhealthy".
Definition device_list (ids : list bytes) (healthy : bool) : list Device := (fun id => mkDevice id (health_of healthy)) <$> ids.

(** [fn list_and_watch]: a stream is about to read, or waits for a change. *)
Record list_stream := mkStream { ls_seen : nat; ls_reading : bool; ls_said : list (list Device) }.
(** A stream opens with the receiver of the plugin, which never waits: it has seen the version
    of the start. *)
Definition open_stream : list_stream := mkStream 0 true [].
Definition stream_step (ids : list bytes) (w : watch) (s : list_stream) : list_stream :=
  if s.(ls_reading) then mkStream s.(ls_seen) false (s.(ls_said) ++ [device_list ids w.(w_value)])
  else if bool_decide (s.(ls_seen) = w.(w_version)) then s
  else mkStream w.(w_version) true s.(ls_said).

(** The node: the channel, the last state of the device that was probed, the streams. *)
Record node := mkNode { n_watch : watch; n_probed : bool; n_streams : list list_stream }.
Definition start (exists_ : bool) : node := mkNode (mkWatch exists_ 0) exists_ [].
Inductive node_step (ids : list bytes) : node -> node -> Prop :=
| ns_probe n e : node_step ids n (mkNode (probe e n.(n_watch)) e n.(n_streams))
| ns_open n : node_step ids n (mkNode n.(n_watch) n.(n_probed) (n.(n_streams) ++ [open_stream]))
| ns_stream n i s : n.(n_streams) !! i = Some s ->
    node_step ids n (mkNode n.(n_watch) n.(n_probed) (<[i := stream_step ids n.(n_watch) s]> n.(n_streams))).

(** A stream never is ahead of the channel, and one that has seen its version has said its value. *)
Definition stream_ok (ids : list bytes) (w : watch) (s : list_stream) : Prop :=
  (s.(ls_seen) <= w.(w_version))%nat /\
  (s.(ls_reading) = false -> s.(ls_seen) = w.(w_version) -> last s.(ls_said) = Some (device_list ids w.(w_value))).
Definition node_ok (ids : list bytes) (n : node) : Prop :=
  w_value n.(n_watch) = n.(n_probed) /\ Forall (stream_ok ids n.(n_watch)) n.(n_streams).

Lemma stream_step_ok ids w s : stream_ok ids w s -> stream_ok ids w (stream_step ids w s).
Proof.
  intros [Hle Hsaid]. unfold stream_step. destruct (ls_reading s) eqn:Er.
  - split; cbn; [done|]. intros _ _. apply last_snoc.
  - destruct (bool_decide_reflect (ls_seen s = w_version w)); [by split; [|intros _; apply Hsaid]|]. split; cbn; [lia|done].
Qed.
Lemma probe_ok ids w e s : stream_ok ids w s -> stream_ok ids (probe e w) s.
Proof.
  intros [Hle Hsaid]. unfold probe. destruct (Bool.eqb e (w_value w)); [done|]. split; cbn; [lia|]. intros _ H. lia.
Qed.
Lemma node_invariant ids e n : rtc (node_step ids) (start e) n -> node_ok ids n.
Proof.
  intros H. assert (H0 : node_ok ids (start e)) by (split; [done|constructor]).
  induction H as [|n1 n2 n3 Hs _ IH]; [done|]. apply IH. destruct H0 as [Hv Hf]. destruct Hs as [n e'|n|n i s Hi]; split; cbn.
  - unfold probe. destruct (Bool.eqb_spec e' (w_value (n_watch n))); [by subst|done].
  - eapply Forall_impl; [exact Hf|]. intros s. apply probe_ok.
  - done.
  - apply Forall_app. split; [done|]. repeat constructor; cbn; [lia|done].
  - done.
  - apply Forall_insert; [done|]. apply stream_step_ok. by eapply Forall_lookup.
Qed.

(** Three steps are enough to fall idle. *)
Definition idle (w : watch) (s : list_stream) : Prop := s.(ls_reading) = false /\ s.(ls_seen) = w.(w_version).
Lemma idle_step ids w s : idle w s -> stream_step ids w s = s.
Proof. intros [H1 H2]. unfold stream_step. by rewrite H1, bool_decide_eq_true_2. Qed.
Lemma read_step ids w s : ls_seen s = w_version w -> idle w (stream_step ids w s).
Proof. intros H. unfold stream_step, idle. destruct (ls_reading s) eqn:Er; [done|]. by rewrite bool_decide_eq_true_2. Qed.
Lemma falls_idle ids w s : idle w (stream_step ids w (stream_step ids w (stream_step ids w s))).
Proof.
  assert (Hk : forall t, idle w t -> idle w (stream_step ids w t)) by (intros t Ht; by rewrite idle_step).
  destruct (decide (ls_seen s = w_version w)) as [He|He]; [by apply Hk, Hk, read_step|].
  assert (Hw : forall t, ls_reading t = false -> ls_seen t <> w_version w -> ls_seen (stream_step ids w t) = w_version w).
  { intros t H1 H2. unfold stream_step. by rewrite H1, bool_decide_eq_false_2. }
  destruct (ls_reading s) eqn:Er; [apply read_step, Hw|apply Hk, read_step, Hw]; try done; unfold stream_step; by rewrite Er.
Qed.

(** The kubelet knows the state of the device.  Whatever the interleaving of the probes, of
    the streams the kubelet opens and of their steps, a stream that is left three steps has
    last announced every device in the state the last probe found, however often it changed
    between the steps, and says nothing more until a probe finds another. *)
Theorem health_announced ids e n i s :
  rtc (node_step ids) (start e) n -> n.(n_streams) !! i = Some s ->
  let step := stream_step ids n.(n_watch) in
  let s' := step (step (step s)) in
  last s'.(ls_said) = Some (device_list ids n.(n_probed)) /\ step s' = s'.
Proof.
  intros Hr Hi step s'. destruct (node_invariant _ _ _ Hr) as [Hv Hf].
  assert (Hok : stream_ok ids (n_watch n) s) by (by eapply Forall_lookup).
  assert (Hidle : idle (n_watch n) s') by apply falls_idle.
  assert (Hok' : stream_ok ids (n_watch n) s') by (by repeat apply stream_step_ok).
  split; [|by apply idle_step]. destruct Hidle as [H1 H2], Hok' as [_ Hs]. rewrite <- Hv. by apply Hs.
Qed.

Lemma health_announced_witness :
  let n := mkNode (mkWatch false 1) false [open_stream] in
  rtc (node_step [B "kvm-0"]) (start true) n /\
  last (ls_said (stream_step [B "kvm-0"] (mkWatch false 1) (stream_step [B "kvm-0"] (mkWatch false 1) (stream_step [B "kvm-0"] (mkWatch false 1) open_stream)))) =
    Some [mkDevice (B "kvm-0") (B "Unhealthy")].
Proof.
  intros n. assert (Hr : rtc (node_step [B "kvm-0"]) (start true) n).
  { eapply rtc_l; [apply ns_open|]. eapply rtc_l; [apply (ns_probe _ _ false)|]. apply rtc_refl. }
  split; [exact Hr|]. exact (proj1 (health_announced [B "kvm-0"] true n 0 open_stream Hr eq_refl)).
Defined.

(** The devices announced have distinct names, as many as configured. *)
Lemma device_ids_distinct env : 0 <= device_count env <= U64_MAX -> NoDup (device_ids env) /\ Z.of_nat (length (device_ids env)) = device_count env.
Proof.
  intros Hc. split.
  - unfold device_ids. apply NoDup_fmap_2_strong; [|apply NoDup_seqZ]. intros x y Hx%elem_of_seqZ Hy%elem_of_seqZ Heq.
    apply (inj (app (B "kvm-"))) in Heq. apply (f_equal (from_str_radix 10 U64_MAX)) in Heq. rewrite !parse_dec in Heq by lia. by injection Heq.
  - unfold device_ids. rewrite length_fmap, length_seqZ. lia.
Qed.
