(* ===== verification/PodAccess.v ===== *)
(** What the containers of a Workshop's pod and of its build Job may touch
    ([fn ensure_parent_pod] and [fn ensure_image_build_job] in
    [src/crates/controller/src/reconcile.rs]): their mounts, their capabilities and their
    devices; how often a build is tried; and the start of mcp-gateway
    ([src/crates/mcp-gateway/src/main.rs]), which shares a socket with the microVM.

    Kubernetes is modelled by its documentation: a path of a container is a file of the volume
    mounted above it, a limit on a resource of a device plugin brings the devices the plugin
    allocates, a Job is retried up to its limit unless its failure policy says otherwise. *)

From S2P Require Import Prelude RustStr Json IdentityRules PodSpec Crd McpGateway Eviction Provision VmResources BuildJob PodTemplate KvmPlugin.

(** ** Containers *)

Record mount := mkMount { m_volume : bytes; m_path : bytes; m_read_only : bool }.
Record access := mkAccess { ac_mounts : list mount; ac_capabilities : list bytes; ac_limits : list (bytes * Z) }.
Definition plain_access (mounts : list mount) : access := mkAccess mounts [] [].

Definition KVM_DEVICE_PLUGIN_RESOURCE : bytes := B "atelier.dev/kvm".
Definition kvm_device_resources : list (bytes * Z) := [(KVM_DEVICE_PLUGIN_RESOURCE, 1)].
Definition firecracker_security_context : list bytes := [B "NET_ADMIN"; B "SYS_ADMIN"; B "SYS_RESOURCE"].
Definition cache_mount : mount := mkMount (B "cache") IMAGE_CACHE_MOUNT_PATH false.
Definition jailer_mount : mount := mkMount (B "jailer") JAILER_CHROOT_BASE_DIR false.
Definition tools_mount : mount := mkMount (B "tools") (B "/tools") false.
Definition vm_supervisor_access : access := mkAccess [cache_mount; jailer_mount] firecracker_security_context kvm_device_resources.
Definition net_proxy_access : access := plain_access [mkMount (B "egress-allowlist") EGRESS_DIR true].
Definition identity_proxy_access : access := plain_access [mkMount (B "injection-rules") INJECTION_RULES_DIR true].
Definition mcp_gateway_access : access := plain_access [jailer_mount].

(** The containers of the pod, in the order of [pod_template]. *)
Definition pod_access (spec : WorkshopSpec) : list (bytes * access) :=
  [(B "vm-supervisor", vm_supervisor_access); (B "net-proxy", net_proxy_access); (B "identity-proxy", identity_proxy_access);
   (B "mcp-gateway", mcp_gateway_access)]
  ++ (if bool_decide (B "enable_simulator" ∈ spec.(tools)) then [(B "simulator", plain_access [])] else [])
  ++ ((fun sim => (sim_name sim, plain_access [])) <$> spec.(simulators)).

(** The Job: its volumes, its init containers, its container. *)
Definition job_volumes (ca_bundle_configmap : option bytes) : list (bytes * volume_source) :=
  [(B "cache", ClaimVolume IMAGE_CACHE_PVC_NAME); (B "tools", EmptyDir)]
  ++ match ca_bundle_configmap with Some c => [(B "ca-bundle", ConfigMapVolume c)] | None => [] end.
Definition image_builder_access (ca_bundle_configmap : option bytes) : access :=
  mkAccess ([cache_mount; tools_mount] ++ match ca_bundle_configmap with Some _ => [mkMount (B "ca-bundle") (B "/etc/atelier/ca") true] | None => [] end)
    firecracker_security_context kvm_device_resources.
Definition job_access (ca_bundle_configmap : option bytes) : list (bytes * access) :=
  [(B "image-builder", image_builder_access ca_bundle_configmap); (B "net-proxy", plain_access []); (B "copy-tools", plain_access [tools_mount])].
Definition copy_tools_command : list bytes := [B "cp"; B "/usr/local/bin/crane"; B "/tools/crane"].

(** The file of a volume a path of a container is, and whether it is read only. *)
Definition volume_file (a : access) (path : bytes) : option (bytes * bytes * bool) :=
  head (omap (fun m => (fun rel => (m.(m_volume), rel, m.(m_read_only))) <$> strip_prefix (m.(m_path) ++ B "/") path) a.(ac_mounts)).
(** The devices a container gets from the plugin of its node. *)
Definition granted (plugin_env : string -> option bytes) (a : access) : list DeviceSpec :=
  match find_first (fun l => beq l.1 (resource_name plugin_env)) a.(ac_limits) with
  | Some (_, n) => concat (allocate (plugin_of plugin_env) [take (Z.to_nat n) (device_ids plugin_env)])
  | None => []
  end.

(** Where [fn publish_to_cache] of image-builder puts an image. *)
Definition publish_path (cache_dir digest : bytes) : bytes := cache_dir ++ B "/" ++ digest_cache_subdir digest ++ B "/rootfs.ext4".

(** ** Tries *)

Definition IMAGE_BUILD_REFUSED_EXIT_CODE : Z := 65.
Inductive build_end := Built | BuildRefused | BuildFailed.
(** [fn main] of image-builder. *)
Definition exit_code_of (e : build_end) : Z :=
  match e with Built => 0 | BuildRefused => IMAGE_BUILD_REFUSED_EXIT_CODE mod 256 | BuildFailed => 1 end.
Definition BACKOFF_LIMIT : nat := 2.
Definition fail_job_on : list Z := [IMAGE_BUILD_REFUSED_EXIT_CODE].
(** A Job: how many pods were made, and its end, if it has one. *)
Fixpoint job_run (failures : nat) (codes : list Z) : nat * option bool :=
  match codes with
  | [] => (0%nat, None)
  | c :: r =>
      if c =? 0 then (1%nat, Some true)
      else if bool_decide (c ∈ fail_job_on) then (1%nat, Some false)
      else if (BACKOFF_LIMIT <=? failures)%nat then (1%nat, Some false)
      else let '(n, e) := job_run (S failures) r in (S n, e)
  end.

(** ** The start of mcp-gateway *)

Definition DEFAULT_NET_PROXY_ADMIN_ADDR : bytes := B "127.0.0.1:9001".
Definition DEFAULT_VSOCK_PORT : Z := 10000.
Section gateway.
Context (env : string -> option bytes).
Definition enabled_tools_of : gset bytes :=
  list_to_set (base.filter (fun s => is_empty s = false) (trim <$> split 44 (default [] (env "ATELIER_TOOLS"%string)))).
Definition not_blank (o : option bytes) : option bytes := s ← o; if is_empty (trim s) then None else Some s.
Definition admin_addr_of : option bytes :=
  Some (default DEFAULT_NET_PROXY_ADMIN_ADDR (not_blank (env "ATELIER_NET_PROXY_ADMIN_ADDR"%string))).
(** [client] is the one made from the address of OpenBao and the name of the Workshop, [workshops]
    whether the cluster's configuration is there. *)
Definition gateway_config (client : bytes -> bytes -> openbao) (workshops : bool) : GatewayConfig :=
  let name := default [] (env "ATELIER_WORKSHOP_NAME"%string) in
  mkGateway enabled_tools_of ((fun addr => client addr name) <$> env "OPENBAO_ADDR"%string) admin_addr_of name workshops.
(** The socket of [fn run_vsock_listener]. *)
Definition vsock_listen_path : option bytes :=
  uds ← not_blank (env "ATELIER_MCP_GATEWAY_VSOCK_UDS_PATH"%string);
  Some (uds ++ B "_" ++ dec (default DEFAULT_VSOCK_PORT (env "ATELIER_MCP_GATEWAY_VSOCK_PORT"%string ≫= parse_u32_dec))).
End gateway.

(** ** Devices and capabilities *)

Lemma pod_access_order c spec console ns name digest rules :
  (pod_access spec).*1 = ct_name <$> (pod_template c spec console ns name digest rules).(t_containers).
Proof.
  unfold pod_access, pod_template. cbn [t_containers]. rewrite !fmap_app. f_equal. f_equal; [by case_bool_decide|].
  rewrite <- !list_fmap_compose. apply list_fmap_ext. intros i sim _. cbn. unfold simulator_container. by destruct (simulator_defaults _).
Qed.

Definition vm_devices : list DeviceSpec :=
  [mkDeviceSpec (B "/dev/kvm") (B "/dev/kvm") (B "rw"); mkDeviceSpec (B "/dev/net/tun") (B "/dev/net/tun") (B "rw")].

(** Only the container that runs a microVM can touch the node.  With the device plugin as it
    is deployed, vm-supervisor, in the pod, and image-builder, in the Job, get [/dev/kvm] and
    [/dev/net/tun] and the three capabilities Firecracker needs; every other container, the
    simulators a user asks for included, gets no device and no capability, and writes to no
    volume but the socket directory of its own pod and the tools of its own Job. *)
Theorem devices_confined plugin_env c spec console ns name digest rules ca :
  plugin_env "ATELIER_KVM_RESOURCE_NAME"%string = None -> plugin_env "ATELIER_KVM_DEVICE_PATH"%string = None ->
  plugin_env "ATELIER_TUN_DEVICE_PATH"%string = None ->
  (forall vm others, pod_access spec = vm :: others \/ job_access ca = vm :: others ->
     granted plugin_env vm.2 = vm_devices /\ vm.2.(ac_capabilities) = firecracker_security_context /\
     Forall (fun o => granted plugin_env o.2 = [] /\ o.2.(ac_capabilities) = [] /\
                      Forall (fun m => m.(m_read_only) = true \/ m = jailer_mount \/ m = tools_mount) o.2.(ac_mounts)) others) /\
  (jailer_mount.(m_volume), EmptyDir) ∈ (pod_template c spec console ns name digest rules).(t_volumes) /\
  (tools_mount.(m_volume), EmptyDir) ∈ job_volumes ca.
Proof.
  intros Hr Hk Ht.
  assert (Hvm : forall a, a.(ac_limits) = kvm_device_resources -> granted plugin_env a = vm_devices).
  { intros a Ha. unfold granted. rewrite Ha. unfold resource_name. rewrite Hr. unfold plugin_of, kvm_path, tun_path, allocate. rewrite Hk, Ht. reflexivity. }
  assert (Hpl : forall ms, Forall (fun m => m.(m_read_only) = true \/ m = jailer_mount \/ m = tools_mount) ms ->
     granted plugin_env (plain_access ms) = [] /\ (plain_access ms).(ac_capabilities) = [] /\
     Forall (fun m => m.(m_read_only) = true \/ m = jailer_mount \/ m = tools_mount) (plain_access ms).(ac_mounts)) by (intros ms Hms; by split_and!).
  split_and!; [|unfold pod_template; cbn [t_volumes]; set_solver|unfold job_volumes; set_solver].
  intros vm others [[= <- <-]|[= <- <-]]; cbn [snd]; (split_and!; [by apply Hvm|done|]).
  - do 3 (apply Forall_cons; split; [apply Hpl; first [by apply Forall_nil|apply Forall_singleton; auto]|]). rewrite Forall_app. split.
    + case_bool_decide; repeat constructor; apply Hpl; constructor.
    + apply Forall_fmap, Forall_true. intros sim. apply Hpl. constructor.
  - repeat (apply Forall_cons; split; [apply Hpl; first [by apply Forall_nil|apply Forall_singleton; auto]|]). constructor.
Qed.

Definition bare_ctx : TemplateCtx :=
  mkTemplateCtx None 1024 None None None None (mkResolved None None) (fun _ => None) None.
Lemma devices_confined_witness :
  granted (fun _ => None) vm_supervisor_access = vm_devices /\
  Forall (fun o => granted (fun _ => None) o.2 = [] /\ o.2.(ac_capabilities) = []) (drop 1 (pod_access sample_build_spec)).
Proof.
  destruct (devices_confined (fun _ => None) bare_ctx sample_build_spec false [] [] [] [] None eq_refl eq_refl eq_refl) as [H _].
  destruct (H (B "vm-supervisor", vm_supervisor_access) (drop 1 (pod_access sample_build_spec)) (or_introl eq_refl)) as (H1 & _ & H2).
  split; [exact H1|]. eapply Forall_impl; [exact H2|]. intros o (Ho & Hc & _). exact (conj Ho Hc).
Defined.

(** ** Files *)

Lemma file_in a vol path ro rest rel : a.(ac_mounts) = mkMount vol path ro :: rest -> volume_file a (path ++ B "/" ++ rel) = Some (vol, rel, ro).
Proof. intros Ha. unfold volume_file. rewrite Ha. cbn [omap list_omap m_path m_volume m_read_only]. by rewrite app_assoc, strip_prefix_app. Qed.

(** The parts of a Workshop find each other's files.  The image a build publishes is, in the
    claim the pods share, the file its vm-supervisor boots from; the suspensions are in that
    claim; the file identity-proxy reads its rules from and the one net-proxy reads its
    allowlist from are the entries of the ConfigMaps the controller writes for this Workshop,
    which they cannot write; the socket mcp-gateway listens on is, in the directory it shares
    with vm-supervisor, the one Firecracker connects a guest to; and the [crane] of a build is
    the one its Job copied. *)
Theorem files_agree c spec console ns name digest rules ca openbao :
  let t := pod_template c spec console ns name digest rules in
  let image := digest_cache_subdir digest ++ B "/rootfs.ext4" in
  volume_file (image_builder_access ca) (publish_path IMAGE_CACHE_MOUNT_PATH digest) = Some (B "cache", image, false) /\
  volume_file vm_supervisor_access (rootfs_path digest) = Some (B "cache", image, false) /\
  (B "cache", ClaimVolume IMAGE_CACHE_PVC_NAME) ∈ t.(t_volumes) /\ (B "cache", ClaimVolume IMAGE_CACHE_PVC_NAME) ∈ job_volumes ca /\
  (forall f, volume_file vm_supervisor_access (snapshot_dir ns name ++ B "/" ++ f) = Some (B "cache", snapshot_cache_subdir ns name ++ B "/" ++ f, false)) /\
  volume_file identity_proxy_access INJECTION_RULES_PATH = Some (B "injection-rules", INJECTION_RULES_KEY, true) /\
  (B "injection-rules", ConfigMapVolume (injection_rules_config_map name)) ∈ t.(t_volumes) /\
  volume_file net_proxy_access EGRESS_PATH = Some (B "egress-allowlist", EGRESS_KEY, true) /\
  (B "egress-allowlist", ConfigMapVolume (egress_config_map name)) ∈ t.(t_volumes) /\
  (exists listen rel, vsock_listen_path (env_of (mcp_gateway_env name spec.(tools) openbao)) = Some listen /\ listen = vsock_uds_path ++ B "_10000" /\
     volume_file mcp_gateway_access listen = Some (B "jailer", rel, false) /\ volume_file vm_supervisor_access listen = Some (B "jailer", rel, false) /\
     (B "jailer", EmptyDir) ∈ t.(t_volumes)) /\
  (forall base cfg, builder_config (container_env (image_builder_env base spec ns name None) (fun _ => None)) = Ok cfg ->
     last copy_tools_command = Some cfg.(b_crane) /\
     volume_file (image_builder_access ca) cfg.(b_crane) = volume_file (plain_access [tools_mount]) cfg.(b_crane)).
Proof.
  intros t image. unfold t, pod_template. cbn [t_volumes].
  split_and!; [| |set_solver|unfold job_volumes; set_solver| |by vm_compute|set_solver|by vm_compute|set_solver| |].
  - unfold publish_path. by eapply file_in.
  - unfold rootfs_path. by eapply file_in.
  - intros f. unfold snapshot_dir. rewrite <- !app_assoc. by eapply file_in.
  - exists (vsock_uds_path ++ B "_10000"), (B "firecracker/atelier-vm/root/vsock.sock_10000"). split_and!; [|done|by vm_compute|by vm_compute|set_solver].
    unfold vsock_listen_path, mcp_gateway_env. rewrite !env_of_app, !env_of_maybe. by vm_compute.
  - intros base cfg Hc. rewrite builder_reads in Hc. injection Hc as <-. cbn [b_crane]. split; [by vm_compute|]. by destruct ca; vm_compute.
Qed.

(** The tools of the specification are the ones mcp-gateway allows, as long as their names can
    be told apart in a list. *)
Lemma gateway_tools name tools openbao :
  Forall (fun t => trim t = t /\ t <> [] /\ ~ (44 ∈ t)) tools ->
  enabled_tools_of (env_of (mcp_gateway_env name tools openbao)) = list_to_set tools.
Proof.
  intros Ht. unfold enabled_tools_of.
  assert (He : env_of (mcp_gateway_env name tools openbao) "ATELIER_TOOLS"%string = Some (join [44] tools)).
  { unfold mcp_gateway_env. rewrite env_of_app. by vm_compute. }
  rewrite He. change (default [] (Some (join [44] tools))) with (join [44] tools). destruct tools as [|t0 r] eqn:E; [by vm_compute|]. rewrite <- E in *.
  rewrite split_join; [|by rewrite E|intros x Hx; by apply (proj1 (Forall_forall _ _) Ht) in Hx as (_ & _ & Hx)].
  f_equal. clear He E t0 r. induction Ht as [|t r (H1 & H2 & _) _ IH]; [done|]. cbn [fmap list_fmap]. rewrite H1.
  rewrite filter_cons_True; [|by destruct t]. f_equal. exact IH.
Qed.

(** ** Tries of a build *)

Lemma job_run_bound failures codes : (failures <= BACKOFF_LIMIT)%nat -> ((job_run failures codes).1 + failures <= 3)%nat.
Proof.
  revert failures. induction codes as [|c r IH]; intros f Hf; cbn [job_run]; [unfold BACKOFF_LIMIT in Hf; cbn; lia|].
  destruct (c =? 0); [unfold BACKOFF_LIMIT in *; cbn; lia|]. destruct (bool_decide (c ∈ fail_job_on)); [unfold BACKOFF_LIMIT in *; cbn; lia|].
  destruct (Nat.leb_spec BACKOFF_LIMIT f); [unfold BACKOFF_LIMIT in *; cbn; lia|].
  specialize (IH (S f) ltac:(lia)). destruct (job_run (S f) r) as [n e]. cbn in *. lia.
Qed.

(** However its tries end, a build is tried three times at most; nothing is tried after a
    success or a refusal, and the Job ends as the last try did. *)
Lemma build_tries (ends : list build_end) :
  let '(n, e) := job_run 0 (exit_code_of <$> ends) in
  (n <= 3)%nat /\
  (forall i, (S i < n)%nat -> ends !! i = Some BuildFailed) /\
  match e with
  | Some true => ends !! (n - 1)%nat = Some Built
  | Some false => ends !! (n - 1)%nat = Some BuildRefused \/ (n = 3%nat /\ ends !! 2%nat = Some BuildFailed)
  | None => n = length ends
  end.
Proof.
  pose proof (job_run_bound 0 (exit_code_of <$> ends) ltac:(lia)) as Hb.
  assert (H : forall f, (f <= BACKOFF_LIMIT)%nat -> let '(n, e) := job_run f (exit_code_of <$> ends) in
    (forall i, (S i < n)%nat -> ends !! i = Some BuildFailed) /\
    match e with
    | Some true => (0 < n)%nat /\ ends !! (n - 1)%nat = Some Built
    | Some false => (0 < n)%nat /\ (ends !! (n - 1)%nat = Some BuildRefused \/ ((n + f = 3)%nat /\ ends !! (n - 1)%nat = Some BuildFailed))
    | None => n = length ends
    end).
  { clear Hb. induction ends as [|x r IH]; intros f Hf; cbn [fmap list_fmap job_run]; [split; [lia|done]|].
    destruct x; cbn [exit_code_of].
    - cbn. split; [lia|split; [lia|done]].
    - change (IMAGE_BUILD_REFUSED_EXIT_CODE mod 256) with 65. change (65 =? 0) with false. rewrite bool_decide_eq_true_2 by (by left).
      split; [lia|]. split; [lia|by left].
    - change (1 =? 0) with false. rewrite bool_decide_eq_false_2 by (by apply (bool_decide_unpack _)).
      destruct (Nat.leb_spec BACKOFF_LIMIT f).
      + split; [lia|]. split; [lia|]. right. unfold BACKOFF_LIMIT in *. split; [lia|done].
      + specialize (IH (S f) ltac:(lia)). destruct (job_run (S f) (exit_code_of <$> r)) as [n e]. destruct IH as [H1 H2]. split.
        * intros [|i] Hi; [done|]. cbn. apply H1. lia.
        * destruct e as [[]|]; [| |cbn; lia].
          -- destruct H2 as [Hn H2]. split; [lia|]. destruct n as [|n]; [lia|]. cbn in *. by rewrite Nat.sub_0_r in *.
          -- destruct H2 as [Hn H2]. split; [lia|]. destruct n as [|n]; [lia|]. cbn in *. rewrite Nat.sub_0_r in *. destruct H2 as [H2|[H2 H3]]; [by left|right; split; [lia|done]]. }
  specialize (H 0%nat ltac:(unfold BACKOFF_LIMIT; lia)). destruct (job_run 0 (exit_code_of <$> ends)) as [n e]. cbn in Hb. destruct H as [H1 H2].
  split_and!; [lia|done|]. destruct e as [[]|]; [by destruct H2| |done]. destruct H2 as [Hn [H2|[H2 H3]]]; [by left|right].
  assert (n = 3%nat) by lia. subst n. done.
Qed.

(** A simulator is a container of the pod under the name its user gave it: one with the name of
    a program of the pod makes a pod with two containers of one name, which no cluster
    takes. *)
Lemma simulator_takes_name c spec console ns name digest rules sim :
  sim ∈ spec.(simulators) -> sim_name sim ∈ [B "vm-supervisor"; B "net-proxy"; B "identity-proxy"; B "mcp-gateway"] ->
  ~ NoDup (ct_name <$> (pod_template c spec console ns name digest rules).(t_containers)).
Proof.
  intros Hs Hn Hd. rewrite <- pod_access_order in Hd. unfold pod_access in Hd. rewrite !fmap_app in Hd.
  apply NoDup_app in Hd as (_ & Hdis & _). apply (Hdis (sim_name sim)); [exact Hn|]. apply elem_of_app. right.
  rewrite <- list_fmap_compose. by apply (list_elem_of_fmap_2 (fst ∘ fun sim => (sim_name sim, plain_access []))).
Qed.
