(* ===== verification/PodPorts.v ===== *)
(** * The doors of the pod

    [fn main] of [src/crates/net-proxy/src/main.rs], which builds the state its servers share
    and binds their addresses, with the addresses the other programs of the pod bind
    ([src/crates/identity-proxy/src/main.rs], [src/crates/mcp-gateway/src/main.rs],
    [src/crates/vm-supervisor/src/main.rs], the relays of
    [src/crates/net-proxy/src/ingress.rs]).  All of them share the pod's network, where the
    packet filter of [Firewall] decides which of them the microVM reaches. *)

From S2P Require Import Prelude RustStr Internal Dns Ingress Upstream EgressProxy NetAdmin PodSpec.
From S2P Require Import VmSupervisor Firewall VmResources BuilderVm PodTemplate.

(** ** Listeners *)

(** The servers behind the addresses; of the relays, the service. *)
Inductive door :=
| DEgress | DTransparentHttp | DTransparentTls | DMetadata | DDns
| DControl | DAdmin | DIngress (name : bytes)
| DIdentity | DMcp | DVmControl
| DSimulator (name : bytes).

#[global] Instance door_eq_dec : EqDecision door.
Proof. solve_decision. Defined.

Record listener := mkListener { ls_door : door; ls_proto : proto; ls_addr : bytes }.

#[global] Instance listener_eq_dec : EqDecision listener.
Proof. solve_decision. Defined.

Definition UNSPECIFIED : bytes := B "0.0.0.0".
(** Whether a socket bound at [a] takes what is sent to a port of an address of the pod. *)
Definition listens_at (a dst : bytes) (port : Z) : bool :=
  match parse_addr a with
  | Ok (host, p) => (p =? port) && (beq host UNSPECIFIED || beq host dst)
  | _ => false
  end.
Definition answers (p : packet) (l : listener) : bool :=
  bool_decide (ls_proto l = pk_proto p) && listens_at (ls_addr l) (pk_dst p) (pk_dport p).

(** ** [fn main] of net-proxy *)

Definition DEFAULT_LISTEN_ADDR : bytes := B "0.0.0.0:3128".
Definition DEFAULT_CONTROL_ADDR : bytes := B "0.0.0.0:9000".
Definition DEFAULT_DNS_LISTEN_ADDR : bytes := B "0.0.0.0:53".
Definition DEFAULT_VM_ADDR : bytes := B "127.0.0.1".
Definition DEFAULT_ADMIN_ADDR : bytes := B "127.0.0.1:9001".
Definition DEFAULT_METADATA_ADDR : bytes := B "0.0.0.0:3132".
Definition DEFAULT_TRANSPARENT_HTTP_ADDR : bytes := B "0.0.0.0:3180".
Definition DEFAULT_TRANSPARENT_TLS_ADDR : bytes := B "0.0.0.0:3181".

Section net_proxy.
Context (env : string -> option bytes).

(** The binds of [fn main] itself, in its order; each ends the program when it fails. *)
Definition main_binds : list listener :=
  [mkListener DControl PTcp (default DEFAULT_CONTROL_ADDR (env "ATELIER_NET_PROXY_CONTROL_ADDR"%string));
   mkListener DAdmin PTcp (default DEFAULT_ADMIN_ADDR (env "ATELIER_NET_PROXY_ADMIN_ADDR"%string));
   mkListener DMetadata PTcp (default DEFAULT_METADATA_ADDR (env "ATELIER_NET_PROXY_METADATA_ADDR"%string));
   mkListener DTransparentHttp PTcp (default DEFAULT_TRANSPARENT_HTTP_ADDR (env "ATELIER_NET_PROXY_TRANSPARENT_HTTP_ADDR"%string));
   mkListener DTransparentTls PTcp (default DEFAULT_TRANSPARENT_TLS_ADDR (env "ATELIER_NET_PROXY_TRANSPARENT_TLS_ADDR"%string));
   mkListener DEgress PTcp (default DEFAULT_LISTEN_ADDR (env "ATELIER_NET_PROXY_LISTEN_ADDR"%string))].

(** The binds of its tasks, which run beside it: the relays of [ingress::spawn_from_env]
    ([listen_and_relay]) and the two servers of [dns::run]. *)
Definition ingress_binds : list listener :=
  (fun e => mkListener (DIngress e.1) PTcp (UNSPECIFIED ++ B ":" ++ dec e.2)) <$>
    Ingress.exported_services (env "ATELIER_EXPORTED_SERVICES"%string).
Definition dns_addr : bytes := default DEFAULT_DNS_LISTEN_ADDR (env "ATELIER_DNS_LISTEN_ADDR"%string).
Definition dns_binds : list listener := [mkListener DDns PUdp dns_addr; mkListener DDns PTcp dns_addr].
Definition task_binds : list listener := ingress_binds ++ dns_binds.

(** What the servers are given: [resolv_conf] is the content of [/etc/resolv.conf]. *)
Record startup := mkStartup {
  su_egress : EgressConfig;
  su_admin : AdminState;
  su_vm_addr : bytes;
  su_reload_file : option bytes;
  su_refresh : option (bytes * bytes);
  su_metadata : MetadataState;
  su_dns_upstream : bytes;
  su_alias_ip : Z * Z * Z * Z }.

(** The tasks that refresh the password of the session and the key, with the address of
    OpenBao and the name they use: started when both are there. *)
Definition refresh_from_env : option (bytes * bytes) :=
  match env "OPENBAO_ADDR"%string, env "ATELIER_WORKSHOP_NAME"%string with
  | Some openbao_addr, Some workshop_name => Some (openbao_addr, workshop_name)
  | _, _ => None
  end.
Definition alias_ip_from_env : Z * Z * Z * Z :=
  default (169, 254, 0, 1) (env "ATELIER_NET_PROXY_ALIAS_IP"%string ≫= parse_ipv4).

(** The state, when the routes of [InternalRoutes::from_env] can be read. *)
Definition net_proxy_start (base64 : bytes -> bytes) (resolv_conf : option bytes) : res startup :=
  c ← egress_config base64 env;
  Ok (mkStartup c (admin_state c env) (default DEFAULT_VM_ADDR (env "ATELIER_VM_ADDR"%string))
        (env "ATELIER_EGRESS_ALLOWLIST_FILE"%string) refresh_from_env (mkMetadata None None None)
        (default (default_upstream resolv_conf) (env "ATELIER_DNS_UPSTREAM"%string)) alias_ip_from_env).
End net_proxy.

(** ** The other programs *)

Definition identity_binds (env : string -> option bytes) : list listener :=
  [mkListener DIdentity PTcp (default (B "0.0.0.0:3129") (env "ATELIER_IDENTITY_PROXY_LISTEN_ADDR"%string))].
Definition mcp_binds (env : string -> option bytes) : list listener :=
  [mkListener DMcp PTcp (default (B "0.0.0.0:3130") (env "ATELIER_MCP_GATEWAY_LISTEN_ADDR"%string))].
Definition vm_binds (env : string -> option bytes) : list listener :=
  [mkListener DVmControl PTcp (default (B "0.0.0.0:8081") (env "ATELIER_VM_CONTROL_ADDR"%string))].

(** ** Binding *)

(** What the kernel lets a program bind beside the listeners there are: an address that
    overlaps none of them, never one that is taken. *)
Definition overlap (a b : listener) : bool :=
  bool_decide (ls_proto a = ls_proto b) &&
  match parse_addr (ls_addr a), parse_addr (ls_addr b) with
  | Ok (h, p), Ok (h', p') => (p =? p') && (beq h h' || beq h UNSPECIFIED || beq h' UNSPECIFIED)
  | _, _ => false
  end.
Class BindRules (can_bind : list listener -> listener -> bool) := {
  bind_free bound l : (exists a, parse_addr (ls_addr l) = Ok a) -> existsb (overlap l) bound = false -> can_bind bound l = true;
  bind_taken bound l : existsb (overlap l) bound = true -> can_bind bound l = false }.

(** The binds of net-proxy in the order its tasks come to them: a task that fails is logged,
    [fn main] returns. *)
Definition in_main (l : listener) : bool := match ls_door l with DIngress _ | DDns => false | _ => true end.
Fixpoint bind_all (can_bind : list listener -> listener -> bool) (bound order : list listener) : res (list listener) :=
  match order with
  | [] => Ok bound
  | l :: order =>
      if can_bind bound l then bind_all can_bind (bound ++ [l]) order
      else if in_main l then Err "bind" else bind_all can_bind bound order
  end.
(** The tasks run beside [fn main], which keeps its own order. *)
Definition bind_order (env : string -> option bytes) (order : list listener) : Prop :=
  order ≡ₚ task_binds env ++ main_binds env /\ base.filter (fun l => in_main l = true) order = main_binds env.

(** An instance: exactly the addresses that parse and overlap nothing. *)
Definition exact_bind (bound : list listener) (l : listener) : bool :=
  match parse_addr (ls_addr l) with Ok _ => negb (existsb (overlap l) bound) | _ => false end.
#[global] Instance exact_bind_rules : BindRules exact_bind.
Proof.
  split; unfold exact_bind; intros bound l.
  - intros [a ->] H. by rewrite H.
  - intros H. rewrite H. by destruct (parse_addr _).
Qed.

(** ** The pod *)

Section pod.
Context (spec : PodSpec.WorkshopSpec) (ctx : PodCtx) (svc : services) (key : option bytes).
Context (rules_json : bytes) (openbao : option bytes) (vm_env : string -> option bytes).

Definition np_env : string -> option bytes := env_of (net_proxy_env spec ctx svc key).
Definition pod_listeners : list listener :=
  main_binds np_env ++ task_binds np_env ++
  identity_binds (env_of (identity_proxy_env (ws_name spec) rules_json openbao)) ++
  mcp_binds (env_of (mcp_gateway_env (ws_name spec) (tools spec) openbao)) ++ vm_binds vm_env.
End pod.

(** ** What is bound *)

Definition anywhere_at (port : Z) : bytes := UNSPECIFIED ++ B ":" ++ dec port.
Lemma parse_anywhere p : port_ok p -> parse_addr (anywhere_at p) = Ok (UNSPECIFIED, p).
Proof.
  intros Hp. change (anywhere_at p) with (UNSPECIFIED ++ 58 :: dec p). apply parse_addr_render.
  - apply dec_no_sep; unfold port_ok in Hp; lia.
  - unfold parse_u16. by rewrite parse_dec by (unfold port_ok, U16_MAX, U64_MAX in *; lia).
Qed.

(** The ports of the pod's own servers. *)
Definition reserved_ports : list Z := [9000; 9001; 3132; 3180; 3181; 3128; 53; 3129; 3130; 8081].
Definition own_listeners : list listener :=
  [mkListener DControl PTcp (anywhere_at 9000); mkListener DAdmin PTcp (loopback 9001);
   mkListener DMetadata PTcp (anywhere_at 3132); mkListener DTransparentHttp PTcp (anywhere_at 3180);
   mkListener DTransparentTls PTcp (anywhere_at 3181); mkListener DEgress PTcp (anywhere_at 3128)].
Definition dns_listeners : list listener := [mkListener DDns PUdp (anywhere_at 53); mkListener DDns PTcp (anywhere_at 53)].
Definition relay_listener (e : bytes * Z) : listener := mkListener (DIngress e.1) PTcp (anywhere_at e.2).
Definition other_listeners : list listener :=
  [mkListener DIdentity PTcp (anywhere_at 3129); mkListener DMcp PTcp (anywhere_at 3130);
   mkListener DVmControl PTcp (anywhere_at 8081)].

Section bound.
Context (spec : PodSpec.WorkshopSpec) (ctx : PodCtx) (svc : services) (key : option bytes).
Context (Hexp : Forall (fun e => name_ok e.1 /\ port_ok e.2) (exported spec)).
Let env := np_env spec ctx svc key.

Lemma main_binds_eq : main_binds env = own_listeners.
Proof using Type.
  clear Hexp. assert (Hnone : forall v, v ∈ ["ATELIER_NET_PROXY_CONTROL_ADDR"; "ATELIER_NET_PROXY_ADMIN_ADDR"; "ATELIER_NET_PROXY_METADATA_ADDR"]%string -> env v = None).
  { intros v Hv. unfold env, np_env. repeat (apply elem_of_cons in Hv as [->|Hv]; [env_lookup; done|]). by apply not_elem_of_nil in Hv. }
  unfold main_binds. rewrite !Hnone by (rewrite !elem_of_cons; auto). reflexivity.
Qed.

Lemma exported_eq : Ingress.exported_services (env "ATELIER_EXPORTED_SERVICES"%string) = exported spec.
Proof using Hexp.
  unfold env, np_env. rewrite env_exported. unfold Ingress.exported_services. case_bool_decide as He; [by rewrite He|].
  by apply exported_read.
Qed.

Lemma task_binds_eq : task_binds env = (relay_listener <$> exported spec) ++ dns_listeners.
Proof using Hexp.
  unfold task_binds, ingress_binds, dns_binds, dns_addr. rewrite exported_eq. unfold env, np_env.
  assert (Hd : env_of (net_proxy_env spec ctx svc key) "ATELIER_DNS_LISTEN_ADDR" = None) by (env_lookup; done).
  by rewrite Hd.
Qed.
End bound.

(** ** What the microVM reaches *)

(** The server a new connection or datagram of the microVM is meant for: the web and DNS
    wherever they are sent to, and at the host's own address the ports of the proxy and of
    the metadata. *)
Definition door_of (host : bytes) (p : packet) : option door :=
  let at_host := beq (pk_dst p) host in
  match pk_proto p with
  | PUdp => if pk_dport p =? 53 then Some DDns else None
  | PTcp =>
      if pk_dport p =? 80 then Some DTransparentHttp
      else if pk_dport p =? 443 then Some DTransparentTls
      else if pk_dport p =? 53 then Some DDns
      else if negb at_host then None
      else if pk_dport p =? 3128 then Some DEgress
      else if pk_dport p =? 3180 then Some DTransparentHttp
      else if pk_dport p =? 3181 then Some DTransparentTls
      else if pk_dport p =? 3132 then Some DMetadata
      else None
  end.

Lemma admitted_door n p :
  pk_established p = false ->
  admitted n (Firewall.gateway_ports 3128 3180 3181 (Some 3132)) (rewritten n (nat_target 3180 3181 p) p) =
  bool_decide (is_Some (door_of (show_ip (host_ip n)) p)).
Proof.
  intros He. destruct p as [i pr dst port est]. cbn [pk_established] in He. subst est.
  assert (Hl : forall q, bool_decide (q ∈ [3128; 3180; 3181; 3132; 53]) =
    (q =? 3128) || (q =? 3180) || (q =? 3181) || (q =? 3132) || (q =? 53)).
  { intros q. rewrite <- !orb_assoc. case_bool_decide as Hq.
    - symmetry. rewrite !orb_true_iff, !Z.eqb_eq. set_solver.
    - symmetry. rewrite !orb_false_iff, !Z.eqb_neq. set_solver. }
  unfold admitted, nat_target, door_of, beq. cbn [pk_proto pk_dport pk_dst].
  destruct pr.
  - destruct (port =? 80) eqn:E1; [cbn [rewritten pk_dst pk_dport pk_proto pk_established orb]; by rewrite bool_decide_true|].
    destruct (port =? 443) eqn:E2; [cbn [rewritten pk_dst pk_dport pk_proto pk_established orb]; by rewrite bool_decide_true|].
    destruct (port =? 53) eqn:E3; [cbn [rewritten pk_dst pk_dport pk_proto pk_established orb]; by rewrite bool_decide_true|].
    cbn [rewritten pk_dst pk_dport pk_proto pk_established orb]. unfold Firewall.gateway_ports. cbn [app option_list]. rewrite Hl, E3, orb_false_r.
    destruct (bool_decide (dst = _)); cbn [negb andb]; [|done].
    by destruct (port =? 3128), (port =? 3180), (port =? 3181), (port =? 3132).
  - destruct (port =? 53) eqn:E3; cbn [rewritten pk_dst pk_dport pk_proto pk_established orb].
    + by rewrite bool_decide_true.
    + rewrite (bool_decide_false (port = 53)) by (by apply Z.eqb_neq). by rewrite andb_false_r.
Qed.

Lemma listens_anywhere q dst port : port_ok q -> listens_at (anywhere_at q) dst port = (q =? port).
Proof. intros Hq. unfold listens_at. rewrite parse_anywhere by done. by rewrite beq_refl, andb_true_r. Qed.
Lemma listens_loopback q dst port : port_ok q -> dst <> B "127.0.0.1" -> listens_at (loopback q) dst port = false.
Proof.
  intros Hq Hd. unfold listens_at. rewrite parse_loopback by done.
  assert (Hb : beq (B "127.0.0.1") dst = false) by (apply beq_false; congruence). by rewrite Hb, andb_false_r.
Qed.

(** No relay answers at a port that no service has. *)
Lemma relays_silent l p :
  Forall (fun e => port_ok e.2) l -> pk_dport p ∉ l.*2 -> base.filter (fun x => answers p x = true) (relay_listener <$> l) = [].
Proof.
  induction 1 as [|e l He _ IH]; intros Hn; [done|]. cbn [fmap list_fmap] in *. apply not_elem_of_cons in Hn as [Hne Hn].
  rewrite filter_cons_False; [by apply IH|]. unfold answers, relay_listener. cbn [ls_proto ls_addr].
  rewrite listens_anywhere by done. rewrite (proj2 (Z.eqb_neq e.2 (pk_dport p))) by congruence. by rewrite andb_false_r.
Qed.

(** The servers that answer at a port of the host's address. *)
Definition doors_at (pr : proto) (port : Z) : list door :=
  match pr with
  | PUdp => if 53 =? port then [DDns] else []
  | PTcp => (if 9000 =? port then [DControl] else []) ++ (if 3132 =? port then [DMetadata] else []) ++
      (if 3180 =? port then [DTransparentHttp] else []) ++ (if 3181 =? port then [DTransparentTls] else []) ++
      (if 3128 =? port then [DEgress] else []) ++ (if 53 =? port then [DDns] else []) ++
      (if 3129 =? port then [DIdentity] else []) ++ (if 3130 =? port then [DMcp] else []) ++
      (if 8081 =? port then [DVmControl] else [])
  end.

Lemma filter_answers p l ls :
  ls_door <$> base.filter (fun x => answers p x = true) (l :: ls) =
  (if answers p l then [ls_door l] else []) ++ (ls_door <$> base.filter (fun x => answers p x = true) ls).
Proof. rewrite filter_cons. destruct (answers p l); [by rewrite decide_True|by rewrite decide_False]. Qed.

Lemma answers_anywhere p d pr q : port_ok q ->
  answers p (mkListener d pr (anywhere_at q)) = bool_decide (pr = pk_proto p) && (q =? pk_dport p).
Proof. intros Hq. unfold answers. cbn [ls_proto ls_addr]. by rewrite listens_anywhere. Qed.

Lemma doors_answer l p :
  Forall (fun e => port_ok e.2) l -> pk_dport p ∉ l.*2 -> pk_dst p <> B "127.0.0.1" ->
  ls_door <$> base.filter (fun x => answers p x = true) (own_listeners ++ ((relay_listener <$> l) ++ dns_listeners) ++ other_listeners) =
  doors_at (pk_proto p) (pk_dport p).
Proof.
  intros Hl Hn Hd. rewrite !filter_app, !fmap_app, relays_silent by done. unfold own_listeners, dns_listeners, other_listeners.
  rewrite !filter_answers. rewrite !answers_anywhere by (unfold port_ok, U16_MAX; lia).
  assert (Ha : answers p (mkListener DAdmin PTcp (loopback 9001)) = false).
  { unfold answers. cbn [ls_proto ls_addr]. rewrite listens_loopback by (done || unfold port_ok, U16_MAX; lia). by rewrite andb_false_r. }
  rewrite Ha. unfold doors_at. cbn [ls_door app fmap list_fmap base.filter list_filter].
  destruct (pk_proto p); cbn [andb app bool_decide decide_rel proto_eq_dec]; rewrite ?app_nil_r, <- ?app_assoc; reflexivity.
Qed.

(** The packet a new one becomes goes to the host's address, at a port with one server. *)
Lemma door_reached n p d :
  door_of (show_ip (host_ip n)) p = Some d ->
  let p' := rewritten n (nat_target 3180 3181 p) p in
  pk_dst p' = show_ip (host_ip n) /\ pk_dport p' ∈ [3128; 3180; 3181; 3132; 53] /\ doors_at (pk_proto p') (pk_dport p') = [d].
Proof.
  destruct p as [i pr dst port est]. unfold door_of, nat_target. cbn [pk_proto pk_dport pk_dst].
  assert (Hin : forall q, bool_decide (q ∈ [3128; 3180; 3181; 3132; 53]) = true -> q ∈ [3128; 3180; 3181; 3132; 53])
    by (intros q Hq; by apply bool_decide_eq_true in Hq).
  destruct pr.
  - destruct (port =? 80) eqn:E1; [intros [= <-]; cbn [rewritten pk_dst pk_dport pk_proto]; split_and!; [done|by apply Hin|done]|].
    destruct (port =? 443) eqn:E2; [intros [= <-]; cbn [rewritten pk_dst pk_dport pk_proto]; split_and!; [done|by apply Hin|done]|].
    destruct (port =? 53) eqn:E3; [intros [= <-]; cbn [rewritten pk_dst pk_dport pk_proto]; split_and!; [done|by apply Hin|done]|].
    destruct (beq dst _) eqn:Eh; cbn [negb]; [|done]. apply beq_true in Eh. cbn [rewritten pk_dst pk_dport pk_proto].
    intros Hd. split; [done|].
    destruct (port =? 3128) eqn:E4; [apply Z.eqb_eq in E4; subst; injection Hd as <-; split; [by apply Hin|done]|].
    destruct (port =? 3180) eqn:E5; [apply Z.eqb_eq in E5; subst; injection Hd as <-; split; [by apply Hin|done]|].
    destruct (port =? 3181) eqn:E6; [apply Z.eqb_eq in E6; subst; injection Hd as <-; split; [by apply Hin|done]|].
    destruct (port =? 3132) eqn:E7; [apply Z.eqb_eq in E7; subst; injection Hd as <-; split; [by apply Hin|done]|done].
  - destruct (port =? 53) eqn:E3; [|done]. intros [= <-]. cbn [rewritten pk_dst pk_dport pk_proto]. split_and!; [done|by apply Hin|done].
Qed.

(** A server that stays off the pod's own ports: what the images of the simulators bind is
    theirs. *)
Definition off_reserved (l : listener) : Prop := forall dst q, q ∈ reserved_ports -> listens_at (ls_addr l) dst q = false.
Lemma others_silent ls p :
  Forall off_reserved ls -> pk_dport p ∈ reserved_ports -> base.filter (fun l => answers p l = true) ls = [].
Proof.
  intros Hls Hp. induction Hls as [|l ls Hl _ IH]; [done|]. rewrite filter_cons_False; [done|].
  unfold answers. rewrite Hl by done. by rewrite andb_false_r.
Qed.

Section reach.
Context `{Netfilter F} (n : NetworkSetup) (f f' : F) (p : packet).
Context (Hfree : link_free (tap_name n) (nf_rules f)).
Context (Hrun : run_all (enable_transparent_gateway n 3128 3180 3181 (Some 3132)) f = Some f').
Context (Hp : pk_in p = tap_name n) (He : pk_established p = false).

Lemma redirected : nf_verdict f' TNat PREROUTING p = nat_target 3180 3181 p.
Proof using Hfree Hrun Hp.
  rewrite (prerouting_verdict _ _ _ _ _ Hfree (nat_rules_no_jump 3180 3181) (gateway_run _ _ _ _ _ _ _ Hrun)) by done.
  apply nat_rules_verdict.
Qed.
Lemma new_verdict :
  let p' := rewritten n (nat_target 3180 3181 p) p in
  nf_verdict f' TFilter FORWARD p' = Some Drop /\
  nf_verdict f' TFilter INPUT p' = Some (if bool_decide (is_Some (door_of (show_ip (host_ip n)) p)) then Accept else Drop).
Proof using Hfree Hrun Hp He.
  intros p'. pose proof (gateway_run _ _ _ _ _ _ _ Hrun) as Hg.
  assert (Hp' : pk_in p' = tap_name n) by (unfold p'; by rewrite rewritten_in).
  split; [by apply (forward_verdict _ _ _ _ _ Hfree Hg)|].
  rewrite (input_verdict _ _ _ _ _ Hfree (chain_rules_no_jump _ _) Hg) by done.
  rewrite chain_rules_verdict. unfold p'. by rewrite admitted_door.
Qed.
End reach.

(** C13: The doors of the pod.  With the environments the controller gives to the programs of a
    pod whose exported services, and the servers of its simulators, stay off the pod's own
    ports (nothing enforces it: [exported_port_stops_net_proxy]), and once vm-supervisor has
    set up the gateway with the ports it reads there, a new connection or datagram of the
    microVM is never forwarded; it is let in exactly when it is meant for the web, DNS, the
    proxy or the metadata; and then exactly one server of the whole pod answers it, the one it
    is meant for.  The servers for administration, control, port-forwards, identities, tools
    and simulators, which listen in the same network, answer none. *)
Theorem guest_doors `{Netfilter F} spec ctx svc key rules_json openbao r max_disk console digest ns name s3 pod_endpoint base sims n (f f' : F) p :
  let vm := container_env (vm_supervisor_env r max_disk console digest ns name s3 pod_endpoint) base in
  let '(np, http, tls, md) := VmResources.gateway_ports vm in
  let host := show_ip (host_ip n) in
  base "ATELIER_NET_PROXY_METADATA_PORT"%string = None -> base "ATELIER_VM_CONTROL_ADDR"%string = None ->
  Forall (fun e => name_ok e.1 /\ port_ok e.2) (exported spec) -> Forall (fun e => e.2 ∉ reserved_ports) (exported spec) ->
  Forall off_reserved sims -> host <> B "127.0.0.1" -> link_free (tap_name n) (nf_rules f) ->
  run_all (enable_transparent_gateway n np http tls (Some md)) f = Some f' ->
  pk_in p = tap_name n -> pk_established p = false ->
  let p' := rewritten n (nf_verdict f' TNat PREROUTING p) p in
  nf_verdict f' TFilter FORWARD p' = Some Drop /\
  nf_verdict f' TFilter INPUT p' = Some (if bool_decide (is_Some (door_of host p)) then Accept else Drop) /\
  forall d, door_of host p = Some d ->
    ls_door <$> base.filter (fun l => answers p' l = true) (pod_listeners spec ctx svc key rules_json openbao vm ++ sims) = [d].
Proof.
  intros vm. destruct (VmResources.gateway_ports vm) as [[[np http] tls] md] eqn:Eg. intros host Hmd Hctl Hexp Hres Hsims Hhost Hfree.
  assert (Hg : VmResources.gateway_ports vm = (3128, 3180, 3181, 3132)).
  { unfold VmResources.gateway_ports, env_num.
    assert (Hv : vm "ATELIER_NET_PROXY_METADATA_PORT"%string = None) by (unfold vm; pod_env_lookup; rewrite andb_false_r; by destruct s3).
    rewrite Hv. reflexivity. }
  rewrite Hg in Eg. injection Eg as <- <- <- <-. intros Hrun Hp He p'.
  assert (Hp' : p' = rewritten n (nat_target 3180 3181 p) p) by (unfold p'; by rewrite (redirected n f f' p)).
  rewrite Hp'. destruct (new_verdict n f f' p Hfree Hrun Hp He) as [Hf Hi]. split_and!; [done|done|].
  intros d Hd. destruct (door_reached n p d Hd) as (Hdst & Hport & Hdoors).
  assert (Hl : pod_listeners spec ctx svc key rules_json openbao vm =
    own_listeners ++ ((relay_listener <$> exported spec) ++ dns_listeners) ++ other_listeners).
  { unfold pod_listeners. rewrite main_binds_eq, task_binds_eq by done. do 2 f_equal.
    unfold vm_binds. assert (Hv : vm "ATELIER_VM_CONTROL_ADDR"%string = None) by (unfold vm; pod_env_lookup; rewrite andb_false_r; by destruct s3).
    rewrite Hv. reflexivity. }
  assert (Hp53 : pk_dport (rewritten n (nat_target 3180 3181 p) p) ∈ reserved_ports)
    by (revert Hport; unfold reserved_ports; clear; set_solver).
  rewrite filter_app, (others_silent sims) by done. rewrite app_nil_r, Hl, doors_answer; [done|..].
  - eapply Forall_impl; [exact Hexp|]. by intros e [_ ?].
  - intros (e & He' & Hin)%list_elem_of_fmap. rewrite Forall_forall in Hres. apply (Hres e Hin). rewrite <- He'.
    revert Hport. unfold reserved_ports. clear. set_solver.
  - by rewrite Hdst.
Qed.

Lemma guest_doors_witness :
  let f' := gateway_filter in
  nf_verdict f' TFilter INPUT (rewritten vm_network (nf_verdict f' TNat PREROUTING web_packet) web_packet) = Some Accept /\
  nf_verdict f' TFilter INPUT pod_packet = Some Drop /\
  ls_door <$> base.filter (fun l => answers (rewritten vm_network (nf_verdict f' TNat PREROUTING web_packet) web_packet) l = true)
    (pod_listeners sample_spec sample_ctx sample_services None [] None
       (container_env (vm_supervisor_env sample_resources 100 false (B "sha256:0") (B "default") (B "w") None None) (fun _ => None)) ++ [mkListener (DSimulator (B "db")) PTcp (anywhere_at 5432)]) =
    [DTransparentTls].
Proof.
  intros f'.
  assert (Hr : run_all (enable_transparent_gateway vm_network 3128 3180 3181 (Some 3132)) pod_filter = Some f') by reflexivity.
  assert (Hexp : Forall (fun e => name_ok e.1 /\ port_ok e.2) (exported sample_spec)) by apply sample_spec_ok.
  assert (Hres : Forall (fun e => e.2 ∉ reserved_ports) (exported sample_spec)) by (apply (bool_decide_unpack _); vm_compute; exact I).
  assert (Hh : show_ip (host_ip vm_network) <> B "127.0.0.1") by (apply (bool_decide_unpack _); vm_compute; exact I).
  assert (Hsims : Forall off_reserved [mkListener (DSimulator (B "db")) PTcp (anywhere_at 5432)]).
  { repeat constructor. intros dst q Hq. cbn [ls_addr]. rewrite listens_anywhere by (unfold port_ok, U16_MAX; lia). apply Z.eqb_neq.
    intros <-. revert Hq. apply (bool_decide_unpack _). vm_compute. exact I. }
  destruct (guest_doors (H := exact_filter) sample_spec sample_ctx sample_services None [] None sample_resources 100 false (B "sha256:0")
    (B "default") (B "w") None None (fun _ => None) _ vm_network pod_filter f' web_packet eq_refl eq_refl Hexp Hres Hsims Hh
    (pod_filter_free _) Hr eq_refl eq_refl) as (_ & Hi & Hd).
  destruct (guest_doors (H := exact_filter) sample_spec sample_ctx sample_services None [] None sample_resources 100 false (B "sha256:0")
    (B "default") (B "w") None None (fun _ => None) _ vm_network pod_filter f' pod_packet eq_refl eq_refl Hexp Hres Hsims Hh
    (pod_filter_free _) Hr eq_refl eq_refl) as (_ & Hi' & _).
  split_and!; [exact Hi|exact Hi'|by apply Hd].
Defined.

(** ** Starting *)

(** The protocol and the port of a listener: two that differ there do not overlap. *)
Definition slot (l : listener) : option (proto * Z) :=
  match parse_addr (ls_addr l) with Ok (_, p) => Some (ls_proto l, p) | _ => None end.

Lemma overlap_slot a b : overlap a b = true -> slot a = slot b /\ is_Some (slot a).
Proof.
  unfold overlap, slot. intros [Hp H]%andb_true_iff. apply bool_decide_eq_true in Hp.
  destruct (parse_addr (ls_addr a)) as [[h p]| |]; [|done..]. destruct (parse_addr (ls_addr b)) as [[h' p']| |]; [|done..].
  apply andb_true_iff in H as [->%Z.eqb_eq _]. rewrite Hp. split; [done|by eexists].
Qed.

Lemma bind_all_free can_bind `{!BindRules can_bind} bound order :
  Forall (fun l => is_Some (slot l)) order -> NoDup (slot <$> bound ++ order) -> bind_all can_bind bound order = Ok (bound ++ order).
Proof.
  intros Ho. revert bound. induction Ho as [|l order Hl _ IH]; intros bound Hd; [by rewrite app_nil_r|]. cbn [bind_all].
  rewrite bind_free.
  - rewrite IH by (by rewrite <- app_assoc). by rewrite <- app_assoc.
  - unfold slot in Hl. destruct (parse_addr (ls_addr l)) as [a| |]; [eauto|by destruct Hl..].
  - apply not_true_iff_false. intros (b & Hb & Hov)%existsb_exists. apply overlap_slot in Hov as [Hs _].
    rewrite fmap_app in Hd. apply NoDup_app in Hd as (_ & Hdis & _). apply (Hdis (slot b)).
    + apply list_elem_of_fmap. exists b. split; [done|]. by apply list_elem_of_In.
    + rewrite <- Hs. cbn. by apply elem_of_cons; left.
Qed.

Lemma relay_slot e : port_ok e.2 -> slot (relay_listener e) = Some (PTcp, e.2).
Proof. intros He. unfold slot, relay_listener. cbn [ls_addr ls_proto]. by rewrite parse_anywhere. Qed.

Lemma relay_slots l : Forall (fun e : bytes * Z => port_ok e.2) l -> slot <$> (relay_listener <$> l) = (fun e => Some (PTcp, e.2)) <$> l.
Proof.
  intros Hl. rewrite <- list_fmap_compose. apply list_fmap_ext. intros i e He. cbn. apply relay_slot.
  rewrite Forall_forall in Hl. apply Hl. by eapply list_elem_of_lookup_2.
Qed.

(** The slots of the pod's own servers are all different, and none is a relay's. *)
Lemma own_slots : slot <$> other_listeners ++ dns_listeners ++ own_listeners =
  Some <$> [(PTcp, 3129); (PTcp, 3130); (PTcp, 8081); (PUdp, 53); (PTcp, 53); (PTcp, 9000); (PTcp, 9001); (PTcp, 3132); (PTcp, 3180); (PTcp, 3181); (PTcp, 3128)].
Proof. vm_compute. reflexivity. Qed.

Lemma own_reserved p : (PTcp, p) ∈ [(PTcp, 3129); (PTcp, 3130); (PTcp, 8081); (PUdp, 53); (PTcp, 53); (PTcp, 9000); (PTcp, 9001); (PTcp, 3132); (PTcp, 3180); (PTcp, 3181); (PTcp, 3128)] ->
  p ∈ reserved_ports.
Proof. unfold reserved_ports. intros H. repeat (apply elem_of_cons in H as [H|H]; [try discriminate; injection H as ->; set_solver|]). by apply not_elem_of_nil in H. Qed.

Lemma pod_slots l :
  Forall (fun e => port_ok e.2) l -> Forall (fun e => e.2 ∉ reserved_ports) l -> NoDup l.*2 ->
  NoDup (slot <$> (other_listeners ++ ((relay_listener <$> l) ++ dns_listeners) ++ own_listeners)).
Proof.
  intros Hok Hres Hd.
  assert (Hperm : other_listeners ++ ((relay_listener <$> l) ++ dns_listeners) ++ own_listeners ≡ₚ
    (relay_listener <$> l) ++ (other_listeners ++ dns_listeners ++ own_listeners)) by (clear; solve_Permutation).
  rewrite Hperm, fmap_app, own_slots, relay_slots by done.
  apply NoDup_app. split_and!.
  - assert (Hc : (fun e : bytes * Z => Some (PTcp, e.2)) <$> l = (fun q => Some (PTcp, q)) <$> l.*2) by (by rewrite <- list_fmap_compose).
    rewrite Hc. apply NoDup_fmap_2; [|done]. intros a b [= ->]. done.
  - intros x (e & -> & He)%list_elem_of_fmap (y & Hy & Hin)%list_elem_of_fmap. injection Hy as <-. rewrite Forall_forall in Hres.
    by apply (Hres e He), own_reserved.
  - apply (bool_decide_unpack _). vm_compute. exact I.
Qed.

(** net-proxy starts: beside the other programs of the pod and in whatever order its tasks come
    to their binds, every server and every relay gets its address, when the services are on
    different ports that are none of the pod's. *)
Theorem net_proxy_starts can_bind `{!BindRules can_bind} spec ctx svc key order :
  Forall (fun e => name_ok e.1 /\ port_ok e.2) (exported spec) -> Forall (fun e => e.2 ∉ reserved_ports) (exported spec) ->
  NoDup (exported spec).*2 -> bind_order (np_env spec ctx svc key) order ->
  bind_all can_bind other_listeners order = Ok (other_listeners ++ order).
Proof.
  intros Hexp Hres Hd [Ho _]. rewrite main_binds_eq, task_binds_eq in Ho by done.
  assert (Hok : Forall (fun e : bytes * Z => port_ok e.2) (exported spec)) by (eapply Forall_impl; [exact Hexp|]; by intros e [_ ?]).
  apply bind_all_free; [done|..].
  - rewrite Ho. rewrite !Forall_app. split_and!; [|apply (bool_decide_unpack _); vm_compute; exact I..].
    apply Forall_fmap. eapply Forall_impl; [exact Hok|]. intros e He. cbn. rewrite relay_slot by done. by eexists.
  - rewrite Ho. by apply pod_slots.
Qed.

(** A service exported on net-proxy's own port stops net-proxy, when its relay binds first:
    the failure of one bind is not the affair of one relay. *)
Definition taking_spec : PodSpec.WorkshopSpec :=
  PodSpec.mkSpec (B "w") [] [] [] [(B "web", 3128)] [] None (B "team").
Definition taking_order : list listener := relay_listener (B "web", 3128) :: dns_listeners ++ own_listeners.

Lemma bind_all_app can_bind bound a b : bind_all can_bind bound (a ++ b) = bind_all can_bind bound a ≫= fun bound => bind_all can_bind bound b.
Proof. revert bound; induction a as [|l a IH]; intros bound; [done|]. cbn [app bind_all]. rewrite !IH. by repeat case_match. Qed.

Lemma exported_port_stops_net_proxy can_bind `{!BindRules can_bind} :
  bind_order (np_env taking_spec sample_ctx sample_services None) taking_order /\
  bind_all can_bind other_listeners taking_order = Err "bind".
Proof.
  split.
  - split; [|by rewrite main_binds_eq].
    rewrite main_binds_eq, task_binds_eq; [done|]. apply (bool_decide_unpack _). vm_compute. exact I.
  - assert (Hsplit : taking_order = (relay_listener (B "web", 3128) :: dns_listeners ++ take 5 own_listeners) ++
      [mkListener DEgress PTcp (anywhere_at 3128)]) by done.
    rewrite Hsplit, bind_all_app, bind_all_free by (done || apply (bool_decide_unpack _); vm_compute; exact I).
    cbn [mbind res_bind bind_all]. by rewrite bind_taken by (vm_compute; reflexivity).
Qed.

Lemma net_proxy_starts_witness :
  let order := dns_listeners ++ relay_listener (B "web", 8080) :: own_listeners in
  bind_all exact_bind other_listeners order = Ok (other_listeners ++ order).
Proof.
  intros order. apply (net_proxy_starts exact_bind sample_spec sample_ctx sample_services None).
  - apply sample_spec_ok.
  - apply (bool_decide_unpack _). vm_compute. exact I.
  - apply (bool_decide_unpack _). vm_compute. exact I.
  - split; [|by rewrite main_binds_eq]. rewrite main_binds_eq, task_binds_eq by apply sample_spec_ok.
    unfold order. change (relay_listener <$> exported sample_spec) with [relay_listener (B "web", 8080)]. clear. solve_Permutation.
Defined.

(** What net-proxy is started with in a pod: the file of the allowlist and, with OpenBao, the
    tasks that refresh the secrets of this Workshop; its DNS gives internal names the address
    of the host's end of the link, where the packet filter lets the web in. *)
Lemma pod_startup base64 resolv spec ctx svc key st :
  net_proxy_start (np_env spec ctx svc key) base64 resolv = Ok st ->
  st.(su_reload_file) = Some EGRESS_PATH /\
  st.(su_refresh) = (fun a => (a, ws_name spec)) <$> openbao_pod_addr ctx /\
  show_ip st.(su_alias_ip) = show_ip (host_ip vm_network) /\ st.(su_vm_addr) = show_ip (guest_ip vm_network).
Proof.
  unfold net_proxy_start. destruct (egress_config base64 _) as [c| |]; [|done..]. cbn [mbind res_bind]. intros [= <-].
  cbn [su_reload_file su_refresh su_alias_ip su_vm_addr]. unfold refresh_from_env, alias_ip_from_env, np_env. split_and!.
  - env_lookup. by destruct (is_empty (resolve_allowed_internal_targets svc (allowed_internal_targets spec))), (bool_decide (exported spec = [])).
  - rewrite env_name.
    assert (Ho : env_of (net_proxy_env spec ctx svc key) "OPENBAO_ADDR" = openbao_pod_addr ctx) by (env_lookup; by destruct (openbao_pod_addr ctx)).
    rewrite Ho. by destruct (openbao_pod_addr ctx).
  - assert (Ha : env_of (net_proxy_env spec ctx svc key) "ATELIER_NET_PROXY_ALIAS_IP" = None) by (env_lookup; done).
    by rewrite Ha.
  - reflexivity.
Qed.
