(* ===== verification/SessionArchive.v ===== *)
(** The archive of a terminal session: [src/crates/api-server/src/session_recorder.rs], the
    pipe between the tunnel and the upload, and [upload_session_archive],
    [get_session_stream] and [upload_image_cache_file] of [src/crates/common/src/storage.rs].

    The tunnel pushes what it relays into a [tokio::io::duplex] of 64 KiB; a task of its own
    reads the other end, compresses it and uploads it.  The two interleave freely; the upload
    may end in failure at any time, and its end of the pipe with it. *)

From stdpp Require Import relations.
From S2P Require Import Prelude RustStr Storage GuestBridge.

(** ** Archives *)

Section archives.
Context {St : Type} `{OS : !ObjectStore St} (encoder decoder : reader -> reader) (bucket_sessions : bytes) (bucket_image_cache : option bytes).

Definition upload_session_archive (workshop_name session_id : bytes) (source : reader) (s : St) : res bytes * St :=
  let key := session_archive_key workshop_name session_id in
  match upload_stream bucket_sessions key (encoder source) s with
  | (Ok _, s) => (Ok key, s)
  | (Err e, s) => (Err e, s)
  | (Panic, s) => (Panic, s)
  end.
Definition get_session_stream (s3_key : bytes) (s : St) : res reader :=
  compressed ← download_stream bucket_sessions s3_key s; Ok (decoder compressed).
(** [fn upload_image_cache_file]; [opened] is the file, when it can be opened. *)
Definition upload_image_cache_file (digest : bytes) (opened : res reader) (s : St) : res unit * St :=
  match bucket_image_cache with
  | None => (Ok tt, s)
  | Some bucket => match opened with
                   | Ok r => upload_stream bucket (image_cache_key digest) r s
                   | Err e => (Err e, s)
                   | Panic => (Panic, s)
                   end
  end.
End archives.

(** ** The pipe *)

Definition RECORDING_PIPE_BUFFER : Z := 64 * 1024.
(** What was given to [fn write_chunk] since the start, what of the current chunk is not in the
    pipe yet, the pipe, the pieces the upload has read, whether the upload still reads, whether
    [fn finish], or the end of the tunnel, closed the other end, and whether the upload came to
    the end of its stream. *)
Record recording := mkRecording {
  rc_written : bytes; rc_pending : bytes; rc_pipe : bytes; rc_read : list bytes; rc_alive : bool; rc_closed : bool; rc_end : bool }.
Definition start_recording : recording := mkRecording [] [] [] [] true false false.

Inductive rec_step : recording -> recording -> Prop :=
| rs_chunk r data : r.(rc_pending) = [] -> r.(rc_closed) = false ->
    rec_step r (mkRecording (r.(rc_written) ++ data) data r.(rc_pipe) r.(rc_read) r.(rc_alive) false r.(rc_end))
| rs_push r n : r.(rc_alive) = true -> (0 < n <= length r.(rc_pending))%nat -> Z.of_nat (length r.(rc_pipe) + n) <= RECORDING_PIPE_BUFFER ->
    rec_step r (mkRecording r.(rc_written) (drop n r.(rc_pending)) (r.(rc_pipe) ++ take n r.(rc_pending)) r.(rc_read) true r.(rc_closed) r.(rc_end))
| rs_ignored r : r.(rc_alive) = false ->
    rec_step r (mkRecording r.(rc_written) [] r.(rc_pipe) r.(rc_read) false r.(rc_closed) r.(rc_end))
| rs_close r : r.(rc_pending) = [] ->
    rec_step r (mkRecording r.(rc_written) [] r.(rc_pipe) r.(rc_read) r.(rc_alive) true r.(rc_end))
| rs_read r n : r.(rc_alive) = true -> (0 < n <= length r.(rc_pipe))%nat ->
    rec_step r (mkRecording r.(rc_written) r.(rc_pending) (drop n r.(rc_pipe)) (r.(rc_read) ++ [take n r.(rc_pipe)]) true r.(rc_closed) r.(rc_end))
| rs_eof r : r.(rc_alive) = true -> r.(rc_closed) = true -> r.(rc_pipe) = [] ->
    rec_step r (mkRecording r.(rc_written) r.(rc_pending) [] r.(rc_read) true true true)
| rs_fails r : rec_step r (mkRecording r.(rc_written) r.(rc_pending) r.(rc_pipe) r.(rc_read) false r.(rc_closed) r.(rc_end)).

(** Nothing is lost, doubled or moved between the two ends while the upload reads. *)
Record recording_ok (r : recording) : Prop := {
  ok_bytes : r.(rc_alive) = true -> r.(rc_written) = concat r.(rc_read) ++ r.(rc_pipe) ++ r.(rc_pending);
  ok_room : Z.of_nat (length r.(rc_pipe)) <= RECORDING_PIPE_BUFFER;
  ok_pieces : Forall (fun p => p <> []) r.(rc_read);
  ok_closed : r.(rc_closed) = true -> r.(rc_pending) = [];
  ok_end : r.(rc_end) = true -> r.(rc_written) = concat r.(rc_read) /\ r.(rc_pipe) = [] /\ r.(rc_closed) = true }.

Lemma rec_step_ok r r' : rec_step r r' -> recording_ok r -> recording_ok r'.
Proof.
  intros H [Hb Hr Hp Hc He].
  assert (Htake : forall (l : bytes) n, (0 < n <= length l)%nat -> take n l <> []).
  { intros [|x l] [|n] Hn; cbn in *; [lia..|done]. }
  destruct H as [r data Hn Hcl|r n Ha Hn Hroom|r Ha|r Hn|r n Ha Hn|r Ha Hcl Hpi|r]; constructor; cbn; try done.
  - intros Ha. rewrite (Hb Ha), Hn, app_nil_r. by rewrite <- app_assoc.
  - intros H. destruct (He H) as (_ & _ & H'). congruence.
  - intros _. rewrite (Hb Ha). rewrite <- app_assoc. by rewrite take_drop.
  - rewrite length_app, length_take. lia.
  - intros H. rewrite (Hc H). by rewrite drop_nil.
  - intros H. destruct (He H) as (H1 & H2 & H3). rewrite (Hc H3). rewrite H2, take_nil. done.
  - intros Ha. rewrite (Hb Ha), Hn. done.
  - intros H. by destruct (He H) as (H1 & H2 & H3).
  - intros _. rewrite (Hb Ha), concat_app. cbn. rewrite app_nil_r, <- app_assoc. f_equal. by rewrite app_assoc, take_drop.
  - rewrite length_drop. lia.
  - apply Forall_app. split; [done|]. repeat constructor. by apply Htake.
  - intros H. destruct (He H) as (H1 & H2 & H3). rewrite H2 in Hn. cbn in Hn. lia.
  - intros _. rewrite (Hb Ha), Hpi. done.
  - intros _. by apply Hc.
  - intros _. rewrite (Hb Ha), Hpi, (Hc Hcl), !app_nil_r. done.
Qed.
Lemma recording_invariant r : rtc rec_step start_recording r -> recording_ok r.
Proof.
  intros H. assert (H0 : recording_ok start_recording) by (constructor; cbn; try done; unfold RECORDING_PIPE_BUFFER; lia).
  induction H as [|r1 r2 r3 Hs _ IH]; [done|]. apply IH. by eapply rec_step_ok.
Qed.

(** ** What an archive holds *)

Section archived.
Context {St : Type} `{OS : !ObjectStore St} (encoder decoder : reader -> reader) (bucket_sessions : bytes).
(** zstd: what is decompressed from what was compressed is what there was. *)
Hypothesis zstd : forall r r2, good r -> good r2 -> bytes_of r2 = bytes_of (encoder r) ->
  good (decoder r2) /\ bytes_of (decoder r2) = bytes_of r.
Hypothesis encoder_lively : forall r, lively r -> lively (encoder r).

Lemma pieces_good (ps : list bytes) : Forall (fun p => p <> []) ps -> good (Some <$> ps) /\ bytes_of (Some <$> ps) = concat ps.
Proof using Type.
  intros H. split.
  - unfold good. apply Forall_fmap. eapply Forall_impl; [exact H|]. intros p Hp. by exists p.
  - unfold bytes_of. rewrite <- list_fmap_compose. cbn. f_equal. rewrite <- (list_fmap_id ps) at 2. by apply list_fmap_ext.
Qed.

(** C33: The archive of a session is what the tunnel recorded of it.  However the writes of the
    tunnel and the reads of the upload interleave, and whatever their sizes, an upload that came
    to the end of the stream and succeeded has archived, under a key of the Workshop and the
    session, every byte recorded, once and in order: decompressed, it is what was recorded. *)
Theorem archive_exact r workshop session (s s' : St) key r2 :
  rtc rec_step start_recording r -> r.(rc_end) = true ->
  upload_session_archive encoder bucket_sessions workshop session (Some <$> r.(rc_read)) s = (Ok key, s') ->
  get_object bucket_sessions key s' = Ok r2 -> good r2 ->
  key = session_archive_key workshop session /\
  exists replay, get_session_stream decoder bucket_sessions key s' = Ok replay /\ good replay /\ bytes_of replay = r.(rc_written).
Proof using zstd encoder_lively.
  intros Hr Hend Hup Hget Hg2. destruct (recording_invariant _ Hr) as [_ _ Hp _ He]. destruct (He Hend) as [Hw _].
  destruct (pieces_good _ Hp) as [Hg Hb]. unfold upload_session_archive in Hup.
  destruct (upload_stream _ _ _ s) as [[[]|e|] s1] eqn:Eu; [|done..]. injection Hup as <- <-.
  apply upload_stream_effect in Eu as [[_ Hs]|[Hx _]]; [|done|by apply encoder_lively, good_lively].
  specialize (Hs bucket_sessions (session_archive_key workshop session)). rewrite bool_decide_true in Hs by done.
  destruct (get_law _ _ _ _ Hget) as [_ Hr2]. rewrite (Hr2 Hg2) in Hs. injection Hs as Hs.
  destruct (zstd _ _ Hg Hg2 Hs) as [Hd Hbytes]. split; [done|]. exists (decoder r2). unfold get_session_stream, download_stream.
  rewrite Hget. cbn [mbind res_bind]. split_and!; [done|done|]. by rewrite Hbytes, Hb.
Qed.
End archived.

(** The tunnel waits for the upload: as long as the upload reads nothing without failing, a
    tunnel that has filled the pipe writes no more, and with it the terminal. *)
Lemma stalled_upload_blocks r r' : rec_step r r' ->
  Z.of_nat (length r.(rc_pipe)) = RECORDING_PIPE_BUFFER -> r.(rc_pending) <> [] -> r.(rc_alive) = true ->
  r'.(rc_alive) = true -> r'.(rc_read) = r.(rc_read) -> r'.(rc_pending) = r.(rc_pending) /\ r'.(rc_written) = r.(rc_written).
Proof.
  intros H Hf Hn Ha. destruct H as [r data Hp _|r n _ Hl Hroom|r Hd|r Hp|r n _ Hl|r _ _ Hp|r]; cbn; try done.
  exfalso. lia.
Qed.

Definition toy_recording : recording := mkRecording (B "ls") [] [] [B "l"; B "s"] true true true.
Lemma toy_recorded : rtc rec_step start_recording toy_recording.
Proof.
  eapply rtc_l; [apply (rs_chunk _ (B "ls")); reflexivity|]. eapply rtc_l; [apply (rs_push _ 2); [reflexivity|cbn; lia|unfold RECORDING_PIPE_BUFFER; cbn; lia]|].
  eapply rtc_l; [apply (rs_read _ 1); [reflexivity|cbn; lia]|]. eapply rtc_l; [apply (rs_read _ 1); [reflexivity|cbn; lia]|].
  eapply rtc_l; [apply rs_close; reflexivity|]. eapply rtc_l; [apply rs_eof; reflexivity|]. apply rtc_refl.
Qed.
Lemma archive_exact_witness :
  let up := upload_session_archive mark (B "sessions") (B "demo") (B "7") [Some (B "l"); Some (B "s")] empty_store in
  exists replay, get_session_stream unmark (B "sessions") (B "workshops/demo/sessions/7.zst") up.2 = Ok replay /\ bytes_of replay = B "ls".
Proof.
  intros up.
  destruct (archive_exact mark unmark (B "sessions") unmark_mark (fun r Hr => ltac:(by constructor)) toy_recording (B "demo") (B "7") empty_store up.2
    (B "workshops/demo/sessions/7.zst") [Some ([40; 181; 47; 253] ++ B "ls")] toy_recorded eq_refl) as [_ (replay & H1 & _ & H2)].
  - vm_compute. reflexivity.
  - vm_compute. reflexivity.
  - repeat (apply good_cons; [discriminate|]). constructor.
  - exists replay. exact (conj H1 H2).
Defined.
