(* ===== verification/Startup.v ===== *)
(** * The start of the controller and of the API server

    [fn main] and the probe of [src/crates/controller/src/main.rs] and [health.rs], [fn main] of
    [src/crates/api-server/src/main.rs], and the client that trusts one more authority
    ([src/crates/common/src/tls_client.rs]) with which the keys of the issuer are fetched
    ([fetch_jwks] of [src/crates/api-server/src/auth.rs]). *)

From S2P Require Import Prelude RustStr Json Storage OpenBao Auth Routes Provision Eviction.

(** ** One more authority *)

Section tls.
(** The files, what [rustls_pemfile::certs] reads in one, [None] when a block cannot be
    decoded, and whether [reqwest::Certificate::from_pem] takes it. *)
Context {Cert : Type} (read_file : bytes -> option bytes) (pem_certs : bytes -> option (list Cert)) (from_pem : bytes -> bool).

(** The certificates a client trusts beside the public ones. *)
Definition client_builder_trusting_extra_ca (env : string -> option bytes) (env_var : string) : res (option bytes) :=
  match env env_var with
  | None => Ok None
  | Some ca_path =>
      pem ← ok_or (read_file ca_path) "lecture";
      der_certs ← ok_or (pem_certs pem) "bloc PEM illisible";
      if (length der_certs =? 0)%nat then Err "aucun certificat PEM valide trouve dans ce fichier"
      else if from_pem pem then Ok (Some pem) else Err "certificat PEM invalide"
  end.

(** [fetch_jwks]; [http] is the answer a client that trusts these authorities gets, [None]
    when it gets none, and [parse] the reading of its body. *)
Definition fetch_jwks (env : string -> option bytes) (builds : bool) (http : option bytes -> bytes -> option (Z * bytes))
    (parse : bytes -> option JwkSet) (t : TrustedIssuer) : res JwkSet :=
  ca ← client_builder_trusting_extra_ca env "ATELIER_JWT_CA_PATH";
  if negb builds then Err "construction du client HTTP pour le JWKS"
  else match http ca t.(jwks_url) with
       | None => Err "requete de recuperation du JWKS"
       | Some (status, body) =>
           if 400 <=? status then Err "le JWKS n'a pas pu etre recupere" else ok_or (parse body) "reponse JWKS invalide (JSON attendu)"
       end.
End tls.

(** ** The controller *)

(** What [health_ready] finds: Kubernetes, PostgreSQL, and OpenBao when it is configured. *)
Definition health_ready (kube db : bool) (openbao : option bool) : Z * bytes :=
  if negb kube then (503, B "kubernetes injoignable")
  else if negb db then (503, B "postgresql injoignable")
  else match openbao with Some false => (503, B "openbao injoignable") | _ => (200, B "ok") end.

Inductive boot := Connected (url : bytes) | Migrated | Probes (addr : bytes) | RoleReady (namespace account : bytes)
  | EvictionTask (namespace : bytes) (config : option eviction_config) | Reconciles | Serves (addr : bytes).

(** What the start of a program finds: whether it connects to the database at an address,
    migrates it, makes a client of Kubernetes (the first, the second time), binds an address. *)
Record outside := mkOutside { o_connect : bytes -> bool; o_migrate : bool; o_kube : bool; o_kube_again : bool; o_bind : bytes -> bool }.

Definition DEFAULT_HEALTH_ADDR : bytes := B "0.0.0.0:8081".
Section controller.
Context {S : Type} (tr : server S) (env : string -> option bytes) (o : outside).

Definition health_addr : bytes := default DEFAULT_HEALTH_ADDR (env "ATELIER_CONTROLLER_HEALTH_ADDR"%string).
Definition api_server_namespace : bytes := default (B "atelier-system") (env "ATELIER_API_SERVER_NAMESPACE"%string).
Definition api_server_service_account : bytes := default (B "atelier-api-server") (env "ATELIER_API_SERVER_SERVICE_ACCOUNT"%string).
(** The role of the API server, when OpenBao is configured. *)
Definition provision_role (s : S) : S * list boot * res unit :=
  match config_from_env env with
  | Ok None => (s, [], Ok tt)
  | Ok (Some config) =>
      match ensure_api_server_role tr config s api_server_namespace api_server_service_account with
      | (s, Ok _) => (s, [RoleReady api_server_namespace api_server_service_account], Ok tt)
      | (s, _) => (s, [], Err "provisioning du role OpenBao cluster-wide pour api-server")
      end
  | Err e => (s, [], Err e)
  | Panic => (s, [], Panic)
  end.
(** [fn main], up to [reconcile::run]. *)
Definition controller_main (s : S) : S * list boot * res unit :=
  match env "DATABASE_URL"%string with
  | None => (s, [], Err "DATABASE_URL est obligatoire (voir deploy/dev/postgres/README.md)")
  | Some url =>
      if negb (o_connect o url) then (s, [], Err "connexion a PostgreSQL")
      else if negb (o_migrate o) then (s, [Connected url], Err "execution des migrations PostgreSQL")
      else if negb (o_kube o) then (s, [Connected url; Migrated], Err "construction du client Kubernetes")
      else if negb (o_bind o health_addr) then (s, [Connected url; Migrated], Err "bind")
      else
        let '(s, role, r) := provision_role s in
        let evs := [Connected url; Migrated; Probes health_addr] ++ role in
        match r with
        | Ok _ =>
            if negb (o_kube_again o) then (s, evs, Err "construction du client Kubernetes (eviction)")
            else (s, evs ++ [EvictionTask (default (B "default") (env "ATELIER_NAMESPACE"%string)) (run_periodic env); Reconciles], Ok tt)
        | Err e => (s, evs, Err e)
        | Panic => (s, evs, Panic)
        end
  end.
End controller.

(** ** The API server *)

(** The parts of [AppState] that are optional. *)
Record AppState := mkApp {
  as_namespace : bytes; as_openbao : option bytes; as_litellm : option bytes; as_llm_budget : option (bytes * bytes);
  as_salt_key : bool; as_session : option SessionAuthClient; as_storage : option S3Config;
  as_slack_webhook : option bytes; as_slack_secret : option bytes }.
Definition app_state (env : string -> option bytes) : res AppState :=
  let openbao := env "OPENBAO_ADDR"%string in
  let litellm := env "ATELIER_LLM_PROXY_ADDR"%string in
  storage ← s3_config_from_env env;
  Ok (mkApp (default (B "default") (env "ATELIER_NAMESPACE"%string)) openbao litellm
        (match litellm, env "ATELIER_LLM_PROXY_AUTH_TOKEN"%string with
         | Some addr, Some key => if is_empty (trim addr) || is_empty (trim key) then None else Some (addr, key)
         | _, _ => None
         end)
        (match env "ATELIER_LLM_SALT_KEY_CONFIGURED"%string with Some v => beq v (B "true") | None => false end)
        ((fun _ => session_from_env env) <$> openbao) storage
        (env "ATELIER_SLACK_WEBHOOK_URL"%string) (env "ATELIER_SLACK_SIGNING_SECRET"%string)).

(** [fn main]: what it serves with, when it comes to it. *)
Definition api_server_main (env : string -> option bytes) (o : outside) (fetched : TrustedIssuer -> res JwkSet)
  : list boot * res (AppState * AuthState) :=
  if negb (o_kube o) then ([], Err "client Kubernetes")
  else match auth_from_env env fetched, env "DATABASE_URL"%string with
       | Ok auth, Some url =>
           if negb (o_connect o url) then ([], Err "connexion a PostgreSQL")
           else if negb (o_migrate o) then ([Connected url], Err "execution des migrations PostgreSQL")
           else let addr := default (B "0.0.0.0:8080") (env "ATELIER_API_LISTEN_ADDR"%string) in
                match app_state env with
                | Ok st =>
                    if o_bind o addr then ([Connected url; Migrated; Serves addr], Ok (st, auth))
                    else ([Connected url; Migrated], Err "ecoute impossible (ATELIER_API_LISTEN_ADDR)")
                | Err e => ([Connected url; Migrated], Err e)
                | Panic => ([Connected url; Migrated], Panic)
                end
       | Ok _, None => ([], Err "DATABASE_URL est obligatoire (voir deploy/dev/postgres/README.md)")
       | Err e, _ => ([], Err e)
       | Panic, _ => ([], Panic)
       end.

(** ** What is true once they run *)

Section role.
Context {S : Type} (tr : server S) `{KV : !KvV2 tr, AD : !BaoAdmin tr}.

Lemma put_keeps config s path body id :
  (exists n, path = policy_path n \/ path = role_path n) -> kv_view (put tr config s path body).1 id = kv_view s id.
Proof using AD.
  intros (n & Hp). unfold put. destruct (tr s _) as [s1 a] eqn:E. cbn [fst].
  replace s1 with (tr s (mkReq HPut path (Some config.(bc_token)) (Some body))).1 by (by rewrite E).
  destruct Hp as [-> | ->]; apply admin_keeps.
Qed.
Lemma ensure_role_keeps config s role ns accounts policy id :
  kv_view (ensure_role tr config s role ns accounts policy).1 id = kv_view s id.
Proof using AD.
  unfold ensure_role.
  pose proof (put_keeps config s (policy_path role) (JObj [(B "policy", JStr (hcl policy))]) id ltac:(eauto)) as H1.
  destruct (put tr config s _ _) as [s1 [[]| |]]; [|exact H1..]. rewrite put_keeps by eauto. exact H1.
Qed.

Lemma provision_role_spec env s s' evs r :
  provision_role tr env s = (s', evs, r) ->
  (Reconciles ∉ evs) /\ (forall id, kv_view s' id = kv_view s id) /\
  (r = Ok tt ->
     (env "OPENBAO_ADDR"%string = None -> s' = s) /\
     (forall a, env "OPENBAO_ADDR"%string = Some a ->
        policy_view s' API_SERVER_ROLE = Some (JObj [(B "policy", JStr (hcl api_server_policy))]) /\
        role_view s' API_SERVER_ROLE = Some (role_json [api_server_service_account env] (api_server_namespace env) API_SERVER_ROLE))).
Proof using AD.
  unfold provision_role, config_from_env. destruct (env "OPENBAO_ADDR"%string) as [a|] eqn:Ea.
  - destruct (env "OPENBAO_TOKEN"%string) as [tok|]; [|intros [= <- <- <-]; split_and!; [apply not_elem_of_nil|done|done]].
    unfold ensure_api_server_role. destruct (ensure_role tr _ s _ _ _ _) as [s1 r1] eqn:E.
    pose proof (fun id => ensure_role_keeps (mkBaoConfig a tok (default a (env "ATELIER_OPENBAO_POD_ADDR"%string))) s API_SERVER_ROLE
      (api_server_namespace env) [api_server_service_account env] api_server_policy id) as Hk. rewrite E in Hk.
    destruct r1 as [[]| |]; intros [= <- <- <-]; split_and!; try done; try apply not_elem_of_nil; try exact Hk; [set_solver|].
    intros _. split; [done|]. intros b _. apply (ensure_role_ok tr) in E as (H1 & H2 & _). by split.
  - intros [= <- <- <-]. split_and!; [apply not_elem_of_nil|done|]. intros _. by split.
Qed.
End role.

(** The controller reconciles nothing before its database is migrated, its probes are served
    and, with OpenBao, the role is there which the API server of the cluster logs in with, for
    its service account and with the policy of [Provision]; and whatever its start comes to,
    it changes no secret. *)
Theorem controller_starts {S} (tr : server S) `{KV : !KvV2 tr, AD : !BaoAdmin tr} env api_env o s s' evs r :
  controller_main tr env o s = (s', evs, r) ->
  (r = Ok tt <-> Reconciles ∈ evs) /\ (forall id, kv_view s' id = kv_view s id) /\
  (Reconciles ∈ evs ->
     (exists url rest, env "DATABASE_URL"%string = Some url /\
        evs = [Connected url; Migrated; Probes (health_addr env)] ++ rest ++ [Reconciles] /\ Reconciles ∉ rest) /\
     (env "OPENBAO_ADDR"%string = None -> s' = s) /\
     (forall a, env "OPENBAO_ADDR"%string = Some a ->
        let role := (session_from_env api_env).(sc_client).(oc_role) in
        policy_view s' role = Some (JObj [(B "policy", JStr (hcl api_server_policy))]) /\
        role_view s' role = Some (role_json [api_server_service_account env] (api_server_namespace env) role))).
Proof.
  unfold controller_main. destruct (env "DATABASE_URL"%string) as [url|]; [|intros [= <- <- <-]; split_and!; [split; [done|set_solver]|done|set_solver]].
  destruct (o_connect o url); cbn [negb]; [|intros [= <- <- <-]; split_and!; [split; [done|set_solver]|done|set_solver]].
  destruct (o_migrate o); cbn [negb]; [|intros [= <- <- <-]; split_and!; [split; [done|set_solver]|done|set_solver]].
  destruct (o_kube o); cbn [negb]; [|intros [= <- <- <-]; split_and!; [split; [done|set_solver]|done|set_solver]].
  destruct (o_bind o _); cbn [negb]; [|intros [= <- <- <-]; split_and!; [split; [done|set_solver]|done|set_solver]].
  destruct (provision_role tr env s) as [[s1 role] r1] eqn:E. apply (provision_role_spec tr) in E as (Hn & Hk & Hok).
  destruct r1 as [[]| |]; [|intros [= <- <- <-]; split_and!; [split; [done|set_solver]|done|set_solver]..].
  destruct (o_kube_again o); cbn [negb]; [|intros [= <- <- <-]; split_and!; [split; [done|set_solver]|done|set_solver]].
  intros [= <- <- <-]. destruct (Hok eq_refl) as [H1 H2]. split_and!; [split; [set_solver|done]|done|]. intros _. split_and!; [|done|].
  - eexists url, (role ++ [_]). split_and!; [done|cbn; do 3 f_equal; by rewrite <- app_assoc|].
    rewrite not_elem_of_app. split; [done|]. by intros ?%list_elem_of_singleton.
  - intros a Ha. exact (H2 a Ha).
Qed.

(** The keys tokens are verified with come from the address of the issuer, over a client that
    trusts no more than the public authorities and the file that is configured; a file that
    is configured is never ignored: it holds a certificate, or there are no keys. *)
Lemma issuer_keys_trusted {Cert} read_file (pem_certs : bytes -> option (list Cert)) from_pem env o builds http parse evs st jwks t :
  api_server_main env o (fetch_jwks read_file pem_certs from_pem env builds http parse) = (evs, Ok (st, Configured jwks t)) ->
  exists ca status body, http ca t.(jwks_url) = Some (status, body) /\ status < 400 /\ parse body = Some jwks /\
    env "ATELIER_JWT_ISSUER"%string = Some t.(issuer) /\
    match env "ATELIER_JWT_CA_PATH"%string with
    | None => ca = None
    | Some path => exists pem certs, read_file path = Some pem /\ pem_certs pem = Some certs /\ certs <> [] /\ ca = Some pem
    end.
Proof.
  unfold api_server_main. destruct (o_kube o); cbn [negb]; [|done].
  destruct (auth_from_env env _) as [auth| |] eqn:Ea; [|done..]. destruct (env "DATABASE_URL"%string) as [url|]; [|done].
  destruct (o_connect o url); cbn [negb]; [|done]. destruct (o_migrate o); cbn [negb]; [|done].
  destruct (app_state env) as [st'| |]; [|done..]. destruct (o_bind o _); [|done]. intros [= _ _ ->].
  unfold auth_from_env in Ea. destruct (issuer_from_env env) as [[t'|]| |] eqn:Ei; cbn [mbind res_bind] in Ea; try done.
  destruct (fetch_jwks _ _ _ _ _ _ _ t') as [j| |] eqn:Ef; cbn [mbind res_bind] in Ea; try done. injection Ea as -> ->.
  assert (Hi : env "ATELIER_JWT_ISSUER"%string = Some t.(issuer)).
  { unfold issuer_from_env in Ei. destruct (env "ATELIER_JWT_ISSUER"%string); [|done].
    destruct (env "ATELIER_JWT_JWKS_URL"%string); [|done]. destruct (env "ATELIER_JWT_AUDIENCE"%string); [|done]. cbn in Ei. by injection Ei as <-. }
  unfold fetch_jwks in Ef. destruct (client_builder_trusting_extra_ca _ _ _ _ _) as [ca| |] eqn:Ec; cbn [mbind res_bind] in Ef; try done.
  destruct builds; cbn [negb] in Ef; [|done]. destruct (http ca (jwks_url t)) as [[status body]|] eqn:Eh; [|done].
  destruct (Z.leb_spec 400 status); [done|]. destruct (parse body) as [j|] eqn:Ep; [|done]. injection Ef as ->.
  exists ca, status, body. split_and!; [done|lia|done|done|].
  unfold client_builder_trusting_extra_ca in Ec. destruct (env "ATELIER_JWT_CA_PATH"%string) as [path|]; [|by injection Ec as <-].
  destruct (read_file path) as [pem|]; cbn [ok_or mbind res_bind] in Ec; [|done].
  destruct (pem_certs pem) as [certs|] eqn:Ecs; cbn [ok_or mbind res_bind] in Ec; [|done].
  destruct (Nat.eqb_spec (length certs) 0); [done|]. destruct (from_pem pem); [|done]. injection Ec as <-.
  exists pem, certs. split_and!; try done. by intros ->.
Qed.

(** The controller is ready exactly when all that it depends on answers. *)
Lemma health_ready_spec kube db openbao :
  (health_ready kube db openbao).1 = 200 <-> kube = true /\ db = true /\ openbao <> Some false.
Proof. unfold health_ready. destruct kube, db, openbao as [[]|]; cbn; naive_solver. Qed.

Definition boot_env (name : string) : option bytes :=
  if String.eqb name "OPENBAO_ADDR" then Some (B "http://openbao:8200")
  else if String.eqb name "OPENBAO_TOKEN" then Some toy_token
  else if String.eqb name "DATABASE_URL" then Some (B "postgres://db/atelier_controller") else None.
Definition all_well : outside := mkOutside (fun _ => true) true true true (fun _ => true).

Lemma controller_starts_witness :
  let '(s', evs, r) := controller_main toy_admin boot_env all_well toy_store in
  r = Ok tt /\ role_view s' API_SERVER_ROLE = Some (role_json [B "atelier-api-server"] (B "atelier-system") API_SERVER_ROLE).
Proof.
  destruct (controller_main toy_admin boot_env all_well toy_store) as [[s' evs] r] eqn:E.
  destruct (controller_starts toy_admin boot_env (fun _ => None) all_well toy_store s' evs r E) as (Hr & _ & Hok).
  assert (Hr' : r = Ok tt) by (vm_compute in E; by injection E as _ _ <-). split; [done|].
  destruct (Hok (proj1 Hr Hr')) as (_ & _ & Hrole). exact (proj2 (Hrole _ eq_refl)).
Defined.
