(* ===== verification/VmStart.v ===== *)
(** * The life of vm-supervisor

    [fn main] of [src/crates/vm-supervisor/src/main.rs] from its first command to its end: the
    link of the microVM and its packet filter, the suspension it starts from, the start, the
    control loop, and what a start that fails leaves behind; with the digest of a suspension,
    and the console of the microVM ([src/crates/firecracker/src/vm.rs]). *)

From S2P Require Import Prelude RustStr Utf8 Stream VmSupervisor Firewall VmResources.

(** ** The host *)

(** The interfaces of the pod, and its packet filter. *)
Record host (F : Type) := mkHost { h_taps : gset bytes; h_filter : F }.
Arguments mkHost {F}.
Arguments h_taps {F}.
Arguments h_filter {F}.

Definition tap_add (tap : bytes) : list bytes := [B "tuntap"; B "add"; tap; B "mode"; B "tap"].
Definition tap_del (tap : bytes) : list bytes := [B "tuntap"; B "del"; tap; B "mode"; B "tap"].

(** What is relied on of [ip]: an interface is created once, and is there until it is
    deleted, which the other commands do not do. *)
Class IpTool (ip : list bytes -> gset bytes -> option (gset bytes)) := {
  ip_add_taken tap taps : tap ∈ taps -> ip (tap_add tap) taps = None;
  ip_add tap taps taps' : ip (tap_add tap) taps = Some taps' -> taps' = {[tap]} ∪ taps;
  ip_del tap taps taps' : ip (tap_del tap) taps = Some taps' -> taps' = taps ∖ {[tap]};
  ip_other args taps taps' : head args <> Some (B "tuntap") -> ip args taps = Some taps' -> taps' = taps }.

(** [run(...).await?] in sequence, with what is done when one fails. *)
Fixpoint run_until {C W} (run : C -> W -> option W) (cmds : list C) (w : W) : W * bool :=
  match cmds with
  | [] => (w, true)
  | c :: cmds => match run c w with Some w => run_until run cmds w | None => (w, false) end
  end.

(** ** [fn main] *)

Definition VM_TAP : bytes := B "atelier-vm".
Definition control_addr (env : string -> option bytes) : bytes := default (B "0.0.0.0:8081") (env "ATELIER_VM_CONTROL_ADDR"%string).

Definition E_TAP : string := "creation du TAP pour la microVM de l'agent (CAP_NET_ADMIN requis)".
Definition E_RULES : string := "pose des regles iptables de la passerelle transparente".
Definition E_PATHS : string := "ATELIER_VM_KERNEL_PATH et ATELIER_VM_ROOTFS_PATH sont requis".
Definition E_START : string := "demarrage de la microVM".
Definition E_CONTROL : string := "ecoute du serveur de controle".
Definition E_STOP : string := "arret de la microVM".

Inductive vm_event := Started (s : startup) | Acted (a : action).

(** What the start finds: whether the microVM starts so, whether the address of the control
    server is free, whether the microVM ends well. *)
Record vm_outcomes := mkOutcomes { vo_start : startup -> bool; vo_bind : bytes -> bool; vo_shutdown : bool }.

Section main.
Context `{Netfilter F} (ip : list bytes -> gset bytes -> option (gset bytes)).
Context (subnet : Z -> Z -> option ((Z * Z * Z * Z) * (Z * Z * Z * Z) * Z)).

(** The link and its filter. *)
Definition set_up (env : string -> option bytes) (h : host F) : host F * res NetworkSetup :=
  match setup_link_local_tap subnet VM_TAP 0 with
  | None => (h, Err E_TAP)
  | Some (cmds, n) =>
      let '(taps, ok) := run_until ip cmds (h_taps h) in
      if negb ok then (mkHost taps (h_filter h), Err E_TAP)
      else
        let '(np, http, tls, md) := VmResources.gateway_ports env in
        let '(f, ok) := run_until nf_run (enable_transparent_gateway n np http tls (Some md)) (h_filter h) in
        (mkHost taps f, if ok then Ok n else Err E_RULES)
  end.

(** The suspension: [store] is the object store, when it is configured. *)
Definition local_suspension (env : string -> option bytes) (store : option (bucket * (fname -> answers))) (d : dir) : dir :=
  match env "ATELIER_VM_SNAPSHOT_DIR"%string, env "ATELIER_VM_SNAPSHOT_S3_PREFIX"%string, store with
  | Some _, Some _, Some (b, a) => run_ops (s3_fallback b a d) d
  | _, _, _ => d
  end.
Definition startup_of (env : string -> option bytes) (d : dir) : startup :=
  match env "ATELIER_VM_SNAPSHOT_DIR"%string with Some _ => start_vm d | None => ColdBoot end.

(** The actions of the loop; [teardown] also deletes the interface, best effort. *)
Definition do_action (n : NetworkSetup) (h : host F) (a : action) : host F :=
  mkHost (match a with Teardown => default (h_taps h) (ip (tap_del (tap_name n)) (h_taps h)) | _ => h_taps h end)
         (filter_action n (h_filter h) a).
(** Each with the host after it. *)
Fixpoint perform (n : NetworkSetup) (h : host F) (acts : list action) : list (vm_event * host F) :=
  match acts with
  | [] => []
  | a :: acts => let h := do_action n h a in (Acted a, h) :: perform n h acts
  end.
Definition performed (n : NetworkSetup) (h : host F) (acts : list action) : host F := fold_left (do_action n) acts h.

(** The host it leaves, what happened, and how it ended, [None] while it is in its loop.
    [inputs] are those of the loop. *)
Definition vm_main (env : string -> option bytes) (store : option (bucket * (fname -> answers))) (d : dir) (h : host F)
    (o : vm_outcomes) (inputs : list loop_input) : host F * list (vm_event * host F) * option (res unit) :=
  match set_up env h with
  | (h, Ok n) =>
      match vm_config env n with
      | None => (h, [], Some (Err E_PATHS))
      | Some _ =>
          let s := startup_of env (local_suspension env store d) in
          if negb (vo_start o s) then (h, [], Some (Err E_START))
          else if negb (vo_bind o (control_addr env)) then (h, [(Started s, h)], Some (Err E_CONTROL))
          else
            let acts := control_loop inputs in
            (performed n h acts, (Started s, h) :: perform n h acts,
             if bool_decide (Teardown ∈ acts) then Some (if vo_shutdown o then Ok tt else Err E_STOP) else None)
      end
  | (h, Err e) => (h, [], Some (Err e))
  | (h, Panic) => (h, [], Some Panic)
  end.
End main.

(** ** The microVM never runs unfiltered *)

(** The commands that make the link: the interface first. *)
Lemma link_commands subnet cmds n : setup_link_local_tap subnet VM_TAP 0 = Some (cmds, n) ->
  tap_name n = VM_TAP /\ exists rest, cmds = tap_add VM_TAP :: rest /\ Forall (fun args => head args <> Some (B "tuntap")) rest.
Proof.
  unfold setup_link_local_tap. change (Nat.leb (length VM_TAP) 15) with true.
  destruct (subnet 0 30) as [[[host guest] len]|]; cbn [mbind option_bind]; [|done]. intros [= <- <-]. split; [done|].
  eexists. split; [reflexivity|]. by repeat constructor.
Qed.

Lemma run_until_all `{Netfilter F} cmds f f' : run_until nf_run cmds f = (f', true) -> run_all cmds f = Some f'.
Proof.
  revert f; induction cmds as [|c cmds IH]; intros f; cbn [run_until]; [by intros [= ->]|].
  rewrite run_all_cons. destruct (nf_run c f); [apply IH|done].
Qed.

(** Whatever comes from the link is not forwarded, and what is let in is what the gateway
    admits. *)
Definition confines `{Netfilter F} (n : NetworkSetup) (ports : list Z) (f : F) : Prop :=
  forall p, pk_in p = tap_name n ->
    let p' := rewritten n (nf_verdict f TNat PREROUTING p) p in
    nf_verdict f TFilter FORWARD p' = Some Drop /\
    (nf_verdict f TFilter INPUT p' = Some Drop \/ nf_verdict f TFilter INPUT p' = Some Accept /\ admitted n ports p' = true).

Lemma in_place_confines `{Netfilter F} n k ports nat before (f : F) :
  link_free (tap_name n) before -> gateway_in_place n (replicate k drop_all ++ chain_rules n ports) nat before (nf_rules f) ->
  confines n ports f.
Proof.
  intros Hfree Hg p Hp p'. assert (Hp' : pk_in p' = tap_name n) by (unfold p'; by rewrite rewritten_in).
  split; [by apply (forward_verdict _ _ _ _ _ Hfree Hg)|].
  rewrite (input_verdict _ _ _ _ _ Hfree (no_jump_drops k _ (chain_rules_no_jump n ports)) Hg) by done.
  destruct k as [|k]; cbn [replicate app].
  - rewrite chain_rules_verdict. destruct (admitted n ports p'); auto.
  - by left.
Qed.

(** The loop shuts the microVM down once, just before it takes the link away. *)
Definition stays_up (acts : list action) : Prop := (Shutdown ∉ acts) /\ (Teardown ∉ acts).
Lemma loop_shape inputs :
  exists acts, stays_up acts /\ (control_loop inputs = acts \/ control_loop inputs = acts ++ [Shutdown; Teardown]).
Proof.
  assert (Hn : stays_up []) by (split; apply not_elem_of_nil).
  induction inputs as [|i inputs (acts & [Hs Ht] & IH)]; cbn [control_loop]; [by exists []; auto|].
  destruct i as [[] ok| |[[]|]]; cbn [loop_round app].
  - eexists ([FreezeEgress; VmSupervisor.Snapshot; Respond ok; MarkLocked] ++ acts). split; [split; set_solver|].
    destruct IH as [-> | ->]; auto.
  - destruct ok; cbn [app].
    + exists [VmSupervisor.Snapshot; Respond true]. split; [split; set_solver|]. by right.
    + exists ([VmSupervisor.Snapshot; Respond false] ++ acts). split; [split; set_solver|]. destruct IH as [-> | ->]; auto.
  - exists []. auto.
  - exists acts. split; [by split|]. destruct IH as [-> | ->]; auto.
  - exists []. auto.
  - exists []. auto.
Qed.
Lemma up_before_shutdown inputs pre post : control_loop inputs = pre ++ post -> Shutdown ∉ pre -> Teardown ∉ pre.
Proof.
  intros Hl Hs. destruct (loop_shape inputs) as (acts & [_ Ht] & [E|E]); rewrite E in Hl.
  - subst acts. set_solver.
  - intros Hin. apply app_eq_inv in Hl as [(k & -> & Hk)|(k & -> & Hk)]; [set_solver|].
    destruct k as [|x k]; [rewrite app_nil_r in Hin; done|]. injection Hk as <- _. set_solver.
Qed.

Section filtered.
Context `{Netfilter F} (ip : list bytes -> gset bytes -> option (gset bytes)).
Context (subnet : Z -> Z -> option ((Z * Z * Z * Z) * (Z * Z * Z * Z) * Z)).

Lemma set_up_spec env h h1 n : set_up ip subnet env h = (h1, Ok n) ->
  exists cmds, setup_link_local_tap subnet VM_TAP 0 = Some (cmds, n) /\
  let '(np, http, tls, md) := VmResources.gateway_ports env in
  run_all (enable_transparent_gateway n np http tls (Some md)) (h_filter h) = Some (h_filter h1).
Proof.
  unfold set_up. destruct (setup_link_local_tap subnet VM_TAP 0) as [[cmds n']|]; [|done].
  destruct (run_until ip cmds (h_taps h)) as [taps []]; cbn [negb]; [|done].
  destruct (VmResources.gateway_ports env) as [[[np http] tls] md].
  destruct (run_until nf_run _ (h_filter h)) as [f []] eqn:Er; [|done]. intros [= <- <-].
  exists cmds. split; [done|]. by apply run_until_all.
Qed.

Lemma perform_split n h acts pre e hh post :
  perform ip n h acts = pre ++ (e, hh) :: post ->
  exists a b, acts = a ++ b /\ (Acted <$> a) = (pre ++ [(e, hh)]).*1 /\ h_filter hh = filter_actions n a (h_filter h).
Proof.
  revert h pre; induction acts as [|x acts IH]; intros h pre; cbn [perform]; [by destruct pre|].
  destruct pre as [|y pre]; cbn [app]; intros [= ? Hr]; subst.
  - by exists [x], acts.
  - destruct (IH _ _ Hr) as (a & b & -> & Ha & Hf). exists (x :: a), b. split_and!; [done|cbn; by rewrite Ha|done].
Qed.
End filtered.

(** C14: The microVM never runs unfiltered.  From the moment vm-supervisor starts it to the moment
    it shuts it down, whatever suspension it starts from, and whatever requests and states its
    loop meets, every packet of the microVM's link is kept from being forwarded, and is let in
    only where the gateway admits it; a start that fails in setting up the link or the filter
    starts no microVM. *)
Theorem never_unfiltered `{Netfilter F} ip subnet env store d (h h' : host F) o inputs trace r cmds n pre e hh post :
  setup_link_local_tap subnet VM_TAP 0 = Some (cmds, n) -> link_free VM_TAP (nf_rules (h_filter h)) ->
  vm_main ip subnet env store d h o inputs = (h', trace, r) ->
  trace = pre ++ (e, hh) :: post -> Acted Shutdown ∉ (pre ++ [(e, hh)]).*1 ->
  let '(np, http, tls, md) := VmResources.gateway_ports env in
  confines n (Firewall.gateway_ports np http tls (Some md)) (h_filter hh).
Proof.
  intros Hn Hfree Hm Ht Hs. unfold vm_main in Hm. destruct (set_up ip subnet env h) as [h1 [n'| |]] eqn:Es;
    [|injection Hm as _ <- _; by destruct pre..].
  apply set_up_spec in Es as (cmds' & Hn' & Hrun). rewrite Hn in Hn'. injection Hn' as <- <-.
  destruct (VmResources.gateway_ports env) as [[[np http] tls] md]. apply gateway_run in Hrun.
  destruct (link_commands _ _ _ Hn) as [Htap _].
  rewrite <- Htap in Hfree.
  assert (Hstart : confines n (Firewall.gateway_ports np http tls (Some md)) (h_filter h1)) by (by apply (in_place_confines n 0 _ _ _ _ Hfree Hrun)).
  destruct (vm_config env n) as [c|]; [|injection Hm as _ <- _; by destruct pre].
  destruct (vo_start o _); cbn [negb] in Hm; [|injection Hm as _ <- _; by destruct pre].
  destruct (vo_bind o _); cbn [negb] in Hm.
  - injection Hm as _ <- _. destruct pre as [|x pre]; [by injection Ht as _ <-|]. injection Ht as <- Ht.
    destruct (perform_split ip n h1 _ _ _ _ _ Ht) as (a & b & Hab & Ha & Hf). rewrite Hf.
    assert (Hup : Teardown ∉ a).
    { apply (up_before_shutdown inputs a b Hab). intros Hin. apply Hs. cbn [app fmap list_fmap]. apply elem_of_cons. right.
      rewrite <- Ha. by apply list_elem_of_fmap_2. }
    destruct (actions_in_place n a _ _ _ _ Hup Hrun) as [k Hk]. by apply (in_place_confines n k _ _ _ _ Hfree Hk).
  - injection Hm as _ <- _. destruct pre as [|x [|]]; [|done..]. by injection Ht as _ <-.
Qed.

(** ** What a start that fails leaves *)

Section restart.
Context `{Netfilter F} (ip : list bytes -> gset bytes -> option (gset bytes)) `{IT : !IpTool ip}.
Context (subnet : Z -> Z -> option ((Z * Z * Z * Z) * (Z * Z * Z * Z) * Z)).

Lemma run_until_keeps cmds taps : Forall (fun args => head args <> Some (B "tuntap")) cmds -> (run_until ip cmds taps).1 = taps.
Proof using IT.
  induction 1 as [|args cmds Ha _ IH] in taps |- *; [done|]. cbn [run_until]. destruct (ip args taps) eqn:E; [|done].
  apply ip_other in E as ->; [apply IH|done].
Qed.

(** The link is there when its commands succeeded, and when they did not all succeed because of
    another than the first. *)
Lemma link_made cmds n taps taps' :
  setup_link_local_tap subnet VM_TAP 0 = Some (cmds, n) -> run_until ip cmds taps = (taps', true) -> VM_TAP ∈ taps'.
Proof using IT.
  intros (_ & rest & -> & Hrest)%link_commands. cbn [run_until]. destruct (ip (tap_add VM_TAP) taps) as [t1|] eqn:E; [|done].
  apply ip_add in E as ->. intros Hr. pose proof (run_until_keeps rest ({[VM_TAP]} ∪ taps) Hrest) as Hk.
  rewrite Hr in Hk. cbn [fst] in Hk. rewrite Hk. set_solver.
Qed.

Lemma link_taken env h cmds n : setup_link_local_tap subnet VM_TAP 0 = Some (cmds, n) -> VM_TAP ∈ h_taps h ->
  set_up ip subnet env h = (h, Err E_TAP).
Proof using IT.
  intros Hn Ht. unfold set_up. rewrite Hn. apply link_commands in Hn as (_ & rest & -> & _).
  cbn [run_until]. rewrite ip_add_taken by done. by destruct h.
Qed.

Lemma performed_keeps n h acts : Teardown ∉ acts -> h_taps (performed ip n h acts) = h_taps h.
Proof.
  induction acts as [|a acts IH] in h |- *; intros Hn; [done|]. cbn [performed fold_left]. apply not_elem_of_cons in Hn as [Ha Hn].
  unfold performed in IH. rewrite (IH _ Hn). by destruct a.
Qed.

Lemma perform_events n h acts : (perform ip n h acts).*1 = Acted <$> acts.
Proof. induction acts as [|a acts IH] in h |- *; [done|]. cbn [perform fmap list_fmap fst]. f_equal. apply IH. Qed.
End restart.

(** A start that ends in an error once its link is made is the last one of its pod: nothing
    takes the link away on these paths, [ip] refuses to create it again, and no later start of
    the container, whatever its environment and its suspension, starts a microVM. *)
Theorem failed_start_final `{Netfilter F} ip `{!IpTool ip} subnet env store d (h h' : host F) o inputs trace r cmds n :
  setup_link_local_tap subnet VM_TAP 0 = Some (cmds, n) ->
  vm_main ip subnet env store d h o inputs = (h', trace, Some r) -> r <> Err E_TAP -> Acted Teardown ∉ trace.*1 ->
  forall env' store' d' o' inputs', vm_main ip subnet env' store' d' h' o' inputs' = (h', [], Some (Err E_TAP)).
Proof.
  intros Hn Hm Hr Ht env' store' d' o' inputs'.
  assert (Hin : VM_TAP ∈ h_taps h'); [|unfold vm_main; by rewrite (link_taken ip subnet env' h' cmds n)].
  unfold vm_main, set_up in Hm. rewrite Hn in Hm. destruct (run_until ip cmds (h_taps h)) as [taps []] eqn:Er; cbn [negb] in Hm;
    [|injection Hm as _ _ <-; done].
  apply (link_made ip subnet cmds n) in Er; [|done]. destruct (VmResources.gateway_ports env) as [[[np http] tls] md].
  destruct (run_until nf_run _ (h_filter h)) as [f []]; [|by injection Hm as <- _ _].
  destruct (vm_config env n); [|by injection Hm as <- _ _].
  destruct (vo_start o _); cbn [negb] in Hm; [|by injection Hm as <- _ _].
  destruct (vo_bind o _); cbn [negb] in Hm; [|by injection Hm as <- _ _].
  injection Hm as <- <- Hend. case_bool_decide as Hd; [|done]. exfalso. apply Ht. cbn [fmap list_fmap]. apply elem_of_cons. right.
  change (Acted Teardown ∈ (perform ip n (mkHost taps f) (control_loop inputs)).*1). rewrite perform_events. by apply list_elem_of_fmap_2.
Qed.

(** An instance, and a pod where the first start fails because the microVM does not boot; and
    one whose first start ended with its loop. *)
Definition exact_ip (args : list bytes) (taps : gset bytes) : option (gset bytes) :=
  match args with
  | [cmd; op; tap; mode; kind] =>
      if bool_decide (args = tap_add tap) then (if bool_decide (tap ∈ taps) then None else Some ({[tap]} ∪ taps))
      else if bool_decide (args = tap_del tap) then Some (taps ∖ {[tap]}) else Some taps
  | _ => Some taps
  end.
#[global] Instance exact_ip_tool : IpTool exact_ip.
Proof.
  assert (Hne : forall t, tap_del t <> tap_add t) by (intros t [=]).
  split; intros *; unfold exact_ip.
  - intros Ht. unfold tap_add at 1. rewrite !bool_decide_true by done. done.
  - unfold tap_add at 1. rewrite (bool_decide_true (tap_add tap = _)) by done. case_bool_decide; [done|]. by intros [= <-].
  - unfold tap_del at 1. rewrite bool_decide_false by done. rewrite bool_decide_true by done. by intros [= <-].
  - intros Hh. destruct args as [|a [|b [|c [|e [|g []]]]]]; try by intros [= <-].
    rewrite !bool_decide_false by (intros E; apply Hh; by rewrite E). by intros [= <-].
Qed.

Definition vm_subnet (index length : Z) : option ((Z * Z * Z * Z) * (Z * Z * Z * Z) * Z) :=
  Some ((169, 254, 0, 1), (169, 254, 0, 2), length).
Definition boot_env (name : string) : option bytes :=
  if String.eqb name "ATELIER_VM_KERNEL_PATH" then Some (B "/kernel")
  else if String.eqb name "ATELIER_VM_ROOTFS_PATH" then Some (B "/rootfs.ext4") else None.
Definition fresh_pod : host rulesets := mkHost ∅ pod_filter.
Definition starts_when (ok : bool) : vm_outcomes := mkOutcomes (fun _ => ok) (fun _ => true) true.

Lemma failed_start_final_witness :
  let '(h', trace, r) := vm_main exact_ip vm_subnet boot_env None ∅ fresh_pod (starts_when false) [] in
  r = Some (Err E_START) /\ vm_main exact_ip vm_subnet boot_env None ∅ h' (starts_when true) [] = (h', [], Some (Err E_TAP)).
Proof.
  destruct (vm_main exact_ip vm_subnet boot_env None ∅ fresh_pod (starts_when false) []) as [[h' trace] r] eqn:E.
  assert (Hr : trace = [] /\ r = Some (Err E_START)).
  { pose proof (f_equal (fun x => (x.1.2, x.2)) E) as E2. cbn [fst snd] in E2.
    assert (E3 : (([] : list (vm_event * host rulesets)), Some (@Err unit E_START)) = (trace, r)) by (rewrite <- E2; vm_compute; reflexivity).
    inversion E3; subst; by split. }
  destruct Hr as [-> ->]. split; [done|].
  apply (failed_start_final (H := exact_filter) exact_ip vm_subnet boot_env None ∅ fresh_pod h' (starts_when false) [] [] (Err E_START)
    _ _ eq_refl E); [done|set_solver].
Defined.

Lemma never_unfiltered_witness :
  let '(_, trace, _) := vm_main exact_ip vm_subnet boot_env None ∅ fresh_pod (starts_when true) [Request true true] in
  exists hh, last trace = Some (Acted MarkLocked, hh) /\ confines vm_network (Firewall.gateway_ports 3128 3180 3181 (Some 3132)) (h_filter hh).
Proof.
  destruct (vm_main exact_ip vm_subnet boot_env None ∅ fresh_pod (starts_when true) [Request true true]) as [[h' trace] r] eqn:E.
  assert (Hev : trace.*1 = [Started ColdBoot; Acted FreezeEgress; Acted VmSupervisor.Snapshot; Acted (Respond true); Acted MarkLocked]).
  { pose proof (f_equal (fun x => x.1.2.*1) E) as E2. cbn [fst snd] in E2. rewrite <- E2. vm_compute. reflexivity. }
  assert (Hlast : exists pre hh, trace = pre ++ [(Acted MarkLocked, hh)]).
  { destruct trace as [|x0 [|x1 [|x2 [|x3 [|[e hh] []]]]]]; try done. injection Hev as _ _ _ _ ->. by exists [x0; x1; x2; x3], hh. }
  destruct Hlast as (pre & hh & ->). exists hh. split; [apply last_snoc|].
  apply (never_unfiltered (H := exact_filter) exact_ip vm_subnet boot_env None ∅ fresh_pod h' (starts_when true) [Request true true]
    (pre ++ [(Acted MarkLocked, hh)]) r (tap_add VM_TAP :: [[B "addr"; B "add"; B "169.254.0.1/30"; B "dev"; VM_TAP]; [B "link"; B "set"; VM_TAP; B "up"]])
    vm_network pre (Acted MarkLocked) hh []); [vm_compute; reflexivity|apply pod_filter_free|done|done|].
  rewrite Hev. intros Hin. repeat (apply elem_of_cons in Hin as [Hin|Hin]; [done|]). by apply not_elem_of_nil in Hin.
Defined.

(** After its loop has ended, the same pod starts again. *)
Lemma ended_start_again :
  let '(h', _, r) := vm_main exact_ip vm_subnet boot_env None ∅ fresh_pod (starts_when true) [Poll (Some false)] in
  r = Some (Ok tt) /\ (vm_main exact_ip vm_subnet boot_env None ∅ h' (starts_when true) []).2 = None.
Proof. vm_compute. by split. Qed.

(** ** The digest of a suspension *)

(** What is relied on of the hash: updates add up. *)
Class Hasher {H : Type} (init : H) (update : H -> bytes -> H) (finish : H -> bytes) (sha256 : bytes -> bytes) := {
  hash_all s : finish (update init s) = sha256 s;
  hash_more h a b : update (update h a) b = update h (a ++ b);
  hash_none h : update h [] = h }.

Section digest.
Context {H : Type} (init : H) (update : H -> bytes -> H) (finish : H -> bytes).
Definition READ_SIZE : nat := 1024 * 1024.
(** What a read gives of what is left of a file: [sizes] are the numbers of bytes of the reads,
    each at least one and at most the buffer. *)
Fixpoint read_file (h : H) (left_ : bytes) (sizes : list nat) : option H :=
  match left_, sizes with
  | [], _ => Some h
  | _, [] => None
  | _, n :: sizes => let n := Nat.max 1 (Nat.min n READ_SIZE) in read_file (update h (take n left_)) (drop n left_) sizes
  end.
(** [fn snapshot_digest]: [files] are their contents, [None] for one that cannot be opened. *)
Fixpoint digest_files (h : H) (files : list (option bytes * list nat)) : option (res H) :=
  match files with
  | [] => Some (Ok h)
  | (None, _) :: _ => Some (Err "ouverture pour son empreinte")
  | (Some content, sizes) :: files => h ← read_file h content sizes; digest_files h files
  end.
Definition snapshot_digest (files : list (option bytes * list nat)) : option (res bytes) :=
  r ← digest_files init files; Some (h ← r; Ok (B "sha256:" ++ finish h)).
End digest.

Section digest_spec.
Context {H : Type} (init : H) (update : H -> bytes -> H) (finish : H -> bytes) (sha256 : bytes -> bytes).
Context `{HS : !Hasher init update finish sha256}.

(** Reads of whatever sizes, as many as there are bytes, come to the end of the file. *)
Lemma read_file_whole content h sizes : (length content <= length sizes)%nat -> read_file update h content sizes = Some (update h content).
Proof using HS.
  remember (length content) as k eqn:Hk. revert content Hk h sizes. induction k as [k IH] using lt_wf_ind. intros [|b content] Hk h [|n sizes]; cbn [length] in *; intros Hl.
  - cbn. by rewrite hash_none.
  - cbn. by rewrite hash_none.
  - lia.
  - cbn [read_file]. set (m := Nat.max 1 (Nat.min n READ_SIZE)). assert (Hm : (1 <= m)%nat) by lia.
    rewrite (IH (length (drop m (b :: content)))); [|rewrite length_drop; cbn [length]; lia|done|rewrite length_drop; cbn [length]; lia].
    by rewrite hash_more, take_drop.
Qed.
Lemma digest_files_spec files h : Forall (fun f => exists c, f.1 = Some c /\ (length c <= length f.2)%nat) files ->
  digest_files update h files = Some (Ok (update h (concat (default [] <$> files.*1)))).
Proof using HS.
  induction 1 as [|[f sizes] files (c & Hc & Hl) _ IH] in h |- *; cbn [digest_files fmap list_fmap concat]; [by rewrite hash_none|].
  cbn [fst snd] in *. subst f. rewrite read_file_whole by done. cbn [mbind option_bind]. rewrite IH, hash_more. done.
Qed.
(** The digest of files that can be read is the hash of their contents, one after the other,
    however the reads cut them. *)
Theorem digest_exact files : Forall (fun f => exists c, f.1 = Some c /\ (length c <= length f.2)%nat) files ->
  snapshot_digest init update finish files = Some (Ok (B "sha256:" ++ sha256 (concat (default [] <$> files.*1)))).
Proof using HS.
  intros Hf. unfold snapshot_digest. rewrite digest_files_spec by done. cbn [mbind option_bind res_bind]. by rewrite hash_all.
Qed.
End digest_spec.

(** ** The console *)

(** [Lines::next_line]: a line without its ending. *)
Definition chomp (l : bytes) : bytes := match rev l with 10 :: r => strip_cr (rev r) | _ => l end.
(** [drain_lines]: the lines that are logged, and what is left unread. *)
Fixpoint drain_lines (fuel : nat) (s : bytes) : list bytes * bytes :=
  match fuel with
  | O => ([], s)
  | S fuel =>
      match s with
      | [] => ([], [])
      | _ => match read_line s with
             | Ok (l, rest) => prod_map (cons (chomp l)) id (drain_lines fuel rest)
             | _ => ([], (until_nl s).2)
             end
      end
  end.

Lemma chomp_line l : chomp (l ++ [10]) = strip_cr l.
Proof. unfold chomp. rewrite rev_unit. by rewrite rev_involutive. Qed.
Lemma chomp_last l : 10 ∉ l -> chomp l = l.
Proof.
  intros H. unfold chomp. destruct (rev l) as [|b r] eqn:E; [done|].
  assert (Hb : b ∈ l) by (apply list_elem_of_In, in_rev; rewrite E; by left).
  assert (Hne : b <> 10) by (by intros ->). by repeat case_match.
Qed.
Lemma lines_first l r : 10 ∉ l -> lines (l ++ 10 :: r) = strip_cr l :: lines r.
Proof. intros H. rewrite lines_newline. unfold split. by rewrite split_by_none by (intros b Hb; apply Z.eqb_neq; by intros <-). Qed.
Lemma lines_last l : 10 ∉ l -> l <> [] -> lines l = [l].
Proof. intros H Hn. unfold lines, split. rewrite split_by_none by (intros b Hb; apply Z.eqb_neq; by intros <-). cbn. by destruct l. Qed.

(** A console of text is logged line by line, and read to its end. *)
Lemma console_logged s fuel : utf8_valid s = true -> (length s < fuel)%nat -> drain_lines fuel s = (lines s, []).
Proof.
  revert s; induction fuel as [|fuel IH]; intros s Hv Hl; [lia|]. cbn [drain_lines]. destruct s as [|b0 s0]; [done|].
  set (s := b0 :: s0) in *. unfold read_line. destruct (until_nl s) as [l rest] eqn:E.
  pose proof (until_nl_app s) as Happ. rewrite E in Happ. cbn [fst snd] in Happ.
  destruct (until_nl_inv s l rest E) as [(x & -> & Hx)|[Hn ->]].
  - assert (Hv' : utf8_valid x = true /\ utf8_valid rest = true).
    { rewrite <- Happ, <- app_assoc in Hv. cbn [app] in Hv. rewrite utf8_valid_cut_ascii in Hv by lia. by apply andb_true_iff in Hv. }
    rewrite utf8_valid_cut_ascii by lia. rewrite (proj1 Hv'). change (utf8_valid []) with true. cbn [andb].
    rewrite chomp_line, IH; [|apply Hv'|rewrite <- Happ in Hl; rewrite !length_app in Hl; cbn in Hl; lia].
    cbn [prod_map id]. rewrite <- Happ, <- app_assoc. cbn [app]. by rewrite lines_first.
  - rewrite app_nil_r in Happ. subst l. rewrite Hv. cbn match. rewrite chomp_last by done. destruct fuel; cbn [drain_lines prod_map id]; by rewrite lines_last.
Qed.

(** A line that is not UTF-8 ends the draining: nothing after it is read again. *)
Lemma console_stops pre bad rest fuel :
  utf8_valid pre = true -> (pre = [] \/ last pre = Some 10) -> 10 ∉ bad -> utf8_valid bad = false ->
  (length pre < fuel)%nat -> drain_lines fuel (pre ++ bad ++ 10 :: rest) = (lines pre, rest).
Proof.
  revert pre; induction fuel as [|fuel IH]; intros pre Hv Hp Hb Hbad Hl; [lia|]. cbn [drain_lines].
  destruct (pre ++ bad ++ 10 :: rest) as [|b0 s0] eqn:Es; [by destruct pre, bad|]. rewrite <- Es. clear b0 s0 Es. unfold read_line.
  destruct pre as [|b pre].
  - cbn [app]. rewrite until_nl_line by done. rewrite utf8_valid_cut_ascii by lia. by rewrite Hbad.
  - set (s := b :: pre) in *. destruct Hp as [Hp|Hp]; [done|].
    destruct (until_nl s) as [l r] eqn:E. pose proof (until_nl_app s) as Happ. rewrite E in Happ. cbn [fst snd] in Happ.
    destruct (until_nl_inv s l r E) as [(x & -> & Hx)|[Hn ->]].
    2:{ rewrite app_nil_r in Happ. subst l. exfalso. apply Hn. by apply last_Some_elem_of. }
    rewrite <- Happ in *. rewrite <- app_assoc in Hv, Hp, Hl |- *. cbn [app] in *.
    rewrite <- app_assoc. cbn [app]. rewrite until_nl_line by done.
    rewrite utf8_valid_cut_ascii in Hv by lia. apply andb_true_iff in Hv as [Hv1 Hv2].
    rewrite utf8_valid_cut_ascii, Hv1 by lia. change (utf8_valid []) with true. cbn [andb].
    rewrite length_app in Hl. cbn [length] in Hl. rewrite chomp_line, IH; [|done| |done|done|lia].
    + cbn [prod_map id fst snd]. rewrite <- app_assoc. cbn [app]. by rewrite lines_first.
    + destruct r as [|c r]; [by left|right]. by rewrite last_app_cons, last_cons_cons in Hp.
Qed.
