(* ===== verification/BuildRun.v ===== *)
(** * A whole run of image-builder

    [fn run] and [fn main] of [src/crates/image-builder/src/main.rs]: from the environment of
    the Job to the status of the Workshop, through the builder microVM with its link and its
    disk, the export of what it pushed, the injections ([GuestServices]), the boot check
    ([Rootfs]), the packing, the cache and the object store.  The tools it runs (crane, tar,
    du, truncate, mke2fs, resize2fs) are arguments. *)

From S2P Require Import Prelude RustStr Utf8 Json NetAdmin PodSpec Crd Lifecycle Rootfs ImageBuilder OpenBao GuestServices BuilderVm Eviction Collections.
From S2P Require Import VmSupervisor Firewall VmResources PodAccess VmStart.

(** ** The environment *)

(** [fn trust_enterprise_ca_bundle_for_this_process]: [bundle] is the trust store of the
    container, when it has one, and the one that is left. *)
Definition trust_enterprise_ca_bundle_for_this_process (h : build_host) (bundle : option bytes) : res (option bytes) :=
  match h.(bh_env) "ATELIER_CA_BUNDLE_PATH"%string with
  | None => Ok bundle
  | Some path =>
      ca_pem ← ok_or (h.(bh_file) path) "lecture de ATELIER_CA_BUNDLE_PATH";
      Ok (append_pem_to_bundle_file bundle ca_pem)
  end.

(** What [fn run] reads first. *)
Record build_settings := mkSettings {
  bs_source : DevcontainerSource; bs_name : bytes; bs_namespace : bytes; bs_registry : bytes; bs_insecure : bool; bs_cache_dir : bytes }.
Definition settings_from_env (env : string -> option bytes) : res build_settings :=
  repo ← ok_or (env "ATELIER_DEVCONTAINER_REPO"%string) "ATELIER_DEVCONTAINER_REPO manquant";
  let source := mkSource repo (default (B "HEAD") (env "ATELIER_DEVCONTAINER_REVISION"%string))
    (default (B ".devcontainer/devcontainer.json") (env "ATELIER_DEVCONTAINER_CONFIG_PATH"%string))
    (match env "ATELIER_CLONE_WORKSPACE"%string with Some v => negb (beq v (B "false")) | None => true end) in
  name ← ok_or (env "ATELIER_WORKSHOP_NAME"%string) "ATELIER_WORKSHOP_NAME manquant";
  ns ← ok_or (env "ATELIER_WORKSHOP_NAMESPACE"%string) "ATELIER_WORKSHOP_NAMESPACE manquant";
  registry ← ok_or (env "ATELIER_REGISTRY_ADDR"%string) "ATELIER_REGISTRY_ADDR manquant";
  cache_dir ← ok_or (env "ATELIER_IMAGE_CACHE_DIR"%string) "ATELIER_IMAGE_CACHE_DIR manquant (montage du PVC de cache)";
  Ok (mkSettings source name ns registry
        (match env "ATELIER_REGISTRY_INSECURE"%string with Some v => beq v (B "true") | None => false end) cache_dir).
Definition image_ref_of (st : build_settings) : bytes :=
  st.(bs_registry) ++ B "/atelier-workshops/" ++ st.(bs_name) ++ B ":latest".

(** ** Disks *)

Definition WORK_DIR : bytes := B "/var/tmp/atelier-image-builder-work".
Definition BUILDER_ROOTFS : bytes := WORK_DIR ++ B "/builder-vm-rootfs.ext4".

(** The files of the container that matter, with their lengths; whether [truncate] and
    [resize2fs] succeed. *)
Abbreviation lengths := (gmap bytes Z).
(** [truncate -s <n>M], in bytes, for a file of this length and this margin. *)
Definition margin_of (env : string -> option bytes) : Z :=
  default 4096 (env "ATELIER_BUILDER_VM_ROOTFS_MARGIN_MB"%string ≫= parse_u64).
Definition grown_length (len margin : Z) : Z := (len / 1024 / 1024 + margin) * MIB.
(** [fn resolve_builder_rootfs]. *)
Definition resolve_builder_rootfs (env : string -> option bytes) (truncates resizes : bool) (files : lengths) : lengths * res bytes :=
  match env "ATELIER_BUILDER_VM_ROOTFS_PATH"%string with
  | Some explicit => (files, Ok explicit)
  | None =>
      let base := env_path env "ATELIER_BUILDER_VM_ROOTFS_BASE_PATH" [] in
      if is_empty base then (files, Err "ATELIER_BUILDER_VM_ROOTFS_PATH ou ATELIER_BUILDER_VM_ROOTFS_BASE_PATH est requis")
      else match files !! base with
           | None => (files, Err "copie du rootfs de base de la microVM builder")
           | Some len =>
               if negb truncates then (<[BUILDER_ROOTFS := len]> files, Err "truncate a echoue")
               else let files := <[BUILDER_ROOTFS := grown_length len (margin_of env)]> files in
                    (files, if resizes then Ok BUILDER_ROOTFS else Err "resize2fs a echoue")
           end
  end.

(** [fn package_ext4]: the size of the image for what [du -sk] printed, in MiB. *)
Definition ext4_size_mb (du_stdout : bytes) : res Z :=
  word ← ok_or (head (split_whitespace (from_utf8_lossy du_stdout))) "sortie de du inattendue";
  size_kb ← ok_or (parse_u64 word) "taille de rootfs invalide";
  Ok (size_kb / 1024 + 512).

(** ** The builder microVM *)

Definition E_BUILDER_TAP : string := "creation du TAP pour la microVM builder (CAP_NET_ADMIN requis)".
(** [BuilderStopped]: the microVM was seen stopped, or its state could not be asked for. *)
Inductive builder_event := BuilderStarted | BuilderStopped | BuilderTornDown.

Section builder.
Context `{Netfilter F} (ip : list bytes -> gset bytes -> option (gset bytes)).
Context (subnet : Z -> Z -> option ((Z * Z * Z * Z) * (Z * Z * Z * Z) * Z)).
(** The hash of the source and of the reference. *)
Context (sha256_bytes : bytes -> bytes).

Definition builder_tap (source : DevcontainerSource) (image_ref : bytes) : bytes :=
  B "ib" ++ (take 4 (sha256_bytes (source.(repo) ++ source.(revision) ++ image_ref)) ≫= hex02).

(** How the microVM goes: whether it boots, when its deadline is, what is seen of it. *)
Record builder_run := mkBuilderRun { br_boots : bool; br_deadline : Z; br_polls : list (Z * vm_state); br_truncates : bool; br_resizes : bool }.

(** The [teardown] of its link. *)
Definition tear_down (n : NetworkSetup) (h : host F) : host F :=
  mkHost (default (h_taps h) (ip (tap_del (tap_name n)) (h_taps h))) (run_best_effort (teardown n) (h_filter h)).

(** [fn build_via_microvm]: the files and the host that are left, what happened with the host
    after it, and the end, [None] while it waits. *)
Definition build_via_microvm (env : string -> option bytes) (source : DevcontainerSource) (image_ref : bytes) (b : builder_run)
    (files : lengths) (h : host F) : lengths * host F * list (builder_event * host F) * option (res unit) :=
  let fails files h e := (files, h, [], Some (Err e)) in
  match file_name source.(config_path) with
  | None => fails files h "chemin config_path invalide (pas de nom de fichier)"%string
  | Some _ =>
      if is_empty (env_path env "ATELIER_BUILDER_VM_KERNEL_PATH" []) then fails files h "ATELIER_BUILDER_VM_KERNEL_PATH est requis"%string
      else match resolve_builder_rootfs env (br_truncates b) (br_resizes b) files with
      | (files, Ok rootfs_path) =>
          match setup_link_local_tap subnet (builder_tap source image_ref) 1 with
          | None => fails files h E_BUILDER_TAP
          | Some (cmds, n) =>
              let '(taps, ok) := run_until ip cmds (h_taps h) in
              let h := mkHost taps (h_filter h) in
              if negb ok then fails files h E_BUILDER_TAP
              else match parse_u16 (default (B "3128") (env "ATELIER_BUILDER_NET_PROXY_PORT"%string)) with
              | None => fails files h "ATELIER_BUILDER_NET_PROXY_PORT invalide"%string
              | Some port =>
                  let http := env_num parse_u16 env "ATELIER_BUILDER_NET_PROXY_TRANSPARENT_HTTP_PORT" 3180 in
                  let tls := env_num parse_u16 env "ATELIER_BUILDER_NET_PROXY_TRANSPARENT_TLS_PORT" 3181 in
                  let '(f, ok) := run_until nf_run (enable_transparent_gateway n port http tls None) (h_filter h) in
                  let h := mkHost taps f in
                  if negb ok then fails files h E_RULES
                  else
                    let down := tear_down n h in
                    let ends evs r := (delete rootfs_path files, down, evs ++ [(BuilderTornDown, down)], Some r) in
                    if negb (br_boots b) then ends [] (Err "boot de la microVM builder"%string)
                    else match wait_builder_vm (br_deadline b) (br_polls b) with
                         | None => (files, h, [(BuilderStarted, h)], None)
                         | Some (Ok r) => ends [(BuilderStarted, h); (BuilderStopped, h)] (Ok r)
                         | Some r => ends [(BuilderStarted, h)] r
                         end
              end
          end
      | (files, Err e) => fails files h e
      | (files, Panic) => (files, h, [], Some Panic)
      end
  end.
End builder.

(** ** [fn run] *)

(** The end of a run: a refusal is the boot check's. *)
Inductive run_end := RunOk | RunRefused (msg : bytes) | RunErr (msg : string) | RunPanic.
(** [fn main]: what it ends with, and whether Kubernetes tries again ([PodAccess.job_run]). *)
Definition end_of (r : run_end) : build_end := match r with RunOk => Built | RunRefused _ => BuildRefused | _ => BuildFailed end.

(** The tools, and what they make: [crane export] of an image, the tree [tar] extracts, the tree
    on the disk of an image once the files of a prepared one are in it, whether systemd is in it, [du] and [mke2fs] of a
    tree; whether the client of Kubernetes can be made and takes the patch. *)
Record build_tools := mkTools {
  t_work_dir : bool; t_export : bool; t_extract : bytes -> option guest_image; t_tree : bytes -> guest_image -> rootfs; t_systemd : rootfs -> bool;
  t_du : rootfs -> option bytes; t_truncate : bool; t_mke2fs : rootfs -> Z -> option bytes; t_read : bool; t_copy : option nat; t_kube : bool }.

(** The registry by reference, the cache by digest, the object store by key, and the patches of
    the status that were sent, with the namespace and the name of the Workshop. *)
Record published := mkPublished { p_registry : gmap bytes bytes; p_cache : cache; p_store : gmap bytes bytes; p_patches : list (bytes * bytes * json) }.

Section run.
Context (parse_json : bytes -> option json) (sha256 : bytes -> bytes).

(** From the exported image to the packed one: the digest, the ports and the session. *)
Definition pack (h : build_host) (g : git_outcome) (t : build_tools) (st : build_settings) (creds : option GitCredentials) (image : bytes)
  : bytes * GuestPorts * SessionConfig + run_end :=
  match t_extract t image with
  | None => inr (RunErr "extraction tar a echoue")
  | Some base =>
      match prepare_image parse_json h g st.(bs_source) creds base with
      | Ok (i, ports, session) =>
          let tree := t_tree t image i in
          let tree := ensure_init_system (t_systemd t tree) (h.(bh_env) "ATELIER_GUEST_INIT_BIN"%string ≫= h.(bh_file)) tree in
          match check_boot_prerequisites tree with
          | Some msg => inr (RunRefused msg)
          | None =>
              match t_du t tree with
              | None => inr (RunErr "du a echoue")
              | Some out =>
                  match ext4_size_mb out with
                  | Ok size =>
                      if negb (t_truncate t) then inr (RunErr "truncate a echoue")
                      else match t_mke2fs t tree size with
                           | None => inr (RunErr "mke2fs a echoue")
                           | Some packed => if t_read t then inl (packed, ports, session) else inr (RunErr "lecture du fichier ext4 pour digest")
                           end
                  | Err e => inr (RunErr e)
                  | Panic => inr RunPanic
                  end
              end
          end
      | Err e => inr (RunErr e)
      | Panic => inr RunPanic
      end
  end.

(** The object store is best effort: [upload] is what became of it. *)
Definition image_key (digest : bytes) : bytes := digest_cache_subdir digest ++ B "/rootfs.ext4".
Definition built_status (digest : bytes) (ports : GuestPorts) (session : SessionConfig) : json :=
  status_after_build digest ports session.(remote_user) session.(workspace_folder) (btree_iter session.(Crd.container_env)).
(** After the builder microVM, with what it pushed. *)
Definition publish (h : build_host) (g : git_outcome) (t : build_tools) (st : build_settings) (creds : option GitCredentials)
    (upload : bool) (p : published) : published * run_end :=
  match p.(p_registry) !! image_ref_of st with
  | None => (p, RunErr "crane export a echoue")
  | Some image =>
      if negb (t_export t) then (p, RunErr "crane export a echoue")
      else match pack h g t st creds image with
           | inr e => (p, e)
           | inl (packed, ports, session) =>
               let digest := B "sha256:" ++ sha256 packed in
               let '(c, ok) := publish_to_cache p.(p_cache) digest packed (t_copy t) in
               let p := mkPublished p.(p_registry) c p.(p_store) p.(p_patches) in
               if negb ok then (p, RunErr "publication de l'image dans le cache")
               else
                 let store := if upload then <[image_key digest := default packed (c !! digest)]> p.(p_store) else p.(p_store) in
                 let p := mkPublished p.(p_registry) c store p.(p_patches) in
                 if negb (t_kube t) then (p, RunErr "echec de la mise a jour de status.imageDigest sur le Workshop")
                 else (mkPublished p.(p_registry) c store
                         (p.(p_patches) ++ [(st.(bs_namespace), st.(bs_name), built_status digest ports session)]),
                       RunOk)
           end
  end.

(** [fn run]: [pushed] is what the builder microVM pushes under its reference, if it does. *)
Definition run `{Netfilter F} (ip : list bytes -> gset bytes -> option (gset bytes))
    (subnet : Z -> Z -> option ((Z * Z * Z * Z) * (Z * Z * Z * Z) * Z)) (sha256_bytes : bytes -> bytes) (h : build_host) (bundle : option bytes) (creds : bytes -> option GitCredentials)
    (b : builder_run) (pushed : option bytes) (g : git_outcome) (t : build_tools) (upload : bool)
    (w : lengths * host F) (p : published) : lengths * host F * published * option run_end :=
  let '(files, hst) := w in
  match trust_enterprise_ca_bundle_for_this_process h bundle, settings_from_env h.(bh_env) with
  | Ok _, Ok st =>
      if negb (t_work_dir t) then (files, hst, p, Some (RunErr "creation du repertoire de travail"))
      else
        let image_ref := image_ref_of st in
        let '(files, hst, evs, r) := build_via_microvm ip subnet sha256_bytes h.(bh_env) st.(bs_source) image_ref b files hst in
        let p := match pushed, evs with
                 | Some image, (BuilderStarted, _) :: _ => mkPublished (<[image_ref := image]> p.(p_registry)) p.(p_cache) p.(p_store) p.(p_patches)
                 | _, _ => p
                 end in
        match r with
        | None => (files, hst, p, None)
        | Some (Ok _) => let '(p, e) := publish h g t st (creds st.(bs_name)) upload p in (files, hst, p, Some e)
        | Some (Err e) => (files, hst, p, Some (RunErr e))
        | Some Panic => (files, hst, p, Some RunPanic)
        end
  | Err e, _ | Ok _, Err e => (files, hst, p, Some (RunErr e))
  | _, _ => (files, hst, p, Some RunPanic)
  end.
End run.

(** ** What a run publishes *)

Section publishes.
Context (parse_json : bytes -> option json) (sha256 : bytes -> bytes) `{Netfilter F} (ip : list bytes -> gset bytes -> option (gset bytes)).
Context (subnet : Z -> Z -> option ((Z * Z * Z * Z) * (Z * Z * Z * Z) * Z)) (sha256_bytes : bytes -> bytes).

(** The tree an image becomes, and what it is packed as. *)
Definition prepared_tree (h : build_host) (t : build_tools) (image : bytes) (i : guest_image) : rootfs :=
  let tree := t_tree t image i in
  ensure_init_system (t_systemd t tree) (h.(bh_env) "ATELIER_GUEST_INIT_BIN"%string ≫= h.(bh_file)) tree.
Definition packed_as (h : build_host) (g : git_outcome) (t : build_tools) (st : build_settings) (creds : option GitCredentials)
    (image packed : bytes) (ports : GuestPorts) (session : SessionConfig) : Prop :=
  exists base i size, t_extract t image = Some base /\ prepare_image parse_json h g st.(bs_source) creds base = Ok (i, ports, session) /\
    check_boot_prerequisites (prepared_tree h t image i) = None /\ t_mke2fs t (prepared_tree h t image i) size = Some packed.

Lemma pack_spec h g t st creds image :
  match pack parse_json h g t st creds image with
  | inl (packed, ports, session) => packed_as h g t st creds image packed ports session
  | inr (RunRefused msg) =>
      exists base i ports session, t_extract t image = Some base /\ prepare_image parse_json h g st.(bs_source) creds base = Ok (i, ports, session) /\
        check_boot_prerequisites (prepared_tree h t image i) = Some msg
  | inr e => e <> RunOk
  end.
Proof.
  unfold pack. destruct (t_extract t image) as [base|] eqn:Eb; [|done].
  destruct (prepare_image _ h g _ creds base) as [[[i ports] session]| |] eqn:Ep; [|done..]. fold (prepared_tree h t image i).
  destruct (check_boot_prerequisites _) as [msg|] eqn:Ec; [by exists base, i, ports, session|].
  destruct (t_du t _) as [out|]; [|done]. destruct (ext4_size_mb out) as [size| |]; [|done..].
  destruct (t_truncate t); [|done]. destruct (t_mke2fs t _ size) as [packed|] eqn:Em; [|done]. destruct (t_read t); [|done].
  by exists base, i, size.
Qed.

Lemma publish_to_cache_ok c digest content copy c' :
  publish_to_cache c digest content copy = (c', true) -> c' = c /\ is_Some (c !! digest) \/ c' = <[digest := content]> c /\ c !! digest = None.
Proof.
  unfold publish_to_cache. destruct (c !! digest) eqn:E; [intros [= <-]; left; by split; [|eexists]|].
  destruct copy; intros [= <-]. by right.
Qed.

(** What is left when the packed image is published. *)
Definition publishes (h : build_host) (g : git_outcome) (t : build_tools) (st : build_settings) (creds : option GitCredentials) (p p' : published) : Prop :=
  exists image packed ports session content,
    p'.(p_registry) !! image_ref_of st = Some image /\ packed_as h g t st creds image packed ports session /\
    p'.(p_patches) = p.(p_patches) ++ [(st.(bs_namespace), st.(bs_name), built_status (digest_of sha256 packed) ports session)] /\
    p'.(p_cache) !! digest_of sha256 packed = Some content /\ digest_of sha256 content = digest_of sha256 packed /\ cache_ok sha256 p'.(p_cache).

(** What the boot check says of an image that is refused. *)
Definition refused_as (h : build_host) (g : git_outcome) (t : build_tools) (st : build_settings) (creds : option GitCredentials) (image msg : bytes) : Prop :=
  exists base i ports session, t_extract t image = Some base /\ prepare_image parse_json h g st.(bs_source) creds base = Ok (i, ports, session) /\
    check_boot_prerequisites (prepared_tree h t image i) = Some msg.

Lemma publish_spec h g t st creds upload p p' e : cache_ok sha256 p.(p_cache) ->
  publish parse_json sha256 h g t st creds upload p = (p', e) ->
  match e with
  | RunOk => publishes h g t st creds p p'
  | RunRefused msg => p' = p /\ exists image, p.(p_registry) !! image_ref_of st = Some image /\ refused_as h g t st creds image msg
  | _ => p'.(p_patches) = p.(p_patches)
  end.
Proof.
  intros Hc. unfold publish. destruct (p_registry p !! _) as [image|] eqn:Ei; [|by intros [= <- <-]].
  destruct (t_export t); cbn [negb]; [|by intros [= <- <-]]. pose proof (pack_spec h g t st creds image) as Hp.
  destruct (pack _ h g t st creds image) as [[[packed ports] session]|e'];
    [|intros [= <- <-]; destruct e'; [done|split; [done|by exists image]|done..]].
  fold (digest_of sha256 packed). destruct (publish_to_cache _ _ packed _) as [c ok] eqn:Ec. destruct ok; cbn [negb]; [|by intros [= <- <-]].
  destruct (t_kube t); cbn [negb]; intros [= <- <-]; [|done]. cbn [p_registry p_cache p_patches].
  apply publish_to_cache_ok in Ec as [[-> [content Hd]]|[-> Hd]].
  - exists image, packed, ports, session, content. split_and!; try done. symmetry. by apply Hc.
  - exists image, packed, ports, session, packed. split_and!; try done; cbn [p_cache]; [by rewrite lookup_insert_eq|].
    intros d content [[<- <-]|[_ Hx]]%lookup_insert_Some; [done|by apply Hc].
Qed.

(** The object store changes nothing else. *)
Definition but_store (p : published) : gmap bytes bytes * cache * list (bytes * bytes * json) := (p.(p_registry), p.(p_cache), p.(p_patches)).
Lemma publish_upload h g t st creds up up' p :
  let r := publish parse_json sha256 h g t st creds up p in let r' := publish parse_json sha256 h g t st creds up' p in
  r.2 = r'.2 /\ but_store r.1 = but_store r'.1.
Proof.
  unfold publish. destruct (p_registry p !! _); [|done]. destruct (t_export t); [|done].
  destruct (pack _ h g t st creds _) as [[[packed ports] session]|]; [|done].
  destruct (publish_to_cache _ _ packed _) as [c []]; [|done]. by destruct (t_kube t).
Qed.
End publishes.

(** C37: A run of image-builder publishes what it built, or nothing.  The cache it starts from holds
    no file that is not of the digest it is named by, as an interrupted copy leaves one (which a
    later run then announces: [ImageBuilder.published_image]).  When the run succeeds, it has sent
    one patch, to its own Workshop: the digest of the file system packed from the image in the
    registry under the Workshop's reference, after every injection, once the boot check passed,
    with the ports and the session of that image; and the cache holds, under that digest, a file
    of that digest.  Otherwise the status is untouched; a refusal is the boot check's, and ends the
    Job at its first pod; and whether the object store takes the image changes neither the end of
    the run nor what is published. *)
Theorem build_publishes parse_json sha256 `{Netfilter F} ip subnet sha256_bytes h bundle creds b pushed g t upload files (hst : host F) p
    files' hst' p' e :
  cache_ok sha256 p.(p_cache) ->
  run parse_json sha256 ip subnet sha256_bytes h bundle creds b pushed g t upload (files, hst) p = (files', hst', p', Some e) ->
  match e with
  | RunOk => exists st, settings_from_env h.(bh_env) = Ok st /\ publishes parse_json sha256 h g t st (creds st.(bs_name)) p p'
  | RunRefused msg =>
      p'.(p_patches) = p.(p_patches) /\ p'.(p_cache) = p.(p_cache) /\
      (exists st image, settings_from_env h.(bh_env) = Ok st /\ p'.(p_registry) !! image_ref_of st = Some image /\
         refused_as parse_json h g t st (creds st.(bs_name)) image msg) /\
      (forall codes, job_run 0 (exit_code_of (end_of e) :: codes) = (1%nat, Some false))
  | _ => p'.(p_patches) = p.(p_patches) /\ exit_code_of (end_of e) = 1
  end /\
  (forall upload', exists p'', run parse_json sha256 ip subnet sha256_bytes h bundle creds b pushed g t upload' (files, hst) p = (files', hst', p'', Some e) /\
     but_store p'' = but_store p').
Proof.
  intros Hc. unfold run. destruct (trust_enterprise_ca_bundle_for_this_process h bundle) as [x| |];
    [|intros [= <- <- <- <-]; by eauto..].
  destruct (settings_from_env (bh_env h)) as [st| |] eqn:Est; [|intros [= <- <- <- <-]; by eauto..].
  destruct (t_work_dir t); cbn [negb]; [|intros [= <- <- <- <-]; by eauto].
  destruct (build_via_microvm ip subnet sha256_bytes (bh_env h) _ _ b files hst) as [[[f1 h1] evs] r].
  set (q := match pushed with Some _ => _ | None => _ end).
  assert (Hq : q.(p_cache) = p.(p_cache) /\ q.(p_patches) = p.(p_patches)) by (unfold q; destruct pushed, evs as [|[[] ?] ?]; done).
  destruct Hq as [Hqc Hqp]. destruct r as [[x'|m|]|]; [|intros [= <- <- <- <-]; by eauto..|done].
  rewrite <- Hqc in Hc. pose proof (publish_spec parse_json sha256 h g t st (creds (bs_name st)) upload q) as Hs.
  pose proof (fun up => publish_upload parse_json sha256 h g t st (creds (bs_name st)) upload up q) as Hu.
  destruct (publish _ _ h g t st (creds (bs_name st)) upload q) as [p1 e1]. intros [= <- <- <- <-].
  specialize (Hs _ _ Hc eq_refl). split.
  - destruct e1.
    + exists st. split; [done|]. unfold publishes in *. by rewrite <- Hqp.
    + destruct Hs as (-> & image & Hi & Hr). split_and!; [done..| |done]. by exists st, image.
    + by rewrite Hs.
    + by rewrite Hs.
  - intros up. destruct (Hu up) as [He Hp]. destruct (publish _ _ h g t st _ up q) as [p2 e2]. cbn [fst snd] in *. subst e2. by exists p2.
Qed.

(** ** The builder microVM is filtered *)

(** When something happens of a builder microVM, everything before it succeeded; the filter is
    then the one that was set up, until it is taken away with the disk. *)
Lemma builder_ran `{Netfilter F} ip subnet sha256_bytes env source image_ref b files (h : host F) files' h' evs r ev hh :
  build_via_microvm ip subnet sha256_bytes env source image_ref b files h = (files', h', evs, r) -> (ev, hh) ∈ evs ->
  exists f1 rp cmds n port f, resolve_builder_rootfs env (br_truncates b) (br_resizes b) files = (f1, Ok rp) /\
    setup_link_local_tap subnet (builder_tap sha256_bytes source image_ref) 1 = Some (cmds, n) /\
    parse_u16 (default (B "3128") (env "ATELIER_BUILDER_NET_PROXY_PORT"%string)) = Some port /\
    run_all (enable_transparent_gateway n port (env_num parse_u16 env "ATELIER_BUILDER_NET_PROXY_TRANSPARENT_HTTP_PORT" 3180)
               (env_num parse_u16 env "ATELIER_BUILDER_NET_PROXY_TRANSPARENT_TLS_PORT" 3181) None) (h_filter h) = Some f /\
    (ev <> BuilderTornDown -> h_filter hh = f) /\ (ev = BuilderTornDown -> files' = delete rp f1).
Proof.
  unfold build_via_microvm. intros Hb Hin.
  assert (Hne : evs <> []) by (intros ->; by apply not_elem_of_nil in Hin).
  destruct (file_name _); [|by injection Hb as _ _ <- _]. destruct (is_empty _); [by injection Hb as _ _ <- _|].
  destruct (resolve_builder_rootfs env _ _ files) as [f1 [rp| |]]; [|by injection Hb as _ _ <- _..].
  destruct (setup_link_local_tap _ _ _) as [[cmds n]|]; [|by injection Hb as _ _ <- _].
  destruct (run_until ip cmds (h_taps h)) as [taps []]; cbn [negb] in Hb; [|by injection Hb as _ _ <- _].
  destruct (parse_u16 _) as [port|]; [|by injection Hb as _ _ <- _]. cbn [h_filter] in Hb.
  destruct (run_until nf_run _ (h_filter h)) as [f []] eqn:Er; cbn [negb] in Hb; [|by injection Hb as _ _ <- _].
  apply run_until_all in Er. exists f1, rp, cmds, n, port, f. do 4 (split; [done|]).
  destruct (br_boots b); cbn [negb] in Hb; [destruct (wait_builder_vm _ _) as [[]|]|]; injection Hb as <- _ <- _;
    cbn [app] in Hin; rewrite ?elem_of_cons, elem_of_nil in Hin; repeat (destruct_or?; simplify_eq); done.
Qed.

(** From its start until it is seen stopped, what a builder microVM sends is not forwarded, and
    reaches the pod only at the three ports of net-proxy and its resolver: the metadata are not
    there for it. *)
Theorem builder_filtered `{Netfilter F} ip subnet sha256_bytes env source image_ref b files (h : host F) files' h' evs r cmds n ev hh :
  setup_link_local_tap subnet (builder_tap sha256_bytes source image_ref) 1 = Some (cmds, n) ->
  link_free (tap_name n) (nf_rules (h_filter h)) ->
  build_via_microvm ip subnet sha256_bytes env source image_ref b files h = (files', h', evs, r) ->
  (ev, hh) ∈ evs -> ev <> BuilderTornDown ->
  exists port, parse_u16 (default (B "3128") (env "ATELIER_BUILDER_NET_PROXY_PORT"%string)) = Some port /\
    confines n (Firewall.gateway_ports port (env_num parse_u16 env "ATELIER_BUILDER_NET_PROXY_TRANSPARENT_HTTP_PORT" 3180)
                  (env_num parse_u16 env "ATELIER_BUILDER_NET_PROXY_TRANSPARENT_TLS_PORT" 3181) None) (h_filter hh).
Proof.
  intros Hn Hfree Hb Hin Hev. destruct (builder_ran _ _ _ _ _ _ _ _ _ _ _ _ _ _ _ Hb Hin) as (f1 & rp & cmds' & n' & port & f & _ & Hn' & Hp & Hr & Hf & _).
  rewrite Hn in Hn'. injection Hn' as <- <-. exists port. split; [done|]. rewrite (Hf Hev). apply gateway_run in Hr.
  by apply (in_place_confines n 0 _ _ _ _ Hfree Hr).
Qed.

(** ** What a build leaves *)

(** The file a build boots from is deleted once the microVM ended, the one
    [ATELIER_BUILDER_VM_ROOTFS_PATH] names included: the next build with the same variable finds
    none. *)
Lemma explicit_rootfs_deleted `{Netfilter F} ip subnet sha256_bytes env source image_ref b files (h : host F) files' h' evs r path hh :
  env "ATELIER_BUILDER_VM_ROOTFS_PATH"%string = Some path ->
  build_via_microvm ip subnet sha256_bytes env source image_ref b files h = (files', h', evs, r) ->
  (BuilderTornDown, hh) ∈ evs -> files' = delete path files.
Proof.
  intros Hp Hb Hin. destruct (builder_ran _ _ _ _ _ _ _ _ _ _ _ _ _ _ _ Hb Hin) as (f1 & rp & cmds & n & port & f & Hrp & _ & _ & _ & _ & Hd).
  unfold resolve_builder_rootfs in Hrp. rewrite Hp in Hrp. injection Hrp as <- <-. by apply Hd.
Qed.

(** The copy of the base file grows by the margin, to a whole number of MiB, and is not cut
    unless the margin is null. *)
Lemma grown_length_spec len margin : 0 <= len -> 1 <= margin ->
  len < grown_length len margin <= len + margin * MIB /\ (grown_length len margin) mod MIB = 0.
Proof.
  intros Hl Hm. unfold grown_length. rewrite Z.div_div by lia. change (1024 * 1024) with MIB.
  assert (0 < MIB) by (unfold MIB; lia). pose proof (Z.div_mod len MIB ltac:(lia)). pose proof (Z.mod_pos_bound len MIB ltac:(lia)).
  split; [nia|by apply Z.mod_mul; lia].
Qed.
Lemma null_margin_cuts : grown_length (MIB + 1) 0 < MIB + 1.
Proof. reflexivity. Qed.

(** The image is at least 511 MiB larger than what [du] counted, and at most 512. *)
Lemma ext4_size_margin out kb mb : ext4_size_mb out = Ok mb -> head (split_whitespace (from_utf8_lossy out)) ≫= parse_u64 = Some kb ->
  kb * 1024 + 511 * MIB < mb * MIB <= kb * 1024 + 512 * MIB.
Proof.
  unfold ext4_size_mb. destruct (head _) as [w|]; [|done]. cbn [ok_or mbind option_bind res_bind]. intros Hm Hk. rewrite Hk in Hm.
  cbn in Hm. injection Hm as <-. unfold MIB. pose proof (Z.div_mod kb 1024 ltac:(lia)). pose proof (Z.mod_pos_bound kb 1024 ltac:(lia)). lia.
Qed.

(** ** A build *)

Definition job_env (name : string) : option bytes :=
  match find_first (fun kv => String.eqb kv.1 name)
    [("ATELIER_DEVCONTAINER_REPO"%string, B "https://forge/team/demo.git"); ("ATELIER_WORKSHOP_NAME"%string, B "demo");
     ("ATELIER_WORKSHOP_NAMESPACE"%string, B "team"); ("ATELIER_REGISTRY_ADDR"%string, B "registry:5000");
     ("ATELIER_IMAGE_CACHE_DIR"%string, B "/cache"); ("ATELIER_BUILDER_VM_KERNEL_PATH"%string, B "/vmlinux");
     ("ATELIER_BUILDER_VM_ROOTFS_BASE_PATH"%string, B "/base.ext4")] with
  | Some (_, v) => Some v
  | None => toy_env name
  end.
Definition job_host : build_host := mkBuildHost job_env toy_build_host.(bh_file) (fun _ => true) (B "{}").
Definition good_build : builder_run := mkBuilderRun true 1800000 [(0, VmRunning); (2000, VmStopped)] true true.
Definition tools_for (tree : rootfs) : build_tools :=
  mkTools true true (fun _ => Some toy_base) (fun _ _ => tree) (fun _ => true) (fun _ => Some (B "2048	/rootfs")) true
    (fun _ size => Some (B "ext4:" ++ dec size)) true None true.
Definition nothing_published : published := mkPublished ∅ ∅ ∅ [].
Definition build_of (tree : rootfs) : lengths * host rulesets * published * option run_end :=
  run (fun _ => None) id exact_ip vm_subnet id job_host None (fun _ => None) good_build (Some (B "image")) (toy_git None) (tools_for tree) true
    ({[B "/base.ext4" := 3 * MIB]}, fresh_pod) nothing_published.

(** A build that succeeds, and one whose image cannot boot. *)
Example build_ends : (build_of bootable).2 = Some RunOk /\ (exists msg, (build_of ∅).2 = Some (RunRefused msg)) /\ p_cache (build_of ∅).1.2 = ∅.
Proof. split_and!; [vm_compute; reflexivity|eexists; vm_compute; reflexivity|vm_compute; reflexivity]. Qed.
Lemma build_publishes_witness :
  (exists image packed ports session,
     p_patches (build_of bootable).1.2 = [(B "team", B "demo", built_status (digest_of id packed) ports session)] /\
     is_Some (p_cache (build_of bootable).1.2 !! digest_of id packed) /\
     p_registry (build_of bootable).1.2 !! B "registry:5000/atelier-workshops/demo:latest" = Some image).
Proof.
  pose proof (build_publishes (fun _ => None) id exact_ip vm_subnet id job_host None (fun _ => None) good_build (Some (B "image")) (toy_git None)
    (tools_for bootable) true {[B "/base.ext4" := 3 * MIB]} fresh_pod nothing_published) as T.
  fold (build_of bootable) in T.
  assert (E : (build_of bootable).2 = Some RunOk) by (vm_compute; reflexivity).
  destruct (build_of bootable) as [[[files' hst'] p'] e]. cbn [fst snd] in *. subst e.
  destruct (T files' hst' p' RunOk) as [(st & Hst & image & packed & ports & session & content & Hi & _ & Hp & Hc & _) _];
    [intros d x Hx; cbn in Hx; by rewrite lookup_empty in Hx|reflexivity|].
  assert (Est : settings_from_env (bh_env job_host) =
     Ok (mkSettings (mkSource (B "https://forge/team/demo.git") (B "HEAD") (B ".devcontainer/devcontainer.json") true) (B "demo") (B "team") (B "registry:5000") false (B "/cache")))
    by (vm_compute; reflexivity).
  rewrite Est in Hst. injection Hst as <-. exists image, packed, ports, session. split_and!; [exact Hp|by exists content|exact Hi].
Defined.
