(* ===== verification/CliRun.v ===== *)
(** * The command line client, from a command to its end

    [fn main] of [src/crates/cli/src/main.rs] over every command ([commands/*.rs]), with the
    configuration file ([config.rs]), the keyring ([tokens.rs]), the requests, the tunnels
    ([tunnel.rs]) and the upstream of the MCP server ([mcp_client.rs]).  What clap parses is a
    [Command]; the keyring, the clock, the servers and the programs that are run answer in
    [answers]. *)

From S2P Require Import Prelude RustStr Collections Json Internal PodSpec Crd Lifecycle GuestServices Cli CliMcp.

(** ** Commands *)

Inductive McpCommand := Serve (context : option bytes) | InstallConfig (target : bytes) (context : option bytes).
Inductive ServerCommand := Doctor | Install (domain email : bytes) (openbao_production enable_gpu : bool) | ServerStatus | Upgrade | Uninstall.
Inductive ApprovalsCommand := ApprovalsList (workshop : bytes) | Approve (id : bytes) (reason : option bytes) | Reject (id : bytes) (reason : option bytes).
Inductive ContextCommand :=
| Add (name api_url issuer client_id : bytes) (scope : option bytes) | Use (name : bytes) | ContextList | Current.
Inductive AuthCommand := Login | Logout | AuthStatus.
Inductive WorkshopsCommand :=
| WorkshopsList
| Create (name repo : bytes) (revision config_path : option bytes) (cpu memory : bytes) (disk : option bytes) (egress_allowlist tools : list bytes)
         (owner_group : option bytes)
| WorkshopStatus (name : bytes) | Stop (name : bytes) | Resume (name : bytes) | Delete (name : bytes).
Inductive Command :=
| ContextCmd (command : ContextCommand) | AuthCmd (command : AuthCommand) | WorkshopsCmd (command : WorkshopsCommand)
| PortForwardCmd (stdio : bool) (name mapping : bytes) | SshCmd (name user : bytes) | CodeCmd (name user editor : bytes)
| ApprovalsCmd (command : ApprovalsCommand) | ServerCmd (command : ServerCommand) | McpCmd (command : McpCommand).

(** The defaults clap fills. *)
Definition DEFAULT_USER : bytes := B "root".
Definition DEFAULT_EDITOR : bytes := B "code".
Definition DEFAULT_CPU : bytes := B "1".
Definition DEFAULT_MEMORY : bytes := B "2Gi".

(** ** The state of a user *)

(** The configuration file: not there, unreadable, or what it holds. *)
Inductive config_file := NoFile | Unreadable | Holds (c : Config).
(** [issued] is not in the program: the context the token under a name was obtained for. *)
Record cli_state := mkCli {
  config_of : config_file; keys : keyring; issued : gmap bytes ContextConfig; ssh_file : option bytes; mcp_file : bytes -> option json }.

(** What is sent, run and shown. *)
Inductive effect :=
| Http (request : http_method * bytes * option json) (token : bytes)
| WebSocket (url token : bytes)
| McpUpstream (url token : bytes)
| TokenRequest (issuer client_id : bytes) (refresh_token : option bytes)
| Program (name : bytes) (args : list bytes)
| Installed (steps : list install_step)
| Operated (commands : list server_command)
| Shown (line : bytes).

(** [a_read], [a_write]: the keyring; [a_saves]: the files; [a_login]: the device flow;
    [a_http]: the answer of api-server, its status and its body; [a_bind], [a_conns]: the local
    listener and the connections it accepts; [a_ends]: how the tunnel, the
    MCP server or the program that is run ends. *)
Record answers := mkAnswers {
  a_read : bool; a_write : bool; a_saves : bool; a_now : Z; a_now' : Z; a_token : token_answer; a_login : res TokenSet;
  a_http : option (Z * bytes); a_exe : option bytes; a_bind : bool; a_conns : nat; a_ends : res unit;
  a_machine : machine_facts; a_has_k3s : bool; a_has_helm : bool; a_step : install_step -> bool;
  a_values : bool; a_cloned : bool; a_command : server_command -> bool; a_k3s_uninstall : bool }.

Section cli.
Context (plus_secs : Z -> Z -> option Z) (extract_subject : bytes -> option bytes).
(** What serde reads of the answers that are shown: the names and the phases of Workshops, the
    rows of approvals, any Workshop, a decision; and how dates and Workshops are shown. *)
Context (read_workshops : bytes -> option (list (option bytes * option WorkshopPhase))) (read_approvals : bytes -> option (list (list bytes))).
Context (read_workshop : bytes -> option (option bytes * bytes)) (read_decision : bytes -> option bytes) (rfc3339 : Z -> bytes).

(** [Config::load]. *)
Definition load (f : config_file) : res Config :=
  match f with NoFile => Ok (mkConfigFile None ∅) | Unreadable => Err "lecture ou parsing de la configuration" | Holds c => Ok c end.
(** [Config::save] of a configuration that is shown in these lines. *)
Definition save (a : answers) (s : cli_state) (c : Config) (shown : list bytes) : cli_state * list effect * res unit :=
  if a.(a_saves) then (mkCli (Holds c) s.(keys) s.(issued) s.(ssh_file) s.(mcp_file), Shown <$> shown, Ok tt)
  else (s, [], Err "ecriture de la configuration").

(** [ensure_access_token_for]: the keyring, what was sent, and the token. *)
Definition with_keys (s : cli_state) (k : keyring) (i : gmap bytes ContextConfig) : cli_state :=
  mkCli s.(config_of) k i s.(ssh_file) s.(mcp_file).
Definition access_token_for (a : answers) (s : cli_state) (name : bytes) (ctx : ContextConfig) : cli_state * list effect * res bytes :=
  if negb a.(a_read) then (s, [], Err "lecture du trousseau de cles de l'OS")
  else
    let '(k, r) := ensure_access_token_for plus_secs extract_subject s.(keys) name a.(a_now) a.(a_now') a.(a_token) in
    match s.(keys) !! name with
    | Some t =>
        if is_expired a.(a_now) t then
          let sent := match t.(refresh_token) with Some old => [TokenRequest ctx.(issuer) ctx.(client_id) (Some old)] | None => [] end in
          match r with
          | Ok token => if a.(a_write) then (with_keys s k (<[name := ctx]> s.(issued)), sent, Ok token)
                        else (s, sent, Err "ecriture dans le trousseau de cles de l'OS")
          | r => (s, sent, r)
          end
        else (s, [], r)
    | None => (s, [], r)
    end.
(** [ensure_access_token] and [ensure_access_token_for_named_context], which load the file
    themselves. *)
Definition ensure_access_token (a : answers) (f : config_file) (s : cli_state) : cli_state * list effect * res bytes :=
  match (c ← load f; current_context c) with
  | Ok (name, ctx) => access_token_for a s name ctx
  | Err e => (s, [], Err e)
  | Panic => (s, [], Panic)
  end.
Definition named_context (f : config_file) (name : bytes) : res ContextConfig :=
  c ← load f; ok_or (c.(contexts) !! name) "contexte inconnu".
Definition ensure_access_token_for_named_context (a : answers) (f : config_file) (s : cli_state) (name : bytes) : cli_state * list effect * res bytes :=
  match named_context f name with
  | Ok ctx => access_token_for a s name ctx
  | Err e => (s, [], Err e)
  | Panic => (s, [], Panic)
  end.

(** [fn client] of the commands, [fn resolve] of the tunnels: the file is loaded, [f], then
    loaded again, [f'], for the token.  The URL and the token. *)
Definition client (a : answers) (f f' : config_file) (s : cli_state) : cli_state * list effect * res (bytes * bytes) :=
  match (c ← load f; current_context c) with
  | Ok (_, ctx) =>
      let '(s, sent, r) := ensure_access_token a f' s in (s, sent, token ← r; Ok (ctx.(api_url), token))
  | Err e => (s, [], Err e)
  | Panic => (s, [], Panic)
  end.

(** A request of [struct ApiClient] and the lines shown of its answer. *)
Definition api_command (a : answers) (s : cli_state) (request : bytes -> http_method * bytes * option json) (show : bytes -> option (list bytes))
  : cli_state * list effect * res unit :=
  match client a s.(config_of) s.(config_of) s with
  | (s, sent, Ok (url, token)) =>
      let '(shown, r) :=
        match a.(a_http) with
        | None => ([], Err "requete")
        | Some (status, body) =>
            match check status body with
            | Ok body => match show body with Some ls => (ls, Ok tt) | None => ([], Err "reponse invalide") end
            | Err e => ([], Err e)
            | Panic => ([], Panic)
            end
        end in
      (s, sent ++ Http (request url) token :: (Shown <$> shown), r)
  | (s, sent, Err e) => (s, sent, Err e)
  | (s, sent, Panic) => (s, sent, Panic)
  end.

Definition tab : bytes := [9].
Definition quoted (before name after : bytes) : bytes := before ++ B "'" ++ name ++ B "'" ++ after.

(** [commands/context.rs]. *)
Definition context_lines (c : Config) : list bytes :=
  match btree_iter (api_url <$> c.(contexts)) with
  | [] => [B "Aucun contexte configure (`atelier context add`)."]
  | entries => (fun e => (if bool_decide (c.(current) = Some e.1) then B "*" else B " ") ++ B " " ++ e.1 ++ tab ++ e.2) <$> entries
  end.
Definition context_command (a : answers) (s : cli_state) (cmd : ContextCommand) : cli_state * list effect * res unit :=
  match load s.(config_of) with
  | Ok c =>
      match cmd with
      | Add name url iss client_ sc => save a s (add_context c name url iss client_ sc) [quoted (B "Contexte ") name (B " enregistre.")]
      | Use name => match use_context c name with
                    | Ok c => save a s c [B "Contexte actif : " ++ name]
                    | Err e => (s, [], Err e)
                    | Panic => (s, [], Panic)
                    end
      | ContextList => (s, Shown <$> context_lines c, Ok tt)
      | Current => match current_context c with
                   | Ok (name, ctx) => (s, [Shown (name ++ tab ++ ctx.(api_url) ++ tab ++ ctx.(issuer))], Ok tt)
                   | Err e => (s, [], Err e)
                   | Panic => (s, [], Panic)
                   end
      end
  | Err e => (s, [], Err e)
  | Panic => (s, [], Panic)
  end.

(** [commands/auth.rs]. *)
Definition status_line (now : Z) (name : bytes) (t : option TokenSet) : bytes :=
  match t with
  | None => quoted (B "Contexte ") name (B " : non authentifie (`atelier auth login`).")
  | Some t => quoted (B "Contexte ") name (B " : sujet=") ++ default (B "inconnu") t.(subject) ++ B " (" ++
                (if is_expired now t then B "expire" else B "valide jusqu'a " ++ rfc3339 t.(expires_at)) ++ B ")"
  end.
Definition auth_command (a : answers) (s : cli_state) (cmd : AuthCommand) : cli_state * list effect * res unit :=
  match (c ← load s.(config_of); current_context c) with
  | Ok (name, ctx) =>
      match cmd with
      | Login =>
          let sent := [TokenRequest ctx.(issuer) ctx.(client_id) None] in
          match a.(a_login) with
          | Ok t => if a.(a_write)
                    then (with_keys s (<[name := t]> s.(keys)) (<[name := ctx]> s.(issued)),
                          sent ++ [Shown (quoted (B "Authentifie sur le contexte ") name (B "."))], Ok tt)
                    else (s, sent, Err "ecriture dans le trousseau de cles de l'OS")
          | Err e => (s, sent, Err e)
          | Panic => (s, sent, Panic)
          end
      | Logout => if a.(a_write)
                  then (with_keys s (logout s.(keys) name) (delete name s.(issued)),
                        [Shown (quoted (B "Session locale revoquee pour le contexte ") name (B "."))], Ok tt)
                  else (s, [], Err "suppression du trousseau de cles de l'OS")
      | AuthStatus => if a.(a_read) then (s, [Shown (status_line a.(a_now) name (s.(keys) !! name))], Ok tt)
                      else (s, [], Err "lecture du trousseau de cles de l'OS")
      end
  | Err e => (s, [], Err e)
  | Panic => (s, [], Panic)
  end.

(** [commands/workshops.rs]. *)
Definition workshop_lines (ws : list (option bytes * option WorkshopPhase)) : list bytes :=
  match ws with
  | [] => [B "Aucun Workshop."]
  | _ => (B "NAME" ++ tab ++ B "PHASE") :: ((fun w => default [] w.1 ++ tab ++ match w.2 with Some p => phase_str p | None => B "Inconnu" end) <$> ws)
  end.
Definition workshops_command (a : answers) (s : cli_state) (cmd : WorkshopsCommand) : cli_state * list effect * res unit :=
  let asked (what name : bytes) := quoted what name (B " demandee.") in
  match cmd with
  | WorkshopsList => api_command a s list_workshops_request (fun body => workshop_lines <$> read_workshops body)
  | Create name repo revision config_path cpu memory disk egress tools owner =>
      let '(d, r) := create_fields repo revision config_path cpu memory disk in
      api_command a s (fun url => create_workshop_request url name d r egress tools owner)
        (fun body => w ← read_workshop body; Some [quoted (B "Workshop ") (default name w.1) (B " cree.")])
  | WorkshopStatus name => api_command a s (fun url => get_workshop_request url name) (fun body => w ← read_workshop body; Some [w.2])
  | Stop name => api_command a s (fun url => action_request url name (B "suspend")) (fun body => _ ← read_workshop body; Some [asked (B "Suspension de ") name])
  | Resume name => api_command a s (fun url => action_request url name (B "resume")) (fun body => _ ← read_workshop body; Some [asked (B "Reprise de ") name])
  | Delete name => api_command a s (fun url => delete_workshop_request url name) (fun _ => Some [asked (B "Suppression de ") name])
  end.

(** [commands/approvals.rs]. *)
Definition approvals_command (a : answers) (s : cli_state) (cmd : ApprovalsCommand) : cli_state * list effect * res unit :=
  let decide_ id decision reason verb :=
    api_command a s (fun url => decision_request url id decision reason)
      (fun body => st ← read_decision body; Some [quoted (B "Demande ") id (B " " ++ verb ++ B " (statut: " ++ st ++ B ").")]) in
  match cmd with
  | ApprovalsList name =>
      api_command a s (fun url => approvals_request url name)
        (fun body => rows ← read_approvals body;
           Some (match rows with
                 | [] => [B "Aucune demande d'approbation."]
                 | _ => join tab [B "ID"; B "CATEGORIE"; B "STATUT"; B "DEMANDEUR"; B "EXPIRE"] :: (join tab <$> rows)
                 end))
  | Approve id reason => decide_ id (B "APPROVED") reason (B "approuvee")
  | Reject id reason => decide_ id (B "REJECTED") reason (B "rejetee")
  end.

(** [commands/tunnels.rs] and [tunnel.rs]: one session in [--stdio], one for each connection
    of the listener, all with the token of the start. *)
Definition port_forward (a : answers) (s : cli_state) (stdio : bool) (name mapping : bytes) : cli_state * list effect * res unit :=
  match client a s.(config_of) s.(config_of) s with
  | (s, sent, Ok (url, token)) =>
      if stdio then
        match stdio_port mapping with
        | Ok port => (s, sent ++ [WebSocket (ws_url url name port) token], a.(a_ends))
        | Err e => (s, sent, Err e)
        | Panic => (s, sent, Panic)
        end
      else
        match listen_mapping mapping with
        | Ok (local, port) =>
            if a.(a_bind)
            then (s, sent ++ Shown (B "Ecoute sur " ++ local ++ B " -> Workshop '" ++ name ++ B "':" ++ dec port) ::
                       replicate a.(a_conns) (WebSocket (ws_url url name port) token), a.(a_ends))
            else (s, sent, Err "ecoute locale")
        | Err e => (s, sent, Err e)
        | Panic => (s, sent, Panic)
        end
  | (s, sent, Err e) => (s, sent, Err e)
  | (s, sent, Panic) => (s, sent, Panic)
  end.
Definition ssh_args (self_exe name user : bytes) : list bytes :=
  [B "-o"; B "ProxyCommand=" ++ proxy_command self_exe name; B "-o"; B "StrictHostKeyChecking=no"; B "-o"; B "UserKnownHostsFile=/dev/null";
   user ++ B "@" ++ name].
Definition ssh (a : answers) (s : cli_state) (name user : bytes) : cli_state * list effect * res unit :=
  match a.(a_exe) with
  | None => (s, [], Err "chemin du binaire atelier introuvable")
  | Some exe => (s, [Program (B "ssh") (ssh_args exe name user)], a.(a_ends))
  end.
Definition code (a : answers) (s : cli_state) (name user editor : bytes) : cli_state * list effect * res unit :=
  match a.(a_exe) with
  | None => (s, [], Err "chemin du binaire atelier introuvable")
  | Some exe =>
      let host_alias := host_alias_of name in
      if a.(a_saves)
      then (mkCli s.(config_of) s.(keys) s.(issued)
              (Some (write_ssh_config_entry host_alias user (proxy_command exe name) s.(ssh_file))) s.(mcp_file),
            [Program editor [B "--remote"; B "ssh-remote+" ++ host_alias; code_directory]], a.(a_ends))
      else (s, [], Err "ecriture de ~/.ssh/config")
  end.

(** [commands/mcp.rs]. *)
Definition serve (a : answers) (s : cli_state) (context : option bytes) : cli_state * list effect * res unit :=
  let '(s, sent, r) :=
    match context with
    | Some name =>
        match named_context s.(config_of) name with
        | Ok ctx => let '(s, sent, r) := ensure_access_token_for_named_context a s.(config_of) s name in (s, sent, token ← r; Ok (ctx.(api_url), token))
        | Err e => (s, [], Err e)
        | Panic => (s, [], Panic)
        end
    | None => client a s.(config_of) s.(config_of) s
    end in
  match r with
  | Ok (url, token) => (s, sent ++ [McpUpstream (mcp_url url) token], a.(a_ends))
  | Err e => (s, sent, Err e)
  | Panic => (s, sent, Panic)
  end.
Definition MCP_TARGETS : list bytes := [B "claude-desktop"; B "cursor"].
Definition install_mcp_config (a : answers) (s : cli_state) (target : bytes) (context : option bytes) : cli_state * list effect * res unit :=
  match a.(a_exe) with
  | None => (s, [], Err "chemin du binaire atelier introuvable")
  | Some exe =>
      if negb (bool_decide (target ∈ MCP_TARGETS)) then (s, [], Err "cible inconnue")
      else match install_config (s.(mcp_file) target) exe context with
           | Ok j => if a.(a_saves)
                     then (mkCli s.(config_of) s.(keys) s.(issued) s.(ssh_file) (fun t => if beq t target then Some j else s.(mcp_file) t),
                           [Shown (B "Configuration MCP ecrite")], Ok tt)
                     else (s, [], Err "ecriture")
           | Err e => (s, [], Err e)
           | Panic => (s, [], Panic)
           end
  end.

(** [commands/server.rs]. *)
Definition KUBECTL_STATUS : list bytes := [B "get"; B "pods"; B "-n"; B "atelier-system"; B "-o"; B "wide"].
Definition server_command_run (a : answers) (cmd : ServerCommand) : list effect * res unit :=
  match cmd with
  | Doctor => ([], doctor a.(a_machine))
  | Install _ _ _ enable_gpu => prod_map (fun steps => [Installed steps]) id (install a.(a_machine) enable_gpu a.(a_has_k3s) a.(a_has_helm) a.(a_step))
  | ServerStatus => ([Program (B "kubectl") KUBECTL_STATUS], a.(a_ends))
  | Upgrade => prod_map (fun cs => [Operated cs]) id (upgrade a.(a_values) a.(a_cloned) a.(a_command))
  | Uninstall => prod_map (fun cs => [Operated cs]) id (uninstall a.(a_machine).(is_root) a.(a_k3s_uninstall) a.(a_command))
  end.

(** [fn main]. *)
Definition cli_main (a : answers) (s : cli_state) (cmd : Command) : cli_state * list effect * res unit :=
  match cmd with
  | ContextCmd c => context_command a s c
  | AuthCmd c => auth_command a s c
  | WorkshopsCmd c => workshops_command a s c
  | PortForwardCmd stdio name mapping => port_forward a s stdio name mapping
  | SshCmd name user => ssh a s name user
  | CodeCmd name user editor => code a s name user editor
  | ApprovalsCmd c => approvals_command a s c
  | ServerCmd c => let '(es, r) := server_command_run a c in (s, es, r)
  | McpCmd (Serve context) => serve a s context
  | McpCmd (InstallConfig target context) => install_mcp_config a s target context
  end.

(** Commands, one after the other: each effect with the states before and after its command. *)
Fixpoint cli_session (s : cli_state) (cmds : list (Command * answers)) : list (cli_state * cli_state * effect) :=
  match cmds with
  | [] => []
  | (cmd, a) :: cmds => let '(s', es, _) := cli_main a s cmd in ((fun e => (s, s', e)) <$> es) ++ cli_session s' cmds
  end.

(** ** Tokens stay in their context *)

Definition registered (s : cli_state) (name : bytes) (ctx : ContextConfig) : Prop :=
  exists c, load s.(config_of) = Ok c /\ c.(contexts) !! name = Some ctx.
(** The token under the name of a context was obtained for that context, as it is now. *)
Definition bound (s : cli_state) : Prop :=
  forall name ctx, registered s name ctx -> is_Some (s.(keys) !! name) -> s.(issued) !! name = Some ctx.
Definition token_of (s : cli_state) (ctx : ContextConfig) (token : bytes) : Prop :=
  exists name t, registered s name ctx /\ s.(keys) !! name = Some t /\ t.(access_token) = token /\ s.(issued) !! name = Some ctx.
(** A token that is sent goes to the server of the context it was obtained for, and a refresh
    token to its issuer. *)
Definition contained (s s' : cli_state) (e : effect) : Prop :=
  match e with
  | Http (_, url, _) token => exists ctx path, token_of s' ctx token /\ url = client_url ctx.(api_url) path
  | WebSocket url token => exists ctx name port, token_of s' ctx token /\ url = ws_url ctx.(api_url) name port
  | McpUpstream url token => exists ctx, token_of s' ctx token /\ url = mcp_url ctx.(api_url)
  | TokenRequest iss client_ (Some old) =>
      exists name ctx t, registered s name ctx /\ s.(keys) !! name = Some t /\ t.(refresh_token) = Some old /\ s.(issued) !! name = Some ctx /\
        iss = ctx.(issuer) /\ client_ = ctx.(client_id)
  | _ => True
  end.
(** No context is defined over a token another one left under its name. *)
Definition clean_add (s : cli_state) (cmd : Command) : Prop :=
  match cmd with
  | ContextCmd (Add name url iss client_ sc) => s.(keys) !! name = None \/ registered s name (mkContext url iss client_ (default default_scope sc))
  | _ => True
  end.
Fixpoint clean_adds (s : cli_state) (cmds : list (Command * answers)) : Prop :=
  match cmds with
  | [] => True
  | (cmd, a) :: cmds => clean_add s cmd /\ clean_adds (cli_main a s cmd).1.1 cmds
  end.

Lemma bound_insert s name ctx t : registered s name ctx -> bound s -> bound (with_keys s (<[name := t]> s.(keys)) (<[name := ctx]> s.(issued))).
Proof.
  intros (c & Hc & Hn) Hb n x (c' & Hc' & Hx) Hk. cbn [with_keys config_of keys issued] in *. rewrite Hc in Hc'. injection Hc' as <-.
  destruct (decide (n = name)) as [->|Hne]; [rewrite lookup_insert_eq; congruence|].
  rewrite lookup_insert_ne in Hk by done. rewrite lookup_insert_ne by done. apply Hb; [by exists c|done].
Qed.
Lemma bound_delete s name : bound s -> bound (with_keys s (delete name s.(keys)) (delete name s.(issued))).
Proof.
  intros Hb n x Hr Hk. cbn [with_keys keys issued] in *. destruct (decide (n = name)) as [->|Hne]; [rewrite lookup_delete_eq in Hk; by destruct Hk|].
  rewrite lookup_delete_ne in Hk by done. rewrite lookup_delete_ne by done. by apply Hb.
Qed.
Lemma current_registered s c name ctx : load s.(config_of) = Ok c -> current_context c = Ok (name, ctx) -> registered s name ctx.
Proof.
  intros Hc. unfold current_context. destruct (current c) as [n|]; [|done]. cbn [ok_or mbind option_bind res_bind].
  destruct (contexts c !! n) eqn:E; [|done]. cbn. intros [= <- <-]. by exists c.
Qed.

(** What a command may do to the state, and to the tokens. *)
Definition keeps (s : cli_state) (out : cli_state * list effect) : Prop :=
  bound out.1 /\ out.1.(config_of) = s.(config_of) /\ Forall (contained s out.1) out.2.

Lemma access_token_spec a s name ctx s' sent r : bound s -> registered s name ctx -> access_token_for a s name ctx = (s', sent, r) ->
  keeps s (s', sent) /\ (forall token, r = Ok token -> token_of s' ctx token).
Proof using All.
  intros Hb Hr. unfold access_token_for, ensure_access_token_for. destruct (a_read a); cbn [negb]; [|intros [= <- <- <-]; by repeat split].
  destruct (keys s !! name) as [t|] eqn:Ek; [|intros [= <- <- <-]; by repeat split].
  assert (Hi : issued s !! name = Some ctx) by (apply Hb; [done|by eexists]).
  destruct (is_expired (a_now a) t); cbn [negb].
  2:{ intros [= <- <- <-]. split; [by repeat split|]. intros token [= <-]. by exists name, t. }
  destruct (refresh_token t) as [old|] eqn:Eo; [|intros [= <- <- <-]; by repeat split].
  assert (Hs : forall s2, Forall (contained s s2) [TokenRequest (issuer ctx) (client_id ctx) (Some old)])
    by (intros s2; apply Forall_singleton; by exists name, ctx, t).
  destruct (refresh _ _ (a_now' a) old (a_token a)) as [t'| |]; [|intros [= <- <- <-]; by repeat split..].
  destruct (a_write a); [|intros [= <- <- <-]; by repeat split]. intros [= <- <- <-]. split; [split_and!; [by apply bound_insert|done|apply Hs]|].
  intros token [= <-]. exists name, t'. cbn [with_keys keys issued]. by rewrite !lookup_insert_eq.
Qed.

Lemma client_spec a s s' sent r : bound s -> client a s.(config_of) s.(config_of) s = (s', sent, r) ->
  keeps s (s', sent) /\ (forall url token, r = Ok (url, token) -> exists ctx, token_of s' ctx token /\ url = ctx.(api_url)).
Proof using All.
  intros Hb. unfold client, ensure_access_token. destruct (load (config_of s)) as [c| |] eqn:Ec; cbn [mbind res_bind];
    [|intros [= <- <- <-]; by repeat split..].
  destruct (current_context c) as [[name ctx]| |] eqn:Ex; [|intros [= <- <- <-]; by repeat split..].
  destruct (access_token_for a s name ctx) as [[s1 sent1] r1] eqn:Ea. intros [= <- <- <-].
  apply access_token_spec in Ea as [Hk Ht]; [|done|by apply (current_registered s c)]. split; [done|]. intros url token.
  destruct r1 as [tok| |]; cbn; [|done..]. intros [= <- <-]. exists ctx. split; [by apply Ht|done].
Qed.

(** A command leaves tokens bound, and contains what it sends. *)
Definition safe (s : cli_state) (out : cli_state * list effect * res unit) : Prop := bound out.1.1 /\ Forall (contained s out.1.1) out.1.2.
Lemma contained_shown s s' ls : Forall (contained s s') (Shown <$> ls).
Proof. apply Forall_fmap. by apply Forall_true. Qed.
Lemma api_command_safe a s req show : bound s -> (forall url, exists path, (req url).1.2 = client_url url path) -> safe s (api_command a s req show).
Proof using All.
  intros Hb Hreq. unfold api_command, safe. destruct (client a _ _ s) as [[s' sent] r] eqn:Ec. apply client_spec in Ec as [(Hb' & _ & Hs) Ht]; [|done].
  destruct r as [[url token]| |]; [|by split..]. destruct (Ht url token eq_refl) as (ctx & Htok & ->). clear Ht.
  destruct (match a_http a with None => _ | Some _ => _ end) as [shown r]. split; [done|].
  apply Forall_app. split; [done|]. apply Forall_cons. split; [|apply contained_shown].
  destruct (Hreq (api_url ctx)) as [path Hp]. destruct (req (api_url ctx)) as [[m u] b]. cbn in *. by exists ctx, path.
Qed.

Lemma save_safe a s c shown : bound (mkCli (Holds c) s.(keys) s.(issued) s.(ssh_file) s.(mcp_file)) -> bound s -> safe s (save a s c shown).
Proof. intros Hc Hb. unfold save. destruct (a_saves a); split; [done|apply contained_shown|done..]. Qed.
Lemma context_safe a s cmd : bound s -> clean_add s (ContextCmd cmd) -> safe s (context_command a s cmd).
Proof.
  intros Hb Hclean. unfold context_command. destruct (load (config_of s)) as [c| |] eqn:Ec; [|by split..]. destruct cmd as [name url iss cl sc|name| |].
  - apply save_safe; [|done]. intros n x (c' & [= <-] & Hn) Hk. cbn [config_of keys issued add_context contexts] in *.
    apply lookup_insert_Some in Hn as [[-> <-]|[Hne Hn]]; [|apply Hb; [by exists c|done]].
    destruct Hclean as [Hno|Hreg]; [rewrite Hno in Hk; by destruct Hk|by apply Hb].
  - unfold use_context. destruct (contexts c !! name); [|by split]. apply save_safe; [|done].
    intros n x (c' & [= <-] & Hn) Hk. apply Hb; [by exists c|done].
  - split; [done|apply contained_shown].
  - destruct (current_context c) as [[]| |]; split; try done. by repeat constructor.
Qed.
Lemma auth_safe a s cmd : bound s -> safe s (auth_command a s cmd).
Proof using All.
  intros Hb. unfold auth_command. destruct (load (config_of s)) as [c| |] eqn:Ec; cbn [mbind res_bind]; [|by split..].
  destruct (current_context c) as [[name ctx]| |] eqn:Ex; [|by split..]. apply (current_registered s c) in Ex; [|done].
  destruct cmd.
  - destruct (a_login a); [|split; [done|by repeat constructor]..]. destruct (a_write a); split; try by repeat constructor. by apply bound_insert.
  - destruct (a_write a); split; try by repeat constructor. by apply bound_delete.
  - destruct (a_read a); split; by repeat constructor.
Qed.
Lemma port_forward_safe a s stdio name mapping : bound s -> safe s (port_forward a s stdio name mapping).
Proof using All.
  intros Hb. unfold port_forward, safe. destruct (client a _ _ s) as [[s' sent] r] eqn:Ec. apply client_spec in Ec as [(Hb' & _ & Hs) Ht]; [|done].
  destruct r as [[url token]| |]; [|by split..]. destruct (Ht url token eq_refl) as (ctx & Htok & ->).
  assert (Hw : forall port, contained s s' (WebSocket (ws_url (api_url ctx) name port) token)) by (intros port; by exists ctx, name, port).
  destruct stdio.
  - destruct (stdio_port mapping) as [port| |]; [|by split..]. split; [done|]. apply Forall_app. split; [done|by apply Forall_singleton].
  - destruct (listen_mapping mapping) as [[local port]| |]; [|by split..]. destruct (a_bind a); [|by split]. split; [done|].
    apply Forall_app. split; [done|]. apply Forall_cons. split; [done|]. by apply Forall_replicate.
Qed.
Lemma serve_safe a s context : bound s -> safe s (serve a s context).
Proof using All.
  intros Hb. unfold serve, safe.
  set (got := match context with Some _ => _ | None => _ end).
  assert (Hg : keeps s got.1 /\ forall url token, got.2 = Ok (url, token) -> exists ctx, token_of got.1.1 ctx token /\ url = ctx.(api_url)).
  { unfold got. destruct context as [name|]; [|destruct (client a _ _ s) as [[s' sent] r] eqn:Ec; by apply client_spec in Ec].
    unfold ensure_access_token_for_named_context. destruct (named_context _ name) as [ctx| |] eqn:En; [|by repeat split..].
    destruct (access_token_for a s name ctx) as [[s' sent] r] eqn:Ea. apply access_token_spec in Ea as [Hk Ht]; [| done|].
    - split; [done|]. intros url token. destruct r as [tok| |]; cbn; [|done..]. intros [= <- <-]. exists ctx. split; [by apply Ht|done].
    - unfold named_context in En. destruct (load _) as [c| |] eqn:El; cbn [mbind res_bind] in En; [|done..].
      destruct (contexts c !! name) eqn:Ex; [|done]. injection En as <-. by exists c. }
  destruct got as [[s' sent] r]. cbn [fst snd] in Hg. destruct Hg as [(Hb' & _ & Hs) Ht].
  destruct r as [[url token]| |]; [|by split..]. destruct (Ht url token eq_refl) as (ctx & Htok & ->).
  split; [done|]. apply Forall_app. split; [done|]. apply Forall_singleton. by exists ctx.
Qed.

Lemma cli_main_safe a s cmd : bound s -> clean_add s cmd -> safe s (cli_main a s cmd).
Proof using All.
  intros Hb Hc. destruct cmd as [c|c|c|stdio name mapping|name user|name user editor|c|c|[context|target context]]; cbn [cli_main].
  - by apply context_safe.
  - by apply auth_safe.
  - unfold workshops_command. destruct c; cbn [create_fields]; apply api_command_safe; try done; intros url; by eexists.
  - by apply port_forward_safe.
  - unfold ssh. destruct (a_exe a); split; by repeat constructor.
  - unfold code. destruct (a_exe a), (a_saves a); split; by repeat constructor.
  - unfold approvals_command. destruct c; apply api_command_safe; try done; intros url; by eexists.
  - destruct (server_command_run a c) as [es r] eqn:E. split; [done|]. unfold server_command_run in E.
    destruct c; [injection E as <- _; constructor|destruct (install _ _ _ _ _)|injection E as <- _; by repeat constructor|destruct (upgrade _ _ _)|destruct (uninstall _ _ _)];
      injection E as <- _; by repeat constructor.
  - by apply serve_safe.
  - unfold install_mcp_config. destruct (a_exe a); [|split; by repeat constructor]. destruct (negb _); [split; by repeat constructor|].
    destruct (install_config _ _ _); [|split; by repeat constructor..]. destruct (a_saves a); split; by repeat constructor.
Qed.
End cli.

(** C20: Tokens stay in their context.  Through any sequence of commands, whatever the servers and
    the programs answer, each access token that is sent goes to the api-server of a context that is
    configured, and was obtained from the issuer of that very context; and each refresh token goes
    to the issuer and the client of the context it was obtained for; provided no context is defined
    under a name where the keyring holds the token of another. *)
Theorem tokens_stay_in_context plus_secs extract_subject read_workshops read_approvals read_workshop read_decision rfc3339 cmds s :
  bound s -> clean_adds plus_secs extract_subject read_workshops read_approvals read_workshop read_decision rfc3339 s cmds ->
  Forall (fun x => contained x.1.1 x.1.2 x.2)
    (cli_session plus_secs extract_subject read_workshops read_approvals read_workshop read_decision rfc3339 s cmds).
Proof.
  revert s; induction cmds as [|[cmd a] cmds IH]; intros s Hb Hc; cbn [cli_session]; [constructor|]. destruct Hc as [Hc Hcs].
  pose proof (cli_main_safe plus_secs extract_subject read_workshops read_approvals read_workshop read_decision rfc3339 a s cmd Hb Hc) as [Hb' Hf].
  destruct (cli_main _ _ _ _ _ _ _ a s cmd) as [[s' es] r]. cbn [fst snd] in *. apply Forall_app. split; [by apply Forall_fmap|]. by apply IH.
Qed.

(** ** A user *)

Definition quiet_machine : machine_facts := mkFacts (B "x86_64") true (Some true) true true true false true.
Definition toy_answers (login : res TokenSet) : answers :=
  mkAnswers true true true 0 0 NoAnswer login (Some (200, [])) (Some (B "/usr/bin/atelier")) true 1 (Ok tt)
    quiet_machine true true (fun _ => true) true true (fun _ => true) true.
Definition no_answer : answers := toy_answers (Err "").
Definition logs_in (token : bytes) : answers := toy_answers (Ok (mkTokens token None 1000 None)).
Definition new_user : cli_state := mkCli NoFile ∅ ∅ None (fun _ => None).
Definition toy_add (name url issuer : bytes) : Command := ContextCmd (Add name url issuer (B "cli") None).
Definition toy_session : cli_state -> list (Command * answers) -> list (cli_state * cli_state * effect) :=
  cli_session (fun _ _ => None) (fun _ => None) (fun _ => Some []) (fun _ => Some []) (fun _ => None) (fun _ => None) (fun _ => []).
Definition is_sent (e : effect) : bool := match e with Http _ _ | WebSocket _ _ | McpUpstream _ _ => true | _ => false end.
Definition sent_by (cmds : list (Command * answers)) : list effect := base.filter (fun e => is_sent e = true) (toy_session new_user cmds).*2.
Definition two_contexts : list (Command * answers) :=
  [(toy_add (B "prod") (B "https://api.prod/") (B "https://id.prod"), no_answer); (AuthCmd Login, logs_in (B "token-prod"));
   (toy_add (B "eu") (B "https://api.eu") (B "https://id.eu"), no_answer); (WorkshopsCmd WorkshopsList, no_answer);
   (ContextCmd (Use (B "eu")), no_answer); (AuthCmd Login, logs_in (B "token-eu"));
   (PortForwardCmd false (B "demo") (B "8080:61080"), no_answer); (McpCmd (Serve (Some (B "prod"))), no_answer)].

Lemma tokens_stay_in_context_witness :
  Forall (fun x => contained x.1.1 x.1.2 x.2) (toy_session new_user two_contexts) /\
  sent_by two_contexts =
    [Http (GET, B "https://api.prod/v1/workshops", None) (B "token-prod");
     WebSocket (B "wss://api.eu/v1/workshops/demo/portforward?ports=61080") (B "token-eu");
     McpUpstream (B "https://api.prod/v1/mcp") (B "token-prod")].
Proof.
  split; [|vm_compute; reflexivity].
  apply (tokens_stay_in_context (fun _ _ => None) (fun _ => None) (fun _ => Some []) (fun _ => Some []) (fun _ => None) (fun _ => None) (fun _ => [])
    two_contexts new_user).
  - intros name ctx _ [t Ht]. cbn in Ht. by rewrite lookup_empty in Ht.
  - cbn [clean_adds two_contexts clean_add]. repeat (split; [first [exact I|left; vm_compute; reflexivity]|]). exact I.
Defined.

(** A context that is defined again under its name sends the token of the first one to the
    server of the second: the keyring knows names only. *)
Lemma readded_context_leaks :
  sent_by [(toy_add (B "prod") (B "https://api.prod") (B "https://id.prod"), no_answer); (AuthCmd Login, logs_in (B "token-prod"));
           (toy_add (B "prod") (B "https://elsewhere") (B "https://id.elsewhere"), no_answer); (WorkshopsCmd WorkshopsList, no_answer)] =
  [Http (GET, B "https://elsewhere/v1/workshops", None) (B "token-prod")].
Proof. vm_compute. reflexivity. Qed.

(** [fn client] loads the configuration twice: a [context use] of another process in between
    makes it send the token of one context to the server of the other. *)
Lemma switch_between_loads plus_secs extract_subject a s c c' n ctx n' ctx' t :
  a.(a_read) = true -> current_context c = Ok (n, ctx) -> current_context c' = Ok (n', ctx') ->
  s.(keys) !! n' = Some t -> is_expired a.(a_now) t = false ->
  client plus_secs extract_subject a (Holds c) (Holds c') s = (s, [], Ok (ctx.(api_url), t.(access_token))).
Proof.
  intros Ha Hc Hc' Hk He. unfold client, ensure_access_token. cbn [load mbind res_bind]. rewrite Hc, Hc'.
  unfold access_token_for, ensure_access_token_for. by rewrite Ha, Hk, He.
Qed.

(** The sessions of a listener carry the token of its start, whenever they are opened: once it has
    expired the server refuses them, though the keyring has, or could get, another. *)
Lemma listener_keeps_token plus_secs extract_subject a s name mapping s' sent r url token :
  client plus_secs extract_subject a s.(config_of) s.(config_of) s = (s', sent, Ok (url, token)) ->
  (port_forward plus_secs extract_subject a s false name mapping).1.2 = r ->
  Forall (fun e => forall u t, e = WebSocket u t -> t = token) (drop (length sent) r).
Proof.
  intros Hc Hr. unfold port_forward in Hr. rewrite Hc in Hr.
  destruct (listen_mapping mapping) as [[local port]| |]; [destruct (a_bind a)|..]; cbn [fst snd] in Hr; subst r; rewrite ?drop_app_length, ?drop_all; try constructor; [done|].
  apply Forall_replicate. by intros u t [= _ <-].
Qed.

(** [ssh] and [code] log in as root by default; the sshd of a guest refuses root. *)
Lemma default_user_refused services : DEFAULT_USER = B "root" /\ B "PermitRootLogin no" ∈ lines (sshd_config (gp_ssh (reserved services))).
Proof. split; [done|]. destruct services as [[] []]; place. Qed.
