(* ===== verification/ControllerRun.v ===== *)
(** * The controller around its reconciliations

    [fn run], [fn reconcile] and [fn error_policy] of [src/crates/controller/src/reconcile.rs]:
    what the reconciliations know of their environment ([struct ReconcileCtx]), the finalizer
    that keeps a Workshop until its cleanup is done, and the cache of the controller, which is
    behind the cluster.  The finalizer of kube-rs and the watch are not of the repository: what
    is relied on of the first is [Finalizer], the second hands over versions in their order. *)

From S2P Require Import Prelude RustStr Json Internal Ingress Storage OpenBao PodSpec Crd Provision BuildJob PodTemplate.
From Stdlib Require Import Sorted.
From stdpp Require Import sorting relations.

(** ** What a reconciliation knows *)

Record ReconcileCtx := mkReconcileCtx {
  rc_openbao : option OpenBaoConfig; rc_registry_addr : bytes; rc_registry_insecure : bool; rc_llm_proxy_addr : option bytes;
  rc_llm_proxy_pod_addr : option bytes; rc_llm_proxy_auth_token : option bytes; rc_git_identity : option GitIdentityConfig;
  rc_litellm : option LiteLlmConfig; rc_component_image_registry : option bytes; rc_s3 : option S3Config; rc_s3_pod_endpoint : option bytes;
  rc_ca_bundle_configmap : option bytes; rc_squad_token_signing_key : option bytes }.

(** [fn run], before the controller starts. *)
Definition context_from_env (env : string -> option bytes) : res ReconcileCtx :=
  openbao ← config_from_env env;
  let llm_proxy_addr := filled (env "ATELIER_LLM_PROXY_ADDR"%string) in
  let auth_token := filled (env "ATELIER_LLM_PROXY_AUTH_TOKEN"%string) in
  s3 ← s3_config_from_env env;
  Ok (mkReconcileCtx openbao
        (default (B "localhost:5000") (env "ATELIER_REGISTRY_ADDR"%string))
        (match env "ATELIER_REGISTRY_INSECURE"%string with Some v => beq v (B "true") | None => false end)
        llm_proxy_addr
        (match env "ATELIER_LLM_PROXY_POD_ADDR"%string with Some a => Some a | None => llm_proxy_addr end)
        auth_token (git_config_from_env env) (litellm_config_from_env llm_proxy_addr auth_token)
        (env "ATELIER_COMPONENT_IMAGE_REGISTRY"%string) s3
        (match env "ATELIER_S3_POD_ENDPOINT"%string with Some e => Some e | None => endpoint <$> s3 end)
        (filled (env "ATELIER_CA_BUNDLE_CONFIGMAP"%string)) (filled (env "ATELIER_SQUAD_TOKEN_SIGNING_KEY"%string))).

(** [fn resolve_llm_cluster_ip]: [get] reads a Service, its [clusterIP] if it has one;
    [parse_ip] is [IpAddr]'s. *)
Definition resolve_llm_cluster_ip {A} (get : bytes -> bytes -> option (option bytes)) (parse_ip : bytes -> option A) (pod_addr : option bytes) : res A :=
  pod_addr ← ok_or pod_addr "adresse cluster LiteLLM absente";
  '(name, namespace) ← ok_or (llm_service_ref pod_addr) "n'est pas un nom de Service Kubernetes";
  cluster_ip ← ok_or (get namespace name) "lecture du Service echouee";
  ip ← ok_or (cluster_ip ≫= (fun ip => if beq ip (B "None") then None else Some ip)) "sans ClusterIP exploitable";
  ok_or (parse_ip ip) "ClusterIP illisible".

(** ** Events *)

(** The events of the finalizer of kube-rs, with the additions it makes itself. *)
Inductive fin_event := AddFinalizer | EventApply | EventCleanup | NoEvent.
(** What is relied on of it, of whether an object is being deleted and has the finalizer: it
    applies what has the finalizer and is not being deleted, cleans up what has it and is, and
    adds it to what is not being deleted. *)
Class Finalizer (finalizer : bool -> bool -> fin_event) := {
  fin_apply d h : finalizer d h = EventApply -> d = false /\ h = true;
  fin_cleanup d h : finalizer d h = EventCleanup -> d = true /\ h = true;
  fin_add d h : finalizer d h = AddFinalizer -> d = false /\ h = false }.

Inductive action := Requeue (secs : Z) | AwaitChange.
Definition CLEANUP_FINALIZER : bytes := B "atelier.dev/cleanup".

Section reconcile.
Context {S : Type} (tr : server S) (ctx : ReconcileCtx) (s3 : bool) (ns name : bytes).

(** The closure of [fn reconcile]: [apply] is what [fn apply] does to OpenBao and its outcome,
    [updated] that of [fn update_status]. *)
Definition on_event (apply : S -> S * res unit) (updated : res unit) (ev : fin_event) (s : S) : S * list cleanup_step * res action :=
  match ev with
  | EventApply => let '(s, r) := apply s in (s, [], _ ← r; _ ← updated; Ok (Requeue 15))
  | EventCleanup =>
      let '(s, steps, r) := cleanup tr ctx.(rc_openbao) s3 (match ctx.(rc_litellm) with Some _ => true | None => false end) s ns name in
      (s, steps, _ ← r; Ok AwaitChange)
  | AddFinalizer | NoEvent => (s, [], Ok AwaitChange)
  end.
(** When the object is looked at again, without a change of it: [fn error_policy] for the
    errors. *)
Definition looked_at_in (r : res action) : option Z :=
  match r with Ok (Requeue n) => Some n | Ok AwaitChange => None | Err _ | Panic => Some 5%Z end.
End reconcile.

(** ** The cluster *)

(** A version of the object: which of the objects of that name, whether it is being deleted, and
    whether it has the finalizer. *)
Record view := mkView { v_uid : nat; v_deleting : bool; v_finalizer : bool }.
(** [real] is the object; [seen] the controller's, which [queue], the versions it has not received
    yet, follow. *)
Record cluster (S : Type) := mkCluster { real : option view; seen : option view; queue : list (option view); next : nat; bao : S }.
Arguments mkCluster {S}.
Arguments real {S}.
Arguments seen {S}.
Arguments queue {S}.
Arguments next {S}.
Arguments bao {S}.
Definition changed {S} (k : cluster S) (v : option view) (n : nat) : cluster S := mkCluster v k.(seen) (k.(queue) ++ [v]) n k.(bao).
Definition with_bao {S} (k : cluster S) (s : S) : cluster S := mkCluster k.(real) k.(seen) k.(queue) k.(next) s.
(** The patch of the finalizers of the object the controller saw: there is none left on an
    object that is being deleted, which goes. *)
Definition patched {S} (k : cluster S) (uid : nat) (add : bool) : cluster S :=
  match k.(real) with
  | Some v =>
      if Nat.eqb v.(v_uid) uid then
        changed k (if add then Some (mkView uid v.(v_deleting) true) else if v.(v_deleting) then None else Some (mkView uid false false)) k.(next)
      else k
  | None => k
  end.

Section steps.
Context {S : Type} (tr : server S) `{!KvV2 tr, AD : !BaoAdmin tr} (finalizer : bool -> bool -> fin_event) (ctx : ReconcileCtx) (s3 : bool) (ns name : bytes).

(** One reconciliation of what was seen; [patch_ok]: whether the finalizer could be patched. *)
Definition reconcile_seen (apply : S -> S * res unit) (updated : res unit) (patch_ok : bool) (k : cluster S) : cluster S * res action :=
  match k.(seen) with
  | None => (k, Ok AwaitChange)
  | Some v =>
      let ev := finalizer v.(v_deleting) v.(v_finalizer) in
      let '(s, _, r) := on_event tr ctx s3 ns name apply updated ev k.(bao) in
      let k := with_bao k s in
      match ev, r with
      | AddFinalizer, _ => if patch_ok then (patched k v.(v_uid) true, r) else (k, Err "patch du finalizer")
      | EventCleanup, Ok _ => if patch_ok then (patched k v.(v_uid) false, r) else (k, Err "patch du finalizer")
      | _, _ => (k, r)
      end
  end.

(** A Workshop is created and deleted, whoever asks; the controller receives a later version, in
    order, perhaps not every one; it reconciles, one
    reconciliation of an object at a time; and the rest of the world does not touch the role and the policy of this
    Workshop. *)
Inductive kstep : cluster S -> cluster S -> Prop :=
| KCreate k : k.(real) = None -> kstep k (changed k (Some (mkView k.(next) false false)) (Datatypes.S k.(next)))
| KDelete k u h : k.(real) = Some (mkView u false h) -> kstep k (changed k (if h then Some (mkView u true true) else None) k.(next))
| KWatch k skipped v q : k.(queue) = skipped ++ v :: q -> kstep k (mkCluster k.(real) v q k.(next) k.(bao))
| KReconcile k apply updated patch_ok : kstep k (reconcile_seen apply updated patch_ok k).1
| KOther k s : role_view s (role_name_of name) = role_view k.(bao) (role_name_of name) ->
    policy_view s (role_name_of name) = policy_view k.(bao) (role_name_of name) -> kstep k (with_bao k s).
End steps.

(** ** Nothing outlives its Workshop *)

(** What else is relied on of OpenBao: a deletion, even one that fails, creates nothing. *)
Class BaoDelete {S : Type} (tr : server S) `{!KvV2 tr, !BaoAdmin tr} := {
  role_still_none s n tok : role_view s n = None -> role_view (tr s (mkReq HDelete (role_path n) tok None)).1 n = None;
  policy_still_none s n tok : policy_view s n = None -> policy_view (tr s (mkReq HDelete (policy_path n) tok None)).1 n = None }.

(** A version that comes after one where the same object is being deleted has it deleted too. *)
Definition follows (v w : option view) : Prop :=
  forall u h d h', v = Some (mkView u true h) -> w = Some (mkView u d h') -> d = true.
Definition versions {S} (k : cluster S) : list (option view) := k.(seen) :: k.(queue).
Definition kept_by {S} (k : cluster S) (u : nat) : Prop := exists d, k.(real) = Some (mkView u d true).

Section invariant.
Context {S : Type} (tr : server S) `{KV : !KvV2 tr, AD : !BaoAdmin tr} (name : bytes).

Definition present (s : S) : Prop := role_view s (role_name_of name) <> None \/ policy_view s (role_name_of name) <> None.

Record kinv (k : cluster S) : Prop := {
  i_last : last (versions k) = Some k.(real);
  i_sorted : StronglySorted follows (versions k);
  i_fresh v : Some v ∈ versions k -> (v.(v_uid) < k.(next))%nat;
  i_kept u : Some (mkView u false true) ∈ versions k -> kept_by k u;
  i_deleting u h : k.(real) = Some (mkView u true h) -> h = true;
  i_role : present k.(bao) -> exists u, kept_by k u }.

Lemma last_elem k : kinv k -> k.(real) ∈ versions k.
Proof. intros I. apply last_Some_elem_of, I. Qed.
Lemma follows_last k v : kinv k -> v ∈ versions k -> v = k.(real) \/ follows v k.(real).
Proof.
  intros I Hv. destruct (proj1 (last_Some (versions k) k.(real)) (i_last _ I)) as [l Hl]. pose proof (i_sorted _ I) as Hs. rewrite Hl in Hv, Hs.
  apply elem_of_app in Hv as [Hv|Hv%list_elem_of_singleton]; [|by left]. right.
  apply StronglySorted_app in Hs as (H12 & _ & _). apply H12; [done|set_solver].
Qed.

(** A new version. *)
Lemma inv_changed k v n : kinv k -> (k.(next) <= n)%nat -> (forall w, v = Some w -> (w.(v_uid) < n)%nat) ->
  (forall w, w ∈ versions k -> follows w v) ->
  (forall u, Some (mkView u false true) ∈ versions k \/ v = Some (mkView u false true) -> exists d, v = Some (mkView u d true)) ->
  (forall u h, v = Some (mkView u true h) -> h = true) -> (present k.(bao) -> exists u d, v = Some (mkView u d true)) ->
  kinv (changed k v n).
Proof.
  intros I Hn Hu Hf Hk Hd Hr. assert (Hv : versions (changed k v n) = versions k ++ [v]) by done. split.
  - rewrite Hv, last_snoc. done.
  - rewrite Hv. apply StronglySorted_app_2; [|apply I|repeat constructor]. intros w w' Hw ->%list_elem_of_singleton. by apply Hf.
  - intros w. rewrite Hv, elem_of_app, list_elem_of_singleton. cbn [changed next]. intros [Hw|Hw]; [apply (i_fresh _ I) in Hw; lia|by apply Hu].
  - intros u. rewrite Hv, elem_of_app, list_elem_of_singleton. intros Hw. apply Hk. by destruct Hw; [left|right].
  - exact Hd.
  - intros Hp. destruct (Hr Hp) as (u & d & ->). by exists u, d.
Qed.
Lemma inv_bao k s : kinv k -> (present s -> exists u, kept_by k u) -> kinv (with_bao k s).
Proof. intros I Hs. destruct I as [I1 I2 I3 I4 I5 _]. by split. Qed.
Lemma patched_add k u : kinv k -> Some (mkView u false false) ∈ versions k -> kinv (patched k u true).
Proof.
  intros I Hin. unfold patched. destruct (real k) as [[u' d h]|] eqn:Er; [|done]. cbn [v_uid v_deleting]. destruct (Nat.eqb_spec u' u) as [->|]; [|done].
  pose proof (last_elem k I) as Hl. rewrite Er in Hl. apply inv_changed; [done|done|..].
  - intros w [= <-]. by apply (i_fresh _ I (mkView u d h)).
  - intros w Hw u0 h0 d0 h0' -> [= <- <- <-]. destruct (follows_last k _ I Hw) as [Heq|Hf]; [rewrite Er in Heq; by injection Heq as <- _|].
    by apply (Hf u h0 d h).
  - intros u0 [Hw|[= <- Hd]]; [|by exists d]. apply (i_kept _ I) in Hw as [d0 Hw]. rewrite Er in Hw. injection Hw as -> -> _. by exists d0.
  - by intros u0 h0 [= _ _ <-].
  - intros _. by exists u, d.
Qed.
Lemma patched_remove k u h : kinv k -> seen k = Some (mkView u true h) -> ~ present k.(bao) -> kinv (patched k u false).
Proof.
  intros I Hin Hp. unfold patched. destruct (real k) as [[u' d h']|] eqn:Er; [|done]. cbn [v_uid v_deleting]. destruct (Nat.eqb_spec u' u) as [->|]; [|done].
  assert (Hd : d = true).
  { assert (Hv : Some (mkView u true h) ∈ versions k) by (unfold versions; rewrite Hin; set_solver).
    destruct (follows_last k _ I Hv) as [Heq|Hf]; [rewrite Er in Heq; by injection Heq as <- _|by apply (Hf u h d h')]. }
  subst d. apply inv_changed; [done|done|done|by intros ???????|..|done|done].
  intros u0 [Hw|]; [|done]. exfalso. destruct (i_kept _ I u0 Hw) as [d0 Hw']. rewrite Er in Hw'. injection Hw' as <- _ _.
  pose proof (i_sorted _ I) as Hs. unfold versions in Hw, Hs. rewrite Hin in Hw, Hs. apply elem_of_cons in Hw as [Hw|Hw]; [done|].
  apply StronglySorted_cons in Hs as [Hs _]. rewrite Forall_forall in Hs. by pose proof (Hs _ Hw u h false true eq_refl eq_refl).
Qed.
End invariant.

Section outlives.
Context {S : Type} (tr : server S) `{KV : !KvV2 tr, AD : !BaoAdmin tr, BD : !BaoDelete tr}.
Context (finalizer : bool -> bool -> fin_event) `{FI : !Finalizer finalizer} (ctx : ReconcileCtx) (config : OpenBaoConfig) (s3 : bool) (ns name : bytes).
Context (Hbao : ctx.(rc_openbao) = Some config).

(** A cleanup removes the role and the policy when it succeeds, and creates none. *)
Lemma delete_removes s s' : delete_workshop_role tr config s name = (s', Ok tt) -> ~ present tr name s'.
Proof using AD.
  unfold delete_workshop_role. destruct (delete_if_present tr config s _) as [s2 [[]| |]] eqn:E1; [|done..]. intros E2.
  apply delete_if_present_ok in E1 as (-> & st & b & E1 & H1). apply delete_if_present_ok in E2 as (-> & st' & b' & E2 & H2).
  intros [Hr|Hp]; [apply Hr; rewrite policy_keeps_roles; by eapply role_delete|apply Hp; by eapply policy_delete].
Qed.
Lemma delete_state s path : (delete_if_present tr config s path).1 = (tr s (mkReq HDelete path (Some config.(bc_token)) None)).1.
Proof. unfold delete_if_present. by destruct (tr s _). Qed.
Lemma delete_creates_none s : ~ present tr name s -> ~ present tr name (delete_workshop_role tr config s name).1.
Proof using AD BD.
  unfold present. intros Hn. assert (Hr : role_view s (role_name_of name) = None) by (destruct (role_view s _); [exfalso; apply Hn; by left|done]).
  assert (Hp : policy_view s (role_name_of name) = None) by (destruct (policy_view s _); [exfalso; apply Hn; by right|done]).
  unfold delete_workshop_role. pose proof (delete_state s (role_path (role_name_of name))) as Hs.
  destruct (delete_if_present tr config s _) as [s1 r]. cbn [fst] in Hs. subst s1. intros [H|H]; apply H; clear H; destruct r; cbn [fst];
    rewrite ?delete_state, ?policy_keeps_roles; try (apply policy_still_none); rewrite ?role_keeps_policies; try done; by apply role_still_none.
Qed.

Lemma reconcile_inv apply updated patch_ok k : kinv tr name k -> kinv tr name (reconcile_seen tr finalizer ctx s3 ns name apply updated patch_ok k).1.
Proof using AD BD FI Hbao.
  intros I. unfold reconcile_seen. destruct (seen k) as [[u d h]|] eqn:Es; [|done]. cbn [v_deleting v_finalizer v_uid].
  assert (Hseen : Some (mkView u d h) ∈ versions k) by (unfold versions; rewrite Es; set_solver).
  destruct (finalizer d h) eqn:Ef; cbn [on_event].
  - apply fin_add in Ef as [-> ->]. assert (Hk : with_bao k (bao k) = k) by (by destruct k). rewrite Hk.
    destruct patch_ok; [by apply (patched_add tr)|done].
  - apply fin_apply in Ef as [-> ->]. destruct (apply (bao k)) as [s r]. cbn [fst]. apply inv_bao; [done|]. intros _. exists u. by apply (i_kept _ _ _ I).
  - apply fin_cleanup in Ef as [-> ->]. unfold cleanup. rewrite Hbao.
    destruct (delete_workshop_role tr config (bao k) name) as [s r] eqn:Ed.
    assert (Hk : kinv tr name (with_bao k s)).
    { apply inv_bao; [done|]. intros Hp. apply (i_role _ _ _ I). apply dec_stable. intros Hn. apply (delete_creates_none (bao k)) in Hn. by rewrite Ed in Hn. }
    destruct r as [[]| |]; [|done..]. cbn [mbind res_bind]. destruct patch_ok; cbn [fst]; [|done].
    eapply patched_remove; [done|exact Es|]. by apply (delete_removes (bao k)).
  - cbn. apply inv_bao; [done|]. apply (i_role _ _ _ I).
Qed.

Lemma step_inv k k' : kinv tr name k -> kstep tr finalizer ctx s3 ns name k k' -> kinv tr name k'.
Proof using AD BD FI Hbao.
  intros I Hst. destruct Hst as [k Hr|k u h Hr|k skipped v q Hq|k apply updated patch_ok|k s Hro Hpo].
  - assert (Hno : forall u, Some (mkView u false true) ∉ versions k) by (intros u Hu; destruct (i_kept _ _ _ I u Hu) as [d Hd]; by rewrite Hr in Hd).
    apply inv_changed; [done|lia|intros w [= <-]; cbn; lia|..].
    + intros w Hw u h d h' -> [= <- _ _]. apply (i_fresh _ _ _ I) in Hw. cbn in Hw. lia.
    + intros u [Hu|[=]]. by apply Hno in Hu.
    + by intros u h [=].
    + intros Hp. destruct (i_role _ _ _ I Hp) as (u & d & Hk). by rewrite Hr in Hk.
  - pose proof (last_elem tr name k I) as Hl. rewrite Hr in Hl.
    assert (Hk : forall u0, kept_by k u0 -> u0 = u /\ h = true) by (intros u0 [d Hd]; rewrite Hr in Hd; by injection Hd as -> _ ->).
    apply inv_changed; [done|done|..].
    + intros w. destruct h; intros [= <-]. by apply (i_fresh _ _ _ I (mkView u false true)).
    + intros w _ u0 h0 d h' _. by destruct h; intros [= _ <- _].
    + intros u0 [Hu|Hu]; [|by destruct h]. apply (i_kept _ _ _ I), Hk in Hu as [-> ->]. by exists true.
    + intros u0 h0. by destruct h; intros [= _ <-].
    + intros Hp. apply (i_role _ _ _ I) in Hp as [u0 Hp]. apply Hk in Hp as [-> ->]. by exists u, true.
  - destruct I as [I1 I2 I3 I4 I5 I6]. unfold versions in *. rewrite Hq in *.
    apply StronglySorted_cons in I2 as [_ I2]. apply StronglySorted_app in I2 as (_ & _ & I2).
    rewrite last_cons, last_app_cons in I1. split; cbn [real seen queue next bao]; try done.
    + unfold versions. cbn [seen queue]. rewrite last_cons in I1 |- *. by destruct (last q).
    + intros w Hw. apply I3. set_solver.
    + intros u Hu. apply I4. set_solver.
  - by apply reconcile_inv.
  - apply inv_bao; [done|]. unfold present. rewrite Hro, Hpo. apply I.
Qed.
End outlives.

(** C26: Nothing of a Workshop outlives it in OpenBao.  Through every interleaving of creations,
    deletions, reconciliations that succeed or fail anywhere, and versions the controller has not
    received yet, whenever the role or the policy of a Workshop is there, the Workshop is, with its
    finalizer: Kubernetes does not let it go, nobody else taking its finalizer away, until a
    cleanup has succeeded. *)
Theorem role_kept_by_finalizer {S} (tr : server S) `{!KvV2 tr, !BaoAdmin tr, !BaoDelete tr} finalizer `{!Finalizer finalizer} ctx config s3 ns name s0 k :
  ctx.(rc_openbao) = Some config -> ~ present tr name s0 ->
  rtc (kstep tr finalizer ctx s3 ns name) (mkCluster None None [] 0 s0) k ->
  present tr name k.(bao) -> exists uid deleting, k.(real) = Some (mkView uid deleting true).
Proof.
  intros Hb Hs0 Hk. assert (I : kinv tr name k); [|intros Hp; exact (i_role _ _ _ I Hp)].
  revert Hk. apply (rtc_ind_r (fun k => kinv tr name k)); [|intros k1 k2 _ Hst I; by eapply step_inv].
  split; cbn; try done.
  - repeat constructor.
  - intros v Hv. set_solver.
  - intros u Hu. set_solver.
Qed.

Definition kube_finalizer (deleting has : bool) : fin_event :=
  match deleting, has with false, false => AddFinalizer | false, true => EventApply | true, true => EventCleanup | true, false => NoEvent end.
#[global] Instance kube_finalizer_law : Finalizer kube_finalizer.
Proof. split; by intros [] []. Qed.
#[global] Instance toy_admin_delete : BaoDelete toy_admin.
Proof.
  split; intros s n tok Hn; cbn [role_view policy_view] in *; rewrite ?toy_admin_role, ?toy_admin_policy; unfold toy_table; cbn [br_method];
    case_bool_decide; cbn; repeat case_match; cbn; try done; simplify_eq; by rewrite ?lookup_delete_eq.
Qed.

Definition toy_ctx : ReconcileCtx := mkReconcileCtx (Some Provision.toy_bao) (B "registry:5000") false None None None None None None None None None None.
Definition toy_apply (s : admin_state) : admin_state * res unit :=
  let '(s, r) := ensure_workshop_role toy_admin Provision.toy_bao s (B "demo") (B "ws") [B "default"] in (s, _ ← r; Ok tt).
Definition toy_reconcile : cluster admin_state -> cluster admin_state := fun k =>
  (reconcile_seen toy_admin kube_finalizer toy_ctx false (B "ws") (B "demo") toy_apply (Ok tt) true k).1.
Definition toy_watch (k : cluster admin_state) : cluster admin_state :=
  match k.(queue) with v :: q => mkCluster k.(real) v q k.(next) k.(bao) | [] => k end.
Definition toy_empty : cluster admin_state := mkCluster None None [] 0 Provision.toy_store.
(** Created, seen, given the finalizer, and applied. *)
Definition toy_live : cluster admin_state :=
  toy_reconcile (toy_watch (toy_reconcile (toy_watch (changed toy_empty (Some (mkView 0 false false)) 1)))).
Definition toy_deleted : cluster admin_state := changed toy_live (Some (mkView 0 true true)) 1.

(** The life of a Workshop to its end. *)
Example toy_ends : let k := toy_reconcile (toy_watch toy_deleted) in
  real toy_deleted = Some (mkView 0 true true) /\ is_Some (role_view (tr := toy_admin) toy_deleted.(bao) (role_name_of (B "demo"))) /\
  real k = None /\ role_view (tr := toy_admin) k.(bao) (role_name_of (B "demo")) = None.
Proof. vm_compute. split_and!; try done. by eexists. Qed.

Lemma role_kept_by_finalizer_witness :
  present toy_admin (B "demo") toy_deleted.(bao) /\ exists uid deleting, real toy_deleted = Some (mkView uid deleting true).
Proof.
  assert (Hp : present toy_admin (B "demo") toy_deleted.(bao)) by (left; vm_compute; done).
  split; [exact Hp|].
  apply (role_kept_by_finalizer toy_admin kube_finalizer toy_ctx Provision.toy_bao false (B "ws") (B "demo") Provision.toy_store toy_deleted eq_refl);
    [by intros [H|H]; apply H; vm_compute| |exact Hp].
  eapply rtc_l; [by apply KCreate|]. eapply rtc_l; [by eapply (KWatch _ _ _ _ _ _ _ [] _ [])|].
  eapply rtc_l; [exact (KReconcile _ _ _ _ _ _ _ toy_apply (Ok tt) true)|].
  eapply rtc_l; [by eapply (KWatch _ _ _ _ _ _ _ [] _ [])|]. eapply rtc_l; [exact (KReconcile _ _ _ _ _ _ _ toy_apply (Ok tt) true)|].
  eapply rtc_l; [by eapply (KDelete _ _ _ _ _ _ _ 0 true)|]. apply rtc_refl.
Defined.

(** ** Errors *)

(** Whatever fails is tried again in five seconds, and a Workshop that is applied is looked at
    again in fifteen; only a finished cleanup is not. *)
Lemma always_looked_at {S} (tr : server S) ctx s3 ns name apply updated ev s :
  let r := (on_event tr ctx s3 ns name apply updated ev s).2 in
  ev = EventApply \/ ev = EventCleanup -> (r = Ok AwaitChange /\ ev = EventCleanup) \/ exists n, looked_at_in r = Some n /\ (5 <= n <= 15)%Z.
Proof.
  cbn. intros [-> | ->]; cbn [on_event].
  - right. destruct (apply s) as [s' [x| |]]; cbn; [destruct updated; cbn|..]; eexists; (split; [done|lia]).
  - destruct (cleanup _ _ _ _ s ns name) as [[s' steps] [x| |]]; cbn; [by left|right; eexists; split; [done|lia]..].
Qed.

(** The role of a Workshop is named after it, without its namespace: the end of one of that name
    is, for OpenBao, the end of all. *)
Lemma cleanup_ignores_namespace {S} (tr : server S) openbao s3 litellm s ns ns' name :
  (cleanup tr openbao s3 litellm s ns name).1.1 = (cleanup tr openbao s3 litellm s ns' name).1.1.
Proof. unfold cleanup. by destruct openbao; [destruct (delete_workshop_role _ _ _ _) as [? []]|]. Qed.

(** ** Empty variables *)

(** The addresses for the pods are taken as they are: one that is set but empty is not
    the absence of one, and replaces the address of the controller. *)
Lemma empty_pod_addr env ctx :
  env "ATELIER_LLM_PROXY_POD_ADDR"%string = Some [] -> env "ATELIER_COMPONENT_IMAGE_REGISTRY"%string = Some [] -> context_from_env env = Ok ctx ->
  ctx.(rc_llm_proxy_pod_addr) = Some [] /\ (forall x, parse_addr [] <> Ok x) /\
  component_image_ref ctx.(rc_component_image_registry) (B "net-proxy") = B "/atelier-net-proxy:dev".
Proof.
  unfold context_from_env. intros Hp Hr. rewrite Hp, Hr. destruct (config_from_env env); cbn [mbind res_bind]; [|done..].
  destruct (s3_config_from_env env); cbn [mbind res_bind]; [|done..]. intros [= <-]. split_and!; [done| |done]. intros x. vm_compute. done.
Qed.
