(* ===== verification/ServerInstall.v ===== *)
(** * The installation of a server, to the letter

    [src/crates/cli/src/commands/server.rs], what [CliMcp] leaves open of it: the probes of
    [fn doctor] and its report, the command of each step of [fn install], and the values file
    the chart is installed with. *)

From S2P Require Import Prelude RustStr Utf8 F64 Cli CliMcp.

(** ** Probes *)

(** What a program printed: whether it could be run and succeeded, its outputs. *)
Record ran := mkRan { ran_ok : bool; ran_stdout : bytes; ran_stderr : bytes }.

(** [fn which], of what [which] answered. *)
Definition which (answer : option ran) : bool := match answer with Some r => ran_ok r | None => false end.
(** [fn nix_is_root], of [id -u], whatever its status. *)
Definition nix_is_root (answer : option ran) : bool :=
  match answer with Some r => beq (trim (from_utf8_lossy (ran_stdout r))) (B "0") | None => false end.
(** [fn total_memory_gib], of [/proc/meminfo], and the test of [fn doctor]. *)
Definition total_memory_gib (meminfo : option bytes) : res f64 :=
  content ← ok_or meminfo "lecture de /proc/meminfo";
  line ← ok_or (find_first (fun l => starts_with l (B "MemTotal:")) (lines content)) "ligne MemTotal absente de /proc/meminfo";
  word ← ok_or (split_whitespace line !! 1%nat) "format de /proc/meminfo inattendu";
  kib ← ok_or (parse_f64 word) "valeur MemTotal non numerique";
  Ok (fdiv (fdiv kib (f64_of_Z 1024)) (f64_of_Z 1024)).
Definition at_least_8 (gib : f64) : bool := match partial_cmp gib (f64_of_Z 8) with Some Eq | Some Gt => true | _ => false end.
Definition memory_fact (meminfo : option bytes) : option bool :=
  match total_memory_gib meminfo with Ok gib => Some (at_least_8 gib) | _ => None end.
(** [fn detect_nvidia_gpu]: [runtime] is whether [nvidia-container-runtime] was found. *)
Definition detect_nvidia_gpu (smi : option ran) (runtime : bool) : res bytes :=
  out ← ok_or smi "nvidia-smi introuvable ou injoignable";
  if negb (ran_ok out) then Err "nvidia-smi a echoue"
  else
    first ← ok_or (head (lines (from_utf8_lossy (ran_stdout out)))) "nvidia-smi n'a signale aucun GPU";
    let gpu := trim first in
    if is_empty gpu then Err "nvidia-smi n'a signale aucun GPU"
    else if runtime then Ok gpu else Err "nvidia-container-runtime est absent du PATH".
(** [fn check_port_free], of a bind. *)
Inductive bind_answer := Bound | BindDenied | BindTaken.
Definition check_port_free (b : bind_answer) : bool := match b with Bound => true | _ => false end.

(** What the machine answers to all of them. *)
Record probes := mkProbes {
  pr_arch : bytes; pr_kvm : bool; pr_meminfo : option bytes; pr_bind : Z -> bind_answer; pr_which : bytes -> option ran; pr_smi : option ran; pr_id : option ran }.
Definition facts_of (p : probes) : machine_facts :=
  mkFacts (pr_arch p) (pr_kvm p) (memory_fact (pr_meminfo p)) (check_port_free (pr_bind p 80)) (check_port_free (pr_bind p 443))
    (which (pr_which p (B "systemctl")))
    (match detect_nvidia_gpu (pr_smi p) (which (pr_which p (B "nvidia-container-runtime"))) with Ok _ => true | _ => false end)
    (nix_is_root (pr_id p)).

(** ** The commands of a step *)

Definition CLUSTER_ISSUER : bytes := B "letsencrypt-prod".
Definition DEFAULT_NAMESPACE : bytes := B "atelier-system".
Definition install_dir (env : string -> option bytes) : bytes := default (B "/opt/atelier") (env "ATELIER_INSTALL_DIR"%string).
Definition values_path (dir : bytes) : bytes := dir ++ B "/values-generated.yaml".
Definition repo_dir (dir : bytes) : bytes := dir ++ B "/src".
Definition REPO_URL : bytes := B "https://github.com/PhilippeVienne/atelier.git".
Definition helm_chart (name chart version ns set_ timeout : bytes) : list bytes :=
  [B "helm"; B "upgrade"; B "--install"; name; chart; B "--version"; version; B "--namespace"; ns; B "--create-namespace"; B "--set"; set_;
   B "--wait"; B "--timeout"; timeout].
(** The program and its arguments, for the steps that run one; [cloned]: whether the repository is
    already there, whose update has two commands. *)
Definition step_commands (dir : bytes) (cloned : bool) (s : install_step) : list (list bytes) :=
  match s with
  | InstallK3s => [[B "sh"; B "-c"; B "curl -sfL https://get.k3s.io | INSTALL_K3S_EXEC=" ++ [34] ++ B "--disable=traefik" ++ [34] ++ B " sh -"]]
  | WaitNode => [[B "kubectl"; B "wait"; B "--for=condition=Ready"; B "node"; B "--all"; B "--timeout=300s"]]
  | InstallHelm => [[B "sh"; B "-c"; B "curl -fsSL https://raw.githubusercontent.com/helm/helm/main/scripts/get-helm-3 | bash"]]
  | RepoAddIngress => [[B "helm"; B "repo"; B "add"; B "ingress-nginx"; B "https://kubernetes.github.io/ingress-nginx"]]
  | RepoAddJetstack => [[B "helm"; B "repo"; B "add"; B "jetstack"; B "https://charts.jetstack.io"]]
  | RepoUpdate => [[B "helm"; B "repo"; B "update"]]
  | IngressNginx => [helm_chart (B "ingress-nginx") (B "ingress-nginx/ingress-nginx") (B "4.15.1") (B "ingress-nginx")
                       (B "controller.ingressClassResource.default=true") (B "5m")]
  | CertManager => [helm_chart (B "cert-manager") (B "jetstack/cert-manager") (B "v1.21.1") (B "cert-manager") (B "crds.enabled=true") (B "5m")]
  | ApplyIssuer => [[B "kubectl"; B "apply"; B "-f"; B "-"]]
  | CloneRepo =>
      let git := [B "git"; B "-C"; repo_dir dir] in
      if cloned then [git ++ [B "fetch"; B "--depth"; B "1"; B "origin"; B "main"]; git ++ [B "reset"; B "--hard"; B "origin/main"]]
      else [[B "git"; B "clone"; B "--depth"; B "1"; REPO_URL; repo_dir dir]]
  | ApplyCrd => [[B "kubectl"; B "apply"; B "-f"; repo_dir dir ++ B "/crds/workshop.yaml"]]
  | HelmAtelier => [[B "helm"; B "upgrade"; B "--install"; B "atelier"; repo_dir dir ++ B "/charts/atelier"; B "--namespace"; DEFAULT_NAMESPACE;
                     B "--create-namespace"; B "-f"; values_path dir; B "--wait"; B "--timeout"; B "10m"]]
  | CreateDir | EnsureCredentials | WriteValues => []
  end.

(** ** The files *)

Definition issuer_lines (email : bytes) : list bytes :=
  [B "apiVersion: cert-manager.io/v1"; B "kind: ClusterIssuer"; B "metadata:"; B "  name: " ++ CLUSTER_ISSUER; B "spec:"; B "  acme:";
   B "    server: https://acme-v02.api.letsencrypt.org/directory"; B "    email: " ++ email; B "    privateKeySecretRef:";
   B "      name: " ++ CLUSTER_ISSUER ++ B "-account-key"; B "    solvers:"; B "      - http01:"; B "          ingress:";
   B "            ingressClassName: nginx"].
Definition quoted_value (key value : bytes) : bytes := key ++ B ": " ++ [34] ++ value ++ [34].
(** [fn write_values_file]. *)
Definition values_lines (domain : bytes) (c : Credentials) (openbao_production enable_gpu : bool) : list bytes :=
  [B "# Genere par `atelier server install` " ++ [226; 128; 148] ++ B " ne pas committer, ne pas partager."; B "domains:";
   quoted_value (B "  keycloak") (B "auth." ++ domain); quoted_value (B "  forgejo") (B "git." ++ domain);
   quoted_value (B "  dashboard") (B "app." ++ domain); quoted_value (B "  apiServer") (B "api." ++ domain); [];
   B "ingress:"; quoted_value (B "  className") (B "nginx"); [];
   B "tls:"; B "  enabled: true"; B "  certManager:"; B "    enabled: true"; quoted_value (B "    issuer") CLUSTER_ISSUER;
   quoted_value (B "    issuerKind") (B "ClusterIssuer"); [];
   B "postgresql:"; B "  auth:"; quoted_value (B "    adminPassword") c.(postgres_admin_password);
   quoted_value (B "    migratorPassword") c.(postgres_migrator_password); [];
   B "keycloak:"; B "  auth:"; quoted_value (B "    adminPassword") c.(keycloak_admin_password); [];
   B "litellm:"; quoted_value (B "  masterKey") c.(litellm_master_key); quoted_value (B "  saltKey") c.(litellm_salt_key); [];
   B "openbao:"; B "  devMode: " ++ (if openbao_production then B "false" else B "true")]
  ++ if enable_gpu then [B "gpu:"; B "  enabled: true"; B "  resources:"; B "    limits:"; B "      " ++ [34] ++ B "nvidia.com/gpu" ++ [34] ++ B ": 1"] else [].
Definition write_values_file (domain : bytes) (c : Credentials) (openbao_production enable_gpu : bool) : bytes :=
  unlines (values_lines domain c openbao_production enable_gpu).

(** The files an installation leaves: [credentials.txt], then the values, once it came to them. *)
Record installed_files := mkInstalledFiles { credentials_file : option bytes; values_file : option bytes }.
Definition write_files (domain : bytes) (openbao_production enable_gpu : bool) (fresh : Credentials) (f : installed_files) : installed_files * res unit :=
  match ensure_credentials f.(credentials_file) fresh with
  | (cf, Ok c) => (mkInstalledFiles cf (Some (write_values_file domain c openbao_production enable_gpu)), Ok tt)
  | (cf, Err e) => (mkInstalledFiles cf f.(values_file), Err e)
  | (cf, Panic) => (mkInstalledFiles cf f.(values_file), Panic)
  end.

(** ** What is installed *)

(** An installation that runs again, whatever it would draw, leaves the same credentials and the same
    values as the first. *)
Theorem reinstall_same domain production gpu draw fresh f values :
  (forall i, Forall (fun b => 0 <= b < 256) (draw i)) ->
  write_files domain production gpu (generated draw) (mkInstalledFiles None values) = (f, Ok tt) ->
  write_files domain production gpu fresh f = (f, Ok tt).
Proof.
  intros Hd. destruct (credentials_kept draw fresh Hd) as [_ Hk].
  change (ensure_credentials None (generated draw)) with (Some (credentials_text (generated draw)), Ok (generated draw)) in Hk. cbn [fst] in Hk.
  unfold write_files at 1. cbn [credentials_file]. change (ensure_credentials None (generated draw)) with (Some (credentials_text (generated draw)), Ok (generated draw)).
  intros [= <-]. unfold write_files. cbn [credentials_file]. by rewrite Hk.
Qed.

(** The chart is given the credentials of the file, the domain and the choices of the command. *)
Theorem values_given domain production gpu draw :
  (forall i, Forall (fun b => 0 <= b < 256) (draw i)) -> plain_line domain ->
  let c := generated draw in let ls := lines (write_values_file domain c production gpu) in
  ls = values_lines domain c production gpu /\
  List.filter (fun l => starts_with l (B "  devMode: ")) ls = [B "  devMode: " ++ if production then B "false" else B "true"] /\
  List.filter (fun l => starts_with l (B "gpu:")) ls = if gpu then [B "gpu:"] else [].
Proof.
  intros Hd Hdom c ls. assert (Hp : forall s, plain_line (random_hex (draw s))) by (intros s; apply random_hex_plain, Hd).
  assert (Hl : ls = values_lines domain c production gpu).
  { unfold ls, write_values_file. apply lines_unlines. unfold values_lines. rewrite Forall_app. split.
    - rewrite !Forall_cons, Forall_nil. unfold quoted_value. split_and!; try done;
        repeat (apply plain_app; [|]); try done; try apply Hp; try (destruct production); split; by apply (bool_decide_unpack _).
    - destruct gpu; [|constructor]. rewrite !Forall_cons, Forall_nil. split_and!; try done; split; by apply (bool_decide_unpack _). }
  split; [done|]. rewrite Hl. clear. split; destruct production, gpu; vm_compute; reflexivity.
Qed.

(** A GPU that counts is named by the driver, and can be given to pods; without one, an installation
    with [--enable-gpu] runs no step. *)
Lemma gpu_usable p : (facts_of p).(gpu) = true <->
  exists out gpu rest, pr_smi p = Some out /\ ran_ok out = true /\ lines (from_utf8_lossy (ran_stdout out)) = gpu :: rest /\ trim gpu <> [] /\
    which (pr_which p (B "nvidia-container-runtime")) = true.
Proof.
  unfold facts_of, detect_nvidia_gpu. cbn [gpu]. destruct (pr_smi p) as [out|]; cbn [ok_or mbind res_bind]; [|split; [done|by intros (? & ? & ? & ? & _)]].
  destruct (ran_ok out) eqn:Eo; cbn [negb]; [|split; [done|intros (o & ? & ? & [= <-] & Ho & _); congruence]].
  destruct (lines _) as [|g rest] eqn:El; cbn [head ok_or mbind res_bind]; [split; [done|intros (o & ? & ? & [= <-] & _ & Hl & _); congruence]|].
  destruct (trim g) as [|b t] eqn:Et; cbn [is_empty].
  - split; [done|]. intros (o & g' & r & [= <-] & _ & Hl & Ht & _). rewrite El in Hl. by injection Hl as <- <-.
  - destruct (which _); (split; [|done || by intros (? & ? & ? & _ & _ & _ & _ & ?)]); [|done]. intros _. exists out, g, rest. by rewrite Et.
Qed.
Lemma gpu_required p has_k3s has_helm ok steps r : install (facts_of p) true has_k3s has_helm ok = (steps, r) -> steps <> [] -> (facts_of p).(gpu) = true.
Proof.
  unfold install. destruct (is_root _); cbn [negb]; [|by intros [= <- _]]. destruct (doctor _); [|by intros [= <- _]..].
  destruct (gpu (facts_of p)); [done|]. by intros [= <- _].
Qed.

(** The limit of the memory, in KiB. *)
Definition meminfo (total : bytes) : option bytes := Some (B "MemTotal:       " ++ total ++ B " kB" ++ [10] ++ B "MemFree: 1 kB" ++ [10]).
Example memory_limit : memory_fact (meminfo (B "8388608")) = Some true /\ memory_fact (meminfo (B "8388607")) = Some false /\ memory_fact None = None.
Proof. vm_compute. done. Qed.
